(* ===== verification/_CoqProject ===== *)
-Q . S2P
Prelude.v
ResourceNames.v
Kube.v
Semver.v
Net.v
CloudApi.v
ClusterApi.v
Rbac.v
RbacSync.v
RbacSpec.v
RbacGrants.v
Helper.v
HelperSpec.v
Corev1.v
TimeFormat.v
NetSpec.v
EtcdBackup.v
EtcdBackupFacts.v
EtcdBackupInv.v
EtcdBackupSpec.v
EtcdBackupSchedule.v
VersionManager.v
Field.v
ClusterDefaulting.v
ClusterValidation.v
ClusterValidationSpec.v
ClusterDefaultingSpec.v
ClusterAdmission.v
ClusterAdmissionSpec.v
UpdateController.v
UpdateControllerSpec.v
ClusterPhase.v
AutoUpdate.v
Reconciling.v
ClusterDeletion.v
ClusterDeletionSpec.v
Workloads.v
ControlPlane.v
ControlPlaneSpec.v
ClusterAddressing.v
ClusterHealth.v
ClusterResources.v
ClusterController.v
ClusterResourcesSpec.v
ClusterControllerSpec.v
EtcdRestore.v
Encryption.v
EncryptionSpec.v
Ipam.v
IpamSpec.v
MasterApi.v
MasterSync.v
MasterSyncSpec.v
SeedSync.v
SeedSyncSpec.v
ProjectMembers.v
ProjectMembersSpec.v
SeedAdmission.v
SeedProjects.v
SeedProjectsSpec.v
Constraints.v
ConstraintsSpec.v
UserCluster.v
UserClusterSpec.v
Applications.v
ApplicationsSpec.v
Addons.v
Memory.v
Samples.v
WitnessBackup.v
WitnessCluster.v
WitnessIpam.v
WitnessAdmission.v
WitnessRbac.v
WitnessDeletion.v
WitnessController.v
WitnessMaster.v
WitnessSeed.v
WitnessSync.v
WitnessUser.v
