(* ===== verification/Prelude.v ===== *)
(** * Kubermatic Kubernetes Platform: a verification library

    KKP runs the control planes of user clusters as workloads of a seed cluster.
    Controllers of the seed-controller-manager watch [Cluster], [EtcdBackupConfig]
    and [EtcdRestore] objects, compare them with what runs, and act through the
    Kubernetes API; controllers of the master-controller-manager give the members of
    projects access to their objects; webhooks default and check every cluster before
    it is stored.  They share no memory: they interact through stored objects, whose
    status records how far each controller got.  This library models the controllers
    that decide about a cluster's data and versions, the version manager and the
    helpers they are built from, the admission and the deletion of clusters, the access
    control of projects, and the address allocation that runs beside a user cluster, as
    executable functions, and proves what makes them correct.  The cluster controller
    runs the control plane of a cluster in its namespace on the seed: the library models
    which objects it keeps there, in which order, and when it removes them.  Controllers
    of the master keep copies of projects, users and what belongs to them on the seeds;
    controllers beside a user cluster give access to it, install applications and report
    on its nodes.

    ** Modelling

    A Go function with effects is a computation [M W A] on an abstract world [W]
    (this file): it returns a value, an error or a panic, and a new world.  Errors
    keep their API reason and their causes.  The API server, client-go's retry
    loop, the clock, random strings, the cron, YAML, S3 and semver libraries, struct
    merging and the cloud providers are not part of the sources: they are fields of
    an environment record per component ([BackupEnv], [RestoreEnv], [UpdateEnv],
    [AutoUpdateEnv], [PhaseEnv], [EncryptionEnv], [IpamEnv], [AdmissionEnv],
    [RbacClients], [ProjectController], [Deletion], [ClusterReconciler],
    [Synchronizer], [MemberClients], [LabelEnv], [SeedValidator], [TemplateEnv],
    [AddonEnv], [SeedEnv], [ConstraintEnv], [TemplateSyncEnv], [ConstraintSyncEnv],
    [UserEnv], [ApplicationEnv]) or type classes ([SemverLib], [WireTime],
    [StringSets], [KubeNet], [DefaultingLibs]), with their documented behaviour as the
    laws of classes ([SemverLaws], [ClusterWorld], [BackupWorld], [UpdateWorld],
    [AutoUpdateWorld], [RestoreWorld], [EncryptionWorld], [IpamWorld], [StoreLaws],
    [AdmissionWorld],
    [RbacWorld], [DeletionWorld], [ControlPlaneWorld], [HealthWorld],
    [FinalizerWorld], [SyncWorld], [SecretStores], [MemberWorld], [LabelWorld],
    [SeedWorld], [CleanupWorld], [PresetWorld], [InstanceWorld], [AddonWorld],
    [SeedStores], [SeedProbes], [ConstraintWorld], [SyncerWorld], [TemplateWorld],
    [AccessWorld], [NodeWorld], [LabelledNodes], [ApplicationWorld]).
    Those laws cover calls that fail after the server has applied them,
    conflicts, merge patches that leave out unchanged fields, status subresources
    that main updates do not touch, and times that lose their fractions of a second
    on the wire.  Theorems are proved against the classes; [Memory], [Samples] and
    the [Witness] files give concrete API servers with instances of all of them, on
    which the witnesses run the code.  Some classes give a view of what an installation
    is at a time ([UpdateSite], [AdmissionSite], the [Site] of a deletion, [Probe] of a
    seed), so that specifications speak of the very configuration, nodes or load
    balancers that a run meets.  Specifications spell out names of roles, selections,
    verdicts and phases of their own and do not call the code that computes them.

    A pointer receiver that a client call fills is the returned object; nil
    dereferences, empty slices and slice bounds are panics.  Integers that can
    wrap ([time.Duration], minors of versions) keep their width.  Time counts
    nanoseconds from the zero time of Go.

    ** Files

    - [Prelude]: errors, outcomes, the monad, loops over slices, inversion
      ([m_inv], [o_inv]), frames ([keeps], the tactic [frame] with the hint
      database [kkp_frame]), a small program logic ([triple]), lists and integers.
    - [Kube]: metadata, clients, retries, and finalizers and owner references of
      [pkg/kubernetes/helper.go].
    - [Semver]: [pkg/semver/semver.go] and the skew rule of
      [pkg/validation/nodeupdate].
    - [Net], [NetSpec]: the parts of Go's [net] that addresses and ranges need, on
      byte slices, with parsing and printing.
    - [CloudApi]: network ranges, CNI plugins, cloud provider, datacenter, component
      and seed settings of [pkg/apis/kubermatic/v1], [pkg/provider/types.go] and
      [pkg/version/cni].
    - [ClusterApi], [Helper], [HelperSpec]: [pkg/apis/kubermatic/v1/cluster.go] and
      [pkg/apis/kubermatic/v1/helper/helper.go]: status updates, conditions, the
      reconcile wrapper, health.  [UpdateClusterStatus_inv] is the interface the
      controllers use.
    - [Corev1], [TimeFormat]: workload types, [strings], dates.
    - [Rbac], [RbacSync]: the RBAC controllers of the master (names, verbs, roles and
      bindings of [mapper.go]; [sync_project.go], [sync_resource.go]); [RbacSpec] and
      [RbacGrants]: the theorems.
    - [EtcdBackup]: the etcd backup controller, one definition per method of
      [etcd_backup_controller.go]; [EtcdBackupFacts] (what each step does to the
      entries), [EtcdBackupInv] (the invariant of the stored object),
      [EtcdBackupSpec] and [EtcdBackupSchedule] (the theorems).
    - [VersionManager]: [pkg/version].
    - [Field], [ClusterDefaulting], [ClusterValidation], [ClusterAdmission]: field
      errors, [pkg/defaulting/cluster.go] with [DefaultSeed], [pkg/validation/cluster.go]
      and both webhooks of [pkg/webhook/cluster]; the theorems are in the files with
      the suffix [Spec].
    - [UpdateController], [UpdateControllerSpec]: the update controller.
    - [ClusterPhase], [AutoUpdate]: the phase and the auto update controller.
    - [Reconciling]: [pkg/resources/reconciling/ensure.go].
    - [ClusterDeletion], [ClusterDeletionSpec]: [pkg/clusterdeletion].
    - [ResourceNames], [Workloads]: names of control plane objects
      ([pkg/resources/resources.go] and the packages beside it), health and rollout of
      workloads ([pkg/resources/health.go], [pkg/kubernetes/helper.go]).
    - [ControlPlane]: the creators of [kubernetes/resources.go] with their conditions,
      and the objects to delete ([pkg/resources/*/deletion.go]); [ControlPlaneSpec]: the
      same as a table of components.
    - [ClusterAddressing]: [pkg/resources/address].
    - [ClusterHealth], [ClusterResources], [ClusterController]: the cluster controller
      ([pkg/controller/seed-controller-manager/kubernetes]: [health.go], [launching.go];
      [resources.go], [address.go]; [pending.go], [cluster_controller.go]) with
      [pkg/controller/util/util.go] and the generated reconcilers it calls;
      [ClusterResourcesSpec] and [ClusterControllerSpec]: the theorems.
    - [EtcdRestore]: the etcd restore controller and
      [GetEtcdRestoreS3Client].
    - [Encryption], [EncryptionSpec]: the encryption-at-rest controller and its job.
    - [Ipam], [IpamSpec]: the IPAM controller of the user-cluster-controller-manager.
    - [MasterApi]: users, project bindings, SSH keys and the objects that are only handed
      on ([pkg/apis/kubermatic/v1]).
    - [MasterSync]: the synchronizers of the master, one module per controller
      ([project-synchronizer], [user-synchronizer], [user-project-binding-synchronizer],
      [cluster-template-synchronizer], [preset-synchronizer],
      [application-definition-synchronizer], [master-constraint-controller],
      [master-constraint-template-controller], [application-secret-synchronizer]);
      [MasterSyncSpec]: the theorems.
    - [SeedSync], [SeedSyncSpec]: [seed-sync] and [seed-status-controller] of the master,
      with the getters of [pkg/provider/seed.go].
    - [ProjectMembers]: [user-project-binding], [usersshkey-project-ownership],
      [serviceaccount-projectbinding-controller], [usersshkey-synchronizer] and
      [project-label-synchronizer]; [ProjectMembersSpec]: the theorems.
    - [SeedAdmission]: the webhook for seeds ([pkg/webhook/seed],
      [pkg/validation/metering.go]).
    - [SeedProjects], [SeedProjectsSpec]: [project], [preset-controller] and
      [cluster-template-controller] of the seed-controller-manager.
    - [Constraints], [ConstraintsSpec]: [constraint-controller] and
      [constraint-template-controller] of the seed-controller-manager and
      [constraint-syncer] of the user-cluster-controller-manager, in both editions
      ([pkg/ee]).
    - [UserCluster], [UserClusterSpec]: [rbac], [role-cloner-controller],
      [owner-binding-creator], [cluster-role-labeler], [node-labeler],
      [node-version-controller] and [ccm-csi-migrator] of the
      user-cluster-controller-manager, one module per controller, and the check for paused
      clusters.
    - [Applications], [ApplicationsSpec]: [pkg/apis/apps.kubermatic/v1], the checks of
      [pkg/validation] and the webhook of installations, [pkg/applications/installer.go]
      and [application-installation-controller].
    - [Addons]: the addon installer ([addoninstaller]).
    - [Memory], [Samples], [WitnessBackup], [WitnessCluster], [WitnessIpam],
      [WitnessAdmission], [WitnessRbac], [WitnessDeletion], [WitnessController],
      [WitnessMaster], [WitnessSeed], [WitnessSync], [WitnessUser]: concrete runs.

    ** What is shown

    Backups: an invariant of the stored object over all histories, with failing
    runs ([stored_backups_invariant]); each step follows the life cycle of an entry
    ([step_lifecycle]); the scheduled backup is the last missed activation and the
    loop terminates ([nextBackup_schedule], and [nextBackup_diverges] for the
    schedules where it does not); retention, limits and forgetting ([retention],
    [tracked_bound], [forgotten_entries]); jobs ([backup_jobs_ok]).

    Updates: the order of a control plane update and its guards, for the configuration
    of the installation at that time ([apiserver_bump_safe], [initialVersions_spec]), the choice of the next version
    ([getNextApiserverVersion_spec]), the running version
    ([getOldestAvailableVersion_spec]), rules and incompatibilities
    ([GetPossibleUpdates_spec], [GetVersionsForProvider_spec]), node skew
    ([AutomaticNodeUpdate_skew]), one automatic update at a time
    ([automatic_update_once]).

    Encryption: the controller refines a state machine whose edges carry evidence
    ([encryption_phases]), with a change it does not see
    ([resources_change_ignored]).  Restores: one at a time
    ([restore_mutual_exclusion]), waiting for etcd ([rebuild_waits]).

    Admission: what a cluster keeps over all accepted updates ([cluster_identity]),
    what is true of every accepted object at the site that accepts it
    ([admission_valid]), the checks against
    declarative specifications ([network_checks_exact], [update_checks_exact]),
    defaulting ([defaulting_stable]), and two traps ([canal_upgrade_stuck],
    [encryption_flag_unprotected]).

    Access: the verbs of the groups ([access_matrix]), what a whole run grants
    ([sync_grants], by a table of verbs) and what it leaves alone ([sync_isolated], with
    names of roles spelled out), bindings that
    projects share ([shared_binding_roundtrip]), roles that are not repaired
    ([namespaced_roles_stuck]).

    Deletion: finalizers and resources of a cluster go in their order and only with
    evidence ([deletion_order]; constraints are deleted first, load balancers are
    checked), and all of KKP's finalizers go when nothing is left
    ([deletion_finishes]); the wait for load balancers is inverted
    ([loadbalancers_gone_spec]).

    Control planes: a complete run implements the table of components: what it
    creates, what it removes, and what stays of components that are switched off
    ([control_plane_deployed]; [creators_well_formed] for the names), stays within the
    namespace of its cluster ([control_planes_isolated]), waits for addresses and
    infrastructure ([deployment_gates]), and forgets one secret
    ([encryption_secret_survives]); finalizers only grow and the one for nodes needs an
    API server that answers ([reconcile_finalizers]); health
    ([clusterHealth_spec]), the limit on updates ([concurrency_limit]) and the
    address of a cluster ([address_converges]).

    Master and seeds: each synchronizer keeps copies of live objects on all seeds,
    touches them only under a guard, and lets a deleted object go only when its copies
    are ([synchronizers_replicate]), one
    of them never gets through ([application_secrets_stuck]); owners of projects
    ([binding_ownership], [binding_without_user_stuck]) and labels that clusters inherit
    ([label_inheritance]); copies of seeds on their clusters and the order in which they
    go ([seed_copies]; [shared_seed_stuck] for a seed on the cluster of the master), and
    the status of seeds, by tables of verdicts and phases ([seed_status_coherent]).

    Seeds: datacenters over all accepted changes of seeds ([seed_admission]), clusters
    before their project ([project_cleanup]), presets ([preset_invalidation]), addons
    ([addons_installed]; [openvpn_without_client] for a gap between addons and control
    plane), instances of templates that lose clusters ([template_instances_vanish]).

    Constraints: from the seed to the namespaces of the clusters
    ([constraint_distribution], [missing_constraint_fails]), from there into the user
    clusters ([constraint_guard], [constraint_rendering]), and their templates
    ([template_rollout]).

    User clusters: what the groups of a project can do ([user_cluster_access]), roles of
    all namespaces ([role_clones]), bindings of the API ([owner_bound_once]), labels of
    nodes ([node_labels]), the oldest node, which makes the skew check of the update
    controller cover all nodes ([oldest_node_reported]), and the end of a migration
    ([migration_condition]).  Applications: what definitions may hold
    ([definition_checks_exact]), what an installation keeps ([installation_identity]), and
    its life from the guard to the deletion of its namespace ([application_lifecycle];
    [shared_namespace_deleted] for one that others use).

    Addresses of machines: no two live machines get the same IPv4 address, although
    reads come from a cache that lags behind, as long as the run after a failed one
    waits for the cache ([addresses_unique]; [timeout_duplicates] for what happens
    otherwise); the search ends and finds the lowest
    free address in the first range that has one ([getNextFreeIPForCIDR_spec],
    [firstFree_spec]); stored addresses are read back ([cidr_roundtrip]).

    Shared helpers: conditions ([SetClusterCondition_spec]), the wrapper
    ([wrapper_condition]), the phase ([phase_stored]), ensured objects
    ([EnsureNamedObject_spec]).

    ** Fuel and bounds

    Two loops have an end that the code does not bound.  The catch-up loop over
    cron activations has its fuel [be_fuel] in the environment, and
    [nextBackup_schedule] asks for one unit per second between the start of the
    schedule and now, which suffices because activations are at least a second apart.
    The search for a free address has [ie_fuel]; [getNextFreeIPForCIDR_spec] and
    [firstFree_spec] ask for one unit per address of a range of at least one prefix
    bit (without one, the increment wraps around and a full range is searched for
    ever), and [addresses_unique] holds for every fuel, since it is about what is
    stored.  [only_space], [strings_Remove] and the loops of [Net] consume a part of
    the text or of the address per step and get its length.  All other functions
    are structural.

    ** Not modelled

    Watch and manager wiring ([Add] functions), logging, metrics, the bodies of the
    control plane objects (the templates are the field [k8_template] of
    [ClusterReconciler], which gives each object from the template data; what is
    modelled is which objects there are), the certificate and CA bundle reconciliation
    before a backup run ([ensureSecrets], [ensureConfigMaps] of the backup controller,
    an effectful argument), name resolution and URL parsing, [ValidateUpdateWindow], the
    schema of application definitions, the decoding of requests to webhooks, the
    objects that are installed inside user clusters, the other controllers and webhooks,
    API handlers, cloud providers, the operator and the
    installer.  Copying the credentials
    of a cluster template to a new cluster ([te_credentials]) is an effectful argument as
    well. *)

From stdpp Require Export base gmap strings list fin_maps numbers sorting pretty.
From Stdlib Require Export ZArith Lia.

#[global] Open Scope Z_scope.
#[global] Set Default Goal Selector "!".

(** ** Go errors

    An [error] value of the sources is one of: a status error of the API server
    with its reason, [errors.New]/[fmt.Errorf] without a cause, [fmt.Errorf]
    with [%w], and apimachinery's [Aggregate].  Of a formatted message the model
    keeps the constant part; causes and reasons are kept in full. *)

Inductive api_reason := ReasonNotFound | ReasonAlreadyExists | ReasonConflict | ReasonUnknown.

#[global] Instance api_reason_eq_dec : EqDecision api_reason.
Proof. solve_decision. Defined.

#[warnings="-register-all"]
Inductive error :=
| ErrAPI (reason : api_reason) (msg : string)
| ErrNew (msg : string)
| ErrWrap (msg : string) (cause : error)
| ErrAggregate (errs : list error).

(** [apierrors.ReasonForError] looks through wrapped errors ([errors.As]), and
    stops at an aggregate, which has no [Unwrap]. *)
Fixpoint ReasonForError (e : error) : api_reason :=
  match e with
  | ErrAPI r _ => r
  | ErrWrap _ e' => ReasonForError e'
  | ErrNew _ | ErrAggregate _ => ReasonUnknown
  end.

(** [err.Error()]: a wrapped cause follows its message after a colon; an
    aggregate of several distinct messages lists them once each in brackets. *)
Fixpoint error_string (e : error) : string :=
  match e with
  | ErrAPI _ msg | ErrNew msg => msg
  | ErrWrap msg e' => msg +:+ ": " +:+ error_string e'
  | ErrAggregate [e'] => error_string e'
  | ErrAggregate es =>
      let msgs := foldl (λ seen m, if existsb (String.eqb m) seen then seen else seen ++ [m]) []
                    (map error_string es) in
      match msgs with
      | [m] => m
      | _ => "[" +:+ String.concat ", " msgs +:+ "]"
      end
  end.

Definition IsNotFound (e : error) : bool := bool_decide (ReasonForError e = ReasonNotFound).
Definition IsAlreadyExists (e : error) : bool := bool_decide (ReasonForError e = ReasonAlreadyExists).
Definition IsConflict (e : error) : bool := bool_decide (ReasonForError e = ReasonConflict).

(** ** The effect monad

    A Go function that talks to the API server, reads the clock or draws random
    strings is a computation on a world [W]: it returns a value, an error, or
    panics, and leaves a new world.  A panic is not an error: no [err != nil]
    test sees it.  [OutOfFuel] is a loop that the fuel of the model did not
    finish. *)

Inductive outcome (A : Type) :=
| Ok (a : A)
| Err (e : error)
| Panic (msg : string)
| OutOfFuel.
Arguments Ok {A} a.
Arguments Err {A} e.
Arguments Panic {A} msg.
Arguments OutOfFuel {A}.

Definition M (W A : Type) : Type := W → outcome A * W.

Definition M_ret {W A} (a : A) : M W A := λ w, (Ok a, w).
Definition M_bind {W A B} (k : A → M W B) (m : M W A) : M W B := λ w,
  match m w with
  | (Ok a, w') => k a w'
  | (Err e, w') => (Err e, w')
  | (Panic s, w') => (Panic s, w')
  | (OutOfFuel, w') => (OutOfFuel, w')
  end.
#[global] Instance M_MRet W : MRet (M W) := λ A, M_ret.
#[global] Instance M_MBind W : MBind (M W) := λ A B, M_bind.

Definition throw {W A} (e : error) : M W A := λ w, (Err e, w).
Definition panic {W A} (s : string) : M W A := λ w, (Panic s, w).

(** [x, err := f()]: the error becomes a value that the caller inspects. *)
Definition try {W A} (m : M W A) : M W (error + A) := λ w,
  match m w with
  | (Ok a, w') => (Ok (inr a), w')
  | (Err e, w') => (Ok (inl e), w')
  | (Panic s, w') => (Panic s, w')
  | (OutOfFuel, w') => (OutOfFuel, w')
  end.

(** [if err := f(); err != nil { return fmt.Errorf("msg: %w", err) }] *)
Definition wrap {W A} (msg : string) (m : M W A) : M W A := λ w,
  match m w with
  | (Err e, w') => (Err (ErrWrap msg e), w')
  | r => r
  end.

(** Pure fallible code: [(T, error)] without effects. *)
Definition lift {W A} (r : outcome A) : M W A := λ w, (r, w).

(** Calls that cannot fail: reading the clock, drawing a random string,
    recording an event. *)
Definition read {W A} (f : W → A * W) : M W A := λ w, let '(a, w') := f w in (Ok a, w').
Definition emit {W} (f : W → W) : M W unit := λ w, (Ok tt, f w).

Definition outcome_bind {A B} (k : A → outcome B) (o : outcome A) : outcome B :=
  match o with Ok a => k a | Err e => Err e | Panic s => Panic s | OutOfFuel => OutOfFuel end.
#[global] Instance outcome_MRet : MRet outcome := λ A, Ok.
#[global] Instance outcome_MBind : MBind outcome := λ A B, outcome_bind.
Definition outcome_wrap {A} (msg : string) (o : outcome A) : outcome A :=
  match o with Err e => Err (ErrWrap msg e) | r => r end.

(** [for i := range xs { x := &xs[i]; ... }]: the body may change the element in
    place and an accumulator, and may return early with an error. *)
Fixpoint for_each {W S A} (f : S → A → M W (S * A)) (s : S) (l : list A) : M W (S * list A) :=
  match l with
  | [] => mret (s, [])
  | a :: l' =>
      '(s1, a') ← f s a;
      '(s2, l'') ← for_each f s1 l';
      mret (s2, a' :: l'')
  end.

(** [for _, x := range xs { ... }] with an accumulator. *)
Fixpoint for_range {W S A} (f : S → A → M W S) (s : S) (l : list A) : M W S :=
  match l with
  | [] => mret s
  | a :: l' => s' ← f s a; for_range f s' l'
  end.

(** ** Inversion and introduction rules *)

Section monad.
Context {W : Type}.

Lemma bind_ok_inv {A B} (m : M W A) (k : A → M W B) w b w' :
  (m ≫= k) w = (Ok b, w') → ∃ a w1, m w = (Ok a, w1) ∧ k a w1 = (Ok b, w').
Proof.
  unfold mbind, M_MBind, M_bind. destruct (m w) as [[a|e|s|] w1]; [eauto|done..].
Qed.

Lemma bind_ok {A B} (m : M W A) (k : A → M W B) w a w1 :
  m w = (Ok a, w1) → (m ≫= k) w = k a w1.
Proof. unfold mbind, M_MBind, M_bind. by intros ->. Qed.

Lemma ret_ok_inv {A} (a b : A) (w w' : W) :
  (mret a : M W A) w = (Ok b, w') → a = b ∧ w = w'.
Proof. unfold mret, M_MRet, M_ret. by intros [= -> ->]. Qed.

Lemma throw_ok_inv {A} e (a : A) (w w' : W) : throw e w = (Ok a, w') → False.
Proof. done. Qed.

Lemma panic_ok_inv {A} s (a : A) (w w' : W) : panic s w = (Ok a, w') → False.
Proof. done. Qed.

Lemma wrap_ok_inv {A} msg (m : M W A) w a w' :
  wrap msg m w = (Ok a, w') → m w = (Ok a, w').
Proof. unfold wrap. destruct (m w) as [[]]; naive_solver. Qed.

Lemma wrap_ok {A} msg (m : M W A) w a w' :
  m w = (Ok a, w') → wrap msg m w = (Ok a, w').
Proof. unfold wrap. by intros ->. Qed.

Lemma lift_ok_inv {A} (o : outcome A) a (w w' : W) :
  lift o w = (Ok a, w') → o = Ok a ∧ w = w'.
Proof. by intros [= -> ->]. Qed.

Lemma try_ok_inv {A} (m : M W A) w r w' :
  try m w = (Ok r, w') →
  (∃ a, r = inr a ∧ m w = (Ok a, w')) ∨ (∃ e, r = inl e ∧ m w = (Err e, w')).
Proof. unfold try. destruct (m w) as [[]]; naive_solver. Qed.

Lemma read_ok_inv {A} (f : W → A * W) w a w' : read f w = (Ok a, w') → f w = (a, w').
Proof. unfold read. destruct (f w). by intros [= -> ->]. Qed.

Lemma emit_ok_inv (f : W → W) w u w' : emit f w = (Ok u, w') → f w = w'.
Proof. by intros [= _ ->]. Qed.

(** Whatever the outcome: either the first part succeeds, or it ends the whole. *)
Lemma bind_run {A B} (m : M W A) (f : A → M W B) w z w' : (m ≫= f) w = (z, w') →
  (∃ a w1, m w = (Ok a, w1) ∧ f a w1 = (z, w')) ∨ ((∃ z1, m w = (z1, w') ∧ ∀ a, z1 ≠ Ok a) ∧ ∀ b, z ≠ Ok b).
Proof.
  unfold mbind, M_MBind, M_bind. destruct (m w) as [[a|e|s|] w1]; intros E; [left; eauto|right..]; injection E as <- <-;
    (split; [eexists; by split|done]).
Qed.

Lemma wrap_run {A} msg (m : M W A) w z w' : wrap msg m w = (z, w') → ∃ z1, m w = (z1, w') ∧ ∀ a, z = Ok a → z1 = Ok a.
Proof. unfold wrap. destruct (m w) as [u w1]. intros E. exists u. destruct u; injection E as <- <-; by split. Qed.

Lemma bind_assoc {A B C} (m : M W A) (f : A → M W B) (g : B → M W C) w : ((a ← m; f a) ≫= g) w = (a ← m; (f a ≫= g)) w.
Proof. unfold mbind, M_MBind, M_bind. by destruct (m w) as [[]]. Qed.

Lemma for_range_ext {S A} (f g : S → A → M W S) : (∀ s a, f s a = g s a) → ∀ l s w, for_range f s l w = for_range g s l w.
Proof.
  intros Hfg l. induction l as [|a l IH]; intros s w; [done|]. simpl. rewrite Hfg. unfold mbind, M_MBind, M_bind.
  destruct (g s a w) as [[]]; auto.
Qed.

(** The element-wise loop relates every element to its successor and keeps an
    accumulator invariant; it changes neither order nor length. *)
Lemma for_each_ok {S A} (f : S → A → M W (S * A)) (I : S → Prop) (R : A → A → Prop) :
  (∀ s a w s' a' w', I s → f s a w = (Ok (s', a'), w') → I s' ∧ R a a') →
  ∀ l s w s' l' w', I s → for_each f s l w = (Ok (s', l'), w') → I s' ∧ Forall2 R l l'.
Proof.
  intros Hf l. induction l as [|a l IH]; intros s w s' l' w' HI H; simpl in H.
  - apply ret_ok_inv in H as [[= <- <-] _]. auto.
  - apply bind_ok_inv in H as ([s1 a'] & w1 & H1 & H).
    apply bind_ok_inv in H as ([s2 l''] & w2 & H2 & H).
    apply ret_ok_inv in H as [[= <- <-] _].
    destruct (Hf _ _ _ _ _ _ HI H1) as [HI1 HR].
    destruct (IH _ _ _ _ _ HI1 H2) as [HI2 HRs]. auto.
Qed.

(** The same with a relation on elements that depends on the final accumulator,
    for accumulators that only grow. *)
Lemma for_each_mono {S A} (f : S → A → M W (S * A)) (T : S → S → Prop) (R : S → A → A → Prop) :
  PreOrder T →
  (∀ s s' a a', T s s' → R s a a' → R s' a a') →
  (∀ s a w s' a' w', f s a w = (Ok (s', a'), w') → T s s' ∧ R s' a a') →
  ∀ l s w s' l' w', for_each f s l w = (Ok (s', l'), w') → T s s' ∧ Forall2 (R s') l l'.
Proof.
  intros HT Hmono Hf l. induction l as [|a l IH]; intros s w s' l' w' H; simpl in H.
  - apply ret_ok_inv in H as [[= <- <-] _]. split; [reflexivity|constructor].
  - apply bind_ok_inv in H as ([s1 a'] & w1 & H1 & H).
    apply bind_ok_inv in H as ([s2 l''] & w2 & H2 & H).
    apply ret_ok_inv in H as [[= <- <-] _].
    destruct (Hf _ _ _ _ _ _ H1) as [HT1 HR].
    destruct (IH _ _ _ _ _ H2) as [HT2 HRs].
    split; [by transitivity s1|]. constructor; [by eapply Hmono|done].
Qed.

Lemma for_range_ok {S A} (f : S → A → M W S) (I : S → Prop) :
  (∀ s a w s' w', I s → f s a w = (Ok s', w') → I s') →
  ∀ l s w s' w', I s → for_range f s l w = (Ok s', w') → I s'.
Proof.
  intros Hf l. induction l as [|a l IH]; intros s w s' w' HI H; simpl in H.
  - by apply ret_ok_inv in H as [<- _].
  - apply bind_ok_inv in H as (s1 & w1 & H1 & H). eauto.
Qed.
End monad.

(** The same for pure fallible code. *)
Lemma obind_ok_inv {A B} (o : outcome A) (k : A → outcome B) b :
  (o ≫= k) = Ok b → ∃ a, o = Ok a ∧ k a = Ok b.
Proof. destruct o; [eauto|done..]. Qed.

Ltac o_inv_step :=
  match goal with
  | H : mbind _ _ = Ok _ |- _ =>
      let a := fresh "a" in let E := fresh "E" in
      apply obind_ok_inv in H as (a & E & H); cbn beta iota in H
  | H : Ok _ = Ok _ |- _ => injection H as H; subst
  | H : Err _ = Ok _ |- _ => discriminate H
  | H : Panic _ = Ok _ |- _ => discriminate H
  | H : OutOfFuel = Ok _ |- _ => discriminate H
  | H : (if ?b then _ else _) = Ok _ |- _ => let E := fresh "Eb" in destruct b eqn:E
  | H : (match ?x with _ => _ end) = Ok _ |- _ => let E := fresh "Em" in destruct x eqn:E
  end.
Ltac o_inv := repeat o_inv_step.

(** [p != nil] *)
Definition is_some {A} (x : option A) : bool := match x with Some _ => true | None => false end.

(** ** Frames

    [keeps v m]: whatever [m] returns, an error and a panic included, it leaves
    the view [v] of the world as it was. *)
Definition keeps {W X A} (v : W → X) (m : M W A) : Prop :=
  ∀ w r w', m w = (r, w') → v w' = v w.

Section keeps.
Context {W X : Type} (v : W → X).

Lemma keeps_ret {A} (a : A) : keeps v (mret a : M W A).
Proof. by intros w r w' [= _ <-]. Qed.

Lemma keeps_throw {A} e : keeps v (throw e : M W A).
Proof. by intros w r w' [= _ <-]. Qed.

Lemma keeps_panic {A} s : keeps v (panic s : M W A).
Proof. by intros w r w' [= _ <-]. Qed.

Lemma keeps_lift {A} (o : outcome A) : keeps v (lift o).
Proof. by intros w r w' [= _ <-]. Qed.

Lemma keeps_bind {A B} (m : M W A) (k : A → M W B) :
  keeps v m → (∀ a, keeps v (k a)) → keeps v (m ≫= k).
Proof.
  intros Hm Hk w r w'. unfold mbind, M_MBind, M_bind. destruct (m w) as [o w1] eqn:E.
  apply Hm in E. destruct o; intros HH; simplify_eq; try done.
  apply Hk in HH. congruence.
Qed.

Lemma keeps_try {A} (m : M W A) : keeps v m → keeps v (try m).
Proof.
  intros Hm w r w'. unfold try. destruct (m w) as [[] w1] eqn:E; apply Hm in E; naive_solver.
Qed.

Lemma keeps_wrap {A} msg (m : M W A) : keeps v m → keeps v (wrap msg m).
Proof.
  intros Hm w r w'. unfold wrap. destruct (m w) as [[] w1] eqn:E; apply Hm in E; naive_solver.
Qed.

Lemma keeps_for_each {S A} (f : S → A → M W (S * A)) :
  (∀ s a, keeps v (f s a)) → ∀ l s, keeps v (for_each f s l).
Proof.
  intros Hf l. induction l as [|a l IH]; intros s; simpl; [apply keeps_ret|].
  apply keeps_bind; [apply Hf|]. intros [s1 a']. apply keeps_bind; [apply IH|].
  intros [s2 l']. apply keeps_ret.
Qed.

Lemma keeps_for_range {S A} (f : S → A → M W S) :
  (∀ s a, keeps v (f s a)) → ∀ l s, keeps v (for_range f s l).
Proof.
  intros Hf l. induction l as [|a l IH]; intros s; simpl; [apply keeps_ret|].
  apply keeps_bind; [apply Hf|]. intros s1. apply IH.
Qed.
End keeps.

Create HintDb kkp_frame.
#[export] Hint Resolve keeps_ret keeps_throw keeps_panic keeps_lift : kkp_frame.

(** [frame] proves [keeps] goals along the structure of the program, with the
    frame lemmas of the calls from [kkp_frame]. *)
Ltac frame :=
  repeat (intros; cbn beta iota zeta;
    first
    [ solve [auto with kkp_frame]
    | apply keeps_bind | apply keeps_try | apply keeps_wrap
    | apply keeps_for_each | apply keeps_for_range
    | match goal with
      | |- keeps _ (match ?x with _ => _ end) => destruct x
      end ]).

(** ** A small program logic

    [triple I w m Q]: run from [w], [m] ends in a world with [I] whatever its
    outcome, and establishes [Q] if it succeeds. *)
Definition triple {W A} (I : W → Prop) (w : W) (m : M W A) (Q : A → W → Prop) : Prop :=
  ∀ r w', m w = (r, w') → I w' ∧ ∀ a, r = Ok a → Q a w'.

Section triple.
Context {W : Type} (I : W → Prop).

Lemma triple_ret {A} w (a : A) (Q : A → W → Prop) : I w → Q a w → triple I w (mret a) Q.
Proof. intros ? ? r w' [= <- <-]. split; [done|]. by intros x [= <-]. Qed.

Lemma triple_bind {A B} w (m : M W A) (c : A → M W B) Q1 Q :
  triple I w m Q1 → (∀ a w1, Q1 a w1 → triple I w1 (c a) Q) → triple I w (m ≫= c) Q.
Proof.
  intros Hm Hc r w'. unfold mbind, M_MBind, M_bind. destruct (m w) as [o w1] eqn:E.
  destruct (Hm _ _ E) as [Hst HQ].
  destruct o; intros HH; [by eapply Hc; [apply HQ|]|injection HH as <- <-; by split..].
Qed.

(** The same, with the invariant at hand in the continuation. *)
Lemma triple_seq {A B} w (m : M W A) (c : A → M W B) Q1 Q :
  triple I w m Q1 → (∀ a w1, I w1 → Q1 a w1 → triple I w1 (c a) Q) → triple I w (m ≫= c) Q.
Proof.
  intros Hm Hc. apply (triple_bind w m c (λ a w1, I w1 ∧ Q1 a w1)); [|intros a w1 []; auto].
  intros r w' E. destruct (Hm _ _ E) as [? HQ]. split; [done|]. intros a Hr. split; [done|auto].
Qed.

Lemma triple_wrap {A} w msg (m : M W A) Q : triple I w m Q → triple I w (wrap msg m) Q.
Proof.
  intros Hm r w'. unfold wrap. destruct (m w) as [o w1] eqn:E.
  destruct (Hm _ _ E) as [Hst HQ].
  destruct o; intros HH; injection HH as <- <-; [|by split..]. by split.
Qed.

Lemma triple_try {A} w (m : M W A) Q :
  triple I w m Q → triple I w (try m) (λ r w', I w' ∧ ∀ a, r = inr a → Q a w').
Proof.
  intros Hm r w'. unfold try. destruct (m w) as [o w1] eqn:E. destruct (Hm _ _ E) as [Hst HQ].
  destruct o as [a|e|p|]; intros HH; injection HH as <- <-; (split; [done|]); intros x Hx; try done.
  - injection Hx as <-. split; [done|]. intros y [= <-]. by apply HQ.
  - injection Hx as <-. done.
Qed.

Lemma triple_keeps {X A} (v : W → X) w (m : M W A) :
  (∀ w w', v w' = v w → I w → I w') → I w → keeps v m →
  triple I w m (λ a w', m w = (Ok a, w') ∧ v w' = v w).
Proof.
  intros HI Hw Hm r w' E. pose proof (Hm _ _ _ E) as Hv. split; [by eapply HI|]. by intros a ->.
Qed.

Lemma triple_consequence {A} w (m : M W A) (Q Q' : A → W → Prop) :
  triple I w m Q → (∀ a w', Q a w' → Q' a w') → triple I w m Q'.
Proof. intros Hm HQ r w' E. destruct (Hm _ _ E) as [? Hq]. split; [done|]. auto. Qed.

(** What a computation keeps is known after it. *)
Lemma triple_and_keeps {X A} (v : W → X) w (m : M W A) Q :
  keeps v m → triple I w m Q → triple I w m (λ a w', Q a w' ∧ v w' = v w).
Proof. intros Hk Hm r w' E. destruct (Hm _ _ E) as [? HQ]. split; [done|]. intros a Ha. split; [by apply HQ|by eapply Hk]. Qed.
End triple.

Create HintDb kkp.
Create Rewrite HintDb kkp_rw.
#[export] Hint Resolve bind_ok wrap_ok : kkp.

(** [m_inv] takes every successful run [m w = (Ok _, _)] of the context apart,
    splitting binds, returns, wraps, [if]s and [match]es as it meets them. *)
Ltac m_inv_step :=
  match goal with
  | H : mbind _ _ _ = (Ok _, _) |- _ =>
      let a := fresh "a" in let w := fresh "w" in let E := fresh "E" in
      apply bind_ok_inv in H as (a & w & E & H); cbn beta iota in H
  | H : mret _ _ = (Ok _, _) |- _ =>
      let E := fresh "E" in apply ret_ok_inv in H as [E ?]; simplify_eq
  | H : M_ret _ _ = (Ok _, _) |- _ =>
      let E := fresh "E" in apply ret_ok_inv in H as [E ?]; simplify_eq
  | H : throw _ _ = (Ok _, _) |- _ => by apply throw_ok_inv in H
  | H : panic _ _ = (Ok _, _) |- _ => by apply panic_ok_inv in H
  | H : wrap _ _ _ = (Ok _, _) |- _ => apply wrap_ok_inv in H
  | H : read _ _ = (Ok _, _) |- _ => apply read_ok_inv in H
  | H : emit _ _ = (Ok _, _) |- _ => apply emit_ok_inv in H
  | H : lift _ _ = (Ok _, _) |- _ =>
      let E := fresh "E" in apply lift_ok_inv in H as [E ?]; simplify_eq
  | H : try _ _ = (Ok _, _) |- _ =>
      let a := fresh "a" in let E := fresh "E" in
      apply try_ok_inv in H as [(a & -> & E)|(a & -> & E)]; cbn beta iota in *
  | H : (if ?b then _ else _) _ = (Ok _, _) |- _ =>
      let E := fresh "Eb" in destruct b eqn:E
  | H : (match ?x with _ => _ end) _ = (Ok _, _) |- _ =>
      let E := fresh "Em" in destruct x eqn:E; simplify_eq
  end.
Ltac m_inv := repeat m_inv_step.

(** ** Machine integers and Go time

    [int]/[int64] and [time.Duration] are 64-bit two's complement.  A [time.Time]
    counts nanoseconds since Go's zero time (1 January year 1, UTC), so
    [t.IsZero()] is [t = 0]; [t.Sub(u)] saturates, as the standard library does. *)

Definition int64_min : Z := - 2 ^ 63.
Definition int64_max : Z := 2 ^ 63 - 1.
Definition wrap64 (z : Z) : Z := (z + 2 ^ 63) `mod` 2 ^ 64 - 2 ^ 63.
Definition wrapU64 (z : Z) : Z := z `mod` 2 ^ 64.

Definition Second : Z := 1000000000.
Definition Minute : Z := 60 * Second.

Definition Time_Sub (t u : Z) : Z := Z.max int64_min (Z.min int64_max (t - u)).
Definition Time_IsZero (t : Z) : bool := t =? 0.
(** [metav1.Time.IsZero], which accepts a nil receiver. *)
Definition PTime_IsZero (t : option Z) : bool :=
  match t with None => true | Some t => Time_IsZero t end.

Lemma Time_Sub_nonneg t u : (0 <=? Time_Sub t u) = (u <=? t).
Proof. unfold Time_Sub, int64_min, int64_max. lia. Qed.

Lemma Time_Sub_exact t u : int64_min ≤ t - u ≤ int64_max → Time_Sub t u = t - u.
Proof. unfold Time_Sub. lia. Qed.

Lemma wrap64_small z : int64_min ≤ z ≤ int64_max → wrap64 z = z.
Proof. unfold wrap64, int64_min, int64_max. intros ?. rewrite Z.mod_small; lia. Qed.

Lemma wrap64_range z : int64_min ≤ wrap64 z ≤ int64_max.
Proof.
  unfold wrap64, int64_min, int64_max.
  pose proof (Z.mod_pos_bound (z + 2 ^ 63) (2 ^ 64) ltac:(lia)). lia.
Qed.

(** ** Shared list lemmas *)

(** The number of elements that satisfy a test, as Go counts with [n++]. *)
Definition count {A} (p : A → bool) (l : list A) : nat := length (List.filter p l).

Arguments count : simpl never.

Lemma count_nil {A} (p : A → bool) : count p [] = 0%nat.
Proof. done. Qed.

Lemma count_cons {A} (p : A → bool) a l :
  count p (a :: l) = ((if p a then 1 else 0) + count p l)%nat.
Proof. unfold count. simpl. by destruct (p a). Qed.

Lemma count_app {A} (p : A → bool) l k : count p (l ++ k) = (count p l + count p k)%nat.
Proof. unfold count. by rewrite List.filter_app, length_app. Qed.

Lemma count_le {A} (p q : A → bool) l l' :
  Forall2 (λ a b, q b = true → p a = true) l l' → (count q l' ≤ count p l)%nat.
Proof.
  induction 1 as [|a b l l' H _ IH]; [done|]. rewrite !count_cons.
  destruct (q b); [rewrite H by done|]; lia.
Qed.

Lemma count_insert {A} (p : A → bool) (l : list A) i x y :
  l !! i = Some x →
  (count p (<[i:=y]> l) + (if p x then 1 else 0) = count p l + (if p y then 1 else 0))%nat.
Proof.
  revert i. induction l as [|a l IH]; intros [|i] Hi; simplify_eq/=.
  - rewrite !count_cons. lia.
  - rewrite !count_cons. specialize (IH _ Hi). lia.
Qed.

Lemma count_map {A B} (p : B → bool) (f : A → B) l : count p (f <$> l) = count (p ∘ f) l.
Proof. induction l as [|a l IH]; [done|]. rewrite fmap_cons, !count_cons, IH. done. Qed.

Lemma Forall2_insert_r {A B} (R : A → B → Prop) (l : list A) (k : list B) i x y :
  Forall2 R l k → l !! i = Some x → R x y → Forall2 R l (<[i:=y]> k).
Proof.
  intros H Hi HR. rewrite <- (list_insert_id l i x Hi). by apply Forall2_insert.
Qed.

Lemma existsb_true_iff {A} (p : A → bool) (l : list A) :
  existsb p l = true ↔ ∃ a, a ∈ l ∧ p a = true.
Proof. rewrite existsb_exists. setoid_rewrite list_elem_of_In. done. Qed.

Lemma Forall2_impl_Forall {A B} (P : A → Prop) (Q : B → Prop) (R : A → B → Prop) l k :
  (∀ a b, P a → R a b → Q b) → Forall P l → Forall2 R l k → Forall Q k.
Proof. intros HR HP H. induction H; inversion HP; constructor; eauto. Qed.

Lemma Forall2_compose {A B C} (R : A → B → Prop) (S : B → C → Prop) (T : A → C → Prop) l k m :
  (∀ a b c, R a b → S b c → T a c) → Forall2 R l k → Forall2 S k m → Forall2 T l m.
Proof.
  intros HT H. revert m. induction H; intros m Hm; inversion Hm; constructor; eauto.
Qed.

Lemma Forall2_map_eq {A B C} (f : A → C) (g : B → C) l k :
  Forall2 (λ a b, f a = g b) l k → map f l = map g k.
Proof. induction 1; simpl; congruence. Qed.

(** [k] is [l] without some elements, each of which satisfies [P]. *)
Inductive pruned {A} (P : A → Prop) : list A → list A → Prop :=
| pruned_nil : pruned P [] []
| pruned_keep a l k : pruned P l k → pruned P (a :: l) (a :: k)
| pruned_drop a l k : P a → pruned P l k → pruned P (a :: l) k.

Lemma pruned_sublist {A} (P : A → Prop) l k : pruned P l k → sublist k l.
Proof. induction 1; by constructor. Qed.

Lemma pruned_dropped {A} (P : A → Prop) l k a : pruned P l k → a ∈ l → a ∉ k → P a.
Proof. induction 1; set_solver. Qed.

Lemma count_sublist {A} (p : A → bool) l k : sublist k l → (count p k ≤ count p l)%nat.
Proof. induction 1; rewrite ?count_cons; lia. Qed.

Lemma Forall_sublist {A} (P : A → Prop) l k : sublist k l → Forall P l → Forall P k.
Proof. rewrite !Forall_forall. intros Hs HP x Hx. apply HP. by eapply elem_of_sublist. Qed.

#[export] Hint Resolve Forall_nil Forall2_nil : kkp.
#[export] Hint Rewrite @count_nil @count_cons @count_app : kkp_rw.
