(* ===== verification/ResourceNames.v ===== *)
(** * Names of the objects of a control plane

    The constants of [pkg/resources/resources.go], and the names that the packages
    below [pkg/resources] give to the objects they create. *)

From S2P Require Import Prelude.

(** ** Deployments and stateful sets *)

Definition MachineControllerDeploymentName : string := "machine-controller".
Definition MachineControllerWebhookDeploymentName : string := "machine-controller-webhook".
Definition UserClusterControllerDeploymentName : string := "usercluster-controller".
Definition UserClusterWebhookDeploymentName : string := "usercluster-webhook".
Definition KubernetesDashboardDeploymentName : string := "kubernetes-dashboard".
Definition OpenVPNServerDeploymentName : string := "openvpn-server".
Definition MetricsServerDeploymentName : string := "metrics-server".
Definition DNSResolverDeploymentName : string := "dns-resolver".
Definition OperatingSystemManagerDeploymentName : string := "operating-system-manager".
Definition NodePortProxyEnvoyDeploymentName : string := "nodeport-proxy-envoy".
Definition GatekeeperControllerDeploymentName : string := "gatekeeper-controller-manager".
Definition GatekeeperAuditDeploymentName : string := "gatekeeper-audit".
Definition ApiserverDeploymentName : string := "apiserver".
Definition SchedulerDeploymentName : string := "scheduler".
Definition ControllerManagerDeploymentName : string := "controller-manager".
Definition EtcdStatefulSetName : string := "etcd".

(** ** Services *)

Definition ApiserverServiceName : string := "apiserver-external".
Definition MachineControllerWebhookServiceName : string := "machine-controller-webhook".
Definition UserClusterWebhookServiceName : string := "usercluster-webhook".
Definition KonnectivityProxyServiceName : string := "konnectivity-server".
Definition OpenVPNServerServiceName : string := "openvpn-server".
Definition MetricsServerServiceName : string := "metrics-server".
Definition DNSResolverServiceName : string := "dns-resolver".
Definition FrontLoadBalancerServiceName : string := "front-loadbalancer".
Definition GatekeeperWebhookServiceName : string := "gatekeeper-webhook-service".
Definition EtcdServiceName : string := "etcd".

(** ** Secrets *)

Definition CASecretName : string := "ca".
Definition FrontProxyCASecretName : string := "front-proxy-ca".
Definition ImagePullSecretName : string := "dockercfg".
Definition EtcdTLSCertificateSecretName : string := "etcd-tls-certificate".
Definition ApiserverTLSSecretName : string := "apiserver-tls".
Definition ServiceAccountKeySecretName : string := "service-account-key".
Definition MachineControllerWebhookServingCertSecretName : string := "machinecontroller-webhook-serving-cert".
Definition UserClusterWebhookServingCertSecretName : string := "usercluster-webhook-serving-cert".
Definition SchedulerKubeconfigSecretName : string := "scheduler-kubeconfig".
Definition MachineControllerKubeconfigSecretName : string := "machinecontroller-kubeconfig".
Definition OperatingSystemManagerKubeconfigSecretName : string := "operatingsystemmanager-kubeconfig".
Definition ControllerManagerKubeconfigSecretName : string := "controllermanager-kubeconfig".
Definition KubeStateMetricsKubeconfigSecretName : string := "kube-state-metrics-kubeconfig".
Definition InternalUserClusterAdminKubeconfigSecretName : string := "internal-admin-kubeconfig".
Definition ClusterAutoscalerKubeconfigSecretName : string := "cluster-autoscaler-kubeconfig".
Definition ViewerTokenSecretName : string := "viewer-token".
Definition TokensSecretName : string := "tokens".
Definition ViewerKubeconfigSecretName : string := "viewer-kubeconfig".
Definition KubernetesDashboardKubeconfigSecretName : string := "kubernetes-dashboard-kubeconfig".
Definition KonnectivityProxyTLSSecretName : string := "konnectivityproxy-tls".
Definition KonnectivityKubeconfigSecretName : string := "konnectivity-kubeconfig".
Definition OpenVPNCASecretName : string := "openvpn-ca".
Definition OpenVPNServerCertificatesSecretName : string := "openvpn-server-certificates".
Definition OpenVPNClientCertificatesSecretName : string := "openvpn-client-certificates".
Definition MetricsServerKubeconfigSecretName : string := "metrics-server".
Definition KubeletDnatControllerKubeconfigSecretName : string := "kubeletdnatcontroller-kubeconfig".
Definition CloudControllerManagerKubeconfigSecretName : string := "cloud-controller-manager-kubeconfig".
Definition GoogleServiceAccountSecretName : string := "google-service-account".
Definition ApiserverFrontProxyClientCertificateSecretName : string := "apiserver-proxy-client-certificate".
Definition ApiserverEtcdClientCertificateSecretName : string := "apiserver-etcd-client-certificate".
Definition KubeletClientCertificatesSecretName : string := "kubelet-client-certificates".
Definition AdminKubeconfigSecretName : string := "admin-kubeconfig".
Definition EncryptionConfigurationSecretName : string := "apiserver-encryption-configuration".
Definition EncryptionConfigurationKeyName : string := "encryption-configuration.yaml".

(** ** Config maps *)

Definition CloudConfigConfigMapName : string := "cloud-config".
Definition AuditConfigMapName : string := "audit-config".
Definition AdmissionControlConfigMapName : string := "adm-control".
Definition CABundleConfigMapName : string := "ca-bundle".
Definition KonnectivityKubeApiserverEgress : string := "kube-apiserver-egress".
Definition OpenVPNClientConfigsConfigMapName : string := "openvpn-client-configs".
Definition DNSResolverConfigMapName : string := "dns-resolver".
Definition CSICloudConfigName : string := "cloud-config-csi".

(** ** Network policies *)

Definition NetworkPolicyDefaultDenyAllEgress : string := "default-deny-all-egress".
Definition NetworkPolicyDNSAllow : string := "dns-allow".
Definition NetworkPolicyEtcdAllow : string := "etcd-allow".
Definition NetworkPolicyMachineControllerWebhookAllow : string := "machine-controller-webhook-allow".
Definition NetworkPolicyClusterExternalAddrAllow : string := "cluster-external-addr-allow".
Definition NetworkPolicyOpenVPNServerAllow : string := "openvpn-server-allow".
Definition NetworkPolicyMetricsServerAllow : string := "metrics-server-allow".
Definition NetworkPolicyOIDCIssuerAllow : string := "oidc-issuer-allow".

(** ** Other objects *)

Definition EtcdDefaultBackupConfigName : string := "default-backups".
Definition EtcdPodDisruptionBudgetName : string := "etcd".
Definition ApiserverPodDisruptionBudgetName : string := "apiserver".
Definition MetricsServerPodDisruptionBudgetName : string := "metrics-server".
Definition DNSResolverPodDisruptionBudetName : string := "dns-resolver".
Definition EtcdDefragCronJobName : string := "etcd-defragger".
Definition GatekeeperServiceAccountName : string := "gatekeeper-admin".
Definition GatekeeperRoleName : string := "gatekeeper-manager-role".
Definition GatekeeperRoleBindingName : string := "gatekeeper-manager-rolebinding".
Definition EtcdTLSEnabledAnnotation : string := "etcd.kubermatic.k8c.io/tls-peer-enabled".
Definition MachineControllerMutatingWebhookConfigurationName : string := "machine-controller.kubermatic.io".

(** ** Names of other packages *)

Definition webTerminalName : string := "web-terminal".
Definition nodeportProxyName : string := "nodeport-proxy".
Definition ServingCertSecretName : string := "metrics-server-serving-cert".
Definition OpenstackCCMDeploymentName : string := "openstack-cloud-controller-manager".
Definition HetznerCCMDeploymentName : string := "hcloud-cloud-controller-manager".
Definition AnexiaCCMDeploymentName : string := "anx-cloud-controller-manager".
Definition vsphereCCMDeploymentName : string := "vsphere-cloud-controller-manager".
Definition KubeVirtCCMDeploymentName : string := "kubevirt-cloud-controller-manager".
Definition EtcdLauncherServiceAccountName : string := "etcd-launcher".
Definition userclusterServiceAccountName : string := "kubermatic-usercluster-controller-manager".
Definition userclusterRoleName : string := "kubermatic:usercluster-controller-manager".
Definition userclusterRoleBindingName : string := "kubermatic:usercluster-controller-manager".
Definition webhookServiceAccountName : string := "usercluster-webhook".
Definition webhookRoleName : string := "kubermatic:usercluster-webhook".
Definition webhookRoleBindingName : string := "kubermatic:usercluster-webhook".
Definition osmServiceAccountName : string := "kubermatic-operating-system-manager".
Definition osmRoleName : string := "kubermatic:operating-system-manager".
Definition osmRoleBindingName : string := "kubermatic:operating-system-manager".
Definition machineControllerServiceAccountName : string := "kubermatic-machine-controller".
Definition machineControllerWebhookServiceAccountName : string := "kubermatic-machine-controller-webhook".
Definition machineControllerWebhookRoleName : string := "kubermatic:machine-controller-webhook".
Definition machineControllerWebhookRoleBindingName : string := "kubermatic:machine-controller-webhook".
Definition ApplicationInstallationAdmissionWebhookName : string := "kubermatic-application-installations".
