(* ===== verification/Kube.v ===== *)
(** * The Kubernetes API as the controllers see it

    Object metadata, the client operations the controllers call (an interface:
    the API server and client-go are not part of the sources), and the metadata
    helpers of [pkg/kubernetes/helper.go]: finalizers and owner references. *)

From S2P Require Import Prelude.

(** ** Objects *)

Record NamespacedName := mkKey { key_namespace : string; key_name : string }.

#[global] Instance NamespacedName_eq_dec : EqDecision NamespacedName.
Proof. solve_decision. Defined.
#[global] Instance NamespacedName_countable : Countable NamespacedName.
Proof.
  refine (inj_countable' (λ k, (key_namespace k, key_name k)) (λ p, mkKey p.1 p.2) _).
  by intros [].
Defined.

Record OwnerReference := mkOwnerReference {
  or_apiVersion : string;
  or_kind : string;
  or_name : string;
  or_uid : string;
}.

#[global] Instance OwnerReference_eq_dec : EqDecision OwnerReference.
Proof. solve_decision. Defined.

Record ObjectMeta := mkObjectMeta {
  om_name : string;
  om_namespace : string;
  om_uid : string;
  om_labels : gmap string string;
  om_annotations : gmap string string;
  om_finalizers : list string;
  om_ownerReferences : list OwnerReference;
  om_creationTimestamp : Z;
  om_deletionTimestamp : option Z;
  om_resourceVersion : string;
}.

#[global] Instance ObjectMeta_eq_dec : EqDecision ObjectMeta.
Proof. solve_decision. Defined.

Definition set_finalizers (fs : list string) (m : ObjectMeta) : ObjectMeta :=
  mkObjectMeta (om_name m) (om_namespace m) (om_uid m) (om_labels m) (om_annotations m) fs
    (om_ownerReferences m) (om_creationTimestamp m) (om_deletionTimestamp m) (om_resourceVersion m).
Definition set_ownerReferences (rs : list OwnerReference) (m : ObjectMeta) : ObjectMeta :=
  mkObjectMeta (om_name m) (om_namespace m) (om_uid m) (om_labels m) (om_annotations m) (om_finalizers m)
    rs (om_creationTimestamp m) (om_deletionTimestamp m) (om_resourceVersion m).
Definition set_annotations (a : gmap string string) (m : ObjectMeta) : ObjectMeta :=
  mkObjectMeta (om_name m) (om_namespace m) (om_uid m) (om_labels m) a (om_finalizers m)
    (om_ownerReferences m) (om_creationTimestamp m) (om_deletionTimestamp m) (om_resourceVersion m).

(** [metav1.Object]: a type with accessible metadata. *)
Class Object (O : Type) := {
  obj_meta : O → ObjectMeta;
  set_meta : ObjectMeta → O → O;
  obj_meta_set : ∀ m o, obj_meta (set_meta m o) = m;
}.

Definition object_key {O} `{Object O} (o : O) : NamespacedName :=
  mkKey (om_namespace (obj_meta o)) (om_name (obj_meta o)).

(** ** The client

    [ctrlruntimeclient.Client] at one object type.  Operations that send an
    object return the object decoded from the server's response, which is what
    the Go client writes back through the pointer.  [c_patch old new] is
    [Patch(ctx, new, MergeFrom(old))], [c_status_patch] the same on the status
    subresource. *)
Record ListOptions := mkListOptions {
  lo_namespace : string;
  lo_labels : list (string * string);
}.

Record Client (W O : Type) := mkClient {
  c_get : NamespacedName → M W O;
  c_list : ListOptions → M W (list O);
  c_create : O → M W O;
  c_update : O → M W O;
  c_patch : O → O → M W O;
  c_status_patch : O → O → M W O;
  c_delete : O → M W unit;
}.
Arguments mkClient {W O}.
Arguments c_get {W O}.
Arguments c_list {W O}.
Arguments c_create {W O}.
Arguments c_update {W O}.
Arguments c_patch {W O}.
Arguments c_status_patch {W O}.
Arguments c_delete {W O}.

Definition set_resourceVersion (rv : string) (m : ObjectMeta) : ObjectMeta :=
  mkObjectMeta (om_name m) (om_namespace m) (om_uid m) (om_labels m) (om_annotations m)
    (om_finalizers m) (om_ownerReferences m) (om_creationTimestamp m) (om_deletionTimestamp m) rv.

(** [metav1.Time] travels as RFC 3339 with whole seconds. *)
Class WireTime := {
  wire_time : Z → Z;
  wire_time_floor : ∀ t, wire_time t ≤ t < wire_time t + Second;
  wire_time_whole : ∀ t, wire_time t `mod` Second = 0;
}.

Lemma wire_time_id `{WireTime} t : t `mod` Second = 0 → wire_time t = t.
Proof.
  intros Ht. pose proof (wire_time_floor t) as Hf. pose proof (wire_time_whole t) as Hw.
  unfold Second in *.
  pose proof (Z.div_mod t 1000000000 ltac:(lia)).
  pose proof (Z.div_mod (wire_time t) 1000000000 ltac:(lia)). lia.
Qed.

Lemma wire_time_zero `{WireTime} : wire_time 0 = 0.
Proof. by apply wire_time_id. Qed.

Lemma wire_time_nonzero `{WireTime} t : wire_time t ≠ 0 → t ≠ 0.
Proof. intros ? ->. by rewrite wire_time_zero in *. Qed.

(** [retry.RetryOnConflict(retry.DefaultRetry, fn)]: runs [fn] again as long as
    it fails with a conflict and attempts are left, and returns the outcome of
    the last attempt; the world before the last attempt is reached by attempts
    that ended in a conflict. *)
Record Retry (W : Type) := mkRetry {
  RetryOnConflict : ∀ {A}, M W A → M W A;
  retry_no_conflict : ∀ {A} (f : M W A) w r w',
    f w = (r, w') → (∀ e, r = Err e → IsConflict e = false) → RetryOnConflict f w = (r, w');
  retry_last : ∀ {A} (f : M W A) w r w',
    RetryOnConflict f w = (r, w') →
    ∃ w0, f w0 = (r, w') ∧
      ∀ P : W → Prop, (∀ w1 e w2, P w1 → f w1 = (Err e, w2) → IsConflict e = true → P w2) → P w → P w0;
}.
Arguments RetryOnConflict {W} _ {A}.
Arguments retry_no_conflict {W} _ {A}.
Arguments retry_last {W} _ {A}.

Lemma keeps_retry {W X A} (v : W → X) (retry : Retry W) (f : M W A) :
  keeps v f → keeps v (RetryOnConflict retry f).
Proof.
  intros Hf w r w' (w0 & E & HP)%retry_last. rewrite (Hf _ _ _ E).
  apply (HP (λ x, v x = v w)); [|done]. intros w1 e w2 Hw1 E1 _. by rewrite (Hf _ _ _ E1).
Qed.

(** ** [sets.String]

    Sets of strings are [gset string]; [List] returns the members as a sorted
    slice. *)
Class StringSets := {
  set_List : gset string → list string;
  elem_of_set_List : ∀ s x, x ∈ set_List s ↔ x ∈ s;
  NoDup_set_List : ∀ s, NoDup (set_List s);
}.

Definition NewString (l : list string) : gset string := list_to_set l.

Section finalizers.
Context `{StringSets}.

Definition HasFinalizer (m : ObjectMeta) (names : list string) : bool :=
  bool_decide (list_to_set names ⊆ NewString (om_finalizers m)).

Definition HasAnyFinalizer (m : ObjectMeta) (names : list string) : bool :=
  existsb (λ n, bool_decide (n ∈ NewString (om_finalizers m))) names.

Definition HasOnlyFinalizer (m : ObjectMeta) (name : string) : bool :=
  let set := NewString (om_finalizers m) in
  bool_decide (name ∈ set) && bool_decide (size set = 1%nat).

Definition RemoveFinalizer (toRemove : list string) (m : ObjectMeta) : ObjectMeta :=
  set_finalizers (set_List (NewString (om_finalizers m) ∖ list_to_set toRemove)) m.

Definition AddFinalizer (finalizers : list string) (m : ObjectMeta) : ObjectMeta :=
  set_finalizers (set_List (NewString (om_finalizers m) ∪ list_to_set finalizers)) m.

Context {W O : Type} `{Object O} (client : Client W O) (retry : Retry W).

Definition TryRemoveFinalizer (obj : O) (finalizers : list string) : M W O :=
  wrap "failed to remove finalizers" (RetryOnConflict retry (
    r ← try (c_get client (object_key obj));
    match r with
    | inl e => if IsNotFound e then mret obj else throw e
    | inr obj =>
        let previous := NewString (om_finalizers (obj_meta obj)) in
        let obj := set_meta (RemoveFinalizer finalizers (obj_meta obj)) obj in
        let current := NewString (om_finalizers (obj_meta obj)) in
        if bool_decide (previous = current) then mret obj else c_update client obj
    end)).

Definition TryAddFinalizer (obj : O) (finalizers : list string) : M W O :=
  wrap "failed to add finalizers" (RetryOnConflict retry (
    obj ← c_get client (object_key obj);
    match om_deletionTimestamp (obj_meta obj) with
    | Some _ => mret obj
    | None =>
        let previous := NewString (om_finalizers (obj_meta obj)) in
        let obj := set_meta (AddFinalizer finalizers (obj_meta obj)) obj in
        let current := NewString (om_finalizers (obj_meta obj)) in
        if bool_decide (previous = current) then mret obj else c_update client obj
    end)).

Lemma elem_of_RemoveFinalizer fs m x :
  x ∈ om_finalizers (RemoveFinalizer fs m) ↔ x ∈ om_finalizers m ∧ x ∉ fs.
Proof. unfold RemoveFinalizer, NewString. simpl. rewrite elem_of_set_List. set_solver. Qed.

Lemma elem_of_AddFinalizer fs m x :
  x ∈ om_finalizers (AddFinalizer fs m) ↔ x ∈ om_finalizers m ∨ x ∈ fs.
Proof. unfold AddFinalizer, NewString. simpl. rewrite elem_of_set_List. set_solver. Qed.

Lemma AddFinalizer_NoDup fs m : NoDup (om_finalizers (AddFinalizer fs m)).
Proof. apply NoDup_set_List. Qed.

Lemma HasFinalizer_spec m names :
  HasFinalizer m names = true ↔ ∀ n, n ∈ names → n ∈ om_finalizers m.
Proof. unfold HasFinalizer, NewString. rewrite bool_decide_eq_true. set_solver. Qed.

Lemma HasAnyFinalizer_spec m names :
  HasAnyFinalizer m names = true ↔ ∃ n, n ∈ names ∧ n ∈ om_finalizers m.
Proof.
  unfold HasAnyFinalizer, NewString. rewrite existsb_exists.
  setoid_rewrite bool_decide_eq_true. setoid_rewrite <- list_elem_of_In. set_solver.
Qed.
End finalizers.

(** ** Owner references *)

Definition equalOwnerRefKinds (a b : OwnerReference) : bool :=
  String.eqb (or_apiVersion a) (or_apiVersion b) && String.eqb (or_kind a) (or_kind b).

Definition equalOwnerRefs (a b : OwnerReference) : bool :=
  equalOwnerRefKinds a b && String.eqb (or_name a) (or_name b).

Definition HasOwnerReference (o : ObjectMeta) (ref : OwnerReference) : bool :=
  existsb (λ r, equalOwnerRefs r ref) (om_ownerReferences o).

Definition removeOwnerReference (o : ObjectMeta)
    (comparator : OwnerReference → OwnerReference → bool) (refs : list OwnerReference) : ObjectMeta :=
  set_ownerReferences
    (List.filter (λ r, negb (existsb (comparator r) refs)) (om_ownerReferences o)) o.

Definition RemoveOwnerReferences (o : ObjectMeta) (refToRemoves : list OwnerReference) : ObjectMeta :=
  removeOwnerReference o equalOwnerRefs refToRemoves.

Definition RemoveOwnerReferenceKinds (o : ObjectMeta) (refs : list OwnerReference) : ObjectMeta :=
  removeOwnerReference o equalOwnerRefKinds refs.

Definition EnsureOwnerReference (o : ObjectMeta) (ref : OwnerReference) : ObjectMeta :=
  let o := RemoveOwnerReferences o [ref] in
  set_ownerReferences (om_ownerReferences o ++ [ref]) o.

Definition EnsureUniqueOwnerReference (o : ObjectMeta) (ref : OwnerReference) : ObjectMeta :=
  let o := RemoveOwnerReferenceKinds o [ref] in
  set_ownerReferences (om_ownerReferences o ++ [ref]) o.

Lemma equalOwnerRefKinds_refl r : equalOwnerRefKinds r r = true.
Proof. unfold equalOwnerRefKinds. by rewrite !String.eqb_refl. Qed.

Lemma equalOwnerRefs_refl r : equalOwnerRefs r r = true.
Proof. unfold equalOwnerRefs. by rewrite equalOwnerRefKinds_refl, String.eqb_refl. Qed.

(** After an [Ensure*] call exactly one reference is comparable with the given
    one, the given one itself, and all others are kept in order. *)
Lemma ensure_unique (cmp : OwnerReference → OwnerReference → bool) o ref :
  cmp ref ref = true →
  List.filter (λ r, cmp r ref)
    (om_ownerReferences (removeOwnerReference o cmp [ref]) ++ [ref]) = [ref].
Proof.
  intros Hrefl. rewrite List.filter_app. simpl. rewrite Hrefl.
  induction (om_ownerReferences o) as [|r l IH]; simpl; [done|].
  rewrite orb_false_r. destruct (cmp r ref) eqn:E; simpl; [done|]. by rewrite E.
Qed.

Lemma ensure_others (cmp : OwnerReference → OwnerReference → bool) o ref :
  cmp ref ref = true →
  List.filter (λ r, negb (cmp r ref))
    (om_ownerReferences (removeOwnerReference o cmp [ref]) ++ [ref])
  = List.filter (λ r, negb (cmp r ref)) (om_ownerReferences o).
Proof.
  intros Hrefl. rewrite List.filter_app. simpl. rewrite Hrefl, app_nil_r.
  induction (om_ownerReferences o) as [|r l IH]; simpl; [done|].
  rewrite orb_false_r. destruct (cmp r ref) eqn:E; simpl; [done|]. by rewrite E, IH.
Qed.
