(* ===== verification/Semver.v ===== *)
(** * Semantic versions

    [pkg/semver/semver.go] (the API's string-typed [Semver]) over the Masterminds
    semver library, which is an interface here, and [EnsureVersionCompatible] of
    [pkg/validation/nodeupdate], the kubelet/control-plane skew rule on 64-bit
    unsigned minors. *)

From S2P Require Import Prelude.

(** [github.com/Masterminds/semver/v3]: parsing, printing, comparison and range
    constraints. *)
Class SemverLib := {
  Version : Type;
  NewVersion : string → error + Version;
  ver_String : Version → string;
  ver_Major : Version → Z;
  ver_Minor : Version → Z;
  ver_Compare : Version → Version → comparison;
  Constraints : Type;
  NewConstraint : string → error + Constraints;
  Constraints_Check : Constraints → Version → bool;
}.

(** What the library documents: [Compare] is the precedence order of the
    Semantic Versioning 2 specification, a total preorder that orders by major,
    then minor; numbers are [uint64]; [String] prints a form that parses back to
    a version of the same precedence and the same printed form, and that has a
    major, a minor and a patch, so it is never empty. *)
Class SemverLaws (L : SemverLib) : Prop := {
  Compare_refl : ∀ a, ver_Compare a a = Eq;
  Compare_antisym : ∀ a b, ver_Compare b a = CompOpp (ver_Compare a b);
  Compare_trans_le : ∀ a b c, ver_Compare a b ≠ Gt → ver_Compare b c ≠ Gt → ver_Compare a c ≠ Gt;
  Compare_major_minor : ∀ a b, ver_Compare a b ≠ Gt →
    ver_Major a < ver_Major b ∨ ver_Major a = ver_Major b ∧ ver_Minor a ≤ ver_Minor b;
  Minor_range : ∀ a, 0 ≤ ver_Minor a < 2 ^ 64;
  Major_range : ∀ a, 0 ≤ ver_Major a < 2 ^ 64;
  parse_String : ∀ a, ∃ b, NewVersion (ver_String a) = inr b ∧
    ver_Compare a b = Eq ∧ ver_String b = ver_String a;
  String_nonempty : ∀ a, ver_String a ≠ "";
}.

Definition ver_Equal `{SemverLib} (a b : Version) : bool :=
  match ver_Compare a b with Eq => true | _ => false end.
Definition ver_LessThan `{SemverLib} (a b : Version) : bool :=
  match ver_Compare a b with Lt => true | _ => false end.
Definition ver_GreaterThan `{SemverLib} (a b : Version) : bool :=
  match ver_Compare a b with Gt => true | _ => false end.

(** A nil pointer dereference. *)
Definition deref {A} (p : option A) : outcome A :=
  match p with Some a => Ok a | None => Panic "invalid memory address or nil pointer dereference" end.

(** ** [pkg/semver]: a [Semver] is a string, a [*Semver] an optional string. *)

Abbreviation Semver := string (only parsing).

Section semver.
Context `{L : SemverLib}.

Definition Semver_Set (ver : string) : error + Semver :=
  match NewVersion ver with inl e => inl e | inr _ => inr ver end.

Definition NewSemver (ver : string) : error + Semver := Semver_Set ver.

Definition NewSemverOrDie (ver : string) : outcome Semver :=
  match NewSemver ver with inl _ => Panic "NewSemverOrDie" | inr sv => Ok sv end.

(** Method [Semver]: nil for a nil receiver and for a string that does not parse. *)
Definition Semver_Semver (s : option Semver) : option Version :=
  match s with
  | None => None
  | Some s => match NewVersion s with inl _ => None | inr v => Some v end
  end.

Definition Semver_cmp (test : Version → Version → bool) (s b : option Semver) : bool :=
  match s, b with
  | Some _, Some _ =>
      match Semver_Semver s, Semver_Semver b with
      | Some sver, Some bver => test sver bver
      | _, _ => false
      end
  | _, _ => false
  end.

Definition Semver_Equal : option Semver → option Semver → bool := Semver_cmp ver_Equal.
Definition Semver_LessThan : option Semver → option Semver → bool := Semver_cmp ver_LessThan.
Definition Semver_GreaterThan : option Semver → option Semver → bool := Semver_cmp ver_GreaterThan.

Definition Semver_String (s : option Semver) : string :=
  match Semver_Semver s with None => "" | Some sver => ver_String sver end.

(** [fmt.Sprintf("%d.%d", ...)] *)
Definition Semver_MajorMinor (s : option Semver) : string :=
  match Semver_Semver s with
  | None => ""
  | Some sver => pretty (Z.to_N (ver_Major sver)) +:+ "." +:+ pretty (Z.to_N (ver_Minor sver))
  end.

Definition Semver_DeepCopy (s : Semver) : outcome Semver :=
  match Semver_Semver (Some s) with
  | None => Ok ""
  | Some _ => NewSemverOrDie (Semver_String (Some s))
  end.

(** [normalize] of the update controller: one spelling per version.  The nil
    pointer is kept, any other version that does not parse panics (the empty
    string it prints does not parse). *)
Definition normalize (s : option Semver) : outcome (option Semver) :=
  match s with
  | None => Ok None
  | Some _ => sv ← NewSemverOrDie (Semver_String s); mret (Some sv)
  end.

(** ** [EnsureVersionCompatible] *)
Definition EnsureVersionCompatible (controlPlane kubelet : option Version) : outcome unit :=
  match controlPlane, kubelet with
  | None, _ => Err (ErrNew "ensureVersionCompatible: controlPlane is nil")
  | _, None => Err (ErrNew "ensureVersionCompatible: kubelet is nil")
  | Some controlPlane, Some kubelet =>
      let compatible :=
        (ver_Major kubelet =? ver_Major controlPlane) &&
        (wrapU64 (ver_Minor controlPlane - 2) <=? ver_Minor kubelet) &&
        (ver_Minor kubelet <=? ver_Minor controlPlane) in
      if compatible then Ok tt else Err (ErrNew "VersionSkewError")
  end.
End semver.

(** ** Laws of the comparisons *)
Section semver_laws.
Context `{L : SemverLib, !SemverLaws L}.

Lemma ver_Equal_spec a b : ver_Equal a b = true ↔ ver_Compare a b = Eq.
Proof. unfold ver_Equal. by destruct (ver_Compare a b). Qed.

Lemma ver_LessThan_spec a b : ver_LessThan a b = true ↔ ver_Compare a b = Lt.
Proof. unfold ver_LessThan. by destruct (ver_Compare a b). Qed.

Lemma ver_GreaterThan_spec a b : ver_GreaterThan a b = true ↔ ver_Compare a b = Gt.
Proof. unfold ver_GreaterThan. by destruct (ver_Compare a b). Qed.

Lemma ver_LessThan_GreaterThan a b : ver_LessThan a b = ver_GreaterThan b a.
Proof.
  unfold ver_LessThan, ver_GreaterThan. rewrite (Compare_antisym a b).
  by destruct (ver_Compare a b).
Qed.

Lemma Compare_Eq_sym a b : ver_Compare a b = Eq → ver_Compare b a = Eq.
Proof. rewrite (Compare_antisym a b). by intros ->. Qed.

Lemma Compare_Eq_trans a b c : ver_Compare a b = Eq → ver_Compare b c = Eq → ver_Compare a c = Eq.
Proof.
  intros Hab Hbc.
  pose proof (Compare_trans_le a b c) as H1.
  pose proof (Compare_trans_le c b a) as H2.
  rewrite (Compare_antisym b c), (Compare_antisym a b), (Compare_antisym a c), Hab, Hbc in H2.
  rewrite Hab, Hbc in H1.
  destruct (ver_Compare a c); simpl in *; [done| |]; exfalso; naive_solver.
Qed.

(** The precedence order as a relation. *)
Definition ver_le (a b : Version) : Prop := ver_Compare a b ≠ Gt.

#[export] Instance ver_le_preorder : PreOrder ver_le.
Proof.
  split.
  - intros a. unfold ver_le. by rewrite Compare_refl.
  - intros a b c. apply Compare_trans_le.
Qed.

Lemma ver_le_total a b : ver_le a b ∨ ver_le b a.
Proof. unfold ver_le. rewrite (Compare_antisym a b). destruct (ver_Compare a b); naive_solver. Qed.

Lemma ver_GreaterThan_false a b : ver_GreaterThan a b = false ↔ ver_le a b.
Proof. unfold ver_GreaterThan, ver_le. by destruct (ver_Compare a b). Qed.

Lemma ver_GreaterThan_le a b : ver_GreaterThan a b = true → ver_le b a.
Proof. unfold ver_GreaterThan, ver_le. rewrite (Compare_antisym a b). by destruct (ver_Compare a b). Qed.

Lemma ver_LessThan_false a b : ver_LessThan a b = false ↔ ver_le b a.
Proof. rewrite ver_LessThan_GreaterThan. apply ver_GreaterThan_false. Qed.

Lemma Compare_Eq_Minor a b : ver_Compare a b = Eq → ver_Major a = ver_Major b ∧ ver_Minor a = ver_Minor b.
Proof.
  intros H. pose proof (Compare_major_minor a b) as H1. pose proof (Compare_major_minor b a) as H2.
  rewrite (Compare_Eq_sym _ _ H) in H2. rewrite H in H1.
  destruct H1 as [?|[??]], H2 as [?|[??]]; try done; lia.
Qed.

Lemma NewSemverOrDie_String v :
  ∃ b, NewSemverOrDie (ver_String v) = Ok (ver_String v) ∧
       Semver_Semver (Some (ver_String v)) = Some b ∧ ver_Compare v b = Eq.
Proof.
  destruct (parse_String v) as (b & Hb & Hc & _).
  exists b. unfold NewSemverOrDie, NewSemver, Semver_Set, Semver_Semver. by rewrite Hb.
Qed.

(** [normalize] never panics on a version that parses, and keeps its precedence. *)
Lemma normalize_ok s v :
  Semver_Semver (Some s) = Some v →
  ∃ b, normalize (Some s) = Ok (Some (ver_String v)) ∧
       Semver_Semver (Some (ver_String v)) = Some b ∧ ver_Compare v b = Eq.
Proof.
  intros Hs. destruct (NewSemverOrDie_String v) as (b & H1 & H2 & H3).
  exists b. unfold normalize, Semver_String. rewrite Hs. simpl. by rewrite H1.
Qed.

Lemma Semver_Equal_spec s b :
  Semver_Equal s b = true ↔ ∃ v u, Semver_Semver s = Some v ∧ Semver_Semver b = Some u ∧ ver_Compare v u = Eq.
Proof.
  unfold Semver_Equal, Semver_cmp. destruct s as [s|], b as [b|]; simpl;
    [|naive_solver..].
  destruct (NewVersion s), (NewVersion b); rewrite ?ver_Equal_spec; naive_solver.
Qed.

Lemma Semver_Equal_sym s b : Semver_Equal s b = Semver_Equal b s.
Proof.
  apply eq_true_iff_eq. rewrite !Semver_Equal_spec.
  split; intros (v & u & ? & ? & ?%Compare_Eq_sym); eauto.
Qed.

Lemma Semver_Equal_trans a b c :
  Semver_Equal a b = true → Semver_Equal b c = true → Semver_Equal a c = true.
Proof.
  rewrite !Semver_Equal_spec. intros (v & u & ? & ? & ?) (u' & x & ? & ? & ?).
  simplify_eq. exists v, x. eauto using Compare_Eq_trans.
Qed.
End semver_laws.

(** ** The skew rule *)
Section skew.
Context `{L : SemverLib, !SemverLaws L}.

(** For a control plane of minor 2 or later a kubelet is accepted exactly when it
    has the same major and is at most two minors older and not newer. *)
Lemma skew_range (cp k : Version) :
  2 ≤ ver_Minor cp →
  EnsureVersionCompatible (Some cp) (Some k) = Ok tt ↔
  ver_Major k = ver_Major cp ∧ ver_Minor cp - 2 ≤ ver_Minor k ≤ ver_Minor cp.
Proof.
  intros Hcp. pose proof (Minor_range cp). pose proof (Minor_range k).
  unfold EnsureVersionCompatible, wrapU64. rewrite Z.mod_small by lia.
  destruct (_ && _) eqn:E.
  - split; [intros _; lia|done].
  - split; [done|intros; exfalso; lia].
Qed.

(** The unsigned subtraction of the skew rule wraps for a control plane of
    minor 0 or 1: no kubelet at all is accepted there, not even one of the very
    same version. *)
Theorem EnsureVersionCompatible_wraps (cp k : Version) :
  ver_Minor cp < 2 → EnsureVersionCompatible (Some cp) (Some k) ≠ Ok tt.
Proof.
  intros Hcp. pose proof (Minor_range cp).
  unfold EnsureVersionCompatible, wrapU64.
  replace ((ver_Minor cp - 2) `mod` 2 ^ 64) with (ver_Minor cp - 2 + 2 ^ 64).
  - destruct (_ && _) eqn:E; [exfalso; lia|done].
  - rewrite <- (Z.mod_small (ver_Minor cp - 2 + 2 ^ 64) (2 ^ 64)) by lia.
    rewrite <- Zplus_mod_idemp_r, Z_mod_same_full, Z.add_0_r by lia. done.
Qed.
End skew.
