(* ===== verification/Net.v ===== *)
(** * Go's package [net]

    The parts that the IPAM controller uses, on byte slices: masks, membership and
    equality of addresses, and their text forms.  A nil slice is the empty list. *)

From S2P Require Import Prelude.

(** ** [net.IP], [net.IPMask], [net.IPNet] *)

Abbreviation IP := (list Z).
Definition IPv4len : nat := 4.
Definition IPv6len : nat := 16.
Definition v4InV6Prefix : IP := [0; 0; 0; 0; 0; 0; 0; 0; 0; 0; 255; 255].

Record IPNet := mkIPNet { in_IP : IP; in_Mask : IP }.

Definition To4 (ip : IP) : option IP :=
  if Nat.eqb (length ip) IPv4len then Some ip
  else if Nat.eqb (length ip) IPv6len && bool_decide (take 12 ip = v4InV6Prefix) then Some (drop 12 ip)
  else None.

Definition and_bytes (a b : IP) : IP := zip_with Z.land a b.

Definition IP_Mask (ip mask : IP) : IP :=
  let mask := if Nat.eqb (length mask) IPv6len && Nat.eqb (length ip) IPv4len &&
                 bool_decide (take 12 mask = replicate 12 255) then drop 12 mask else mask in
  let ip := if Nat.eqb (length mask) IPv4len && Nat.eqb (length ip) IPv6len &&
               bool_decide (take 12 ip = v4InV6Prefix) then drop 12 ip else ip in
  if negb (Nat.eqb (length ip) (length mask)) then [] else and_bytes ip mask.

Definition networkNumberAndMask (n : IPNet) : IP * IP :=
  match (match To4 (in_IP n) with
         | Some ip => Some ip
         | None => if negb (Nat.eqb (length (in_IP n)) IPv6len) then None else Some (in_IP n)
         end) with
  | None => ([], [])
  | Some ip =>
      let m := in_Mask n in
      if Nat.eqb (length m) IPv4len then (if negb (Nat.eqb (length ip) IPv4len) then ([], []) else (ip, m))
      else if Nat.eqb (length m) IPv6len then (ip, if Nat.eqb (length ip) IPv4len then drop 12 m else m)
      else ([], [])
  end.

Definition Contains (n : IPNet) (ip : IP) : bool :=
  let '(nn, m) := networkNumberAndMask n in
  let ip := match To4 ip with Some x => x | None => ip end in
  if negb (Nat.eqb (length ip) (length nn)) then false
  else bool_decide (and_bytes nn m = and_bytes ip m).

Definition IP_Equal (ip x : IP) : bool :=
  if Nat.eqb (length ip) (length x) then bool_decide (ip = x)
  else if Nat.eqb (length ip) IPv4len && Nat.eqb (length x) IPv6len
  then bool_decide (take 12 x = v4InV6Prefix) && bool_decide (ip = drop 12 x)
  else if Nat.eqb (length ip) IPv6len && Nat.eqb (length x) IPv4len
  then bool_decide (take 12 ip = v4InV6Prefix) && bool_decide (drop 12 ip = x)
  else false.

(** [simpleMaskLength] and [IPMask.Size]: the number of leading ones, 0 for a mask
    that is not of this form. *)
Fixpoint leading_ones (fuel : nat) (v : Z) : Z :=
  match fuel with
  | O => 0
  | S fuel => if Z.testbit v 7 then 1 + leading_ones fuel (Z.land (Z.shiftl v 1) 255) else 0
  end.
Fixpoint simpleMaskLength (mask : IP) : option Z :=
  match mask with
  | [] => Some 0
  | v :: rest =>
      if v =? 255 then (n ← simpleMaskLength rest; Some (8 + n))
      else
        let n := leading_ones 8 v in
        if (v =? 256 - 2 ^ (8 - n)) && forallb (Z.eqb 0) rest then Some n else None
  end.
Definition Mask_ones (mask : IP) : Z := default 0 (simpleMaskLength mask).

(** ** Text *)

Abbreviation chars := (list Ascii.ascii).

Definition code (c : Ascii.ascii) : Z := Z.of_N (Ascii.N_of_ascii c).
Definition is_char (c : Ascii.ascii) (s : string) : bool := String.eqb (String c "") s.
Definition starts (s : chars) (c : string) : bool := match s with x :: _ => is_char x c | [] => false end.

Definition big : Z := 16777215.

(** [dtoi] and [xtoi]: the number a text starts with, the characters it takes,
    and whether there is one and it is small enough. *)
Fixpoint numeral (base : Z) (digit : Ascii.ascii → option Z) (n : Z) (i : nat) (s : chars) : Z * nat * bool :=
  match s with
  | c :: rest =>
      match digit c with
      | Some d => let n := n * base + d in if big <=? n then (big, i, false) else numeral base digit n (S i) rest
      | None => if Nat.eqb i 0 then (0, 0%nat, false) else (n, i, true)
      end
  | [] => if Nat.eqb i 0 then (0, 0%nat, false) else (n, i, true)
  end.
Definition decimal (c : Ascii.ascii) : option Z :=
  if (48 <=? code c) && (code c <=? 57) then Some (code c - 48) else None.
Definition hexadecimal (c : Ascii.ascii) : option Z :=
  if (48 <=? code c) && (code c <=? 57) then Some (code c - 48)
  else if (97 <=? code c) && (code c <=? 102) then Some (code c - 97 + 10)
  else if (65 <=? code c) && (code c <=? 70) then Some (code c - 65 + 10)
  else None.
Definition dtoi (s : chars) : Z * nat * bool := numeral 10 decimal 0 0 s.
Definition xtoi (s : chars) : Z * nat * bool := numeral 16 hexadecimal 0 0 s.

(** The last [todo] octets that [parseIPv4] reads. *)
Fixpoint octets (todo : nat) (first : bool) (s : chars) : option IP :=
  match todo with
  | O => match s with [] => Some [] | _ :: _ => None end
  | S todo =>
      if Nat.eqb (length s) 0 then None
      else if negb first && negb (starts s ".") then None
      else
        let s := if first then s else drop 1 s in
        let '(n, c, ok) := dtoi s in
        if negb ok || (255 <? n) then None
        else if Nat.ltb 1 c && starts s "0" then None
        else (p ← octets todo false (drop c s); Some (n :: p))
  end.
Definition parseIPv4 (s : chars) : option IP := p ← octets 4 true s; Some (v4InV6Prefix ++ p).

(** The loop of [parseIPv6]: [bytes] are those written so far, [ellipsis] is the
    position of the double colon. *)
Fixpoint groups (fuel : nat) (bytes : IP) (ellipsis : option nat) (s : chars) : option (IP * option nat * chars) :=
  match fuel with
  | O => Some (bytes, ellipsis, s)
  | S fuel =>
      if negb (Nat.ltb (length bytes) IPv6len) then Some (bytes, ellipsis, s) else
      let '(n, c, ok) := xtoi s in
      if negb ok || (65535 <? n) then None
      else if starts (drop c s) "." then
        if match ellipsis with None => negb (Nat.eqb (length bytes) (IPv6len - IPv4len)) | Some _ => false end then None
        else if Nat.ltb IPv6len (length bytes + IPv4len) then None
        else (ip4 ← parseIPv4 s; Some (bytes ++ drop 12 ip4, ellipsis, []))
      else
        let bytes := bytes ++ [n / 256; n `mod` 256] in
        let s := drop c s in
        if Nat.eqb (length s) 0 then Some (bytes, ellipsis, s)
        else if negb (starts s ":") || Nat.eqb (length s) 1 then None
        else
          let s := drop 1 s in
          if starts s ":" then
            match ellipsis with
            | Some _ => None
            | None =>
                let s := drop 1 s in
                if Nat.eqb (length s) 0 then Some (bytes, Some (length bytes), s)
                else groups fuel bytes (Some (length bytes)) s
            end
          else groups fuel bytes ellipsis s
  end.
Definition parseIPv6 (s : chars) : option IP :=
  let leading := starts s ":" && starts (drop 1 s) ":" in
  let s := if leading then drop 2 s else s in
  if leading && Nat.eqb (length s) 0 then Some (replicate IPv6len 0) else
  '(bytes, ellipsis, s) ← groups 8 [] (if leading then Some 0%nat else None) s;
  if negb (Nat.eqb (length s) 0) then None
  else if Nat.ltb (length bytes) IPv6len then
    (e ← ellipsis; Some (take e bytes ++ replicate (IPv6len - length bytes) 0 ++ drop e bytes))
  else match ellipsis with Some _ => None | None => Some bytes end.

Fixpoint cut_slash (s : chars) : option (chars * chars) :=
  match s with
  | [] => None
  | c :: rest => if is_char c "/" then Some ([], rest) else ('(a, m) ← cut_slash rest; Some (c :: a, m))
  end.

(** [CIDRMask] for [8 * n] bits. *)
Fixpoint CIDRMask (n : nat) (ones : Z) : IP :=
  match n with
  | O => []
  | S n => (if 8 <=? ones then 255 else if ones <=? 0 then 0 else 256 - 2 ^ (8 - ones)) :: CIDRMask n (ones - 8)
  end.

(** [ParseCIDR]: the address and its network. *)
Definition ParseCIDRNet (s : string) : outcome (IP * IPNet) :=
  let failed := Err (ErrNew ("invalid CIDR address: " +:+ s)) in
  match cut_slash (String.list_ascii_of_string s) with
  | None => failed
  | Some (addr, mask) =>
      let '(iplen, ip) := match parseIPv4 addr with
                          | Some ip => (IPv4len, Some ip)
                          | None => (IPv6len, parseIPv6 addr)
                          end in
      let '(n, i, ok) := dtoi mask in
      match ip with
      | None => failed
      | Some ip =>
          if negb ok || negb (Nat.eqb i (length mask)) || (n <? 0) || (8 * Z.of_nat iplen <? n) then failed
          else let m := CIDRMask iplen n in Ok (ip, mkIPNet (IP_Mask ip m) m)
      end
  end.

(** Its first result. *)
Definition ParseCIDR (s : string) : outcome IP := r ← ParseCIDRNet s; Ok r.1.

(** [ParseIP]: the first dot or colon decides about the family. *)
Definition ParseIP (s : string) : option IP :=
  let s := String.list_ascii_of_string s in
  match List.find (λ c, is_char c "." || is_char c ":") s with
  | Some c => if is_char c "." then parseIPv4 s else parseIPv6 s
  | None => None
  end.

(** [IP.String]. *)
Definition hex_digit (d : Z) : string :=
  String (Ascii.ascii_of_N (Z.to_N (if d <? 10 then 48 + d else 87 + d))) "".
Definition hexString (b : IP) : string := String.concat "" (map (λ x, hex_digit (x / 16) +:+ hex_digit (x `mod` 16)) b).

(** [appendHex], without leading zeros. *)
Definition appendHex (n : Z) : string :=
  if n =? 0 then "0" else
  String.concat "" (map (λ k, if n / 16 ^ k =? 0 then "" else hex_digit ((n / 16 ^ k) `mod` 16)) [3; 2; 1; 0]).

Fixpoint pairs (p : IP) : list Z :=
  match p with a :: b :: rest => a * 256 + b :: pairs rest | _ => [] end.

(** The groups of zeros from the start on. *)
Fixpoint zero_run (g : list Z) : nat :=
  match g with 0 :: rest => S (zero_run rest) | _ => 0 end.

(** The longest run of zeros, the first of several: its start and its end in
    groups of two bytes. *)
Fixpoint longest_run (fuel i : nat) (g : list Z) (best : nat * nat) : nat * nat :=
  match fuel with
  | O => best
  | S fuel =>
      if Nat.leb 8 i then best else
      let r := zero_run (drop i g) in
      let '(e0, e1) := best in
      if Nat.ltb 0 r && Nat.ltb (e1 - e0) r then longest_run fuel (i + r + 1) g (i, (i + r)%nat)
      else longest_run fuel (i + 1) g best
  end.

Definition ipv6_string (p : IP) : string :=
  let g := pairs p in
  let '(e0, e1) := longest_run 9 0 g (0%nat, 0%nat) in
  let text := λ l, String.concat ":" (map appendHex l) in
  if Nat.leb (e1 - e0) 1 then text g
  else text (take e0 g) +:+ "::" +:+ text (drop e1 g).

Definition dotted (p : IP) : string := String.concat "." (map (λ b, pretty (Z.to_N b)) p).

Definition IP_String (ip : IP) : string :=
  if Nat.eqb (length ip) 0 then "<nil>"
  else match To4 ip with
       | Some p4 => dotted p4
       | None => if negb (Nat.eqb (length ip) IPv6len) then "?" +:+ hexString ip else ipv6_string ip
       end.
