(* ===== verification/CloudApi.v ===== *)
(** * Cloud, network and component settings of a cluster

    The parts of a cluster's spec in [pkg/apis/kubermatic/v1/cluster.go], network
    ranges ([utils.go]), datacenters and seeds ([datacenter.go]), the names of cloud
    providers ([pkg/provider/types.go]) and the CNI plugins ([pkg/version/cni]). *)

From S2P Require Import Prelude Kube Net.

(** ** Credentials *)

(** [providerconfig.GlobalSecretKeySelector] of the machine controller. *)
Record SecretKeySelector := mkSecretKeySelector { gs_namespace : string; gs_name : string; gs_key : string }.
#[global] Instance SecretKeySelector_eq_dec : EqDecision SecretKeySelector.
Proof. solve_decision. Defined.

Definition ValidateSecretKeySelector (selector : option SecretKeySelector) (key : string) : outcome unit :=
  let empty := Err (ErrNew (key +:+ " cannot be empty")) in
  match selector with
  | None => empty
  | Some s =>
      if String.eqb (gs_name s) "" || String.eqb (gs_namespace s) "" || String.eqb key "" then empty else Ok tt
  end.

(** ** Networks *)

Record NetworkRanges := mkNetworkRanges { nr_CIDRBlocks : list string }.

(** [k8s.io/utils/net]: the family of a CIDR, for what [net.ParseCIDR] accepts. *)
Class KubeNet := {
  IsIPv4CIDRString : string → bool;
  IsIPv6CIDRString : string → bool;
  IsIPv4CIDRString_parse : ∀ s ip, ParseCIDR s = Ok ip → IsIPv4CIDRString s = bool_decide (is_Some (To4 ip));
  IsIPv6CIDRString_parse : ∀ s ip, ParseCIDR s = Ok ip → IsIPv6CIDRString s = negb (bool_decide (is_Some (To4 ip)));
  ParsePortRange : string → error + Z * Z;
}.

Fixpoint validateBlocks (blocks : list string) : outcome unit :=
  match blocks with
  | [] => Ok tt
  | cidr :: rest => _ ← outcome_wrap "unable to parse CIDR" (ParseCIDR cidr); validateBlocks rest
  end.
Definition NetworkRanges_Validate (r : option NetworkRanges) : outcome unit :=
  match r with None => Ok tt | Some r => validateBlocks (nr_CIDRBlocks r) end.

Section ranges.
Context `{KubeNet}.
Definition GetIPv4CIDR (r : NetworkRanges) : string := default "" (List.find IsIPv4CIDRString (nr_CIDRBlocks r)).
Definition GetIPv4CIDRs (r : NetworkRanges) : list string := List.filter IsIPv4CIDRString (nr_CIDRBlocks r).
Definition HasIPv4CIDR (r : NetworkRanges) : bool := negb (String.eqb (GetIPv4CIDR r) "").
Definition GetIPv6CIDR (r : NetworkRanges) : string := default "" (List.find IsIPv6CIDRString (nr_CIDRBlocks r)).
Definition GetIPv6CIDRs (r : NetworkRanges) : list string := List.filter IsIPv6CIDRString (nr_CIDRBlocks r).
Definition HasIPv6CIDR (r : NetworkRanges) : bool := negb (String.eqb (GetIPv6CIDR r) "").
End ranges.

Definition IPFamilyUnspecified : string := "".
Definition IPFamilyIPv4 : string := "IPv4".
Definition IPFamilyDualStack : string := "IPv4+IPv6".

Record IPVSConfiguration := mkIPVSConfiguration { iv_strictArp : option bool }.

Record ClusterNetworkingConfig := mkClusterNetworkingConfig {
  cn_ipFamily : string;
  cn_services : NetworkRanges;
  cn_pods : NetworkRanges;
  cn_nodeCIDRMaskSizeIPv4 : option Z;
  cn_nodeCIDRMaskSizeIPv6 : option Z;
  cn_dnsDomain : string;
  cn_proxyMode : string;
  cn_ipvs : option IPVSConfiguration;
  cn_nodeLocalDNSCacheEnabled : option bool;
  cn_coreDNSReplicas : option Z;
  cn_konnectivityEnabled : option bool;
}.

Record MachineNetworkingConfig := mkMachineNetworkingConfig {
  mn_cidr : string;
  mn_gateway : string;
  mn_dnsServers : list string;
}.

Record ClusterAddress := mkClusterAddress {
  ca_url : string;
  ca_port : Z;
  ca_externalName : string;
  ca_internalName : string;
  ca_adminToken : string;
  ca_ip : string;
}.

Definition ExposeStrategyNodePort : string := "NodePort".
Definition ExposeStrategyLoadBalancer : string := "LoadBalancer".
Definition ExposeStrategyTunneling : string := "Tunneling".
Definition AllExposeStrategies : list string :=
  [ExposeStrategyNodePort; ExposeStrategyLoadBalancer; ExposeStrategyTunneling].
Definition ExposeStrategiesSet_Has (e : list string) (item : string) : bool := existsb (String.eqb item) e.

#[global] Instance NetworkRanges_eq_dec : EqDecision NetworkRanges.
Proof. solve_decision. Defined.
#[global] Instance IPVSConfiguration_eq_dec : EqDecision IPVSConfiguration.
Proof. solve_decision. Defined.
#[global] Instance ClusterNetworkingConfig_eq_dec : EqDecision ClusterNetworkingConfig.
Proof. solve_decision. Defined.
#[global] Instance MachineNetworkingConfig_eq_dec : EqDecision MachineNetworkingConfig.
Proof. solve_decision. Defined.
#[global] Instance ClusterAddress_eq_dec : EqDecision ClusterAddress.
Proof. solve_decision. Defined.

(** ** CNI plugins: [pkg/version/cni] *)

Record CNIPluginSettings := mkCNIPluginSettings { cni_type : string; cni_version : string }.
#[global] Instance CNIPluginSettings_eq_dec : EqDecision CNIPluginSettings.
Proof. solve_decision. Defined.

Definition CNIPluginTypeCanal : string := "canal".
Definition CNIPluginTypeCilium : string := "cilium".
Definition CNIPluginTypeNone : string := "none".

Definition CanalCNILastUnspecifiedVersion : string := "v3.8".
Definition defaultCNIPluginVersion : gmap string string :=
  list_to_map [(CNIPluginTypeCanal, "v3.22"); (CNIPluginTypeCilium, "v1.11")].
Definition supportedCNIPlugins : gset string := NewString [CNIPluginTypeCanal; CNIPluginTypeCilium; CNIPluginTypeNone].
Definition supportedCNIPluginVersions : gmap string (gset string) :=
  list_to_map [(CNIPluginTypeCanal, NewString ["v3.19"; "v3.20"; "v3.21"; "v3.22"]);
               (CNIPluginTypeCilium, NewString ["v1.11"]); (CNIPluginTypeNone, NewString [""])].
Definition deprecatedCNIPluginVersions : gmap string (gset string) :=
  list_to_map [(CNIPluginTypeCanal, NewString ["v3.8"])].

Definition GetSupportedCNIPlugins : gset string := supportedCNIPlugins.
Definition GetSupportedCNIPluginVersions (cniPluginType : string) : outcome (gset string) :=
  if negb (bool_decide (cniPluginType ∈ supportedCNIPlugins)) then Err (ErrNew "CNI Plugin type not supported")
  else match supportedCNIPluginVersions !! cniPluginType with
       | None => Err (ErrNew "no versions available for CNI plugin")
       | Some versions => Ok versions
       end.
Definition GetAllowedCNIPluginVersions (cniPluginType : string) : outcome (gset string) :=
  supported ← GetSupportedCNIPluginVersions cniPluginType;
  Ok (match deprecatedCNIPluginVersions !! cniPluginType with
      | Some deprecated => supported ∪ deprecated
      | None => supported
      end).
Definition GetDefaultCNIPluginVersion (cniPluginType : string) : string :=
  default "" (defaultCNIPluginVersion !! cniPluginType).
Definition IsSupportedCNIPluginTypeAndVersion (cni : option CNIPluginSettings) : bool :=
  match cni with
  | None => false
  | Some cni =>
      match supportedCNIPluginVersions !! cni_type cni with
      | None => false
      | Some versions => bool_decide (cni_version cni ∈ versions)
      end
  end.

(** ** Cloud providers *)

Definition AWSCloudProvider : string := "aws".
Definition AlibabaCloudProvider : string := "alibaba".
Definition AnexiaCloudProvider : string := "anexia".
Definition AzureCloudProvider : string := "azure".
Definition BringYourOwnCloudProvider : string := "bringyourown".
Definition DigitaloceanCloudProvider : string := "digitalocean".
Definition FakeCloudProvider : string := "fake".
Definition GCPCloudProvider : string := "gcp".
Definition HetznerCloudProvider : string := "hetzner".
Definition KubevirtCloudProvider : string := "kubevirt".
Definition NutanixCloudProvider : string := "nutanix".
Definition OpenstackCloudProvider : string := "openstack".
Definition PacketCloudProvider : string := "packet".
Definition VMwareCloudDirectorCloudProvider : string := "vmware-cloud-director".
Definition VSphereCloudProvider : string := "vsphere".

Record FakeCloudSpec := mkFakeCloudSpec { fk_token : string }.
Record DigitaloceanCloudSpec := mkDigitaloceanCloudSpec {
  do_credentialsReference : option SecretKeySelector;
  do_token : string;
}.
Record HetznerCloudSpec := mkHetznerCloudSpec {
  hz_credentialsReference : option SecretKeySelector;
  hz_token : string;
  hz_network : string;
}.
Record AzureCloudSpec := mkAzureCloudSpec {
  az_credentialsReference : option SecretKeySelector;
  az_tenantID : string;
  az_subscriptionID : string;
  az_clientID : string;
  az_clientSecret : string;
  az_resourceGroup : string;
  az_vnetResourceGroup : string;
  az_vnetName : string;
  az_subnetName : string;
  az_routeTableName : string;
  az_securityGroup : string;
  az_nodePortsAllowedIPRange : string;
  az_nodePortsAllowedIPRanges : option NetworkRanges;
  az_assignAvailabilitySet : option bool;
  az_availabilitySet : string;
  az_loadBalancerSKU : string;
}.
Record VSphereCredentials := mkVSphereCredentials { vc_username : string; vc_password : string }.
Record VSphereCloudSpec := mkVSphereCloudSpec {
  vs_credentialsReference : option SecretKeySelector;
  vs_username : string;
  vs_password : string;
  vs_vmNetName : string;
  vs_folder : string;
  vs_datastore : string;
  vs_datastoreCluster : string;
  vs_storagePolicy : string;
  vs_resourcePool : string;
  vs_infraManagementUser : VSphereCredentials;
  vs_tagCategoryID : string;
}.
Record VMwareCloudDirectorCloudSpec := mkVMwareCloudDirectorCloudSpec {
  vd_credentialsReference : option SecretKeySelector;
  vd_username : string;
  vd_password : string;
  vd_organization : string;
  vd_vdc : string;
  vd_ovdcNetwork : string;
  vd_vapp : string;
}.
Record AWSCloudSpec := mkAWSCloudSpec {
  aws_credentialsReference : option SecretKeySelector;
  aws_accessKeyID : string;
  aws_secretAccessKey : string;
  aws_assumeRoleARN : string;
  aws_assumeRoleExternalID : string;
  aws_vpcID : string;
  aws_controlPlaneRoleARN : string;
  aws_routeTableID : string;
  aws_instanceProfileName : string;
  aws_securityGroupID : string;
  aws_nodePortsAllowedIPRange : string;
  aws_nodePortsAllowedIPRanges : option NetworkRanges;
}.
Record OpenstackCloudSpec := mkOpenstackCloudSpec {
  os_credentialsReference : option SecretKeySelector;
  os_username : string;
  os_password : string;
  os_project : string;
  os_projectID : string;
  os_domain : string;
  os_applicationCredentialID : string;
  os_applicationCredentialSecret : string;
  os_useToken : bool;
  os_token : string;
  os_network : string;
  os_securityGroups : string;
  os_nodePortsAllowedIPRange : string;
  os_nodePortsAllowedIPRanges : option NetworkRanges;
  os_floatingIPPool : string;
  os_routerID : string;
  os_subnetID : string;
  os_ipv6SubnetID : string;
  os_ipv6SubnetPool : string;
  os_useOctavia : option bool;
}.
Record PacketCloudSpec := mkPacketCloudSpec {
  pk_credentialsReference : option SecretKeySelector;
  pk_apiKey : string;
  pk_projectID : string;
  pk_billingCycle : string;
}.
Record GCPCloudSpec := mkGCPCloudSpec {
  gcp_credentialsReference : option SecretKeySelector;
  gcp_serviceAccount : string;
  gcp_network : string;
  gcp_subnetwork : string;
  gcp_nodePortsAllowedIPRange : string;
  gcp_nodePortsAllowedIPRanges : option NetworkRanges;
}.
Record PreAllocatedDataVolume := mkPreAllocatedDataVolume {
  dv_name : string;
  dv_url : string;
  dv_size : string;
  dv_storageClass : string;
}.
Record KubevirtCloudSpec := mkKubevirtCloudSpec {
  kb_credentialsReference : option SecretKeySelector;
  kb_kubeconfig : string;
  kb_csiKubeconfig : string;
  kb_preAllocatedDataVolumes : list PreAllocatedDataVolume;
}.
Record AlibabaCloudSpec := mkAlibabaCloudSpec {
  al_credentialsReference : option SecretKeySelector;
  al_accessKeyID : string;
  al_accessKeySecret : string;
}.
Record AnexiaCloudSpec := mkAnexiaCloudSpec {
  ax_credentialsReference : option SecretKeySelector;
  ax_token : string;
}.
Record NutanixCSIConfig := mkNutanixCSIConfig {
  nc_username : string;
  nc_password : string;
  nc_endpoint : string;
  nc_port : option Z;
  nc_storageContainer : string;
  nc_fstype : string;
  nc_ssSegmentedIscsiNetwork : option bool;
}.
Record NutanixCloudSpec := mkNutanixCloudSpec {
  nx_credentialsReference : option SecretKeySelector;
  nx_clusterName : string;
  nx_projectName : string;
  nx_proxyURL : string;
  nx_username : string;
  nx_password : string;
  nx_csi : option NutanixCSIConfig;
}.

Record CloudSpec := mkCloudSpec {
  cd_datacenterName : string;
  cd_providerName : string;
  cd_fake : option FakeCloudSpec;
  cd_digitalocean : option DigitaloceanCloudSpec;
  cd_bringYourOwn : option unit;
  cd_aws : option AWSCloudSpec;
  cd_azure : option AzureCloudSpec;
  cd_openstack : option OpenstackCloudSpec;
  cd_packet : option PacketCloudSpec;
  cd_hetzner : option HetznerCloudSpec;
  cd_vsphere : option VSphereCloudSpec;
  cd_gcp : option GCPCloudSpec;
  cd_kubevirt : option KubevirtCloudSpec;
  cd_alibaba : option AlibabaCloudSpec;
  cd_anexia : option AnexiaCloudSpec;
  cd_nutanix : option NutanixCloudSpec;
  cd_vmwareCloudDirector : option VMwareCloudDirectorCloudSpec;
}.

#[global] Instance FakeCloudSpec_eq_dec : EqDecision FakeCloudSpec.
Proof. solve_decision. Defined.
#[global] Instance DigitaloceanCloudSpec_eq_dec : EqDecision DigitaloceanCloudSpec.
Proof. solve_decision. Defined.
#[global] Instance HetznerCloudSpec_eq_dec : EqDecision HetznerCloudSpec.
Proof. solve_decision. Defined.
#[global] Instance AzureCloudSpec_eq_dec : EqDecision AzureCloudSpec.
Proof. solve_decision. Defined.
#[global] Instance VSphereCredentials_eq_dec : EqDecision VSphereCredentials.
Proof. solve_decision. Defined.
#[global] Instance VSphereCloudSpec_eq_dec : EqDecision VSphereCloudSpec.
Proof. solve_decision. Defined.
#[global] Instance VMwareCloudDirectorCloudSpec_eq_dec : EqDecision VMwareCloudDirectorCloudSpec.
Proof. solve_decision. Defined.
#[global] Instance AWSCloudSpec_eq_dec : EqDecision AWSCloudSpec.
Proof. solve_decision. Defined.
#[global] Instance OpenstackCloudSpec_eq_dec : EqDecision OpenstackCloudSpec.
Proof. solve_decision. Defined.
#[global] Instance PacketCloudSpec_eq_dec : EqDecision PacketCloudSpec.
Proof. solve_decision. Defined.
#[global] Instance GCPCloudSpec_eq_dec : EqDecision GCPCloudSpec.
Proof. solve_decision. Defined.
#[global] Instance PreAllocatedDataVolume_eq_dec : EqDecision PreAllocatedDataVolume.
Proof. solve_decision. Defined.
#[global] Instance KubevirtCloudSpec_eq_dec : EqDecision KubevirtCloudSpec.
Proof. solve_decision. Defined.
#[global] Instance AlibabaCloudSpec_eq_dec : EqDecision AlibabaCloudSpec.
Proof. solve_decision. Defined.
#[global] Instance AnexiaCloudSpec_eq_dec : EqDecision AnexiaCloudSpec.
Proof. solve_decision. Defined.
#[global] Instance NutanixCSIConfig_eq_dec : EqDecision NutanixCSIConfig.
Proof. solve_decision. Defined.
#[global] Instance NutanixCloudSpec_eq_dec : EqDecision NutanixCloudSpec.
Proof. solve_decision. Defined.
#[global] Instance CloudSpec_eq_dec : EqDecision CloudSpec.
Proof. solve_decision. Defined.

(** [if p != nil { clouds = append(clouds, name) }] *)
Definition cloud_if {A} (p : option A) (name : string) : list string :=
  match p with Some _ => [name] | None => [] end.

Definition one_cloud (clouds : list string) (what : string) : outcome string :=
  match clouds with
  | [] => Ok ""
  | [c] => Ok c
  | _ => Err (ErrNew ("only one cloud provider can be set in " +:+ what))
  end.

Definition ClusterCloudProviderName (spec : CloudSpec) : outcome string :=
  one_cloud
    (cloud_if (cd_aws spec) AWSCloudProvider ++
     cloud_if (cd_alibaba spec) AlibabaCloudProvider ++
     cloud_if (cd_anexia spec) AnexiaCloudProvider ++
     cloud_if (cd_azure spec) AzureCloudProvider ++
     cloud_if (cd_bringYourOwn spec) BringYourOwnCloudProvider ++
     cloud_if (cd_digitalocean spec) DigitaloceanCloudProvider ++
     cloud_if (cd_fake spec) FakeCloudProvider ++
     cloud_if (cd_gcp spec) GCPCloudProvider ++
     cloud_if (cd_hetzner spec) HetznerCloudProvider ++
     cloud_if (cd_kubevirt spec) KubevirtCloudProvider ++
     cloud_if (cd_openstack spec) OpenstackCloudProvider ++
     cloud_if (cd_packet spec) PacketCloudProvider ++
     cloud_if (cd_vsphere spec) VSphereCloudProvider ++
     cloud_if (cd_nutanix spec) NutanixCloudProvider ++
     cloud_if (cd_vmwareCloudDirector spec) VMwareCloudDirectorCloudProvider) "CloudSpec".

(** ** Datacenters *)

Record DatacenterSpecOpenstack := mkDatacenterSpecOpenstack {
  dos_enforceFloatingIP : bool;
  dos_rest : gmap string string;
}.

(** The settings of the other providers travel by JSON name. *)
Record DatacenterSpec := mkDatacenterSpec {
  ds_digitalocean : option (gmap string string);
  ds_bringYourOwn : option unit;
  ds_aws : option (gmap string string);
  ds_azure : option (gmap string string);
  ds_openstack : option DatacenterSpecOpenstack;
  ds_packet : option (gmap string string);
  ds_hetzner : option (gmap string string);
  ds_vsphere : option (gmap string string);
  ds_vmwareCloudDirector : option (gmap string string);
  ds_gcp : option (gmap string string);
  ds_kubevirt : option (gmap string string);
  ds_alibaba : option (gmap string string);
  ds_anexia : option (gmap string string);
  ds_nutanix : option (gmap string string);
  ds_fake : option (gmap string string);
  ds_requiredEmails : list string;
  ds_enforceAuditLogging : bool;
  ds_enforcePodSecurityPolicy : bool;
  ds_providerReconciliationInterval : option Z;
}.

Record Datacenter := mkDatacenter {
  dc_country : string;
  dc_location : string;
  dc_node : option (gmap string string);
  dc_spec : DatacenterSpec;
}.

Definition DatacenterCloudProviderName (spec : option DatacenterSpec) : outcome string :=
  match spec with
  | None => Ok ""
  | Some spec =>
      one_cloud
        (cloud_if (ds_bringYourOwn spec) BringYourOwnCloudProvider ++
         cloud_if (ds_digitalocean spec) DigitaloceanCloudProvider ++
         cloud_if (ds_aws spec) AWSCloudProvider ++
         cloud_if (ds_openstack spec) OpenstackCloudProvider ++
         cloud_if (ds_packet spec) PacketCloudProvider ++
         cloud_if (ds_hetzner spec) HetznerCloudProvider ++
         cloud_if (ds_vsphere spec) VSphereCloudProvider ++
         cloud_if (ds_azure spec) AzureCloudProvider ++
         cloud_if (ds_gcp spec) GCPCloudProvider ++
         cloud_if (ds_fake spec) FakeCloudProvider ++
         cloud_if (ds_kubevirt spec) KubevirtCloudProvider ++
         cloud_if (ds_alibaba spec) AlibabaCloudProvider ++
         cloud_if (ds_anexia spec) AnexiaCloudProvider ++
         cloud_if (ds_nutanix spec) NutanixCloudProvider ++
         cloud_if (ds_vmwareCloudDirector spec) VMwareCloudDirectorCloudProvider) "DatacenterSpec"
  end.

(** ** Control plane components *)

(** A [resource.Quantity] is its text. *)
Abbreviation Quantity := string (only parsing).
Abbreviation ResourceList := (option (gmap string Quantity)) (only parsing).
Record ResourceRequirements := mkResourceRequirements { rr_limits : ResourceList; rr_requests : ResourceList }.

Record Toleration := mkToleration { tl_key : string; tl_operator : string; tl_value : string; tl_effect : string }.
Record DeploymentSettings := mkDeploymentSettings {
  dp_replicas : option Z;
  dp_resources : option ResourceRequirements;
  dp_tolerations : list Toleration;
}.
Record LeaderElectionSettings := mkLeaderElectionSettings {
  le_leaseDurationSeconds : option Z;
  le_renewDeadlineSeconds : option Z;
  le_retryPeriodSeconds : option Z;
}.
Record APIServerSettings := mkAPIServerSettings {
  as_deployment : DeploymentSettings;
  as_endpointReconcilingDisabled : option bool;
  as_nodePortRange : string;
}.
Record ControllerSettings := mkControllerSettings {
  ct_deployment : DeploymentSettings;
  ct_leaderElection : LeaderElectionSettings;
}.
Record EtcdStatefulSetSettings := mkEtcdStatefulSetSettings {
  es_clusterSize : option Z;
  es_storageClass : string;
  es_diskSize : option Quantity;
  es_resources : option ResourceRequirements;
  es_tolerations : list Toleration;
}.
Record NodeportProxyComponent := mkNodeportProxyComponent {
  np_dockerRepository : string;
  np_resources : ResourceRequirements;
}.
Record ComponentSettings := mkComponentSettings {
  cmp_apiserver : APIServerSettings;
  cmp_controllerManager : ControllerSettings;
  cmp_scheduler : ControllerSettings;
  cmp_etcd : EtcdStatefulSetSettings;
  cmp_prometheus : option ResourceRequirements;
  cmp_nodePortProxyEnvoy : NodeportProxyComponent;
  cmp_konnectivityProxy : option ResourceRequirements;
}.

(** ** Seeds *)

Record EnvoyLoadBalancerService := mkEnvoyLoadBalancerService {
  lb_annotations : gmap string string;
  lb_sourceRanges : list string;
}.
Record NodeportProxyConfig := mkNodeportProxyConfig {
  npc_disable : bool;
  npc_annotations : gmap string string;
  npc_envoy : NodeportProxyComponent;
  npc_loadBalancerService : EnvoyLoadBalancerService;
  npc_envoyManager : NodeportProxyComponent;
  npc_updater : NodeportProxyComponent;
}.

Record BackupDestination := mkDestination {
  bd_endpoint : string;
  bd_bucketName : string;
  bd_credentials : option NamespacedName;
}.
Record EtcdBackupRestore := mkEtcdBackupRestore {
  ebr_destinations : gmap string (option BackupDestination);
  ebr_defaultDestination : string;
}.

Record MeteringReportConfiguration := mkMeteringReport { mr_schedule : string; mr_interval : Z; mr_retention : option Z }.
Record MeteringConfiguration := mkMetering {
  mt_enabled : bool;
  mt_storageClassName : string;
  mt_storageSize : string;
  mt_reportConfigurations : gmap string (option MeteringReportConfiguration);
}.

Record Seed := mkSeed {
  seed_name : string;
  seed_namespace : string;
  seed_etcdBackupRestore : option EtcdBackupRestore;
  seed_datacenters : gmap string Datacenter;
  seed_nodeportProxy : NodeportProxyConfig;
  seed_exposeStrategy : string;
  seed_defaultComponentSettings : ComponentSettings;
  seed_defaultClusterTemplate : string;
  seed_metering : option MeteringConfiguration;
  seed_rest : gmap string string;
}.

#[global] Instance ResourceRequirements_eq_dec : EqDecision ResourceRequirements.
Proof. solve_decision. Defined.
#[global] Instance Toleration_eq_dec : EqDecision Toleration.
Proof. solve_decision. Defined.
#[global] Instance DeploymentSettings_eq_dec : EqDecision DeploymentSettings.
Proof. solve_decision. Defined.
#[global] Instance LeaderElectionSettings_eq_dec : EqDecision LeaderElectionSettings.
Proof. solve_decision. Defined.
#[global] Instance APIServerSettings_eq_dec : EqDecision APIServerSettings.
Proof. solve_decision. Defined.
#[global] Instance ControllerSettings_eq_dec : EqDecision ControllerSettings.
Proof. solve_decision. Defined.
#[global] Instance EtcdStatefulSetSettings_eq_dec : EqDecision EtcdStatefulSetSettings.
Proof. solve_decision. Defined.
#[global] Instance NodeportProxyComponent_eq_dec : EqDecision NodeportProxyComponent.
Proof. solve_decision. Defined.
#[global] Instance ComponentSettings_eq_dec : EqDecision ComponentSettings.
Proof. solve_decision. Defined.
