(* ===== verification/ClusterApi.v ===== *)
(** * Clusters and their status

    The API types of [pkg/apis/kubermatic/v1] that the modelled controllers read
    and write, and [pkg/apis/kubermatic/v1/helper/helper.go]: status updates with
    retries, conditions, and the wrapper around every cluster reconciliation. *)

From S2P Require Import Prelude Kube Semver CloudApi.

(** Reading a Go map: the zero value for a missing key. *)
Definition map_str (m : gmap string string) (k : string) : string := default "" (m !! k).
Definition map_bool (m : gmap string bool) (k : string) : bool := default false (m !! k).

Definition ConditionTrue : string := "True".
Definition ConditionFalse : string := "False".

(** ** Data *)

Record ClusterCondition := mkClusterCondition {
  cc_status : string;
  cc_kubermaticVersion : string;
  cc_lastHeartbeatTime : Z;
  cc_lastTransitionTime : Z;
  cc_reason : string;
  cc_message : string;
}.

Record ClusterVersionsStatus := mkClusterVersionsStatus {
  cv_controlPlane : Semver;
  cv_apiserver : Semver;
  cv_controllerManager : Semver;
  cv_scheduler : Semver;
  cv_oldestNodeVersion : option Semver;
}.

Record ClusterEncryptionStatus := mkClusterEncryptionStatus {
  ce_activeKey : string;
  ce_encryptedResources : list string;
  ce_phase : string;
}.

Record ExtendedClusterHealth := mkExtendedClusterHealth {
  eh_apiserver : string;
  eh_scheduler : string;
  eh_controller : string;
  eh_machineController : string;
  eh_etcd : string;
  eh_openVPN : string;
  eh_konnectivity : string;
  eh_cloudProviderInfrastructure : string;
  eh_userClusterControllerManager : string;
  eh_gatekeeperController : option string;
  eh_gatekeeperAudit : option string;
  eh_monitoring : option string;
  eh_logging : option string;
  eh_alertmanagerConfig : option string;
  eh_mlaGateway : option string;
  eh_applicationController : string;
}.

Record ResourceDetails := mkResourceDetails {
  rd_cpu : option string;
  rd_memory : option string;
  rd_storage : option string;
}.

Record ClusterStatus := mkClusterStatus {
  cs_lastUpdated : Z;
  cs_extendedHealth : ExtendedClusterHealth;
  cs_lastProviderReconciliation : Z;
  cs_namespaceName : string;
  cs_versions : ClusterVersionsStatus;
  cs_userName : string;
  cs_userEmail : string;
  cs_errorReason : option string;
  cs_errorMessage : option string;
  cs_conditions : gmap string ClusterCondition;
  cs_phase : string;
  cs_cloudMigrationRevision : Z;
  cs_inheritedLabels : gmap string string;
  cs_encryption : option ClusterEncryptionStatus;
  cs_resourceUsage : option ResourceDetails;
}.

Record SecretboxKey := mkSecretboxKey {
  sk_name : string;
  sk_value : string;
  sk_secretRef : option (string * string);
}.
Record SecretboxEncryptionConfiguration := mkSecretbox { sb_keys : list SecretboxKey }.
Record EncryptionConfiguration := mkEncryptionConfiguration {
  ec_enabled : bool;
  ec_resources : list string;
  ec_secretbox : option SecretboxEncryptionConfiguration;
}.

Record AuditLoggingSettings := mkAuditLoggingSettings { al_enabled : bool; al_policyPreset : string }.

Record MLASettings := mkMLASettings { mla_monitoringEnabled : bool; mla_loggingEnabled : bool }.

(** The fields of [ClusterSpec] that modelled code reads or writes; the other ones
    travel in [sp_rest], by JSON name. *)
Record ClusterSpec := mkClusterSpec {
  sp_humanReadableName : string;
  sp_version : Semver;
  sp_cloud : CloudSpec;
  sp_containerRuntime : string;
  sp_cniPlugin : option CNIPluginSettings;
  sp_clusterNetwork : ClusterNetworkingConfig;
  sp_machineNetworks : list MachineNetworkingConfig;
  sp_exposeStrategy : string;
  sp_componentsOverride : ComponentSettings;
  sp_features : gmap string bool;
  sp_usePodSecurityPolicyAdmissionPlugin : bool;
  sp_enableUserSSHKeyAgent : option bool;
  sp_enableOperatingSystemManager : bool;
  sp_auditLogging : option AuditLoggingSettings;
  sp_encryptionConfiguration : option EncryptionConfiguration;
  sp_pause : bool;
  sp_mla : option MLASettings;
  sp_rest : gmap string string;
}.
Definition sp_providerName (s : ClusterSpec) : string := cd_providerName (sp_cloud s).
Definition sp_datacenterName (s : ClusterSpec) : string := cd_datacenterName (sp_cloud s).

Record TypeMeta := mkTypeMeta { tm_kind : string; tm_apiVersion : string }.
#[global] Instance TypeMeta_eq_dec : EqDecision TypeMeta.
Proof. solve_decision. Defined.

Record Cluster := mkCluster {
  cl_meta : ObjectMeta;
  cl_spec : ClusterSpec;
  cl_status : ClusterStatus;
  cl_address : ClusterAddress;
  cl_typeMeta : TypeMeta;
}.

#[global] Instance ClusterCondition_eq_dec : EqDecision ClusterCondition.
Proof. solve_decision. Defined.
#[global] Instance ClusterVersionsStatus_eq_dec : EqDecision ClusterVersionsStatus.
Proof. solve_decision. Defined.
#[global] Instance ClusterEncryptionStatus_eq_dec : EqDecision ClusterEncryptionStatus.
Proof. solve_decision. Defined.
#[global] Instance ExtendedClusterHealth_eq_dec : EqDecision ExtendedClusterHealth.
Proof. solve_decision. Defined.
#[global] Instance ResourceDetails_eq_dec : EqDecision ResourceDetails.
Proof. solve_decision. Defined.
#[global] Instance ClusterStatus_eq_dec : EqDecision ClusterStatus.
Proof. solve_decision. Defined.
#[global] Instance SecretboxKey_eq_dec : EqDecision SecretboxKey.
Proof. solve_decision. Defined.
#[global] Instance Secretbox_eq_dec : EqDecision SecretboxEncryptionConfiguration.
Proof. solve_decision. Defined.
#[global] Instance EncryptionConfiguration_eq_dec : EqDecision EncryptionConfiguration.
Proof. solve_decision. Defined.
#[global] Instance AuditLoggingSettings_eq_dec : EqDecision AuditLoggingSettings.
Proof. solve_decision. Defined.
#[global] Instance MLASettings_eq_dec : EqDecision MLASettings.
Proof. solve_decision. Defined.
#[global] Instance ClusterSpec_eq_dec : EqDecision ClusterSpec.
Proof. solve_decision. Defined.
#[global] Instance Cluster_eq_dec : EqDecision Cluster.
Proof. solve_decision. Defined.

#[global] Program Instance Cluster_object : Object Cluster := {|
  obj_meta := cl_meta;
  set_meta m c := mkCluster m (cl_spec c) (cl_status c) (cl_address c) (cl_typeMeta c);
|}.
Next Obligation. done. Qed.

Definition cl_name (c : Cluster) : string := om_name (cl_meta c).

(** Field updates. *)
Definition set_cl_status (s : ClusterStatus) (c : Cluster) : Cluster :=
  mkCluster (cl_meta c) (cl_spec c) s (cl_address c) (cl_typeMeta c).
Definition set_cl_spec (s : ClusterSpec) (c : Cluster) : Cluster :=
  mkCluster (cl_meta c) s (cl_status c) (cl_address c) (cl_typeMeta c).
Definition set_conditions (m : gmap string ClusterCondition) (s : ClusterStatus) : ClusterStatus :=
  mkClusterStatus (cs_lastUpdated s) (cs_extendedHealth s) (cs_lastProviderReconciliation s)
    (cs_namespaceName s) (cs_versions s) (cs_userName s) (cs_userEmail s) (cs_errorReason s)
    (cs_errorMessage s) m (cs_phase s) (cs_cloudMigrationRevision s) (cs_inheritedLabels s)
    (cs_encryption s) (cs_resourceUsage s).
Definition set_versions (v : ClusterVersionsStatus) (s : ClusterStatus) : ClusterStatus :=
  mkClusterStatus (cs_lastUpdated s) (cs_extendedHealth s) (cs_lastProviderReconciliation s)
    (cs_namespaceName s) v (cs_userName s) (cs_userEmail s) (cs_errorReason s)
    (cs_errorMessage s) (cs_conditions s) (cs_phase s) (cs_cloudMigrationRevision s)
    (cs_inheritedLabels s) (cs_encryption s) (cs_resourceUsage s).
Definition set_phase (p : string) (s : ClusterStatus) : ClusterStatus :=
  mkClusterStatus (cs_lastUpdated s) (cs_extendedHealth s) (cs_lastProviderReconciliation s)
    (cs_namespaceName s) (cs_versions s) (cs_userName s) (cs_userEmail s) (cs_errorReason s)
    (cs_errorMessage s) (cs_conditions s) p (cs_cloudMigrationRevision s)
    (cs_inheritedLabels s) (cs_encryption s) (cs_resourceUsage s).
Definition set_encryption (e : option ClusterEncryptionStatus) (s : ClusterStatus) : ClusterStatus :=
  mkClusterStatus (cs_lastUpdated s) (cs_extendedHealth s) (cs_lastProviderReconciliation s)
    (cs_namespaceName s) (cs_versions s) (cs_userName s) (cs_userEmail s) (cs_errorReason s)
    (cs_errorMessage s) (cs_conditions s) (cs_phase s) (cs_cloudMigrationRevision s)
    (cs_inheritedLabels s) e (cs_resourceUsage s).
Definition set_health (h : ExtendedClusterHealth) (s : ClusterStatus) : ClusterStatus :=
  mkClusterStatus (cs_lastUpdated s) h (cs_lastProviderReconciliation s)
    (cs_namespaceName s) (cs_versions s) (cs_userName s) (cs_userEmail s) (cs_errorReason s)
    (cs_errorMessage s) (cs_conditions s) (cs_phase s) (cs_cloudMigrationRevision s)
    (cs_inheritedLabels s) (cs_encryption s) (cs_resourceUsage s).
Definition set_pause (b : bool) (s : ClusterSpec) : ClusterSpec :=
  mkClusterSpec (sp_humanReadableName s) (sp_version s) (sp_cloud s) (sp_containerRuntime s) (sp_cniPlugin s)
    (sp_clusterNetwork s) (sp_machineNetworks s) (sp_exposeStrategy s) (sp_componentsOverride s) (sp_features s)
    (sp_usePodSecurityPolicyAdmissionPlugin s) (sp_enableUserSSHKeyAgent s) (sp_enableOperatingSystemManager s)
    (sp_auditLogging s) (sp_encryptionConfiguration s) b (sp_mla s) (sp_rest s).
Definition set_spec_version (v : Semver) (s : ClusterSpec) : ClusterSpec :=
  mkClusterSpec (sp_humanReadableName s) v (sp_cloud s) (sp_containerRuntime s) (sp_cniPlugin s)
    (sp_clusterNetwork s) (sp_machineNetworks s) (sp_exposeStrategy s) (sp_componentsOverride s) (sp_features s)
    (sp_usePodSecurityPolicyAdmissionPlugin s) (sp_enableUserSSHKeyAgent s) (sp_enableOperatingSystemManager s)
    (sp_auditLogging s) (sp_encryptionConfiguration s) (sp_pause s) (sp_mla s) (sp_rest s).
Definition set_cloud (c : CloudSpec) (s : ClusterSpec) : ClusterSpec :=
  mkClusterSpec (sp_humanReadableName s) (sp_version s) c (sp_containerRuntime s) (sp_cniPlugin s)
    (sp_clusterNetwork s) (sp_machineNetworks s) (sp_exposeStrategy s) (sp_componentsOverride s) (sp_features s)
    (sp_usePodSecurityPolicyAdmissionPlugin s) (sp_enableUserSSHKeyAgent s) (sp_enableOperatingSystemManager s)
    (sp_auditLogging s) (sp_encryptionConfiguration s) (sp_pause s) (sp_mla s) (sp_rest s).
Definition set_cniPlugin (p : option CNIPluginSettings) (s : ClusterSpec) : ClusterSpec :=
  mkClusterSpec (sp_humanReadableName s) (sp_version s) (sp_cloud s) (sp_containerRuntime s) p
    (sp_clusterNetwork s) (sp_machineNetworks s) (sp_exposeStrategy s) (sp_componentsOverride s) (sp_features s)
    (sp_usePodSecurityPolicyAdmissionPlugin s) (sp_enableUserSSHKeyAgent s) (sp_enableOperatingSystemManager s)
    (sp_auditLogging s) (sp_encryptionConfiguration s) (sp_pause s) (sp_mla s) (sp_rest s).
Definition set_clusterNetwork (n : ClusterNetworkingConfig) (s : ClusterSpec) : ClusterSpec :=
  mkClusterSpec (sp_humanReadableName s) (sp_version s) (sp_cloud s) (sp_containerRuntime s) (sp_cniPlugin s) n
    (sp_machineNetworks s) (sp_exposeStrategy s) (sp_componentsOverride s) (sp_features s)
    (sp_usePodSecurityPolicyAdmissionPlugin s) (sp_enableUserSSHKeyAgent s) (sp_enableOperatingSystemManager s)
    (sp_auditLogging s) (sp_encryptionConfiguration s) (sp_pause s) (sp_mla s) (sp_rest s).
Definition set_exposeStrategy (e : string) (s : ClusterSpec) : ClusterSpec :=
  mkClusterSpec (sp_humanReadableName s) (sp_version s) (sp_cloud s) (sp_containerRuntime s) (sp_cniPlugin s)
    (sp_clusterNetwork s) (sp_machineNetworks s) e (sp_componentsOverride s) (sp_features s)
    (sp_usePodSecurityPolicyAdmissionPlugin s) (sp_enableUserSSHKeyAgent s) (sp_enableOperatingSystemManager s)
    (sp_auditLogging s) (sp_encryptionConfiguration s) (sp_pause s) (sp_mla s) (sp_rest s).
Definition set_componentsOverride (c : ComponentSettings) (s : ClusterSpec) : ClusterSpec :=
  mkClusterSpec (sp_humanReadableName s) (sp_version s) (sp_cloud s) (sp_containerRuntime s) (sp_cniPlugin s)
    (sp_clusterNetwork s) (sp_machineNetworks s) (sp_exposeStrategy s) c (sp_features s)
    (sp_usePodSecurityPolicyAdmissionPlugin s) (sp_enableUserSSHKeyAgent s) (sp_enableOperatingSystemManager s)
    (sp_auditLogging s) (sp_encryptionConfiguration s) (sp_pause s) (sp_mla s) (sp_rest s).
Definition set_features (f : gmap string bool) (s : ClusterSpec) : ClusterSpec :=
  mkClusterSpec (sp_humanReadableName s) (sp_version s) (sp_cloud s) (sp_containerRuntime s) (sp_cniPlugin s)
    (sp_clusterNetwork s) (sp_machineNetworks s) (sp_exposeStrategy s) (sp_componentsOverride s) f
    (sp_usePodSecurityPolicyAdmissionPlugin s) (sp_enableUserSSHKeyAgent s) (sp_enableOperatingSystemManager s)
    (sp_auditLogging s) (sp_encryptionConfiguration s) (sp_pause s) (sp_mla s) (sp_rest s).
Definition set_usePodSecurityPolicy (b : bool) (s : ClusterSpec) : ClusterSpec :=
  mkClusterSpec (sp_humanReadableName s) (sp_version s) (sp_cloud s) (sp_containerRuntime s) (sp_cniPlugin s)
    (sp_clusterNetwork s) (sp_machineNetworks s) (sp_exposeStrategy s) (sp_componentsOverride s) (sp_features s)
    b (sp_enableUserSSHKeyAgent s) (sp_enableOperatingSystemManager s) (sp_auditLogging s)
    (sp_encryptionConfiguration s) (sp_pause s) (sp_mla s) (sp_rest s).
Definition set_auditLogging (a : option AuditLoggingSettings) (s : ClusterSpec) : ClusterSpec :=
  mkClusterSpec (sp_humanReadableName s) (sp_version s) (sp_cloud s) (sp_containerRuntime s) (sp_cniPlugin s)
    (sp_clusterNetwork s) (sp_machineNetworks s) (sp_exposeStrategy s) (sp_componentsOverride s) (sp_features s)
    (sp_usePodSecurityPolicyAdmissionPlugin s) (sp_enableUserSSHKeyAgent s) (sp_enableOperatingSystemManager s)
    a (sp_encryptionConfiguration s) (sp_pause s) (sp_mla s) (sp_rest s).
Definition set_encryptionConfiguration (e : option EncryptionConfiguration) (s : ClusterSpec) : ClusterSpec :=
  mkClusterSpec (sp_humanReadableName s) (sp_version s) (sp_cloud s) (sp_containerRuntime s) (sp_cniPlugin s)
    (sp_clusterNetwork s) (sp_machineNetworks s) (sp_exposeStrategy s) (sp_componentsOverride s) (sp_features s)
    (sp_usePodSecurityPolicyAdmissionPlugin s) (sp_enableUserSSHKeyAgent s) (sp_enableOperatingSystemManager s)
    (sp_auditLogging s) e (sp_pause s) (sp_mla s) (sp_rest s).

(** [DeepCopy] of a cluster: [Semver.DeepCopy] rewrites every version to its
    canonical spelling and drops one that does not parse; everything else is
    copied as it is. *)
Section deepcopy.
Context `{SemverLib}.

Definition Versions_DeepCopy (v : ClusterVersionsStatus) : outcome ClusterVersionsStatus :=
  controlPlane ← Semver_DeepCopy (cv_controlPlane v);
  apiserver ← Semver_DeepCopy (cv_apiserver v);
  controllerManager ← Semver_DeepCopy (cv_controllerManager v);
  scheduler ← Semver_DeepCopy (cv_scheduler v);
  oldest ← match cv_oldestNodeVersion v with
           | None => Ok None
           | Some o => x ← Semver_DeepCopy o; Ok (Some x)
           end;
  Ok (mkClusterVersionsStatus controlPlane apiserver controllerManager scheduler oldest).

Definition Cluster_DeepCopy (c : Cluster) : outcome Cluster :=
  version ← Semver_DeepCopy (sp_version (cl_spec c));
  versions ← Versions_DeepCopy (cs_versions (cl_status c));
  Ok (mkCluster (cl_meta c) (set_spec_version version (cl_spec c))
        (set_versions versions (cl_status c)) (cl_address c) (cl_typeMeta c)).
End deepcopy.

(** ** Constants *)

Definition ProjectIDLabelKey : string := "project-id".
Definition WorkerNameLabelKey : string := "worker-name".
Definition CCMMigrationNeededAnnotation : string := "ccm-migration.k8c.io/migration-needed".
Definition CSIMigrationNeededAnnotation : string := "csi-migration.k8c.io/migration-needed".
Definition ClusterFeatureExternalCloudProvider : string := "externalCloudProvider".
Definition ClusterFeatureEtcdLauncher : string := "etcdLauncher".
Definition ClusterFeatureEncryptionAtRest : string := "encryptionAtRest".

Definition ClusterConditionSeedResourcesUpToDate : string := "SeedResourcesUpToDate".
Definition ClusterConditionClusterControllerReconcilingSuccess : string := "ClusterControllerReconciledSuccessfully".
Definition ClusterConditionAddonControllerReconcilingSuccess : string := "AddonControllerReconciledSuccessfully".
Definition ClusterConditionAddonInstallerControllerReconcilingSuccess : string := "AddonInstallerControllerReconciledSuccessfully".
Definition ClusterConditionBackupControllerReconcilingSuccess : string := "BackupControllerReconciledSuccessfully".
Definition ClusterConditionCloudControllerReconcilingSuccess : string := "CloudControllerReconcilledSuccessfully".
Definition ClusterConditionUpdateControllerReconcilingSuccess : string := "UpdateControllerReconciledSuccessfully".
Definition ClusterConditionMonitoringControllerReconcilingSuccess : string := "MonitoringControllerReconciledSuccessfully".
Definition ClusterConditionMachineDeploymentControllerReconcilingSuccess : string := "MachineDeploymentReconciledSuccessfully".
Definition ClusterConditionApplicationInstallationControllerReconcilingSuccess : string := "ApplicationInstallationControllerReconciledSuccessfully".
Definition ClusterConditionMLAControllerReconcilingSuccess : string := "MLAControllerReconciledSuccessfully".
Definition ClusterConditionEncryptionControllerReconcilingSuccess : string := "EncryptionControllerReconciledSuccessfully".
Definition ClusterConditionClusterInitialized : string := "ClusterInitialized".
Definition ClusterConditionEtcdClusterInitialized : string := "EtcdClusterInitialized".
Definition ClusterConditionEncryptionInitialized : string := "EncryptionInitialized".
Definition ClusterConditionUpdateProgress : string := "UpdateProgress".
Definition ClusterConditionNone : string := "".
Definition ClusterConditionCSIKubeletMigrationCompleted : string := "CSIKubeletMigrationCompleted".

Definition AllClusterConditionTypes : list string := [
  ClusterConditionSeedResourcesUpToDate;
  ClusterConditionClusterControllerReconcilingSuccess;
  ClusterConditionAddonControllerReconcilingSuccess;
  ClusterConditionBackupControllerReconcilingSuccess;
  ClusterConditionCloudControllerReconcilingSuccess;
  ClusterConditionUpdateControllerReconcilingSuccess;
  ClusterConditionMonitoringControllerReconcilingSuccess].

Definition ClusterEncryptionPhasePending : string := "Pending".
Definition ClusterEncryptionPhaseFailed : string := "Failed".
Definition ClusterEncryptionPhaseActive : string := "Active".
Definition ClusterEncryptionPhaseEncryptionNeeded : string := "EncryptionNeeded".

Definition HealthStatusDown : string := "HealthStatusDown".
Definition HealthStatusUp : string := "HealthStatusUp".
Definition HealthStatusProvisioning : string := "HealthStatusProvisioning".

Definition ClusterCreating : string := "Creating".
Definition ClusterUpdating : string := "Updating".
Definition ClusterRunning : string := "Running".
Definition ClusterTerminating : string := "Terminating".

(** ** Predicates on the status *)

Definition HasConditionValue (cs : ClusterStatus) (conditionType conditionStatus : string) : bool :=
  match cs_conditions cs !! conditionType with
  | None => false
  | Some condition => String.eqb (cc_status condition) conditionStatus
  end.

Definition ControlPlaneHealthy (h : ExtendedClusterHealth) : bool :=
  String.eqb (eh_etcd h) HealthStatusUp &&
  String.eqb (eh_controller h) HealthStatusUp &&
  String.eqb (eh_apiserver h) HealthStatusUp &&
  String.eqb (eh_scheduler h) HealthStatusUp.

Definition AllHealthy (h : ExtendedClusterHealth) : bool :=
  ControlPlaneHealthy h &&
  String.eqb (eh_machineController h) HealthStatusUp &&
  String.eqb (eh_cloudProviderInfrastructure h) HealthStatusUp &&
  String.eqb (eh_userClusterControllerManager h) HealthStatusUp.

Definition ApplicationControllerHealthy (h : ExtendedClusterHealth) : bool :=
  AllHealthy h && String.eqb (eh_applicationController h) HealthStatusUp.

Definition IsEncryptionEnabled (cluster : Cluster) : bool :=
  map_bool (sp_features (cl_spec cluster)) ClusterFeatureEncryptionAtRest &&
  match sp_encryptionConfiguration (cl_spec cluster) with
  | None => false
  | Some c => ec_enabled c
  end.

Definition IsEncryptionActive (cluster : Cluster) : bool :=
  HasConditionValue (cl_status cluster) ClusterConditionEncryptionInitialized ConditionTrue.
