(* ===== verification/Rbac.v ===== *)
(** * Roles and bindings of projects

    [pkg/controller/master-controller-manager/rbac/mapper.go]: names, verbs, roles and
    bindings that the RBAC controllers generate for the members of a project. *)

From S2P Require Import Prelude Kube Semver Net CloudApi ClusterApi.

(** ** [rbac.authorization.k8s.io/v1] *)

Record PolicyRule := mkPolicyRule {
  pr_apiGroups : list string;
  pr_resources : list string;
  pr_resourceNames : list string;
  pr_verbs : list string;
}.
(** A [Role], and a [ClusterRole] without aggregation rule. *)
Record Role := mkRole { ro_meta : ObjectMeta; ro_rules : list PolicyRule }.

Record Subject := mkSubject { sj_apiGroup : string; sj_kind : string; sj_name : string; sj_namespace : string }.
Record RoleRef := mkRoleRef { rf_apiGroup : string; rf_kind : string; rf_name : string }.
(** A [RoleBinding] or a [ClusterRoleBinding]. *)
Record RoleBinding := mkRoleBinding { rb_meta : ObjectMeta; rb_subjects : list Subject; rb_roleRef : RoleRef }.

#[global] Instance PolicyRule_eq_dec : EqDecision PolicyRule.
Proof. solve_decision. Defined.
#[global] Instance Subject_eq_dec : EqDecision Subject.
Proof. solve_decision. Defined.

#[global] Program Instance Role_object : Object Role := {|
  obj_meta := ro_meta;
  set_meta m r := mkRole m (ro_rules r);
|}.
Next Obligation. done. Qed.
#[global] Program Instance RoleBinding_object : Object RoleBinding := {|
  obj_meta := rb_meta;
  set_meta m b := mkRoleBinding m (rb_subjects b) (rb_roleRef b);
|}.
Next Obligation. done. Qed.

Definition set_rules (rules : list PolicyRule) (r : Role) : Role := mkRole (ro_meta r) rules.
Definition set_subjects (subjects : list Subject) (b : RoleBinding) : RoleBinding :=
  mkRoleBinding (rb_meta b) subjects (rb_roleRef b).

Definition generated_meta (name namespace : string) (oRefs : list OwnerReference) : ObjectMeta :=
  mkObjectMeta name namespace "" ∅ ∅ [] oRefs 0 None "".

(** ** Constants *)

Definition OwnerGroupNamePrefix : string := "owners".
Definition EditorGroupNamePrefix : string := "editors".
Definition ViewerGroupNamePrefix : string := "viewers".
Definition ProjectManagerGroupNamePrefix : string := "projectmanagers".
Definition RBACResourcesNamePrefix : string := "kubermatic".
Definition saSecretsNamespaceName : string := "kubermatic".
Definition alertmanagerName : string := "alertmanager".
Definition defaultAlertmanagerConfigSecretName : string := "alertmanager".
Definition secretV1Kind : string := "Secret".
Definition KubeOneNamespacePrefix : string := "kubeone-".
Definition AllGroupsPrefixes : list string :=
  [OwnerGroupNamePrefix; EditorGroupNamePrefix; ViewerGroupNamePrefix; ProjectManagerGroupNamePrefix].

Definition GroupName : string := "kubermatic.k8c.io".
Definition GroupVersion : string := "kubermatic.k8c.io/v1".
Definition rbacGroupName : string := "rbac.authorization.k8s.io".
Definition ProjectResourceName : string := "projects".
Definition ProjectKindName : string := "Project".
Definition ClusterKindName : string := "Cluster".
Definition SSHKeyKind : string := "UserSSHKey".
Definition UserProjectBindingKind : string := "UserProjectBinding".
Definition UserKindName : string := "User".
Definition ExternalClusterKind : string := "ExternalCluster".
Definition ClusterTemplateInstanceKindName : string := "ClusterTemplateInstance".
Definition AddonResourceName : string := "addons".
Definition AddonKindName : string := "Addon".
Definition ConstraintResourceName : string := "constraints".
Definition ConstraintKind : string := "Constraint".
Definition RuleGroupResourceName : string := "rulegroups".
Definition RuleGroupKindName : string := "RuleGroup".
Definition EtcdBackupConfigResourceName : string := "etcdbackupconfigs".
Definition EtcdBackupConfigKindName : string := "EtcdBackupConfig".
Definition EtcdRestoreResourceName : string := "etcdrestores".
Definition EtcdRestoreKindName : string := "EtcdRestore".
Definition AlertmanagerResourceName : string := "alertmanagers".
Definition AlertmanagerKindName : string := "Alertmanager".

(** ** Names *)

Definition GenerateActualGroupNameFor (projectName groupName : string) : string := groupName +:+ "-" +:+ projectName.

(** [strings.Split(s, "-")[0]]: the text before the first dash. *)
Fixpoint before_dash (s : string) : string :=
  match s with
  | "" => ""
  | String c rest => if is_char c "-" then "" else String c (before_dash rest)
  end.
Definition ExtractGroupPrefix (groupName : string) : string := before_dash groupName.

(** [strings.ToLower] on the ASCII letters that kinds are made of. *)
Definition lower_char (c : Ascii.ascii) : Ascii.ascii :=
  let n := Ascii.N_of_ascii c in if ((65 <=? n) && (n <=? 90))%N then Ascii.ascii_of_N (n + 32) else c.
Fixpoint ToLower (s : string) : string :=
  match s with "" => "" | String c rest => String (lower_char c) (ToLower rest) end.

Definition generateRBACRoleNameForNamedResource (kind resourceName groupName : string) : string :=
  RBACResourcesNamePrefix +:+ ":" +:+ ToLower kind +:+ "-" +:+ resourceName +:+ ":" +:+ groupName.
Definition generateRBACRoleNameForNamedResourceWithServiceAccount (kind resourceName serviceAccount : string) : string :=
  RBACResourcesNamePrefix +:+ ":" +:+ ToLower kind +:+ "-" +:+ resourceName +:+ ":" +:+ serviceAccount.
Definition generateRBACRoleNameForResources (resourceName groupName : string) : string :=
  RBACResourcesNamePrefix +:+ ":" +:+ resourceName +:+ ":" +:+ ExtractGroupPrefix groupName.
Definition generateRBACRoleNameForClusterNamespaceResource (kind groupName : string) : string :=
  RBACResourcesNamePrefix +:+ ":" +:+ ToLower kind +:+ ":" +:+ ExtractGroupPrefix groupName.
Definition generateRBACRoleNameForClusterNamespaceResourceAndServiceAccount (kind serviceAccountName : string) : string :=
  RBACResourcesNamePrefix +:+ ":" +:+ ToLower kind +:+ ":sa-" +:+ serviceAccountName.
Definition generateRBACRoleNameForClusterNamespaceNamedResource (kind resourceName groupName : string) : string :=
  RBACResourcesNamePrefix +:+ ":" +:+ ToLower kind +:+ "-" +:+ resourceName +:+ ":" +:+ ExtractGroupPrefix groupName.

(** ** Verbs *)

(** [strings.HasPrefix]. *)
Definition HasPrefix (s p : string) : bool := String.prefix p s.

(** The groups that a name can belong to. *)
Definition is_owner (g : string) : bool := HasPrefix g OwnerGroupNamePrefix.
Definition is_editor (g : string) : bool := HasPrefix g EditorGroupNamePrefix.
Definition is_viewer (g : string) : bool := HasPrefix g ViewerGroupNamePrefix.
Definition is_projectManager (g : string) : bool := HasPrefix g ProjectManagerGroupNamePrefix.

Definition unknownGroup : error := ErrNew "unable to generate verbs, unknown group name".

Definition generateVerbsForNamedResource (groupName resourceKind : string) : outcome (list string) :=
  if is_owner groupName then Ok ["get"; "update"; "patch"; "delete"]
  else if is_editor groupName && String.eqb resourceKind ProjectKindName then Ok ["get"; "update"; "patch"]
  else if is_editor groupName && String.eqb resourceKind UserProjectBindingKind then Ok []
  else if is_editor groupName && String.eqb resourceKind UserKindName then Ok []
  else if is_editor groupName then Ok ["get"; "update"; "patch"; "delete"]
  else if is_viewer groupName && String.eqb resourceKind UserProjectBindingKind then Ok []
  else if is_viewer groupName && String.eqb resourceKind UserKindName then Ok []
  else if is_viewer groupName then Ok ["get"]
  else if is_projectManager groupName && String.eqb resourceKind ClusterKindName then Ok []
  else if is_projectManager groupName && String.eqb resourceKind ExternalClusterKind then Ok []
  else if is_projectManager groupName && String.eqb resourceKind ClusterTemplateInstanceKindName then Ok []
  else if is_projectManager groupName then Ok ["get"; "update"; "patch"; "delete"]
  else Err unknownGroup.

Definition generateVerbsForResource (groupName resourceKind : string) : outcome (list string) :=
  if is_owner groupName && String.eqb resourceKind UserProjectBindingKind then Ok ["create"]
  else if is_projectManager groupName && String.eqb resourceKind UserProjectBindingKind then Ok ["create"]
  else if String.eqb resourceKind UserProjectBindingKind then Ok []
  else if is_owner groupName && String.eqb resourceKind UserKindName then Ok ["create"]
  else if is_projectManager groupName && String.eqb resourceKind UserKindName then Ok ["create"]
  else if String.eqb resourceKind UserKindName then Ok []
  else if is_owner groupName || is_editor groupName then Ok ["create"]
  else if is_viewer groupName then Ok []
  else if is_projectManager groupName then Ok []
  else Err unknownGroup.

(** The namespaces of service account and KubeOne secrets. *)
Definition secretsNamespace (namespace : string) : bool :=
  String.eqb namespace saSecretsNamespaceName || HasPrefix namespace KubeOneNamespacePrefix.

Definition verbsForSecrets (verbs : list string) (groupName resourceKind namespace : string) : outcome (list string) :=
  if secretsNamespace namespace && is_owner groupName && String.eqb resourceKind secretV1Kind then Ok verbs
  else if secretsNamespace namespace && is_projectManager groupName && String.eqb resourceKind secretV1Kind then Ok verbs
  else if secretsNamespace namespace && String.eqb resourceKind secretV1Kind then Ok []
  else Err unknownGroup.
Definition generateVerbsForNamespacedResource (groupName resourceKind namespace : string) : outcome (list string) :=
  verbsForSecrets ["create"] groupName resourceKind namespace.
Definition generateVerbsForNamedResourceInNamespace (groupName resourceKind namespace : string) : outcome (list string) :=
  verbsForSecrets ["get"; "update"; "delete"] groupName resourceKind namespace.

Definition viewableKinds : list string :=
  [AddonKindName; ConstraintKind; RuleGroupKindName; EtcdBackupConfigKindName; EtcdRestoreKindName].
Definition generateVerbsForClusterNamespaceResource (cluster : Cluster) (groupName kind : string) : outcome (list string) :=
  if is_viewer groupName && existsb (String.eqb kind) viewableKinds then Ok ["get"; "list"]
  else if is_owner groupName || is_editor groupName then Ok ["get"; "list"; "create"; "update"; "delete"]
  else if is_projectManager groupName then Ok []
  else Err (ErrNew "unable to generate verbs for cluster namespace resource cluster").

Definition is_alertmanager (kind name : string) : bool :=
  String.eqb kind AlertmanagerKindName && String.eqb name alertmanagerName.
Definition is_alertmanagerSecret (kind name : string) : bool :=
  String.eqb kind secretV1Kind && String.eqb name defaultAlertmanagerConfigSecretName.
Definition generateVerbsForClusterNamespaceNamedResource (cluster : Cluster) (groupName kind name : string) : outcome (list string) :=
  if is_viewer groupName && (is_alertmanager kind name || is_alertmanagerSecret kind name) then Ok ["get"]
  else if (is_owner groupName || is_editor groupName) && is_alertmanager kind name then Ok ["get"; "update"]
  else if (is_owner groupName || is_editor groupName) && is_alertmanagerSecret kind name then Ok ["get"; "update"; "delete"]
  else if is_projectManager groupName then Ok []
  else Err (ErrNew "unable to generate verbs for cluster namespace resource cluster").

(** ** Roles and bindings *)

(** A role for the verbs, or nil where there are none. *)
Definition role_for (verbs : outcome (list string)) (meta : ObjectMeta) (policyAPIGroup policyResource : string)
    (resourceNames : list string) : outcome (option Role) :=
  verbs ← verbs;
  Ok (match verbs with
      | [] => None
      | _ => Some (mkRole meta [mkPolicyRule [policyAPIGroup] [policyResource] resourceNames verbs])
      end).

Definition group_subject (groupName : string) : Subject := mkSubject rbacGroupName "Group" groupName "".
Definition account_subject (name namespace : string) : Subject := mkSubject "" "ServiceAccount" name namespace.

Definition generateClusterRBACRoleNamedResource (kind groupName policyResource policyAPIGroups policyResourceName : string)
    (oRef : OwnerReference) : outcome (option Role) :=
  role_for (generateVerbsForNamedResource groupName kind)
    (generated_meta (generateRBACRoleNameForNamedResource kind policyResourceName groupName) "" [oRef])
    policyAPIGroups policyResource [policyResourceName].
Definition generateClusterRBACRoleBindingNamedResource (kind resourceName groupName : string) (oRef : OwnerReference) : RoleBinding :=
  let name := generateRBACRoleNameForNamedResource kind resourceName groupName in
  mkRoleBinding (generated_meta name "" [oRef]) [group_subject groupName] (mkRoleRef rbacGroupName "ClusterRole" name).

Definition generateClusterRBACRoleForResource (groupName policyResource policyAPIGroups kind : string) : outcome (option Role) :=
  role_for (generateVerbsForResource groupName kind)
    (generated_meta (generateRBACRoleNameForResources policyResource groupName) "" []) policyAPIGroups policyResource [].
Definition generateClusterRBACRoleBindingForResource (resourceName groupName : string) : RoleBinding :=
  let name := generateRBACRoleNameForResources resourceName groupName in
  mkRoleBinding (generated_meta name "" []) [group_subject groupName] (mkRoleRef rbacGroupName "ClusterRole" name).
Definition generateClusterRBACRoleBindingForResourceWithServiceAccount (resourceName kind groupName sa namespace : string)
    (oRef : OwnerReference) : RoleBinding :=
  mkRoleBinding (generated_meta (generateRBACRoleNameForNamedResourceWithServiceAccount kind resourceName sa) "" [oRef])
    [account_subject sa namespace]
    (mkRoleRef rbacGroupName "ClusterRole" (generateRBACRoleNameForNamedResource kind resourceName groupName)).

Definition generateRBACRoleBindingForResource (resourceName groupName namespace : string) : RoleBinding :=
  let name := generateRBACRoleNameForResources resourceName groupName in
  mkRoleBinding (generated_meta name namespace []) [group_subject groupName] (mkRoleRef rbacGroupName "Role" name).
Definition generateRBACRoleForResource (groupName policyResource policyAPIGroups kind namespace : string) : outcome (option Role) :=
  role_for (generateVerbsForNamespacedResource groupName kind namespace)
    (generated_meta (generateRBACRoleNameForResources policyResource groupName) namespace []) policyAPIGroups policyResource [].

Definition generateRBACRoleNamedResource (kind groupName policyResource policyAPIGroups policyResourceName namespace : string)
    (oRef : OwnerReference) : outcome (option Role) :=
  role_for (generateVerbsForNamedResourceInNamespace groupName kind namespace)
    (generated_meta (generateRBACRoleNameForNamedResource kind policyResourceName groupName) namespace [oRef])
    policyAPIGroups policyResource [policyResourceName].
Definition generateRBACRoleBindingNamedResource (kind resourceName groupName namespace : string) (oRef : OwnerReference) : RoleBinding :=
  let name := generateRBACRoleNameForNamedResource kind resourceName groupName in
  mkRoleBinding (generated_meta name namespace [oRef]) [group_subject groupName] (mkRoleRef rbacGroupName "Role" name).

Definition generateRBACRoleForClusterNamespaceResource (cluster : Cluster) (groupName policyResource policyAPIGroups kind : string)
    : outcome (option Role) :=
  role_for (generateVerbsForClusterNamespaceResource cluster groupName kind)
    (generated_meta (generateRBACRoleNameForClusterNamespaceResource kind groupName) (cs_namespaceName (cl_status cluster)) [])
    policyAPIGroups policyResource [].
Definition generateRBACRoleBindingForClusterNamespaceResource (cluster : Cluster) (groupName kind : string) : RoleBinding :=
  let name := generateRBACRoleNameForClusterNamespaceResource kind groupName in
  mkRoleBinding (generated_meta name (cs_namespaceName (cl_status cluster)) []) [group_subject groupName]
    (mkRoleRef rbacGroupName "Role" name).

Definition generateRBACRoleForClusterNamespaceNamedResource (cluster : Cluster)
    (groupName policyAPIGroups policyResource kind resourceName : string) : outcome (option Role) :=
  role_for (generateVerbsForClusterNamespaceNamedResource cluster groupName kind resourceName)
    (generated_meta (generateRBACRoleNameForClusterNamespaceNamedResource kind resourceName groupName)
       (cs_namespaceName (cl_status cluster)) [])
    policyAPIGroups policyResource [resourceName].
Definition generateRBACRoleBindingForClusterNamespaceNamedResource (cluster : Cluster) (groupName kind resourceName : string)
    : RoleBinding :=
  let name := generateRBACRoleNameForClusterNamespaceNamedResource kind resourceName groupName in
  mkRoleBinding (generated_meta name (cs_namespaceName (cl_status cluster)) []) [group_subject groupName]
    (mkRoleRef rbacGroupName "Role" name).

Definition generateRBACRoleForClusterNamespaceResourceAndServiceAccount (cluster : Cluster) (verbs : list string)
    (serviceAccountName policyResource policyAPIGroups kind : string) : Role :=
  mkRole (generated_meta (generateRBACRoleNameForClusterNamespaceResourceAndServiceAccount kind serviceAccountName)
            (cs_namespaceName (cl_status cluster)) [])
    [mkPolicyRule [policyAPIGroups] [policyResource] [] verbs].
Definition generateRBACRoleBindingForClusterNamespaceResourceAndServiceAccount (cluster : Cluster) (serviceAccountName kind : string)
    : RoleBinding :=
  let name := generateRBACRoleNameForClusterNamespaceResourceAndServiceAccount kind serviceAccountName in
  mkRoleBinding (generated_meta name (cs_namespaceName (cl_status cluster)) [])
    [account_subject serviceAccountName (cs_namespaceName (cl_status cluster))] (mkRoleRef rbacGroupName "Role" name).
