(* ===== verification/RbacSync.v ===== *)
(** * The RBAC controllers

    [sync_project.go] and [sync_resource.go] of
    [pkg/controller/master-controller-manager/rbac]: the controllers that keep roles
    and bindings for projects and for the resources of projects on the master and
    the seed clusters. *)

From S2P Require Import Prelude ResourceNames Kube Semver Net CloudApi ClusterApi Rbac.

(** ** Environment *)

(** A [ctrlruntimeclient.Client] at the types of [rbac/v1]. *)
Record RbacClients (W : Type) := mkRbacClients {
  rc_roles : Client W Role;
  rc_bindings : Client W RoleBinding;
  rc_clusterRoles : Client W Role;
  rc_clusterBindings : Client W RoleBinding;
}.
Arguments rc_roles {W}.
Arguments rc_bindings {W}.
Arguments rc_clusterRoles {W}.
Arguments rc_clusterBindings {W}.

Record GroupVersionKind := mkGVK { gvk_group : string; gvk_version : string; gvk_kind : string }.
Record GroupVersionResource := mkGVR { gvr_group : string; gvr_version : string; gvr_resource : string }.

(** [GroupVersion.String]. *)
Definition gvk_groupVersion (g : GroupVersionKind) : string :=
  if String.eqb (gvk_group g) "" then gvk_version g else gvk_group g +:+ "/" +:+ gvk_version g.

Record projectResource := mkProjectResource {
  prs_gvk : GroupVersionKind;
  prs_destination : string;
  prs_namespace : string;
}.
Definition destinationSeed : string := "seed".

Definition kubermaticKind (kind : string) : GroupVersionKind := mkGVK GroupName "v1" kind.
Definition projectResources : list projectResource := [
  mkProjectResource (kubermaticKind ClusterKindName) destinationSeed "";
  mkProjectResource (kubermaticKind SSHKeyKind) "" "";
  mkProjectResource (kubermaticKind UserProjectBindingKind) "" "";
  mkProjectResource (mkGVK "" "v1" "Secret") "" "kubermatic";
  mkProjectResource (kubermaticKind UserKindName) "" "";
  mkProjectResource (kubermaticKind ExternalClusterKind) "" "";
  mkProjectResource (kubermaticKind ClusterTemplateInstanceKindName) destinationSeed ""].

Definition shouldEnqueueSecret (name : string) : bool :=
  existsb (HasPrefix name) ["sa-token"; "credential"; "kubeconfig-external-cluster"].

Record Project := mkProject { pj_meta : ObjectMeta; pj_name : string; pj_phase : string }.
#[global] Program Instance Project_object : Object Project := {|
  obj_meta := pj_meta;
  set_meta m p := mkProject m (pj_name p) (pj_phase p);
|}.
Next Obligation. done. Qed.
Definition ProjectActive : string := "Active".
Definition ProjectInactive : string := "Inactive".
Definition ProjectTerminating : string := "Terminating".
Definition CleanupFinalizerName : string := "kubermatic.k8c.io/controller-manager-rbac-cleanup".

(** The object of a reconciliation: its kind and metadata, and the cluster it is if
    it is one. *)
Record ResourceObject := mkResourceObject {
  rso_gvk : GroupVersionKind;
  rso_meta : ObjectMeta;
  rso_cluster : option Cluster;
}.

(** ** Ensuring one role or binding *)

Section ensure.
Context {W : Type}.

(** [for _, groupPrefix := range AllGroupsPrefixes] with a body that returns on errors. *)
Definition for_groups (body : string → M W unit) : M W unit := for_range (λ _ g, body g) tt AllGroupsPrefixes.

(** Get; create if there is none; update if the rules differ. *)
Definition ensureRole (client : Client W Role) (key : NamespacedName) (generated : Role) : M W unit :=
  r ← try (c_get client key);
  match r with
  | inl e => if IsNotFound e then (_ ← c_create client generated; mret tt) else throw e
  | inr existing =>
      if bool_decide (ro_rules existing = ro_rules generated) then mret tt
      else (_ ← c_update client (set_rules (ro_rules generated) existing); mret tt)
  end.

(** The same for the subjects of a binding. *)
Definition ensureBinding (client : Client W RoleBinding) (key : NamespacedName) (generated : RoleBinding) : M W unit :=
  r ← try (c_get client key);
  match r with
  | inl e => if IsNotFound e then (_ ← c_create client generated; mret tt) else throw e
  | inr existing =>
      if bool_decide (rb_subjects existing = rb_subjects generated) then mret tt
      else (_ ← c_update client (set_subjects (rb_subjects generated) existing); mret tt)
  end.

(** Bindings that many projects share: the missing subjects are appended. *)
Definition subjectsToAdd (existing generated : RoleBinding) : list Subject :=
  List.filter (λ s, negb (existsb (λ e, bool_decide (e = s)) (rb_subjects existing))) (rb_subjects generated).
Definition addSubjects (client : Client W RoleBinding) (key : NamespacedName) (generated : RoleBinding) : M W unit :=
  r ← try (c_get client key);
  match r with
  | inl e => if IsNotFound e then (_ ← c_create client generated; mret tt) else throw e
  | inr existing =>
      match subjectsToAdd existing generated with
      | [] => mret tt
      | toAdd => _ ← c_update client (set_subjects (rb_subjects existing ++ toAdd) existing); mret tt
      end
  end.

(** Their removal: a missing binding is an error, and the update is unconditional. *)
Definition remainingSubjects (existing generated : RoleBinding) : list Subject :=
  List.filter (λ s, negb (existsb (λ g, bool_decide (s = g)) (rb_subjects generated))) (rb_subjects existing).
Definition removeSubjects (client : Client W RoleBinding) (key : NamespacedName) (generated : RoleBinding) : M W unit :=
  existing ← c_get client key;
  _ ← c_update client (set_subjects (remainingSubjects existing generated) existing);
  mret tt.

(** ** Roles of one object of a project *)

Definition object_ref (apiVersion kind : string) (object : ObjectMeta) : OwnerReference :=
  mkOwnerReference apiVersion kind (om_name object) (om_uid object).

(** The generated role, nil if it is to be skipped. *)
Definition shouldSkipClusterRBACRoleBindingForNamedResource (projectName objectResource objectKind groupPrefix : string)
    (object : ObjectMeta) : outcome (option Role) :=
  generateClusterRBACRoleNamedResource objectKind (GenerateActualGroupNameFor projectName groupPrefix) objectResource GroupName
    (om_name object) (object_ref GroupVersion objectKind object).

Definition ensureClusterRBACRoleForNamedResource (cli : RbacClients W) (projectName objectResource objectKind : string)
    (object : ObjectMeta) : M W unit :=
  for_groups (λ groupPrefix,
    generated ← lift (shouldSkipClusterRBACRoleBindingForNamedResource projectName objectResource objectKind groupPrefix object);
    match generated with
    | None => mret tt
    | Some role => ensureRole (rc_clusterRoles cli) (mkKey "" (om_name (ro_meta role))) role
    end).

Definition ensureClusterRBACRoleBindingForNamedResource (cli : RbacClients W) (projectName objectResource objectKind : string)
    (object : ObjectMeta) : M W unit :=
  for_groups (λ groupPrefix,
    generated ← lift (shouldSkipClusterRBACRoleBindingForNamedResource projectName objectResource objectKind groupPrefix object);
    match generated with
    | None => mret tt
    | Some _ =>
        let binding := generateClusterRBACRoleBindingNamedResource objectKind (om_name object)
                         (GenerateActualGroupNameFor projectName groupPrefix) (object_ref GroupVersion objectKind object) in
        ensureBinding (rc_clusterBindings cli) (mkKey "" (om_name (rb_meta binding))) binding
    end).

Definition shouldSkipRBACRoleBindingForNamedResource (projectName resourceName : string) (gvk : GroupVersionKind)
    (groupPrefix namespace : string) (object : ObjectMeta) : outcome (option Role) :=
  generateRBACRoleNamedResource (gvk_kind gvk) (GenerateActualGroupNameFor projectName groupPrefix) resourceName (gvk_group gvk)
    (om_name object) namespace (object_ref (gvk_groupVersion gvk) (gvk_kind gvk) object).

(** A loop over the groups that a body can end early without an error. *)
Fixpoint while_groups (body : string → M W bool) (groups : list string) : M W unit :=
  match groups with
  | [] => mret tt
  | g :: rest => more ← body g; if (more : bool) then while_groups body rest else mret tt
  end.

(** The key has no namespace; errors other than those of updates end the loop as if
    all were well. *)
Definition ensureRBACRoleForNamedResource (cli : RbacClients W) (projectName resourceName : string) (gvk : GroupVersionKind)
    (namespace : string) (object : ObjectMeta) : M W unit :=
  while_groups (λ groupPrefix,
    generated ← lift (shouldSkipRBACRoleBindingForNamedResource projectName resourceName gvk groupPrefix namespace object);
    match generated with
    | None => mret true
    | Some role =>
        r ← try (c_get (rc_roles cli) (mkKey "" (om_name (ro_meta role))));
        match r with
        | inl e =>
            if IsNotFound e
            then (r ← try (c_create (rc_roles cli) role); mret (match r with inl _ => false | inr _ => true end))
            else mret false
        | inr existing =>
            if bool_decide (ro_rules existing = ro_rules role) then mret true
            else (_ ← c_update (rc_roles cli) (set_rules (ro_rules role) existing); mret true)
        end
    end) AllGroupsPrefixes.

(** Here only a failed creation ends the loop as if all were well. *)
Definition ensureRBACRoleBindingForNamedResource (cli : RbacClients W) (projectName resourceName : string)
    (gvk : GroupVersionKind) (namespace : string) (object : ObjectMeta) : M W unit :=
  while_groups (λ groupPrefix,
    generated ← lift (shouldSkipRBACRoleBindingForNamedResource projectName resourceName gvk groupPrefix namespace object);
    match generated with
    | None => mret true
    | Some _ =>
        let binding := generateRBACRoleBindingNamedResource (gvk_kind gvk) (om_name object)
                         (GenerateActualGroupNameFor projectName groupPrefix) namespace
                         (object_ref (gvk_groupVersion gvk) (gvk_kind gvk) object) in
        r ← try (c_get (rc_bindings cli) (mkKey "" (om_name (rb_meta binding))));
        match r with
        | inl e =>
            if IsNotFound e
            then (r ← try (c_create (rc_bindings cli) binding); mret (match r with inl _ => false | inr _ => true end))
            else throw e
        | inr existing =>
            if bool_decide (rb_subjects existing = rb_subjects binding) then mret true
            else (_ ← c_update (rc_bindings cli) (set_subjects (rb_subjects binding) existing); mret true)
        end
    end) AllGroupsPrefixes.
End ensure.

(** ** The project controller *)

Record ProjectController (W : Type) := mkProjectController {
  pc_projects : Client W Project;
  pc_client : RbacClients W;
  pc_restMapping : GroupVersionKind → M W GroupVersionResource;
  pc_seedClientMap : list (RbacClients W);
  pc_retry : Retry W;
  pc_projectResources : list projectResource;
}.
Arguments pc_projects {W}.
Arguments pc_client {W}.
Arguments pc_restMapping {W}.
Arguments pc_seedClientMap {W}.
Arguments pc_retry {W}.
Arguments pc_projectResources {W}.

Section project.
Context {W : Type} `{StringSets} (c : ProjectController W).

Definition ensureProjectPhase (project : Project) (phase : string) : M W Project :=
  if negb (String.eqb (pj_phase project) phase)
  then c_status_patch (pc_projects c) project (mkProject (pj_meta project) (pj_name project) phase)
  else mret project.

(** For each resource of the given scope, group and cluster it is kept on. *)
Definition for_resources (namespaced : bool) (prepare : GroupVersionResource → projectResource → string → outcome bool)
    (body : RbacClients W → GroupVersionResource → projectResource → string → M W unit) : M W unit :=
  for_range (λ _ res,
    if Bool.eqb (String.eqb (prs_namespace res) "") namespaced then mret tt else
    rmapping ← pc_restMapping c (prs_gvk res);
    for_groups (λ groupPrefix,
      skip ← lift (prepare rmapping res groupPrefix);
      if (skip : bool) then mret tt
      else if String.eqb (prs_destination res) destinationSeed
      then for_range (λ _ seed, body seed rmapping res groupPrefix) tt (pc_seedClientMap c)
      else body (pc_client c) rmapping res groupPrefix)) tt (pc_projectResources c).

Definition is_nilRole (r : option Role) : bool := match r with None => true | Some _ => false end.

Definition shouldSkipClusterRBACRoleBindingFor (groupName policyResource policyAPIGroups kind : string) : outcome bool :=
  role ← generateClusterRBACRoleForResource groupName policyResource policyAPIGroups kind;
  Ok (is_nilRole role).
Definition shouldSkipRBACRoleBindingFor (groupName policyResource policyAPIGroups kind namespace : string) : outcome bool :=
  role ← generateRBACRoleForResource groupName policyResource policyAPIGroups kind namespace;
  Ok (is_nilRole role).

Definition ensureClusterRBACRoleForResource (cli : RbacClients W) (groupName resource kind : string) : M W unit :=
  generated ← lift (generateClusterRBACRoleForResource groupName resource GroupName kind);
  match generated with
  | None => mret tt
  | Some role => ensureRole (rc_clusterRoles cli) (mkKey "" (om_name (ro_meta role))) role
  end.
Definition ensureClusterRBACRoleForResources : M W unit :=
  for_resources false (λ _ _ _, Ok false) (λ cli rmapping res groupPrefix,
    ensureClusterRBACRoleForResource cli groupPrefix (gvr_resource rmapping) (gvk_kind (prs_gvk res))).

Definition ensureClusterRBACRoleBindingForResource (cli : RbacClients W) (groupName resource : string) : M W unit :=
  let binding := generateClusterRBACRoleBindingForResource resource groupName in
  addSubjects (rc_clusterBindings cli) (mkKey "" (om_name (rb_meta binding))) binding.
Definition skipClusterBinding (projectName : string) (rmapping : GroupVersionResource) (res : projectResource)
    (groupPrefix : string) : outcome bool :=
  shouldSkipClusterRBACRoleBindingFor (GenerateActualGroupNameFor projectName groupPrefix) (gvr_resource rmapping) GroupName
    (gvk_kind (prs_gvk res)).
Definition ensureClusterRBACRoleBindingForResources (projectName : string) : M W unit :=
  for_resources false (skipClusterBinding projectName) (λ cli rmapping res groupPrefix,
    ensureClusterRBACRoleBindingForResource cli (GenerateActualGroupNameFor projectName groupPrefix) (gvr_resource rmapping)).

Definition ensureRBACRoleForResource (cli : RbacClients W) (groupName : string) (gvr : GroupVersionResource)
    (kind namespace : string) : M W unit :=
  generated ← lift (generateRBACRoleForResource groupName (gvr_resource gvr) (gvr_group gvr) kind namespace);
  match generated with
  | None => mret tt
  | Some role => ensureRole (rc_roles cli) (mkKey (om_namespace (ro_meta role)) (om_name (ro_meta role))) role
  end.
Definition ensureRBACRoleForResources : M W unit :=
  for_resources true (λ _ _ _, Ok false) (λ cli rmapping res groupPrefix,
    ensureRBACRoleForResource cli groupPrefix rmapping (gvk_kind (prs_gvk res)) (prs_namespace res)).

Definition ensureRBACRoleBindingForResource (cli : RbacClients W) (groupName resource namespace : string) : M W unit :=
  let binding := generateRBACRoleBindingForResource resource groupName namespace in
  addSubjects (rc_bindings cli) (mkKey (om_namespace (rb_meta binding)) (om_name (rb_meta binding))) binding.
Definition skipBinding (projectName : string) (rmapping : GroupVersionResource) (res : projectResource)
    (groupPrefix : string) : outcome bool :=
  shouldSkipRBACRoleBindingFor (GenerateActualGroupNameFor projectName groupPrefix) (gvr_resource rmapping) GroupName
    (gvk_kind (prs_gvk res)) (prs_namespace res).
Definition ensureRBACRoleBindingForResources (projectName : string) : M W unit :=
  for_resources true (skipBinding projectName) (λ cli rmapping res groupPrefix,
    ensureRBACRoleBindingForResource cli (GenerateActualGroupNameFor projectName groupPrefix) (gvr_resource rmapping)
      (prs_namespace res)).

Definition cleanUpClusterRBACRoleBindingFor (cli : RbacClients W) (groupName resource : string) : M W unit :=
  let binding := generateClusterRBACRoleBindingForResource resource groupName in
  removeSubjects (rc_clusterBindings cli) (mkKey "" (om_name (rb_meta binding))) binding.
Definition cleanUpRBACRoleBindingFor (cli : RbacClients W) (groupName resource namespace : string) : M W unit :=
  let binding := generateRBACRoleBindingForResource resource groupName namespace in
  removeSubjects (rc_bindings cli) (mkKey namespace (om_name (rb_meta binding))) binding.

Definition ensureProjectCleanup (project : Project) : M W Project :=
  project ← wrap "failed to set project phase" (ensureProjectPhase project ProjectTerminating);
  let projectName := om_name (pj_meta project) in
  _ ← for_resources false (skipClusterBinding projectName) (λ cli rmapping res groupPrefix,
        cleanUpClusterRBACRoleBindingFor cli (GenerateActualGroupNameFor projectName groupPrefix) (gvr_resource rmapping));
  _ ← for_resources true (skipBinding projectName) (λ cli rmapping res groupPrefix,
        cleanUpRBACRoleBindingFor cli (GenerateActualGroupNameFor projectName groupPrefix) (gvr_resource rmapping)
          (prs_namespace res));
  TryRemoveFinalizer (pc_projects c) (pc_retry c) project [CleanupFinalizerName].

Definition project_sync (key : NamespacedName) : M W unit :=
  r ← try (c_get (pc_projects c) key);
  match r with
  | inl e => if IsNotFound e then mret tt else throw e
  | inr project =>
      if match om_deletionTimestamp (pj_meta project) with Some _ => true | None => false end
      then (_ ← wrap "failed to cleanup project" (ensureProjectCleanup project); mret tt)
      else
        project ← (if String.eqb (pj_phase project) ""
                   then wrap "failed to set initial project phase" (ensureProjectPhase project ProjectInactive)
                   else mret project);
        project ← wrap "failed to ensure that the cleanup finalizer exists on the project"
                    (TryAddFinalizer (pc_projects c) (pc_retry c) project [CleanupFinalizerName]);
        let name := om_name (pj_meta project) in
        _ ← wrap "failed to ensure that the RBAC Role for the project exists"
              (ensureClusterRBACRoleForNamedResource (pc_client c) name ProjectResourceName ProjectKindName (pj_meta project));
        _ ← wrap "failed to ensure that the RBAC RoleBinding for the project exists"
              (ensureClusterRBACRoleBindingForNamedResource (pc_client c) name ProjectResourceName ProjectKindName (pj_meta project));
        _ ← wrap "failed to ensure that the RBAC ClusterRoles for the project's resources exists" ensureClusterRBACRoleForResources;
        _ ← wrap "failed to ensure that the RBAC ClusterRoleBindings for the project's resources exists"
              (ensureClusterRBACRoleBindingForResources name);
        _ ← wrap "failed to ensure that the RBAC Roles for the project's resources exists" ensureRBACRoleForResources;
        _ ← wrap "failed to ensure that the RBAC RolesBindings for the project's resources exists"
              (ensureRBACRoleBindingForResources name);
        _ ← wrap "failed to set project phase to active" (ensureProjectPhase project ProjectActive);
        mret tt
  end.
End project.

(** ** The resource controller *)

Section resource.
Context {W : Type} (cli : RbacClients W) (restMapping : GroupVersionKind → M W GroupVersionResource).

Definition getPluralResourceName (obj : ResourceObject) : M W string :=
  rmapping ← restMapping (rso_gvk obj);
  mret (gvr_resource rmapping).

Definition project_owner (owner : OwnerReference) : bool :=
  String.eqb (or_apiVersion owner) GroupVersion && String.eqb (or_kind owner) ProjectKindName &&
  negb (String.eqb (or_name owner) "") && negb (String.eqb (or_uid owner) "").
Definition getProjectName (m : ObjectMeta) : outcome string :=
  let fromOwner := match List.find project_owner (om_ownerReferences m) with Some o => or_name o | None => "" end in
  let projectName := if String.eqb fromOwner "" then map_str (om_labels m) ProjectIDLabelKey else fromOwner in
  if String.eqb projectName "" then Err (ErrNew "unable to find owning project") else Ok projectName.

Definition syncClusterScopedProjectResource (obj : ResourceObject) : M W unit :=
  if negb (String.eqb (om_namespace (rso_meta obj)) "") then mret tt else
  resourceName ← getPluralResourceName obj;
  projectName ← lift (getProjectName (rso_meta obj));
  _ ← wrap "failed to sync RBAC ClusterRole"
        (ensureClusterRBACRoleForNamedResource cli projectName resourceName (gvk_kind (rso_gvk obj)) (rso_meta obj));
  wrap "failed to sync RBAC ClusterRoleBinding"
    (ensureClusterRBACRoleBindingForNamedResource cli projectName resourceName (gvk_kind (rso_gvk obj)) (rso_meta obj)).

Definition syncNamespaceScopedProjectResource (obj : ResourceObject) : M W unit :=
  let namespace := om_namespace (rso_meta obj) in
  if String.eqb namespace "" then mret tt else
  resourceName ← getPluralResourceName obj;
  projectName ← lift (getProjectName (rso_meta obj));
  _ ← wrap "failed to sync RBAC Role"
        (ensureRBACRoleForNamedResource cli projectName resourceName (rso_gvk obj) namespace (rso_meta obj));
  wrap "failed to sync RBAC RoleBinding"
    (ensureRBACRoleBindingForNamedResource cli projectName resourceName (rso_gvk obj) namespace (rso_meta obj)).

(** *** Resources in the namespace of a cluster *)

Definition cluster_ns (cluster : Cluster) : string := cs_namespaceName (cl_status cluster).

Definition shouldSkipRBACRoleForClusterNamespaceResource (projectName : string) (cluster : Cluster)
    (policyResource policyAPIGroups kind groupPrefix : string) : outcome (option Role) :=
  if String.eqb (cluster_ns cluster) "" then Ok None
  else generateRBACRoleForClusterNamespaceResource cluster (GenerateActualGroupNameFor projectName groupPrefix) policyResource
         policyAPIGroups kind.
Definition shouldSkipRBACRoleForClusterNamespaceNamedResource (projectName : string) (cluster : Cluster)
    (resourceName policyAPIGroups policyResource kind groupPrefix : string) : outcome (option Role) :=
  if String.eqb (cluster_ns cluster) "" then Ok None
  else generateRBACRoleForClusterNamespaceNamedResource cluster (GenerateActualGroupNameFor projectName groupPrefix)
         policyAPIGroups policyResource kind resourceName.

(** What the functions for single kinds share: the roles are listed (and the list is
    not used), then ensured for each group. *)
Definition ensureClusterNamespaceRoles (cluster : Cluster) (generate : string → outcome (option Role)) : M W unit :=
  _ ← c_list (rc_roles cli) (mkListOptions (cluster_ns cluster) []);
  for_groups (λ groupPrefix,
    generated ← lift (generate groupPrefix);
    match generated with
    | None => mret tt
    | Some role => ensureRole (rc_roles cli) (mkKey (cluster_ns cluster) (om_name (ro_meta role))) role
    end).
Definition ensureClusterNamespaceBindings (cluster : Cluster) (generate : string → outcome (option Role))
    (binding : string → RoleBinding) : M W unit :=
  for_groups (λ groupPrefix,
    generated ← lift (generate groupPrefix);
    match generated with
    | None => mret tt
    | Some _ =>
        let b := binding groupPrefix in
        ensureBinding (rc_bindings cli) (mkKey (cluster_ns cluster) (om_name (rb_meta b))) b
    end).

Section cluster.
Context (projectName : string) (cluster : Cluster).

Definition rolesFor (resource kind : string) : M W unit :=
  ensureClusterNamespaceRoles cluster (shouldSkipRBACRoleForClusterNamespaceResource projectName cluster resource GroupName kind).
Definition bindingsFor (resource kind : string) : M W unit :=
  ensureClusterNamespaceBindings cluster (shouldSkipRBACRoleForClusterNamespaceResource projectName cluster resource GroupName kind)
    (λ groupPrefix, generateRBACRoleBindingForClusterNamespaceResource cluster
                      (GenerateActualGroupNameFor projectName groupPrefix) kind).
Definition namedRolesFor (name group resource kind : string) : M W unit :=
  ensureClusterNamespaceRoles cluster
    (shouldSkipRBACRoleForClusterNamespaceNamedResource projectName cluster name group resource kind).
Definition namedBindingsFor (name group resource kind : string) : M W unit :=
  ensureClusterNamespaceBindings cluster
    (shouldSkipRBACRoleForClusterNamespaceNamedResource projectName cluster name group resource kind)
    (λ groupPrefix, generateRBACRoleBindingForClusterNamespaceNamedResource cluster
                      (GenerateActualGroupNameFor projectName groupPrefix) kind name).

Definition ensureRBACRoleForClusterAddons := rolesFor AddonResourceName AddonKindName.
Definition ensureRBACRoleBindingForClusterAddons := bindingsFor AddonResourceName AddonKindName.
Definition ensureRBACRoleForClusterConstraints := rolesFor ConstraintResourceName ConstraintKind.
Definition ensureRBACRoleBindingForClusterConstraints := bindingsFor ConstraintResourceName ConstraintKind.
Definition ensureRBACRoleForClusterRuleGroups := rolesFor RuleGroupResourceName RuleGroupKindName.
Definition ensureRBACRoleBindingForClusterRuleGroups := bindingsFor RuleGroupResourceName RuleGroupKindName.
Definition ensureRBACRoleForEtcdBackupConfigs := rolesFor EtcdBackupConfigResourceName EtcdBackupConfigKindName.
Definition ensureRBACRoleBindingForEtcdBackupConfigs := bindingsFor EtcdBackupConfigResourceName EtcdBackupConfigKindName.
Definition ensureRBACRoleForEtcdRestores := rolesFor EtcdRestoreResourceName EtcdRestoreKindName.
Definition ensureRBACRoleBindingForEtcdRestores := bindingsFor EtcdRestoreResourceName EtcdRestoreKindName.
Definition ensureRBACRoleForClusterAlertmanagers :=
  namedRolesFor alertmanagerName GroupName AlertmanagerResourceName AlertmanagerKindName.
Definition ensureRBACRoleBindingForClusterAlertmanagers :=
  namedBindingsFor alertmanagerName GroupName AlertmanagerResourceName AlertmanagerKindName.
Definition ensureRBACRoleForClusterAlertmanagerConfigSecrets :=
  namedRolesFor defaultAlertmanagerConfigSecretName "" "secrets" "Secret".
Definition ensureRBACRoleBindingForClusterAlertmanagerConfigSecrets :=
  namedBindingsFor defaultAlertmanagerConfigSecretName "" "secrets" "Secret".

(** *** The etcd launcher's service account *)

Definition ensureRBACRoleForEtcdLauncher (resourceName groupName kindName : string) : M W unit :=
  _ ← c_list (rc_roles cli) (mkListOptions (cluster_ns cluster) []);
  let role := generateRBACRoleForClusterNamespaceResourceAndServiceAccount cluster ["get"; "list"]
                EtcdLauncherServiceAccountName resourceName groupName kindName in
  ensureRole (rc_roles cli) (mkKey (cluster_ns cluster) (om_name (ro_meta role))) role.
Definition ensureRBACRoleBindingForEtcdLauncher (kindName : string) : M W unit :=
  let binding := generateRBACRoleBindingForClusterNamespaceResourceAndServiceAccount cluster EtcdLauncherServiceAccountName kindName in
  ensureBinding (rc_bindings cli) (mkKey (cluster_ns cluster) (om_name (rb_meta binding))) binding.
Definition ensureClusterRBACRoleBindingForEtcdLauncher (resourceName resourceKind namespace : string) : M W unit :=
  let binding := generateClusterRBACRoleBindingForResourceWithServiceAccount resourceName resourceKind
                   (GenerateActualGroupNameFor projectName ViewerGroupNamePrefix) EtcdLauncherServiceAccountName namespace
                   (object_ref GroupVersion ClusterKindName (cl_meta cluster)) in
  ensureBinding (rc_clusterBindings cli) (mkKey "" (om_name (rb_meta binding))) binding.

Definition caBundleName : string := "cluster-" +:+ cl_name cluster +:+ "-ca-bundle".
(** The generated role is dereferenced without a check for nil. *)
Definition ensureClusterRBACRoleForEtcdLauncher : M W unit :=
  generated ← lift (generateClusterRBACRoleNamedResource "Configmap" (GenerateActualGroupNameFor projectName ViewerGroupNamePrefix)
                      "configmaps" "" caBundleName (object_ref GroupVersion ClusterKindName (cl_meta cluster)));
  role ← lift (deref generated);
  ensureRole (rc_clusterRoles cli) (mkKey "" (om_name (ro_meta role))) role.

Definition ensureRBACForEtcdLauncher : M W unit :=
  let ns := cluster_ns cluster in
  _ ← wrap "failed to sync RBAC ClusterRole" ensureClusterRBACRoleForEtcdLauncher;
  _ ← wrap "failed to sync RBAC ClusterRoleBinding" (ensureClusterRBACRoleBindingForEtcdLauncher (cl_name cluster) ClusterKindName ns);
  _ ← wrap "failed to sync RBAC ClusterRoleBinding" (ensureClusterRBACRoleBindingForEtcdLauncher caBundleName "Configmap" ns);
  _ ← wrap "failed to sync etcd restore RBAC Role" (ensureRBACRoleForEtcdLauncher EtcdRestoreResourceName GroupName EtcdRestoreKindName);
  _ ← wrap "failed to sync etcd restore RBAC ClusterRoleBinding" (ensureRBACRoleBindingForEtcdLauncher EtcdRestoreKindName);
  _ ← wrap "failed to sync etcd restore RBAC Role" (ensureRBACRoleForEtcdLauncher "secrets" "" "Secret");
  _ ← wrap "failed to sync etcd restore RBAC RoleBinding" (ensureRBACRoleBindingForEtcdLauncher "Secret");
  _ ← wrap "failed to sync etcd restore RBAC Role" (ensureRBACRoleForEtcdLauncher "pods" "" "Pod");
  _ ← wrap "failed to sync etcd restore RBAC RoleBinding" (ensureRBACRoleBindingForEtcdLauncher "Pod");
  _ ← wrap "failed to sync etcd launcher RBAC Role" (ensureRBACRoleForEtcdLauncher "statefulsets" "apps" "StatefulSet");
  wrap "failed to sync etcd launcher RBAC RoleBinding" (ensureRBACRoleBindingForEtcdLauncher "StatefulSet").
End cluster.

Definition userClusterMLAEnabled (cluster : Cluster) : bool :=
  match sp_mla (cl_spec cluster) with
  | None => false
  | Some mla => mla_monitoringEnabled mla || mla_loggingEnabled mla
  end.

Definition role_err : M W unit → M W unit := wrap "failed to sync RBAC Role".
Definition binding_err : M W unit → M W unit := wrap "failed to sync RBAC RoleBinding".

Definition syncClusterResource (obj : ResourceObject) : M W unit :=
  if negb (String.eqb (gvk_kind (rso_gvk obj)) ClusterKindName) then mret tt else
  match rso_cluster obj with
  | None => panic "interface conversion"
  | Some cluster =>
      if String.eqb (cluster_ns cluster) "" then mret tt else
      _ ← restMapping (rso_gvk obj);
      p ← lift (getProjectName (rso_meta obj));
      _ ← role_err (ensureRBACRoleForClusterAddons p cluster);
      _ ← binding_err (ensureRBACRoleBindingForClusterAddons p cluster);
      _ ← wrap "failed to sync RBAC for etcd-launcher" (ensureRBACForEtcdLauncher p cluster);
      _ ← role_err (ensureRBACRoleForClusterConstraints p cluster);
      _ ← binding_err (ensureRBACRoleBindingForClusterConstraints p cluster);
      _ ← role_err (ensureRBACRoleForEtcdBackupConfigs p cluster);
      _ ← binding_err (ensureRBACRoleBindingForEtcdBackupConfigs p cluster);
      _ ← role_err (ensureRBACRoleForEtcdRestores p cluster);
      _ ← binding_err (ensureRBACRoleBindingForEtcdRestores p cluster);
      if negb (userClusterMLAEnabled cluster) then mret tt else
      _ ← role_err (ensureRBACRoleForClusterAlertmanagers p cluster);
      _ ← binding_err (ensureRBACRoleBindingForClusterAlertmanagers p cluster);
      _ ← role_err (ensureRBACRoleForClusterAlertmanagerConfigSecrets p cluster);
      _ ← binding_err (ensureRBACRoleBindingForClusterAlertmanagerConfigSecrets p cluster);
      _ ← role_err (ensureRBACRoleForClusterRuleGroups p cluster);
      binding_err (ensureRBACRoleBindingForClusterRuleGroups p cluster)
  end.

Definition resource_reconcile (obj : ResourceObject) : M W unit :=
  _ ← wrap "failed to reconcile cluster-scoped resources" (syncClusterScopedProjectResource obj);
  _ ← wrap "failed to reconcile namespaced resources" (syncNamespaceScopedProjectResource obj);
  wrap "failed to sync Cluster resource" (syncClusterResource obj).

Definition resource_Reconcile (objects : NamespacedName → M W ResourceObject) (request : NamespacedName) : M W unit :=
  r ← try (objects request);
  match r with
  | inl e => if IsNotFound e then mret tt else throw e
  | inr obj => wrap "failed to reconcile" (resource_reconcile obj)
  end.
End resource.
