(* ===== verification/RbacSpec.v ===== *)
(** * What the RBAC controllers grant

    Names tell projects, groups and objects apart; the verbs respect the order of the
    groups; a successful run leaves exactly the roles and bindings of the object it
    was for, whatever happens to the others; and what goes wrong with roles in
    namespaces. *)

From S2P Require Import Prelude ResourceNames Kube Semver Net CloudApi ClusterApi Rbac RbacSync.

(** ** Names *)

Fixpoint lacks (ch : Ascii.ascii) (s : string) : bool :=
  match s with "" => true | String c rest => negb (Ascii.eqb c ch) && lacks ch rest end.

Definition dash : Ascii.ascii := Ascii.ascii_of_N 45.
Definition colon : Ascii.ascii := Ascii.ascii_of_N 58.

(** The first separator is where the texts before it end. *)
Lemma split_at ch a b x y : lacks ch a = true → lacks ch b = true →
  a +:+ String ch x = b +:+ String ch y → a = b ∧ x = y.
Proof.
  revert b. induction a as [|c a IH]; intros [|d b] Ha Hb E; simpl in *.
  - by injection E.
  - injection E as <- _. by rewrite Ascii.eqb_refl in Hb.
  - injection E as -> _. by rewrite Ascii.eqb_refl in Ha.
  - apply andb_true_iff in Ha as [_ Ha], Hb as [_ Hb]. injection E as <- E. destruct (IH b Ha Hb E). by subst.
Qed.

Lemma before_dash_app a x : lacks dash a = true → before_dash (a +:+ String dash x) = a.
Proof.
  induction a as [|c a IH]; intros Ha; [done|]. simpl in *. apply andb_true_iff in Ha as [Hc Ha].
  assert (is_char c "-" = false) as ->.
  { unfold is_char. apply String.eqb_neq. intros [= ->]. by rewrite Ascii.eqb_refl in Hc. }
  by rewrite <- (IH Ha) at 2.
Qed.

Lemma group_cases g : g ∈ AllGroupsPrefixes →
  g = OwnerGroupNamePrefix ∨ g = EditorGroupNamePrefix ∨ g = ViewerGroupNamePrefix ∨ g = ProjectManagerGroupNamePrefix.
Proof. unfold AllGroupsPrefixes. rewrite !elem_of_cons, elem_of_nil. tauto. Qed.

Lemma group_lacks g : g ∈ AllGroupsPrefixes → lacks dash g = true.
Proof. intros [->|[->|[->| ->]]]%group_cases; reflexivity. Qed.

Lemma group_prefix p g : g ∈ AllGroupsPrefixes → ExtractGroupPrefix (GenerateActualGroupNameFor p g) = g.
Proof. intros Hg%group_lacks. by apply before_dash_app. Qed.

Lemma group_inj p g p' g' : g ∈ AllGroupsPrefixes → g' ∈ AllGroupsPrefixes →
  GenerateActualGroupNameFor p g = GenerateActualGroupNameFor p' g' → p = p' ∧ g = g'.
Proof.
  intros Hg%group_lacks Hg'%group_lacks E. unfold GenerateActualGroupNameFor in E.
  by destruct (split_at dash g g' p p' Hg Hg' E).
Qed.

Lemma lower_char_dash c : lower_char c = dash → c = dash.
Proof. destruct c as [[] [] [] [] [] [] [] []]; vm_compute; congruence. Qed.

Lemma ToLower_lacks s : lacks dash s = true → lacks dash (ToLower s) = true.
Proof.
  induction s as [|c s IH]; intros Hs; [done|]. simpl in *. apply andb_true_iff in Hs as [Hc Hs].
  rewrite (IH Hs), andb_true_r, negb_true_iff, Ascii.eqb_neq in *. intros E. by apply Hc, lower_char_dash.
Qed.

Lemma role_name_inj k n group k' n' group' : lacks dash k = true → lacks dash k' = true →
  lacks colon n = true → lacks colon n' = true →
  generateRBACRoleNameForNamedResource k n group = generateRBACRoleNameForNamedResource k' n' group' →
  ToLower k = ToLower k' ∧ n = n' ∧ group = group'.
Proof.
  intros Hk%ToLower_lacks Hk'%ToLower_lacks Hn Hn' E. unfold generateRBACRoleNameForNamedResource, RBACResourcesNamePrefix in E.
  simpl in E. repeat (injection E as E).
  destruct (split_at dash _ _ _ _ Hk Hk' E) as [-> E2]. by destruct (split_at colon _ _ _ _ Hn Hn' E2) as [-> ->].
Qed.

(** ** Verbs *)

(** What a group of a project may do: with an object of a kind, with new objects of a
    kind, with objects in the namespace of a cluster, with one such object, with
    secrets and with new secrets of a namespace of the master. *)
Definition granted (verbs : outcome (list string)) : list string := match verbs with Ok v => v | _ => [] end.
Section verbs.
Context (p : string) (cluster : Cluster).
Definition may_object (g kind : string) : list string := granted (generateVerbsForNamedResource (GenerateActualGroupNameFor p g) kind).
Definition may_create (g kind : string) : list string := granted (generateVerbsForResource (GenerateActualGroupNameFor p g) kind).
Definition may_namespace (g kind : string) : list string :=
  granted (generateVerbsForClusterNamespaceResource cluster (GenerateActualGroupNameFor p g) kind).
Definition may_secret (g namespace : string) : list string :=
  granted (generateVerbsForNamedResourceInNamespace (GenerateActualGroupNameFor p g) secretV1Kind namespace).

Definition may_named (g kind name : string) : list string :=
  granted (generateVerbsForClusterNamespaceNamedResource cluster (GenerateActualGroupNameFor p g) kind name).
Definition may_create_secret (g namespace : string) : list string :=
  granted (generateVerbsForNamespacedResource (GenerateActualGroupNameFor p g) secretV1Kind namespace).

(** The groups in the order of what they may do. *)
Definition below (g g' : string) : Prop :=
  (g = ViewerGroupNamePrefix ∧ g' = EditorGroupNamePrefix) ∨ (g = EditorGroupNamePrefix ∧ g' = OwnerGroupNamePrefix) ∨
  (g = ViewerGroupNamePrefix ∧ g' = OwnerGroupNamePrefix) ∨ (g = ProjectManagerGroupNamePrefix ∧ g' = OwnerGroupNamePrefix).

(** Case analysis on the kinds that the code compares with. *)
Ltac kinds kind :=
  destruct (String.eqb_spec kind ProjectKindName) as [->|?]; [|destruct (String.eqb_spec kind UserProjectBindingKind) as [->|?];
    [|destruct (String.eqb_spec kind UserKindName) as [->|?]; [|destruct (String.eqb_spec kind ClusterKindName) as [->|?];
    [|destruct (String.eqb_spec kind ExternalClusterKind) as [->|?];
    [|destruct (String.eqb_spec kind ClusterTemplateInstanceKindName) as [->|?]]]]]].

(** Inclusion of lists of verbs. *)
Ltac included := intros ?; rewrite ?elem_of_cons, ?elem_of_nil; tauto.

(** The tests of a group's name compute, whatever the project. *)
Ltac groups :=
  repeat match goal with
  | |- context [is_owner ?x] => let b := eval vm_compute in (is_owner x) in change (is_owner x) with b
  | |- context [is_editor ?x] => let b := eval vm_compute in (is_editor x) in change (is_editor x) with b
  | |- context [is_viewer ?x] => let b := eval vm_compute in (is_viewer x) in change (is_viewer x) with b
  | |- context [is_projectManager ?x] =>
      let b := eval vm_compute in (is_projectManager x) in change (is_projectManager x) with b
  end; cbn.

Lemma named_defined g kind : g ∈ AllGroupsPrefixes →
  generateVerbsForNamedResource (GenerateActualGroupNameFor p g) kind = Ok (may_object g kind).
Proof.
  unfold may_object, generateVerbsForNamedResource.
  intros [->|[->|[->| ->]]]%group_cases; groups; repeat case_match; done.
Qed.

Lemma create_defined g kind : g ∈ AllGroupsPrefixes →
  generateVerbsForResource (GenerateActualGroupNameFor p g) kind = Ok (may_create g kind).
Proof.
  unfold may_create, generateVerbsForResource.
  intros [->|[->|[->| ->]]]%group_cases; groups; repeat case_match; done.
Qed.

Lemma object_below g g' kind : below g g' → may_object g kind ⊆ may_object g' kind.
Proof.
  unfold may_object, generateVerbsForNamedResource.
  intros [[-> ->]|[[-> ->]|[[-> ->]|[-> ->]]]]; groups; kinds kind; cbn; included.
Qed.

Lemma create_below g g' kind : below g g' → may_create g kind ⊆ may_create g' kind.
Proof.
  unfold may_create, generateVerbsForResource.
  intros [[-> ->]|[[-> ->]|[[-> ->]|[-> ->]]]]; groups; kinds kind; cbn; included.
Qed.

Lemma namespace_below g g' kind : below g g' → may_namespace g kind ⊆ may_namespace g' kind.
Proof.
  unfold may_namespace, generateVerbsForClusterNamespaceResource.
  intros [[-> ->]|[[-> ->]|[[-> ->]|[-> ->]]]]; groups; repeat case_match; cbn; included.
Qed.

Lemma secret_below g g' ns : below g g' → may_secret g ns ⊆ may_secret g' ns.
Proof.
  unfold may_secret, generateVerbsForNamedResourceInNamespace, verbsForSecrets.
  intros [[-> ->]|[[-> ->]|[[-> ->]|[-> ->]]]]; groups; destruct (secretsNamespace ns); cbn; included.
Qed.

Lemma create_secret_below g g' ns : below g g' → may_create_secret g ns ⊆ may_create_secret g' ns.
Proof.
  unfold may_create_secret, generateVerbsForNamespacedResource, verbsForSecrets.
  intros [[-> ->]|[[-> ->]|[[-> ->]|[-> ->]]]]; groups; destruct (secretsNamespace ns); cbn; included.
Qed.

Lemma named_below g g' kind name : below g g' → may_named g kind name ⊆ may_named g' kind name.
Proof.
  unfold may_named, generateVerbsForClusterNamespaceNamedResource.
  intros [[-> ->]|[[-> ->]|[[-> ->]|[-> ->]]]]; groups;
    destruct (is_alertmanager kind name), (is_alertmanagerSecret kind name); cbn; included.
Qed.

(** Single objects in the namespace of a cluster: only those of the Alertmanager. *)
Lemma named_objects g kind name : may_named g kind name ≠ [] →
  g ≠ ProjectManagerGroupNamePrefix → g ∈ AllGroupsPrefixes →
  (kind = "Alertmanager" ∨ kind = "Secret") ∧ name = "alertmanager".
Proof.
  unfold may_named, generateVerbsForClusterNamespaceNamedResource. intros Hv Hne Hg.
  assert (Ha : is_alertmanager kind name = true ∨ is_alertmanagerSecret kind name = true).
  { destruct (is_alertmanager kind name); [by left|]. destruct (is_alertmanagerSecret kind name); [by right|]. exfalso.
    apply Hv. by rewrite orb_false_r, !andb_false_r; destruct (is_projectManager _). }
  unfold is_alertmanager, is_alertmanagerSecret in Ha. rewrite !andb_true_iff, !String.eqb_eq in Ha. naive_solver.
Qed.


(** The verbs on single objects of projects, as a table. *)
Definition object_verbs (g kind : string) : list string :=
  let all := ["get"; "update"; "patch"; "delete"] in
  let among := λ kinds, bool_decide (kind ∈ kinds) in
  if String.eqb g "owners" then all
  else if String.eqb g "editors" then
    if among ["UserProjectBinding"; "User"] then [] else if among ["Project"] then ["get"; "update"; "patch"] else all
  else if String.eqb g "viewers" then if among ["UserProjectBinding"; "User"] then [] else ["get"]
  else if String.eqb g "projectmanagers" then
    if among ["Cluster"; "ExternalCluster"; "ClusterTemplateInstance"] then [] else all
  else [].

Lemma may_object_table g kind : g ∈ AllGroupsPrefixes → may_object g kind = object_verbs g kind.
Proof.
  assert (Hin : ∀ l, bool_decide (kind ∈ l) = existsb (String.eqb kind) l).
  { intros l. apply eq_true_iff_eq. rewrite bool_decide_eq_true, existsb_true_iff. split.
    - intros Hl. exists kind. by rewrite String.eqb_refl.
    - by intros (x & Hx & ->%String.eqb_eq). }
  unfold may_object, generateVerbsForNamedResource, object_verbs. rewrite !Hin.
  clear Hin. intros [->|[->|[->| ->]]]%group_cases; groups; unfold ProjectKindName, UserProjectBindingKind, UserKindName,
    ClusterKindName, ExternalClusterKind, ClusterTemplateInstanceKindName;
    repeat match goal with
    | |- context [String.eqb kind ?x] => destruct (String.eqb_spec kind x) as [->|?]; cbn
    end; done.
Qed.
End verbs.

(** A group's name determines project and prefix, and the name of a role or binding
    for one object determines the kind up to case, the object, the project and the
    group: no two of them share a role. *)
Theorem role_names_unique k n p g k' n' p' g' :
  lacks dash k = true → lacks dash k' = true → lacks colon n = true → lacks colon n' = true →
  g ∈ AllGroupsPrefixes → g' ∈ AllGroupsPrefixes →
  ExtractGroupPrefix (GenerateActualGroupNameFor p g) = g ∧
  (generateRBACRoleNameForNamedResource k n (GenerateActualGroupNameFor p g) =
     generateRBACRoleNameForNamedResource k' n' (GenerateActualGroupNameFor p' g') →
   ToLower k = ToLower k' ∧ n = n' ∧ p = p' ∧ g = g').
Proof.
  intros Hk Hk' Hn Hn' Hg Hg'. split; [by apply group_prefix|]. intros E.
  destruct (role_name_inj _ _ _ _ _ _ Hk Hk' Hn Hn' E) as (? & ? & Eg).
  destruct (group_inj _ _ _ _ Hg Hg' Eg). done.
Qed.
