(* ===== verification/RbacGrants.v ===== *)
(** * What a run of the RBAC controllers leaves

    The interface of the stores of roles and bindings, what ensuring one of them does,
    and from these what members of a project can do after a run. *)

From S2P Require Import Prelude ResourceNames Kube Semver Net CloudApi ClusterApi Rbac RbacSync RbacSpec.

(** ** Stores *)

Abbreviation store O := (gmap NamespacedName O).

(** One table of an API server, as part [get] and [set] of its state.  Reads return
    what is stored; a write that fails may have been applied; the server keeps what
    [content] says and sets other metadata.  Nothing else of the state changes. *)
Class StoreLaws {W O S X : Type} `{Object O} (client : Client W O) (state : W → S) (get : S → store O)
    (set : store O → S → S) (content : O → X) : Prop := {
  sl_get_set : ∀ t s, get (set t s) = t;
  sl_set_get : ∀ s, set (get s) s = s;
  sl_set_set : ∀ t u s, set t (set u s) = set t s;
  sl_key : ∀ w k o, get (state w) !! k = Some o → object_key o = k;
  sl_get : ∀ k w r w', c_get client k w = (r, w') → state w' = state w ∧
    (∀ o, r = Ok o → get (state w) !! k = Some o) ∧
    (∀ e, r = Err e → IsNotFound e = true → get (state w) !! k = None);
  sl_list : ∀ opts, keeps state (c_list client opts);
  sl_create : ∀ o w r w', c_create client o w = (r, w') →
    (state w' = state w ∧ ∀ x, r ≠ Ok x) ∨
    (get (state w) !! object_key o = None ∧
     ∃ o', content o' = content o ∧ state w' = set (<[object_key o := o']> (get (state w))) (state w));
  sl_update : ∀ o w r w', c_update client o w = (r, w') →
    (state w' = state w ∧ ∀ x, r ≠ Ok x) ∨
    (∃ o', content o' = content o ∧ state w' = set (<[object_key o := o']> (get (state w))) (state w));
}.

(** What a computation does to a table: [key] is the only entry it touches, and if it
    succeeds the entry is related by [Q] to what it was before. *)
Section touches.
Context {W O S : Type} (state : W → S) (get : S → store O) (set : store O → S → S).

Definition touches {A} (key : NamespacedName) (Q : option O → O → Prop) (m : M W A) : Prop :=
  ∀ w r w', m w = (r, w') → ∃ t, state w' = set t (state w) ∧
    (∀ k, k ≠ key → t !! k = get (state w) !! k) ∧
    (∀ a, r = Ok a → ∃ o, t !! key = Some o ∧ Q (get (state w) !! key) o).
End touches.

Section ensure.
Context {W O S X : Type} `{Object O} (client : Client W O) (state : W → S) (get : S → store O) (set : store O → S → S)
  (content : O → X) `{!StoreLaws client state get set content}.

Lemma touches_unchanged {A} (m : M W A) key Q : keeps state m → (∀ w a w', m w = (Ok a, w') → False) →
  touches state get set key Q m.
Proof.
  intros Hk Hn w r w' E. exists (get (state w)). split; [by rewrite sl_set_get, (Hk _ _ _ E)|]. split; [done|].
  intros a ->. by destruct (Hn _ _ _ E).
Qed.

(** A write whose result is dropped. *)
Lemma write_case (m : M W O) (P : O → Prop) key w r w' :
  (∀ r w', m w = (r, w') → (state w' = state w ∧ ∀ x, r ≠ Ok x) ∨
     ∃ o, P o ∧ state w' = set (<[key := o]> (get (state w))) (state w)) →
  (_ ← m; mret tt) w = (r, w') →
  ∃ t, state w' = set t (state w) ∧ (∀ k, k ≠ key → t !! k = get (state w) !! k) ∧
    (∀ a, r = Ok a → ∃ o, t !! key = Some o ∧ P o).
Proof.
  intros Hm. unfold mbind, M_MBind, M_bind, mret, M_MRet, M_ret. destruct (m w) as [u w1] eqn:Em. intros Er.
  destruct (Hm _ _ eq_refl) as [[Es Hno]|(o & HP & Es)].
  - exists (get (state w)). split; [|split; [done|]].
    + rewrite sl_set_get, <- Es. by destruct u; injection Er as <- <-.
    + intros a ->. destruct u as [x| | |]; try (by injection Er). by destruct (Hno x).
  - exists (<[key := o]> (get (state w))). split; [|split].
    + rewrite <- Es. by destruct u; injection Er as <- <-.
    + intros k ?. by rewrite lookup_insert_ne.
    + intros a _. exists o. by rewrite lookup_insert_eq.
Qed.

(** The shape of all the ensuring functions: get, create what is missing, update what
    differs. *)
Lemma touches_ensure (key : NamespacedName) (generated : O) (same : O → bool) (fixed : O → O) (Q : option O → O → Prop) :
  object_key generated = key →
  (∀ o, object_key o = key → object_key (fixed o) = key) →
  (∀ o, content o = content generated → Q None o) →
  (∀ existing, same existing = true → Q (Some existing) existing) →
  (∀ existing o, same existing = false → content o = content (fixed existing) → Q (Some existing) o) →
  touches state get set key Q (
    r ← try (c_get client key);
    match r with
    | inl e => if IsNotFound e then (_ ← c_create client generated; mret tt) else throw e
    | inr existing => if same existing then mret tt else (_ ← c_update client (fixed existing); mret tt)
    end).
Proof.
  intros Hk Hfix Hnew Hsame Hdiff w r w'. unfold mbind at 1, M_MBind at 1, M_bind at 1, try.
  destruct (c_get client key w) as [o w1] eqn:Eg. destruct (sl_get _ _ _ _ Eg) as (Es & Hok & Hnf).
  destruct o as [existing|e|p|]; cbn beta iota.
  - specialize (Hok existing eq_refl). rewrite Hok. rewrite <- Es in *. destruct (same existing) eqn:Esame.
    + intros [= <- <-]. exists (get (state w1)). split; [by rewrite sl_set_get|]. split; [done|]. eauto.
    + apply (write_case _ (Q (Some existing))). intros u w2 Eu.
      destruct (sl_update _ _ _ _ Eu) as [?|(o' & Hc & Es2)]; [by left|right]. exists o'.
      rewrite Hfix in Es2 by (by apply (sl_key w1)). auto.
  - destruct (IsNotFound e) eqn:En.
    + rewrite (Hnf e eq_refl En). rewrite <- Es. apply (write_case _ (Q None)). intros u w2 Eu.
      destruct (sl_create _ _ _ _ Eu) as [?|(_ & o' & Hc & Es2)]; [by left|right]. exists o'. rewrite Hk in Es2. auto.
    + intros [= <- <-]. exists (get (state w)). split; [by rewrite Es, sl_set_get|by split].
  - intros [= <- <-]. exists (get (state w)). split; [by rewrite Es, sl_set_get|by split].
  - intros [= <- <-]. exists (get (state w)). split; [by rewrite Es, sl_set_get|by split].
Qed.

(** A loop in which each element either touches its own entry or changes nothing. *)
Lemma touches_loop {A} (spec : A → option (NamespacedName * (option O → O → Prop))) (body : A → M W unit) (l : list A) :
  (∀ a key Q, a ∈ l → spec a = Some (key, Q) → touches state get set key Q (body a)) →
  (∀ a, a ∈ l → spec a = None → keeps state (body a)) →
  (∀ a b key Q key' Q', a ∈ l → b ∈ l → spec a = Some (key, Q) → spec b = Some (key', Q') → key = key' → a = b) →
  NoDup l →
  ∀ w r w', for_range (λ _ a, body a) tt l w = (r, w') → ∃ t, state w' = set t (state w) ∧
    (∀ k, (∀ a key Q, a ∈ l → spec a = Some (key, Q) → k ≠ key) → t !! k = get (state w) !! k) ∧
    (∀ u a key Q, r = Ok u → a ∈ l → spec a = Some (key, Q) → ∃ o, t !! key = Some o ∧ Q (get (state w) !! key) o).
Proof.
  induction l as [|a l IH]; intros Ht Hs Hinj Hnd w r w' E; simpl in E.
  { injection E as <- <-. exists (get (state w)). rewrite sl_set_get. split_and!; try done. by intros u b ? ? _ ?%elem_of_nil. }
  apply NoDup_cons in Hnd as [Hni Hnd].
  assert (∃ t w1, state w1 = set t (state w) ∧ (∀ k, (∀ key Q, spec a = Some (key, Q) → k ≠ key) → t !! k = get (state w) !! k) ∧
    (((∀ u, r ≠ Ok u) ∧ w' = w1) ∨ ((∀ key Q, spec a = Some (key, Q) → ∃ o, t !! key = Some o ∧ Q (get (state w) !! key) o) ∧
      for_range (λ _ a, body a) tt l w1 = (r, w')))) as (t & w1 & Et & Hfr & Hcase).
  { unfold mbind, M_MBind, M_bind in E. destruct (body a w) as [o w1] eqn:Eb. destruct (spec a) as [[key Q]|] eqn:Esp.
    - destruct (Ht a key Q ltac:(left) Esp _ _ _ Eb) as (t & Et & Hne & Hok). exists t, w1. split; [done|]. split; [naive_solver|].
      destruct o as [[]| | |]; [right|left; injection E as <- <-; done..]. split; [|done]. intros ? ? [= <- <-]. eauto.
    - exists (get (state w)), w1. rewrite sl_set_get, (Hs a ltac:(left) Esp _ _ _ Eb). split; [done|]. split; [done|].
      destruct o as [[]| | |]; [by right|left; injection E as <- <-; done..]. }
  destruct Hcase as [[Hno ->]|[Ha E1]].
  - exists t. split; [done|]. split; [|intros u ? ? ? Hr; by destruct (Hno u)]. intros k Hk. apply Hfr. intros key Q. apply Hk. left.
  - destruct (IH ltac:(intros; eapply Ht; [by right|done]) ltac:(intros; eapply Hs; [by right|done])
      ltac:(intros; eapply Hinj; eauto using list_elem_of_further) Hnd _ _ _ E1)
      as (t' & Et' & Hfr' & Hok'). rewrite Et, sl_set_set in Et'. rewrite Et, sl_get_set in Hfr', Hok'.
    exists t'. split; [done|]. split.
    + intros k Hk. rewrite Hfr' by (intros b key Q Hb; apply Hk; by right). apply Hfr. intros key Q. apply Hk. left.
    + intros u b key Q Hr Hb Hsp. apply elem_of_cons in Hb as [->|Hb].
      * destruct (Ha _ _ Hsp) as (o & Ho & HQ). exists o. split; [|done]. rewrite Hfr'; [done|].
        intros c key' Q' Hc Hsp' ->. apply Hni. by rewrite (Hinj _ _ _ _ _ _ ltac:(left) ltac:(by right) Hsp Hsp' eq_refl).
      * destruct (Hok' u b key Q Hr Hb Hsp) as (o & Ho & HQ). exists o. split; [done|]. rewrite <- Hfr; [done|].
        intros key' Q' Hsp' ->. apply Hni. by rewrite (Hinj _ _ _ _ _ _ ltac:(left) ltac:(by right) Hsp' Hsp eq_refl).
Qed.
End ensure.

(** ** Roles and bindings *)

Record RbacState := mkRbacState {
  st_roles : store Role;
  st_bindings : store RoleBinding;
  st_clusterRoles : store Role;
  st_clusterBindings : store RoleBinding;
}.
Definition with_roles (t : store Role) (s : RbacState) : RbacState :=
  mkRbacState t (st_bindings s) (st_clusterRoles s) (st_clusterBindings s).
Definition with_bindings (t : store RoleBinding) (s : RbacState) : RbacState :=
  mkRbacState (st_roles s) t (st_clusterRoles s) (st_clusterBindings s).
Definition with_clusterRoles (t : store Role) (s : RbacState) : RbacState :=
  mkRbacState (st_roles s) (st_bindings s) t (st_clusterBindings s).
Definition with_clusterBindings (t : store RoleBinding) (s : RbacState) : RbacState :=
  mkRbacState (st_roles s) (st_bindings s) (st_clusterRoles s) t.

Definition binding_content (b : RoleBinding) : list Subject * RoleRef := (rb_subjects b, rb_roleRef b).

Class RbacWorld {W} (cli : RbacClients W) := {
  rw_state : W → RbacState;
  rw_roles :: StoreLaws (rc_roles cli) rw_state st_roles with_roles ro_rules;
  rw_bindings :: StoreLaws (rc_bindings cli) rw_state st_bindings with_bindings binding_content;
  rw_clusterRoles :: StoreLaws (rc_clusterRoles cli) rw_state st_clusterRoles with_clusterRoles ro_rules;
  rw_clusterBindings :: StoreLaws (rc_clusterBindings cli) rw_state st_clusterBindings with_clusterBindings binding_content;
}.

(** What ensuring establishes. *)
Definition has_rules (rules : list PolicyRule) (_ : option Role) (r : Role) : Prop := ro_rules r = rules.
Definition ref_kept (generated : RoleBinding) (old : option RoleBinding) (b : RoleBinding) : Prop :=
  rb_roleRef b = match old with Some o => rb_roleRef o | None => rb_roleRef generated end.
Definition has_subjects (generated : RoleBinding) (old : option RoleBinding) (b : RoleBinding) : Prop :=
  rb_subjects b = rb_subjects generated ∧ ref_kept generated old b.
Definition has_added (generated : RoleBinding) (old : option RoleBinding) (b : RoleBinding) : Prop :=
  rb_subjects b = match old with
                  | Some o => rb_subjects o ++ subjectsToAdd o generated
                  | None => rb_subjects generated
                  end ∧ ref_kept generated old b.
Definition has_removed (generated : RoleBinding) (old : option RoleBinding) (b : RoleBinding) : Prop :=
  ∃ o, old = Some o ∧ rb_subjects b = remainingSubjects o generated ∧ rb_roleRef b = rb_roleRef o.

Section tables.
Context {W S : Type} (state : W → S).

Lemma touches_ext {O A} (get : S → store O) (set : store O → S → S) key Q (m m' : M W A) :
  (∀ w, m w = m' w) → touches state get set key Q m' → touches state get set key Q m.
Proof. intros He Ht w r w'. rewrite He. apply Ht. Qed.

Lemma touches_lift {O A B} (get : S → store O) (set : store O → S → S) key Q (a : A) (k : A → M W B) :
  touches state get set key Q (k a) → touches state get set key Q (lift (Ok a) ≫= k).
Proof. by apply touches_ext. Qed.

Lemma ensureRole_touches (client : Client W Role) get set key generated `{!StoreLaws client state get set ro_rules} :
  object_key generated = key → touches state get set key (has_rules (ro_rules generated)) (ensureRole client key generated).
Proof.
  intros Hk. apply (touches_ensure client state get set ro_rules key generated
    (λ e, bool_decide (ro_rules e = ro_rules generated)) (λ e, set_rules (ro_rules generated) e)); try done.
  - intros e ?%bool_decide_eq_true. done.
Qed.

Context (client : Client W RoleBinding) (get : S → store RoleBinding) (set : store RoleBinding → S → S)
  `{!StoreLaws client state get set binding_content}.

Lemma ensureBinding_touches key generated : object_key generated = key →
  touches state get set key (has_subjects generated) (ensureBinding client key generated).
Proof.
  intros Hk. apply (touches_ensure client state get set binding_content key generated
    (λ e, bool_decide (rb_subjects e = rb_subjects generated)) (λ e, set_subjects (rb_subjects generated) e)); try done.
  - intros o [= Hs Hr]. by split.
  - intros e ?%bool_decide_eq_true. by split.
  - intros e o _ [= Hs Hr]. by split.
Qed.

Lemma addSubjects_touches key generated : object_key generated = key →
  touches state get set key (has_added generated) (addSubjects client key generated).
Proof.
  intros Hk. set (nothing e := match subjectsToAdd e generated with [] => true | _ => false end).
  eapply touches_ext; [|apply (touches_ensure client state get set binding_content key generated nothing
    (λ e, set_subjects (rb_subjects e ++ subjectsToAdd e generated) e)); try done].
  - intros w. unfold addSubjects, nothing, mbind, M_MBind, M_bind. destruct (try _ w) as [[[e|e]| | |] w1]; try done.
    by destruct (subjectsToAdd e generated).
  - intros o [= Hs Hr]. by split.
  - unfold nothing. intros e He. destruct (subjectsToAdd e generated) eqn:E; [|done]. split; [cbn; by rewrite E, app_nil_r|done].
  - intros e o _ [= Hs Hr]. by split.
Qed.

Lemma removeSubjects_touches key generated :
  touches state get set key (has_removed generated) (removeSubjects client key generated).
Proof.
  intros w r w'. unfold removeSubjects. unfold mbind at 1, M_MBind at 1, M_bind at 1.
  destruct (c_get client key w) as [o w1] eqn:Eg. destruct (sl_get _ _ _ _ Eg) as (Es & Hok & _).
  destruct o as [e|e|p|];
    [|intros [= <- <-]; exists (get (state w)); (split; [by rewrite Es, sl_set_get|by split])..].
  specialize (Hok e eq_refl). rewrite Hok. rewrite <- Es in *.
  apply (write_case client state get set binding_content _ (has_removed generated (Some e))). intros u w2 Eu.
  destruct (sl_update _ _ _ _ Eu) as [?|(o' & [= Hs Hr] & Es2)]; [by left|right]. exists o'. split; [by exists e|].
  change (object_key (set_subjects _ e)) with (object_key e) in Es2. by rewrite (sl_key w1 key e Hok) in Es2.
Qed.
End tables.

(** ** One object of a project *)

Lemma append_inj_l (s a b : string) : s +:+ a = s +:+ b → a = b.
Proof. induction s as [|c s IH]; [done|]. intros E. simpl in E. injection E as E. auto. Qed.

Definition role_name (kind n p g : string) : string :=
  generateRBACRoleNameForNamedResource kind n (GenerateActualGroupNameFor p g).
Definition role_key (kind n p g : string) : NamespacedName := mkKey "" (role_name kind n p g).
Definition object_rule (resource n : string) (verbs : list string) : PolicyRule :=
  mkPolicyRule [GroupName] [resource] [n] verbs.

Lemma role_key_inj kind n p g g' : g ∈ AllGroupsPrefixes → g' ∈ AllGroupsPrefixes →
  role_key kind n p g = role_key kind n p g' → g = g'.
Proof.
  intros Hg Hg' [= E]. unfold role_name, generateRBACRoleNameForNamedResource in E.
  repeat apply append_inj_l in E. by destruct (group_inj _ _ _ _ Hg Hg' E).
Qed.

Lemma AllGroupsPrefixes_NoDup : NoDup AllGroupsPrefixes.
Proof. apply (bool_decide_unpack _). by vm_compute. Qed.

Section named.
Context {W : Type} (cli : RbacClients W) `{!RbacWorld cli}.

Lemma shouldSkip_named p res kind g object : g ∈ AllGroupsPrefixes →
  shouldSkipClusterRBACRoleBindingForNamedResource p res kind g object =
  Ok (match may_object p g kind with
      | [] => None
      | verbs => Some (mkRole (generated_meta (role_name kind (om_name object) p g) "" [object_ref GroupVersion kind object])
                         [object_rule res (om_name object) verbs])
      end).
Proof.
  intros Hg. unfold shouldSkipClusterRBACRoleBindingForNamedResource, generateClusterRBACRoleNamedResource, role_for.
  rewrite (named_defined p g kind Hg). cbn. by destruct (may_object p g kind).
Qed.

(** A loop over the groups in which each group with verbs has its own entry. *)
Lemma groups_loop {O X} `{Object O} (client : Client W O) (get : RbacState → store O) (set : store O → RbacState → RbacState)
    (content : O → X) `{!StoreLaws client rw_state get set content} kind n p (Q : string → option O → O → Prop)
    (body : string → M W unit) w r w' :
  (∀ g, g ∈ AllGroupsPrefixes → may_object p g kind = [] → keeps rw_state (body g)) →
  (∀ g, g ∈ AllGroupsPrefixes → may_object p g kind ≠ [] → touches rw_state get set (role_key kind n p g) (Q g) (body g)) →
  for_groups body w = (r, w') →
  ∃ t, rw_state w' = set t (rw_state w) ∧
    (∀ k, (∀ g, g ∈ AllGroupsPrefixes → may_object p g kind ≠ [] → k ≠ role_key kind n p g) → t !! k = get (rw_state w) !! k) ∧
    (∀ u g, r = Ok u → g ∈ AllGroupsPrefixes → may_object p g kind ≠ [] →
       ∃ o, t !! role_key kind n p g = Some o ∧ Q g (get (rw_state w) !! role_key kind n p g) o).
Proof.
  intros Hskip Htouch E.
  set (spec g := match may_object p g kind with [] => None | _ => Some (role_key kind n p g, Q g) end).
  assert (Hspec : ∀ g key P, spec g = Some (key, P) → key = role_key kind n p g ∧ P = Q g ∧ may_object p g kind ≠ []).
  { unfold spec. intros g key P. destruct (may_object p g kind); [done|]. by intros [= <- <-]. }
  destruct (touches_loop client rw_state get set content spec body AllGroupsPrefixes) with (w := w) (r := r) (w' := w')
    as (t & Et & Hfr & Hok).
  - intros g key P Hg (-> & -> & Hv)%Hspec. by apply Htouch.
  - intros g Hg Hs. apply Hskip; [done|]. unfold spec in Hs. by destruct (may_object p g kind).
  - intros g g' key P key' P' Hg Hg' (-> & _ & _)%Hspec (-> & _ & _)%Hspec. by apply role_key_inj.
  - apply AllGroupsPrefixes_NoDup.
  - exact E.
  - exists t. split; [done|]. split.
    + intros k Hk. apply Hfr. intros g key P Hg (-> & _ & Hv)%Hspec. by apply Hk.
    + intros u g Hr Hg Hv. apply (Hok u g _ (Q g) Hr Hg). unfold spec. by destruct (may_object p g kind).
Qed.

Lemma named_roles p res kind object w r w' :
  ensureClusterRBACRoleForNamedResource cli p res kind object w = (r, w') →
  ∃ t, rw_state w' = with_clusterRoles t (rw_state w) ∧
    (∀ k, (∀ g, g ∈ AllGroupsPrefixes → may_object p g kind ≠ [] → k ≠ role_key kind (om_name object) p g) → t !! k = st_clusterRoles (rw_state w) !! k) ∧
    (∀ u g, r = Ok u → g ∈ AllGroupsPrefixes → may_object p g kind ≠ [] → ∃ role,
       t !! role_key kind (om_name object) p g = Some role ∧
       ro_rules role = [object_rule res (om_name object) (may_object p g kind)]).
Proof.
  apply (groups_loop (rc_clusterRoles cli) st_clusterRoles with_clusterRoles ro_rules kind (om_name object) p
    (λ g, has_rules [object_rule res (om_name object) (may_object p g kind)])).
  - intros g Hg Hv. rewrite (shouldSkip_named p res kind g object Hg), Hv. apply keeps_ret.
  - intros g Hg Hv. rewrite (shouldSkip_named p res kind g object Hg). destruct (may_object p g kind) as [|v vs]; [done|].
    apply touches_lift. apply ensureRole_touches; [apply _|done].
Qed.

Lemma named_bindings p res kind object w r w' :
  ensureClusterRBACRoleBindingForNamedResource cli p res kind object w = (r, w') →
  ∃ t, rw_state w' = with_clusterBindings t (rw_state w) ∧
    (∀ k, (∀ g, g ∈ AllGroupsPrefixes → may_object p g kind ≠ [] → k ≠ role_key kind (om_name object) p g) → t !! k = st_clusterBindings (rw_state w) !! k) ∧
    (∀ u g, r = Ok u → g ∈ AllGroupsPrefixes → may_object p g kind ≠ [] → ∃ b,
       t !! role_key kind (om_name object) p g = Some b ∧
       has_subjects (generateClusterRBACRoleBindingNamedResource kind (om_name object) (GenerateActualGroupNameFor p g)
                       (object_ref GroupVersion kind object))
         (st_clusterBindings (rw_state w) !! role_key kind (om_name object) p g) b).
Proof.
  apply (groups_loop (rc_clusterBindings cli) st_clusterBindings with_clusterBindings binding_content kind (om_name object) p
    (λ g, has_subjects (generateClusterRBACRoleBindingNamedResource kind (om_name object) (GenerateActualGroupNameFor p g)
                       (object_ref GroupVersion kind object)))).
  - intros g Hg Hv. rewrite (shouldSkip_named p res kind g object Hg), Hv. apply keeps_ret.
  - intros g Hg Hv. rewrite (shouldSkip_named p res kind g object Hg). destruct (may_object p g kind) as [|v vs]; [done|].
    apply touches_lift. apply ensureBinding_touches; [apply _|done].
Qed.
End named.

(** ** Access *)

Definition rule_allows (rule : PolicyRule) (apiGroup resource n verb : string) : Prop :=
  apiGroup ∈ pr_apiGroups rule ∧ resource ∈ pr_resources rule ∧ verb ∈ pr_verbs rule ∧
  (pr_resourceNames rule = [] ∨ n ∈ pr_resourceNames rule).

(** A subject's access through the cluster role binding [k]. *)
Definition allowed (s : RbacState) (k : NamespacedName) (subject : Subject) (apiGroup resource n verb : string) : Prop :=
  ∃ b role rule, st_clusterBindings s !! k = Some b ∧ subject ∈ rb_subjects b ∧
    st_clusterRoles s !! mkKey "" (rf_name (rb_roleRef b)) = Some role ∧ rule ∈ ro_rules role ∧
    rule_allows rule apiGroup resource n verb.

Lemma allowed_exactly s k subject b role resource n verbs :
  st_clusterBindings s !! k = Some b → rb_subjects b = [subject] →
  st_clusterRoles s !! mkKey "" (rf_name (rb_roleRef b)) = Some role → ro_rules role = [object_rule resource n verbs] →
  ∀ subject' apiGroup' resource' n' verb, allowed s k subject' apiGroup' resource' n' verb ↔
    subject' = subject ∧ apiGroup' = GroupName ∧ resource' = resource ∧ n' = n ∧ verb ∈ verbs.
Proof.
  intros Hb Hs Hr Hrules subject' apiGroup' resource' n' verb. unfold allowed. split.
  - intros (b' & role' & rule & Hb' & Hin & Hr' & Hrule & (H1 & H2 & H3 & H4)).
    assert (b' = b) as -> by congruence. assert (role' = role) as -> by congruence.
    rewrite Hs in Hin. rewrite Hrules in Hrule. apply list_elem_of_singleton in Hin as ->, Hrule as ->. simpl in *.
    apply list_elem_of_singleton in H1 as ->, H2 as ->. destruct H4 as [?|H4]; [done|].
    by apply list_elem_of_singleton in H4 as ->.
  - intros (-> & -> & -> & -> & Hv). exists b, role, (object_rule resource n verbs). rewrite Hs, Hrules.
    split_and!; try done; [by apply list_elem_of_singleton..|]. split_and!; simpl; [by apply list_elem_of_singleton..|done|].
    right. by apply list_elem_of_singleton.
Qed.

(** ** What a run may touch *)

Lemma lacks_app ch a b : lacks ch (a +:+ b) = lacks ch a && lacks ch b.
Proof. induction a as [|c a IH]; [done|]. simpl. by rewrite <- andb_assoc, <- IH. Qed.

Lemma lower_char_colon c : lower_char c = colon → c = colon.
Proof. destruct c as [[] [] [] [] [] [] [] []]; vm_compute; congruence. Qed.

Lemma ToLower_lacks_colon s : lacks colon s = true → lacks colon (ToLower s) = true.
Proof.
  induction s as [|c s IH]; intros Hs; [done|]. simpl in *. apply andb_true_iff in Hs as [Hc Hs].
  rewrite (IH Hs), andb_true_r, negb_true_iff, Ascii.eqb_neq in *. intros E. by apply Hc, lower_char_colon.
Qed.

(** Texts whose first separators differ are different. *)
Lemma first_separator a b x y : lacks dash a = true → lacks colon a = true → lacks dash b = true → lacks colon b = true →
  a +:+ String dash x ≠ b +:+ String colon y.
Proof.
  revert b. induction a as [|c a IH]; intros [|d b] Ha Ha' Hb Hb' E; simpl in *; try discriminate.
  - injection E as <- _. by rewrite Ascii.eqb_refl in Hb.
  - injection E as -> _. by rewrite Ascii.eqb_refl in Ha'.
  - apply andb_true_iff in Ha as [_ Ha], Ha' as [_ Ha'], Hb as [_ Hb], Hb' as [_ Hb']. injection E as <- E. by apply (IH b).
Qed.

(** An entry of one of the four tables. *)
Inductive RbacTable := TRole | TBinding | TClusterRole | TClusterBinding.
Definition entry (t : RbacTable) (k : NamespacedName) (s : RbacState) : option (Role + RoleBinding) :=
  match t with
  | TRole => inl <$> st_roles s !! k
  | TBinding => inr <$> st_bindings s !! k
  | TClusterRole => inl <$> st_clusterRoles s !! k
  | TClusterBinding => inr <$> st_clusterBindings s !! k
  end.
Definition cluster_wide (t : RbacTable) : Prop := t = TClusterRole ∨ t = TClusterBinding.

(** Names, spelled out: of the role that a holder has on one object, and of a group
    of a project. *)
Definition object_role (kind n holder : string) : string := "kubermatic:" +:+ ToLower kind +:+ "-" +:+ n +:+ ":" +:+ holder.
Definition group_of (g p : string) : string := g +:+ "-" +:+ p.
Definition ca_bundle_of (cluster : string) : string := "cluster-" +:+ cluster +:+ "-ca-bundle".
Definition project_group (g : string) : Prop := g ∈ ["owners"; "editors"; "viewers"; "projectmanagers"].

(** The entries that concern an object: the roles of the groups of its project on
    it, for a namespaced object inside its namespace (the code looks them up without
    one). *)
Inductive by_object (obj : ResourceObject) : RbacTable → NamespacedName → Prop :=
| by_object_wide t p g :
    om_namespace (rso_meta obj) = "" → getProjectName (rso_meta obj) = Ok p → cluster_wide t → project_group g →
    by_object obj t (mkKey "" (object_role (gvk_kind (rso_gvk obj)) (om_name (rso_meta obj)) (group_of g p)))
| by_object_namespaced t p g ns :
    om_namespace (rso_meta obj) ≠ "" → ns = om_namespace (rso_meta obj) ∨ ns = "" →
    getProjectName (rso_meta obj) = Ok p → ¬ cluster_wide t → project_group g →
    by_object obj t (mkKey ns (object_role (gvk_kind (rso_gvk obj)) (om_name (rso_meta obj)) (group_of g p))).

(** If it is a cluster, also whatever is in the cluster's namespace, the viewers' role
    on its CA bundle, and the bindings of its etcd launcher. *)
Inductive by_cluster (obj : ResourceObject) : RbacTable → NamespacedName → Prop :=
| by_cluster_namespace t c name :
    gvk_kind (rso_gvk obj) = "Cluster" → rso_cluster obj = Some c → cs_namespaceName (cl_status c) ≠ "" → ¬ cluster_wide t →
    by_cluster obj t (mkKey (cs_namespaceName (cl_status c)) name)
| by_cluster_ca_bundle c p :
    gvk_kind (rso_gvk obj) = "Cluster" → rso_cluster obj = Some c → getProjectName (rso_meta obj) = Ok p →
    by_cluster obj TClusterRole (mkKey "" (object_role "configmap" (ca_bundle_of (cl_name c)) (group_of "viewers" p)))
| by_cluster_launcher c kind n :
    gvk_kind (rso_gvk obj) = "Cluster" → rso_cluster obj = Some c →
    (kind = "cluster" ∧ n = cl_name c) ∨ (kind = "configmap" ∧ n = ca_bundle_of (cl_name c)) →
    by_cluster obj TClusterBinding (mkKey "" (object_role kind n "etcd-launcher")).
Definition concerns (obj : ResourceObject) (t : RbacTable) (k : NamespacedName) : Prop := by_object obj t k ∨ by_cluster obj t k.

Lemma group_not_launcher g p : project_group g → group_of g p ≠ "etcd-launcher".
Proof.
  intros Hg E. apply (f_equal before_dash) in E. pose proof (group_prefix p g Hg) as Hp. unfold ExtractGroupPrefix in Hp.
  change (GenerateActualGroupNameFor p g) with (group_of g p) in Hp. rewrite Hp in E. vm_compute in E. subst g.
  unfold project_group in Hg. rewrite !elem_of_cons, elem_of_nil in Hg. naive_solver.
Qed.

Section frames.
Context {W : Type} (cli : RbacClients W) `{!RbacWorld cli}.

Definition entry_at (t : RbacTable) (k : NamespacedName) (w : W) : option (Role + RoleBinding) := entry t k (rw_state w).

Lemma state_keeps {A} t k (m : M W A) : keeps rw_state m → keeps (entry_at t k) m.
Proof. intros Hm w r w' E. unfold entry_at. by rewrite (Hm _ _ _ E). Qed.

Lemma keeps_for_groups {X} (v : W → X) (body : string → M W unit) :
  (∀ g, project_group g → keeps v (body g)) → keeps v (for_groups body).
Proof.
  unfold for_groups, project_group. change AllGroupsPrefixes with ["owners"; "editors"; "viewers"; "projectmanagers"].
  generalize ["owners"; "editors"; "viewers"; "projectmanagers"]. intros l. induction l as [|g l IH]; intros Hb; simpl.
  { apply keeps_ret. }
  apply keeps_bind; [apply Hb; left|]. intros []. apply IH. intros g' Hg'. apply Hb. by right.
Qed.

Lemma keeps_while_groups {X} (v : W → X) (body : string → M W bool) :
  (∀ g, project_group g → keeps v (body g)) → keeps v (while_groups body AllGroupsPrefixes).
Proof.
  unfold project_group. change AllGroupsPrefixes with ["owners"; "editors"; "viewers"; "projectmanagers"].
  generalize ["owners"; "editors"; "viewers"; "projectmanagers"]. intros l. induction l as [|g l IH]; intros Hb; simpl.
  { apply keeps_ret. }
  apply keeps_bind; [apply Hb; left|]. intros []; [|apply keeps_ret]. apply IH. intros g' Hg'. apply Hb. by right.
Qed.

(** The calls of one client change at most the entry they name. *)
Section table.
Context {O X : Type} `{Object O} (client : Client W O) (get : RbacState → store O) (set : store O → RbacState → RbacState)
  (content : O → X) `{!StoreLaws client rw_state get set content} (t0 : RbacTable) (inj : O → Role + RoleBinding).
Hypothesis Hother : ∀ t k x s, t ≠ t0 → entry t k (set x s) = entry t k s.
Hypothesis Hsame : ∀ k s, entry t0 k s = inj <$> get s !! k.

Lemma set_entry key o s t k : (t, k) ≠ (t0, key) → entry t k (set (<[key := o]> (get s)) s) = entry t k s.
Proof using Type*.
  intros Hne. assert (t = t0 ∨ t ≠ t0) as [->|Ht] by (destruct t, t0; auto); [|by apply Hother].
  rewrite !Hsame, sl_get_set, lookup_insert_ne; [done|]. by intros <-.
Qed.

Lemma table_get_keeps t k key : keeps (entry_at t k) (c_get client key).
Proof using Type*. intros w r w' E. unfold entry_at. by destruct (sl_get _ _ _ _ E) as [-> _]. Qed.

Lemma table_create_keeps t k o : (t, k) ≠ (t0, object_key o) → keeps (entry_at t k) (c_create client o).
Proof using Type*.
  intros Hne w r w' E. unfold entry_at. destruct (sl_create _ _ _ _ E) as [[-> _]|(_ & o' & _ & ->)]; [done|]. by apply set_entry.
Qed.

Lemma table_update_keeps t k o : (t, k) ≠ (t0, object_key o) → keeps (entry_at t k) (c_update client o).
Proof using Type*.
  intros Hne w r w' E. unfold entry_at. destruct (sl_update _ _ _ _ E) as [[-> _]|(o' & _ & ->)]; [done|]. by apply set_entry.
Qed.

(** An object that was found has the key it was looked up with. *)
Lemma table_found_keeps {A} t k key (cont : error + O → M W A) :
  (∀ e, keeps (entry_at t k) (cont (inl e))) → (∀ o, object_key o = key → keeps (entry_at t k) (cont (inr o))) →
  keeps (entry_at t k) (try (c_get client key) ≫= cont).
Proof using Type*.
  intros He Ho w r w'. unfold mbind, M_MBind, M_bind, try. destruct (c_get client key w) as [o w1] eqn:Eg.
  assert (Es : entry_at t k w1 = entry_at t k w) by by eapply table_get_keeps.
  destruct o as [o|e|p|]; cbn beta iota; [|intros E; by rewrite (He e _ _ _ E)|intros [= <- <-]; done..].
  destruct (sl_get _ _ _ _ Eg) as (_ & Hok & _). intros E. by rewrite (Ho o (sl_key _ _ _ (Hok o eq_refl)) _ _ _ E).
Qed.

Lemma table_ensure_keeps t k key generated (same : O → bool) (fixed : O → O) :
  object_key generated = key → (∀ o, object_key (fixed o) = object_key o) → (t, k) ≠ (t0, key) →
  keeps (entry_at t k) (
    r ← try (c_get client key);
    match r with
    | inl e => if IsNotFound e then (_ ← c_create client generated; mret tt) else throw e
    | inr existing => if same existing then mret tt else (_ ← c_update client (fixed existing); mret tt)
    end).
Proof using Type*.
  intros Hg Hfix Hne. apply table_found_keeps.
  - intros e. destruct (IsNotFound e); [|apply keeps_throw]. apply keeps_bind; [apply table_create_keeps; by rewrite Hg|].
    intros. apply keeps_ret.
  - intros o Ho. destruct (same o); [apply keeps_ret|].
    apply keeps_bind; [apply table_update_keeps; by rewrite Hfix, Ho|]. intros. apply keeps_ret.
Qed.
End table.

Section run.
Context (t : RbacTable) (k : NamespacedName).

(** The four tables. *)
Lemma role_keeps key role : object_key role = key → (t, k) ≠ (TRole, key) → keeps (entry_at t k) (ensureRole (rc_roles cli) key role).
Proof. intros. eapply (table_ensure_keeps (rc_roles cli) _ _ _ TRole inl); try done. by intros []. Qed.
Lemma clusterRole_keeps key role : object_key role = key → (t, k) ≠ (TClusterRole, key) →
  keeps (entry_at t k) (ensureRole (rc_clusterRoles cli) key role).
Proof. intros. eapply (table_ensure_keeps (rc_clusterRoles cli) _ _ _ TClusterRole inl); try done. by intros []. Qed.
Lemma binding_keeps key b : object_key b = key → (t, k) ≠ (TBinding, key) → keeps (entry_at t k) (ensureBinding (rc_bindings cli) key b).
Proof. intros. eapply (table_ensure_keeps (rc_bindings cli) _ _ _ TBinding inr); try done. by intros []. Qed.
Lemma clusterBinding_keeps key b : object_key b = key → (t, k) ≠ (TClusterBinding, key) →
  keeps (entry_at t k) (ensureBinding (rc_clusterBindings cli) key b).
Proof. intros. eapply (table_ensure_keeps (rc_clusterBindings cli) _ _ _ TClusterBinding inr); try done. by intros []. Qed.

Lemma role_for_meta verbs meta g res names role : role_for verbs meta g res names = Ok (Some role) → ro_meta role = meta.
Proof. unfold role_for. destruct verbs as [[|v vs]| | |]; try done. by intros [= <-]. Qed.

Context (restMapping : GroupVersionKind → M W GroupVersionResource) (obj : ResourceObject).
Hypothesis restMapping_keeps : ∀ gvk, keeps rw_state (restMapping gvk).

Section object.
Hypothesis Hk : ¬ by_object obj t k.

Lemma keeps_lift_bind {X A B} (v : W → X) (o : outcome A) (f : A → M W B) :
  (∀ a, o = Ok a → keeps v (f a)) → keeps v (lift o ≫= f).
Proof. intros Hf w r w'. unfold mbind, M_MBind, M_bind, lift. destruct o as [a|e|m|]; [by apply Hf|by intros [= _ <-]..]. Qed.

Lemma clusterScoped_keeps : keeps (entry_at t k) (syncClusterScopedProjectResource cli restMapping obj).
Proof using Type*.
  unfold syncClusterScopedProjectResource. destruct (String.eqb_spec (om_namespace (rso_meta obj)) "") as [Hns|]; [|apply keeps_ret].
  cbn [negb]. unfold getPluralResourceName. apply keeps_bind; [apply keeps_bind; [by apply state_keeps|intros; apply keeps_ret]|].
  intros res. apply keeps_lift_bind. intros p Hp.
  assert (Hne : ∀ tab g, cluster_wide tab → project_group g →
    (t, k) ≠ (tab, mkKey "" (object_role (gvk_kind (rso_gvk obj)) (om_name (rso_meta obj)) (group_of g p)))).
  { intros tab g Ht Hg [= -> ->]. apply Hk. by constructor. }
  apply keeps_bind; [apply keeps_wrap, keeps_for_groups|intros; apply keeps_wrap, keeps_for_groups]; intros g Hg;
    apply keeps_lift_bind; intros [role|] Hr; try apply keeps_ret; apply role_for_meta in Hr.
  - apply clusterRole_keeps; [unfold object_key; simpl; by rewrite Hr|]. rewrite Hr. apply Hne; [by left|done].
  - apply clusterBinding_keeps; [done|]. apply Hne; [by right|done].
Qed.

Lemma namespaceScoped_keeps : keeps (entry_at t k) (syncNamespaceScopedProjectResource cli restMapping obj).
Proof using Type*.
  unfold syncNamespaceScopedProjectResource. destruct (String.eqb_spec (om_namespace (rso_meta obj)) "") as [|Hns]; [apply keeps_ret|].
  unfold getPluralResourceName. apply keeps_bind; [apply keeps_bind; [by apply state_keeps|intros; apply keeps_ret]|].
  intros res. apply keeps_lift_bind. intros p Hp.
  assert (Hne : ∀ tab g ns, ¬ cluster_wide tab → project_group g → ns = om_namespace (rso_meta obj) ∨ ns = "" →
    (t, k) ≠ (tab, mkKey ns (object_role (gvk_kind (rso_gvk obj)) (om_name (rso_meta obj)) (group_of g p)))).
  { intros tab g ns Ht Hg Hn [= -> ->]. apply Hk. by constructor. }
  apply keeps_bind; [apply keeps_wrap, keeps_while_groups|intros; apply keeps_wrap, keeps_while_groups]; intros g Hg;
    apply keeps_lift_bind; intros [role|] Hr; try apply keeps_ret; apply role_for_meta in Hr.
  - assert (Htab : ¬ cluster_wide TRole) by by intros [|]. rewrite Hr.
    apply (table_found_keeps (rc_roles cli) st_roles with_roles ro_rules TRole inl); [by intros []|done|..].
    + intros e. destruct (IsNotFound e); [|apply keeps_ret]. apply keeps_bind; [|intros; apply keeps_ret].
      apply keeps_try, (table_create_keeps (rc_roles cli) st_roles with_roles ro_rules TRole inl); [by intros []|done|].
      unfold object_key. simpl. rewrite Hr. apply Hne; auto.
    + intros o Ho. destruct (bool_decide _); [apply keeps_ret|]. apply keeps_bind; [|intros; apply keeps_ret].
      apply (table_update_keeps (rc_roles cli) st_roles with_roles ro_rules TRole inl); [by intros []|done|].
      change (object_key (set_rules (ro_rules role) o)) with (object_key o). rewrite Ho. apply Hne; auto.
  - assert (Htab : ¬ cluster_wide TBinding) by by intros [|].
    apply (table_found_keeps (rc_bindings cli) st_bindings with_bindings binding_content TBinding inr); [by intros []|done|..].
    + intros e. destruct (IsNotFound e); [|apply keeps_throw]. apply keeps_bind; [|intros; apply keeps_ret].
      apply keeps_try, (table_create_keeps (rc_bindings cli) st_bindings with_bindings binding_content TBinding inr); [by intros []|done|].
      apply Hne; auto.
    + intros o Ho. destruct (bool_decide _); [apply keeps_ret|]. apply keeps_bind; [|intros; apply keeps_ret].
      apply (table_update_keeps (rc_bindings cli) st_bindings with_bindings binding_content TBinding inr); [by intros []|done|].
      change (object_key (set_subjects _ o)) with (object_key o). rewrite Ho. apply Hne; auto.
Qed.

End object.

(** In the namespace of a cluster. *)
Section of_cluster.
Hypothesis Hk : ¬ by_cluster obj t k.
Section cluster.
Context (cluster : Cluster).
Hypothesis Hkind : gvk_kind (rso_gvk obj) = "Cluster".
Hypothesis Hcluster : rso_cluster obj = Some cluster.
Hypothesis Hns : cluster_ns cluster ≠ "".

Lemma cluster_ne tab name : ¬ cluster_wide tab → (t, k) ≠ (tab, mkKey (cluster_ns cluster) name).
Proof using Hk Hkind Hcluster Hns. intros Ht [= -> ->]. apply Hk. by constructor. Qed.

Lemma namespaceRoles_keeps generate :
  (∀ g role, generate g = Ok (Some role) → om_namespace (ro_meta role) = cluster_ns cluster) →
  keeps (entry_at t k) (ensureClusterNamespaceRoles cli cluster generate).
Proof using Type*.
  intros Hg. apply keeps_bind; [apply state_keeps; apply (sl_list (get := st_roles))|]. intros _. apply keeps_for_groups. intros g _.
  apply keeps_lift_bind. intros [role|] Hr; [|apply keeps_ret]. apply role_keeps; [unfold object_key; simpl; by rewrite (Hg g)|].
  apply cluster_ne. by intros [|].
Qed.

Lemma namespaceBindings_keeps generate binding :
  (∀ g, om_namespace (rb_meta (binding g)) = cluster_ns cluster) →
  keeps (entry_at t k) (ensureClusterNamespaceBindings cli cluster generate binding).
Proof using Type*.
  intros Hg. apply keeps_for_groups. intros g _.
  apply keeps_lift_bind. intros [role|] Hr; [|apply keeps_ret]. apply binding_keeps; [unfold object_key; simpl; by rewrite (Hg g)|].
  apply cluster_ne. by intros [|].
Qed.

Lemma rolesFor_keeps p res kind : keeps (entry_at t k) (rolesFor cli p cluster res kind).
Proof using Type*.
  apply namespaceRoles_keeps. intros g role. unfold shouldSkipRBACRoleForClusterNamespaceResource. destruct (String.eqb _ _); [done|].
  by intros ->%role_for_meta.
Qed.
Lemma namedRolesFor_keeps p name group res kind : keeps (entry_at t k) (namedRolesFor cli p cluster name group res kind).
Proof using Type*.
  apply namespaceRoles_keeps. intros g role. unfold shouldSkipRBACRoleForClusterNamespaceNamedResource.
  destruct (String.eqb _ _); [done|]. by intros ->%role_for_meta.
Qed.
Lemma bindingsFor_keeps p res kind : keeps (entry_at t k) (bindingsFor cli p cluster res kind).
Proof using Type*. by apply namespaceBindings_keeps. Qed.
Lemma namedBindingsFor_keeps p name group res kind : keeps (entry_at t k) (namedBindingsFor cli p cluster name group res kind).
Proof using Type*. by apply namespaceBindings_keeps. Qed.

Lemma launcher_keeps p : getProjectName (rso_meta obj) = Ok p → keeps (entry_at t k) (ensureRBACForEtcdLauncher cli p cluster).
Proof using Type*.
  intros Hp.
  assert (Hrole : ∀ res group kind, keeps (entry_at t k) (ensureRBACRoleForEtcdLauncher cli cluster res group kind)).
  { intros. apply keeps_bind; [apply state_keeps; apply (sl_list (get := st_roles))|]. intros _.
    apply role_keeps; [done|]. apply cluster_ne. by intros [|]. }
  assert (Hbinding : ∀ kind, keeps (entry_at t k) (ensureRBACRoleBindingForEtcdLauncher cli cluster kind)).
  { intros. apply binding_keeps; [done|]. apply cluster_ne. by intros [|]. }
  assert (Hca : keeps (entry_at t k) (ensureClusterRBACRoleForEtcdLauncher cli p cluster)).
  { apply keeps_lift_bind. intros o Ho. apply keeps_lift_bind. intros role Hrole'. destruct o as [x|]; [injection Hrole' as ->|done]. apply role_for_meta in Ho.
    apply clusterRole_keeps; [unfold object_key; simpl; by rewrite Ho|]. rewrite Ho. intros [= -> ->]. apply Hk.
    by apply (by_cluster_ca_bundle obj cluster p). }
  assert (Hlauncher : ∀ n kind, (ToLower kind = "cluster" ∧ n = cl_name cluster) ∨ (ToLower kind = "configmap" ∧ n = ca_bundle_of (cl_name cluster)) →
    keeps (entry_at t k) (ensureClusterRBACRoleBindingForEtcdLauncher cli p cluster n kind (cluster_ns cluster))).
  { intros n kind Hn. apply clusterBinding_keeps; [done|]. intros [= -> ->]. apply Hk.
    destruct Hn as [[E ->]|[E ->]]; unfold generateRBACRoleNameForNamedResourceWithServiceAccount; rewrite E.
    - by apply (by_cluster_launcher obj cluster "cluster" (cl_name cluster)); auto.
    - by apply (by_cluster_launcher obj cluster "configmap" (ca_bundle_of (cl_name cluster))); auto. }
  unfold ensureRBACForEtcdLauncher. repeat first [apply keeps_bind; [apply keeps_wrap|intros _] | apply keeps_wrap]; auto.
Qed.
End cluster.

Lemma clusterResource_keeps : keeps (entry_at t k) (syncClusterResource cli restMapping obj).
Proof using Type*.
  unfold syncClusterResource. destruct (String.eqb_spec (gvk_kind (rso_gvk obj)) ClusterKindName) as [Hkind|]; [|apply keeps_ret].
  cbn [negb]. destruct (rso_cluster obj) as [cluster|] eqn:Hc; [|apply keeps_panic].
  destruct (String.eqb_spec (cluster_ns cluster) "") as [|Hns]; [apply keeps_ret|].
  apply keeps_bind; [by apply state_keeps|]. intros _. apply keeps_lift_bind. intros p Hp.
  pose proof (rolesFor_keeps cluster Hkind Hc Hns p) as H1. pose proof (bindingsFor_keeps cluster Hkind Hc Hns p) as H2.
  pose proof (namedRolesFor_keeps cluster Hkind Hc Hns p) as H3. pose proof (namedBindingsFor_keeps cluster Hkind Hc Hns p) as H4.
  pose proof (launcher_keeps cluster Hkind Hc Hns p Hp) as H5. unfold role_err, binding_err.
  unfold ensureRBACRoleForClusterAddons, ensureRBACRoleBindingForClusterAddons, ensureRBACRoleForClusterConstraints,
    ensureRBACRoleBindingForClusterConstraints, ensureRBACRoleForClusterRuleGroups, ensureRBACRoleBindingForClusterRuleGroups,
    ensureRBACRoleForEtcdBackupConfigs, ensureRBACRoleBindingForEtcdBackupConfigs, ensureRBACRoleForEtcdRestores,
    ensureRBACRoleBindingForEtcdRestores, ensureRBACRoleForClusterAlertmanagers, ensureRBACRoleBindingForClusterAlertmanagers,
    ensureRBACRoleForClusterAlertmanagerConfigSecrets, ensureRBACRoleBindingForClusterAlertmanagerConfigSecrets.
  repeat match goal with
  | |- keeps _ (rolesFor _ _ _ _ _) => apply H1
  | |- keeps _ (bindingsFor _ _ _ _ _) => apply H2
  | |- keeps _ (namedRolesFor _ _ _ _ _ _ _) => apply H3
  | |- keeps _ (namedBindingsFor _ _ _ _ _ _ _) => apply H4
  | |- keeps _ (ensureRBACForEtcdLauncher _ _ _) => apply H5
  | |- keeps _ (wrap _ _) => apply keeps_wrap
  | |- keeps _ (_ ≫= _) => apply keeps_bind; [|intros _]
  | |- keeps _ (if _ then mret _ else _) => destruct (negb _); [apply keeps_ret|]
  end.
Qed.

End of_cluster.

Lemma resource_keeps : ¬ concerns obj t k → keeps (entry_at t k) (resource_reconcile cli restMapping obj).
Proof using Type*.
  intros Hk. assert (¬ by_object obj t k ∧ ¬ by_cluster obj t k) as [Ho Hc] by (split; intros ?; apply Hk; by constructor).
  unfold resource_reconcile. apply keeps_bind; [by apply keeps_wrap, clusterScoped_keeps|intros _].
  apply keeps_bind; [by apply keeps_wrap, namespaceScoped_keeps|intros _]. by apply keeps_wrap, clusterResource_keeps.
Qed.
End run.
End frames.

Section sync.
Context {W : Type} (cli : RbacClients W) `{!RbacWorld cli} (restMapping : GroupVersionKind → M W GroupVersionResource).
Hypothesis restMapping_keeps : ∀ gvk, keeps rw_state (restMapping gvk).

(** The run of the controller for one cluster-scoped object of a project. *)
Lemma sync_run obj p w r w' : om_namespace (rso_meta obj) = "" → getProjectName (rso_meta obj) = Ok p →
  syncClusterScopedProjectResource cli restMapping obj w = (r, w') →
  ∃ troles tbindings,
    let s := rw_state w in
    let kind := gvk_kind (rso_gvk obj) in
    let n := om_name (rso_meta obj) in
    rw_state w' = with_clusterBindings tbindings (with_clusterRoles troles s) ∧
    (∀ k, (∀ g, g ∈ AllGroupsPrefixes → may_object p g kind ≠ [] → k ≠ role_key kind n p g) →
       troles !! k = st_clusterRoles s !! k ∧ tbindings !! k = st_clusterBindings s !! k) ∧
    (∀ u g, r = Ok u → g ∈ AllGroupsPrefixes → may_object p g kind ≠ [] →
       (∃ gvr w1 role, restMapping (rso_gvk obj) w = (Ok gvr, w1) ∧ troles !! role_key kind n p g = Some role ∧
          ro_rules role = [object_rule (gvr_resource gvr) n (may_object p g kind)]) ∧
       ∃ b, tbindings !! role_key kind n p g = Some b ∧
         has_subjects (generateClusterRBACRoleBindingNamedResource kind n (GenerateActualGroupNameFor p g)
                         (object_ref GroupVersion kind (rso_meta obj))) (st_clusterBindings s !! role_key kind n p g) b).
Proof.
  intros Hns Hp. unfold syncClusterScopedProjectResource. rewrite Hns, Hp. simpl. unfold getPluralResourceName.
  unfold mbind, M_MBind, M_bind. destruct (restMapping (rso_gvk obj) w) as [o w1] eqn:Em.
  pose proof (restMapping_keeps _ _ _ _ Em) as Es.
  assert (Hsame : rw_state w = with_clusterBindings (st_clusterBindings (rw_state w))
    (with_clusterRoles (st_clusterRoles (rw_state w)) (rw_state w))) by by destruct (rw_state w).
  destruct o as [gvr|e|m|]; cbn beta iota;
    [|intros [= <- <-]; eexists _, _; rewrite Es; (split; [exact Hsame|by split])..].
  unfold mret, M_MRet, M_ret, lift, wrap. cbn beta iota.
  destruct (ensureClusterRBACRoleForNamedResource _ _ _ _ _ w1) as [u w2] eqn:Er.
  destruct (named_roles _ _ _ _ _ _ _ _ Er) as (tr & Etr & Hfr & Hokr). rewrite Es in *.
  destruct u as [[]|e|m|];
    [|intros [= <- <-]; exists tr, (st_clusterBindings (rw_state w)); rewrite Etr; by split_and!; auto..].
  destruct (ensureClusterRBACRoleBindingForNamedResource _ _ _ _ _ w2) as [v w3] eqn:Eb.
  destruct (named_bindings _ _ _ _ _ _ _ _ Eb) as (tb & Etb & Hfb & Hokb). rewrite Etr in *.
  intros E. exists tr, tb. assert (w3 = w') as -> by (by destruct v; injection E). split; [done|]. split; [auto|].
  intros u g -> Hg Hv. destruct v; try done. split; [|eauto].
  destruct (Hokr tt g eq_refl Hg Hv) as (role & Hr & Hrules). exists gvr, w1, role. done.
Qed.

(** The steps of a run after the first leave the roles of a cluster-scoped object. *)
Lemma object_role_untouched obj p g t :
  om_namespace (rso_meta obj) = "" → (∀ c, rso_cluster obj = Some c → cl_meta c = rso_meta obj) → project_group g →
  ¬ by_cluster obj t (mkKey "" (object_role (gvk_kind (rso_gvk obj)) (om_name (rso_meta obj)) (group_of g p))).
Proof.
  intros Hns Hmeta Hg Hb. remember (mkKey "" _) as k eqn:Ek. destruct Hb as [t c name _ _ Hne _|c q Hkind Hc _|c kind n Hkind Hc Hn].
  - by injection Ek as ?.
  - injection Ek as Ek. rewrite Hkind in Ek. discriminate Ek.
  - injection Ek as Ek. rewrite Hkind in Ek. destruct Hn as [[-> ->]|[-> ->]]; [|discriminate Ek].
    unfold cl_name in Ek. rewrite (Hmeta c Hc) in Ek. unfold object_role in Ek. repeat apply append_inj_l in Ek.
    by destruct (group_not_launcher g p Hg).
Qed.

(** C6: after a successful run of the controller for a cluster-scoped object of a
    project, the binding [kubermatic:<kind>-<object>:<group>-<project>] of each group
    of the project gives exactly this group exactly the verbs of the table
    [object_verbs] on exactly this object of the resource that the API server's
    mapping names; for a group without verbs the role and the binding of that name
    are as they were.  A binding of that name that was there before is assumed to
    refer to the role of the same name: the code never looks at it. *)
Theorem sync_grants obj p gvr w w1 u w' :
  let kind := gvk_kind (rso_gvk obj) in
  let n := om_name (rso_meta obj) in
  let name := λ g, object_role kind n (group_of g p) in
  om_namespace (rso_meta obj) = "" → getProjectName (rso_meta obj) = Ok p →
  (∀ c, rso_cluster obj = Some c → cl_meta c = rso_meta obj) →
  restMapping (rso_gvk obj) w = (Ok gvr, w1) →
  (∀ g b, project_group g → st_clusterBindings (rw_state w) !! mkKey "" (name g) = Some b → rf_name (rb_roleRef b) = name g) →
  resource_reconcile cli restMapping obj w = (Ok u, w') →
  ∀ g, project_group g →
    (object_verbs g kind ≠ [] → ∀ subject apiGroup resource n' verb,
       allowed (rw_state w') (mkKey "" (name g)) subject apiGroup resource n' verb ↔
       subject = mkSubject "rbac.authorization.k8s.io" "Group" (group_of g p) "" ∧
       apiGroup = "kubermatic.k8c.io" ∧ resource = gvr_resource gvr ∧ n' = n ∧ verb ∈ object_verbs g kind) ∧
    (object_verbs g kind = [] → ∀ t, entry t (mkKey "" (name g)) (rw_state w') = entry t (mkKey "" (name g)) (rw_state w)).
Proof.
  intros kind n name Hns Hp Hmeta Hmap Href E g Hg. unfold resource_reconcile in E.
  apply bind_ok_inv in E as ([] & w2 & E%wrap_ok_inv & E2). apply bind_ok_inv in E2 as ([] & w3 & E2 & E3%wrap_ok_inv).
  assert (w3 = w2) as ->.
  { unfold syncNamespaceScopedProjectResource in E2. rewrite Hns in E2. apply wrap_ok_inv in E2. by injection E2 as <-. }
  assert (Hrest : ∀ t, entry t (mkKey "" (name g)) (rw_state w') = entry t (mkKey "" (name g)) (rw_state w2)).
  { intros t. eapply clusterResource_keeps; [exact restMapping_keeps| |exact E3]. by apply object_role_untouched. }
  destruct (sync_run _ _ _ _ _ Hns Hp E) as (tr & tb & Es & Hfr & Hok). fold kind n in Hfr, Hok.
  rewrite <- (may_object_table p g kind Hg). split.
  - intros Hv. destruct (Hok tt g eq_refl Hg Hv) as ((gvr' & w9 & role & Hmap' & Hr & Hrules) & b & Hb & Hs & Hkept).
    rewrite Hmap in Hmap'. injection Hmap' as <- _.
    assert (Hname : rf_name (rb_roleRef b) = name g).
    { unfold ref_kept in Hkept. rewrite Hkept. destruct (st_clusterBindings (rw_state w) !! _) as [o|] eqn:Eo; [by eapply Href|done]. }
    apply (allowed_exactly _ _ (group_subject (group_of g p)) b role); [| done | | exact Hrules].
    + specialize (Hrest TClusterBinding). simpl in Hrest. rewrite Es in Hrest. simpl in Hrest.
      change (mkKey "" (name g)) with (role_key kind n p g) in *. rewrite Hb in Hrest. simpl in Hrest.
      destruct (st_clusterBindings (rw_state w') !! _); [|done]. by injection Hrest as ->.
    + specialize (Hrest TClusterRole). simpl in Hrest. rewrite Es in Hrest. simpl in Hrest. rewrite Hname.
      change (mkKey "" (name g)) with (role_key kind n p g) in *. rewrite Hr in Hrest. simpl in Hrest.
      destruct (st_clusterRoles (rw_state w') !! _); [|done]. by injection Hrest as ->.
  - intros Hv t. rewrite Hrest, Es. destruct (Hfr (mkKey "" (name g))) as [H1 H2].
    { intros g' Hg' Hv' Ek. change (mkKey "" (name g)) with (role_key kind n p g) in Ek.
      apply role_key_inj in Ek; [|done..]. by subst. }
    destruct t; simpl; by rewrite ?H1, ?H2.
Qed.

(** Which roles of groups on objects can concern an object. *)
Lemma concerns_role obj t kind n p g :
  lacks dash (gvk_kind (rso_gvk obj)) = true → lacks colon (om_name (rso_meta obj)) = true →
  (∀ c, rso_cluster obj = Some c → cl_meta c = rso_meta obj) →
  lacks dash kind = true → lacks colon n = true → project_group g → cluster_wide t →
  concerns obj t (mkKey "" (object_role kind n (group_of g p))) →
  getProjectName (rso_meta obj) = Ok p ∧
  ((ToLower kind = ToLower (gvk_kind (rso_gvk obj)) ∧ n = om_name (rso_meta obj)) ∨
   (gvk_kind (rso_gvk obj) = "Cluster" ∧ t = TClusterRole ∧ g = "viewers" ∧
    ToLower kind = "configmap" ∧ n = ca_bundle_of (om_name (rso_meta obj)))).
Proof.
  intros Hdash Hcolon Hmeta Hkind Hn Hg Ht Hc.
  assert (Hinj : ∀ k' n' h h', lacks dash k' = true → lacks colon n' = true →
    object_role kind n h = object_role k' n' h' → ToLower kind = ToLower k' ∧ n = n' ∧ h = h')
    by (intros k' n' h h' Hk' Hn'; by apply role_name_inj).
  assert (Hca : ∀ c, rso_cluster obj = Some c → lacks colon (ca_bundle_of (cl_name c)) = true ∧ cl_name c = om_name (rso_meta obj)).
  { intros c Hcl. unfold cl_name. rewrite (Hmeta c Hcl). split; [|done]. unfold ca_bundle_of.
    rewrite !lacks_app, Hcolon. done. }
  remember (mkKey "" _) as k eqn:Ek. destruct Hc as [Hc|Hc]; revert Ht Ek;
    [destruct Hc as [t' q h _ Hp _ Hh|t' q h ns _ _ _ Hw _]|destruct Hc as [t' c nm _ _ _ Hw|c q Hcl Hc Hp|c k' n' Hcl Hc Hk']];
    intros Ht Ek.
  - apply (f_equal key_name) in Ek; cbn [key_name] in Ek. symmetry in Ek. apply Hinj in Ek as (E1 & E2 & E3); [|done..].
    destruct (group_inj p g q h Hg Hh E3) as [-> _]. auto.
  - by destruct Hw.
  - by destruct Hw.
  - destruct (Hca c Hc) as [Hlack Hname]. apply (f_equal key_name) in Ek; cbn [key_name] in Ek. symmetry in Ek. apply Hinj in Ek as (E1 & E2 & E3); [|done..].
    destruct (group_inj p g q "viewers" Hg ltac:(unfold project_group; set_solver) E3) as [-> ->].
    split; [done|]. right. rewrite <- Hname. done.
  - exfalso. destruct (Hca c Hc) as [Hlack Hname]. apply (f_equal key_name) in Ek; cbn [key_name] in Ek. symmetry in Ek.
    assert (E3 : group_of g p = "etcd-launcher").
    { destruct Hk' as [[-> ->]|[-> ->]]; apply Hinj in Ek as (_ & _ & E3); try done. by rewrite Hname. }
    by destruct (group_not_launcher g p Hg).
Qed.

(** Shared roles and bindings, one for all projects, concern no object. *)
Lemma concerns_not_shared obj t resource g :
  lacks dash (gvk_kind (rso_gvk obj)) = true → lacks colon (gvk_kind (rso_gvk obj)) = true →
  lacks dash resource = true → lacks colon resource = true → cluster_wide t →
  ¬ concerns obj t (mkKey "" ("kubermatic:" +:+ resource +:+ ":" +:+ g)).
Proof.
  intros Hdash Hcolon Hr Hrc Ht Hc.
  assert (Hne : ∀ kind n h, lacks dash kind = true → lacks colon kind = true → object_role kind n h ≠ "kubermatic:" +:+ resource +:+ ":" +:+ g).
  { intros kind n h Hk Hkc E. unfold object_role in E. apply append_inj_l in E.
    apply (first_separator (ToLower kind) resource (n +:+ ":" +:+ h) g); [by apply ToLower_lacks|by apply ToLower_lacks_colon|done..]. }
  remember (mkKey "" _) as k eqn:Ek. destruct Hc as [Hc|Hc]; revert Ht Ek;
    [destruct Hc as [t' q h _ Hp _ Hh|t' q h ns _ _ _ Hw _]|destruct Hc as [t' c nm _ _ _ Hw|c q Hcl Hc Hp|c k' n' Hcl Hc Hk']];
    intros Ht Ek; try (by destruct Hw); apply (f_equal key_name) in Ek; cbn [key_name] in Ek.
  - by apply (Hne _ _ _ Hdash Hcolon) in Ek.
  - by apply Hne in Ek.
  - destruct Hk' as [[-> ->]|[-> ->]]; by apply Hne in Ek.
Qed.

(** C18: whatever its outcome, a whole run of the controller for an object changes
    only entries that concern this object: the roles and bindings of the groups of
    its project on it; for a cluster also those in the cluster's own namespace, the
    viewers' role on its CA bundle and its etcd launcher's bindings.  So no role on
    another object, for another kind, or for a group of another project changes, and
    neither do the roles and bindings that all projects share. *)
Theorem sync_isolated obj w r w' :
  resource_reconcile cli restMapping obj w = (r, w') →
  (∀ t k, ¬ concerns obj t k → entry t k (rw_state w') = entry t k (rw_state w)) ∧
  (lacks dash (gvk_kind (rso_gvk obj)) = true → lacks colon (gvk_kind (rso_gvk obj)) = true →
   lacks colon (om_name (rso_meta obj)) = true → (∀ c, rso_cluster obj = Some c → cl_meta c = rso_meta obj) →
   (∀ t kind n p g, lacks dash kind = true → lacks colon n = true → project_group g → cluster_wide t →
      getProjectName (rso_meta obj) ≠ Ok p ∨
      (ToLower kind ≠ ToLower (gvk_kind (rso_gvk obj)) ∨ n ≠ om_name (rso_meta obj)) ∧
      (ToLower kind ≠ "configmap" ∨ n ≠ ca_bundle_of (om_name (rso_meta obj))) →
      let k := mkKey "" (object_role kind n (group_of g p)) in
      entry t k (rw_state w') = entry t k (rw_state w)) ∧
   ∀ t resource g, lacks dash resource = true → lacks colon resource = true → cluster_wide t →
     let k := mkKey "" ("kubermatic:" +:+ resource +:+ ":" +:+ g) in
     entry t k (rw_state w') = entry t k (rw_state w)).
Proof.
  intros E. assert (Hkeep : ∀ t k, ¬ concerns obj t k → entry t k (rw_state w') = entry t k (rw_state w)).
  { intros t k Hk. eapply resource_keeps; [exact restMapping_keeps|exact Hk|exact E]. }
  split; [exact Hkeep|]. intros Hdash Hkc Hcolon Hmeta. split.
  - intros t kind n p g Hkind Hn Hg Ht Hother k. apply Hkeep. intros Hc.
    destruct (concerns_role obj t kind n p g) as [Hp Hcase]; try done. naive_solver.
  - intros t resource g Hr Hrc Ht k. apply Hkeep. by apply concerns_not_shared.
Qed.
End sync.

(** ** Shared bindings *)

Section shared.
Context {W : Type} (cli : RbacClients W) `{!RbacWorld cli}.

Definition subjects_at (s : RbacState) (k : NamespacedName) : list Subject :=
  match st_clusterBindings s !! k with Some b => rb_subjects b | None => [] end.

Lemma remaining_added subjects group resource :
  let gen := generateClusterRBACRoleBindingForResource resource group in
  ∀ o b, rb_subjects o = subjects → rb_subjects b = subjects ++ subjectsToAdd o gen →
  remainingSubjects b gen = List.filter (λ s, negb (bool_decide (s = group_subject group))) subjects ∧
  group_subject group ∈ rb_subjects b.
Proof.
  intros gen o b Ho Hb. unfold remainingSubjects, subjectsToAdd in *. simpl in *. rewrite Hb, Ho, List.filter_app. split.
  - rewrite <- (app_nil_r (List.filter (λ s, negb (bool_decide (s = group_subject group))) subjects)). f_equal.
    + apply List.filter_ext. intros s. by rewrite orb_false_r.
    + destruct (existsb _ subjects); simpl; [done|]. by rewrite bool_decide_eq_true_2.
  - destruct (existsb _ subjects) eqn:E; simpl; [|set_solver].
    apply existsb_true_iff in E as (x & Hx & Hd%bool_decide_eq_true). subst. set_solver.
Qed.

(** C38: adding the group of a project to a binding that all projects share keeps the
    groups of the others, and removing it again leaves exactly these, in their order;
    no other binding changes. *)
Theorem shared_binding_roundtrip group resource w u w1 v w2 :
  ensureClusterRBACRoleBindingForResource cli group resource w = (Ok u, w1) →
  cleanUpClusterRBACRoleBindingFor cli group resource w1 = (Ok v, w2) →
  let k := mkKey "" (generateRBACRoleNameForResources resource group) in
  group_subject group ∈ subjects_at (rw_state w1) k ∧
  (∀ s, s ∈ subjects_at (rw_state w) k → s ∈ subjects_at (rw_state w1) k) ∧
  subjects_at (rw_state w2) k = List.filter (λ s, negb (bool_decide (s = group_subject group))) (subjects_at (rw_state w) k) ∧
  ∀ k', k' ≠ k → st_clusterBindings (rw_state w2) !! k' = st_clusterBindings (rw_state w) !! k'.
Proof.
  intros E1 E2 k. set (gen := generateClusterRBACRoleBindingForResource resource group) in *.
  assert (Hadd : touches rw_state st_clusterBindings with_clusterBindings k (has_added gen)
            (ensureClusterRBACRoleBindingForResource cli group resource)) by (apply addSubjects_touches; [apply _|done]).
  assert (Hrem : touches rw_state st_clusterBindings with_clusterBindings k (has_removed gen)
            (cleanUpClusterRBACRoleBindingFor cli group resource)) by (apply removeSubjects_touches; apply _).
  destruct (Hadd _ _ _ E1) as (t1 & Es1 & Hf1 & Hok1), (Hrem _ _ _ E2) as (t2 & Es2 & Hf2 & Hok2).
  destruct (Hok1 u eq_refl) as (b1 & Hb1 & Hs1 & _), (Hok2 v eq_refl) as (b2 & Hb2 & o & Ho & Hs2 & _).
  rewrite Es1 in Hf2, Ho, Es2. simpl in Hf2, Ho. assert (o = b1) as -> by congruence.
  unfold subjects_at. rewrite Es2, Es1. simpl. rewrite Hb1, Hb2, Hs2.
  set (old := match st_clusterBindings (rw_state w) !! k with Some b => rb_subjects b | None => [] end).
  destruct (remaining_added old group resource
    (match st_clusterBindings (rw_state w) !! k with Some b => b | None => set_subjects [] gen end) b1) as [Hrest Hin].
  { unfold old. by destruct (st_clusterBindings (rw_state w) !! k). }
  { rewrite Hs1. unfold old. by destruct (st_clusterBindings (rw_state w) !! k). }
  split; [done|]. split; [|split; [done|]].
  - rewrite Hs1. unfold old. destruct (st_clusterBindings (rw_state w) !! k); [set_solver|]. by intros s ?%elem_of_nil.
  - intros k' Hk'. by rewrite Hf2, Hf1.
Qed.

(** A binding that is missing cannot be cleaned up. *)
Lemma cleanup_needs_binding group resource w u w' :
  cleanUpClusterRBACRoleBindingFor cli group resource w = (Ok u, w') →
  is_Some (st_clusterBindings (rw_state w) !! mkKey "" (generateRBACRoleNameForResources resource group)).
Proof.
  intros E. assert (Hrem : touches rw_state st_clusterBindings with_clusterBindings _ _
    (cleanUpClusterRBACRoleBindingFor cli group resource)) by (apply removeSubjects_touches; apply _).
  destruct (Hrem _ _ _ E) as (t & _ & _ & Hok). destruct (Hok u eq_refl) as (b & _ & o & Ho & _). by exists o.
Qed.

(** ** Roles in namespaces *)

(** A loop that its first body ends. *)
Lemma while_groups_stops (body : string → M W bool) g rest w r w' :
  (∀ r w', body g w = (r, w') → rw_state w' = rw_state w ∧ r ≠ Ok true ∧ ∀ e, r ≠ Err e) →
  while_groups body (g :: rest) w = (r, w') → rw_state w' = rw_state w ∧ ∀ e, r ≠ Err e.
Proof.
  intros Hb. simpl. unfold mbind, M_MBind, M_bind. destruct (body g w) as [o w1] eqn:E. destruct (Hb _ _ eq_refl) as (Es & Ht & He).
  destruct o as [[]|e|m|]; [done|by intros [= <- <-]|by destruct (He e)|by intros [= <- <-]..].
Qed.

(** For objects in namespaces the controller looks for existing roles under a key
    without namespace.  Once the role of the owners exists, a run changes nothing (no
    missing role is created, no wrong rule repaired), and it reports no error. *)
Theorem namespaced_roles_stuck p res gvk ns object old w r w' :
  gvk_kind gvk = secretV1Kind → secretsNamespace ns = true →
  st_roles (rw_state w) !! mkKey ns (role_name secretV1Kind (om_name object) p OwnerGroupNamePrefix) = Some old →
  st_roles (rw_state w) !! role_key secretV1Kind (om_name object) p OwnerGroupNamePrefix = None →
  ensureRBACRoleForNamedResource cli p res gvk ns object w = (r, w') →
  rw_state w' = rw_state w ∧ ∀ e, r ≠ Err e.
Proof.
  intros Hkind Hns Hold Hnone.
  assert (Hgen : ∃ role, shouldSkipRBACRoleBindingForNamedResource p res gvk OwnerGroupNamePrefix ns object = Ok (Some role) ∧
    ro_meta role = generated_meta (role_name secretV1Kind (om_name object) p OwnerGroupNamePrefix) ns
                     [object_ref (gvk_groupVersion gvk) secretV1Kind object]).
  { unfold shouldSkipRBACRoleBindingForNamedResource, generateRBACRoleNamedResource, generateVerbsForNamedResourceInNamespace,
      verbsForSecrets. rewrite Hkind, Hns. by eexists. }
  destruct Hgen as (role & Hgen & Hmeta). apply while_groups_stops. rewrite Hgen. clear r w'. intros r w'.
  unfold mbind, M_MBind, M_bind, lift, try. rewrite Hmeta. cbn beta iota.
  destruct (c_get (rc_roles cli) _ w) as [o w1] eqn:Eg. destruct (sl_get _ _ _ _ Eg) as (Es & Hok & _).
  destruct o as [x|e|m|]; [by pose proof (eq_trans (eq_sym Hnone) (Hok x eq_refl))| |by intros [= <- <-]..]. cbn beta iota.
  destruct (IsNotFound e); [|by intros [= <- <-]].
  destruct (c_create (rc_roles cli) role w1) as [x w2] eqn:Ec.
  destruct (sl_create _ _ _ _ Ec) as [[Es2 Hno]|[Hnone2 _]].
  - rewrite Es in Es2. destruct x as [x|e'|m|]; [by destruct (Hno x)|by intros [= <- <-]..].
  - exfalso. rewrite Es in Hnone2. unfold object_key in Hnone2. simpl in Hnone2. rewrite Hmeta in Hnone2. simpl in Hnone2. congruence.
Qed.
End shared.
