(* ===== verification/Helper.v ===== *)
(** * Cluster status helpers

    [pkg/apis/kubermatic/v1/helper/helper.go]. *)

From S2P Require Import Prelude Kube Semver ClusterApi.

(** [pkg/version/kubermatic.Versions]: build-time versions; the helpers use the commit. *)
Record Versions := mkVersions {
  KubermaticCommit : string;
  Kubermatic : string;
  UI : string;
  VPA : string;
  Envoy : string;
  KubermaticEdition : string;
}.

(** [reconcile.Result]. *)
Record Result := mkResult { Requeue : bool; RequeueAfter : Z }.
Definition emptyResult : Result := mkResult false 0.

#[global] Instance Result_eq_dec : EqDecision Result.
Proof. solve_decision. Defined.

(** A Go reconcile function returns a result and an error, both possibly nil. *)
Definition Reconciled : Type := option Result * option error.

Definition reconciled {W} (m : M W (option Result)) : M W Reconciled :=
  r ← try m;
  mret (match r with inl e => (None, Some e) | inr res => (res, None) end).

(** [kerrors.NewAggregate]: nil entries are dropped, an empty list is nil. *)
Definition NewAggregate (errs : list (option error)) : option error :=
  match omap id errs with [] => None | es => Some (ErrAggregate es) end.

Definition uniqueVersion (v : Versions) : string := KubermaticCommit v.

(** ** Conditions *)

Definition set_condition (conditionType : string) (cond : ClusterCondition) (c : Cluster) : Cluster :=
  set_cl_status (set_conditions (<[conditionType := cond]> (cs_conditions (cl_status c))) (cl_status c)) c.

(** The comparison of [SetClusterCondition] resets the times of the old
    condition; the new one has not got any yet. *)
Definition SetClusterCondition {W} (now : W → Z * W) (v : Versions)
    (conditionType status reason message : string) (c : Cluster) : M W Cluster :=
  let newCondition := mkClusterCondition status (uniqueVersion v) 0 0 reason message in
  let oldCondition := cs_conditions (cl_status c) !! conditionType in
  let unchanged :=
    match oldCondition with
    | None => false
    | Some old =>
        bool_decide (mkClusterCondition (cc_status old) (cc_kubermaticVersion old) 0 0
                       (cc_reason old) (cc_message old) = newCondition)
    end in
  if unchanged then mret c else
  now ← read now;
  let lastTransition :=
    match oldCondition with
    | None => 0
    | Some old => if String.eqb (cc_status old) status then cc_lastTransitionTime old else now
    end in
  mret (set_condition conditionType
          (mkClusterCondition status (uniqueVersion v) now lastTransition reason message) c).

Definition conditionTypeListHasConditionType (list : list string) (t : string) : bool :=
  existsb (λ item, String.eqb item t) list.

Definition clusterHasCurrentSuccessfullConditionType (cluster : Cluster) (versions : Versions)
    (conditionType : string) (ignoreKubermaticVersion : bool) : bool :=
  match cs_conditions (cl_status cluster) !! conditionType with
  | None => false
  | Some condition =>
      if negb (String.eqb (cc_status condition) ConditionTrue) then false
      else if negb ignoreKubermaticVersion &&
              negb (String.eqb (cc_kubermaticVersion condition) (uniqueVersion versions)) then false
      else true
  end.

Definition ClusterReconciliationSuccessful (cluster : Cluster) (versions : Versions)
    (ignoreKubermaticVersion : bool) : list string * bool :=
  let conditionsToExclude := [ClusterConditionSeedResourcesUpToDate] in
  let missingConditions :=
    List.filter (λ t, negb (conditionTypeListHasConditionType conditionsToExclude t) &&
      negb (clusterHasCurrentSuccessfullConditionType cluster versions t ignoreKubermaticVersion))
      AllClusterConditionTypes in
  (missingConditions, bool_decide (length missingConditions = 0%nat)).

Definition IsClusterInitialized (cluster : Cluster) (versions : Versions) : bool :=
  let isInitialized := HasConditionValue (cl_status cluster) ClusterConditionClusterInitialized ConditionTrue in
  if isInitialized then true else
  let '(_, success) := ClusterReconciliationSuccessful cluster versions false in
  let upToDate := HasConditionValue (cl_status cluster) ClusterConditionSeedResourcesUpToDate ConditionTrue in
  success && upToDate && AllHealthy (cs_extendedHealth (cl_status cluster)).

Definition GetHealthStatus (status : string) (cluster : Cluster) (versions : Versions) : string :=
  if String.eqb status HealthStatusDown && negb (IsClusterInitialized cluster versions)
  then HealthStatusProvisioning else status.

Definition CCMMigrationCompleted (cluster : Cluster) : bool :=
  HasConditionValue (cl_status cluster) ClusterConditionCSIKubeletMigrationCompleted ConditionTrue.

Definition NeedCCMMigration (cluster : Cluster) : bool :=
  let a := om_annotations (cl_meta cluster) in
  bool_decide (is_Some (a !! CCMMigrationNeededAnnotation)) &&
  bool_decide (is_Some (a !! CSIMigrationNeededAnnotation)) &&
  negb (CCMMigrationCompleted cluster).

(** ** Status updates and the reconcile wrapper *)
Section updates.
Context {W : Type} `{SemverLib} (client : Client W Cluster) (retry : Retry W) (now : W → Z * W).

Definition UpdateClusterStatus (cluster : Cluster) (patch : Cluster → M W Cluster) : M W Cluster :=
  RetryOnConflict retry (
    cluster ← c_get client (object_key cluster);
    original ← lift (Cluster_DeepCopy cluster);
    cluster ← patch cluster;
    if bool_decide (cl_status original = cl_status cluster) then mret cluster
    else c_status_patch client original cluster).

Definition ClusterReconcileWrapper (workerName : string) (cluster : Cluster) (versions : Versions)
    (conditionType : string) (reconcile : M W Reconciled) : M W Reconciled :=
  if negb (String.eqb (map_str (om_labels (cl_meta cluster)) WorkerNameLabelKey) workerName)
  then mret (None, None) else
  if sp_pause (cl_spec cluster) then mret (None, None) else
  '(result, err) ← reconcile;
  let reconcilingStatus :=
    match err, result with
    | None, None => ConditionTrue
    | None, Some r => if negb (Requeue r) && (RequeueAfter r =? 0) then ConditionTrue else ConditionFalse
    | Some _, _ => ConditionFalse
    end in
  if String.eqb conditionType ClusterConditionNone
  then mret (result, NewAggregate [err]) else
  r ← try (UpdateClusterStatus cluster
             (SetClusterCondition now versions conditionType reconcilingStatus "" ""));
  let errs := match r with
              | inl e => if IsNotFound e then [err] else [err; Some e]
              | inr _ => [err]
              end in
  mret (result, NewAggregate errs).
End updates.
