(* ===== verification/HelperSpec.v ===== *)
(** * Clusters in the store, conditions and the reconcile wrapper

    What a status update leaves in the store, the behaviour of conditions, and
    when the wrapper runs a controller at all. *)

From S2P Require Import Prelude Kube Semver ClusterApi Helper.

(** ** The API server for clusters *)

(** A field of a JSON merge patch: sent, and written, only when it differs from
    the base of the patch. *)
Definition merge1 {A} `{EqDecision A} (old new stored : A) : A :=
  if decide (old = new) then stored else new.

Definition merge_versions (old new stored : ClusterVersionsStatus) : ClusterVersionsStatus :=
  mkClusterVersionsStatus
    (merge1 (cv_controlPlane old) (cv_controlPlane new) (cv_controlPlane stored))
    (merge1 (cv_apiserver old) (cv_apiserver new) (cv_apiserver stored))
    (merge1 (cv_controllerManager old) (cv_controllerManager new) (cv_controllerManager stored))
    (merge1 (cv_scheduler old) (cv_scheduler new) (cv_scheduler stored))
    (merge1 (cv_oldestNodeVersion old) (cv_oldestNodeVersion new) (cv_oldestNodeVersion stored)).

Definition wire_cluster_condition `{WireTime} (c : ClusterCondition) : ClusterCondition :=
  mkClusterCondition (cc_status c) (cc_kubermaticVersion c) (wire_time (cc_lastHeartbeatTime c))
    (wire_time (cc_lastTransitionTime c)) (cc_reason c) (cc_message c).

(** The status that is stored when a patch whose base is the stored object's copy
    [old] is applied. *)
Definition patched_status `{WireTime} (old new stored : Cluster) : ClusterStatus :=
  let s := cl_status new in
  set_conditions (wire_cluster_condition <$> cs_conditions s)
    (set_versions (merge_versions (cs_versions (cl_status old)) (cs_versions s)
       (cs_versions (cl_status stored))) s).

Definition stored_cluster `{WireTime} (rv : string) (old new stored : Cluster) : Cluster :=
  mkCluster (set_resourceVersion rv (cl_meta stored)) (cl_spec stored) (patched_status old new stored)
    (cl_address stored) (cl_typeMeta stored).

(** [cview k w] is the cluster stored under [k].  Reads return it; a status patch
    whose base is a copy of it writes the status and nothing else, also when the
    call fails with anything but a conflict. *)
Class ClusterWorld {W} `{SemverLib, WireTime} (client : Client W Cluster) := {
  cview : NamespacedName → W → option Cluster;
  cview_get : ∀ k key, keeps (cview k) (c_get client key);
  cview_get_ok : ∀ k w o w', c_get client k w = (Ok o, w') → cview k w = Some o;
  cview_key : ∀ k w o, cview k w = Some o → object_key o = k;
  cview_found : ∀ k w o e w', cview k w = Some o → c_get client k w = (Err e, w') → IsNotFound e = false;
  cview_status_patch : ∀ old new stored w r w',
    cview (object_key new) w = Some stored → Cluster_DeepCopy stored = Ok old →
    c_status_patch client old new w = (r, w') →
    (∀ e, r = Err e → IsNotFound e = false) ∧
    ((cview (object_key new) w' = cview (object_key new) w ∧ ∀ x, r ≠ Ok x) ∨
     ∃ rv, cview (object_key new) w' = Some (stored_cluster rv old new stored) ∧
       (∀ x, r = Ok x → x = stored_cluster rv old new stored) ∧
       (∀ e, r = Err e → IsConflict e = false));
}.
#[export] Hint Resolve cview_get : kkp_frame.

(** A function that changes nothing but the status, and does not fail. *)
Definition status_only {W} (patch : Cluster → M W Cluster) : Prop :=
  ∀ c w r w', patch c w = (r, w') →
    (∀ e, r ≠ Err e) ∧ ∀ c', r = Ok c' → cl_meta c' = cl_meta c ∧ cl_spec c' = cl_spec c.

Lemma object_key_meta (c c' : Cluster) : cl_meta c' = cl_meta c → object_key c' = object_key c.
Proof. unfold object_key. simpl. by intros ->. Qed.

(** Copying a cluster may panic in theory, it never returns an error. *)
Lemma Semver_DeepCopy_no_error `{SemverLib} s e : Semver_DeepCopy s ≠ Err e.
Proof.
  unfold Semver_DeepCopy, NewSemverOrDie, NewSemver, Semver_Set.
  destruct (Semver_Semver (Some s)); [|done]. by destruct (NewVersion _).
Qed.

Lemma DeepCopy_no_error `{SemverLib} c e : Cluster_DeepCopy c ≠ Err e.
Proof.
  assert (Hs : ∀ {A} s (k : _ → outcome A), (∀ x, k x ≠ Err e) → (Semver_DeepCopy s ≫= k) ≠ Err e).
  { intros A s k Hk. destruct (Semver_DeepCopy s) eqn:E; simpl; auto.
    by destruct (Semver_DeepCopy_no_error s e0). }
  unfold Cluster_DeepCopy, Versions_DeepCopy. apply Hs. intros v.
  destruct (cl_status c) as [? ? ? ? [cp api cm sched oldest]]. simpl.
  destruct (Semver_DeepCopy cp) eqn:E1; simpl; auto; [|by destruct (Semver_DeepCopy_no_error cp e0)].
  destruct (Semver_DeepCopy api) eqn:E2; simpl; auto; [|by destruct (Semver_DeepCopy_no_error api e0)].
  destruct (Semver_DeepCopy cm) eqn:E3; simpl; auto; [|by destruct (Semver_DeepCopy_no_error cm e0)].
  destruct (Semver_DeepCopy sched) eqn:E4; simpl; auto; [|by destruct (Semver_DeepCopy_no_error sched e0)].
  destruct oldest as [o|]; simpl; [|done].
  destruct (Semver_DeepCopy o) eqn:E5; simpl; auto. by destruct (Semver_DeepCopy_no_error o e0).
Qed.

Section updates.
Context {W : Type} `{SemverLib, WireTime} (client : Client W Cluster) `{!ClusterWorld client} (retry : Retry W).

(** How a status update ends: nothing written, or the patched status. *)
Inductive updated (k : NamespacedName) (patch : Cluster → M W Cluster) (v : Cluster)
    (r : outcome Cluster) (w' : W) : Prop :=
| updated_same :
    cview k w' = Some v →
    (∀ x, r = Ok x → ∃ old w1 w2, Cluster_DeepCopy v = Ok old ∧ patch v w1 = (Ok x, w2) ∧
                       cl_status old = cl_status x) →
    updated k patch v r w'
| updated_written rv old c w1 w2 :
    Cluster_DeepCopy v = Ok old → patch v w1 = (Ok c, w2) → cl_status old ≠ cl_status c →
    cview k w' = Some (stored_cluster rv old c v) →
    (∀ x, r = Ok x → x = stored_cluster rv old c v) →
    updated k patch v r w'.

Lemma UpdateClusterStatus_inv k patch c v w r w' :
  (∀ c, keeps (cview k) (patch c)) → status_only patch →
  object_key c = k → cview k w = Some v →
  UpdateClusterStatus client retry c patch w = (r, w') →
  updated k patch v r w' ∧ ∀ e, r = Err e → IsNotFound e = false.
Proof.
  intros Hkeep Hso Hk Hv E.
  unfold UpdateClusterStatus in E. rewrite Hk in E. apply retry_last in E as (w0 & E & HP).
  match type of E with ?f w0 = _ => set (body := f) in * end.
  assert (Hbody : ∀ w1 r1 w2, cview k w1 = Some v → body w1 = (r1, w2) →
    (updated k patch v r1 w2 ∧ ∀ e, r1 = Err e → IsNotFound e = false) ∧
    (∀ e, r1 = Err e → IsConflict e = true → cview k w2 = Some v)).
  { clear -Hkeep Hso ClusterWorld0. intros w1 r1 w2 Hv. unfold body, mbind, M_MBind, M_bind.
    destruct (c_get client k w1) as [o w3] eqn:Eg.
    pose proof (cview_get k _ _ _ _ Eg) as Hw3. rewrite Hv in Hw3.
    assert (Hsame : ∀ r w, cview k w = Some v → (∀ x, r ≠ Ok x) → updated k patch v r w).
    { intros r w Hw Hr. apply updated_same; [done|]. intros x Hx. by destruct (Hr x). }
    destruct o as [o|e|p|]; try (intros [= <- <-]; split; [split; [by apply Hsame|done]|done]).
    2: { intros [= <- <-]. split; [split; [by apply Hsame|]|done].
         intros e' [= <-]. exact (cview_found _ _ _ _ _ Hv Eg). }
    apply cview_get_ok in Eg. rewrite Hv in Eg. injection Eg as <-. unfold lift.
    destruct (Cluster_DeepCopy v) as [old| | |] eqn:Ed;
      try (intros [= <- <-]; split; [split; [by apply Hsame|done]|done]).
    2: { by apply DeepCopy_no_error in Ed. }
    destruct (patch v w3) as [o w4] eqn:Ep.
    pose proof (Hkeep _ _ _ _ Ep) as Hw4. rewrite Hw3 in Hw4.
    destruct (Hso _ _ _ _ Ep) as [Hne Hmeta].
    destruct o as [c1|e|p|]; try (intros [= <- <-]; split; [split; [by apply Hsame|done]|done]).
    2: { by destruct (Hne e). }
    case_bool_decide as Hst.
    - intros [= <- <-]. split; [split; [|done]|done]. apply updated_same; [done|].
      intros x [= <-]. by exists old, w3, w4.
    - intros Es. destruct (Hmeta _ eq_refl) as [Hm _].
      assert (Hkc : object_key c1 = k).
      { rewrite (object_key_meta _ _ Hm). by eapply cview_key. }
      apply (cview_status_patch old c1 v) in Es; [|by rewrite Hkc|done]. rewrite Hkc in Es.
      destruct Es as [Hnf [[Hw Hr]|(rv & Hw & Hr & He)]].
      + split; [split; [apply Hsame; [by rewrite Hw|done]|done]|]. intros. by rewrite Hw.
      + split; [split; [by eapply updated_written|done]|]. intros e -> Hc. by rewrite (He e) in Hc. }
  eapply Hbody; [|exact E]. apply (HP (λ w, cview k w = Some v)); [|done].
  intros w1 e w2 Hv1 Eb Hc. by eapply Hbody.
Qed.
End updates.

(** ** Conditions *)
Section conditions.
Context {W : Type} (now : W → Z * W) (versions : Versions).

Lemma SetClusterCondition_cases t s r m c w :
  let old := cs_conditions (cl_status c) !! t in
  (∃ o, old = Some o ∧ cc_status o = s ∧ cc_kubermaticVersion o = uniqueVersion versions ∧
     cc_reason o = r ∧ cc_message o = m ∧ SetClusterCondition now versions t s r m c w = (Ok c, w)) ∨
  (∃ time w', now w = (time, w') ∧
     SetClusterCondition now versions t s r m c w =
       (Ok (set_condition t (mkClusterCondition s (uniqueVersion versions) time
          (match old with
           | None => 0
           | Some o => if String.eqb (cc_status o) s then cc_lastTransitionTime o else time
           end) r m) c), w')).
Proof.
  cbn zeta. unfold SetClusterCondition.
  assert (Hset : ∃ time w', now w = (time, w')) by (destruct (now w); eauto).
  destruct Hset as (time & w' & Hn).
  destruct (cs_conditions (cl_status c) !! t) as [o|] eqn:Eo.
  - case_bool_decide as Hb.
    + left. exists o. injection Hb as ? ? ? ?. done.
    + right. exists time, w'. unfold mbind, M_MBind, M_bind, read. by rewrite Hn.
  - right. exists time, w'. unfold mbind, M_MBind, M_bind, read. by rewrite Hn.
Qed.

Lemma SetClusterCondition_total t s r m c w :
  ∃ c' w', SetClusterCondition now versions t s r m c w = (Ok c', w').
Proof. destruct (SetClusterCondition_cases t s r m c w) as [(? & _ & _ & _ & _ & _ & ->)|(? & ? & _ & ->)]; eauto. Qed.

Lemma SetClusterCondition_status_only t s r m : status_only (SetClusterCondition now versions t s r m).
Proof.
  intros c w o w' E.
  destruct (SetClusterCondition_cases t s r m c w) as [(? & _ & _ & _ & _ & _ & E')|(? & ? & _ & E')];
    rewrite E in E'; injection E' as -> ->; (split; [done|]); intros ? [= <-]; done.
Qed.

(** Setting a condition leaves a condition with the given content. *)
Lemma SetClusterCondition_set t s r m c w c' w' :
  SetClusterCondition now versions t s r m c w = (Ok c', w') →
  ∃ cond, cs_conditions (cl_status c') !! t = Some cond ∧ cc_status cond = s ∧
    cc_kubermaticVersion cond = uniqueVersion versions ∧ cc_reason cond = r ∧ cc_message cond = m.
Proof.
  intros E. destruct (SetClusterCondition_cases t s r m c w)
    as [(o & Ho & ? & ? & ? & ? & E')|(time & w1 & _ & E')]; rewrite E in E'; injection E' as -> ->.
  - by exists o.
  - eexists. split; [simpl; apply lookup_insert_eq|done].
Qed.

(** Setting a condition changes that condition only; its transition time
    moves to the current time exactly when an existing condition changes its
    status; and setting the same content again changes nothing, not even the
    heartbeat, so that the second status update needs no API call. *)
Theorem SetClusterCondition_spec t s r m c w c' w' :
  SetClusterCondition now versions t s r m c w = (Ok c', w') →
  (∀ t', t' ≠ t → cs_conditions (cl_status c') !! t' = cs_conditions (cl_status c) !! t') ∧
  set_conditions (cs_conditions (cl_status c)) (cl_status c') = cl_status c ∧
  (∀ cond cond', cs_conditions (cl_status c) !! t = Some cond →
     cs_conditions (cl_status c') !! t = Some cond' →
     cc_status cond' = s ∧
     cc_lastTransitionTime cond' =
       if String.eqb (cc_status cond) s then cc_lastTransitionTime cond else (now w).1) ∧
  (∀ w2, SetClusterCondition now versions t s r m c' w2 = (Ok c', w2)).
Proof.
  intros E. pose proof (SetClusterCondition_set _ _ _ _ _ _ _ _ E) as (nc & Hnc & Hs & Hv & Hr & Hm).
  assert (Hidem : ∀ w2, SetClusterCondition now versions t s r m c' w2 = (Ok c', w2)).
  { intros w2. unfold SetClusterCondition. rewrite Hnc, Hs, Hv, Hr, Hm. by rewrite bool_decide_true. }
  destruct (SetClusterCondition_cases t s r m c w)
    as [(o & Ho & Hos & _ & _ & _ & E')|(time & w1 & Hn & E')]; rewrite E in E'; injection E' as -> ->.
  - split_and!; [done|by destruct (cl_status c)| |done].
    intros cond cond' H1 H2. assert (cond = o) as -> by congruence. assert (cond' = o) as -> by congruence.
    split; [done|]. by rewrite Hos, String.eqb_refl.
  - simpl in *. split_and!; [|by destruct (cl_status c)| |done].
    + intros t' Ht. by apply lookup_insert_ne.
    + intros cond cond' H1 H2. rewrite lookup_insert_eq in H2. injection H2 as <-. simpl.
      split; [done|]. rewrite H1, Hn. done.
Qed.

(** A cluster counts as successfully reconciled by this version of KKP
    exactly when every registered controller condition but the one about seed
    resources is true and was set by this version. *)
Theorem ClusterReconciliationSuccessful_spec c :
  (ClusterReconciliationSuccessful c versions false).2 = true ↔
  ∀ t, t ∈ AllClusterConditionTypes → t ≠ ClusterConditionSeedResourcesUpToDate →
    ∃ cond, cs_conditions (cl_status c) !! t = Some cond ∧ cc_status cond = ConditionTrue ∧
      cc_kubermaticVersion cond = uniqueVersion versions.
Proof.
  set (test := λ t, negb (conditionTypeListHasConditionType [ClusterConditionSeedResourcesUpToDate] t) &&
    negb (clusterHasCurrentSuccessfullConditionType c versions t false)).
  assert (Hlen : ∀ l, length (List.filter test l) = 0%nat ↔ ∀ t, t ∈ l → test t = false).
  { induction l as [|t l IH]; [set_solver|]. simpl. destruct (test t) eqn:Et; simpl.
    - split; [done|]. intros Hall. rewrite (Hall t) in Et by set_solver. done.
    - rewrite IH. set_solver. }
  change (ClusterReconciliationSuccessful c versions false).2 with
    (bool_decide (length (List.filter test AllClusterConditionTypes) = 0%nat)).
  rewrite bool_decide_eq_true, Hlen.
  assert (Htest : ∀ t, test t = false ↔ (t ≠ ClusterConditionSeedResourcesUpToDate →
    ∃ cond, cs_conditions (cl_status c) !! t = Some cond ∧ cc_status cond = ConditionTrue ∧
      cc_kubermaticVersion cond = uniqueVersion versions)).
  { intros t. unfold test, conditionTypeListHasConditionType. cbn [existsb]. rewrite orb_false_r.
    destruct (String.eqb_spec ClusterConditionSeedResourcesUpToDate t) as [<-|Hne]; [done|].
    cbn [negb]. rewrite andb_true_l, negb_false_iff.
    unfold clusterHasCurrentSuccessfullConditionType.
    destruct (cs_conditions (cl_status c) !! t) as [cond|].
    - destruct (String.eqb_spec (cc_status cond) ConditionTrue); cbn [negb andb].
      + destruct (String.eqb_spec (cc_kubermaticVersion cond) (uniqueVersion versions)); cbn [negb].
        * split; [by eauto|done].
        * split; [done|]. intros Hx. destruct Hx as (? & [= <-] & _ & ?); done.
      + split; [done|]. intros Hx. destruct Hx as (? & [= <-] & ? & _); done.
    - split; [done|]. intros Hx. by destruct Hx as (? & [=] & _). }
  split.
  - intros Hall t Ht. apply Htest. by apply Hall.
  - intros Hall t Ht. apply Htest. by apply Hall.
Qed.
End conditions.

(** ** The reconcile wrapper *)
Section wrapper.
Context {W : Type} `{SemverLib, WireTime} (client : Client W Cluster) `{!ClusterWorld client} (retry : Retry W)
  (now : W → Z * W).

(** The wrapper never runs a controller on a paused cluster or on one that
    belongs to another worker, and then touches nothing. *)
Theorem wrapper_skips workerName c versions t reconcile w :
  sp_pause (cl_spec c) = true ∨ map_str (om_labels (cl_meta c)) WorkerNameLabelKey ≠ workerName →
  ClusterReconcileWrapper client retry now workerName c versions t reconcile w = (Ok (None, None), w).
Proof.
  intros Hskip. unfold ClusterReconcileWrapper.
  destruct (String.eqb_spec (map_str (om_labels (cl_meta c)) WorkerNameLabelKey) workerName); [|done].
  simpl. destruct Hskip as [->|?]; done.
Qed.

Definition no_requeue (r : option Result) : bool :=
  match r with None => true | Some r => negb (Requeue r) && (RequeueAfter r =? 0) end.

(** When the wrapper reports no error, the controller reported none and its
    condition is stored in the cluster: true exactly when the controller asked
    for no requeue, and marked with the running version of KKP. *)
Theorem wrapper_condition workerName c versions t reconcile w res err w1 res' w' v k :
  (∀ j, keeps (cview j) (read now)) →
  object_key c = k → sp_pause (cl_spec c) = false →
  map_str (om_labels (cl_meta c)) WorkerNameLabelKey = workerName → t ≠ ClusterConditionNone →
  reconcile w = (Ok (res, err), w1) → cview k w1 = Some v →
  ClusterReconcileWrapper client retry now workerName c versions t reconcile w = (Ok (res', None), w') →
  res' = res ∧ err = None ∧
  ∃ v' cond, cview k w' = Some v' ∧ cs_conditions (cl_status v') !! t = Some cond ∧
    cc_status cond = (if no_requeue res then ConditionTrue else ConditionFalse) ∧
    cc_kubermaticVersion cond = uniqueVersion versions.
Proof.
  intros Hnow Hk Hp Hl Ht Er Hv. unfold ClusterReconcileWrapper.
  rewrite Hl, String.eqb_refl, Hp. cbn [negb].
  unfold mbind at 1, M_MBind, M_bind. rewrite Er. intros E.
  apply String.eqb_neq in Ht. rewrite Ht in E.
  set (status := match err with Some _ => ConditionFalse | None => _ end) in E.
  unfold mbind, M_MBind, M_bind, try in E.
  destruct (UpdateClusterStatus client retry c (SetClusterCondition now versions t status "" "") w1)
    as [r w2] eqn:Eu.
  apply (UpdateClusterStatus_inv client retry k _ c v) in Eu as [Hu Hnf];
    [|intros c0; unfold SetClusterCondition; frame|apply SetClusterCondition_status_only|done|done].
  assert (Hcond : ∀ x, r = Ok x → ∃ v' cond, cview k w2 = Some v' ∧
    cs_conditions (cl_status v') !! t = Some cond ∧ cc_status cond = status ∧
    cc_kubermaticVersion cond = uniqueVersion versions).
  { intros x Hx. destruct Hu as [Hw Hsame|rv old c1 w3 w4 Hd Hc1 _ Hw Hr].
    - destruct (Hsame x Hx) as (old & w3 & w4 & Hd & Hc1 & Hst).
      destruct (SetClusterCondition_set _ _ _ _ _ _ _ _ _ _ Hc1) as (cond & H1 & H2 & H3 & _).
      exists v, cond. split_and!; [done| |done..]. rewrite <- H1, <- Hst.
      unfold Cluster_DeepCopy in Hd. o_inv. done.
    - destruct (SetClusterCondition_set _ _ _ _ _ _ _ _ _ _ Hc1) as (cond & H1 & H2 & H3 & _).
      eexists _, (wire_cluster_condition cond). split_and!; [exact Hw| |done..].
      simpl. by rewrite lookup_fmap, H1. }
  destruct r as [x|e|p|]; [|rewrite (Hnf e) in E by done| |]; try (by destruct err).
  destruct err as [e|]; [done|]. injection E as <- <-. split_and!; [done..|].
  destruct (Hcond x eq_refl) as (v' & cond & ? & ? & Hs & ?). exists v', cond. split_and!; [done..| |done].
  rewrite Hs. unfold status. by destruct res as [[[] ra]|]; simpl; [|destruct (ra =? 0)|].
Qed.
End wrapper.
