(* ===== verification/Corev1.v ===== *)
(** * Kubernetes workload types and string helpers

    The fields of [corev1]/[batchv1] objects that the controllers build or read,
    the parts of Go's [strings] and [time] packages they call, and the container
    and endpoint helpers of [pkg/kubernetes] and [pkg/resources]. *)

From S2P Require Import Prelude ResourceNames Kube Semver ClusterApi.

Record EnvVar := mkEnvVar {
  ev_name : string;
  ev_value : string;
  ev_secretKeyRef : option (string * string);
}.
Record VolumeMount := mkVolumeMount { vm_name : string; vm_mountPath : string; vm_readOnly : bool }.

(** The container fields that the sources touch; the others are in [ct_rest]. *)
Record Container := mkContainer {
  ct_name : string;
  ct_image : string;
  ct_command : list string;
  ct_args : list string;
  ct_env : list EnvVar;
  ct_volumeMounts : list VolumeMount;
  ct_rest : gmap string string;
}.

Inductive VolumeSource :=
| EmptyDirVolume
| SecretVolume (secretName : string)
| ConfigMapVolume (name : string).
Record Volume := mkVolume { vol_name : string; vol_source : VolumeSource }.

Record JobCondition := mkJobCondition {
  jc_type : string;
  jc_status : string;
  jc_lastTransitionTime : Z;
  jc_message : string;
}.

Record Job := mkJob {
  job_meta : ObjectMeta;
  job_generateName : string;
  job_backoffLimit : option Z;
  job_completions : option Z;
  job_parallelism : option Z;
  job_activeDeadlineSeconds : option Z;
  job_ttlSecondsAfterFinished : option Z;
  job_restartPolicy : string;
  job_seccompRuntimeDefault : bool;
  job_initContainers : list Container;
  job_containers : list Container;
  job_volumes : list Volume;
  job_conditions : list JobCondition;
  job_succeeded : Z;
  job_failed : Z;
}.

#[global] Program Instance Job_object : Object Job := {|
  obj_meta := job_meta;
  set_meta m j := mkJob m (job_generateName j) (job_backoffLimit j) (job_completions j)
    (job_parallelism j) (job_activeDeadlineSeconds j) (job_ttlSecondsAfterFinished j)
    (job_restartPolicy j) (job_seccompRuntimeDefault j) (job_initContainers j) (job_containers j)
    (job_volumes j) (job_conditions j) (job_succeeded j) (job_failed j);
|}.
Next Obligation. done. Qed.

Definition NamespaceSystem : string := "kube-system".
Definition AppLabelKey : string := "app".
Definition emptyMeta : ObjectMeta := mkObjectMeta "" "" "" ∅ ∅ [] [] 0 None "".

(** Objects with metadata and string data, and objects of which only the
    metadata matters. *)
Record DataObject := mkDataObject { do_meta : ObjectMeta; do_data : gmap string string }.
#[global] Program Instance DataObject_object : Object DataObject := {|
  obj_meta := do_meta;
  set_meta m o := mkDataObject m (do_data o);
|}.
Next Obligation. done. Qed.
Abbreviation Secret := DataObject.
Abbreviation ConfigMap := DataObject.

Record MetaObject := mkMetaObject { mo_meta : ObjectMeta }.
#[global] Program Instance MetaObject_object : Object MetaObject := {|
  obj_meta := mo_meta;
  set_meta m o := mkMetaObject m;
|}.
Next Obligation. done. Qed.
Abbreviation StatefulSet := MetaObject.
Abbreviation PersistentVolumeClaim := MetaObject.

(** One double quote and one newline character, for scripts. *)
Definition dq : string := String (Ascii.ascii_of_nat 34) "".
Definition nl : string := String (Ascii.ascii_of_nat 10) "".

(** ** [strings] *)

Definition ascii_byte (n : nat) : Ascii.ascii := Ascii.ascii_of_nat n.

(** The byte sequences of the runes that [unicode.IsSpace] accepts. *)
Definition space_runes : list (list nat) :=
  [[9]; [10]; [11]; [12]; [13]; [32]; [194; 133]; [194; 160]; [225; 154; 128];
   [226; 128; 128]; [226; 128; 129]; [226; 128; 130]; [226; 128; 131]; [226; 128; 132];
   [226; 128; 133]; [226; 128; 134]; [226; 128; 135]; [226; 128; 136]; [226; 128; 137];
   [226; 128; 138]; [226; 128; 168]; [226; 128; 169]; [226; 128; 175]; [226; 129; 159];
   [227; 128; 128]]%nat.

Fixpoint strip_prefix (p : list nat) (s : list nat) : option (list nat) :=
  match p, s with
  | [], _ => Some s
  | a :: p', b :: s' => if Nat.eqb a b then strip_prefix p' s' else None
  | _ :: _, [] => None
  end.

Definition strip_space (s : list nat) : option (list nat) :=
  foldr (λ r k, match strip_prefix r s with Some s' => Some s' | None => k end) None space_runes.

Fixpoint only_space (fuel : nat) (s : list nat) : bool :=
  match s with
  | [] => true
  | _ :: _ =>
      match fuel with
      | O => false
      | S fuel' => match strip_space s with Some s' => only_space fuel' s' | None => false end
      end
  end.

Definition string_bytes (s : string) : list nat := map Ascii.nat_of_ascii (String.list_ascii_of_string s).

(** [len(strings.TrimSpace(s)) == 0]; every step of [only_space] consumes a byte. *)
Definition TrimSpace_empty (s : string) : bool := only_space (String.length s) (string_bytes s).

(** [strings.Contains(s, sub)] *)
Definition strings_Contains (s sub : string) : bool :=
  match String.index 0 sub s with Some _ => true | None => false end.

(** Simple case folding as far as it can meet an ASCII name: the ASCII letters,
    and the two other runes that fold to one (long s and the Kelvin sign). *)
Fixpoint fold_bytes (l : list nat) : list nat :=
  match l with
  | [] => []
  | 197%nat :: ((191%nat :: l') as r) => 115%nat :: fold_bytes l'
  | 226%nat :: ((132%nat :: 170%nat :: l') as r) => 107%nat :: fold_bytes l'
  | b :: l' => (if (65 <=? b)%nat && (b <=? 90)%nat then b + 32 else b)%nat :: fold_bytes l'
  end.

(** [strings.EqualFold(s, t)] for an ASCII [t]. *)
Definition strings_EqualFold (s t : string) : bool :=
  bool_decide (fold_bytes (string_bytes s) = fold_bytes (string_bytes t)).

Definition strings_Join (l : list string) (sep : string) : string := String.concat sep l.

(** ** [time.Time.Format("2006-01-02t15-04-05")] in UTC

    Days count from 1 January of year 1 of the proleptic Gregorian calendar; the
    conversion works on years that start in March. *)
Definition civil_of_days (d : Z) : Z * Z * Z :=
  let z := d + 306 in
  let era := z / 146097 in
  let doe := z - era * 146097 in
  let yoe := (doe - doe / 1460 + doe / 36524 - doe / 146096) / 365 in
  let doy := doe - (365 * yoe + yoe / 4 - yoe / 100) in
  let mp := (5 * doy + 2) / 153 in
  let day := doy - (153 * mp + 2) / 5 + 1 in
  let month := if mp <? 10 then mp + 3 else mp - 9 in
  let year := yoe + era * 400 + (if month <=? 2 then 1 else 0) in
  (year, month, day).

Definition days_of_civil (c : Z * Z * Z) : Z :=
  let '(year, month, day) := c in
  let y := if month <=? 2 then year - 1 else year in
  let era := y / 400 in
  let yoe := y - era * 400 in
  let mp := if month <=? 2 then month + 9 else month - 3 in
  let doy := (153 * mp + 2) / 5 + day - 1 in
  let doe := yoe * 365 + yoe / 4 - yoe / 100 + doy in
  era * 146097 + doe - 306.

Fixpoint zeros (n : nat) : string := match n with O => "" | S n => "0" +:+ zeros n end.

(** [%0<w>d] of a number that is not negative. *)
Definition pad (w : nat) (z : Z) : string :=
  let s := pretty (Z.to_N z) in zeros (w - String.length s) +:+ s.

Definition format_time (t : Z) : string :=
  let secs := t / Second in
  let '(year, month, day) := civil_of_days (secs / 86400) in
  let s := secs `mod` 86400 in
  pad 4 year +:+ "-" +:+ pad 2 month +:+ "-" +:+ pad 2 day +:+ "t" +:+
  pad 2 (s / 3600) +:+ "-" +:+ pad 2 ((s / 60) `mod` 60) +:+ "-" +:+ pad 2 (s `mod` 60).

(** ** Helpers of [pkg/kubernetes] and [pkg/resources] *)

(** [ContainerFromString]; the YAML decoder is a parameter. *)
Definition ContainerFromString (decode : string → error + Container) (containerSpec : string)
    : outcome (option Container) :=
  if TrimSpace_empty containerSpec then Ok None else
  match decode containerSpec with
  | inl e => Err e
  | inr container =>
      if String.eqb (ct_name container) "" then Err (ErrNew "container must have a name")
      else if String.eqb (ct_image container) "" then Err (ErrNew "container must have an image")
      else Ok (Some container)
  end.

Definition GetAbsoluteServiceDNSName (service namespace : string) : string :=
  service +:+ "." +:+ namespace +:+ ".svc.cluster.local.".

Definition GetClientEndpoints (namespace : string) : list string :=
  map (λ i : N, "https://etcd-" +:+ pretty i +:+ "." +:+
                GetAbsoluteServiceDNSName EtcdServiceName namespace +:+ ":2379") [0; 1; 2]%N.

Definition ImageTag `{SemverLib} (c : Cluster) : outcome string :=
  bound ← NewSemverOrDie "1.22.0";
  mret (if Semver_LessThan (Some (cv_apiserver (cs_versions (cl_status c)))) (Some bound)
        then "v3.4.3" else "v3.5.4").

(** [metav1.NewControllerRef(cluster, gv.WithKind("Cluster"))] *)
Definition GetClusterRef (cluster : Cluster) : OwnerReference :=
  mkOwnerReference "kubermatic.k8c.io/v1" "Cluster" (cl_name cluster) (om_uid (cl_meta cluster)).

Example format_epoch : format_time (62135596800 * Second) = "1970-01-01t00-00-00".
Proof. vm_compute. reflexivity. Qed.
Example format_leap : format_time ((62135596800 + 1582979696) * Second) = "2020-02-29t12-34-56".
Proof. vm_compute. reflexivity. Qed.
Example trim_blank : TrimSpace_empty "  " = true ∧ TrimSpace_empty " a " = false.
Proof. vm_compute. auto. Qed.
