(* ===== verification/TimeFormat.v ===== *)
(** * Formatted times are unambiguous

    Backups are named after their scheduled time.  A day is determined by its
    calendar date, and the printed form has fixed-width fields, so different
    seconds give different names. *)

From S2P Require Import Prelude ResourceNames Kube Semver ClusterApi Corev1.

(** ** Calendar dates *)

(** Within a 400-year era of 146097 days: the year of the era and the day of the
    year that starts in March. *)
Lemma era_ranges doe :
  0 ≤ doe < 146097 →
  let yoe := (doe - doe / 1460 + doe / 36524 - doe / 146096) / 365 in
  let doy := doe - (365 * yoe + yoe / 4 - yoe / 100) in
  0 ≤ yoe ≤ 399 ∧ 0 ≤ doy ≤ 365.
Proof. intros Hd. cbv zeta. split_and!; Z.div_mod_to_equations; lia. Qed.

Lemma march_month doy : 0 ≤ doy ≤ 365 →
  let mp := (5 * doy + 2) / 153 in 0 ≤ mp ≤ 11 ∧ 0 ≤ doy - (153 * mp + 2) / 5 ≤ 30.
Proof. intros Hd. cbv zeta. split_and!; Z.div_mod_to_equations; lia. Qed.

Lemma era_of_year era yoe : 0 ≤ yoe ≤ 399 → (yoe + era * 400) / 400 = era.
Proof. intros Hy. rewrite Z.div_add, Z.div_small; lia. Qed.

(** The conversion is exact: the date determines the day; the days before the
    year 10000 (there are 3652059) have years of at most four digits. *)
Lemma civil_round_trip d :
  let '(year, month, day) := civil_of_days d in
  days_of_civil (year, month, day) = d ∧ 1 ≤ month ≤ 12 ∧ 1 ≤ day ≤ 31 ∧
  (0 ≤ d < 3652059 → 0 ≤ year ≤ 9999).
Proof.
  unfold civil_of_days. set (era := (d + 306) / 146097). set (doe := d + 306 - era * 146097).
  assert (Hdoe : 0 ≤ doe < 146097) by (unfold doe, era; Z.div_mod_to_equations; lia).
  pose proof (era_ranges doe Hdoe) as [Hy Hd].
  set (yoe := (doe - doe / 1460 + doe / 36524 - doe / 146096) / 365) in *.
  set (doy := doe - (365 * yoe + yoe / 4 - yoe / 100)) in *.
  pose proof (march_month doy Hd) as [Hm Hday]. set (mp := (5 * doy + 2) / 153) in *.
  cbv zeta. unfold days_of_civil.
  destruct (Z.ltb_spec mp 10);
    [destruct (Z.leb_spec (mp + 3) 2)|destruct (Z.leb_spec (mp - 9) 2)]; try lia.
  - rewrite Z.add_0_r, era_of_year by lia. split; [|split_and!; try lia].
    { replace (yoe + era * 400 - era * 400) with yoe by lia. replace (mp + 3 - 3) with mp by lia.
    unfold doy, doe. lia. }
  - replace (yoe + era * 400 + 1 - 1) with (yoe + era * 400) by lia. rewrite era_of_year by lia.
    split; [|split_and!; try lia].
    { replace (yoe + era * 400 - era * 400) with yoe by lia.
    replace (mp - 9 + 9) with mp by lia. unfold doy, doe. lia. }
    intros Hdd. assert (era ≤ 24) by (unfold era; Z.div_mod_to_equations; lia).
    assert (0 ≤ era) by (unfold era; Z.div_mod_to_equations; lia). split; [lia|].
    destruct (decide (era = 24)); [|lia].
    assert (306 ≤ doy) by (unfold mp in *; Z.div_mod_to_equations; lia).
    assert (doe ≤ 146036) by lia. assert (yoe ≤ 398); [|lia].
    destruct (decide (yoe = 399)) as [Hy9|]; [|lia]. exfalso. unfold doy in *. rewrite Hy9 in *.
    change (399 / 4) with 99 in *. change (399 / 100) with 3 in *. lia.
Qed.

Lemma civil_of_days_inj d d' : civil_of_days d = civil_of_days d' → d = d'.
Proof.
  intros E. pose proof (civil_round_trip d) as H1. pose proof (civil_round_trip d') as H2. rewrite E in H1.
  destruct (civil_of_days d') as [[year month] day]. destruct H1 as [<- _], H2 as [<- _]. done.
Qed.

(** ** Fixed-width decimal fields *)

Fixpoint check_range (f : Z → bool) (n : nat) (z : Z) : bool :=
  match n with O => true | S n => f z && check_range f n (z + 1) end.

Lemma check_range_ok f n : ∀ z, check_range f n z = true →
  ∀ d, z ≤ d < z + Z.of_nat n → f d = true.
Proof.
  induction n as [|n IH]; intros z Hc d Hd; [lia|]. simpl in Hc. apply andb_true_iff in Hc as [Hz Hc].
  destruct (decide (d = z)) as [->|]; [done|]. apply (IH (z + 1)); [done|lia].
Qed.

Fixpoint decimal (acc : Z) (s : string) : Z :=
  match s with
  | "" => acc
  | String c s' => decimal (10 * acc + (Z.of_nat (Ascii.nat_of_ascii c) - 48)) s'
  end.

Definition pad_ok (w : nat) (z : Z) : bool :=
  (String.length (pad w z) =? w)%nat && (decimal 0 (pad w z) =? z).

Lemma pad2_checked : check_range (pad_ok 2) 100 0 = true.
Proof. vm_compute. reflexivity. Qed.

Lemma pad4_checked : check_range (pad_ok 4) (Z.to_nat 10000) 0 = true.
Proof. vm_compute. reflexivity. Qed.

Lemma pad2_spec z : 0 ≤ z ≤ 99 → String.length (pad 2 z) = 2%nat ∧ decimal 0 (pad 2 z) = z.
Proof.
  intros Hz. pose proof (check_range_ok _ _ _ pad2_checked z ltac:(lia)) as Hok.
  unfold pad_ok in Hok. apply andb_true_iff in Hok as [H1%Nat.eqb_eq H2%Z.eqb_eq]. done.
Qed.

Lemma pad4_spec z : 0 ≤ z ≤ 9999 → String.length (pad 4 z) = 4%nat ∧ decimal 0 (pad 4 z) = z.
Proof.
  intros Hz. pose proof (check_range_ok _ _ _ pad4_checked z ltac:(lia)) as Hok.
  unfold pad_ok in Hok. apply andb_true_iff in Hok as [H1%Nat.eqb_eq H2%Z.eqb_eq]. done.
Qed.

Lemma string_app_inj s1 s2 r1 r2 :
  String.length s1 = String.length s2 → s1 +:+ r1 = s2 +:+ r2 → s1 = s2 ∧ r1 = r2.
Proof.
  revert s2. induction s1 as [|c s1 IH]; intros [|c2 s2] Hl E; simpl in *; try lia; [done|].
  injection E as -> E. injection Hl as Hl. destruct (IH _ Hl E) as [-> ->]. done.
Qed.

(** Peel one field and its separator off both sides. *)
Lemma field_inj w z z' sep r r' :
  (∀ x, x = z ∨ x = z' → String.length (pad w x) = w ∧ decimal 0 (pad w x) = x) →
  pad w z +:+ sep +:+ r = pad w z' +:+ sep +:+ r' → z = z' ∧ r = r'.
Proof.
  intros Hok E. destruct (Hok z) as [Hl Hd]; [by left|]. destruct (Hok z') as [Hl' Hd']; [by right|].
  apply string_app_inj in E as [Ep Es]; [|congruence].
  apply string_app_inj in Es as [_ ->]; [|done]. split; [|done]. rewrite <- Hd, <- Hd'. by rewrite Ep.
Qed.

Lemma clock_parts s s' : 0 ≤ s < 86400 → 0 ≤ s' < 86400 →
  s / 3600 = s' / 3600 → (s / 60) `mod` 60 = (s' / 60) `mod` 60 → s `mod` 60 = s' `mod` 60 → s = s'.
Proof. intros. Z.div_mod_to_equations; lia. Qed.

Lemma clock_ranges s : 0 ≤ s < 86400 →
  0 ≤ s / 3600 ≤ 99 ∧ 0 ≤ (s / 60) `mod` 60 ≤ 99 ∧ 0 ≤ s `mod` 60 ≤ 99.
Proof. intros. split_and!; Z.div_mod_to_equations; lia. Qed.

(** The zero time of the year 10000. *)
Definition year10000 : Z := 3652059 * 86400 * Second.

(** Two times before the year 10000 whose formatted forms agree lie in the
    same second; so the backups of one schedule, whose activations are whole
    seconds, all have different names. *)
Theorem format_time_injective t t' :
  0 ≤ t < year10000 → 0 ≤ t' < year10000 →
  format_time t = format_time t' → t / Second = t' / Second.
Proof.
  intros Ht Ht' E. unfold format_time in E.
  assert (Hs : ∀ x, 0 ≤ x < year10000 → 0 ≤ x / Second / 86400 < 3652059 ∧ 0 ≤ (x / Second) `mod` 86400 < 86400).
  { intros x Hx. unfold year10000, Second in *. split; Z.div_mod_to_equations; lia. }
  destruct (Hs t Ht) as [Hd Hc], (Hs t' Ht') as [Hd' Hc'].
  set (u := t / Second) in *. set (u' := t' / Second) in *.
  pose proof (civil_round_trip (u / 86400)) as HR. pose proof (civil_round_trip (u' / 86400)) as HR'.
  pose proof (clock_ranges _ Hc) as (R1 & R2 & R3). pose proof (clock_ranges _ Hc') as (R1' & R2' & R3').
  destruct (civil_of_days (u / 86400)) as [[y m] d] eqn:Ec.
  destruct (civil_of_days (u' / 86400)) as [[y' m'] d'] eqn:Ec'.
  destruct HR as (_ & Hm & Hday & Hy), HR' as (_ & Hm' & Hday' & Hy').
  specialize (Hy Hd). specialize (Hy' Hd').
  apply field_inj in E as [<- E]; [|intros x [-> | ->]; apply pad4_spec; lia].
  apply field_inj in E as [<- E]; [|intros x [-> | ->]; apply pad2_spec; lia].
  apply field_inj in E as [<- E]; [|intros x [-> | ->]; apply pad2_spec; lia].
  apply field_inj in E as [E1 E]; [|intros x [-> | ->]; apply pad2_spec; lia].
  apply field_inj in E as [E2 E]; [|intros x [-> | ->]; apply pad2_spec; lia].
  assert (E3 : u `mod` 86400 `mod` 60 = u' `mod` 86400 `mod` 60).
  { destruct (pad2_spec _ R3) as [_ <-], (pad2_spec _ R3') as [_ <-]. by rewrite E. }
  pose proof (clock_parts _ _ Hc Hc' E1 E2 E3) as Emod.
  assert (Ediv : u / 86400 = u' / 86400) by (apply civil_of_days_inj; by rewrite Ec, Ec').
  rewrite (Z.div_mod u 86400), (Z.div_mod u' 86400) by lia. by rewrite Ediv, Emod.
Qed.
