(* ===== verification/NetSpec.v ===== *)
(** * Addresses as numbers, and their text

    What the IPAM controller relies on in [net]: counting, masking, equality up to
    the IPv4 embedding, and that an address survives being printed and parsed. *)

From S2P Require Import Prelude TimeFormat Net.

(** ** Bytes as numbers *)

Definition bytes (ip : IP) : Prop := Forall (λ b, 0 ≤ b < 256) ip.

Fixpoint val (ip : IP) : Z :=
  match ip with [] => 0 | b :: rest => b * 256 ^ Z.of_nat (length rest) + val rest end.

Lemma pow256_pos n : 0 < 256 ^ Z.of_nat n.
Proof. apply Z.pow_pos_nonneg; lia. Qed.
#[local] Hint Resolve pow256_pos : core.

Lemma pow256_S n : 256 ^ Z.of_nat (S n) = 256 * 256 ^ Z.of_nat n.
Proof. rewrite Nat2Z.inj_succ, Z.pow_succ_r by lia. done. Qed.

Lemma pow256 n : 256 ^ Z.of_nat n = 2 ^ (8 * Z.of_nat n).
Proof. rewrite Z.pow_mul_r by lia. done. Qed.

Lemma val_range ip : bytes ip → 0 ≤ val ip < 256 ^ Z.of_nat (length ip).
Proof.
  induction 1 as [|b ip Hb _ IH]; simpl length; [simpl; lia|].
  rewrite pow256_S. simpl. nia.
Qed.

Lemma val_inj a b : bytes a → bytes b → length a = length b → val a = val b → a = b.
Proof.
  intros Ha. revert b. induction Ha as [|x a Hx Ha IH]; intros [|y b] Hb Hl Hv; try done.
  inversion Hb as [|? ? Hy Hb']; subst. injection Hl as Hl. simpl in Hv. rewrite Hl in Hv.
  pose proof (val_range a Ha) as Ra. pose proof (val_range b Hb') as Rb. rewrite Hl in Ra.
  assert (x = y) as -> by nia. f_equal. apply IH; [done..|lia].
Qed.

(** ** Masks *)

Lemma CIDRMask_length n p : length (CIDRMask n p) = n.
Proof. revert p. induction n as [|n IH]; intros p; simpl; [done|]. by rewrite IH. Qed.

Lemma mask_checked : check_range (λ b, forallb (λ q, Z.land b (256 - 2 ^ q) =? b / 2 ^ q * 2 ^ q)
  [1; 2; 3; 4; 5; 6; 7]) 256 0 = true.
Proof. vm_compute. reflexivity. Qed.

Lemma mask_byte b q : 0 ≤ b < 256 → 1 ≤ q ≤ 7 → Z.land b (256 - 2 ^ q) = b / 2 ^ q * 2 ^ q.
Proof.
  intros Hb Hq. pose proof (check_range_ok _ _ _ mask_checked b ltac:(simpl; lia)) as Hc.
  rewrite forallb_forall in Hc. apply Z.eqb_eq, (Hc q). simpl. lia.
Qed.

Lemma land_byte b : 0 ≤ b < 256 → Z.land b 255 = b.
Proof. intros Hb. change 255 with (Z.ones 8). rewrite Z.land_ones by lia. apply Z.mod_small. lia. Qed.

Lemma and_zero ip p : p ≤ 0 → val (and_bytes ip (CIDRMask (length ip) p)) = 0.
Proof.
  revert p. induction ip as [|b ip IH]; intros p Hp; [done|]. simpl.
  destruct (Z.leb_spec 8 p); [lia|]. destruct (Z.leb_spec p 0); [|lia].
  rewrite Z.land_0_r. unfold and_bytes in IH. rewrite IH by lia. lia.
Qed.

Lemma and_bytes_length a b : length a = length b → length (and_bytes a b) = length a.
Proof. intros Hl. unfold and_bytes. rewrite length_zip_with. lia. Qed.

(** Masking clears the host part. *)
Lemma and_val ip p : bytes ip → 0 ≤ p ≤ 8 * Z.of_nat (length ip) →
  let h := 8 * Z.of_nat (length ip) - p in
  val (and_bytes ip (CIDRMask (length ip) p)) = val ip / 2 ^ h * 2 ^ h.
Proof.
  intros Hb. revert p. induction Hb as [|b ip Hb Hbs IH]; intros p Hp; cbv zeta in *;
    [simpl; rewrite Z.div_0_l; [done|by apply Z.pow_nonzero; simpl in *; lia]|].
   simpl length in *. set (n := length ip) in *.
  change (and_bytes (b :: ip) (CIDRMask (S n) p)) with
    (Z.land b (if 8 <=? p then 255 else if p <=? 0 then 0 else 256 - 2 ^ (8 - p)) ::
     and_bytes ip (CIDRMask n (p - 8))).
  simpl. rewrite and_bytes_length by (unfold n; by rewrite CIDRMask_length). fold n.
  pose proof (val_range ip Hbs) as Hr. fold n in Hr.
  destruct (Z.leb_spec 8 p) as [H8|H8].
  - rewrite land_byte by done. rewrite (IH (p - 8)) by lia.
    replace (8 * Z.of_nat n - (p - 8)) with (8 * Z.of_nat (S n) - p) by lia.
    set (h := 8 * Z.of_nat (S n) - p).
    assert (Hpow : 256 ^ Z.of_nat n = 2 ^ (p - 8) * 2 ^ h) by (rewrite pow256, <- Z.pow_add_r by lia; f_equal; lia).
    rewrite Hpow, Z.mul_assoc, (Z.add_comm _ (val ip)), Z.div_add by (apply Z.pow_nonzero; lia). lia.
  - rewrite and_zero by lia. set (q := 8 - p).
    assert (Hpow : 2 ^ (8 * Z.of_nat (S n) - p) = 256 ^ Z.of_nat n * 2 ^ q)
      by (rewrite pow256, <- Z.pow_add_r by lia; f_equal; lia).
    rewrite Hpow, <- Z.div_div by (try apply Z.pow_pos_nonneg; lia).
    rewrite (Z.add_comm _ (val ip)), Z.div_add, (Z.div_small (val ip)), Z.add_0_l by (try apply Z.pow_nonzero; lia).
    destruct (Z.leb_spec p 0).
    + rewrite Z.land_0_r. assert (q = 8) as -> by lia. rewrite (Z.div_small b) by lia. lia.
    + rewrite mask_byte by lia. ring.
Qed.

(** ** Equality *)

(** The four bytes of an IPv4 address, whichever way it is written. *)
Definition canon (ip : IP) : IP := match To4 ip with Some x => x | None => ip end.

Lemma canon_cases a :
  (∃ c, length c = IPv4len ∧ a = v4InV6Prefix ++ c ∧ canon a = c) ∨
  (canon a = a ∧ (length a = IPv6len → take 12 a ≠ v4InV6Prefix)).
Proof.
  unfold canon, To4. destruct (Nat.eqb_spec (length a) IPv4len) as [E|_]; [right; split; [done|by rewrite E]|].
  destruct (Nat.eqb_spec (length a) IPv6len) as [E|]; [|right; split; [done|lia]].
  case_bool_decide as Hp; [left|right; done]. exists (drop 12 a). split_and!; [|by rewrite <- Hp, (take_drop 12)|done].
  by rewrite length_drop, E.
Qed.

Lemma IP_Equal_canon a b : IP_Equal a b = true ↔ canon a = canon b.
Proof.
  unfold IP_Equal.
  destruct (canon_cases a) as [(c & Lc & -> & ->)|[-> Na]], (canon_cases b) as [(d & Ld & -> & ->)|[-> Nb]];
    unfold IPv4len, IPv6len in *; rewrite ?length_app, ?Lc, ?Ld; cbn [length v4InV6Prefix Nat.add].
  - simpl. rewrite bool_decide_eq_true. split; [by intros [= HH]|by intros ->].
  - destruct (Nat.eqb_spec 16 (length b)) as [Hl|Hl].
    + rewrite bool_decide_eq_true. split; [intros <-; by destruct Nb|intros <-; lia].
    + simpl. destruct (Nat.eqb_spec (length b) 4) as [Hb|Hb]; [|split; [done|intros <-; lia]].
      by rewrite !bool_decide_eq_true.
  - destruct (Nat.eqb_spec (length a) 16) as [Hl|Hl].
    + rewrite bool_decide_eq_true. split; [intros ->; by destruct Na|intros ->; lia].
    + destruct (Nat.eqb_spec (length a) 4) as [Ha|Ha]; simpl; [|split; [done|intros ->; lia]].
      by rewrite !bool_decide_eq_true.
  - destruct (Nat.eqb_spec (length a) (length b)) as [Hl|Hl]; [apply bool_decide_eq_true|].
    split; [|congruence]. intros HH.
    destruct (Nat.eqb_spec (length a) 4), (Nat.eqb_spec (length b) 16), (Nat.eqb_spec (length a) 16),
      (Nat.eqb_spec (length b) 4); simpl in HH; try done; try lia;
      rewrite andb_true_iff, !bool_decide_eq_true in HH; naive_solver.
Qed.

(** ** Text *)

Definition octet (b : Z) : chars := String.list_ascii_of_string (pretty (Z.to_N b)).

Definition octet_ok (b : Z) : bool :=
  let s := octet b in
  bool_decide (dtoi s = (b, length s, true)) && negb (Nat.eqb (length s) 0) &&
  forallb (λ c, bool_decide (is_Some (decimal c)) && negb (is_char c "/")) s &&
  negb (Nat.ltb 1 (length s) && starts s "0").

Lemma octets_checked : check_range octet_ok 256 0 = true.
Proof. vm_compute. reflexivity. Qed.

Lemma octet_facts b : 0 ≤ b < 256 →
  dtoi (octet b) = (b, length (octet b), true) ∧ octet b ≠ [] ∧
  Forall (λ c, is_Some (decimal c) ∧ is_char c "/" = false) (octet b) ∧
  Nat.ltb 1 (length (octet b)) && starts (octet b) "0" = false.
Proof.
  intros Hb. pose proof (check_range_ok _ _ _ octets_checked b ltac:(simpl; lia)) as Hc.
  unfold octet_ok in Hc. rewrite !andb_true_iff, bool_decide_eq_true, !negb_true_iff in Hc.
  destruct Hc as [[[H1 H2] H3] H4]. split_and!; [done|by destruct (octet b)| |done].
  rewrite forallb_forall in H3. apply Forall_forall. intros c Hin%list_elem_of_In%H3.
  rewrite andb_true_iff, bool_decide_eq_true, negb_true_iff in Hin. done.
Qed.

Lemma numeral_app base digit ds rest n i m j :
  Forall (λ c, is_Some (digit c)) ds →
  match rest with c :: _ => digit c = None | [] => True end →
  numeral base digit n i ds = (m, j, true) → numeral base digit n i (ds ++ rest) = (m, j, true).
Proof.
  intros Hds Hrest. revert n i. induction Hds as [|c ds [d Hd] _ IH]; intros n i E; simpl in *.
  - destruct rest as [|c rest]; simpl; [done|]. by rewrite Hrest.
  - rewrite Hd in *. destruct (big <=? _); [done|]. by apply IH.
Qed.

Lemma dtoi_octet b rest : 0 ≤ b < 256 → match rest with c :: _ => decimal c = None | [] => True end →
  dtoi (octet b ++ rest) = (b, length (octet b), true).
Proof.
  intros (Hd & _ & Hall & _)%octet_facts Hr. apply numeral_app; [|done|done].
  eapply Forall_impl; [done|]. by intros ? [].
Qed.

Lemma list_ascii_app s t :
  String.list_ascii_of_string (s +:+ t) = String.list_ascii_of_string s ++ String.list_ascii_of_string t.
Proof. induction s as [|c s IH]; [done|]. change (String c s +:+ t) with (String c (s +:+ t)). simpl. by rewrite IH. Qed.

Lemma starts_octet b rest c : octet b ≠ [] → starts (octet b ++ rest) c = starts (octet b) c.
Proof. by destruct (octet b). Qed.

Definition dot : Ascii.ascii := Ascii.ascii_of_nat 46.

(** One octet is read back, also from behind a dot. *)
Lemma octets_step (first : bool) k b rest p : 0 ≤ b < 256 →
  match rest with c :: _ => decimal c = None | [] => True end →
  octets k false rest = Some p →
  octets (S k) first ((if first then [] else [dot]) ++ octet b ++ rest) = Some (b :: p).
Proof.
  intros Hb Hr Hp. destruct (octet_facts b Hb) as (_ & Hne & _ & Hz).
  cbn [octets]. rewrite length_app, length_app. destruct (Nat.eqb_spec (length (if first then [] else [dot]) +
    (length (octet b) + length rest)) 0) as [E|_]; [destruct (octet b); [done|simpl in E; lia]|].
  assert (negb first && negb (starts ((if first then [] else [dot]) ++ octet b ++ rest) ".") = false) as ->
    by (by destruct first).
  assert ((if first then (if first then [] else [dot]) ++ octet b ++ rest
    else drop 1 ((if first then [] else [dot]) ++ octet b ++ rest)) = octet b ++ rest) as -> by (by destruct first).
  rewrite dtoi_octet by done. cbn [negb orb]. destruct (Z.ltb_spec 255 b); [lia|].
  rewrite starts_octet by done. rewrite Hz, drop_app_length, Hp. done.
Qed.

Lemma parse_dotted ip : bytes ip → length ip = 4%nat →
  parseIPv4 (String.list_ascii_of_string (dotted ip)) = Some (v4InV6Prefix ++ ip).
Proof.
  intros Hb Hl. destruct ip as [|x [|y [|z [|t [|]]]]]; try discriminate Hl.
  unfold bytes in Hb. rewrite !Forall_cons in Hb. destruct Hb as (Hx & Hy & Hz & Ht & _).
  unfold dotted, parseIPv4. cbn [map String.concat].
  rewrite !list_ascii_app. change (String.list_ascii_of_string ".") with [dot]. fold (octet x) (octet y) (octet z) (octet t).
  assert (octets 4 true (octet x ++ [dot] ++ octet y ++ [dot] ++ octet z ++ [dot] ++ octet t) = Some [x; y; z; t]) as ->;
    [|done].
  apply (octets_step true 3 x); [done..|]. apply (octets_step false 2 y); [done..|].
  apply (octets_step false 1 z); [done..|]. pose proof (octets_step false 0 t [] [] Ht I eq_refl) as E.
  by rewrite app_nil_r in E.
Qed.

Lemma cut_slash_at a m : Forall (λ c, is_char c "/" = false) a →
  cut_slash (a ++ String.list_ascii_of_string "/" ++ m) = Some (a, m).
Proof. induction 1 as [|c a Hc _ IH]; [done|]. simpl in *. by rewrite Hc, IH. Qed.

Lemma octet_no_slash b : 0 ≤ b < 256 → Forall (λ c, is_char c "/" = false) (octet b).
Proof. intros (_ & _ & Hall & _)%octet_facts. eapply Forall_impl; [done|]. by intros ? []. Qed.

Lemma dotted_no_slash ip : bytes ip → Forall (λ c, is_char c "/" = false) (String.list_ascii_of_string (dotted ip)).
Proof.
  unfold dotted. induction 1 as [|b ip Hb Hbs IH]; [constructor|]. cbn [map String.concat].
  destruct ip as [|b' ip]; [by apply octet_no_slash|]. cbn [map] in *.
  rewrite !list_ascii_app, !Forall_app. split_and!; [by apply octet_no_slash|by repeat constructor|done].
Qed.

(** Printing an IPv4 address with its prefix length and parsing it gives the
    address back, in sixteen bytes. *)
Lemma ParseCIDR_print ip p : bytes ip → length ip = 4%nat → 0 ≤ p ≤ 32 →
  ParseCIDR (IP_String ip +:+ "/" +:+ pretty (Z.to_N p)) = Ok (v4InV6Prefix ++ ip).
Proof.
  intros Hb Hl Hp. unfold IP_String. rewrite Hl. cbn [Nat.eqb]. unfold To4. rewrite Hl. cbn [Nat.eqb IPv4len].
  unfold ParseCIDR, ParseCIDRNet. rewrite !list_ascii_app. fold (octet p).
  rewrite cut_slash_at, parse_dotted by (try apply dotted_no_slash; done).
  destruct (octet_facts p ltac:(lia)) as (-> & _). rewrite Nat.eqb_refl. cbn [negb orb].
  destruct (Z.ltb_spec p 0); [lia|]. destruct (Z.ltb_spec (8 * Z.of_nat IPv4len) p); [unfold IPv4len in *; lia|]. done.
Qed.
