(* ===== verification/EtcdBackup.v ===== *)
(** * The etcd backup controller

    [pkg/controller/seed-controller-manager/etcdbackup/etcd_backup_controller.go]
    and its API types in [pkg/apis/kubermatic/v1].  The controller schedules
    backups from a cron expression, runs a job per backup, runs a delete job for
    every failed or surplus backup, and forgets a backup when both jobs are gone. *)

From S2P Require Import Prelude ResourceNames Kube Semver CloudApi ClusterApi Helper Corev1.

(** ** API types *)

Definition DefaultKeptBackupsCount : Z := 20.
Definition MaxKeptBackupsCount : Z := 50.
Definition BackupStatusPhaseRunning : string := "Running".
Definition BackupStatusPhaseCompleted : string := "Completed".
Definition BackupStatusPhaseFailed : string := "Failed".

Record EtcdBackupConfigSpec := mkBackupConfigSpec {
  bs_name : string;
  bs_cluster : string;
  bs_schedule : string;
  bs_keep : option Z;
  bs_destination : string;
}.

Record BackupStatus := mkBackupStatus {
  b_scheduledTime : Z;
  b_backupName : string;
  b_jobName : string;
  b_backupStartTime : Z;
  b_backupFinishedTime : Z;
  b_backupPhase : string;
  b_backupMessage : string;
  b_deleteJobName : string;
  b_deleteStartTime : Z;
  b_deleteFinishedTime : Z;
  b_deletePhase : string;
  b_deleteMessage : string;
}.

Record EtcdBackupConfigCondition := mkBackupCondition {
  bco_status : string;
  bco_lastHeartbeatTime : Z;
  bco_lastTransitionTime : Z;
  bco_reason : string;
  bco_message : string;
}.

Record EtcdBackupConfigStatus := mkBackupConfigStatus {
  bst_currentBackups : list BackupStatus;
  bst_conditions : gmap string EtcdBackupConfigCondition;
  bst_cleanupRunning : bool;
}.

Record EtcdBackupConfig := mkBackupConfig {
  bc_meta : ObjectMeta;
  bc_spec : EtcdBackupConfigSpec;
  bc_status : EtcdBackupConfigStatus;
}.

#[global] Program Instance EtcdBackupConfig_object : Object EtcdBackupConfig := {|
  obj_meta := bc_meta;
  set_meta m c := mkBackupConfig m (bc_spec c) (bc_status c);
|}.
Next Obligation. done. Qed.

Definition bc_name (c : EtcdBackupConfig) : string := om_name (bc_meta c).
Definition bc_backups (c : EtcdBackupConfig) : list BackupStatus := bst_currentBackups (bc_status c).
Definition bc_deleting (c : EtcdBackupConfig) : bool :=
  match om_deletionTimestamp (bc_meta c) with None => false | Some _ => true end.

Definition set_bc_status (s : EtcdBackupConfigStatus) (c : EtcdBackupConfig) : EtcdBackupConfig :=
  mkBackupConfig (bc_meta c) (bc_spec c) s.
Definition set_backups (l : list BackupStatus) (c : EtcdBackupConfig) : EtcdBackupConfig :=
  set_bc_status (mkBackupConfigStatus l (bst_conditions (bc_status c)) (bst_cleanupRunning (bc_status c))) c.

(** [GetKeptBackupsCount] *)
Definition GetKeptBackupsCount (c : EtcdBackupConfig) : Z :=
  match bs_keep (bc_spec c) with
  | None => DefaultKeptBackupsCount
  | Some keep =>
      if keep <=? 0 then 1
      else if MaxKeptBackupsCount <? keep then MaxKeptBackupsCount
      else keep
  end.

(** The parts of a [KubermaticConfiguration] in use here. *)
Record SeedControllerConfiguration := mkSeedControllerConfiguration {
  sc_backupStoreContainer : string;
  sc_backupDeleteContainer : string;
}.

Definition IsDefaultEtcdAutomaticBackupEnabled (s : Seed) : bool :=
  match seed_etcdBackupRestore s with
  | Some cfg =>
      (0 <? size (ebr_destinations cfg))%nat &&
      negb (String.eqb (ebr_defaultDestination cfg) "")
  | None => false
  end.

Definition GetEtcdBackupDestination (s : Seed) (destinationName : string) : option BackupDestination :=
  match seed_etcdBackupRestore s with
  | None => None
  | Some cfg => mjoin (ebr_destinations cfg !! destinationName)
  end.

(** Updates of one backup's status. *)
Definition backup_finished (phase message : string) (time : Z) (b : BackupStatus) : BackupStatus :=
  mkBackupStatus (b_scheduledTime b) (b_backupName b) (b_jobName b) (b_backupStartTime b) time
    phase message (b_deleteJobName b) (b_deleteStartTime b) (b_deleteFinishedTime b)
    (b_deletePhase b) (b_deleteMessage b).
Definition set_backupPhase (phase : string) (b : BackupStatus) : BackupStatus :=
  backup_finished phase (b_backupMessage b) (b_backupFinishedTime b) b.
Definition delete_finished (phase message : string) (time : Z) (b : BackupStatus) : BackupStatus :=
  mkBackupStatus (b_scheduledTime b) (b_backupName b) (b_jobName b) (b_backupStartTime b)
    (b_backupFinishedTime b) (b_backupPhase b) (b_backupMessage b) (b_deleteJobName b)
    (b_deleteStartTime b) time phase message.
Definition set_deletePhase (phase : string) (b : BackupStatus) : BackupStatus :=
  delete_finished phase (b_deleteMessage b) (b_deleteFinishedTime b) b.
Definition set_deleteMessage (message : string) (b : BackupStatus) : BackupStatus :=
  delete_finished (b_deletePhase b) message (b_deleteFinishedTime b) b.

(** ** Constants of the controller *)

Definition DeleteAllBackupsFinalizer : string := "kubermatic.k8c.io/delete-all-backups".
Definition BackupConfigNameLabelKey : string := "backupConfig".
Definition SharedVolumeName : string := "etcd-backup".
Definition backupJobLabel : string := "kubermatic-etcd-backup".
Definition clusterEnvVarKey : string := "CLUSTER".
Definition backupToCreateEnvVarKey : string := "BACKUP_TO_CREATE".
Definition backupToDeleteEnvVarKey : string := "BACKUP_TO_DELETE".
Definition backupScheduleEnvVarKey : string := "BACKUP_SCHEDULE".
Definition backupKeepCountEnvVarKey : string := "BACKUP_KEEP_COUNT".
Definition backupConfigEnvVarKey : string := "BACKUP_CONFIG".
Definition AccessKeyIdEnvVarKey : string := "ACCESS_KEY_ID".
Definition SecretAccessKeyEnvVarKey : string := "SECRET_ACCESS_KEY".
Definition bucketNameEnvVarKey : string := "BUCKET_NAME".
Definition backupEndpointEnvVarKey : string := "ENDPOINT".
Definition assumedJobRuntime : Z := 50 * Second.
Definition succeededJobRetentionTime : Z := 1 * Minute.
Definition failedJobRetentionTime : Z := 10 * Minute.
Definition maxSimultaneousDeleteJobsPerConfig : nat := 3.
Definition EtcdBackupConfigConditionSchedulingActive : string := "SchedulingActive".
Definition JobComplete : string := "Complete".
Definition JobFailed : string := "Failed".

Definition DefaultNewBackupStoreContainer : string := "
name: store-container
image: d3fk/s3cmd@sha256:2061883abbf0ebcf0ea3d5d218558c9c229f212e9c08af4acdaa3758980eb67a
command:
- /bin/sh
- -c
- |
  set -e
  s3cmd \
    --ca-certs=/etc/ca-bundle/ca-bundle.pem \
    --access_key=$ACCESS_KEY_ID \
    --secret_key=$SECRET_ACCESS_KEY \
    --host=$ENDPOINT \
    --host-bucket='%(bucket).'$ENDPOINT \
    put /backup/snapshot.db s3://$BUCKET_NAME/$CLUSTER-$BACKUP_TO_CREATE
volumeMounts:
- name: etcd-backup
  mountPath: /backup
".

Definition DefaultNewBackupDeleteContainer : string := "
name: delete-container
image: d3fk/s3cmd@sha256:2061883abbf0ebcf0ea3d5d218558c9c229f212e9c08af4acdaa3758980eb67a
command:
- /bin/sh
- -c
- |
  s3cmd \
    --ca-certs=/etc/ca-bundle/ca-bundle.pem \
    --access_key=$ACCESS_KEY_ID \
    --secret_key=$SECRET_ACCESS_KEY \
    --host=$ENDPOINT \
    --host-bucket='%(bucket).'$ENDPOINT \
    del s3://$BUCKET_NAME/$CLUSTER-$BACKUP_TO_DELETE

  case $? in
  12)
    # backup no longer exists, which is fine
    exit 0
    ;;
  0)
    exit 0
    ;;
  *)
    exit $?
    ;;
  esac
".

(** ** Pure helpers *)

Definition minReconcile (reconciles : list (option Result)) : option Result :=
  foldl (λ result r,
    match result with
    | None => r
    | Some res =>
        match r with
        | Some r' => if RequeueAfter r' <? RequeueAfter res then r else result
        | None => result
        end
    end) None reconciles.

Fixpoint setEnvVar (envVars : list EnvVar) (newEnvVar : EnvVar) : list EnvVar :=
  match envVars with
  | [] => [newEnvVar]
  | envVar :: rest =>
      if strings_EqualFold (ev_name envVar) (ev_name newEnvVar) then newEnvVar :: rest
      else envVar :: setEnvVar rest newEnvVar
  end.

(** [destination.Credentials] is dereferenced. *)
Definition genSecretEnvVar (name key : string) (destination : BackupDestination) : outcome EnvVar :=
  creds ← deref (bd_credentials destination);
  mret (mkEnvVar name "" (Some (key_name creds, key))).

Definition getJobConditionIfTrue (job : Job) (condType : string) : option JobCondition :=
  List.find (λ cond, String.eqb (jc_type cond) condType && String.eqb (jc_status cond) ConditionTrue)
    (job_conditions job).

Definition getEtcdSecretName (cluster : Cluster) : string :=
  "cluster-" +:+ cl_name cluster +:+ "-etcd-client-certificate".

Definition caBundleConfigMapName (cluster : Cluster) : string :=
  "cluster-" +:+ cl_name cluster +:+ "-ca-bundle".

Definition snapshotCommand (etcdEndpoints : list string) : list string :=
  let prelude :=
    "backupOrReportFailure() {" +:+ nl +:+
    "  echo " +:+ dq +:+ "Creating backup" +:+ dq +:+ nl +:+
    "  if ! eval $@; then" +:+ nl +:+
    "    echo " +:+ dq +:+ "Backup creation failed" +:+ dq +:+ nl +:+
    "    return 1" +:+ nl +:+
    "  fi" +:+ nl +:+
    "  echo " +:+ dq +:+ "Successfully created backup, exiting" +:+ dq +:+ nl +:+
    "  exit 0" +:+ nl +:+
    "}" in
  let script :=
    foldl (λ s endpoint, s +:+ nl +:+ "backupOrReportFailure etcdctl --endpoints " +:+ endpoint +:+
                         " snapshot save /backup/snapshot.db") prelude etcdEndpoints in
  ["/bin/sh"; "-c";
   script +:+ nl +:+ "echo " +:+ dq +:+ "Unable to create backup" +:+ dq +:+ nl +:+ "exit 1"].

Definition jobBase (backupConfig : EtcdBackupConfig) (cluster : Cluster) (jobName : string) : Job :=
  mkJob
    (mkObjectMeta jobName NamespaceSystem ""
       (<[AppLabelKey := backupJobLabel]> {[BackupConfigNameLabelKey := bc_name backupConfig]})
       ∅ [] [GetClusterRef cluster] 0 None "")
    "" (Some 3) (Some 1) (Some 1) (Some (2 * 60)) None "OnFailure" false [] [] [] [] 0 0.

(** The environment both kinds of job set on the configured container. *)
Definition destinationEnv (destination : option BackupDestination) (env : list EnvVar) : outcome (list EnvVar) :=
  match destination with
  | None => Ok env
  | Some d =>
      a ← genSecretEnvVar AccessKeyIdEnvVarKey AccessKeyIdEnvVarKey d;
      s ← genSecretEnvVar SecretAccessKeyEnvVarKey SecretAccessKeyEnvVarKey d;
      mret (setEnvVar (setEnvVar (setEnvVar (setEnvVar env a) s)
              (mkEnvVar bucketNameEnvVarKey (bd_bucketName d) None))
              (mkEnvVar backupEndpointEnvVarKey (bd_endpoint d) None))
  end.

Definition jobEnv (nameKey : string) (backupConfig : EtcdBackupConfig) (cluster : Cluster)
    (backup : BackupStatus) : list EnvVar :=
  [mkEnvVar clusterEnvVarKey (cl_name cluster) None;
   mkEnvVar nameKey (b_backupName backup) None;
   mkEnvVar backupScheduleEnvVarKey (bs_schedule (bc_spec backupConfig)) None;
   mkEnvVar backupKeepCountEnvVarKey (pretty (GetKeptBackupsCount backupConfig)) None;
   mkEnvVar backupConfigEnvVarKey (bc_name backupConfig) None].

Definition caBundleMount : VolumeMount := mkVolumeMount "ca-bundle" "/etc/ca-bundle/" true.
Definition caBundleVolume (cluster : Cluster) : Volume :=
  mkVolume "ca-bundle" (ConfigMapVolume (caBundleConfigMapName cluster)).

Definition with_env_and_ca (env : list EnvVar) (c : Container) : Container :=
  mkContainer (ct_name c) (ct_image c) (ct_command c) (ct_args c) env
    (ct_volumeMounts c ++ [caBundleMount]) (ct_rest c).

Definition with_pod (deadline : option Z) (init containers : list Container) (volumes : list Volume) (j : Job) : Job :=
  mkJob (job_meta j) (job_generateName j) (job_backoffLimit j) (job_completions j)
    (job_parallelism j) deadline (job_ttlSecondsAfterFinished j) (job_restartPolicy j)
    (job_seccompRuntimeDefault j) init containers volumes (job_conditions j) (job_succeeded j) (job_failed j).

Definition backupJob `{SemverLib} (backupContainerImage : string) (backupConfig : EtcdBackupConfig)
    (cluster : Cluster) (backup : BackupStatus) (destination : option BackupDestination)
    (storeContainer : option Container) : outcome Job :=
  storeContainer ← deref storeContainer;
  env ← destinationEnv destination (ct_env storeContainer);
  let env := env ++ jobEnv backupToCreateEnvVarKey backupConfig cluster backup in
  let storeContainer := with_env_and_ca env storeContainer in
  let job := jobBase backupConfig cluster (b_jobName backup) in
  let endpoints := GetClientEndpoints (cs_namespaceName (cl_status cluster)) in
  image ← (if strings_Contains backupContainerImage ":" then Ok backupContainerImage
           else tag ← ImageTag cluster; mret (backupContainerImage +:+ ":" +:+ tag));
  let creator := mkContainer "backup-creator" image (snapshotCommand endpoints) []
    [mkEnvVar "ETCDCTL_API" "3" None;
     mkEnvVar "ETCDCTL_DIAL_TIMEOUT" "3s" None;
     mkEnvVar "ETCDCTL_CACERT" "/etc/etcd/client/ca.crt" None;
     mkEnvVar "ETCDCTL_CERT" "/etc/etcd/client/backup-etcd-client.crt" None;
     mkEnvVar "ETCDCTL_KEY" "/etc/etcd/client/backup-etcd-client.key" None]
    [mkVolumeMount SharedVolumeName "/backup" false;
     mkVolumeMount (getEtcdSecretName cluster) "/etc/etcd/client" false;
     caBundleMount] ∅ in
  mret (with_pod (job_activeDeadlineSeconds job) [creator] [storeContainer]
    [mkVolume SharedVolumeName EmptyDirVolume;
     mkVolume (getEtcdSecretName cluster) (SecretVolume (getEtcdSecretName cluster));
     caBundleVolume cluster] job).

Definition backupDeleteJob (backupConfig : EtcdBackupConfig) (cluster : Cluster)
    (backup : BackupStatus) (destination : option BackupDestination)
    (deleteContainer : Container) : outcome Job :=
  env ← destinationEnv destination (ct_env deleteContainer);
  let env := env ++ jobEnv backupToDeleteEnvVarKey backupConfig cluster backup in
  let deleteContainer := with_env_and_ca env deleteContainer in
  let job := jobBase backupConfig cluster (b_deleteJobName backup) in
  mret (with_pod (Some (4 * 60)) [] [deleteContainer] [caBundleVolume cluster] job).

(** ** The reconciler *)

(** The world outside the controller: API clients, clock, random strings,
    events, the cron library, and the secret and config map reconciliation that
    precedes every run. *)
Record BackupEnv (W : Type) := mkBackupEnv {
  be_configs : Client W EtcdBackupConfig;
  be_clusters : Client W Cluster;
  be_jobs : Client W Job;
  be_retry : Retry W;
  be_now : W → Z * W;
  be_rand : W → string * W;
  be_event : string → string → string → W → W;
  be_ensureSecrets : Cluster → M W unit;
  be_ensureConfigMaps : Cluster → M W unit;
  be_seedGetter : M W Seed;
  be_configGetter : M W SeedControllerConfiguration;
  be_decodeContainer : string → error + Container;
  be_cronParse : string → outcome (Z → Z);
  be_image : string;
  be_workerName : string;
  be_versions : Versions;
  be_fuel : nat;
}.
Arguments be_configs {W}.
Arguments be_clusters {W}.
Arguments be_jobs {W}.
Arguments be_retry {W}.
Arguments be_now {W}.
Arguments be_rand {W}.
Arguments be_event {W}.
Arguments be_ensureSecrets {W}.
Arguments be_ensureConfigMaps {W}.
Arguments be_seedGetter {W}.
Arguments be_configGetter {W}.
Arguments be_decodeContainer {W}.
Arguments be_cronParse {W}.
Arguments be_image {W}.
Arguments be_workerName {W}.
Arguments be_versions {W}.
Arguments be_fuel {W}.

(** The catch-up loop
    [for next = schedule.Next(next); now.After(next); next = schedule.Next(next) { pending = next }]
    started after the first [Next]: it returns the last pending and the next
    time, or nothing when the fuel is used up. *)
Fixpoint catchUp (fuel : nat) (schedule_Next : Z → Z) (now pending next : Z) : option (Z * Z) :=
  if next <? now then
    match fuel with
    | O => None
    | S fuel' => catchUp fuel' schedule_Next now next (schedule_Next next)
    end
  else Some (pending, next).

Section reconciler.
Context {W : Type} `{SemverLib, StringSets} (env : BackupEnv W).

Definition now : M W Z := read (be_now env).
Definition randString : M W string := read (be_rand env).
Definition event (type reason message : string) : M W unit := emit (be_event env type reason message).
Definition patch_status (old new : EtcdBackupConfig) : M W EtcdBackupConfig :=
  c_status_patch (be_configs env) old new.
Definition get_job (name : string) : M W Job := c_get (be_jobs env) (mkKey NamespaceSystem name).

(** [name[0:63-len(randomness)]] panics when the random string is too long. *)
Definition limitNameLength (name : string) : M W string :=
  if (String.length name <=? 63)%nat then mret name else
  randomness ← randString;
  let cut := 63 - Z.of_nat (String.length randomness) in
  if cut <? 0 then panic "slice bounds out of range"
  else mret (String.substring 0 (Z.to_nat cut) name +:+ randomness).

(** The condition carries [metav1.Now()]; [statusChanged] compares with the
    old status only if there is one. *)
Definition setBackupConfigCondition (backupConfig : EtcdBackupConfig)
    (conditionType status reason message : string) : M W (bool * EtcdBackupConfig) :=
  now ← now;
  let conditions := bst_conditions (bc_status backupConfig) in
  let old := conditions !! conditionType in
  let statusChanged :=
    match old with None => false | Some c => negb (String.eqb (bco_status c) status) end in
  let transition :=
    match old with
    | None => 0
    | Some c => if statusChanged then now else bco_lastTransitionTime c
    end in
  let condition := mkBackupCondition status now transition reason message in
  let exists_ := bool_decide (is_Some old) in
  mret (negb exists_ || statusChanged,
        set_bc_status (mkBackupConfigStatus (bc_backups backupConfig)
          (<[conditionType := condition]> conditions)
          (bst_cleanupRunning (bc_status backupConfig))) backupConfig).

(** [parseCronSchedule]: a panic of the parser is recovered into an error. *)
Definition parseCronSchedule (scheduleString : string) : outcome (Z → Z) :=
  if String.eqb scheduleString ""
  then Err (ErrNew "Schedule must be a non-empty valid Cron expression") else
  match be_cronParse env scheduleString with
  | Ok schedule => Ok schedule
  | Err e => Err (ErrAggregate [ErrWrap "invalid schedule" e])
  | Panic msg => Err (ErrAggregate [ErrNew ("(panic) invalid schedule: " +:+ msg)])
  | OutOfFuel => OutOfFuel
  end.

(** The decision of [ensurePendingBackupIsScheduled]: either a result to return
    at once, or the scheduled time and name of a backup to append, and the
    requeue delay. *)
Definition nextBackup (backupConfig : EtcdBackupConfig) : M W (option Result + Z * string * Z) :=
  let backups := bc_backups backupConfig in
  if String.eqb (bs_schedule (bc_spec backupConfig)) "" then
    match backups with
    | b :: _ =>
        t ← now;
        let durationToScheduledTime := Time_Sub (b_scheduledTime b) t in
        if 0 <=? durationToScheduledTime then mret (inl (Some (mkResult true durationToScheduledTime)))
        else mret (inl None)
    | [] => t ← now; mret (inr (t, bc_name backupConfig, 0))
    end
  else
    let start := match last backups with
                 | Some latest => b_scheduledTime latest
                 | None => om_creationTimestamp (bc_meta backupConfig)
                 end in
    schedule_Next ← wrap "Failed to Parse Schedule"
                      (lift (parseCronSchedule (bs_schedule (bc_spec backupConfig))));
    t ← now;
    match catchUp (be_fuel env) schedule_Next t 0 (schedule_Next start) with
    | None => lift OutOfFuel
    | Some (pending, next) =>
        if Time_IsZero pending then mret (inl (Some (mkResult true (Time_Sub next t))))
        else mret (inr (pending, bc_name backupConfig +:+ "-" +:+ format_time pending, Time_Sub next t))
    end.

(** Write metadata and spec, then the status that the main-resource update
    would have dropped. *)
Definition persist (backupConfig : EtcdBackupConfig) : M W EtcdBackupConfig :=
  let status := bc_status backupConfig in
  backupConfig ← wrap "failed to update backup config" (c_update (be_configs env) backupConfig);
  wrap "failed to update backup status" (patch_status backupConfig (set_bc_status status backupConfig)).

(** Set the [SchedulingActive] condition; when it changed, patch the status and
    record an event. *)
Definition setSchedulingActive (backupConfig : EtcdBackupConfig)
    (status reason message eventType eventReason eventMessage : string) : M W EtcdBackupConfig :=
  let oldBackupConfig := backupConfig in
  '(changed, backupConfig) ← setBackupConfigCondition backupConfig
     EtcdBackupConfigConditionSchedulingActive status reason message;
  if (changed : bool) then
    backupConfig ← wrap "failed to update backup config" (patch_status oldBackupConfig backupConfig);
    _ ← event eventType eventReason eventMessage;
    mret backupConfig
  else mret backupConfig.

Definition ensurePendingBackupIsScheduled (backupConfig : EtcdBackupConfig) (cluster : Cluster)
    : M W (EtcdBackupConfig * option Result) :=
  if bc_deleting backupConfig || bool_decide (is_Some (om_deletionTimestamp (cl_meta cluster)))
  then mret (backupConfig, None) else
  if 2 * GetKeptBackupsCount backupConfig <? Z.of_nat (length (bc_backups backupConfig)) then
    backupConfig ← setSchedulingActive backupConfig ConditionFalse "TooManyBackups"
      "tracking too many backups; not scheduling new ones"
      "Warning" "TooManyBackups" "tracking too many backups; not scheduling new ones";
    mret (backupConfig, None)
  else
    backupConfig ← setSchedulingActive backupConfig ConditionTrue "" ""
      "Normal" "NormalBackupCount" "backup count low enough; scheduling new backups";
    plan ← nextBackup backupConfig;
    match plan with
    | inl res => mret (backupConfig, res)
    | inr (scheduledTime, backupName, requeueAfter) =>
        r1 ← randString;
        jobName ← limitNameLength (cl_name cluster +:+ "-backup-" +:+ bc_name backupConfig +:+ "-create-" +:+ r1);
        r2 ← randString;
        deleteJobName ← limitNameLength (cl_name cluster +:+ "-backup-" +:+ bc_name backupConfig +:+ "-delete-" +:+ r2);
        let backupToSchedule :=
          mkBackupStatus scheduledTime backupName jobName 0 0 "" "" deleteJobName 0 0 "" "" in
        backupConfig ← persist (set_backups (bc_backups backupConfig ++ [backupToSchedule]) backupConfig);
        mret (backupConfig, Some (mkResult true requeueAfter))
    end.

(** ** Backup jobs *)

Definition startBackup (backupConfig : EtcdBackupConfig) (cluster : Cluster)
    (destination : option BackupDestination) (storeContainer : option Container)
    (acc : ObjectMeta * option Result) (backup : BackupStatus)
    : M W (ObjectMeta * option Result * BackupStatus) :=
  let '(meta, returnReconcile) := acc in
  let later := minReconcile [returnReconcile; Some (mkResult false assumedJobRuntime)] in
  let phase := b_backupPhase backup in
  if String.eqb phase BackupStatusPhaseCompleted || String.eqb phase BackupStatusPhaseFailed
  then mret (acc, backup) else
  if String.eqb phase BackupStatusPhaseRunning then
    r ← try (get_job (b_jobName backup));
    match r with
    | inl e =>
        if negb (IsNotFound e) then throw (ErrWrap "error getting job for backup" e) else
        t ← now;
        mret (acc, backup_finished BackupStatusPhaseFailed "backup job deleted externally" t backup)
    | inr job =>
        match getJobConditionIfTrue job JobComplete with
        | Some cond => mret (acc, backup_finished BackupStatusPhaseCompleted (jc_message cond)
                                    (jc_lastTransitionTime cond) backup)
        | None =>
            match getJobConditionIfTrue job JobFailed with
            | Some cond => mret (acc, backup_finished BackupStatusPhaseFailed (jc_message cond)
                                        (jc_lastTransitionTime cond) backup)
            | None => mret ((meta, later), backup)
            end
        end
    end
  else if String.eqb phase "" then
    t ← now;
    if (0 <=? Time_Sub t (b_scheduledTime backup)) && negb (bc_deleting backupConfig) then
      job ← lift (backupJob (be_image env) backupConfig cluster backup destination storeContainer);
      r ← try (c_create (be_jobs env) job);
      match r with
      | inl e => if IsAlreadyExists e then mret ((AddFinalizer [DeleteAllBackupsFinalizer] meta, later),
                                                 set_backupPhase BackupStatusPhaseRunning backup)
                 else throw (ErrWrap "error creating job for backup" e)
      | inr _ => mret ((AddFinalizer [DeleteAllBackupsFinalizer] meta, later),
                       set_backupPhase BackupStatusPhaseRunning backup)
      end
    else mret (acc, backup)
  else mret (acc, backup).

Definition startPendingBackupJobs (backupConfig : EtcdBackupConfig) (cluster : Cluster)
    (destination : option BackupDestination) (storeContainer : option Container)
    : M W (EtcdBackupConfig * option Result) :=
  '((meta, returnReconcile), backups) ←
    for_each (startBackup backupConfig cluster destination storeContainer)
      (bc_meta backupConfig, None) (bc_backups backupConfig);
  backupConfig ← persist (set_meta meta (set_backups backups backupConfig));
  mret (backupConfig, returnReconcile).

(** ** Delete jobs *)

Definition createBackupDeleteJob (backupConfig : EtcdBackupConfig) (cluster : Cluster)
    (backup : BackupStatus) (destination : option BackupDestination)
    (deleteContainer : option Container) : M W BackupStatus :=
  match deleteContainer with
  | Some deleteContainer =>
      job ← lift (backupDeleteJob backupConfig cluster backup destination deleteContainer);
      r ← try (c_create (be_jobs env) job);
      match r with
      | inl e => if IsAlreadyExists e then mret (set_deletePhase BackupStatusPhaseRunning backup)
                 else throw (ErrWrap "error creating delete job for backup" e)
      | inr _ => mret (set_deletePhase BackupStatusPhaseRunning backup)
      end
  | None =>
      t ← now;
      mret (delete_finished BackupStatusPhaseCompleted (b_deleteMessage backup) t backup)
  end.

(** Restarting and starting share this loop: while fewer than the maximum are
    running, create the delete job of the backup at the given index.  [message]
    is the delete message to set, if any.  The result is set as soon as one job
    was created, so it is also the [modified] flag of the first caller. *)
Definition startDeleteJobs (backupConfig : EtcdBackupConfig) (cluster : Cluster)
    (destination : option BackupDestination) (deleteContainer : option Container)
    (acc : list BackupStatus * nat * option Result) (target : nat * option string)
    : M W (list BackupStatus * nat * option Result) :=
  let '(backups, runningDeleteJobsCount, ret) := acc in
  let '(i, message) := target in
  if (runningDeleteJobsCount <? maxSimultaneousDeleteJobsPerConfig)%nat then
    backup ← lift (deref (backups !! i));
    backup ← createBackupDeleteJob backupConfig cluster backup destination deleteContainer;
    let backup := match message with Some m => set_deleteMessage m backup | None => backup end in
    mret (<[i := backup]> backups, S runningDeleteJobsCount,
          minReconcile [ret; Some (mkResult false assumedJobRuntime)])
  else mret acc.

Definition isRunningDelete (b : BackupStatus) : bool :=
  String.eqb (b_deletePhase b) BackupStatusPhaseRunning.

(** The backwards scan: indices to delete, newest first, and the number of
    running delete jobs. [kept] counts the completed backups seen so far. *)
Fixpoint selectBackupsToDelete (keepCount : Z) (rbackups : list (nat * BackupStatus)) (kept : Z)
    : list nat * nat :=
  match rbackups with
  | [] => ([], 0%nat)
  | (i, backup) :: rest =>
      let running := if isRunningDelete backup then 1%nat else 0%nat in
      if String.eqb (b_backupPhase backup) BackupStatusPhaseFailed && String.eqb (b_deletePhase backup) ""
      then let '(l, n) := selectBackupsToDelete keepCount rest kept in (i :: l, (running + n)%nat)
      else if String.eqb (b_backupPhase backup) BackupStatusPhaseCompleted then
        let kept := kept + 1 in
        let '(l, n) := selectBackupsToDelete keepCount rest kept in
        if (keepCount <? kept) && String.eqb (b_deletePhase backup) ""
        then (i :: l, (running + n)%nat) else (l, (running + n)%nat)
      else let '(l, n) := selectBackupsToDelete keepCount rest kept in (l, (running + n)%nat)
  end.

Definition startPendingBackupDeleteJobs (backupConfig : EtcdBackupConfig) (cluster : Cluster)
    (destination : option BackupDestination) (deleteContainer : option Container)
    : M W (EtcdBackupConfig * option Result) :=
  if String.eqb (bs_schedule (bc_spec backupConfig)) "" && negb (bc_deleting backupConfig)
  then mret (backupConfig, None) else
  let keepCount := if bc_deleting backupConfig then 0 else GetKeptBackupsCount backupConfig in
  let '(backupsToDelete, runningDeleteJobsCount) :=
    selectBackupsToDelete keepCount (rev (imap pair (bc_backups backupConfig))) 0 in
  let oldBackupConfig := backupConfig in
  '((backups, _), modified) ←
    for_range (startDeleteJobs backupConfig cluster destination deleteContainer)
      (bc_backups backupConfig, runningDeleteJobsCount, None)
      (map (λ i, (i, None)) backupsToDelete);
  match (modified : option Result) with
  | Some _ =>
      backupConfig ← wrap "failed to update backup status"
        (patch_status oldBackupConfig (set_backups backups backupConfig));
      mret (backupConfig, Some (mkResult false assumedJobRuntime))
  | None => mret (backupConfig, None)
  end.

(** The first loop of [updateRunningBackupDeleteJobs]: the accumulator holds the
    index, the jobs to restart, the running count and the reconcile result. *)
Definition updateDelete (acc : nat * list (nat * option string) * nat * option Result)
    (backup : BackupStatus)
    : M W (nat * list (nat * option string) * nat * option Result * BackupStatus) :=
  let '(i, toRestart, running, ret) := acc in
  if isRunningDelete backup then
    r ← try (get_job (b_deleteJobName backup));
    match r with
    | inl e =>
        if negb (IsNotFound e) then throw (ErrWrap "error getting delete job for backup" e) else
        mret ((S i, toRestart ++ [(i, Some "job was deleted, restarted it")], running, ret), backup)
    | inr job =>
        match getJobConditionIfTrue job JobComplete with
        | Some cond =>
            mret ((S i, toRestart, running,
                   minReconcile [ret; Some (mkResult false succeededJobRetentionTime)]),
                  delete_finished BackupStatusPhaseCompleted (jc_message cond)
                    (jc_lastTransitionTime cond) backup)
        | None =>
            match getJobConditionIfTrue job JobFailed with
            | Some cond =>
                d ← try (c_delete (be_jobs env) job);
                match d with
                | inl e =>
                    if IsNotFound e then
                      mret ((S i, toRestart ++ [(i, Some ("Job failed: " +:+ jc_message cond +:+ ". Restarted."))],
                             running, ret), backup)
                    else throw (ErrWrap "failed to delete failed delete job" e)
                | inr _ =>
                    mret ((S i, toRestart ++ [(i, Some ("Job failed: " +:+ jc_message cond +:+ ". Restarted."))],
                           running, ret), backup)
                end
            | None =>
                mret ((S i, toRestart, S running,
                       minReconcile [ret; Some (mkResult false assumedJobRuntime)]), backup)
            end
        end
    end
  else mret ((S i, toRestart, running, ret), backup).

Definition updateRunningBackupDeleteJobs (backupConfig : EtcdBackupConfig) (cluster : Cluster)
    (destination : option BackupDestination) (deleteContainer : option Container)
    : M W (EtcdBackupConfig * option Result) :=
  let oldBackupConfig := backupConfig in
  '((((_, toRestart), running), ret), backups) ←
    for_each updateDelete (0%nat, [], 0%nat, None) (bc_backups backupConfig);
  '((backups, _), ret) ←
    for_range (startDeleteJobs backupConfig cluster destination deleteContainer)
      (backups, running, ret) toRestart;
  backupConfig ← wrap "failed to update backup status"
    (patch_status oldBackupConfig (set_backups backups backupConfig));
  mret (backupConfig, ret).

(** ** Clean-up *)

(** Delete a finished job once it is older than its retention time: whether the
    job is gone, and when to look again otherwise. *)
Definition deleteFinishedJob (jobName : string) (finished retentionTime : Z)
    : M W (bool * option Result) :=
  t ← now;
  let age := Time_Sub t finished in
  if age <? retentionTime then mret (false, Some (mkResult false (wrap64 (retentionTime - age)))) else
  r ← try (get_job jobName);
  match r with
  | inl e => if IsNotFound e then mret (true, None) else throw (ErrWrap "failed to get job" e)
  | inr job =>
      d ← try (c_delete (be_jobs env) job);
      match d with
      | inl e => if IsNotFound e then mret (true, None) else throw (ErrWrap "failed to delete job" e)
      | inr _ => mret (true, None)
      end
  end.

(** One backup of [deleteFinishedBackupJobs]: whether its entry stays. *)
Definition cleanupBackup (backupConfig : EtcdBackupConfig) (backup : BackupStatus)
    : M W (bool * option Result * option Result) :=
  if bc_deleting backupConfig && String.eqb (b_backupPhase backup) "" then mret (false, None, None) else
  let deleting := negb (PTime_IsZero (om_deletionTimestamp (bc_meta backupConfig))) in
  '(backupJobDeleted, r1) ←
    (if Time_IsZero (b_backupFinishedTime backup) then mret (false, None) else
     deleteFinishedJob (b_jobName backup) (b_backupFinishedTime backup)
       (if deleting then 0
        else if String.eqb (b_backupPhase backup) BackupStatusPhaseCompleted
        then succeededJobRetentionTime else failedJobRetentionTime));
  '(deleteJobDeleted, r2) ←
    (if Time_IsZero (b_deleteFinishedTime backup) then mret (false, None) else
     deleteFinishedJob (b_deleteJobName backup) (b_deleteFinishedTime backup)
       (if deleting then 0 else succeededJobRetentionTime));
  mret (negb (backupJobDeleted && deleteJobDeleted), r1, r2).

Definition cleanupStep (backupConfig : EtcdBackupConfig)
    (acc : list BackupStatus * bool * option Result) (backup : BackupStatus)
    : M W (list BackupStatus * bool * option Result) :=
  let '(newBackups, modified, ret) := acc in
  '((stays, r1), r2) ← cleanupBackup backupConfig backup;
  let ret := minReconcile [minReconcile [ret; r1]; r2] in
  if (stays : bool) then mret (newBackups ++ [backup], modified, ret) else mret (newBackups, true, ret).

Definition deleteFinishedBackupJobs (backupConfig : EtcdBackupConfig) : M W (EtcdBackupConfig * option Result) :=
  let oldBackupConfig := backupConfig in
  '((newBackups, modified), ret) ←
    for_range (cleanupStep backupConfig) ([], false, None) (bc_backups backupConfig);
  if (modified : bool) then
    backupConfig ← wrap "failed to update backup status"
      (patch_status oldBackupConfig (set_backups newBackups backupConfig));
    mret (backupConfig, ret)
  else mret (backupConfig, ret).

Definition handleFinalization (backupConfig : EtcdBackupConfig) : M W (EtcdBackupConfig * option Result) :=
  if negb (bc_deleting backupConfig) || (0 <? length (bc_backups backupConfig))%nat
  then mret (backupConfig, None) else
  backupConfig ← TryRemoveFinalizer (be_configs env) (be_retry env) backupConfig [DeleteAllBackupsFinalizer];
  mret (backupConfig, None).

(** ** The reconcile function *)

Definition getBackupStoreContainer (cfg : SeedControllerConfiguration) : outcome (option Container) :=
  if negb (String.eqb (sc_backupStoreContainer cfg) "")
  then ContainerFromString (be_decodeContainer env) (sc_backupStoreContainer cfg)
  else ContainerFromString (be_decodeContainer env) DefaultNewBackupStoreContainer.

Definition getBackupDeleteContainer (cfg : SeedControllerConfiguration) : outcome (option Container) :=
  if negb (String.eqb (sc_backupDeleteContainer cfg) "")
  then ContainerFromString (be_decodeContainer env) (sc_backupDeleteContainer cfg)
  else ContainerFromString (be_decodeContainer env) DefaultNewBackupDeleteContainer.

(** The five steps and the finalization run in order, each on the object that
    the previous one left; the requeue delays are combined. *)
Definition backupSteps (cluster : Cluster) (destination : option BackupDestination)
    (storeContainer deleteContainer : option Container)
    : list (string * (EtcdBackupConfig → M W (EtcdBackupConfig * option Result))) :=
  [("failed to ensure next backup is scheduled",
    λ bc, ensurePendingBackupIsScheduled bc cluster);
   ("failed to start pending and update running backups",
    λ bc, startPendingBackupJobs bc cluster destination storeContainer);
   ("failed to start pending backup delete jobs",
    λ bc, startPendingBackupDeleteJobs bc cluster destination deleteContainer);
   ("failed to update running backup delete jobs",
    λ bc, updateRunningBackupDeleteJobs bc cluster destination deleteContainer);
   ("failed to delete finished backup jobs", deleteFinishedBackupJobs);
   ("failed to clean up EtcdBackupConfig", handleFinalization)].

Definition runStep (acc : EtcdBackupConfig * option Result)
    (step : string * (EtcdBackupConfig → M W (EtcdBackupConfig * option Result)))
    : M W (EtcdBackupConfig * option Result) :=
  let '(backupConfig, totalReconcile) := acc in
  '(backupConfig, nextReconcile) ← wrap step.1 (step.2 backupConfig);
  mret (backupConfig, minReconcile [totalReconcile; nextReconcile]).

Definition reconcile (backupConfig : EtcdBackupConfig) (cluster : Cluster) (seed : Seed)
    (config : SeedControllerConfiguration) : M W Reconciled :=
  match GetEtcdBackupDestination seed (bs_destination (bc_spec backupConfig)) with
  | None => mret (None, Some (ErrNew "cannot find backup destination"))
  | Some destination =>
      if bool_decide (bd_credentials destination = None)
      then mret (None, Some (ErrNew "credentials not set for backup destination")) else
      prepared ← try (
        _ ← wrap "failed to create backup secrets" (be_ensureSecrets env cluster);
        _ ← wrap "failed to create backup configmaps" (be_ensureConfigMaps env cluster);
        store ← wrap "failed to create backup store container" (lift (getBackupStoreContainer config));
        delete ← wrap "failed to create backup delete container" (lift (getBackupDeleteContainer config));
        mret (store, delete));
      match prepared with
      | inl e => mret (None, Some e)
      | inr (backupStoreContainer, backupDeleteContainer) =>
          let errorReconcile := mkResult false (1 * Minute) in
          r ← try (for_range runStep (backupConfig, None)
                     (backupSteps cluster (Some destination) backupStoreContainer backupDeleteContainer));
          match r with
          | inl e => mret (Some errorReconcile, Some e)
          | inr (_, totalReconcile) => mret (totalReconcile, None)
          end
      end
  end.

(** The closure of [Reconcile] remembers a conflict of the inner reconcile.  The
    wrapper runs with [ClusterConditionNone], so its error is the one-element
    aggregate of the inner error. *)
Definition suppressedError (e : error) : option error :=
  match e with
  | ErrAggregate [e'] => if IsConflict e' then Some e' else None
  | _ => None
  end.

Definition Reconcile (request : NamespacedName) : M W (Result * option error) :=
  pre ← try (
    seed ← be_seedGetter env;
    config ← be_configGetter env;
    if negb (IsDefaultEtcdAutomaticBackupEnabled seed) then mret None else
    r ← try (c_get (be_configs env) request);
    match r with
    | inl e => if IsNotFound e then mret None else throw e
    | inr backupConfig =>
        cluster ← c_get (be_clusters env) (mkKey "" (bs_cluster (bc_spec backupConfig)));
        if String.eqb (cs_namespaceName (cl_status cluster)) "" then mret None else
        if String.eqb (cv_controlPlane (cs_versions (cl_status cluster))) "" then mret None else
        mret (Some (seed, config, backupConfig, cluster))
    end);
  match pre with
  | inl e => mret (emptyResult, Some e)
  | inr None => mret (emptyResult, None)
  | inr (Some (seed, config, backupConfig, cluster)) =>
      '(result, err) ← ClusterReconcileWrapper (be_clusters env) (be_retry env) (be_now env)
         (be_workerName env) cluster (be_versions env) ClusterConditionNone
         (reconcile backupConfig cluster seed config);
      '(result, err) ←
        match (err : option error) with
        | Some e =>
            match suppressedError e with
            | Some _ => mret (Some (mkResult false (30 * Second)), None)
            | None =>
                _ ← event "Warning" "ReconcilingError" (error_string e);
                _ ← event "Warning" "ReconcilingError"
                  ("failed to reconcile etcd backup config " +:+ dq +:+ bc_name backupConfig +:+ dq +:+ ": "
                   +:+ error_string e);
                mret (result, Some e)
            end
        | None => mret (result, None)
        end;
      mret (default emptyResult result, err)
  end.
End reconciler.
