(* ===== verification/EtcdBackupFacts.v ===== *)
(** * Properties of the etcd backup controller

    The status of a backup is a small state machine; the theorems below show that
    every step of the controller moves it forward only, keeps the invariant that
    a backup's entry is dropped only after its object was deleted, respects the
    retention count and the limit on delete jobs, and schedules exactly the cron
    times. *)

From S2P Require Import Prelude ResourceNames Kube Semver CloudApi ClusterApi Helper Corev1 EtcdBackup.

Abbreviation Running := BackupStatusPhaseRunning.
Abbreviation Completed := BackupStatusPhaseCompleted.
Abbreviation Failed := BackupStatusPhaseFailed.

(** ** The JSON round trip of a status *)

Definition wire_backup `{WireTime} (b : BackupStatus) : BackupStatus :=
  mkBackupStatus (wire_time (b_scheduledTime b)) (b_backupName b) (b_jobName b)
    (wire_time (b_backupStartTime b)) (wire_time (b_backupFinishedTime b)) (b_backupPhase b)
    (b_backupMessage b) (b_deleteJobName b) (wire_time (b_deleteStartTime b))
    (wire_time (b_deleteFinishedTime b)) (b_deletePhase b) (b_deleteMessage b).

Definition wire_condition `{WireTime} (c : EtcdBackupConfigCondition) : EtcdBackupConfigCondition :=
  mkBackupCondition (bco_status c) (wire_time (bco_lastHeartbeatTime c))
    (wire_time (bco_lastTransitionTime c)) (bco_reason c) (bco_message c).

Definition wire_status `{WireTime} (s : EtcdBackupConfigStatus) : EtcdBackupConfigStatus :=
  mkBackupConfigStatus (wire_backup <$> bst_currentBackups s) (wire_condition <$> bst_conditions s)
    (bst_cleanupRunning s).

(** ** The state machine of one backup *)

Inductive backup_trans : string → string → Prop :=
| bt_stay p : backup_trans p p
| bt_start : backup_trans "" Running
| bt_complete : backup_trans Running Completed
| bt_fail : backup_trans Running Failed.

Inductive delete_trans : string → string → Prop :=
| dt_stay p : delete_trans p p
| dt_start : delete_trans "" Running
| dt_skip : delete_trans "" Completed
| dt_complete : delete_trans Running Completed.

Definition finished (b : BackupStatus) : Prop := b_backupPhase b = Completed ∨ b_backupPhase b = Failed.

(** The well-formedness of an entry: a delete job belongs to a finished backup
    only, a finish time to a finished job only. *)
Record wf_backup (b : BackupStatus) : Prop := {
  wf_delete : b_deletePhase b ≠ "" → finished b;
  wf_finishedTime : b_backupFinishedTime b ≠ 0 → finished b;
  wf_deleteFinishedTime : b_deleteFinishedTime b ≠ 0 → b_deletePhase b = Completed;
}.

(** What one controller step does to an entry it keeps. *)
Record advances (b b' : BackupStatus) : Prop := {
  adv_backupName : b_backupName b' = b_backupName b;
  adv_jobName : b_jobName b' = b_jobName b;
  adv_deleteJobName : b_deleteJobName b' = b_deleteJobName b;
  adv_backup : backup_trans (b_backupPhase b) (b_backupPhase b');
  adv_delete : delete_trans (b_deletePhase b) (b_deletePhase b');
  adv_wf : wf_backup b → wf_backup b';
}.

Definition completed (b : BackupStatus) : bool := String.eqb (b_backupPhase b) Completed.
Definition started (b : BackupStatus) : bool := negb (String.eqb (b_backupPhase b) "").

Lemma finished_not_empty b : finished b → b_backupPhase b ≠ "".
Proof. by intros [-> | ->]. Qed.

Lemma backup_trans_finished p p' : backup_trans p p' → p = Completed ∨ p = Failed → p' = p.
Proof. intros [] [|]; naive_solver. Qed.

Lemma backup_trans_nonempty p p' : backup_trans p p' → p ≠ "" → p' ≠ "".
Proof. by intros []. Qed.

Lemma advances_refl b : advances b b.
Proof. split; [done..|constructor|constructor|done]. Qed.

Lemma advances_started b b' : advances b b' → started b = true → started b' = true.
Proof.
  unfold started. rewrite !negb_true_iff, !String.eqb_neq. intros H.
  apply backup_trans_nonempty, (adv_backup _ _ H).
Qed.

(** The transitions as the controller writes them. *)
Lemma advances_backup_finished phase msg t b :
  b_backupPhase b = Running → phase = Completed ∨ phase = Failed →
  advances b (backup_finished phase msg t b).
Proof.
  intros Hr Hp. split; [done..| | |].
  - simpl. rewrite Hr. destruct Hp as [-> | ->]; constructor.
  - constructor.
  - intros Hwf. split; simpl; [by intros ?|by intros ?|apply Hwf].
Qed.

Lemma advances_start b :
  b_backupPhase b = "" → advances b (set_backupPhase Running b).
Proof.
  intros Hb. split; [done..| | |].
  - simpl. rewrite Hb. constructor.
  - constructor.
  - intros [Hd Hf Hdf]. split; simpl.
    + intros Hd'%Hd%finished_not_empty. done.
    + intros Hf'%Hf%finished_not_empty. done.
    + done.
Qed.

Lemma advances_delete_start b :
  b_deletePhase b = "" ∨ b_deletePhase b = Running → finished b →
  advances b (set_deletePhase Running b).
Proof.
  intros Hb Hfin. split; [done..|constructor| |].
  - simpl. destruct Hb as [-> | ->]; constructor.
  - intros [Hd Hf Hdf]. split; simpl; [done..|].
    intros HH%Hdf. by destruct Hb as [Hb|Hb]; rewrite Hb in HH.
Qed.

Lemma advances_delete_finished msg t b :
  b_deletePhase b = "" ∨ b_deletePhase b = Running → finished b →
  advances b (delete_finished Completed msg t b).
Proof.
  intros Hb Hfin. split; [done..|constructor| |].
  - simpl. destruct Hb as [-> | ->]; constructor.
  - intros [Hd Hf Hdf]. by split; simpl.
Qed.

Lemma advances_set_deleteMessage msg b b' :
  advances b b' → advances b (set_deleteMessage msg b').
Proof.
  intros [? ? ? ? ? Hwf]. split; [done..|]. intros H. apply Hwf in H as [? ? ?]. by split.
Qed.

Section wire.
Context `{WireTime}.

Lemma wire_wf b : wf_backup b → wf_backup (wire_backup b).
Proof.
  intros [Hd Hf Hdf]. split; simpl; [done|..]; intros ?%wire_time_nonzero; auto.
Qed.

Lemma advances_wire b b' : advances b b' → advances b (wire_backup b').
Proof. intros [? ? ? ? ? Hwf]. split; [done..|]. auto using wire_wf. Qed.

Lemma started_wire b : started (wire_backup b) = started b.
Proof. done. Qed.
End wire.
#[export] Hint Resolve advances_refl advances_wire wire_wf : kkp.

(** ** The steps *)

Section steps.
Context {W : Type} `{SemverLib, StringSets, WireTime} (env : BackupEnv W).
Implicit Types cfg : EtcdBackupConfig.

(** *** Starting and observing backup jobs *)

Definition grows (acc acc' : ObjectMeta * option Result) : Prop :=
  ∃ fs, acc'.1 = set_finalizers fs acc.1 ∧ ∀ x, x ∈ om_finalizers acc.1 → x ∈ fs.

Lemma grows_refl acc : grows acc acc.
Proof. exists (om_finalizers acc.1). by destruct acc as [[]]. Qed.

#[local] Instance grows_preorder : PreOrder grows.
Proof.
  split; [intros acc; apply grows_refl|].
  intros a b c (fs & Hb & Hfs) (fs' & Hc & Hfs'). exists fs'. split.
  - rewrite Hc, Hb. done.
  - intros x Hx. apply Hfs'. rewrite Hb. by apply Hfs.
Qed.

Definition start_rel (acc : ObjectMeta * option Result) (b b' : BackupStatus) : Prop :=
  advances b b' ∧ b_deletePhase b' = b_deletePhase b ∧
  (started b' = true → started b = true ∨ DeleteAllBackupsFinalizer ∈ om_finalizers acc.1).

Lemma grows_AddFinalizer fs meta r r' : grows (meta, r) (AddFinalizer fs meta, r').
Proof.
  exists (om_finalizers (AddFinalizer fs meta)). split; [done|].
  intros x Hx. apply elem_of_AddFinalizer. by left.
Qed.

Lemma startBackup_rel cfg cluster dest store acc b w acc' b' w' :
  startBackup env cfg cluster dest store acc b w = (Ok (acc', b'), w') →
  grows acc acc' ∧ start_rel acc' b b'.
Proof.
  unfold startBackup. destruct acc as [meta ret]. intros HH.
  assert (Hrefl : ∀ acc, start_rel acc b b).
  { intros acc. split_and!; [apply advances_refl|done|by left]. }
  assert (Hgrow : ∀ r, grows (meta, ret) (meta, r)).
  { intros r. exists (om_finalizers meta). by destruct meta. }
  destruct (_ || _) eqn:Efin; [m_inv; auto|].
  destruct (String.eqb_spec (b_backupPhase b) Running) as [Hr|Hnr].
  - assert (Hst : started b = true) by (unfold started; by rewrite Hr).
    assert (Hfin : ∀ acc p m t, p = Completed ∨ p = Failed → start_rel acc b (backup_finished p m t b)).
    { intros acc p m t Hp. split; [by apply advances_backup_finished|]. split; [done|by left]. }
    m_inv; auto using grows_refl.
  - destruct (String.eqb_spec (b_backupPhase b) "") as [He|Hne]; [|m_inv; auto].
    assert (Hs : ∀ m r, start_rel (AddFinalizer [DeleteAllBackupsFinalizer] m, r) b (set_backupPhase Running b)).
    { intros m r. split; [by apply advances_start|]. split; [done|].
      intros _. right. apply elem_of_AddFinalizer. right. set_solver. }
    m_inv; auto using grows_AddFinalizer.
Qed.

Lemma startBackup_loop cfg cluster dest store meta l w meta' ret l' w' :
  for_each (startBackup env cfg cluster dest store) (meta, None) l w = (Ok ((meta', ret), l'), w') →
  grows (meta, None) (meta', ret) ∧ Forall2 (start_rel (meta', ret)) l l'.
Proof.
  apply for_each_mono; [apply _| |intros; by eapply startBackup_rel].
  intros s s' b b' (gs & Hs' & Hgs) (Ha & Hd & Hs). split_and!; [done..|].
  intros Hb. destruct (Hs Hb) as [?|Hin]; [by left|right]. rewrite Hs'. by apply Hgs.
Qed.

(** *** Delete jobs *)

Definition deletable (b : BackupStatus) : Prop :=
  finished b ∧ (b_deletePhase b = "" ∨ b_deletePhase b = Running).

(** What starting or finishing a delete job does to an entry. *)
Definition delete_rel (b b' : BackupStatus) : Prop :=
  advances b b' ∧ b_backupPhase b' = b_backupPhase b.

Lemma delete_rel_refl b : delete_rel b b.
Proof. split; [apply advances_refl|done]. Qed.

Lemma delete_rel_all_refl l : Forall2 delete_rel l l.
Proof. induction l; constructor; auto using delete_rel_refl. Qed.

Lemma createBackupDeleteJob_rel cfg cluster b dest ctr w b' w' :
  deletable b → createBackupDeleteJob env cfg cluster b dest ctr w = (Ok b', w') → delete_rel b b'.
Proof.
  intros [Hfin Hd]. unfold createBackupDeleteJob. intros HH.
  destruct ctr; m_inv; (split; [|done]);
    auto using advances_delete_start, advances_delete_finished.
Qed.

Lemma minReconcile_Some r x : is_Some (minReconcile [r; Some x]).
Proof. unfold minReconcile. simpl. destruct r; [|eauto]. by destruct (_ <? _); eauto. Qed.

(** The shared loop: entries outside the targets stay, targets move by
    [delete_rel], and every new running delete job is counted. *)
Lemma startDeleteJobs_loop cfg cluster dest ctr targets : ∀ l n ret w l' n' ret' w',
  NoDup (targets.*1) →
  (∀ i, i ∈ targets.*1 → ∃ b, l !! i = Some b ∧ deletable b) →
  for_range (startDeleteJobs env cfg cluster dest ctr) (l, n, ret) targets w = (Ok (l', n', ret'), w') →
  Forall2 delete_rel l l' ∧
  (∀ i, i ∉ targets.*1 → l' !! i = l !! i) ∧
  (count isRunningDelete l' + n ≤ count isRunningDelete l + n')%nat ∧
  (n' ≤ Nat.max n maxSimultaneousDeleteJobsPerConfig)%nat ∧
  (is_Some ret → is_Some ret') ∧ (ret' = None → l' = l).
Proof.
  induction targets as [|[i msg] targets IH]; intros l n ret w l' n' ret' w' Hnd Ht HH;
    cbn [for_range] in HH; csimpl in *.
  - m_inv. split_and!; auto; [|lia]. by apply delete_rel_all_refl.
  - apply NoDup_cons in Hnd as [Hni Hnd]. apply bind_ok_inv in HH as (a & w1 & E & HH).
    unfold startDeleteJobs in E. destruct (_ <? _)%nat eqn:Elt; m_inv.
    + destruct (Ht i) as (b & Hb & Hdel); [set_solver|].
      unfold deref in E. rewrite Hb in E. injection E as <-.
      apply createBackupDeleteJob_rel in E1 as Hrel; [|done].
      match goal with H : for_range _ (<[i:=?b1]> l, _, _) _ _ = _ |- _ => set (b' := b1) in * end.
      assert (Hrel' : delete_rel b b').
      { destruct Hrel as [Ha Hp]. unfold b'. destruct msg; split; auto using advances_set_deleteMessage. }
      apply IH in HH as (HF & Hout & Hcnt & Hmax & Hsome & _); [|done|].
      * assert (HF0 : Forall2 delete_rel l (<[i:=b']> l)).
        { apply Forall2_insert_r with b; [|done|done].
          apply delete_rel_all_refl. }
        split_and!.
        -- apply Forall2_same_length_lookup. split.
           { rewrite (Forall2_length _ _ _ HF0). apply (Forall2_length _ _ _ HF). }
           intros j x y Hx Hy. destruct (decide (j = i)) as [->|Hji].
           ++ rewrite Hout in Hy by done.
              rewrite list_lookup_insert_eq in Hy by by eapply lookup_lt_Some. by simplify_eq.
           ++ eapply Forall2_lookup_lr; [exact HF| |exact Hy].
              by rewrite list_lookup_insert_ne.
        -- intros j Hj. rewrite Hout by set_solver. apply list_lookup_insert_ne. set_solver.
        -- pose proof (count_insert isRunningDelete l i b b' Hb) as Hci.
           destruct (isRunningDelete b), (isRunningDelete b'); cbn in Hci; lia.
        -- apply Nat.ltb_lt in Elt. lia.
        -- intros _. apply Hsome, minReconcile_Some.
        -- intros Hr. rewrite Hr in Hsome. destruct Hsome as [? ?]; [apply minReconcile_Some|done].
      * intros j Hj. destruct (Ht j) as (x & Hx & Hxd); [set_solver|]. exists x.
        rewrite list_lookup_insert_ne; [done|]. by intros ->.
    + apply IH in HH as (HF & Hout & Hcnt & Hmax & Hsome & Hnone); [|done|set_solver].
      split_and!; auto. intros j Hj. apply Hout. set_solver.
Qed.

(** *** Retention *)

(** An entry the retention policy gives up: a failed backup, or a completed one
    with at least [keep] newer completed ones, whose deletion has not begun. *)
Definition surplus (keep : Z) (l : list BackupStatus) (i : nat) (b : BackupStatus) : Prop :=
  b_deletePhase b = "" ∧
  (b_backupPhase b = Failed ∨
   b_backupPhase b = Completed ∧ keep ≤ Z.of_nat (count completed (drop (S i) l))).

(** The scan with [kept] completed backups seen already. *)
Definition selected (keep kept : Z) (l : list BackupStatus) (i : nat) : Prop :=
  ∃ b, l !! i = Some b ∧ b_deletePhase b = "" ∧
    (b_backupPhase b = Failed ∨
     b_backupPhase b = Completed ∧ keep < kept + 1 + Z.of_nat (count completed (drop (S i) l))).

Lemma selected_snoc keep kept l b i :
  selected keep kept (l ++ [b]) i ↔
  selected keep (kept + if completed b then 1 else 0) l i ∨
  i = length l ∧ b_deletePhase b = "" ∧
    (b_backupPhase b = Failed ∨ b_backupPhase b = Completed ∧ keep < kept + 1).
Proof.
  unfold selected. split.
  - intros (x & Hx & Hd & Hp). apply lookup_app_Some in Hx as [Hx|[Hlen Hx]].
    + left. exists x. split_and!; [done..|]. pose proof (lookup_lt_Some _ _ _ Hx).
      rewrite drop_app_le, count_app, count_cons in Hp by lia.
      destruct Hp as [?|[? ?]]; [by left|right]. split; [done|]. destruct (completed b); rewrite ?count_nil in *; lia.
    + apply list_lookup_singleton_Some in Hx as [Hi <-]. right.
      assert (i = length l) as -> by lia. split_and!; [done..|].
      rewrite drop_ge in Hp by (rewrite length_app; simpl; lia). rewrite count_nil in Hp. naive_solver lia.
  - intros [(x & Hx & Hd & Hp)|(-> & Hd & Hp)].
    + pose proof (lookup_lt_Some _ _ _ Hx). exists x.
      split_and!; [by apply lookup_app_l_Some|done|].
      rewrite drop_app_le, count_app, count_cons by lia.
      destruct Hp as [?|[? ?]]; [by left|right]. split; [done|]. destruct (completed b); rewrite ?count_nil in *; lia.
    + exists b. split_and!; [by rewrite list_lookup_middle|done|].
      rewrite drop_ge by (rewrite length_app; simpl; lia). rewrite count_nil. naive_solver lia.
Qed.

Lemma imap_pair_snoc (l : list BackupStatus) b :
  rev (imap pair (l ++ [b])) = (length l, b) :: rev (imap pair l).
Proof. rewrite imap_app, rev_app_distr. simpl. by rewrite Nat.add_0_r. Qed.

Lemma selectBackupsToDelete_spec keep l : ∀ kept,
  let r := selectBackupsToDelete keep (rev (imap pair l)) kept in
  (∀ i, i ∈ r.1 ↔ selected keep kept l i) ∧ NoDup r.1 ∧ r.2 = count isRunningDelete l.
Proof.
  induction l as [|b l IH] using rev_ind; intros kept; cbn zeta.
  { split_and!; [|constructor|done]. intros i. simpl. unfold selected. set_solver. }
  rewrite imap_pair_snoc. cbn [selectBackupsToDelete].
  setoid_rewrite selected_snoc. rewrite count_app, count_cons, count_nil.
  unfold completed at 1.
  assert (Hlen : ∀ k, length l ∉ (selectBackupsToDelete keep (rev (imap pair l)) k).1).
  { intros k Hin. apply (proj1 (IH k)) in Hin as (x & Hx & _). apply lookup_lt_Some in Hx. lia. }
  pose proof (IH kept) as (Hin0 & Hnd0 & Hn0). specialize (Hlen kept) as Hl0.
  pose proof (IH (kept + 1)) as (Hin1 & Hnd1 & Hn1). specialize (Hlen (kept + 1)) as Hl1.
  destruct (selectBackupsToDelete keep (rev (imap pair l)) kept) as [r0 n0].
  destruct (selectBackupsToDelete keep (rev (imap pair l)) (kept + 1)) as [r1 n1].
  simpl in *. rewrite Nat.add_0_r.
  destruct (String.eqb_spec (b_backupPhase b) Failed) as [Hf|Hf],
           (String.eqb_spec (b_backupPhase b) Completed) as [Hc|Hc],
           (String.eqb_spec (b_deletePhase b) "") as [Hd|Hd]; simpl;
    [by rewrite Hf in Hc..| | | | | | ];
    try destruct (Z.ltb_spec keep (kept + 1)); simpl;
    (split_and!; [|by try apply NoDup_cons|lia]);
    intros i; rewrite ?elem_of_cons, ?Z.add_0_r, ?Hin0, ?Hin1; naive_solver lia.
Qed.

Definition keepCount cfg : Z := if bc_deleting cfg then 0 else GetKeptBackupsCount cfg.

Lemma selected_surplus keep l i :
  selected keep 0 l i ↔ ∃ b, l !! i = Some b ∧ surplus keep l i b.
Proof. unfold selected, surplus. naive_solver lia. Qed.

Lemma surplus_deletable keep l i b : surplus keep l i b → deletable b.
Proof. unfold surplus, deletable, finished. naive_solver. Qed.

Lemma count_wire l : count isRunningDelete (wire_backup <$> l) = count isRunningDelete l.
Proof. by rewrite count_map. Qed.

Lemma delete_rel_wire l l' : Forall2 delete_rel l l' → Forall2 delete_rel l (wire_backup <$> l').
Proof.
  intros HF. apply Forall2_fmap_r. eapply Forall2_impl; [exact HF|].
  intros b b' [? ?]. split; auto with kkp.
Qed.

(** The loop of [startPendingBackupDeleteJobs] on the indices that the scan
    selected. *)
Lemma surplus_loop cfg cluster dest ctr l targets n w l' n' modified w' :
  selectBackupsToDelete (keepCount cfg) (rev (imap pair l)) 0 = (targets, n) →
  for_range (startDeleteJobs env cfg cluster dest ctr) (l, n, None)
    (map (λ i, (i, None)) targets) w = (Ok (l', n', modified), w') →
  Forall2 delete_rel l l' ∧
  (count isRunningDelete l' ≤ Nat.max (count isRunningDelete l) maxSimultaneousDeleteJobsPerConfig)%nat ∧
  (∀ i b b', l !! i = Some b → l' !! i = Some b' →
     b_deletePhase b' ≠ b_deletePhase b → surplus (keepCount cfg) l i b) ∧
  (modified = None → l' = l).
Proof.
  intros Esel Eloop.
  destruct (selectBackupsToDelete_spec (keepCount cfg) l 0) as (Hin & Hnd & Hn).
  rewrite Esel in Hin, Hnd, Hn. simpl in Hin, Hnd, Hn. subst n.
  assert (Hfst : (map (λ i, (i, None : option string)) targets).*1 = targets).
  { clear. induction targets; csimpl; congruence. }
  apply startDeleteJobs_loop in Eloop as (HF & Hout & Hcnt & Hmax & _ & Hnone);
    rewrite ?Hfst in *; [|done|].
  - split_and!; [done|lia| |done].
    intros i b b' Hb Hb' Hne. destruct (decide (i ∈ targets)) as [Hi|Hi].
    + apply Hin, selected_surplus in Hi as (b2 & Hb2 & ?). by simplify_eq.
    + rewrite Hout in Hb' by done. by simplify_eq.
  - intros i Hi. apply Hin, selected_surplus in Hi as (b & Hb & Hs%surplus_deletable). eauto.
Qed.

(** *** Running delete jobs *)

Definition keeps_running (b b' : BackupStatus) : Prop :=
  isRunningDelete b' = true → isRunningDelete b = true.

Lemma isRunningDelete_spec b : isRunningDelete b = true ↔ b_deletePhase b = Running.
Proof. unfold isRunningDelete. apply String.eqb_eq. Qed.

Lemma running_deletable b : wf_backup b → isRunningDelete b = true → deletable b.
Proof.
  rewrite isRunningDelete_spec. intros Hwf Hr. split; [|by right].
  apply Hwf. by rewrite Hr.
Qed.

Lemma updateDelete_inv i tr n ret b w i' tr' n' ret' b' w' :
  wf_backup b → updateDelete env (i, tr, n, ret) b w = (Ok ((i', tr', n', ret'), b'), w') →
  i' = S i ∧ delete_rel b b' ∧ keeps_running b b' ∧
  (tr' = tr ∨ ∃ msg, tr' = tr ++ [(i, msg)] ∧ b' = b ∧ deletable b ∧ isRunningDelete b = true).
Proof.
  intros Hwf. unfold updateDelete. intros HH.
  assert (Hrefl : delete_rel b b) by apply delete_rel_refl.
  assert (Hk : ∀ x, isRunningDelete b = true → keeps_running b x) by (intros x Hb _; exact Hb).
  assert (keeps_running b b) by exact id.
  destruct (isRunningDelete b) eqn:Er; [|m_inv; auto].
  destruct (running_deletable b Hwf Er) as [Hfin Hrun].
  assert (Hd : ∀ m t, delete_rel b (delete_finished Completed m t b)).
  { intros m t. split; [by apply advances_delete_finished|done]. }
  assert (deletable b) by done.
  m_inv; split_and!; auto; right; eauto.
Qed.

Lemma updateDelete_loop : ∀ l i tr n ret w i' tr' n' ret' l' w',
  Forall wf_backup l → for_each (updateDelete env) (i, tr, n, ret) l w = (Ok ((i', tr', n', ret'), l'), w') →
  Forall2 delete_rel l l' ∧ Forall2 keeps_running l l' ∧
  ∃ new, tr' = tr ++ new ∧ NoDup new.*1 ∧
    ∀ j, j ∈ new.*1 → (i ≤ j)%nat ∧ ∃ b, l' !! (j - i)%nat = Some b ∧ deletable b ∧ isRunningDelete b = true.
Proof.
  induction l as [|b l IH]; intros i tr n ret w i' tr' n' ret' l' w' Hwf HH; cbn [for_each] in HH.
  { m_inv. split_and!; [constructor..|]. exists []. rewrite app_nil_r.
    split_and!; [done|constructor|]. set_solver. }
  apply Forall_cons in Hwf as [Hwf Hwfs].
  apply bind_ok_inv in HH as ([[[[i1 tr1] n1] ret1] b1] & w1 & E1 & HH).
  apply bind_ok_inv in HH as ([[[[i2 tr2] n2] ret2] l2] & w2 & E2 & HH).
  m_inv. apply updateDelete_inv in E1 as (-> & Hrel & Hk & Htr); [|done].
  apply IH in E2 as (HF & HK & new & -> & Hnd & Hnew); [|done].
  split_and!; [by constructor..|].
  assert (Hshift : ∀ j, j ∈ new.*1 → (i ≤ j)%nat ∧ ∃ x, (b1 :: l2) !! (j - i)%nat = Some x ∧ deletable x ∧ isRunningDelete x = true).
  { intros j Hj. destruct (Hnew j Hj) as (Hle & x & Hx & Hdx). split; [lia|]. exists x.
    by replace (j - i)%nat with (S (j - S i)) by lia. }
  destruct Htr as [->|(msg & -> & -> & Hdel & Hr)]; [by exists new|].
  exists ((i, msg) :: new). rewrite <- app_assoc. split_and!; [done| |].
  - apply NoDup_cons. split; [|done]. intros Hi%Hnew. simpl in Hi. destruct Hi. lia.
  - intros j. csimpl. rewrite elem_of_cons. intros [->|Hj]; [|by apply Hshift].
    split; [lia|]. rewrite Nat.sub_diag. by exists b.
Qed.

Lemma count_keeps_running l l' :
  Forall2 keeps_running l l' → (count isRunningDelete l' ≤ count isRunningDelete l)%nat.
Proof. apply count_le. Qed.

Lemma delete_trans_trans p q r : delete_trans p q → delete_trans q r → delete_trans p r.
Proof. intros [] Hq; inversion Hq; constructor. Qed.

Lemma delete_rel_trans a b c : delete_rel a b → delete_rel b c → delete_rel a c.
Proof.
  intros [[? ? ? _ Hd Hw] Hp] [[? ? ? _ Hd' Hw'] Hp']. split; [|congruence].
  split; try congruence.
  - rewrite Hp', Hp. constructor.
  - by eapply delete_trans_trans.
  - auto.
Qed.

Lemma delete_rel_wf l l' : Forall wf_backup l → Forall2 delete_rel l l' → Forall wf_backup l'.
Proof. apply Forall2_impl_Forall. intros a b ? [[] _]; auto. Qed.

(** Both loops of [updateRunningBackupDeleteJobs]. *)
Lemma restart_loop cfg cluster dest ctr l i tr n ret l1 w w1 l2 n2 ret2 w2 :
  Forall wf_backup l →
  for_each (updateDelete env) (0%nat, [], 0%nat, None) l w = (Ok ((i, tr, n, ret), l1), w1) →
  for_range (startDeleteJobs env cfg cluster dest ctr) (l1, n, ret) tr w1 = (Ok (l2, n2, ret2), w2) →
  Forall2 delete_rel l l2 ∧ (count isRunningDelete l2 ≤ count isRunningDelete l)%nat.
Proof.
  intros Hwf E1 E2.
  apply updateDelete_loop in E1 as (HF1 & HK1 & new & -> & Hnd & Hnew); [|done].
  apply startDeleteJobs_loop in E2 as (HF2 & Hout & _); [|done|].
  - split; [by eapply Forall2_compose; [apply delete_rel_trans|exact HF1|exact HF2]|].
    etransitivity; [|by apply count_keeps_running]. apply count_le.
    apply Forall2_same_length_lookup. split; [by eapply Forall2_length|].
    intros j x y Hx Hy. destruct (decide (j ∈ new.*1)) as [Hj|Hj].
    + destruct (Hnew j Hj) as (_ & b & Hb & _ & Hr). rewrite Nat.sub_0_r in Hb. by simplify_eq.
    + rewrite Hout in Hy by done. by simplify_eq.
  - intros j Hj. destruct (Hnew j Hj) as (_ & b & Hb & Hd & _). rewrite Nat.sub_0_r in Hb. eauto.
Qed.

(** *** Clean-up *)

(** An entry may be forgotten when its backup never ran and the configuration
    is being deleted, or when both its jobs are finished. *)
Definition forgettable cfg (b : BackupStatus) : Prop :=
  (bc_deleting cfg = true ∧ b_backupPhase b = "") ∨
  (b_backupFinishedTime b ≠ 0 ∧ b_deleteFinishedTime b ≠ 0).

Lemma cleanupBackup_inv cfg b w stays r1 r2 w' :
  cleanupBackup env cfg b w = (Ok (stays, r1, r2), w') → stays = false → forgettable cfg b.
Proof.
  unfold cleanupBackup, forgettable. intros HH Hs.
  destruct (bc_deleting cfg && String.eqb (b_backupPhase b) "") eqn:E1.
  { left. apply andb_true_iff in E1 as [? ?%String.eqb_eq]. done. }
  right. unfold Time_IsZero in HH.
  destruct (Z.eqb_spec (b_backupFinishedTime b) 0) as [?|Hb].
  { apply bind_ok_inv in HH as ([d r] & w1 & E & HH). apply ret_ok_inv in E as [[= <- <-] _].
    m_inv. }
  destruct (Z.eqb_spec (b_deleteFinishedTime b) 0) as [?|Hd]; [|done].
  apply bind_ok_inv in HH as ([d r] & w1 & E & HH).
  apply bind_ok_inv in HH as ([d2 r3] & w2 & E2 & HH). apply ret_ok_inv in E2 as [[= <- <-] _].
  apply ret_ok_inv in HH as [[= HH ? ?] _]. by rewrite andb_false_r in HH; simplify_eq.
Qed.

Lemma cleanup_loop cfg : ∀ l acc m ret w acc' m' ret' w',
  for_range (cleanupStep env cfg) (acc, m, ret) l w = (Ok (acc', m', ret'), w') →
  ∃ kept, acc' = acc ++ kept ∧ pruned (forgettable cfg) l kept ∧ (m' = false → m = false ∧ kept = l).
Proof.
  induction l as [|b l IH]; intros acc m ret w acc' m' ret' w' HH; cbn [for_range] in HH.
  { apply ret_ok_inv in HH as [[= <- <- <-] _]. exists [].
    split_and!; [by rewrite app_nil_r|constructor|done]. }
  apply bind_ok_inv in HH as ([[acc1 m1] ret1] & w1 & E1 & HH).
  unfold cleanupStep in E1. apply bind_ok_inv in E1 as ([[stays r1] r2] & w2 & Ec & E1).
  destruct stays; apply ret_ok_inv in E1 as [[= <- <- <-] _];
    apply IH in HH as (kept & -> & Hp & Hm).
  - exists (b :: kept). rewrite <- app_assoc. split_and!; [done|by constructor|].
    intros Hm'. destruct (Hm Hm') as [? ->]. done.
  - exists kept. split_and!; [done|constructor; [|done]|].
    + by eapply cleanupBackup_inv.
    + intros Hm'. by destruct (Hm Hm').
Qed.
End steps.
