(* ===== verification/EtcdBackupInv.v ===== *)
(** * The persisted state of the etcd backup controller

    The invariant of a stored [EtcdBackupConfig], preserved by every reconcile,
    also by one that fails half way, and the life cycle of its entries. *)

From S2P Require Import Prelude ResourceNames Kube Semver CloudApi ClusterApi Helper Corev1 EtcdBackup EtcdBackupFacts.

(** ** What the API server promises

    [view k w] is the object stored under [k].  A main-resource update keeps the
    stored status, a status patch keeps everything but the status, and writes
    [currentBackups] as one value (JSON merge patches replace lists); both give
    the object a new resource version.  A failed call may still have been
    applied.  An object without finalizers that is being deleted disappears.
    Nothing else in the environment touches the stored configurations. *)
Class BackupWorld {W} `{WireTime} (env : BackupEnv W) := {
  view : NamespacedName → W → option EtcdBackupConfig;
  view_now : ∀ k, keeps (view k) (read (be_now env));
  view_rand : ∀ k, keeps (view k) (read (be_rand env));
  view_event : ∀ k t r m, keeps (view k) (emit (be_event env t r m));
  view_job_get : ∀ k key, keeps (view k) (c_get (be_jobs env) key);
  view_job_create : ∀ k j, keeps (view k) (c_create (be_jobs env) j);
  view_job_delete : ∀ k j, keeps (view k) (c_delete (be_jobs env) j);
  view_ensureSecrets : ∀ k c, keeps (view k) (be_ensureSecrets env c);
  view_ensureConfigMaps : ∀ k c, keeps (view k) (be_ensureConfigMaps env c);
  view_seedGetter : ∀ k, keeps (view k) (be_seedGetter env);
  view_configGetter : ∀ k, keeps (view k) (be_configGetter env);
  view_cluster_get : ∀ k key, keeps (view k) (c_get (be_clusters env) key);
  view_get : ∀ k key, keeps (view k) (c_get (be_configs env) key);
  view_get_ok : ∀ k w o w', c_get (be_configs env) k w = (Ok o, w') → view k w = Some o;
  view_key : ∀ k w o, view k w = Some o → object_key o = k;
  view_update : ∀ o w r w', c_update (be_configs env) o w = (r, w') →
    let k := object_key o in
    (view k w' = view k w ∧ ∀ x, r ≠ Ok x) ∨
    ∃ v rv, view k w = Some v ∧
      let o' := mkBackupConfig (set_resourceVersion rv (bc_meta o)) (bc_spec o) (bc_status v) in
      (view k w' = Some o' ∨ view k w' = None ∧ om_finalizers (bc_meta o) = []) ∧
      (∀ x, r = Ok x → x = o');
  view_status_patch : ∀ old new w r w', c_status_patch (be_configs env) old new w = (r, w') →
    let k := object_key new in
    (view k w' = view k w ∧ ∀ x, r ≠ Ok x) ∨
    ∃ v rv s, view k w = Some v ∧
      let o' := mkBackupConfig (set_resourceVersion rv (bc_meta v)) (bc_spec v) s in
      (bc_backups old = bc_backups v → bst_currentBackups s = wire_backup <$> bc_backups new) ∧
      view k w' = Some o' ∧ (∀ x, r = Ok x → x = o');
}.
#[export] Hint Resolve view_now view_rand view_event view_job_get view_job_create view_job_delete
  view_ensureSecrets view_ensureConfigMaps view_seedGetter view_configGetter view_cluster_get
  view_get : kkp_frame.

(** ** The invariant *)

Record backup_inv (cfg : EtcdBackupConfig) : Prop := {
  bi_wf : Forall wf_backup (bc_backups cfg);
  bi_running : (count isRunningDelete (bc_backups cfg) ≤ maxSimultaneousDeleteJobsPerConfig)%nat;
  bi_finalizer : existsb started (bc_backups cfg) = true →
    DeleteAllBackupsFinalizer ∈ om_finalizers (bc_meta cfg);
}.

(** An entry as [ensurePendingBackupIsScheduled] appends it. *)
Definition fresh_backup (b : BackupStatus) : Prop :=
  b_backupPhase b = "" ∧ b_deletePhase b = "" ∧ b_backupFinishedTime b = 0 ∧ b_deleteFinishedTime b = 0.

(** What one step does to the entries: some are forgotten, the others advance,
    new ones are appended unless the configuration is being deleted. *)
Definition evolves (cfg cfg' : EtcdBackupConfig) : Prop :=
  ∃ kept moved added,
    bc_backups cfg' = moved ++ added ∧ pruned (forgettable cfg) (bc_backups cfg) kept ∧
    Forall2 advances kept moved ∧ Forall fresh_backup added ∧
    (bc_deleting cfg = true → added = []).

Lemma bc_backups_set l cfg : bc_backups (set_backups l cfg) = l.
Proof. done. Qed.

Lemma pruned_refl {A} (P : A → Prop) l : pruned P l l.
Proof. induction l; by constructor. Qed.

Lemma advances_all_refl l : Forall2 advances l l.
Proof. induction l; constructor; auto using advances_refl. Qed.

Lemma evolves_advance cfg cfg' :
  Forall2 advances (bc_backups cfg) (bc_backups cfg') → evolves cfg cfg'.
Proof.
  intros HF. exists (bc_backups cfg), (bc_backups cfg'), [].
  split_and!; [by rewrite app_nil_r|apply pruned_refl|done|constructor|done].
Qed.

Lemma fresh_wf b : fresh_backup b → wf_backup b.
Proof. intros (Hb & Hd & Hf & Hdf). split; [by rewrite Hd|by rewrite Hf|by rewrite Hdf]. Qed.

Lemma fresh_not_running b : fresh_backup b → isRunningDelete b = false ∧ started b = false.
Proof. intros (Hb & Hd & _). unfold isRunningDelete, started. by rewrite Hb, Hd. Qed.

Section wired.
Context `{WireTime}.

Lemma wired_all l : Forall2 advances l (wire_backup <$> l).
Proof. apply Forall2_fmap_r. induction l; constructor; auto with kkp. Qed.

Lemma advances_wire_all l l' : Forall2 advances l l' → Forall2 advances l (wire_backup <$> l').
Proof. intros HF. apply Forall2_fmap_r. eapply Forall2_impl; [done|]. auto with kkp. Qed.

Lemma fresh_wire b : fresh_backup b → fresh_backup (wire_backup b).
Proof. intros (Hb & Hd & Hf & Hdf). split_and!; simpl; rewrite ?Hf, ?Hdf; auto using wire_time_zero. Qed.

Lemma existsb_started_wire l : existsb started (wire_backup <$> l) = existsb started l.
Proof. induction l as [|b l IH]; [done|]. csimpl. by rewrite IH. Qed.

Lemma wf_wire_all l : Forall wf_backup l → Forall wf_backup (wire_backup <$> l).
Proof. intros HF. apply Forall_fmap. eapply Forall_impl; [done|]. intros. by apply wire_wf. Qed.

(** The invariant sees the entries through the wire and ignores the resource
    version. *)
Lemma backup_inv_wire cfg cfg' :
  backup_inv cfg → om_finalizers (bc_meta cfg') = om_finalizers (bc_meta cfg) →
  bc_backups cfg' = wire_backup <$> bc_backups cfg → backup_inv cfg'.
Proof.
  intros [Hwf Hr Hf] Hfin Hbs. split; rewrite Hbs.
  - by apply wf_wire_all.
  - by rewrite count_wire.
  - rewrite existsb_started_wire, Hfin. done.
Qed.
End wired.

(** More finalizers do no harm. *)
Lemma backup_inv_grow cfg cfg' :
  backup_inv cfg → bc_backups cfg' = bc_backups cfg →
  (∀ x, x ∈ om_finalizers (bc_meta cfg) → x ∈ om_finalizers (bc_meta cfg')) → backup_inv cfg'.
Proof. intros [? ? ?] Hb ?. split; rewrite Hb; auto. Qed.

Lemma advances_wf_all l l' : Forall wf_backup l → Forall2 advances l l' → Forall wf_backup l'.
Proof. apply Forall2_impl_Forall. intros a b Ha Hab. by apply (adv_wf _ _ Hab). Qed.

(** ** Writes *)
Section writes.
Context {W : Type} `{SemverLib, StringSets, WireTime} (env : BackupEnv W) `{!BackupWorld env}.
Implicit Types cfg : EtcdBackupConfig.

(** The stored object and the one in memory differ in conditions at most. *)
Record agrees v cfg : Prop := {
  ag_meta : bc_meta v = bc_meta cfg;
  ag_spec : bc_spec v = bc_spec cfg;
  ag_backups : bc_backups v = bc_backups cfg;
}.
Definition sync (k : NamespacedName) cfg (w : W) : Prop :=
  object_key cfg = k ∧ ∃ v, view k w = Some v ∧ agrees v cfg.
Definition stored_inv (k : NamespacedName) (w : W) : Prop :=
  ∀ v, view k w = Some v → backup_inv v.

Lemma backup_inv_agrees v cfg : agrees v cfg → backup_inv cfg → backup_inv v.
Proof. intros [Hm _ Hb] [? ? ?]. split; by rewrite ?Hm, Hb. Qed.

Lemma sync_stored k cfg w : sync k cfg w → backup_inv cfg → stored_inv k w.
Proof. intros (_ & v & Hv & Ha) Hi v' Hv'. simplify_eq. by eapply backup_inv_agrees. Qed.

Lemma sync_keeps k cfg w w' : sync k cfg w → view k w' = view k w → sync k cfg w'.
Proof. intros [? (v & Hv & ?)] E. split; [done|]. exists v. by rewrite E. Qed.

(** Everything but resource version and status. *)
Definition same_object cfg cfg' : Prop :=
  bc_spec cfg' = bc_spec cfg ∧ ∃ rv, bc_meta cfg' = set_resourceVersion rv (bc_meta cfg).

Lemma same_object_refl cfg : same_object cfg cfg.
Proof. split; [done|]. exists (om_resourceVersion (bc_meta cfg)). by destruct cfg as [[]]. Qed.

Lemma same_object_key cfg cfg' : same_object cfg cfg' → object_key cfg' = object_key cfg.
Proof. intros [_ [rv Hm]]. unfold object_key. simpl. by rewrite Hm. Qed.

Lemma same_object_deleting cfg cfg' : same_object cfg cfg' → bc_deleting cfg' = bc_deleting cfg.
Proof. intros [_ [rv Hm]]. unfold bc_deleting. by rewrite Hm. Qed.

Lemma patch_step k old new w r w' :
  sync k old w → backup_inv old → bc_meta new = bc_meta old → bc_spec new = bc_spec old →
  backup_inv new → patch_status env old new w = (r, w') →
  stored_inv k w' ∧
  ∀ x, r = Ok x → sync k x w' ∧ same_object new x ∧ bc_backups x = wire_backup <$> bc_backups new.
Proof.
  intros Hsync Hold Hmeta Hspec Hnew E. pose proof Hsync as (Hk & v & Hv & [Hm Hs Hb]).
  assert (Hkn : object_key new = k) by (unfold object_key in *; simpl in *; by rewrite Hmeta).
  apply view_status_patch in E. simpl in E. rewrite Hkn in E.
  destruct E as [[Hw Hr]|(v' & rv & s & Hv' & Hbs & Hw & Hr)].
  - split; [|by intros x ?%Hr]. intros x Hx. rewrite Hw in Hx. by apply (sync_stored k old w).
  - assert (v' = v) as -> by congruence. specialize (Hbs (eq_sym Hb)).
    match type of Hw with _ = Some ?x => set (o := x) in * end.
    assert (Hso : same_object new o).
    { split; [by rewrite Hspec, <- Hs|]. exists rv. simpl. by rewrite Hmeta, <- Hm. }
    split.
    + intros x Hx. rewrite Hw in Hx. injection Hx as <-. eapply backup_inv_wire; [exact Hnew| |done].
      destruct Hso as [_ [? ->]]. done.
    + intros x ->%Hr. split_and!; [|done|done]. split; [by rewrite (same_object_key _ _ Hso)|].
      exists o. by split.
Qed.

Lemma persist_step k cfg0 cfg w r w' :
  sync k cfg0 w → backup_inv cfg0 → object_key cfg = k →
  (∀ x, x ∈ om_finalizers (bc_meta cfg0) → x ∈ om_finalizers (bc_meta cfg)) →
  backup_inv cfg → persist env cfg w = (r, w') →
  stored_inv k w' ∧
  ∀ x, r = Ok x → sync k x w' ∧ same_object cfg x ∧ bc_backups x = wire_backup <$> bc_backups cfg.
Proof.
  intros Hsync Hold Hk Hfin Hinv. pose proof Hsync as (Hk0 & v & Hv & [Hm Hs Hb]).
  unfold persist, mbind, M_MBind, M_bind, wrap at 1. intros E.
  destruct (c_update (be_configs env) cfg w) as [r1 w1] eqn:Eu.
  apply view_update in Eu. simpl in Eu. rewrite Hk in Eu.
  destruct Eu as [[Hw Hr]|(v' & rv & Hv' & Hw & Hr)].
  { assert (stored_inv k w1) by (eapply sync_stored; [by eapply sync_keeps|done]).
    destruct r1 as [x| | |]; simplify_eq; [by destruct (Hr x)|by split..]. }
  assert (v' = v) as -> by congruence. match type of Hr with ∀ x, _ → _ = ?y => set (o := y) in * end.
  assert (Hino : backup_inv o).
  { eapply backup_inv_grow; [exact Hold|exact Hb|exact Hfin]. }
  assert (Hst1 : stored_inv k w1).
  { intros x Hx. destruct Hw as [Hw|[Hw _]]; rewrite Hw in Hx; by simplify_eq. }
  destruct r1 as [x|e|p|]; [|injection E as <- <-; by split..].
  rewrite (Hr x) in E by done. clear Hr.
  destruct (patch_status env o (set_bc_status (bc_status cfg) o) w1) as [r2 w2] eqn:Ep.
  assert (Hpost : stored_inv k w2 ∧ ∀ x, r2 = Ok x →
    sync k x w2 ∧ same_object cfg x ∧ bc_backups x = wire_backup <$> bc_backups cfg).
  { destruct Hw as [Hw|[Hw _]].
    - eapply patch_step in Ep as [Hst Hp]; [|split; [|by exists o]|done..|].
      + split; [done|]. intros y Hy. destruct (Hp y Hy) as (Hsy & [Hsp [rv' Hmy]] & Hby).
        split_and!; [done| |done]. split; [done|]. exists rv'. by rewrite Hmy.
      + by rewrite <- Hk.
      + destruct Hinv. by split.
    - apply view_status_patch in Ep. simpl in Ep. destruct Ep as [[Hw2 Hr2]|(v2 & ? & ? & Hv2 & _)].
      + split; [|by intros y ?%Hr2]. intros y Hy.
        replace (view k w2) with (@None EtcdBackupConfig) in Hy; [done|].
        rewrite <- Hw, <- Hk. symmetry. apply Hw2.
      + exfalso. rewrite <- Hk in Hw. assert (@None EtcdBackupConfig = Some v2) as [=].
        rewrite <- Hw, <- Hv2. reflexivity. }
  destruct r2; unfold wrap in E; rewrite Ep in E; simplify_eq; [done|split; [apply Hpost|done]..].
Qed.

(** ** Steps *)

Lemma stored_inv_view k w w' : view k w' = view k w → stored_inv k w → stored_inv k w'.
Proof. intros E Hst v. rewrite E. apply Hst. Qed.

Lemma triple_quiet {A} k w (m : M W A) :
  stored_inv k w → keeps (view k) m →
  triple (stored_inv k) w m (λ a w', m w = (Ok a, w') ∧ view k w' = view k w).
Proof. apply triple_keeps. apply stored_inv_view. Qed.

(** A step of the reconcile function, on the object the previous one left. *)
Definition ok_step k (f : EtcdBackupConfig → M W (EtcdBackupConfig * option Result)) : Prop :=
  ∀ cfg w, sync k cfg w → backup_inv cfg →
  triple (stored_inv k) w (f cfg) (λ '(cfg', _) w', sync k cfg' w' ∧ backup_inv cfg' ∧ evolves cfg cfg').

(** A status patch of the entries as the last action of a step. *)
Lemma triple_patch k cfg w msg l (res : option Result) :
  sync k cfg w → backup_inv cfg → backup_inv (set_backups l cfg) →
  (∀ cfg', bc_backups cfg' = wire_backup <$> l → evolves cfg cfg') →
  triple (stored_inv k) w
    (cfg' ← wrap msg (patch_status env cfg (set_backups l cfg)); mret (cfg', res))
    (λ '(cfg', _) w', sync k cfg' w' ∧ backup_inv cfg' ∧ evolves cfg cfg').
Proof.
  intros Hsync Hinv Hnew Hev.
  eapply (triple_bind _ _ _ _ (λ x w', sync k x w' ∧ same_object (set_backups l cfg) x ∧
                                       bc_backups x = wire_backup <$> l)).
  - apply triple_wrap. intros r w' E. by eapply patch_step in E.
  - intros x w1 (Hs & [_ [rv Hm]] & Hb).
    assert (backup_inv x) by (eapply backup_inv_wire; [exact Hnew|by rewrite Hm|done]).
    apply triple_ret; [by eapply sync_stored|]. auto.
Qed.

Lemma triple_id k cfg w res :
  sync k cfg w → backup_inv cfg →
  triple (stored_inv k) w (mret (cfg, res) : M W (EtcdBackupConfig * option Result))
    (λ '(cfg', _) w', sync k cfg' w' ∧ backup_inv cfg' ∧ evolves cfg cfg').
Proof.
  intros Hs Hi. apply triple_ret; [by eapply sync_stored|].
  split_and!; [done..|]. apply evolves_advance, advances_all_refl.
Qed.

(** *** Frames of the loops *)

Lemma keeps_startBackup k cfg cluster dest store acc b :
  keeps (view k) (startBackup env cfg cluster dest store acc b).
Proof. unfold startBackup, get_job, now. frame. Qed.

Lemma keeps_startDeleteJobs k cfg cluster dest ctr acc t :
  keeps (view k) (startDeleteJobs env cfg cluster dest ctr acc t).
Proof. unfold startDeleteJobs, createBackupDeleteJob, now. frame. Qed.

Lemma keeps_updateDelete k acc b : keeps (view k) (updateDelete env acc b).
Proof. unfold updateDelete, get_job. frame. Qed.

Lemma keeps_cleanupStep k cfg acc b : keeps (view k) (cleanupStep env cfg acc b).
Proof. unfold cleanupStep, cleanupBackup, deleteFinishedJob, get_job, now. frame. Qed.

Lemma keeps_nextBackup k cfg : keeps (view k) (nextBackup env cfg).
Proof. unfold nextBackup, now. frame. Qed.

Lemma keeps_limitNameLength k s : keeps (view k) (limitNameLength env s).
Proof. unfold limitNameLength, randString. frame. Qed.
End writes.
#[export] Hint Resolve keeps_startBackup keeps_startDeleteJobs keeps_updateDelete keeps_cleanupStep
  keeps_nextBackup keeps_limitNameLength : kkp_frame.

(** ** The steps preserve the invariant *)
Section preservation.
Context {W : Type} `{SemverLib, StringSets, WireTime} (env : BackupEnv W) `{!BackupWorld env}.
Implicit Types cfg : EtcdBackupConfig.

Lemma startPendingBackupJobs_ok k cluster dest store :
  ok_step env k (λ cfg, startPendingBackupJobs env cfg cluster dest store).
Proof.
  intros cfg w Hsync Hinv. unfold startPendingBackupJobs.
  eapply triple_bind; [apply triple_quiet; [by eapply sync_stored|frame]|].
  intros [[meta ret] l] w1 [El Hw]. apply startBackup_loop in El as [(fs & Hm & Hfs) HF].
  simpl in Hm. subst meta.
  set (new := set_meta (set_finalizers fs (bc_meta cfg)) (set_backups l cfg)).
  assert (HA : Forall2 advances (bc_backups cfg) l) by (eapply Forall2_impl; [done|]; by intros ?? [? _]).
  assert (Hnew : backup_inv new).
  { destruct Hinv as [Hwf Hrun Hfin]. split; simpl.
    - by eapply advances_wf_all.
    - etransitivity; [|exact Hrun]. apply count_le. eapply Forall2_impl; [exact HF|].
      intros b b' (_ & Hd & _). unfold isRunningDelete. by rewrite Hd.
    - intros (b' & Hin & Hst)%existsb_true_iff.
      apply list_elem_of_lookup in Hin as [i Hi].
      destruct (Forall2_lookup_r _ _ _ _ _ HF Hi) as (b & Hb & _ & _ & Hs).
      destruct (Hs Hst) as [Hsb|?]; [|done]. apply Hfs, Hfin, existsb_true_iff.
      exists b. split; [by eapply list_elem_of_lookup_2|done]. }
  eapply (triple_bind _ _ _ _ (λ x w', sync env k x w' ∧ same_object new x ∧
                                         bc_backups x = wire_backup <$> l)).
  - intros r w' E. eapply persist_step in E; [done|by eapply sync_keeps|done|apply Hsync|apply Hfs|done].
  - intros x w2 (Hs & [_ [rv Hmx]] & Hb).
    assert (backup_inv x) by (eapply backup_inv_wire; [exact Hnew|by rewrite Hmx|done]).
    apply triple_ret; [by eapply sync_stored|]. split_and!; [done..|].
    apply evolves_advance. rewrite Hb. by apply advances_wire_all.
Qed.

(** Steps that touch delete phases only. *)
Lemma backup_inv_delete cfg l :
  backup_inv cfg → Forall2 delete_rel (bc_backups cfg) l →
  (count isRunningDelete l ≤ maxSimultaneousDeleteJobsPerConfig)%nat →
  backup_inv (set_backups l cfg).
Proof.
  intros [Hwf Hrun Hfin] HF Hc. split; simpl; [by eapply delete_rel_wf|done|].
  intros (b' & Hin & Hst)%existsb_true_iff. apply list_elem_of_lookup in Hin as [i Hi].
  destruct (Forall2_lookup_r _ _ _ _ _ HF Hi) as (b & Hb & _ & Hp).
  apply Hfin, existsb_true_iff. exists b. split; [by eapply list_elem_of_lookup_2|].
  unfold started in *. by rewrite <- Hp.
Qed.

Lemma evolves_delete cfg l :
  Forall2 delete_rel (bc_backups cfg) l →
  ∀ cfg', bc_backups cfg' = wire_backup <$> l → evolves cfg cfg'.
Proof.
  intros HF cfg' Hb. apply evolves_advance. rewrite Hb. apply advances_wire_all.
  eapply Forall2_impl; [done|]. by intros ?? [? _].
Qed.

Lemma startPendingBackupDeleteJobs_ok k cluster dest ctr :
  ok_step env k (λ cfg, startPendingBackupDeleteJobs env cfg cluster dest ctr).
Proof.
  intros cfg w Hsync Hinv. unfold startPendingBackupDeleteJobs. fold (keepCount cfg).
  destruct (_ && _); [by apply triple_id|].
  destruct (selectBackupsToDelete _ _ 0) as [targets n] eqn:Esel.
  eapply triple_bind; [apply triple_quiet; [by eapply sync_stored|frame]|].
  intros [[l n'] modified] w1 [El Hw].
  destruct (surplus_loop _ _ _ _ _ _ _ _ _ _ _ _ _ Esel El) as (HF & Hc & _ & Hnone).
  assert (Hs : sync env k cfg w1) by by eapply sync_keeps.
  destruct modified; [|by apply triple_id].
  apply triple_patch; [done..| |by apply evolves_delete].
  apply backup_inv_delete; [done..|]. pose proof (bi_running _ Hinv). lia.
Qed.

Lemma updateRunningBackupDeleteJobs_ok k cluster dest ctr :
  ok_step env k (λ cfg, updateRunningBackupDeleteJobs env cfg cluster dest ctr).
Proof.
  intros cfg w Hsync Hinv. unfold updateRunningBackupDeleteJobs.
  assert (Hst : stored_inv env k w) by by eapply sync_stored.
  eapply triple_bind; [apply triple_quiet; [done|frame]|].
  intros [[[[i tr] n] ret] l1] w1 [E1 Hw1].
  eapply triple_bind; [apply triple_quiet; [|frame]|].
  { intros v. rewrite Hw1. apply Hst. }
  intros [[l2 n2] ret2] w2 [E2 Hw2].
  destruct (restart_loop _ _ _ _ _ _ _ _ _ _ _ _ _ _ _ _ _ (bi_wf _ Hinv) E1 E2) as [HF Hc].
  apply triple_patch; [|done| |by apply evolves_delete].
  - eapply sync_keeps; [done|congruence].
  - apply backup_inv_delete; [done..|]. pose proof (bi_running _ Hinv). lia.
Qed.

Lemma backup_inv_sublist cfg kept :
  sublist kept (bc_backups cfg) → backup_inv cfg → backup_inv (set_backups kept cfg).
Proof.
  intros Hsub [Hwf Hrun Hfin]. split; rewrite bc_backups_set.
  - by eapply Forall_sublist.
  - etransitivity; [by apply count_sublist|done].
  - intros (b & Hin & Hst)%existsb_true_iff. apply Hfin, existsb_true_iff.
    exists b. split; [by eapply elem_of_sublist|done].
Qed.

Lemma deleteFinishedBackupJobs_ok k : ok_step env k (deleteFinishedBackupJobs env).
Proof.
  intros cfg w Hsync Hinv. unfold deleteFinishedBackupJobs.
  eapply triple_bind; [apply triple_quiet; [by eapply sync_stored|frame]|].
  intros [[l modified] ret] w1 [El Hw].
  apply cleanup_loop in El as (kept & -> & Hp & _). simpl.
  assert (Hs : sync env k cfg w1) by by eapply sync_keeps.
  destruct modified; [|by apply triple_id].
  pose proof (pruned_sublist _ _ _ Hp) as Hsub.
  apply triple_patch; [done..| |].
  - by apply backup_inv_sublist.
  - intros cfg' Hb. exists kept, (wire_backup <$> kept), [].
    split_and!; [by rewrite app_nil_r|done|apply wired_all|constructor|done].
Qed.

(** *** Scheduling *)

(** At most one entry is appended, and only while not more than twice the
    retention count are tracked and nothing is being deleted. *)
Definition schedules cfg cluster cfg' : Prop :=
  ∃ moved added, bc_backups cfg' = moved ++ added ∧ Forall2 advances (bc_backups cfg) moved ∧
    (added = [] ∨ ∃ b, added = [b] ∧ fresh_backup b ∧ bc_deleting cfg = false ∧
       om_deletionTimestamp (cl_meta cluster) = None ∧
       Z.of_nat (length (bc_backups cfg)) ≤ 2 * GetKeptBackupsCount cfg).

Lemma schedules_none cfg cluster cfg' :
  Forall2 advances (bc_backups cfg) (bc_backups cfg') → schedules cfg cluster cfg'.
Proof. intros HF. exists (bc_backups cfg'), []. rewrite app_nil_r. auto. Qed.

Lemma schedules_evolves cfg cluster cfg' : schedules cfg cluster cfg' → evolves cfg cfg'.
Proof.
  intros (moved & added & Hb & HF & Hadd). exists (bc_backups cfg), moved, added.
  split_and!; [done|apply pruned_refl|done| |].
  - destruct Hadd as [->|(b & -> & Hf & _)]; [constructor|]. by constructor.
  - intros Hd. destruct Hadd as [->|(b & _ & _ & Hd' & _)]; congruence.
Qed.

Lemma setBackupConfigCondition_inv cfg t s r m w ch cfg' w' :
  setBackupConfigCondition env cfg t s r m w = (Ok (ch, cfg'), w') →
  bc_meta cfg' = bc_meta cfg ∧ bc_spec cfg' = bc_spec cfg ∧ bc_backups cfg' = bc_backups cfg.
Proof.
  unfold setBackupConfigCondition. intros HH. apply bind_ok_inv in HH as (t0 & w1 & _ & HH).
  by apply ret_ok_inv in HH as [[= _ <-] _].
Qed.

Lemma keeps_setBackupConfigCondition k cfg t s r m :
  keeps (view k) (setBackupConfigCondition env cfg t s r m).
Proof. unfold setBackupConfigCondition, now. frame. Qed.
Hint Resolve keeps_setBackupConfigCondition : kkp_frame.

Lemma backup_inv_same cfg cfg' :
  backup_inv cfg → bc_meta cfg' = bc_meta cfg → bc_backups cfg' = bc_backups cfg → backup_inv cfg'.
Proof. intros Hi Hm Hb. eapply backup_inv_grow; [done..|]. by rewrite Hm. Qed.

(** The entries as they were or after one trip through the API server. *)
Definition settled k cfg cfg' (w : W) : Prop :=
  sync env k cfg' w ∧ backup_inv cfg' ∧ same_object cfg cfg' ∧
  (bc_backups cfg' = bc_backups cfg ∨ bc_backups cfg' = wire_backup <$> bc_backups cfg).

Lemma settled_advances k cfg cfg' w :
  settled k cfg cfg' w → Forall2 advances (bc_backups cfg) (bc_backups cfg').
Proof. intros (_ & _ & _ & [-> | ->]); [apply advances_all_refl|apply wired_all]. Qed.

(** Setting the condition, and patching it with an event when it changed. *)
Lemma triple_condition k cfg w s r m et er em :
  sync env k cfg w → backup_inv cfg →
  triple (stored_inv env k) w (setSchedulingActive env cfg s r m et er em)
    (λ cfg' w', settled k cfg cfg' w').
Proof.
  intros Hsync Hinv. assert (Hst : stored_inv env k w) by by eapply sync_stored.
  unfold setSchedulingActive. eapply triple_bind; [apply triple_quiet; [done|frame]|].
  intros [ch cfg1] w1 [E1 Hw1]. apply setBackupConfigCondition_inv in E1 as (Hm & Hs & Hb).
  assert (Hinv1 : backup_inv cfg1) by by eapply backup_inv_same.
  assert (Hsync1 : sync env k cfg w1) by by eapply sync_keeps.
  destruct ch.
  - eapply (triple_bind _ _ _ _ (λ x w', sync env k x w' ∧ same_object cfg1 x ∧
                                     bc_backups x = wire_backup <$> bc_backups cfg1)).
    { apply triple_wrap. intros r' w' E. by eapply patch_step in E. }
    intros x w2 (Hsx & [Hsp [rv Hmx]] & Hbx).
    assert (backup_inv x) by (eapply backup_inv_wire; [exact Hinv1|by rewrite Hmx|done]).
    assert (stored_inv env k w2) by by eapply sync_stored.
    eapply triple_bind; [apply triple_quiet; [done|unfold event; frame]|].
    intros u w3 [_ Hw3]. apply triple_ret; [intros v; rewrite Hw3; auto|].
    split_and!; [by eapply sync_keeps|done| |right; by rewrite Hbx, Hb].
    split; [by rewrite Hsp|]. exists rv. by rewrite Hmx, Hm.
  - assert (Hs1 : sync env k cfg1 w1).
    { destruct Hsync1 as (Hk & v & Hv & [? ? ?]). split; [unfold object_key in *; simpl in *; by rewrite Hm|].
      exists v. split; [done|]. split; congruence. }
    apply triple_ret; [by eapply sync_stored|].
    split_and!; [done..| |by left]. split; [done|]. rewrite Hm.
    exists (om_resourceVersion (bc_meta cfg)). by destruct (bc_meta cfg).
Qed.

(** The entry that [ensurePendingBackupIsScheduled] appends. *)
Lemma triple_append k cfg w b :
  sync env k cfg w → backup_inv cfg → fresh_backup b →
  triple (stored_inv env k) w (persist env (set_backups (bc_backups cfg ++ [b]) cfg))
    (λ cfg' w', sync env k cfg' w' ∧ backup_inv cfg' ∧
       bc_backups cfg' = (wire_backup <$> bc_backups cfg) ++ [wire_backup b]).
Proof.
  intros Hsync Hinv Hb r w' E.
  assert (Hnew : backup_inv (set_backups (bc_backups cfg ++ [b]) cfg)).
  { destruct Hinv as [Hwf Hrun Hfin], (fresh_not_running b Hb) as [Hr Hs]. split; rewrite bc_backups_set.
    - apply Forall_app. split; [done|]. constructor; [by apply fresh_wf|done].
    - by rewrite count_app, count_cons, Hr, count_nil, Nat.add_0_r.
    - rewrite existsb_app. simpl. by rewrite Hs, !orb_false_r. }
  eapply persist_step in E as [Hst HP]; [|exact Hsync|done|apply Hsync|done|done].
  split; [done|]. intros x Hx. destruct (HP x Hx) as (Hsx & [_ [rv Hm]] & Hbx).
  rewrite bc_backups_set, fmap_app in Hbx.
  split_and!; [done| |done]. eapply backup_inv_wire; [exact Hnew|by rewrite Hm|]. by rewrite bc_backups_set, fmap_app.
Qed.

Lemma ensurePendingBackupIsScheduled_schedules k cluster cfg w :
  sync env k cfg w → backup_inv cfg →
  triple (stored_inv env k) w (ensurePendingBackupIsScheduled env cfg cluster)
    (λ '(cfg', _) w', sync env k cfg' w' ∧ backup_inv cfg' ∧ schedules cfg cluster cfg').
Proof.
  intros Hsync Hinv. unfold ensurePendingBackupIsScheduled.
  assert (Hret : ∀ cfg' w' (res : option Result), settled k cfg cfg' w' →
    triple (stored_inv env k) w' (mret (cfg', res)) (λ '(cfg', _) w', sync env k cfg' w' ∧ backup_inv cfg' ∧ schedules cfg cluster cfg')).
  { intros cfg' w' res Hset. pose proof Hset as (Hs & Hi & _). apply triple_ret; [by eapply sync_stored|].
    split_and!; [done..|]. by eapply schedules_none, settled_advances. }
  destruct (bc_deleting cfg) eqn:Hd; simpl.
  { apply Hret. split_and!; [done..|apply same_object_refl|by left]. }
  case_bool_decide as Hcd.
  { apply Hret. split_and!; [done..|apply same_object_refl|by left]. }
  destruct (Z.ltb_spec (2 * GetKeptBackupsCount cfg) (Z.of_nat (length (bc_backups cfg)))) as [Hlt|Hle].
  { eapply triple_bind; [by apply triple_condition|]. intros cfg1 w1 Hset. by apply Hret. }
  eapply triple_bind; [by apply triple_condition|]. intros cfg1 w1 Hset.
  pose proof Hset as (Hs1 & Hi1 & _).
  eapply triple_bind; [apply triple_quiet; [by eapply sync_stored|frame]|].
  intros [res|[[t name] rq]] w2 [_ Hw2].
  { apply Hret. destruct Hset as (? & ? & ? & ?). split_and!; [by eapply sync_keeps|done..]. }
  assert (Hk : ∀ w3, view k w3 = view k w1 → stored_inv env k w3).
  { intros w3 Hw3. eapply sync_stored; [by eapply sync_keeps|done]. }
  do 4 (eapply triple_bind; [apply triple_quiet; [apply Hk; congruence|unfold randString; frame]|];
        intros ? ? [_ ?]).
  eapply triple_bind; [apply triple_append; [eapply sync_keeps; [exact Hs1|congruence]|done|done]|].
  intros cfg2 w7 (Hs2 & Hi2 & Hb2). apply triple_ret; [by eapply sync_stored|].
  split_and!; [done..|]. eexists _, _. split_and!; [exact Hb2| |].
  - apply advances_wire_all. by eapply settled_advances.
  - right. eexists. split_and!; [done|by apply fresh_wire|done| |lia].
    by destruct (om_deletionTimestamp _); [destruct Hcd|].
Qed.

Lemma ensurePendingBackupIsScheduled_ok k cluster :
  ok_step env k (λ cfg, ensurePendingBackupIsScheduled env cfg cluster).
Proof.
  intros cfg w Hs Hi r w' E.
  destruct (ensurePendingBackupIsScheduled_schedules k cluster cfg w Hs Hi r w' E) as [? HQ].
  split; [done|]. intros [cfg' res] Hr. destruct (HQ _ Hr) as (? & ? & ?%schedules_evolves). done.
Qed.

(** *** Finalization *)

Definition no_backups k (w : W) : Prop := ∀ v, view k w = Some v → bc_backups v = [].

Lemma no_backups_inv k w : no_backups k w → stored_inv env k w.
Proof.
  intros Hn v Hv. specialize (Hn v Hv). split; rewrite Hn; [constructor| |done].
  unfold maxSimultaneousDeleteJobsPerConfig. rewrite count_nil. lia.
Qed.

Lemma view_update_status o w r w' :
  c_update (be_configs env) o w = (r, w') → no_backups (object_key o) w → no_backups (object_key o) w'.
Proof.
  intros E Hn. apply view_update in E as [[Hw _]|(v & rv & Hv & Hw & _)]; intros x Hx.
  - rewrite Hw in Hx. by apply Hn.
  - destruct Hw as [Hw|[Hw _]]; rewrite Hw in Hx; [|done]. injection Hx as <-. by apply (Hn v).
Qed.

Lemma handleFinalization_ok k cfg w r w' :
  sync env k cfg w → backup_inv cfg → handleFinalization env cfg w = (r, w') → stored_inv env k w'.
Proof.
  intros Hsync Hinv. unfold handleFinalization.
  destruct (negb _ || (0 <? length (bc_backups cfg))%nat) eqn:Eg.
  { intros [= _ <-]. by eapply sync_stored. }
  apply orb_false_iff in Eg as [_ Hlen%Nat.ltb_ge].
  assert (Hn : no_backups k w).
  { destruct Hsync as (_ & v & Hv & [_ _ Hb]). intros x Hx. simplify_eq. rewrite Hb.
    apply nil_length_inv. lia. }
  intros E. apply no_backups_inv. revert E. unfold mbind, M_MBind, M_bind.
  destruct (TryRemoveFinalizer _ _ _ _ w) as [r1 w1] eqn:Et. intros E.
  assert (w' = w1) as -> by (destruct r1; by inversion E). clear E.
  unfold TryRemoveFinalizer, wrap in Et.
  match type of Et with context [RetryOnConflict _ ?f w] => set (body := f) in * end.
  assert (Hbody : ∀ w1 r1 w2, no_backups k w1 → body w1 = (r1, w2) → no_backups k w2).
  { intros w2 r2 w3 Hn2. unfold body, mbind, M_MBind, M_bind, try.
    destruct (c_get _ _ w2) as [o w4] eqn:Eget.
    assert (Hn4 : no_backups k w4) by (intros x; rewrite (view_get k _ _ _ _ Eget); apply Hn2).
    destruct o as [o|e|p|]; [|destruct (IsNotFound e)| |]; try (by intros [= _ <-]).
    apply view_get_ok, view_key in Eget as Hko. destruct Hsync as [Hkey _]. rewrite Hkey in Hko.
    case_bool_decide; [by intros [= _ <-]|]. intros Eu.
    apply view_update_status in Eu; [|by rewrite <- Hko in Hn4]. by rewrite <- Hko. }
  destruct (RetryOnConflict (be_retry env) body w) as [r2 w2] eqn:Er.
  assert (w1 = w2) as -> by (destruct r2; by inversion Et).
  apply retry_last in Er as (w0 & Ef & HP). eapply Hbody; [|exact Ef].
  apply (HP (no_backups k)); [|done]. intros w3 e w4 Hn3 Eb _. by eapply Hbody.
Qed.
End preservation.
