(* ===== verification/EtcdBackupSpec.v ===== *)
(** * What the etcd backup controller guarantees

    The invariant over all histories, retention, the limit on delete jobs, the
    conditions for forgetting an entry, and the scheduling of backups. *)

From S2P Require Import Prelude ResourceNames Kube Semver CloudApi ClusterApi Helper Corev1 EtcdBackup EtcdBackupFacts EtcdBackupInv.

Lemma for_range_app {W S A} (f : S → A → M W S) l1 l2 s w :
  for_range f s (l1 ++ l2) w = (for_range f s l1 ≫= λ s', for_range f s' l2) w.
Proof.
  revert s w. induction l1 as [|a l1 IH]; intros s w; [done|].
  cbn [for_range app]. unfold mbind, M_MBind, M_bind.
  destruct (f s a w) as [[s'| | |] w1]; [|done..]. apply IH.
Qed.

Section run.
Context {W : Type} `{SemverLib, StringSets, WireTime} (env : BackupEnv W) `{!BackupWorld env}.
Implicit Types cfg : EtcdBackupConfig.

(** ** Runs of the reconciler *)

Lemma steps_ok k steps : Forall (λ s, ok_step env k s.2) steps →
  ∀ cfg tot w, sync env k cfg w → backup_inv cfg →
  triple (stored_inv env k) w (for_range runStep (cfg, tot) steps)
    (λ '(cfg', _) w', sync env k cfg' w' ∧ backup_inv cfg').
Proof.
  induction 1 as [|[msg f] steps Hf _ IH]; intros cfg tot w Hs Hi; cbn [for_range].
  { by apply triple_ret; [eapply sync_stored|]. }
  eapply (triple_bind _ _ _ _ (λ '(cfg', _) w', sync env k cfg' w' ∧ backup_inv cfg')).
  - unfold runStep. eapply triple_bind; [apply triple_wrap; by apply Hf|].
    intros [cfg' res] w1 (? & ? & _). by apply triple_ret; [eapply sync_stored|].
  - intros [cfg' tot'] w1 [? ?]. by apply IH.
Qed.

Definition backup_steps_but_last cluster dest store del :=
  take 5 (backupSteps env cluster dest store del).

Lemma backup_steps_ok k cluster dest store del :
  Forall (λ s, ok_step env k s.2) (backup_steps_but_last cluster dest store del).
Proof.
  apply Forall_cons_2; [apply ensurePendingBackupIsScheduled_ok; apply _|].
  apply Forall_cons_2; [apply startPendingBackupJobs_ok; apply _|].
  apply Forall_cons_2; [apply startPendingBackupDeleteJobs_ok; apply _|].
  apply Forall_cons_2; [apply updateRunningBackupDeleteJobs_ok; apply _|].
  apply Forall_cons_2; [apply deleteFinishedBackupJobs_ok; apply _|]. apply Forall_nil_2.
Qed.

Lemma run_steps k cluster dest store del cfg w r w' :
  sync env k cfg w → backup_inv cfg →
  for_range runStep (cfg, None) (backupSteps env cluster dest store del) w = (r, w') →
  stored_inv env k w'.
Proof.
  intros Hs Hi E.
  change (backupSteps env cluster dest store del) with
    (backup_steps_but_last cluster dest store del ++
     [("failed to clean up EtcdBackupConfig", handleFinalization env)]) in E.
  rewrite for_range_app in E.
  assert (HT : triple (stored_inv env k) w
    (for_range runStep (cfg, None) (backup_steps_but_last cluster dest store del) ≫= λ s,
     for_range runStep s [("failed to clean up EtcdBackupConfig", handleFinalization env)]) (λ _ _, True));
    [|by destruct (HT _ _ E)].
  eapply triple_bind; [apply steps_ok; [apply backup_steps_ok|done..]|].
  intros [cfg' tot] w1 [Hs1 Hi1]. cbn [for_range].
  eapply (triple_bind _ _ _ _ (λ _ w2, stored_inv env k w2)); [|intros; by apply triple_ret].
  unfold runStep. simpl. eapply (triple_bind _ _ _ _ (λ _ w2, stored_inv env k w2)).
  - apply triple_wrap. intros r2 w2 E2. apply (handleFinalization_ok env k) in E2; auto.
  - intros [cfg2 res] w2 Hw2. by apply triple_ret.
Qed.

Lemma reconcile_ok k cfg cluster seed config w :
  sync env k cfg w → backup_inv cfg →
  triple (stored_inv env k) w (reconcile env cfg cluster seed config) (λ _ w', stored_inv env k w').
Proof.
  intros Hs Hi. assert (Hst : stored_inv env k w) by by eapply sync_stored. unfold reconcile.
  destruct (GetEtcdBackupDestination _ _) as [d|]; [|by apply triple_ret].
  case_bool_decide; [by apply triple_ret|].
  eapply triple_bind; [apply triple_quiet; [done|frame]|].
  intros [e|[store del]] w1 [_ Hw].
  { apply triple_ret; intros v; rewrite Hw; apply Hst. }
  eapply (triple_bind _ _ _ _ (λ _ w2, stored_inv env k w2)).
  - eapply triple_consequence; [apply (triple_try _ _ _ (λ _ _, True))|by intros ? ? [? _]].
    intros r w' E. split; [|done].
    eapply run_steps; [|exact Hi|exact E]. by eapply sync_keeps.
  - intros [e|[cfg' tot]] w2 Hst2; by apply triple_ret.
Qed.

(** The object that [Reconcile] hands to the inner function is the stored one. *)
Lemma Reconcile_ok k w r w' :
  stored_inv env k w → Reconcile env k w = (r, w') → stored_inv env k w'.
Proof.
  intros Hst E.
  assert (HT : triple (stored_inv env k) w (Reconcile env k) (λ _ _, True)); [|by destruct (HT _ _ E)].
  unfold Reconcile.
  eapply (triple_bind _ _ _ _ (λ pre w1, view k w1 = view k w ∧
    ∀ s c cfg cl, pre = inr (Some (s, c, cfg, cl)) → view k w = Some cfg)).
  { intros pre w1 E1. assert (Hw : view k w1 = view k w) by (revert E1; apply keeps_try; frame).
    split; [intros v; rewrite Hw; apply Hst|]. intros a ->. split; [done|]. intros s c cfg cl ->.
    apply try_ok_inv in E1 as [(x & Hx & E1)|(e & He & _)]; [|done]. injection Hx as <-.
    apply bind_ok_inv in E1 as (seed & w2 & Eseed & E1).
    apply bind_ok_inv in E1 as (conf & w3 & Econf & E1).
    destruct (negb _); [by apply ret_ok_inv in E1 as [? _]|].
    apply bind_ok_inv in E1 as (g & w4 & Eg & E1).
    apply try_ok_inv in Eg as [(o & -> & Eg)|(e & -> & Eg)].
    - apply bind_ok_inv in E1 as (cl' & w5 & Ecl & E1).
      do 2 (destruct (String.eqb _ _); [by apply ret_ok_inv in E1 as [? _]|]).
      apply ret_ok_inv in E1 as [[= _ _ -> _] _].
      rewrite <- (view_seedGetter k _ _ _ Eseed), <- (view_configGetter k _ _ _ Econf).
      by eapply view_get_ok.
    - destruct (IsNotFound e); [by apply ret_ok_inv in E1 as [? _]|done]. }
  intros [e|[[[[seed config] cfg] cl]|]] w1 [Hw Hcfg];
    assert (Hst1 : stored_inv env k w1) by (intros v; rewrite Hw; apply Hst);
    try (by apply triple_ret).
  specialize (Hcfg _ _ _ _ eq_refl).
  assert (Hsync : sync env k cfg w1).
  { split; [by eapply view_key|]. exists cfg. rewrite Hw. by split. }
  eapply (triple_bind _ _ _ _ (λ _ w2, stored_inv env k w2)).
  - unfold ClusterReconcileWrapper. destruct (negb _); [by apply triple_ret|].
    destruct (sp_pause _); [by apply triple_ret|].
    eapply triple_bind; [apply reconcile_ok; [done|by apply Hst]|].
    intros [res err] w2 Hst2. simpl. by apply triple_ret.
  - intros [res err] w2 Hst2.
    eapply triple_bind; [apply triple_quiet; [done|unfold event; frame]|].
    intros [res' err'] w3 [_ Hw3]. apply triple_ret; [|done]. intros v. rewrite Hw3. apply Hst2.
Qed.

(** ** Histories

    Reconciles of the configuration, successful or not, and edits by others:
    those never touch the status (it is a subresource that only this controller
    writes) and take no finalizer away. *)
Inductive reachable (k : NamespacedName) : W → Prop :=
| reach_created w cfg : view k w = Some cfg → bc_backups cfg = [] → reachable k w
| reach_reconcile w r w' : reachable k w → Reconcile env k w = (r, w') → reachable k w'
| reach_edit w cfg w' cfg' :
    reachable k w → view k w = Some cfg → view k w' = Some cfg' → bc_status cfg' = bc_status cfg →
    (∀ x, x ∈ om_finalizers (bc_meta cfg) → x ∈ om_finalizers (bc_meta cfg')) → reachable k w'.

Lemma created_inv cfg : bc_backups cfg = [] → backup_inv cfg.
Proof.
  intros Hb. split; rewrite Hb; [constructor| |done].
  unfold maxSimultaneousDeleteJobsPerConfig. rewrite count_nil. lia.
Qed.

(** C1: whatever reconciles, failing ones included, and edits a configuration
    has seen, in its stored object every entry is well formed (a delete job only
    for a finished backup, finish times only for finished jobs), at most three
    delete jobs are running, and as soon as one backup was started the finalizer
    that guards the stored backups is set. *)
Theorem stored_backups_invariant k w cfg :
  reachable k w → view k w = Some cfg → backup_inv cfg.
Proof.
  intros Hreach. revert cfg.
  induction Hreach as [w cfg Hv Hb|w r w' _ IH E|w cfg w' cfg' _ IH Hv Hv' Hst Hfin]; intros v Hv2.
  - simplify_eq. by apply created_inv.
  - eapply Reconcile_ok; [exact IH|exact E|exact Hv2].
  - rewrite Hv' in Hv2. injection Hv2 as <-.
    eapply backup_inv_grow; [by apply IH| |done]. unfold bc_backups. by rewrite Hst.
Qed.

(** ** Single steps *)

(** C15: each of the first five steps of a reconcile moves every entry it keeps
    along the phases of its two jobs (no phase is ever left for an earlier one),
    forgets only entries whose jobs are both finished or, when the configuration
    goes away, never ran, and appends only fresh entries. *)
Theorem step_lifecycle k cluster dest store del i msg f cfg w cfg' res w' :
  backupSteps env cluster dest store del !! i = Some (msg, f) → (i < 5)%nat →
  view k w = Some cfg → backup_inv cfg →
  f cfg w = (Ok (cfg', res), w') → evolves cfg cfg'.
Proof.
  intros Hi Hlt Hv Hinv E.
  assert (Hf : ok_step env k f).
  { pose proof (backup_steps_ok k cluster dest store del) as HF. rewrite Forall_lookup in HF.
    apply (HF i (msg, f)). unfold backup_steps_but_last. by rewrite lookup_take_lt. }
  assert (Hs : sync env k cfg w) by (split; [by eapply view_key|]; exists cfg; by split).
  destruct (Hf cfg w Hs Hinv _ _ E) as [_ HQ]. by destruct (HQ _ eq_refl) as (_ & _ & ?).
Qed.

Lemma delete_progress cfg cluster dest ctr l n ret i msg targets w l' n' ret' w' :
  (n < maxSimultaneousDeleteJobsPerConfig)%nat →
  for_range (startDeleteJobs env cfg cluster dest ctr) (l, n, ret) ((i, msg) :: targets) w
    = (Ok (l', n', ret'), w') → is_Some ret'.
Proof.
  intros Hn E. cbn [for_range] in E. apply bind_ok_inv in E as (acc & w1 & E1 & E).
  assert (Hsome : ∀ r, is_Some (minReconcile [r; Some (mkResult false assumedJobRuntime)])).
  { intros [r|]; unfold minReconcile; simpl; [destruct (_ <? _)|]; eauto. }
  assert (Hstep : ∀ a t w r w', is_Some a.2 ∨ (a.1.2 < maxSimultaneousDeleteJobsPerConfig)%nat →
    startDeleteJobs env cfg cluster dest ctr a t w = (Ok r, w') → is_Some r.2).
  { intros [[l0 n0] r0] [j m] w0 r w2 Ha Es. unfold startDeleteJobs in Es. simpl in Ha.
    destruct (Nat.ltb_spec n0 maxSimultaneousDeleteJobsPerConfig).
    - apply bind_ok_inv in Es as (b & w3 & _ & Es). apply bind_ok_inv in Es as (b' & w4 & _ & Es).
      apply ret_ok_inv in Es as [<- _]. apply Hsome.
    - apply ret_ok_inv in Es as [<- _]. destruct Ha; [done|lia]. }
  apply Hstep in E1; [|by right].
  eapply (for_range_ok _ (λ a, is_Some a.2)) in E; [done| |done].
  intros a t w0 r w2 Ha. apply Hstep. by left.
Qed.

(** C17: a delete job is started only for an entry the retention policy gives up
    (a failed backup, or a completed one with at least the configured number of
    newer completed ones; all finished ones when the configuration is deleted),
    never for more than three at a time, and one is started whenever there is
    such an entry and fewer than three jobs are running. *)
Theorem retention k cluster dest ctr cfg w cfg' res w' :
  view k w = Some cfg → backup_inv cfg →
  startPendingBackupDeleteJobs env cfg cluster dest ctr w = (Ok (cfg', res), w') →
  length (bc_backups cfg') = length (bc_backups cfg) ∧
  (∀ i b b', bc_backups cfg !! i = Some b → bc_backups cfg' !! i = Some b' →
     b_deletePhase b' ≠ b_deletePhase b → surplus (keepCount cfg) (bc_backups cfg) i b) ∧
  (count isRunningDelete (bc_backups cfg') ≤ maxSimultaneousDeleteJobsPerConfig)%nat ∧
  (bs_schedule (bc_spec cfg) ≠ "" ∨ bc_deleting cfg = true →
   (∃ i b, bc_backups cfg !! i = Some b ∧ surplus (keepCount cfg) (bc_backups cfg) i b) →
   (count isRunningDelete (bc_backups cfg) < maxSimultaneousDeleteJobsPerConfig)%nat →
   res = Some (mkResult false assumedJobRuntime)).
Proof.
  intros Hv Hinv E.
  assert (Hs : sync env k cfg w) by (split; [by eapply view_key|]; exists cfg; by split).
  assert (HI : backup_inv cfg' ∧ evolves cfg cfg').
  { destruct (startPendingBackupDeleteJobs_ok env k cluster dest ctr cfg w Hs Hinv _ _ E) as [_ HQ].
    by destruct (HQ _ eq_refl) as (_ & ? & ?). }
  unfold startPendingBackupDeleteJobs in E. fold (keepCount cfg) in E.
  destruct (String.eqb (bs_schedule (bc_spec cfg)) "" && negb (bc_deleting cfg)) eqn:Eg.
  { apply ret_ok_inv in E as [[= <- <-] _]. split_and!; [done|congruence|apply Hinv|].
    apply andb_true_iff in Eg as [Ee%String.eqb_eq Ed%negb_true_iff]. intros [?|?]; congruence. }
  destruct (selectBackupsToDelete _ _ 0) as [targets n] eqn:Esel.
  apply bind_ok_inv in E as ([[l n'] modified] & w1 & El & E).
  destruct (surplus_loop _ _ _ _ _ _ _ _ _ _ _ _ _ Esel El) as (HF & Hc & Hsur & Hnone).
  destruct (selectBackupsToDelete_spec (keepCount cfg) (bc_backups cfg) 0) as (Hin & _ & Hn).
  rewrite Esel in Hin, Hn. simpl in Hin, Hn.
  assert (Hprog : (∃ i b, bc_backups cfg !! i = Some b ∧ surplus (keepCount cfg) (bc_backups cfg) i b) →
    (count isRunningDelete (bc_backups cfg) < maxSimultaneousDeleteJobsPerConfig)%nat → is_Some modified).
  { intros (i & b & Hb) Hlt. rewrite <- Hn in Hlt. destruct targets as [|j targets].
    - assert (i ∈ []) as []%not_elem_of_nil. apply Hin, selected_surplus. eauto.
    - by eapply delete_progress in El. }
  pose proof (bi_running _ (proj1 HI)) as Hrun.
  destruct modified as [m|].
  - apply bind_ok_inv in E as (x & w2 & Ep & E). apply ret_ok_inv in E as [[= -> <-] _].
    apply wrap_ok_inv in Ep. eapply patch_step in Ep as [_ HQ];
      [|by eapply sync_keeps; [exact Hs|revert El; apply keeps_for_range; frame]|done..|].
    + destruct (HQ _ eq_refl) as (_ & _ & Hb). rewrite bc_backups_set in Hb.
      split_and!; [|..|done|done].
      * rewrite Hb, length_fmap. symmetry. by eapply Forall2_length.
      * intros i b b' Hbi. rewrite Hb, list_lookup_fmap_Some. intros (y & -> & Hy) Hne. by apply (Hsur i b y).
    + apply backup_inv_delete; [done..|]. pose proof (bi_running _ Hinv). lia.
  - apply ret_ok_inv in E as [[= <- <-] _]. split_and!; [done|congruence|done|].
    intros _ Hex Hlt. by destruct (Hprog Hex Hlt).
Qed.

(** An entry is forgotten only when it never ran and the configuration is
    being deleted, or when its backup job is over and its delete job has
    completed; no other entry is lost, and none is changed but for the
    sub-second part of its times. *)
Theorem forgotten_entries k cfg w cfg' res w' :
  view k w = Some cfg → backup_inv cfg →
  deleteFinishedBackupJobs env cfg w = (Ok (cfg', res), w') →
  ∃ kept, (bc_backups cfg' = kept ∨ bc_backups cfg' = wire_backup <$> kept) ∧
    sublist kept (bc_backups cfg) ∧
    ∀ b, b ∈ bc_backups cfg → b ∉ kept →
      (bc_deleting cfg = true ∧ b_backupPhase b = "") ∨ (finished b ∧ b_deletePhase b = Completed).
Proof.
  intros Hv Hinv E.
  assert (Hs : sync env k cfg w) by (split; [by eapply view_key|]; exists cfg; by split).
  unfold deleteFinishedBackupJobs in E. apply bind_ok_inv in E as ([[l modified] ret] & w1 & El & E).
  assert (Hw : view k w1 = view k w) by (revert El; apply keeps_for_range; frame).
  apply cleanup_loop in El as (kept & -> & Hp & Hm). simpl in *.
  pose proof (pruned_sublist _ _ _ Hp) as Hsub. exists kept.
  split_and!; [|done|].
  - destruct modified.
    + apply bind_ok_inv in E as (x & w2 & Ep & E). apply ret_ok_inv in E as [[= -> <-] _].
      apply wrap_ok_inv in Ep. eapply patch_step in Ep as [_ HQ];
        [|by eapply sync_keeps|done..|by apply backup_inv_sublist].
      right. by destruct (HQ _ eq_refl) as (_ & _ & Hb).
    + apply ret_ok_inv in E as [[= <- <-] _]. left. by destruct (Hm eq_refl).
  - intros b Hb Hk. destruct (pruned_dropped _ _ _ _ Hp Hb Hk) as [?|[Hf Hd]]; [by left|right].
    pose proof (bi_wf _ Hinv) as Hwf. rewrite Forall_forall in Hwf. specialize (Hwf b Hb).
    split; [by apply (wf_finishedTime _ Hwf)|by apply (wf_deleteFinishedTime _ Hwf)].
Qed.

(** Scheduling keeps the status bounded: entries are appended one at a time
    and only up to twice the retention count plus one, and none while the
    configuration or the cluster is being deleted. *)
Theorem tracked_bound k cluster cfg w cfg' res w' :
  view k w = Some cfg → backup_inv cfg →
  ensurePendingBackupIsScheduled env cfg cluster w = (Ok (cfg', res), w') →
  (length (bc_backups cfg) ≤ length (bc_backups cfg') ≤ S (length (bc_backups cfg)))%nat ∧
  Z.of_nat (length (bc_backups cfg')) ≤
    Z.max (Z.of_nat (length (bc_backups cfg))) (2 * GetKeptBackupsCount cfg + 1) ∧
  (bc_deleting cfg = true ∨ is_Some (om_deletionTimestamp (cl_meta cluster)) →
   length (bc_backups cfg') = length (bc_backups cfg)).
Proof.
  intros Hv Hinv E.
  assert (Hs : sync env k cfg w) by (split; [by eapply view_key|]; exists cfg; by split).
  destruct (ensurePendingBackupIsScheduled_schedules env k cluster cfg w Hs Hinv _ _ E) as [_ HQ].
  destruct (HQ _ eq_refl) as (_ & _ & moved & added & -> & HF & Hadd).
  rewrite length_app, <- (Forall2_length _ _ _ HF).
  destruct Hadd as [->|(b & -> & _ & Hd & Hc & Hle)]; simpl; split_and!; try lia.
  rewrite Hd, Hc. intros [?|[? ?]]; done.
Qed.
End run.
