(* ===== verification/EtcdBackupSchedule.v ===== *)
(** * Scheduling, names and jobs of the etcd backup controller

    The pure parts: which time of the cron schedule is backed up next, how the
    requeue delays combine, the length of generated names, and the jobs. *)

From S2P Require Import Prelude ResourceNames Kube Semver CloudApi ClusterApi Helper Corev1 EtcdBackup.

(** ** The cron library

    [cron.Schedule.Next(t)] is the earliest activation after [t]; activations
    fall on whole seconds. *)
Record CronSchedule (fires : Z → Prop) (Next : Z → Z) : Prop := {
  next_fires : ∀ t, fires (Next t);
  next_later : ∀ t, t < Next t;
  next_least : ∀ t u, fires u → t < u → Next t ≤ u;
  fires_whole : ∀ t, fires t → t `mod` Second = 0;
}.

Section cron.
Context (fires : Z → Prop) (Next : Z → Z) (HC : CronSchedule fires Next).

Lemma next_second t : fires t → t + Second ≤ Next t.
Proof using HC.
  intros Ht. pose proof (next_later _ _ HC t). pose proof (fires_whole _ _ HC t Ht).
  pose proof (fires_whole _ _ HC _ (next_fires _ _ HC t)). unfold Second in *.
  pose proof (Z.div_mod t 1000000000 ltac:(lia)).
  pose proof (Z.div_mod (Next t) 1000000000 ltac:(lia)). lia.
Qed.

Lemma catchUp_terminates fuel : ∀ now p n, fires n →
  now - n ≤ Z.of_nat fuel * Second → is_Some (catchUp fuel Next now p n).
Proof using HC.
  induction fuel as [|fuel IH]; intros now p n Hn Hb; simpl;
    destruct (Z.ltb_spec n now); eauto; [unfold Second in *; lia|].
  apply IH; [apply (next_fires _ _ HC)|]. pose proof (next_second n Hn). unfold Second in *. lia.
Qed.

Lemma catchUp_latest fuel : ∀ now p q p' n',
  catchUp fuel Next now p (Next q) = Some (p', n') →
  now ≤ n' ∧
  (p' = p ∧ n' = Next q ∨ fires p' ∧ q < p' < now ∧ n' = Next p').
Proof using HC.
  induction fuel as [|fuel IH]; intros now p q p' n' E; simpl in E;
    destruct (Z.ltb_spec (Next q) now) as [Hlt|Hge]; simplify_eq.
  - split; [done|by left].
  - apply IH in E as (Hn & [[-> ->]|(Hf & Hp & ->)]); split; try done; right.
    + split_and!; [apply (next_fires _ _ HC)|apply (next_later _ _ HC)|done|done].
    + split_and!; [done| |lia|done]. pose proof (next_later _ _ HC q). lia.
  - split; [done|by left].
Qed.
End cron.

(** A schedule that never fires: the library's [Next] returns the zero time. *)
Lemma catchUp_diverges fuel : ∀ now p, 0 < now → catchUp fuel (λ _, 0) now p 0 = None.
Proof.
  induction fuel as [|fuel IH]; intros now p Hnow; simpl; destruct (Z.ltb_spec 0 now); try lia; auto.
Qed.

Section schedule.
Context {W : Type} (env : BackupEnv W).

(** The time after which activations are due: that of the latest entry, or the
    creation of the configuration. *)
Definition schedule_start (cfg : EtcdBackupConfig) : Z :=
  match last (bc_backups cfg) with
  | Some latest => b_scheduledTime latest
  | None => om_creationTimestamp (bc_meta cfg)
  end.

(** C16: for a cron schedule, the loop terminates and the backup scheduled at
    time [t] is that of the latest activation after the last scheduled one and
    before [t], older missed ones are skipped; there is none when no activation
    was missed.  The controller comes back at the first activation that is not
    before [t]. *)
Theorem nextBackup_schedule cfg fires Next t w w1 :
  bs_schedule (bc_spec cfg) ≠ "" →
  be_cronParse env (bs_schedule (bc_spec cfg)) = Ok Next →
  CronSchedule fires Next → be_now env w = (t, w1) →
  0 ≤ schedule_start cfg → t - schedule_start cfg ≤ Z.of_nat (be_fuel env) * Second →
  ∃ next, fires next ∧ t ≤ next ∧
    (∀ u, fires u → t ≤ u → schedule_start cfg < u → next ≤ u) ∧
    ((∀ u, fires u → schedule_start cfg < u → t ≤ u) ∧
       nextBackup env cfg w = (Ok (inl (Some (mkResult true (Time_Sub next t)))), w1) ∨
     ∃ pending, fires pending ∧ schedule_start cfg < pending < t ∧
       (∀ u, fires u → u < t → u ≤ pending) ∧
       nextBackup env cfg w =
         (Ok (inr (pending, bc_name cfg +:+ "-" +:+ format_time pending, Time_Sub next t)), w1)).
Proof.
  intros Hs Hp HC Hnow Hstart Hfuel. unfold nextBackup, parseCronSchedule.
  apply String.eqb_neq in Hs. rewrite Hs, Hp. fold (schedule_start cfg).
  set (q := schedule_start cfg) in *.
  pose proof (next_later _ _ HC q) as Hq.
  destruct (catchUp_terminates _ _ HC (be_fuel env) t 0 (Next q)) as [[pending next] E];
    [apply (next_fires _ _ HC)|unfold Second in *; lia|].
  destruct (catchUp_latest _ _ HC _ _ _ _ _ _ E) as [Hle Hcase].
  assert (Hrun : ∀ r, r = (if Time_IsZero pending
      then mret (inl (Some (mkResult true (Time_Sub next t))))
      else mret (inr (pending, bc_name cfg +:+ "-" +:+ format_time pending, Time_Sub next t)) :
      M W (option Result + Z * string * Z)) w1 →
    (schedule_Next ← wrap "Failed to Parse Schedule" (lift (Ok Next));
     t0 ← now env;
     match catchUp (be_fuel env) schedule_Next t0 0 (schedule_Next q) with
     | None => lift OutOfFuel
     | Some (pending, next) =>
         if Time_IsZero pending then mret (inl (Some (mkResult true (Time_Sub next t0))))
         else mret (inr (pending, bc_name cfg +:+ "-" +:+ format_time pending, Time_Sub next t0))
     end) w = r).
  { intros r ->. unfold mbind at 1, M_MBind, M_bind, wrap, lift. unfold mbind, now, read, M_MBind, M_bind.
    by rewrite Hnow, E. }
  rewrite (Hrun _ eq_refl). unfold Time_IsZero.
  destruct Hcase as [[-> ->]|(Hf & Hp' & ->)].
  - exists (Next q). split_and!; [apply (next_fires _ _ HC)|done|..].
    + intros u Hu _ Hqu. by apply (next_least _ _ HC).
    + left. split; [|done]. intros u Hu Hqu. pose proof (next_least _ _ HC q u Hu Hqu). lia.
  - exists (Next pending). split_and!; [apply (next_fires _ _ HC)|done|..].
    + intros u Hu Htu _. apply (next_least _ _ HC); [done|lia].
    + right. exists pending. destruct (Z.eqb_spec pending 0); [lia|].
      split_and!; [done|lia|lia| |done]. intros u Hu Hut.
      destruct (Z.le_gt_cases u pending) as [?|Hgt]; [done|].
      pose proof (next_least _ _ HC pending u Hu ltac:(lia)). lia.
Qed.

(** C40: with a cron expression that parses but never fires (30 February), the
    catch-up loop does not end, whatever the number of iterations. *)
Theorem nextBackup_diverges cfg t w w1 :
  bs_schedule (bc_spec cfg) ≠ "" →
  be_cronParse env (bs_schedule (bc_spec cfg)) = Ok (λ _, 0) →
  be_now env w = (t, w1) → 0 < t →
  nextBackup env cfg w = (OutOfFuel, w1).
Proof.
  intros Hs Hp Hnow Ht. unfold nextBackup, parseCronSchedule.
  apply String.eqb_neq in Hs. rewrite Hs, Hp.
  unfold mbind, M_MBind, M_bind, wrap, lift, now, read. rewrite Hnow. by rewrite catchUp_diverges.
Qed.
End schedule.

(** ** Requeue delays *)

Definition min_spec (l : list (option Result)) (m : option Result) : Prop :=
  match m with
  | None => ∀ r, r ∈ l → r = None
  | Some m => Some m ∈ l ∧ ∀ r, Some r ∈ l → RequeueAfter m ≤ RequeueAfter r
  end.

Lemma minReconcile_snoc l r :
  minReconcile (l ++ [r]) =
  match minReconcile l with
  | None => r
  | Some res => match r with
                | Some r' => if RequeueAfter r' <? RequeueAfter res then r else Some res
                | None => Some res
                end
  end.
Proof. unfold minReconcile. rewrite foldl_app. simpl. by destruct (foldl _ None l). Qed.

(** [minReconcile] returns one of the given results with the smallest requeue
    delay, and nil only when all of them are nil. *)
Theorem minReconcile_spec l : min_spec l (minReconcile l).
Proof.
  induction l as [|r l IH] using rev_ind; [simpl; set_solver|]. rewrite minReconcile_snoc.
  assert (Hin : ∀ x, x ∈ l ++ [r] ↔ x ∈ l ∨ x = r) by (intros; by rewrite elem_of_app, list_elem_of_singleton).
  unfold min_spec in *.
  destruct (minReconcile l) as [m|], r as [r|].
  - destruct IH as [Hm Hmin]. destruct (Z.ltb_spec (RequeueAfter r) (RequeueAfter m)) as [Hlt|Hge];
      (split; [apply Hin; auto|]); intros x [Hx%Hmin|[= ->]]%Hin; lia.
  - destruct IH as [Hm Hmin]. split; [apply Hin; auto|]. intros x [Hx%Hmin|[=]]%Hin. lia.
  - split; [apply Hin; auto|]. intros x [Hx%IH|[= ->]]%Hin; [done|lia].
  - by intros x [Hx%IH| ->]%Hin.
Qed.

(** ** Names *)

Lemma substring_length n : ∀ s, String.length (String.substring 0 n s) = Nat.min n (String.length s).
Proof. induction n as [|n IH]; intros [|c s]; simpl; [done..|]. by rewrite IH. Qed.

Lemma string_length_app s t : String.length (s +:+ t) = (String.length s + String.length t)%nat.
Proof. induction s as [|c s IH]; simpl; [done|]. by rewrite IH. Qed.

Section names.
Context {W : Type} (env : BackupEnv W).

(** [limitNameLength] returns a name that Kubernetes accepts as a label value
    and job name, at most 63 bytes: the name itself when it is short enough, and
    otherwise a prefix of it with the random string at the end. *)
Theorem limitNameLength_spec name w rnd w1 :
  be_rand env w = (rnd, w1) → (String.length rnd ≤ 63)%nat →
  ∃ s w', limitNameLength env name w = (Ok s, w') ∧ (String.length s ≤ 63)%nat ∧
    if (String.length name <=? 63)%nat then s = name
    else s = String.substring 0 (63 - String.length rnd) name +:+ rnd ∧ String.length s = 63%nat.
Proof.
  intros Hr Hlen. unfold limitNameLength, randString.
  destruct (Nat.leb_spec (String.length name) 63) as [Hn|Hn]; [by eauto 10|].
  unfold mbind, M_MBind, M_bind, read. rewrite Hr.
  destruct (Z.ltb_spec (63 - Z.of_nat (String.length rnd)) 0) as [?|_]; [lia|].
  replace (Z.to_nat (63 - Z.of_nat (String.length rnd))) with (63 - String.length rnd)%nat by lia.
  eexists _, w1. split; [done|]. rewrite string_length_app, substring_length. split_and!; lia || done.
Qed.
End names.

(** ** Jobs *)

Definition same_env_name (v e : EnvVar) : bool := strings_EqualFold (ev_name e) (ev_name v).

Lemma EqualFold_refl s : strings_EqualFold s s = true.
Proof. unfold strings_EqualFold. by apply bool_decide_eq_true. Qed.

Lemma setEnvVar_first l v : List.find (same_env_name v) (setEnvVar l v) = Some v.
Proof.
  induction l as [|e l IH]; simpl; unfold same_env_name in *; [by rewrite EqualFold_refl|].
  destruct (strings_EqualFold (ev_name e) (ev_name v)) eqn:E; simpl; [by rewrite EqualFold_refl|by rewrite E].
Qed.

Lemma setEnvVar_others l v :
  List.filter (λ e, negb (same_env_name v e)) (setEnvVar l v) =
  List.filter (λ e, negb (same_env_name v e)) l.
Proof.
  induction l as [|e l IH]; simpl; unfold same_env_name in *; [by rewrite EqualFold_refl|].
  destruct (strings_EqualFold (ev_name e) (ev_name v)) eqn:E; simpl; [by rewrite EqualFold_refl|].
  by rewrite E, IH.
Qed.

Lemma elem_of_setEnvVar l v : v ∈ setEnvVar l v.
Proof.
  pose proof (setEnvVar_first l v) as Hf. apply List.find_some in Hf as [Hf _].
  by apply list_elem_of_In.
Qed.

Lemma setEnvVar_keeps l v e : e ∈ l → strings_EqualFold (ev_name e) (ev_name v) = false → e ∈ setEnvVar l v.
Proof.
  intros He Hn. apply list_elem_of_In. apply list_elem_of_In in He.
  assert (Hin : List.In e (List.filter (λ e, negb (same_env_name v e)) l)).
  { apply List.filter_In. split; [done|]. unfold same_env_name. by rewrite Hn. }
  rewrite <- setEnvVar_others in Hin. by apply List.filter_In in Hin as [? _].
Qed.

(** The value a container sees: with duplicates, the last one counts. *)
Definition env_value (name : string) (env : list EnvVar) : option EnvVar :=
  last (List.filter (λ e, String.eqb (ev_name e) name) env).

Lemma env_value_app name l k e : env_value name k = Some e → env_value name (l ++ k) = Some e.
Proof. unfold env_value. rewrite List.filter_app, last_app. by intros ->. Qed.

(** The environment a job gives its container for a backup and a destination. *)
Record job_env_ok (nameKey : string) (cfg : EtcdBackupConfig) (cluster : Cluster) (b : BackupStatus)
    (d : BackupDestination) (creds : NamespacedName) (env : list EnvVar) : Prop := {
  je_cluster : env_value clusterEnvVarKey env = Some (mkEnvVar clusterEnvVarKey (cl_name cluster) None);
  je_backup : env_value nameKey env = Some (mkEnvVar nameKey (b_backupName b) None);
  je_config : env_value backupConfigEnvVarKey env = Some (mkEnvVar backupConfigEnvVarKey (bc_name cfg) None);
  je_bucket : mkEnvVar bucketNameEnvVarKey (bd_bucketName d) None ∈ env;
  je_endpoint : mkEnvVar backupEndpointEnvVarKey (bd_endpoint d) None ∈ env;
  je_accessKey : mkEnvVar AccessKeyIdEnvVarKey "" (Some (key_name creds, AccessKeyIdEnvVarKey)) ∈ env;
  je_secretKey : mkEnvVar SecretAccessKeyEnvVarKey "" (Some (key_name creds, SecretAccessKeyEnvVarKey)) ∈ env;
}.

Lemma job_env_ok_intro nameKey cfg cluster b d creds base env :
  nameKey = backupToCreateEnvVarKey ∨ nameKey = backupToDeleteEnvVarKey →
  bd_credentials d = Some creds → destinationEnv (Some d) base = Ok env →
  job_env_ok nameKey cfg cluster b d creds (env ++ jobEnv nameKey cfg cluster b).
Proof.
  intros Hkey Hc E. unfold destinationEnv, genSecretEnvVar in E. rewrite Hc in E. simpl in E.
  injection E as <-.
  assert (Hcl : ∀ n v, v ∈ setEnvVar n v) by (intros; apply elem_of_setEnvVar).
  split; try (apply env_value_app; destruct Hkey as [-> | ->]; reflexivity);
    apply elem_of_app; left; repeat (apply setEnvVar_keeps; [|reflexivity] || apply Hcl);
    auto using elem_of_setEnvVar.
Qed.

Section jobs.
Context `{SemverLib}.

(** For a destination with credentials and a configured container, both kinds
    of job can be built, without a panic; they carry the name of the backup's
    entry, belong to the cluster, and hand the cluster, the backup, the bucket
    and the credentials of the destination to the container. *)
Theorem backup_jobs_ok image cfg cluster b d creds c bound :
  NewVersion "1.22.0" = inr bound → bd_credentials d = Some creds →
  (∃ job store, backupJob image cfg cluster b (Some d) (Some c) = Ok job ∧
     om_name (job_meta job) = b_jobName b ∧ om_ownerReferences (job_meta job) = [GetClusterRef cluster] ∧
     job_containers job = [store] ∧ ct_image store = ct_image c ∧
     job_env_ok backupToCreateEnvVarKey cfg cluster b d creds (ct_env store)) ∧
  (∃ job del, backupDeleteJob cfg cluster b (Some d) c = Ok job ∧
     om_name (job_meta job) = b_deleteJobName b ∧ om_ownerReferences (job_meta job) = [GetClusterRef cluster] ∧
     job_containers job = [del] ∧ ct_image del = ct_image c ∧
     job_env_ok backupToDeleteEnvVarKey cfg cluster b d creds (ct_env del)).
Proof.
  intros Hv Hc.
  assert (∃ env, destinationEnv (Some d) (ct_env c) = Ok env) as [env Henv].
  { unfold destinationEnv, genSecretEnvVar. rewrite Hc. simpl. eauto. }
  pose proof (job_env_ok_intro backupToCreateEnvVarKey cfg cluster b d creds _ env (or_introl eq_refl) Hc Henv).
  pose proof (job_env_ok_intro backupToDeleteEnvVarKey cfg cluster b d creds _ env (or_intror eq_refl) Hc Henv).
  assert (Htag : ∃ tag, ImageTag cluster = Ok tag).
  { unfold ImageTag, NewSemverOrDie, NewSemver, Semver_Set. rewrite Hv. simpl. eauto. }
  destruct Htag as [tag Htag]. split.
  - unfold backupJob. cbn [deref]. unfold mbind, outcome_MBind, outcome_bind. rewrite Henv, Htag.
    destruct (strings_Contains image ":"); eexists _, _; split_and!; done.
  - unfold backupDeleteJob, mbind, outcome_MBind, outcome_bind. rewrite Henv.
    eexists _, _; split_and!; done.
Qed.

(** A configured store container that consists of white space is accepted as
    no container at all, and building the backup job then panics on a nil
    pointer. *)
Theorem blank_store_container_panics {W} (env : BackupEnv W) config image cfg cluster b dest :
  sc_backupStoreContainer config ≠ "" → TrimSpace_empty (sc_backupStoreContainer config) = true →
  ∃ store msg, getBackupStoreContainer env config = Ok store ∧
    backupJob image cfg cluster b dest store = Panic msg.
Proof.
  intros Hne Hblank. apply String.eqb_neq in Hne. exists None. eexists.
  unfold getBackupStoreContainer, ContainerFromString. rewrite Hne, Hblank. done.
Qed.
End jobs.
