(* ===== verification/VersionManager.v ===== *)
(** * The version manager

    [pkg/version]: the configured Kubernetes versions, update rules and provider
    incompatibilities, and what they allow: default version, automatic updates of
    control planes and nodes, possible updates of a cluster. *)

From S2P Require Import Prelude Semver ClusterApi.

(** ** Configuration ([pkg/apis/kubermatic/v1/configuration.go]) *)

Record UpdateConfig := mkUpdateConfig {
  uc_from : string;
  uc_to : string;
  uc_automatic : option bool;
  uc_automaticNodeUpdate : option bool;
}.
Record Incompatibility := mkIncompatibility {
  ic_provider : string;
  ic_version : string;
  ic_condition : string;
  ic_operation : string;
}.
Record KubermaticVersioningConfiguration := mkVersioning {
  kv_versions : list Semver;
  kv_default : option Semver;
  kv_updates : list UpdateConfig;
  kv_providerIncompatibilities : list Incompatibility;
}.

Definition AlwaysCondition : string := "always".
Definition ExternalCloudProviderCondition : string := ClusterFeatureExternalCloudProvider.
Definition CreateOperation : string := "CREATE".
Definition UpdateOperation : string := "UPGRADE".
Definition SupportOperation : string := "SUPPORT".

(** ** The manager ([manager.go]) *)

Record Update := mkUpdate {
  u_from : string;
  u_to : string;
  u_automatic : bool;
  u_automaticNodeUpdate : bool;
}.
Record ProviderIncompatibility := mkProviderIncompatibility {
  pi_provider : string;
  pi_version : string;
  pi_condition : string;
  pi_operation : string;
}.

Section manager.
Context `{L : SemverLib}.

(** The parsed version is a pointer, nil for a configured string that does not
    parse. *)
Record ManagerVersion := mkManagerVersion {
  mv_version : option Version;
  mv_default : bool;
}.

Record Manager := mkManager {
  m_versions : list ManagerVersion;
  m_updates : list Update;
  m_providerIncompatibilities : list ProviderIncompatibility;
}.

Definition New := mkManager.

Definition is_true_ptr (b : option bool) : bool := default false b.

Definition NewFromConfiguration (k8s : KubermaticVersioningConfiguration) : Manager :=
  New
    (map (λ k8sVersion, mkManagerVersion (Semver_Semver (Some k8sVersion))
       (match kv_default k8s with
        | None => false
        | Some d => Semver_Equal (Some k8sVersion) (Some d)
        end)) (kv_versions k8s))
    (map (λ u, mkUpdate (uc_from u) (uc_to u) (is_true_ptr (uc_automatic u))
       (is_true_ptr (uc_automaticNodeUpdate u))) (kv_updates k8s))
    (map (λ i, mkProviderIncompatibility (ic_provider i) (ic_version i) (ic_condition i)
       (ic_operation i)) (kv_providerIncompatibilities k8s)).

Definition errVersionNotFound : error := ErrNew "version not found".
Definition errNoDefaultVersion : error := ErrNew "no default version configured".

Definition GetDefault (m : Manager) : outcome ManagerVersion :=
  match List.find mv_default (m_versions m) with
  | Some v => Ok v
  | None => Err errNoDefaultVersion
  end.

Definition parseVersion (msg : string) (s : string) : outcome Version :=
  match NewVersion s with inl e => Err (ErrWrap msg e) | inr v => Ok v end.
Definition parseConstraint (msg : string) (s : string) : outcome Constraints :=
  match NewConstraint s with inl e => Err (ErrWrap msg e) | inr c => Ok c end.

(** The loop of [GetVersion]; comparing with a nil version panics. *)
Fixpoint findVersion (sv : Version) (l : list ManagerVersion) : outcome ManagerVersion :=
  match l with
  | [] => Err errVersionNotFound
  | v :: rest =>
      ver ← deref (mv_version v);
      if ver_Equal ver sv then Ok v else findVersion sv rest
  end.

Definition GetVersion (m : Manager) (s : string) : outcome ManagerVersion :=
  sv ← parseVersion "failed to parse version" s;
  findVersion sv (m_versions m).

(** *** Provider incompatibilities ([helpers.go]) *)

Definition CheckUnconstrained (baseVersion : option Version) (version : string) : outcome bool :=
  c ← parseConstraint "failed to parse to constraint" version;
  v ← deref baseVersion;
  Ok (negb (Constraints_Check c v)).

(** Errors are replaced by a generic one. *)
Definition checkIncompatibility (version : option Version) (pi : ProviderIncompatibility) : outcome bool :=
  match CheckUnconstrained version (pi_version pi) with
  | Err _ => Err (ErrNew "check incompatibility failed")
  | r => r
  end.

(** The inner loop over the conditions: [false] is the early return. *)
Fixpoint checkConditions (version : option Version) (pi : ProviderIncompatibility)
    (conditions : list string) : outcome bool :=
  match conditions with
  | [] => Ok true
  | ic :: rest =>
      if String.eqb (pi_condition pi) ic || String.eqb ic AlwaysCondition ||
         String.eqb (pi_condition pi) AlwaysCondition then
        compatible ← checkIncompatibility version pi;
        if (compatible : bool) then checkConditions version pi rest else Ok false
      else checkConditions version pi rest
  end.

Fixpoint checkProviderCompatibility (version : option Version) (provider operation : string)
    (incompatibilities : list ProviderIncompatibility) (conditions : list string) : outcome bool :=
  match incompatibilities with
  | [] => Ok true
  | pi :: rest =>
      if (String.eqb (pi_provider pi) provider || String.eqb (pi_provider pi) "") &&
         String.eqb operation (pi_operation pi) then
        compatible ← (if String.eqb (pi_condition pi) AlwaysCondition
                      then checkIncompatibility version pi
                      else checkConditions version pi conditions);
        if (compatible : bool) then checkProviderCompatibility version provider operation rest conditions
        else Ok false
      else checkProviderCompatibility version provider operation rest conditions
  end.

Definition IsSupported (version : option Version) (provider : string)
    (incompatibilities : list ProviderIncompatibility) (conditions : list string) : outcome bool :=
  checkProviderCompatibility version provider SupportOperation incompatibilities conditions.

(** *** Automatic updates *)

(** The loop over the update rules: the targets of the automatic ones that match. *)
Fixpoint automaticTargets (isAutomatic : Update → bool) (from : Version) (updates : list Update)
    : outcome (list string) :=
  match updates with
  | [] => Ok []
  | u :: rest =>
      if negb (isAutomatic u) then automaticTargets isAutomatic from rest else
      uFrom ← parseConstraint "failed to parse from constraint" (u_from u);
      if negb (Constraints_Check uFrom from) then automaticTargets isAutomatic from rest else
      _ ← parseVersion "failed to parse to version" (u_to u);
      toVersions ← automaticTargets isAutomatic from rest;
      Ok (u_to u :: toVersions)
  end.

Definition automaticUpdate (m : Manager) (fromVersionRaw : string) (isForNode : bool)
    : outcome (option ManagerVersion) :=
  from ← parseVersion "failed to parse version" fromVersionRaw;
  let isAutomatic := λ u, if isForNode then u_automaticNodeUpdate u else u_automatic u in
  toVersions ← automaticTargets isAutomatic from (m_updates m);
  match toVersions with
  | [] => Ok None
  | [to] =>
      match GetVersion m to with
      | Ok version => Ok (Some version)
      | Err e => Err (ErrWrap "failed to get Version" e)
      | Panic s => Panic s
      | OutOfFuel => OutOfFuel
      end
  | _ => Err (ErrNew "more than one automatic update found for version. Not allowed.")
  end.

Definition AutomaticControlplaneUpdate (m : Manager) (fromVersionRaw : string) : outcome (option ManagerVersion) :=
  automaticUpdate m fromVersionRaw false.

Definition AutomaticNodeUpdate (m : Manager) (fromVersionRaw controlPlaneVersion : string)
    : outcome (option ManagerVersion) :=
  version ← automaticUpdate m fromVersionRaw true;
  match version with
  | None => Ok None
  | Some version =>
      controlPlaneSemver ← parseVersion "failed to parse controlplane version" controlPlaneVersion;
      _ ← EnsureVersionCompatible (Some controlPlaneSemver) (mv_version version);
      Ok (Some version)
  end.

(** *** Listing versions *)

(** A failing look-up is logged and skips the version; a nil version panics. *)
Fixpoint withoutAutomaticUpdate (m : Manager) (l : list ManagerVersion) : outcome (list ManagerVersion) :=
  match l with
  | [] => Ok []
  | v :: rest =>
      ver ← deref (mv_version v);
      match AutomaticControlplaneUpdate m (ver_String ver) with
      | Err _ => withoutAutomaticUpdate m rest
      | Ok (Some _) => withoutAutomaticUpdate m rest
      | Ok None => masterVersions ← withoutAutomaticUpdate m rest; Ok (v :: masterVersions)
      | Panic s => Panic s
      | OutOfFuel => OutOfFuel
      end
  end.

Definition GetVersions (m : Manager) : outcome (list ManagerVersion) :=
  withoutAutomaticUpdate m (m_versions m).

(** [for _, v := range l { ok, err := test(v); ...; if ok { append } }] *)
Fixpoint filterVersions (test : ManagerVersion → outcome bool) (l : list ManagerVersion)
    : outcome (list ManagerVersion) :=
  match l with
  | [] => Ok []
  | v :: rest =>
      ok ← test v;
      filtered ← filterVersions test rest;
      Ok (if (ok : bool) then v :: filtered else filtered)
  end.

Definition GetVersionsForProvider (m : Manager) (provider : string) (conditions : list string)
    : outcome (list ManagerVersion) :=
  versions ← GetVersions m;
  filterVersions (λ v, checkProviderCompatibility (mv_version v) provider CreateOperation
    (m_providerIncompatibilities m) conditions) versions.

(** The target constraints of the rules that match. *)
Fixpoint updateConstraints (from : Version) (updates : list Update) : outcome (list Constraints) :=
  match updates with
  | [] => Ok []
  | u :: rest =>
      uFrom ← parseConstraint "failed to parse from constraint" (u_from u);
      if negb (Constraints_Check uFrom from) then updateConstraints from rest else
      uTo ← parseConstraint "failed to parse to constraint" (u_to u);
      toConstraints ← updateConstraints from rest;
      Ok (uTo :: toConstraints)
  end.

(** Both loops, for a test on the candidates. *)
Fixpoint possibleVersions (test : Constraints → ManagerVersion → outcome bool)
    (toConstraints : list Constraints) (versions : list ManagerVersion) : outcome (list ManagerVersion) :=
  match toConstraints with
  | [] => Ok []
  | c :: rest =>
      vs ← filterVersions (test c) versions;
      more ← possibleVersions test rest versions;
      Ok (vs ++ more)
  end.

Definition GetPossibleUpdates (m : Manager) (fromVersionRaw provider : string) (conditions : list string)
    : outcome (list ManagerVersion) :=
  from ← parseVersion "failed to parse version" fromVersionRaw;
  toConstraints ← updateConstraints from (m_updates m);
  possibleVersions (λ c v,
    ver ← deref (mv_version v);
    if Constraints_Check c ver && negb (ver_Equal from ver) then
      checkProviderCompatibility (mv_version v) provider UpdateOperation
        (m_providerIncompatibilities m) conditions
    else Ok false) toConstraints (m_versions m).

Definition GetKubeOnePossibleUpdates (m : Manager) (fromVersionRaw : string) : outcome (list ManagerVersion) :=
  from ← parseVersion "failed to parse version" fromVersionRaw;
  toConstraints ← updateConstraints from (m_updates m);
  possibleVersions (λ c v,
    ver ← deref (mv_version v);
    Ok (Constraints_Check c ver && negb (ver_Equal from ver) && ver_LessThan from ver))
    toConstraints (m_versions m).
End manager.

(** ** Theorems *)

Section spec.
Context `{L : SemverLib, !SemverLaws L}.

Lemma deref_ok {A} (p : option A) a : deref p = Ok a → p = Some a.
Proof. destruct p; [by intros [= ->]|done]. Qed.

Lemma parseVersion_ok msg s v : parseVersion msg s = Ok v → NewVersion s = inr v.
Proof. unfold parseVersion. destruct (NewVersion s); congruence. Qed.

Lemma parseConstraint_ok msg s c : parseConstraint msg s = Ok c → NewConstraint s = inr c.
Proof. unfold parseConstraint. destruct (NewConstraint s); congruence. Qed.

(** Whether a constraint string admits a version. *)
Definition admits (constraint : string) (v : Version) : bool :=
  match NewConstraint constraint with inl _ => false | inr c => Constraints_Check c v end.

(** ** Provider incompatibilities *)

Definition applies (provider operation : string) (conditions : list string)
    (pi : ProviderIncompatibility) : bool :=
  (String.eqb (pi_provider pi) provider || String.eqb (pi_provider pi) "") &&
  String.eqb operation (pi_operation pi) &&
  (String.eqb (pi_condition pi) AlwaysCondition ||
   existsb (λ ic, String.eqb (pi_condition pi) ic || String.eqb ic AlwaysCondition) conditions).

Definition blocks provider operation conditions (v : Version) (pi : ProviderIncompatibility) : bool :=
  applies provider operation conditions pi && admits (pi_version pi) v.

Lemma checkIncompatibility_ok v pi :
  is_Some (match NewConstraint (pi_version pi) with inl _ => None | inr c => Some c end) →
  checkIncompatibility (Some v) pi = Ok (negb (admits (pi_version pi) v)).
Proof.
  unfold checkIncompatibility, CheckUnconstrained, parseConstraint, admits.
  destruct (NewConstraint (pi_version pi)); [by intros [? [=]]|done].
Qed.

Lemma checkConditions_ok v pi conditions :
  is_Some (match NewConstraint (pi_version pi) with inl _ => None | inr c => Some c end) →
  String.eqb (pi_condition pi) AlwaysCondition = false →
  checkConditions (Some v) pi conditions =
    Ok (negb (existsb (λ ic, String.eqb (pi_condition pi) ic || String.eqb ic AlwaysCondition) conditions &&
              admits (pi_version pi) v)).
Proof.
  intros Hp Ha. induction conditions as [|ic rest IH]; [done|]. simpl. rewrite Ha, orb_false_r.
  destruct (_ || _); simpl; [|done]. rewrite checkIncompatibility_ok by done. simpl.
  rewrite IH. destruct (admits (pi_version pi) v); simpl; [done|]. by rewrite andb_false_r.
Qed.

(** With constraints that parse, a version is compatible exactly when no
    incompatibility for the provider (or for all), the operation and one of the
    given conditions (or the condition that always holds) admits it. *)
Lemma checkProviderCompatibility_ok v provider operation incs conditions :
  (∀ pi, pi ∈ incs → ∃ c, NewConstraint (pi_version pi) = inr c) →
  checkProviderCompatibility (Some v) provider operation incs conditions =
    Ok (negb (existsb (blocks provider operation conditions v) incs)).
Proof.
  induction incs as [|pi incs IH]; intros Hp; [done|]. simpl.
  rewrite IH by (intros; apply Hp; set_solver).
  destruct (Hp pi) as [c Hc]; [set_solver|].
  assert (Hs : is_Some (match NewConstraint (pi_version pi) with inl _ => None | inr c => Some c end))
    by (rewrite Hc; eauto).
  set (tail := existsb (blocks provider operation conditions v) incs). unfold blocks, applies.
  destruct ((String.eqb (pi_provider pi) provider || String.eqb (pi_provider pi) "") &&
            String.eqb operation (pi_operation pi)) eqn:E1; cbn [andb orb]; [|done].
  destruct (String.eqb (pi_condition pi) AlwaysCondition) eqn:Ea; simpl.
  - rewrite checkIncompatibility_ok by done. simpl. by destruct (admits (pi_version pi) v).
  - rewrite checkConditions_ok by done. simpl.
    destruct (existsb _ conditions), (admits (pi_version pi) v); done.
Qed.

(** What passes the check is blocked by no incompatibility. *)
Lemma compatible_unblocked v provider operation incs conditions pi :
  checkProviderCompatibility (Some v) provider operation incs conditions = Ok true → pi ∈ incs →
  blocks provider operation conditions v pi = false.
Proof.
  assert (Hadm : ∀ pi, checkIncompatibility (Some v) pi = Ok true → admits (pi_version pi) v = false).
  { intros i. unfold checkIncompatibility, CheckUnconstrained, parseConstraint, admits.
    destruct (NewConstraint (pi_version i)); [done|]. simpl. by intros [= ?%negb_true_iff]. }
  assert (Hcond : ∀ pi, checkConditions (Some v) pi conditions = Ok true →
    existsb (λ ic, String.eqb (pi_condition pi) ic || String.eqb ic AlwaysCondition) conditions = true → admits (pi_version pi) v = false).
  { intros i. induction conditions as [|ic rest IH]; [done|]. simpl. intros Hc Hex.
    destruct (String.eqb (pi_condition i) ic || String.eqb ic AlwaysCondition); simpl in *.
    - apply obind_ok_inv in Hc as ([] & Hc & E); [by apply Hadm|done].
    - destruct (String.eqb (pi_condition i) AlwaysCondition); [|by apply IH].
      apply obind_ok_inv in Hc as ([] & Hc & E); [by apply Hadm|done]. }
  induction incs as [|i incs IH]; intros Hc Hin; [by apply elem_of_nil in Hin|]. simpl in Hc.
  apply elem_of_cons in Hin as [->|Hin].
  - unfold blocks, applies. destruct (_ && String.eqb operation _); simpl in *; [|done].
    destruct (String.eqb (pi_condition i) AlwaysCondition) eqn:Ea; simpl in *.
    + apply obind_ok_inv in Hc as ([] & Hc & E); [by apply Hadm|done].
    + apply obind_ok_inv in Hc as ([] & Hc & E); [|done]. destruct (existsb _ conditions) eqn:Ex; [|done]. simpl. by apply Hcond.
  - destruct (_ && String.eqb operation _); [|by apply IH]. apply obind_ok_inv in Hc as ([] & _ & Hc); [by apply IH|done].
Qed.

(** ** Automatic updates *)

Definition automatic (isForNode : bool) (u : Update) : bool :=
  if isForNode then u_automaticNodeUpdate u else u_automatic u.
Definition rule_matches (isForNode : bool) (from : Version) (u : Update) : bool :=
  automatic isForNode u && admits (u_from u) from.

Lemma automaticTargets_ok isForNode from updates l :
  automaticTargets (automatic isForNode) from updates = Ok l →
  l = map u_to (List.filter (rule_matches isForNode from) updates).
Proof.
  revert l. induction updates as [|u updates IH]; intros l E; simpl in E; [o_inv; done|].
  unfold rule_matches at 1, admits. simpl.
  destruct (automatic isForNode u); simpl in *; [|by apply IH].
  apply obind_ok_inv in E as (c & Ec%parseConstraint_ok & E). rewrite Ec.
  destruct (Constraints_Check c from); simpl in *; [|by apply IH].
  o_inv. rewrite (IH _ E1). done.
Qed.

Lemma findVersion_ok sv l v : findVersion sv l = Ok v →
  v ∈ l ∧ ∃ ver, mv_version v = Some ver ∧ ver_Compare ver sv = Eq.
Proof.
  induction l as [|x l IH]; intros E; simpl in E; [done|].
  apply obind_ok_inv in E as (ver & Ev%deref_ok & E).
  destruct (ver_Equal ver sv) eqn:Ee; o_inv.
  - split; [set_solver|]. exists ver. by rewrite <- ver_Equal_spec.
  - destruct (IH E) as [? ?]. split; [set_solver|done].
Qed.

Lemma automaticUpdate_inv m raw isForNode from r :
  NewVersion raw = inr from → automaticUpdate m raw isForNode = Ok r →
  match List.filter (rule_matches isForNode from) (m_updates m) with
  | [] => r = None
  | [u] => ∃ v ver sv, r = Some v ∧ v ∈ m_versions m ∧ mv_version v = Some ver ∧
             NewVersion (u_to u) = inr sv ∧ ver_Compare ver sv = Eq
  | _ => False
  end.
Proof.
  intros Hf E. unfold automaticUpdate in E.
  apply obind_ok_inv in E as (from' & Ef%parseVersion_ok & E). assert (from' = from) as -> by congruence.
  apply obind_ok_inv in E as (l & El & E). apply automaticTargets_ok in El as ->.
  destruct (List.filter _ _) as [|u [|u2 us]]; simpl in E; o_inv; [done|].
  unfold GetVersion in Em. apply obind_ok_inv in Em as (sv & Esv%parseVersion_ok & Em).
  apply findVersion_ok in Em as (Hin & ver & Hver & Hc). eauto 10.
Qed.

(** An automatic node update never leaves the nodes with a kubelet the
    control plane does not support: the same major, at most two minors older and
    not newer (for control planes of minor 2 and later). *)
Theorem AutomaticNodeUpdate_skew m raw cpRaw cp v :
  NewVersion cpRaw = inr cp → 2 ≤ ver_Minor cp →
  AutomaticNodeUpdate m raw cpRaw = Ok (Some v) →
  ∃ ver, mv_version v = Some ver ∧ ver_Major ver = ver_Major cp ∧
    ver_Minor cp - 2 ≤ ver_Minor ver ≤ ver_Minor cp.
Proof.
  intros Hcp Hm E. unfold AutomaticNodeUpdate in E.
  apply obind_ok_inv in E as ([v'|] & _ & E); [|done].
  apply obind_ok_inv in E as (cp' & Ecp%parseVersion_ok & E). assert (cp' = cp) as -> by congruence.
  apply obind_ok_inv in E as ([] & Ec & E). o_inv.
  destruct (mv_version v) as [ver|]; [|done]. exists ver. split; [done|].
  by apply skew_range.
Qed.

(** ** Possible updates *)

Definition update_admits (from ver : Version) (u : Update) : Prop :=
  admits (u_from u) from = true ∧ admits (u_to u) ver = true.

Lemma updateConstraints_ok from updates cs :
  updateConstraints from updates = Ok cs →
  ∀ ver, (∃ c, c ∈ cs ∧ Constraints_Check c ver = true) ↔ (∃ u, u ∈ updates ∧ update_admits from ver u).
Proof.
  revert cs. induction updates as [|u updates IH]; intros cs E ver; simpl in E.
  { o_inv. split; intros (? & ? & _); set_solver. }
  apply obind_ok_inv in E as (c & Ec%parseConstraint_ok & E).
  assert (Hadm : admits (u_from u) from = Constraints_Check c from) by (unfold admits; by rewrite Ec).
  destruct (Constraints_Check c from); simpl in E.
  - apply obind_ok_inv in E as (ct & Et%parseConstraint_ok & E).
    apply obind_ok_inv in E as (cs' & Ecs & E). o_inv.
    assert (Ht : admits (u_to u) ver = Constraints_Check ct ver) by (unfold admits; by rewrite Et).
    setoid_rewrite elem_of_cons. specialize (IH _ Ecs ver).
    unfold update_admits in *. split.
    + intros (x & [->|Hx] & Hc); [exists u; split; [by left|split; congruence]|].
      destruct (proj1 IH) as (y & ? & ?); [eauto|]. exists y. auto.
    + intros (y & [->|Hy] & [H1 H2]); [exists ct; split; [by left|congruence]|].
      destruct (proj2 IH) as (x & ? & ?); [eauto|]. exists x. auto.
  - rewrite (IH _ E ver). split; [intros (y & ? & ?); exists y; set_solver|].
    intros (y & [->|Hy]%elem_of_cons & H1 & H2); [congruence|]. exists y. by split.
Qed.

Lemma filterVersions_ok test l l' : filterVersions test l = Ok l' →
  ∀ v, v ∈ l' ↔ v ∈ l ∧ test v = Ok true.
Proof.
  revert l'. induction l as [|x l IH]; intros l' E v; simpl in E; [o_inv; set_solver|].
  apply obind_ok_inv in E as (b & Eb & E). apply obind_ok_inv in E as (k & Ek & E).
  specialize (IH _ Ek v). destruct b; o_inv; rewrite ?elem_of_cons, IH; split.
  - intros [->|[? ?]]; auto.
  - intros [[->|?] ?]; auto.
  - intros [? ?]; auto.
  - intros [[->|?] ?]; [congruence|auto].
Qed.

Lemma possibleVersions_ok test cs versions l : possibleVersions test cs versions = Ok l →
  ∀ v, v ∈ l ↔ v ∈ versions ∧ ∃ c, c ∈ cs ∧ test c v = Ok true.
Proof.
  revert l. induction cs as [|c cs IH]; intros l E v; simpl in E; [o_inv; set_solver|].
  apply obind_ok_inv in E as (vs & Ev & E). apply obind_ok_inv in E as (k & Ek & E). o_inv.
  rewrite elem_of_app, (filterVersions_ok _ _ _ Ev), (IH _ Ek). set_solver.
Qed.

(** The possible updates of a cluster are exactly the configured versions
    other than its own that some update rule reaches from its version and that no
    incompatibility blocks for its provider and conditions. *)
Theorem GetPossibleUpdates_spec m raw provider conditions from vs :
  NewVersion raw = inr from →
  (∀ pi, pi ∈ m_providerIncompatibilities m → ∃ c, NewConstraint (pi_version pi) = inr c) →
  GetPossibleUpdates m raw provider conditions = Ok vs →
  ∀ v, v ∈ vs ↔ v ∈ m_versions m ∧ ∃ ver, mv_version v = Some ver ∧
    ver_Compare from ver ≠ Eq ∧ (∃ u, u ∈ m_updates m ∧ update_admits from ver u) ∧
    existsb (blocks provider UpdateOperation conditions ver) (m_providerIncompatibilities m) = false.
Proof.
  intros Hf Hpi E v. unfold GetPossibleUpdates in E.
  apply obind_ok_inv in E as (from' & Ef%parseVersion_ok & E). assert (from' = from) as -> by congruence.
  apply obind_ok_inv in E as (cs & Ecs & E).
  rewrite (possibleVersions_ok _ _ _ _ E). f_equiv.
  assert (Hneq : ∀ ver, negb (ver_Equal from ver) = true ↔ ver_Compare from ver ≠ Eq).
  { intros ver. rewrite negb_true_iff, <- not_true_iff_false, ver_Equal_spec. done. }
  destruct (mv_version v) as [ver|]; simpl.
  - pose proof (updateConstraints_ok _ _ _ Ecs ver) as Hcs. split.
    + intros (c & Hc & Ht). destruct (Constraints_Check c ver && _) eqn:Eg; [|done].
      apply andb_true_iff in Eg as [Hck Hne%Hneq].
      rewrite checkProviderCompatibility_ok in Ht by done. injection Ht as Ht%negb_true_iff.
      exists ver. split_and!; [done..| |done]. apply Hcs. eauto.
    + intros (ver' & [= <-] & Hne & Hu & Hb). apply Hcs in Hu as (c & Hc & Hck). exists c. split; [done|].
      rewrite Hck. apply Hneq in Hne. rewrite Hne. simpl.
      rewrite checkProviderCompatibility_ok by done. by rewrite Hb.
  - split; [intros (c & _ & [=])|intros (ver & [=] & _)].
Qed.

(** ** New clusters *)

Lemma withoutAutomaticUpdate_ok m l l' : withoutAutomaticUpdate m l = Ok l' →
  ∀ v, v ∈ l' ↔ v ∈ l ∧ ∃ ver, mv_version v = Some ver ∧
    AutomaticControlplaneUpdate m (ver_String ver) = Ok None.
Proof.
  revert l'. induction l as [|x l IH]; intros l' E v; simpl in E; [o_inv; set_solver|].
  apply obind_ok_inv in E as (ver & Ev%deref_ok & E). rewrite elem_of_cons.
  destruct (AutomaticControlplaneUpdate m (ver_String ver)) as [[y|]|e|s|] eqn:Ea; o_inv;
    rewrite ?elem_of_cons, ?(IH _ E), ?(IH _ E0); split.
  1,3,5: naive_solver.
  all: intros [[->|?] (ver' & Hv & Ha)]; [|by eauto].
  all: assert (ver' = ver) as -> by congruence; congruence || eauto.
Qed.

(** The versions offered for new clusters of a provider are the configured
    ones that no automatic update would replace at once and that no
    incompatibility blocks for new clusters. *)
Theorem GetVersionsForProvider_spec m provider conditions vs :
  (∀ pi, pi ∈ m_providerIncompatibilities m → ∃ c, NewConstraint (pi_version pi) = inr c) →
  GetVersionsForProvider m provider conditions = Ok vs →
  ∀ v, v ∈ vs ↔ v ∈ m_versions m ∧ ∃ ver, mv_version v = Some ver ∧
    AutomaticControlplaneUpdate m (ver_String ver) = Ok None ∧
    existsb (blocks provider CreateOperation conditions ver) (m_providerIncompatibilities m) = false.
Proof.
  intros Hpi E v. unfold GetVersionsForProvider in E. apply obind_ok_inv in E as (l & El & E).
  rewrite (filterVersions_ok _ _ _ E). unfold GetVersions in El.
  rewrite (withoutAutomaticUpdate_ok _ _ _ El). split.
  - intros [(Hin & ver & Hv & Ha) Hc]. split; [done|]. exists ver. split_and!; [done..|].
    rewrite Hv, checkProviderCompatibility_ok in Hc by done. by injection Hc as Hc%negb_true_iff.
  - intros (Hin & ver & Hv & Ha & Hb). split; [eauto|].
    rewrite Hv, checkProviderCompatibility_ok by done. by rewrite Hb.
Qed.

(** A rule with [automaticNodeUpdate] but without [automatic] does not
    update any control plane, although the documentation of the configuration
    says that the former implies the latter. *)
Theorem node_update_does_not_imply_automatic k8s raw from :
  NewVersion raw = inr from → (∀ u, u ∈ kv_updates k8s → uc_automatic u = None) →
  AutomaticControlplaneUpdate (NewFromConfiguration k8s) raw = Ok None.
Proof.
  intros Hf Hu. unfold AutomaticControlplaneUpdate, automaticUpdate, parseVersion. rewrite Hf. simpl.
  assert (Ht : automaticTargets u_automatic from (m_updates (NewFromConfiguration k8s)) = Ok []).
  { simpl. induction (kv_updates k8s) as [|u l IH]; [done|]. simpl.
    rewrite (Hu u) by set_solver. simpl. apply IH. set_solver. }
  unfold mbind, outcome_MBind, outcome_bind.
  match goal with |- match ?x with _ => _ end = _ => change x with
    (automaticTargets u_automatic from (m_updates (NewFromConfiguration k8s))) end.
  by rewrite Ht.
Qed.
End spec.
