(* ===== verification/Field.v ===== *)
(** * Validation errors

    [k8s.io/apimachinery/pkg/util/validation/field], as far as the sources build
    such errors: kind, path and detail; [ToAggregate] turns a list into an error. *)

From S2P Require Import Prelude.

Inductive ErrorType := ErrRequired | ErrInvalid | ErrNotSupported | ErrForbidden | ErrTooMany | ErrInternal | ErrNotFound | ErrDuplicate.
#[global] Instance ErrorType_eq_dec : EqDecision ErrorType.
Proof. solve_decision. Defined.

Definition errorType_string (t : ErrorType) : string :=
  match t with
  | ErrRequired => "Required value"
  | ErrInvalid => "Invalid value"
  | ErrNotSupported => "Unsupported value"
  | ErrForbidden => "Forbidden"
  | ErrTooMany => "Too many"
  | ErrInternal => "Internal error"
  | ErrNotFound => "Not found"
  | ErrDuplicate => "Duplicate value"
  end.

(** A path is its text; the nil path is empty. *)
Abbreviation Path := string (only parsing).
Definition child (p : Path) (names : list string) : Path :=
  foldl (λ p n, if String.eqb p "" then n else p +:+ "." +:+ n) p names.
Definition index (p : Path) (i : nat) : Path := p +:+ "[" +:+ pretty (N.of_nat i) +:+ "]".
Definition key (p : Path) (k : string) : Path := p +:+ "[" +:+ k +:+ "]".

Record FieldError := mkFieldError { fe_type : ErrorType; fe_path : Path; fe_detail : string }.
#[global] Instance FieldError_eq_dec : EqDecision FieldError.
Proof. solve_decision. Defined.

Definition Required (p : Path) (detail : string) : FieldError := mkFieldError ErrRequired p detail.
Definition Invalid (p : Path) (detail : string) : FieldError := mkFieldError ErrInvalid p detail.
Definition NotSupported (p : Path) (value : string) : FieldError := mkFieldError ErrNotSupported p value.
Definition Forbidden (p : Path) (detail : string) : FieldError := mkFieldError ErrForbidden p detail.
Definition NotFound (p : Path) (value : string) : FieldError := mkFieldError ErrNotFound p value.
Definition Duplicate (p : Path) (value : string) : FieldError := mkFieldError ErrDuplicate p value.
Definition TooMany (p : Path) : FieldError := mkFieldError ErrTooMany p "".
Definition InternalError (p : Path) (e : error) : FieldError := mkFieldError ErrInternal p (error_string e).

(** A [*field.Error] as an [error]. *)
Definition field_error (e : FieldError) : error :=
  ErrNew (fe_path e +:+ ": " +:+ errorType_string (fe_type e) +:+ ": " +:+ fe_detail e).

(** The list without repeated messages; nil for an empty one. *)
Fixpoint unique_messages (seen : list string) (errs : list error) : list error :=
  match errs with
  | [] => []
  | e :: rest =>
      if existsb (String.eqb (error_string e)) seen then unique_messages seen rest
      else e :: unique_messages (error_string e :: seen) rest
  end.
Definition ToAggregate (errs : list FieldError) : option error :=
  match errs with
  | [] => None
  | _ => Some (ErrAggregate (unique_messages [] (map field_error errs)))
  end.

(** [if cond { allErrs = append(allErrs, err) }] and the append of an optional error. *)
Definition err_if (b : bool) (e : FieldError) : list FieldError := if b then [e] else [].
Definition err_opt (e : option FieldError) : list FieldError := match e with Some e => [e] | None => [] end.

Lemma err_if_nil b e : err_if b e = [] ↔ b = false.
Proof. by destruct b. Qed.
Lemma err_opt_nil e : err_opt e = [] ↔ e = None.
Proof. by destruct e. Qed.
Lemma ToAggregate_None errs : ToAggregate errs = None ↔ errs = [].
Proof. by destruct errs. Qed.
