(* ===== verification/ClusterDefaulting.v ===== *)
(** * Defaulting of clusters

    [DefaultSeed] of [pkg/controller/operator/defaults/defaults.go],
    [pkg/defaulting/cluster.go], and the mutating admission webhook for clusters,
    [pkg/webhook/cluster/mutation/mutation.go]. *)

From S2P Require Import Prelude Kube Semver Net CloudApi ClusterApi Field VersionManager.

(** ** Libraries *)

(** [mergo.Merge] for the two types it is used with, [resource.Quantity], and the
    parser of image references (whether one has a tag). *)
Class DefaultingLibs := {
  mergeSpec : ClusterSpec → ClusterSpec → outcome ClusterSpec;
  mergeComponents : ComponentSettings → ComponentSettings → outcome ComponentSettings;
  quantity_IsZero : Quantity → bool;
  ParseQuantity : string → outcome Quantity;
  reference_Parse : string → outcome bool;
}.

(** The methods of [provider.CloudProvider] that admission calls. *)
Record CloudProvider (W : Type) := mkCloudProvider {
  cp_DefaultCloudSpec : CloudSpec → M W CloudSpec;
  cp_ValidateCloudSpec : CloudSpec → M W unit;
  cp_ValidateCloudSpecUpdate : CloudSpec → CloudSpec → M W unit;
}.
Arguments cp_DefaultCloudSpec {W}.
Arguments cp_ValidateCloudSpec {W}.
Arguments cp_ValidateCloudSpecUpdate {W}.

(** ** Configuration *)

Record UserClusterConfiguration := mkUserClusterConfiguration {
  uc_nodePortRange : string;
  uc_disableAPIServerEndpointReconciling : bool;
  uc_etcdVolumeSize : string;
  uc_apiserverReplicas : option Z;
}.
Record KubermaticConfiguration := mkKubermaticConfiguration {
  kc_exposeStrategy : string;
  kc_userCluster : UserClusterConfiguration;
  kc_versions : KubermaticVersioningConfiguration;
}.

Record ClusterTemplateSSHKey := mkClusterTemplateSSHKey { tsk_id : string; tsk_name : string }.
Record ClusterTemplate := mkClusterTemplate {
  tpl_meta : ObjectMeta;
  tpl_clusterLabels : gmap string string;
  tpl_inheritedClusterLabels : gmap string string;
  tpl_credential : string;
  tpl_userSSHKeys : list ClusterTemplateSSHKey;
  tpl_spec : ClusterSpec;
}.
#[global] Program Instance ClusterTemplate_object : Object ClusterTemplate := {|
  obj_meta := tpl_meta;
  set_meta m t := mkClusterTemplate m (tpl_clusterLabels t) (tpl_inheritedClusterLabels t) (tpl_credential t)
    (tpl_userSSHKeys t) (tpl_spec t);
|}.
Next Obligation. done. Qed.

Definition SeedTemplateScope : string := "seed".
Definition ApiserverNetworkPolicy : string := "apiserverNetworkPolicy".
Definition DefaultControllerManagerReplicas : Z := 1.
Definition DefaultSchedulerReplicas : Z := 1.
Definition DefaultEtcdClusterSize : Z := 3.
Definition DefaultEnvoyDockerRepository : string := "docker.io/envoyproxy/envoy-alpine".
Definition DefaultNodeportProxyDockerRepository : string := "quay.io/kubermatic/nodeport-proxy".
Definition ResourceCPU : string := "cpu".
Definition ResourceMemory : string := "memory".

Definition resource_list (cpu memory : string) : ResourceList :=
  Some (list_to_map [(ResourceCPU, cpu); (ResourceMemory, memory)]).
Definition DefaultNodeportProxyEnvoyResources : ResourceRequirements :=
  mkResourceRequirements (resource_list "1" "128Mi") (resource_list "50m" "32Mi").
Definition DefaultNodeportProxyEnvoyManagerResources : ResourceRequirements :=
  mkResourceRequirements (resource_list "150m" "48Mi") (resource_list "50m" "32Mi").
Definition DefaultNodeportProxyUpdaterResources : ResourceRequirements :=
  mkResourceRequirements (resource_list "150m" "32Mi") (resource_list "50m" "32Mi").
Definition DefaultNodeportProxyServiceAnnotations : gmap string string :=
  list_to_map [("service.beta.kubernetes.io/aws-load-balancer-type", "nlb");
               ("service.beta.kubernetes.io/aws-load-balancer-connection-idle-timeout", "3600")].

Definition IPVSProxyMode : string := "ipvs".
Definition IPTablesProxyMode : string := "iptables".
Definition EBPFProxyMode : string := "ebpf".
Definition DefaultNodeLocalDNSCacheEnabled : bool := true.
Definition DefaultClusterPodsCIDRIPv4 : string := "172.25.0.0/16".
Definition DefaultClusterPodsCIDRIPv4KubeVirt : string := "172.26.0.0/16".
Definition DefaultClusterPodsCIDRIPv6 : string := "fd01::/48".
Definition DefaultClusterServicesCIDRIPv4 : string := "10.240.16.0/20".
Definition DefaultClusterServicesCIDRIPv4KubeVirt : string := "10.241.0.0/20".
Definition DefaultClusterServicesCIDRIPv6 : string := "fd02::/120".
Definition DefaultNodeCIDRMaskSizeIPv4 : Z := 24.
Definition DefaultNodeCIDRMaskSizeIPv6 : Z := 64.

Definition GetDefaultPodCIDRIPv4 (provider : string) : string :=
  if String.eqb provider KubevirtCloudProvider then DefaultClusterPodsCIDRIPv4KubeVirt else DefaultClusterPodsCIDRIPv4.
Definition GetDefaultServicesCIDRIPv4 (provider : string) : string :=
  if String.eqb provider KubevirtCloudProvider then DefaultClusterServicesCIDRIPv4KubeVirt
  else DefaultClusterServicesCIDRIPv4.
Definition GetDefaultProxyMode (provider : string) : string :=
  if String.eqb provider HetznerCloudProvider then IPTablesProxyMode else IPVSProxyMode.

(** ** [DefaultSeed] *)

Section defaulting.
Context `{DefaultingLibs}.

Definition defaultDockerRepo (repo defaultRepo : string) : outcome string :=
  if String.eqb repo "" then Ok defaultRepo else
  tagged ← outcome_wrap "invalid docker repository" (reference_Parse repo);
  if (tagged : bool) then Err (ErrNew "it is not allowed to specify an image tag for the repository") else Ok repo.

Definition default_quantity (defaults : gmap string Quantity) (l : gmap string Quantity) (name : string)
    : gmap string Quantity :=
  if match l !! name with Some q => negb (quantity_IsZero q) | None => false end then l
  else match defaults !! name with Some q => <[name := q]> l | None => <[name := "0"]> l end.
Definition defaultResourceList (l defaults : ResourceList) : ResourceList :=
  match l with
  | None => defaults
  | Some l => Some (foldl (default_quantity (default ∅ defaults)) l [ResourceMemory; ResourceCPU])
  end.
Definition defaultResources (settings defaults : ResourceRequirements) : ResourceRequirements :=
  mkResourceRequirements (defaultResourceList (rr_limits settings) (rr_limits defaults))
    (defaultResourceList (rr_requests settings) (rr_requests defaults)).

Definition or_default {A} (x y : option A) : option A := match x with Some _ => x | None => y end.
Definition or_string (x y : string) : string := if String.eqb x "" then y else x.

Definition set_replicas (r : option Z) (d : DeploymentSettings) : DeploymentSettings :=
  mkDeploymentSettings r (dp_resources d) (dp_tolerations d).
Definition set_controllerReplicas (r : option Z) (c : ControllerSettings) : ControllerSettings :=
  mkControllerSettings (set_replicas r (ct_deployment c)) (ct_leaderElection c).

(** The component settings that a seed inherits from the configuration. *)
Definition defaultComponentSettings (settings : ComponentSettings) (config : KubermaticConfiguration)
    : outcome ComponentSettings :=
  let uc := kc_userCluster config in
  let a := cmp_apiserver settings in
  let apiserver := mkAPIServerSettings
    (set_replicas (or_default (dp_replicas (as_deployment a)) (uc_apiserverReplicas uc)) (as_deployment a))
    (match as_endpointReconcilingDisabled a with
     | None => if uc_disableAPIServerEndpointReconciling uc then Some true else None
     | d => d
     end)
    (or_string (as_nodePortRange a) (uc_nodePortRange uc)) in
  let controllerManager := cmp_controllerManager settings in
  let scheduler := cmp_scheduler settings in
  let etcd := cmp_etcd settings in
  diskSize ← match es_diskSize etcd with
             | Some d => Ok d
             | None => outcome_wrap "failed to parse spec.userCluster.etcdVolumeSize" (ParseQuantity (uc_etcdVolumeSize uc))
             end;
  Ok (mkComponentSettings apiserver
    (set_controllerReplicas (or_default (dp_replicas (ct_deployment controllerManager))
       (Some DefaultControllerManagerReplicas)) controllerManager)
    (set_controllerReplicas (or_default (dp_replicas (ct_deployment scheduler))
       (Some DefaultSchedulerReplicas)) scheduler)
    (mkEtcdStatefulSetSettings (or_default (es_clusterSize etcd) (Some DefaultEtcdClusterSize)) (es_storageClass etcd)
       (Some diskSize) (es_resources etcd) (es_tolerations etcd))
    (cmp_prometheus settings) (cmp_nodePortProxyEnvoy settings) (cmp_konnectivityProxy settings)).

Definition defaultProxyComponent (c : NodeportProxyComponent) (repo : string) (resources : ResourceRequirements)
    : NodeportProxyComponent :=
  mkNodeportProxyComponent repo (defaultResources (np_resources c) resources).

Definition DefaultSeed (seed : Seed) (config : KubermaticConfiguration) : outcome Seed :=
  let np := seed_nodeportProxy seed in
  envoyRepo ← defaultDockerRepo (np_dockerRepository (npc_envoy np)) DefaultEnvoyDockerRepository;
  managerRepo ← defaultDockerRepo (np_dockerRepository (npc_envoyManager np)) DefaultNodeportProxyDockerRepository;
  updaterRepo ← defaultDockerRepo (np_dockerRepository (npc_updater np)) DefaultNodeportProxyDockerRepository;
  let lb := npc_loadBalancerService np in
  let annotations := if bool_decide (lb_annotations lb = ∅) then DefaultNodeportProxyServiceAnnotations
                     else lb_annotations lb in
  let np := mkNodeportProxyConfig (npc_disable np) (npc_annotations np)
    (defaultProxyComponent (npc_envoy np) envoyRepo DefaultNodeportProxyEnvoyResources)
    (mkEnvoyLoadBalancerService annotations (lb_sourceRanges lb))
    (defaultProxyComponent (npc_envoyManager np) managerRepo DefaultNodeportProxyEnvoyManagerResources)
    (defaultProxyComponent (npc_updater np) updaterRepo DefaultNodeportProxyUpdaterResources) in
  settings ← defaultComponentSettings (seed_defaultComponentSettings seed) config;
  Ok (mkSeed (seed_name seed) (seed_namespace seed) (seed_etcdBackupRestore seed) (seed_datacenters seed) np
        (or_string (seed_exposeStrategy seed) (kc_exposeStrategy config)) settings
        (seed_defaultClusterTemplate seed) (seed_metering seed) (seed_rest seed)).

(** ** [DefaultClusterNetwork] *)

Definition is_nil {A} (l : list A) : bool := match l with [] => true | _ :: _ => false end.

Definition DefaultClusterNetwork `{KubeNet} (n : ClusterNetworkingConfig) (provider : string) : ClusterNetworkingConfig :=
  let ipFamily := if String.eqb (cn_ipFamily n) ""
                  then if Nat.ltb (length (nr_CIDRBlocks (cn_pods n))) 2 then IPFamilyIPv4 else IPFamilyDualStack
                  else cn_ipFamily n in
  let dual := String.eqb ipFamily IPFamilyDualStack in
  let pods := if is_nil (nr_CIDRBlocks (cn_pods n))
              then mkNetworkRanges (GetDefaultPodCIDRIPv4 provider :: if dual then [DefaultClusterPodsCIDRIPv6] else [])
              else cn_pods n in
  let services := if is_nil (nr_CIDRBlocks (cn_services n))
                  then mkNetworkRanges (GetDefaultServicesCIDRIPv4 provider ::
                         if dual then [DefaultClusterServicesCIDRIPv6] else [])
                  else cn_services n in
  let maskIPv4 := match cn_nodeCIDRMaskSizeIPv4 n with
                  | None => if HasIPv4CIDR pods then Some DefaultNodeCIDRMaskSizeIPv4 else None
                  | m => m
                  end in
  let maskIPv6 := match cn_nodeCIDRMaskSizeIPv6 n with
                  | None => if HasIPv6CIDR pods then Some DefaultNodeCIDRMaskSizeIPv6 else None
                  | m => m
                  end in
  let proxyMode := or_string (cn_proxyMode n) (GetDefaultProxyMode provider) in
  let ipvs := if String.eqb proxyMode IPVSProxyMode
              then let c := default (mkIPVSConfiguration None) (cn_ipvs n) in
                   Some (mkIPVSConfiguration (or_default (iv_strictArp c) (Some true)))
              else cn_ipvs n in
  mkClusterNetworkingConfig ipFamily services pods maskIPv4 maskIPv6 (or_string (cn_dnsDomain n) "cluster.local")
    proxyMode ipvs (or_default (cn_nodeLocalDNSCacheEnabled n) (Some DefaultNodeLocalDNSCacheEnabled))
    (cn_coreDNSReplicas n) (cn_konnectivityEnabled n).

Definition DatacenterForClusterSpec (spec : ClusterSpec) (seed : Seed) : FieldError + Datacenter :=
  let datacenterName := cd_datacenterName (sp_cloud spec) in
  if String.eqb datacenterName "" then inl (Required "spec.cloud.dc" "no datacenter name specified")
  else match seed_datacenters seed !! datacenterName with
       | Some dc => inr dc
       | None => inl (Invalid "spec.cloud.dc" "invalid datacenter name")
       end.

Definition set_providerName (n : string) (c : CloudSpec) : CloudSpec :=
  mkCloudSpec (cd_datacenterName c) n (cd_fake c) (cd_digitalocean c) (cd_bringYourOwn c) (cd_aws c) (cd_azure c)
    (cd_openstack c) (cd_packet c) (cd_hetzner c) (cd_vsphere c) (cd_gcp c) (cd_kubevirt c) (cd_alibaba c)
    (cd_anexia c) (cd_nutanix c) (cd_vmwareCloudDirector c).

Definition defaultCNI (cni : option CNIPluginSettings) : CNIPluginSettings :=
  match cni with
  | None => mkCNIPluginSettings CNIPluginTypeCanal (GetDefaultCNIPluginVersion CNIPluginTypeCanal)
  | Some c => if String.eqb (cni_version c) "" then mkCNIPluginSettings (cni_type c) (GetDefaultCNIPluginVersion (cni_type c))
              else c
  end.

(** What [DefaultClusterSpec] does after its calls to libraries and the cloud
    provider. *)
Definition defaultSpecFields `{KubeNet} (spec : ClusterSpec) (seed : Seed) : outcome ClusterSpec :=
  let spec := set_exposeStrategy (or_string (sp_exposeStrategy spec) (seed_exposeStrategy seed)) spec in
  match DatacenterForClusterSpec spec seed with
  | inl e => Err (field_error e)
  | inr datacenter =>
      let spec := if ds_enforceAuditLogging (dc_spec datacenter)
                  then set_auditLogging (Some (mkAuditLoggingSettings true "")) spec else spec in
      let spec := if ds_enforcePodSecurityPolicy (dc_spec datacenter) then set_usePodSecurityPolicy true spec else spec in
      providerName ← outcome_wrap "failed to determine cloud provider" (ClusterCloudProviderName (sp_cloud spec));
      let spec := set_cloud (set_providerName providerName (sp_cloud spec)) spec in
      let spec := set_cniPlugin (Some (defaultCNI (sp_cniPlugin spec))) spec in
      let spec := set_clusterNetwork (DefaultClusterNetwork (sp_clusterNetwork spec) providerName) spec in
      Ok (if is_some (cd_anexia (sp_cloud spec)) || is_some (cd_kubevirt (sp_cloud spec))
          then set_features (<[ClusterFeatureExternalCloudProvider := true]> (sp_features spec)) spec else spec)
  end.

Definition DefaultClusterSpec `{KubeNet} {W} (spec : ClusterSpec) (template : option ClusterTemplate) (seed : Seed)
    (config : option KubermaticConfiguration) (cloudProvider : option (CloudProvider W)) : M W ClusterSpec :=
  seed ← match config with
         | Some config => wrap "failed to apply default values to Seed" (lift (DefaultSeed seed config))
         | None => mret seed
         end;
  spec ← match template with
         | Some template => wrap "failed to apply defaulting template to Cluster spec" (lift (mergeSpec spec (tpl_spec template)))
         | None => mret spec
         end;
  components ← wrap "failed to apply defaulting template to Cluster spec"
                 (lift (mergeComponents (sp_componentsOverride spec) (seed_defaultComponentSettings seed)));
  let spec := set_componentsOverride components spec in
  cloud ← match cloudProvider with
          | Some p => wrap "failed to default cloud spec" (cp_DefaultCloudSpec p (sp_cloud spec))
          | None => mret (sp_cloud spec)
          end;
  lift (defaultSpecFields (set_cloud cloud spec) seed).

Definition GetDefaultingClusterTemplate {W} (templates : Client W ClusterTemplate) (seed : Seed)
    : M W (option ClusterTemplate) :=
  if String.eqb (seed_defaultClusterTemplate seed) "" then mret None else
  tpl ← wrap "failed to get ClusterTemplate"
          (c_get templates (mkKey (seed_namespace seed) (seed_defaultClusterTemplate seed)));
  if negb (String.eqb (map_str (om_labels (tpl_meta tpl)) "scope") SeedTemplateScope)
  then throw (ErrNew "invalid scope of default cluster template") else mret (Some tpl).
End defaulting.
