(* ===== verification/ClusterValidation.v ===== *)
(** * Validation of clusters

    [pkg/validation/cluster.go]: what the validating admission webhook accepts. *)

From S2P Require Import Prelude Kube Semver Net CloudApi ClusterApi Field VersionManager ClusterDefaulting.

Definition TunnelingExposeStrategy : string := "TunnelingExposeStrategy".
Definition FeatureGate_Enabled (f : gmap string bool) (feature : string) : bool :=
  match f !! feature with Some value => value | None => false end.

Definition UnsafeCNIUpgradeLabel : string := "unsafe-cni-upgrade".
Definition UnsafeCNIMigrationLabel : string := "unsafe-cni-migration".
Definition azureLoadBalancerSKUTypes : list string := [""; "standard"; "basic"].

(** ** Tokens *)

(** [tokenValidator.MatchString]: six characters of the alphabet, a dot and sixteen
    more somewhere in the text. *)
Definition tokenAlphabet : chars := String.list_ascii_of_string "bcdfghjklmnpqrstvwxz2456789".
Definition tokenChars (n : nat) (s : chars) : option chars :=
  if Nat.leb n (length s) && forallb (λ c, existsb (Ascii.eqb c) tokenAlphabet) (take n s) then Some (drop n s) else None.
Definition tokenAt (s : chars) : bool :=
  match tokenChars 6 s with
  | Some (c :: rest) => is_char c "." && match tokenChars 16 rest with Some _ => true | None => false end
  | _ => false
  end.
Fixpoint tokenSomewhere (s : chars) : bool :=
  tokenAt s || match s with [] => false | _ :: rest => tokenSomewhere rest end.
Definition ValidateKubernetesToken (token : string) : outcome unit :=
  if tokenSomewhere (String.list_ascii_of_string token) then Ok tt else Err (ErrNew "token is malformed").

(** [GenerateToken], from two random strings. *)
Definition GenerateToken (rand6 rand16 : string) : string := rand6 +:+ "." +:+ rand16.

(** ** Cloud specs *)

Definition need (value : string) (selector : option SecretKeySelector) (key : string) : outcome unit :=
  if String.eqb value "" then ValidateSecretKeySelector selector key else Ok tt.
(** The same with a message of its own for a missing reference. *)
Definition need_ref (value : string) (selector : option SecretKeySelector) (key msg : string) : outcome unit :=
  if String.eqb value "" then
    match selector with None => Err (ErrNew msg) | Some _ => ValidateSecretKeySelector selector key end
  else Ok tt.
Definition validateIPRange (range : string) (ranges : option NetworkRanges) : outcome unit :=
  _ ← (if negb (String.eqb range "") then (_ ← ParseCIDR range; Ok tt) else Ok tt);
  NetworkRanges_Validate ranges.

Definition nameless_reference (r : option SecretKeySelector) : bool :=
  match r with
  | Some r => negb (String.eqb (gs_name r) "") && String.eqb (gs_namespace r) ""
  | None => false
  end.

Definition validateOpenStackCloudSpec (spec : OpenstackCloudSpec) (dc : option Datacenter) : outcome unit :=
  if negb (String.eqb (os_applicationCredentialID spec) "") && String.eqb (os_applicationCredentialSecret spec) ""
  then Err (ErrNew "no applicationCredentialSecret specified")
  else if negb (String.eqb (os_applicationCredentialID spec) "") && negb (String.eqb (os_applicationCredentialSecret spec) "")
  then Ok tt
  else
    _ ← need (os_domain spec) (os_credentialsReference spec) "domain";
    _ ← need (os_username spec) (os_credentialsReference spec) "username";
    _ ← need (os_password spec) (os_credentialsReference spec) "password";
    _ ← validateIPRange (os_nodePortsAllowedIPRange spec) (os_nodePortsAllowedIPRanges spec);
    if (String.eqb (os_project spec) "" && nameless_reference (os_credentialsReference spec)) ||
       (String.eqb (os_projectID spec) "" && nameless_reference (os_credentialsReference spec))
    then Err (ErrNew "no tenant name or ID specified")
    else if match dc with
            | Some dc => String.eqb (os_floatingIPPool spec) "" &&
                match ds_openstack (dc_spec dc) with Some o => dos_enforceFloatingIP o | None => false end
            | None => false
            end
    then Err (ErrNew "no floating ip pool specified")
    else Ok tt.

Definition validateAWSCloudSpec (spec : AWSCloudSpec) : outcome unit :=
  _ ← need (aws_accessKeyID spec) (aws_credentialsReference spec) "accessKeyId";
  _ ← need (aws_secretAccessKey spec) (aws_credentialsReference spec) "secretAccessKey";
  validateIPRange (aws_nodePortsAllowedIPRange spec) (aws_nodePortsAllowedIPRanges spec).

Definition validateGCPCloudSpec (spec : GCPCloudSpec) : outcome unit :=
  _ ← need (gcp_serviceAccount spec) (gcp_credentialsReference spec) "serviceAccount";
  validateIPRange (gcp_nodePortsAllowedIPRange spec) (gcp_nodePortsAllowedIPRanges spec).

Definition validateHetznerCloudSpec (spec : HetznerCloudSpec) : outcome unit :=
  need (hz_token spec) (hz_credentialsReference spec) "token".

Definition validatePacketCloudSpec (spec : PacketCloudSpec) : outcome unit :=
  _ ← need (pk_apiKey spec) (pk_credentialsReference spec) "apiKey";
  need (pk_projectID spec) (pk_credentialsReference spec) "projectID".

Definition validateVSphereCloudSpec (spec : VSphereCloudSpec) : outcome unit :=
  _ ← need (vs_username spec) (vs_credentialsReference spec) "username";
  need (vs_password spec) (vs_credentialsReference spec) "password".

Definition validateVMwareCloudDirectorCloudSpec (spec : VMwareCloudDirectorCloudSpec) : outcome unit :=
  _ ← need (vd_username spec) (vd_credentialsReference spec) "username";
  _ ← need (vd_password spec) (vd_credentialsReference spec) "password";
  _ ← need (vd_organization spec) (vd_credentialsReference spec) "organization";
  need (vd_vdc spec) (vd_credentialsReference spec) "vdc".

Definition validateAzureCloudSpec (spec : AzureCloudSpec) : outcome unit :=
  _ ← need (az_tenantID spec) (az_credentialsReference spec) "tenantID";
  _ ← need (az_subscriptionID spec) (az_credentialsReference spec) "subscriptionID";
  _ ← need (az_clientID spec) (az_credentialsReference spec) "clientID";
  _ ← need (az_clientSecret spec) (az_credentialsReference spec) "clientSecret";
  if negb (existsb (String.eqb (az_loadBalancerSKU spec)) azureLoadBalancerSKUTypes)
  then Err (ErrNew "azure LB SKU is not allowed")
  else validateIPRange (az_nodePortsAllowedIPRange spec) (az_nodePortsAllowedIPRanges spec).

Definition validateDigitaloceanCloudSpec (spec : DigitaloceanCloudSpec) : outcome unit :=
  need_ref (do_token spec) (do_credentialsReference spec) "token" "no token or credentials reference specified".

Definition validateFakeCloudSpec (spec : FakeCloudSpec) : outcome unit :=
  if String.eqb (fk_token spec) "" then Err (ErrNew "no token specified") else Ok tt.

Definition validateKubevirtCloudSpec (spec : KubevirtCloudSpec) : outcome unit :=
  need (kb_kubeconfig spec) (kb_credentialsReference spec) "kubeConfig".

Definition validateAlibabaCloudSpec (spec : AlibabaCloudSpec) : outcome unit :=
  _ ← need (al_accessKeyID spec) (al_credentialsReference spec) "accessKeyId";
  need (al_accessKeySecret spec) (al_credentialsReference spec) "accessKeySecret".

Definition validateAnexiaCloudSpec (spec : AnexiaCloudSpec) : outcome unit :=
  need_ref (ax_token spec) (ax_credentialsReference spec) "token" "no token or credentials reference specified".

Definition validateNutanixCloudSpec (spec : NutanixCloudSpec) : outcome unit :=
  _ ← need_ref (nx_username spec) (nx_credentialsReference spec) "username" "no username or credentials reference specified";
  _ ← need_ref (nx_password spec) (nx_credentialsReference spec) "password" "no password or credentials reference specified";
  if String.eqb (nx_clusterName spec) "" then Err (ErrNew "no cluster name specified") else
  match nx_csi spec with
  | None => Ok tt
  | Some csi =>
      _ ← need_ref (nc_username csi) (nx_credentialsReference spec) "csiUsername"
            "no CSI username or credentials reference specified";
      _ ← need_ref (nc_password csi) (nx_credentialsReference spec) "csiPassword"
            "no CSI password or credentials reference specified";
      if String.eqb (nc_endpoint csi) "" then Err (ErrNew "CSI Endpoint mut not be empty")
      else if negb (is_some (nc_port csi)) then Err (ErrNew "CSI Port mut not be empty")
      else Ok tt
  end.

(** The switch over the providers: the first that is set counts. *)
Definition validateProviderSpec (spec : CloudSpec) (dc : option Datacenter) : outcome unit :=
  match cd_aws spec with Some s => validateAWSCloudSpec s | None =>
  match cd_alibaba spec with Some s => validateAlibabaCloudSpec s | None =>
  match cd_anexia spec with Some s => validateAnexiaCloudSpec s | None =>
  match cd_azure spec with Some s => validateAzureCloudSpec s | None =>
  match cd_bringYourOwn spec with Some _ => Ok tt | None =>
  match cd_digitalocean spec with Some s => validateDigitaloceanCloudSpec s | None =>
  match cd_fake spec with Some s => validateFakeCloudSpec s | None =>
  match cd_gcp spec with Some s => validateGCPCloudSpec s | None =>
  match cd_hetzner spec with Some s => validateHetznerCloudSpec s | None =>
  match cd_kubevirt spec with Some s => validateKubevirtCloudSpec s | None =>
  match cd_openstack spec with Some s => validateOpenStackCloudSpec s dc | None =>
  match cd_packet spec with Some s => validatePacketCloudSpec s | None =>
  match cd_vsphere spec with Some s => validateVSphereCloudSpec s | None =>
  match cd_nutanix spec with Some s => validateNutanixCloudSpec s | None =>
  match cd_vmwareCloudDirector spec with Some s => validateVMwareCloudDirectorCloudSpec s | None =>
  Err (ErrNew "no cloud provider specified")
  end end end end end end end end end end end end end end end.

(** [x, err := f()] of pure code: value, or the zero value and the error. *)
Definition value_or {A} (zero : A) (o : outcome A) : A := match o with Ok a => a | _ => zero end.
Definition error_of {A} (o : outcome A) : option error := match o with Err e => Some e | _ => None end.
Definition invalid_on {A} (p : Path) (o : outcome A) : list FieldError :=
  match error_of o with Some e => [Invalid p (error_string e)] | None => [] end.

Definition ValidateCloudSpec (spec : CloudSpec) (dc : option Datacenter) (parentFieldPath : Path) : list FieldError :=
  let providerName := value_or "" (ClusterCloudProviderName spec) in
  err_if (String.eqb (cd_datacenterName spec) "")
    (Required (child parentFieldPath ["dc"]) "no node datacenter specified") ++
  invalid_on parentFieldPath (ClusterCloudProviderName spec) ++
  err_if (negb (String.eqb (cd_providerName spec) "") && negb (String.eqb (cd_providerName spec) providerName))
    (Invalid (child parentFieldPath ["providerName"]) "expected providerName to match") ++
  match dc with
  | None => []
  | Some dc =>
      let dcCloudProvider := DatacenterCloudProviderName (Some (dc_spec dc)) in
      invalid_on parentFieldPath (ClusterCloudProviderName spec) ++
      invalid_on parentFieldPath dcCloudProvider ++
      err_if (negb (String.eqb providerName (value_or "" dcCloudProvider)))
        (Invalid parentFieldPath "expected datacenter provider to match")
  end ++
  invalid_on parentFieldPath (validateProviderSpec spec dc).

Definition ErrCloudChangeNotAllowed : error := ErrNew "not allowed to change the cloud provider".

Definition ValidateCloudChange (newSpec oldSpec : CloudSpec) : outcome unit :=
  if negb (String.eqb (cd_datacenterName newSpec) (cd_datacenterName oldSpec))
  then Err (ErrNew "changing the datacenter is not allowed") else
  oldCloudProvider ← outcome_wrap "could not determine old cloud provider" (ClusterCloudProviderName oldSpec);
  newCloudProvider ← outcome_wrap "could not determine new cloud provider" (ClusterCloudProviderName newSpec);
  if negb (String.eqb oldCloudProvider newCloudProvider) then Err ErrCloudChangeNotAllowed else Ok tt.

(** ** Networks *)

Fixpoint validateCIDRsFrom (i : nat) (cidrBlocks : list string) (fldPath : Path) : option FieldError :=
  match cidrBlocks with
  | [] => None
  | cidr :: rest =>
      match ParseCIDR cidr with
      | Ok addr =>
          if Nat.eqb i 0 && negb (is_some (To4 addr)) then
            Some (Invalid (index (child fldPath ["pods"; "cidrBlocks"]) i) "invalid address family for primary CIDR: has to be IPv4")
          else if Nat.eqb i 1 && is_some (To4 addr) then
            Some (Invalid (index (child fldPath ["pods"; "cidrBlocks"]) i) "invalid address family for secondary CIDR: has to be IPv6")
          else validateCIDRsFrom (S i) rest fldPath
      | _ => Some (Invalid (index fldPath i) "couldn't parse CIDR")
      end
  end.
Definition validateClusterCIDRBlocks (cidrBlocks : list string) (fldPath : Path) : option FieldError :=
  validateCIDRsFrom 0 cidrBlocks fldPath.

(** The conversion to [int32] of a mask size is exact. *)
Definition validateNodeCIDRMaskSize (nodeCIDRMaskSize : option Z) (podCIDR : string) (fldPath : Path) : option FieldError :=
  match nodeCIDRMaskSize with
  | None => None
  | Some size =>
      if String.eqb podCIDR "" then None else
      match ParseCIDRNet podCIDR with
      | Ok (_, podCIDRNet) =>
          if size <=? Mask_ones (in_Mask podCIDRNet) then
            Some (Invalid fldPath "node CIDR mask size must be longer than the mask size of the pod CIDR")
          else None
      | _ => Some (Invalid fldPath "couldn't parse CIDR")
      end
  end.

Definition true_ptr (b : option bool) : bool := match b with Some true => true | _ => false end.

Definition ValidateClusterNetworkConfig `{KubeNet} (n : ClusterNetworkingConfig) (cni : option CNIPluginSettings)
    (fldPath : Path) : list FieldError :=
  let pods := nr_CIDRBlocks (cn_pods n) in
  let services := nr_CIDRBlocks (cn_services n) in
  let podsPath := child fldPath ["pods"; "cidrBlocks"] in
  let servicesPath := child fldPath ["services"; "cidrBlocks"] in
  err_if (Nat.ltb 2 (length pods)) (TooMany podsPath) ++
  err_if (Nat.ltb 2 (length services)) (TooMany servicesPath) ++
  err_if (Nat.eqb (length pods) 0) (Required podsPath "pod CIDR must be provided") ++
  err_if (Nat.eqb (length services) 0) (Required servicesPath "service CIDR must be provided") ++
  err_if (Nat.ltb (length pods) (length services)) (Invalid podsPath "more pod CIDRs must be provided") ++
  err_if (Nat.ltb (length services) (length pods)) (Invalid servicesPath "more services CIDRs must be provided") ++
  err_opt (validateClusterCIDRBlocks pods podsPath) ++
  err_opt (validateClusterCIDRBlocks services servicesPath) ++
  err_if (String.eqb (cn_ipFamily n) IPFamilyIPv4 && negb (Nat.eqb (length pods) 1))
    (Invalid (child fldPath ["ipFamily"]) "IP family does not match with provided pods CIDRs") ++
  err_if (String.eqb (cn_ipFamily n) IPFamilyDualStack && negb (Nat.eqb (length pods) 2))
    (Invalid (child fldPath ["ipFamily"]) "IP family does not match with provided pods CIDRs") ++
  err_opt (validateNodeCIDRMaskSize (cn_nodeCIDRMaskSizeIPv4 n) (GetIPv4CIDR (cn_pods n))
    (child fldPath ["nodeCidrMaskSizeIPv4"])) ++
  err_opt (validateNodeCIDRMaskSize (cn_nodeCIDRMaskSizeIPv6 n) (GetIPv6CIDR (cn_pods n))
    (child fldPath ["nodeCidrMaskSizeIPv6"])) ++
  err_if (negb (String.eqb (cn_dnsDomain n) "cluster.local"))
    (Invalid (child fldPath ["dnsDomain"]) "dnsDomain must be 'cluster.local'") ++
  err_if (negb (String.eqb (cn_proxyMode n) IPVSProxyMode) && negb (String.eqb (cn_proxyMode n) IPTablesProxyMode) &&
          negb (String.eqb (cn_proxyMode n) EBPFProxyMode)) (NotSupported (child fldPath ["proxyMode"]) (cn_proxyMode n)) ++
  err_if (String.eqb (cn_proxyMode n) EBPFProxyMode &&
          match cni with None => true | Some c => negb (String.eqb (cni_type c) CNIPluginTypeCilium) end)
    (Invalid (child fldPath ["proxyMode"]) "ebpf proxy mode is valid only for cilium CNI") ++
  err_if (String.eqb (cn_proxyMode n) EBPFProxyMode && negb (true_ptr (cn_konnectivityEnabled n)))
    (Invalid (child fldPath ["proxyMode"]) "ebpf proxy mode can be used only when Konnectivity is enabled").

Fixpoint validateDNSServers (j : nat) (servers : list string) (p : Path) : list FieldError :=
  match servers with
  | [] => []
  | s :: rest =>
      err_if (negb (is_some (ParseIP s))) (Invalid (index (child p ["dnsServers"]) j) "could not parse DNS server") ++
      validateDNSServers (S j) rest p
  end.
Fixpoint validateMachineNetworks (i : nat) (networks : list MachineNetworkingConfig) (basePath : Path) : list FieldError :=
  match networks with
  | [] => []
  | network :: rest =>
      err_if (is_some (error_of (ParseCIDR (mn_cidr network)))) (Invalid (index basePath i) "could not parse CIDR") ++
      err_if (negb (is_some (ParseIP (mn_gateway network)))) (Invalid (index basePath i) "could not parse gateway") ++
      validateDNSServers 0 (mn_dnsServers network) (index basePath i) ++
      validateMachineNetworks (S i) rest basePath
  end.
Definition validateMachineNetworksFromClusterSpec (spec : ClusterSpec) (parentFieldPath : Path) : list FieldError :=
  let networks := sp_machineNetworks spec in
  let basePath := child parentFieldPath ["machineNetworks"] in
  if is_nil networks then [] else
  err_if (negb (is_some (cd_vsphere (sp_cloud spec))))
    (Invalid basePath "machine networks are only supported with the vSphere provider") ++
  validateMachineNetworks 0 networks basePath.

(** ** Other settings *)

Definition ValidateLeaderElectionSettings (l : LeaderElectionSettings) (fldPath : Path) : list FieldError :=
  let negative (z : option Z) := match z with Some z => z <? 0 | None => false end in
  err_if (negative (le_leaseDurationSeconds l))
    (Invalid (child fldPath ["leaseDurationSeconds"]) "lease duration seconds cannot be negative") ++
  err_if (negative (le_renewDeadlineSeconds l))
    (Invalid (child fldPath ["renewDeadlineSeconds"]) "renew deadline seconds cannot be negative") ++
  err_if (negative (le_retryPeriodSeconds l))
    (Invalid (child fldPath ["retryPeriodSeconds"]) "retry period seconds cannot be negative") ++
  err_if (negb (Bool.eqb (is_some (le_leaseDurationSeconds l)) (is_some (le_renewDeadlineSeconds l))))
    (Forbidden fldPath "leader election lease duration and renew deadline should be either both specified or unspecified") ++
  err_if (match le_leaseDurationSeconds l, le_renewDeadlineSeconds l with Some lds, Some rds => lds <? rds | _, _ => false end)
    (Forbidden fldPath "control plane leader election renew deadline cannot be smaller than lease duration").

Definition ValidateNodePortRange `{KubeNet} (nodePortRange : string) (fldPath : Path) : option FieldError :=
  if String.eqb nodePortRange "" then Some (Required fldPath "node port range is required") else
  match ParsePortRange nodePortRange with
  | inr (base, size) =>
      if (base =? 0) || (size =? 0) then Some (Invalid fldPath "invalid nodeport range") else None
  | inl e => Some (Invalid fldPath (error_string e))
  end.

Fixpoint validateKeys (i : nat) (keys : list SecretboxKey) (fieldPath : Path) : list FieldError :=
  match keys with
  | [] => []
  | k :: rest =>
      let childPath := index (child fieldPath ["secretbox"; "keys"]) i in
      err_if (String.eqb (sk_name k) "") (Required (child childPath ["name"]) "secretbox key name is required") ++
      err_if (String.eqb (sk_value k) "" && negb (is_some (sk_secretRef k)))
        (Required childPath "either 'value' or 'secretRef' must be set") ++
      err_if (negb (String.eqb (sk_value k) "") && is_some (sk_secretRef k))
        (Invalid childPath "'value' and 'secretRef' cannot be set at the same time") ++
      validateKeys (S i) rest fieldPath
  end.

Definition validateEncryptionConfiguration (spec : ClusterSpec) (fieldPath : Path) : list FieldError :=
  match sp_encryptionConfiguration spec with
  | Some cfg =>
      if negb (ec_enabled cfg) then [] else
      err_if (negb (map_bool (sp_features spec) ClusterFeatureEncryptionAtRest))
        (Forbidden (child fieldPath ["enabled"]) "cannot enable encryption configuration if feature gate is not set") ++
      match ec_secretbox cfg with
      | None => [Required (child fieldPath ["secretbox"]) "exactly one encryption provider (secretbox, kms) needs to be configured"]
      | Some secretbox => validateKeys 0 (sb_keys secretbox) fieldPath
      end
  | None => []
  end.

(** The parameters in the order of the declaration. *)
Definition validateEncryptionUpdate (oldCluster newCluster : Cluster) : list FieldError :=
  let old := sp_encryptionConfiguration (cl_spec oldCluster) in
  let new := sp_encryptionConfiguration (cl_spec newCluster) in
  (if map_bool (sp_features (cl_spec oldCluster)) ClusterFeatureEncryptionAtRest then
     match cs_encryption (cl_status oldCluster) with
     | None => []
     | Some encryption =>
         err_if (negb (String.eqb (ce_phase encryption) "") &&
                 negb (String.eqb (ce_phase encryption) ClusterEncryptionPhaseActive) && negb (bool_decide (old = new)))
           (Forbidden "spec.encryptionConfiguration" "no changes to encryption configuration are allowed in this encryption phase") ++
         match old, new with
         | Some o, Some n =>
             err_if (ec_enabled o && ec_enabled n && negb (bool_decide (ec_resources o = ec_resources n)))
               (Forbidden "spec.encryptionConfiguration.resources" "list of encrypted resources cannot be changed")
         | _, _ => []
         end
     end
   else []) ++
  err_if (negb (map_bool (sp_features (cl_spec newCluster)) ClusterFeatureEncryptionAtRest) &&
          (IsEncryptionEnabled newCluster || IsEncryptionActive newCluster))
    (Forbidden "features" "cannot disable feature flag while encryption is still configured or active").

(** [apimachineryvalidation.ValidateImmutableField]. *)
Definition ValidateImmutableField {A} `{EqDecision A} (newVal oldVal : A) (fldPath : Path) : list FieldError :=
  err_if (negb (bool_decide (newVal = oldVal))) (Invalid fldPath "field is immutable").

(** Immutable once it is set. *)
Definition immutable_if {A} `{EqDecision A} (set : bool) (newVal oldVal : A) (fldPath : Path) : list FieldError :=
  if set then ValidateImmutableField newVal oldVal fldPath else [].

Definition validateClusterNetworkingConfigUpdateImmutability (c oldC : ClusterNetworkingConfig) (fldPath : Path)
    : list FieldError :=
  immutable_if (negb (String.eqb (cn_ipFamily oldC) "")) (cn_ipFamily c) (cn_ipFamily oldC) (child fldPath ["ipFamily"]) ++
  immutable_if (negb (is_nil (nr_CIDRBlocks (cn_pods oldC)))) (nr_CIDRBlocks (cn_pods c)) (nr_CIDRBlocks (cn_pods oldC))
    (child fldPath ["pods"; "cidrBlocks"]) ++
  immutable_if (negb (is_nil (nr_CIDRBlocks (cn_services oldC)))) (nr_CIDRBlocks (cn_services c))
    (nr_CIDRBlocks (cn_services oldC)) (child fldPath ["services"; "cidrBlocks"]) ++
  immutable_if (negb (String.eqb (cn_proxyMode oldC) "")) (cn_proxyMode c) (cn_proxyMode oldC) (child fldPath ["proxyMode"]) ++
  immutable_if (negb (String.eqb (cn_dnsDomain oldC) "")) (cn_dnsDomain c) (cn_dnsDomain oldC) (child fldPath ["dnsDomain"]) ++
  immutable_if (is_some (cn_nodeLocalDNSCacheEnabled oldC)) (cn_nodeLocalDNSCacheEnabled c)
    (cn_nodeLocalDNSCacheEnabled oldC) (child fldPath ["nodeLocalDNSCacheEnabled"]).

Section versions.
Context `{SemverLib}.

(** Both versions of a CNI plugin, and whether the step between them is one minor. *)
Definition oneMinorApart (newV oldV : Version) : bool :=
  (ver_Major newV =? ver_Major oldV) &&
  ((ver_Minor newV =? wrapU64 (ver_Minor oldV + 1)) || (ver_Minor oldV =? wrapU64 (ver_Minor newV + 1))).

Definition validateCNIUpdate (newCni oldCni : option CNIPluginSettings) (labels : gmap string string) : option FieldError :=
  match newCni, oldCni with
  | None, None => None
  | None, Some _ => Some (Required "spec.cniPlugin" "CNI plugin settings cannot be removed")
  | Some _, None => None
  | Some new, Some old =>
      if negb (String.eqb (cni_type new) (cni_type old)) then
        if is_some (labels !! UnsafeCNIMigrationLabel) then None
        else Some (Forbidden "spec.cniPlugin.type" "cannot change CNI plugin type")
      else if negb (String.eqb (cni_version new) (cni_version old)) then
        if negb (IsSupportedCNIPluginTypeAndVersion (Some old)) then None else
        match NewVersion (cni_version new) with
        | inl _ => Some (Invalid "spec.cniPlugin.version" "couldn't parse CNI version")
        | inr newV =>
            match NewVersion (cni_version old) with
            | inl _ => Some (Invalid "spec.cniPlugin.version" "couldn't parse CNI version")
            | inr oldV =>
                if negb (oneMinorApart newV oldV) && negb (is_some (labels !! UnsafeCNIUpgradeLabel))
                then Some (Forbidden "spec.cniPlugin.version" "only one minor version difference is allowed")
                else None
            end
        end
      else None
  end.

Definition ValidateContainerRuntime (spec : ClusterSpec) : outcome unit :=
  if negb (existsb (String.eqb (sp_containerRuntime spec)) ["docker"; "containerd"])
  then Err (ErrNew "container runtime not supported")
  else if negb (String.eqb (sp_containerRuntime spec) "docker") then Ok tt else
  gteKube124Condition ← deref (match NewConstraint ">= 1.24" with inr c => Some c | inl _ => None end);
  version ← deref (Semver_Semver (Some (sp_version spec)));
  if Constraints_Check gteKube124Condition version then Err (ErrNew "docker not supported from version 1.24") else Ok tt.

(** Whether the wanted version is among the available ones: nil pointers panic. *)
Fixpoint versionAvailable (wanted : option Version) (versions : list ManagerVersion) : outcome bool :=
  match versions with
  | [] => Ok false
  | v :: rest =>
      available ← deref (mv_version v);
      wantedV ← deref wanted;
      if ver_Equal wantedV available then Ok true else versionAvailable wanted rest
  end.

Definition validateCNI (spec : ClusterSpec) (parentFieldPath : Path) : outcome (list FieldError) :=
  match sp_cniPlugin spec with
  | None => Ok []
  | Some cni =>
      let errs :=
        if negb (bool_decide (cni_type cni ∈ GetSupportedCNIPlugins))
        then [NotSupported (child parentFieldPath ["cniPlugin"; "type"]) (cni_type cni)]
        else err_if (match GetAllowedCNIPluginVersions (cni_type cni) with
                     | Ok versions => negb (bool_decide (cni_version cni ∈ versions))
                     | _ => true
                     end) (NotSupported (child parentFieldPath ["cniPlugin"; "version"]) (cni_version cni)) in
      if String.eqb (cn_ipFamily (sp_clusterNetwork spec)) IPFamilyDualStack && String.eqb (cni_type cni) CNIPluginTypeCanal
      then match NewVersion (cni_version cni) with
           | inl _ => Ok errs
           | inr cniVer =>
               gte322Constraint ← deref (match NewConstraint ">= 3.22" with inr c => Some c | inl _ => None end);
               Ok (errs ++ err_if (negb (Constraints_Check gte322Constraint cniVer))
                     (Forbidden (child parentFieldPath ["cniPlugin"]) "dual-stack not allowed on Canal CNI version lower than 3.22"))
           end
      else Ok errs
  end.

Definition ValidateClusterSpec `{KubeNet} (spec : ClusterSpec) (dc : option Datacenter) (enabledFeatures : gmap string bool)
    (versions : list ManagerVersion) (parentFieldPath : Path) : outcome (list FieldError) :=
  versionValid ← versionAvailable (Semver_Semver (Some (sp_version spec))) versions;
  cniErrs ← validateCNI spec parentFieldPath;
  Ok (
    err_if (String.eqb (sp_humanReadableName spec) "")
      (Required (child parentFieldPath ["humanReadableName"]) "no name specified") ++
    err_if (negb (is_some (Semver_Semver (Some (sp_version spec)))) || String.eqb (Semver_String (Some (sp_version spec))) "")
      (Required (child parentFieldPath ["version"]) "version is required but was not specified") ++
    err_if (negb versionValid) (NotSupported (child parentFieldPath ["version"]) (Semver_String (Some (sp_version spec)))) ++
    err_if (negb (ExposeStrategiesSet_Has AllExposeStrategies (sp_exposeStrategy spec)))
      (NotSupported (child parentFieldPath ["exposeStrategy"]) (sp_exposeStrategy spec)) ++
    err_if (String.eqb (sp_exposeStrategy spec) ExposeStrategyTunneling &&
            negb (FeatureGate_Enabled enabledFeatures TunnelingExposeStrategy))
      (Forbidden (child parentFieldPath ["exposeStrategy"])
         "cannot create cluster with Tunneling expose strategy because the TunnelingExposeStrategy feature gate is not enabled") ++
    cniErrs ++
    ValidateLeaderElectionSettings (ct_leaderElection (cmp_controllerManager (sp_componentsOverride spec)))
      (child parentFieldPath ["componentsOverride"; "controllerManager"; "leaderElection"]) ++
    ValidateLeaderElectionSettings (ct_leaderElection (cmp_scheduler (sp_componentsOverride spec)))
      (child parentFieldPath ["componentsOverride"; "scheduler"; "leaderElection"]) ++
    ValidateCloudSpec (sp_cloud spec) dc (child parentFieldPath ["cloud"]) ++
    validateMachineNetworksFromClusterSpec spec parentFieldPath ++
    ValidateClusterNetworkConfig (sp_clusterNetwork spec) (sp_cniPlugin spec) (child parentFieldPath ["networkConfig"]) ++
    err_opt (ValidateNodePortRange (as_nodePortRange (cmp_apiserver (sp_componentsOverride spec)))
      "componentsOverride.apiserver.nodePortRange") ++
    validateEncryptionConfiguration spec (child parentFieldPath ["encryptionConfiguration"])).

(** The versions for a provider, with the error that a failure adds. *)
Definition versionsFor (m : Manager) (provider : string) (p : Path) : outcome (list FieldError * list ManagerVersion) :=
  match GetVersionsForProvider m provider [] with
  | Ok versions => Ok ([], versions)
  | Err e => Ok ([InternalError p (ErrWrap "failed to get available versions" e)], [])
  | Panic s => Panic s
  | OutOfFuel => OutOfFuel
  end.

(** An error of the cloud provider as a validation error. *)
Definition provider_err {W} (m : M W unit) (mk : error → FieldError) : M W (list FieldError) :=
  r ← try m;
  mret (match r with inl e => [mk e] | inr _ => [] end).

Definition ValidateNewClusterSpec `{KubeNet} {W} (spec : ClusterSpec) (dc : option Datacenter)
    (cloudProvider : option (CloudProvider W)) (versionManager : Manager) (enabledFeatures : gmap string bool)
    (parentFieldPath : Path) : M W (list FieldError) :=
  '(versionErrs, versions) ← lift (versionsFor versionManager (sp_providerName spec) (child parentFieldPath ["version"]));
  specErrs ← lift (ValidateClusterSpec spec dc enabledFeatures versions parentFieldPath);
  cloudErrs ← match cloudProvider with
              | None => mret []
              | Some p => provider_err (cp_ValidateCloudSpec p (sp_cloud spec))
                            (λ e, Invalid (child parentFieldPath ["cloud"]) (error_string e))
              end;
  mret (versionErrs ++ specErrs ++ cloudErrs).

(** [if vOld && !v]: a feature that was on is off. *)
Definition feature_disabled (feature : string) (newCluster oldCluster : Cluster) : list FieldError :=
  err_if (map_bool (sp_features (cl_spec oldCluster)) feature && negb (map_bool (sp_features (cl_spec newCluster)) feature))
    (Invalid (key "spec.features" feature) "feature gate cannot be disabled once it's enabled").

Definition nodePortRange_of (c : Cluster) : string := as_nodePortRange (cmp_apiserver (sp_componentsOverride (cl_spec c))).

(** The checks of an update that only compare the two clusters. *)
Definition validateChange (newCluster oldCluster : Cluster) : list FieldError :=
  let new := cl_spec newCluster in
  let old := cl_spec oldCluster in
  (match error_of (ValidateCloudChange (sp_cloud new) (sp_cloud old)) with
   | Some e => [Forbidden "spec.cloud" (error_string e)]
   | None => []
   end) ++
  (if negb (String.eqb (ca_adminToken (cl_address newCluster)) "")
   then invalid_on "address.adminToken" (ValidateKubernetesToken (ca_adminToken (cl_address newCluster))) else []) ++
  feature_disabled ClusterFeatureExternalCloudProvider newCluster oldCluster ++
  feature_disabled ClusterFeatureEtcdLauncher newCluster oldCluster ++
  immutable_if (negb (String.eqb (sp_exposeStrategy old) "")) (sp_exposeStrategy new) (sp_exposeStrategy old)
    "spec.exposeStrategy" ++
  immutable_if (negb (String.eqb (nodePortRange_of oldCluster) "")) (nodePortRange_of newCluster) (nodePortRange_of oldCluster)
    "spec.componentsOverride.apiserver.nodePortRange" ++
  (match sp_enableUserSSHKeyAgent old with
   | Some _ => ValidateImmutableField (sp_enableUserSSHKeyAgent new) (sp_enableUserSSHKeyAgent old) "spec.enableUserSSHKeyAgent"
   | None => err_if (match sp_enableUserSSHKeyAgent new with Some b => negb b | None => false end)
       (Invalid "cluster.spec.enableUserSSHKeyAgent"
          "UserSSHKey agent is enabled by default for user clusters created prior KKP 2.16 version")
   end) ++
  immutable_if (negb (Bool.eqb (sp_enableOperatingSystemManager old) (sp_enableOperatingSystemManager new)))
    (sp_enableOperatingSystemManager new) (sp_enableOperatingSystemManager old) "spec.enableOperatingSystemManager" ++
  validateClusterNetworkingConfigUpdateImmutability (sp_clusterNetwork new) (sp_clusterNetwork old) "spec.clusterNetwork" ++
  err_opt (validateCNIUpdate (sp_cniPlugin new) (sp_cniPlugin old) (om_labels (cl_meta newCluster))) ++
  validateEncryptionUpdate newCluster oldCluster ++
  err_if (negb (bool_decide (cl_typeMeta newCluster = cl_typeMeta oldCluster)))
    (Forbidden "typeMeta" "type meta cannot be changed").

Definition ValidateClusterUpdate `{KubeNet} {W} (newCluster oldCluster : Cluster) (dc : option Datacenter)
    (cloudProvider : option (CloudProvider W)) (versionManager : Manager) (features : gmap string bool)
    : M W (list FieldError) :=
  '(versionErrs, versions) ← lift (versionsFor versionManager (sp_providerName (cl_spec oldCluster)) "spec.version");
  specErrs ← lift (ValidateClusterSpec (cl_spec newCluster) dc features versions "spec");
  cloudErrs ← match cloudProvider with
              | None => mret []
              | Some p => provider_err (cp_ValidateCloudSpecUpdate p (sp_cloud (cl_spec oldCluster)) (sp_cloud (cl_spec newCluster)))
                            (λ e, Forbidden "spec.cloud" (error_string e))
              end;
  mret (versionErrs ++ specErrs ++ cloudErrs ++ validateChange newCluster oldCluster).
End versions.
