(* ===== verification/ClusterValidationSpec.v ===== *)
(** * What the validation of clusters accepts

    Declarative descriptions of the accepted updates, network configurations and
    tokens, and that the checks of [pkg/validation/cluster.go] decide them. *)

From S2P Require Import Prelude Kube Semver Net NetSpec CloudApi ClusterApi Field VersionManager ClusterDefaulting ClusterValidation.

(** ** Empty error lists *)

Lemma Ok_inj {A} (a b : A) : Ok a = Ok b → a = b.
Proof. by intros [= ->]. Qed.

Lemma app_nil_iff {A} (l k : list A) : l ++ k = [] ↔ l = [] ∧ k = [].
Proof. split; [apply app_eq_nil|by intros [-> ->]]. Qed.

Lemma err_if_negb b e : err_if (negb b) e = [] ↔ b = true.
Proof. by destruct b. Qed.

Lemma immutable_nil {A} `{EqDecision A} (n o : A) p : ValidateImmutableField n o p = [] ↔ n = o.
Proof. unfold ValidateImmutableField. rewrite err_if_negb. apply bool_decide_eq_true. Qed.

Lemma immutable_if_nil {A} `{EqDecision A} b (n o : A) p : immutable_if b n o p = [] ↔ (b = true → n = o).
Proof. destruct b; unfold immutable_if; rewrite ?immutable_nil; naive_solver. Qed.

Lemma negb_eqb_empty s : negb (String.eqb s "") = true ↔ s ≠ "".
Proof. rewrite negb_true_iff. apply String.eqb_neq. Qed.

Lemma negb_is_nil {A} (l : list A) : negb (is_nil l) = true ↔ l ≠ [].
Proof. by destruct l. Qed.

Lemma is_some_iff {A} (x : option A) : is_some x = true ↔ is_Some x.
Proof. unfold is_some. destruct x; split; [by eexists|done|done|by intros []]. Qed.

Lemma is_some_None {A} (x : option A) : is_some x = false ↔ x = None.
Proof. by destruct x. Qed.

Lemma invalid_on_nil {A} p (o : outcome A) : invalid_on p o = [] ↔ error_of o = None.
Proof. unfold invalid_on. by destruct (error_of o). Qed.

#[export] Hint Rewrite @app_nil_iff err_if_negb err_if_nil err_opt_nil @immutable_nil @immutable_if_nil
  negb_eqb_empty @negb_is_nil @is_some_iff @invalid_on_nil : kkp_rw.

(** ** Tokens *)

Definition dot : Ascii.ascii := Ascii.ascii_of_N 46.
Definition token_chars (s : chars) : Prop := Forall (λ c, c ∈ tokenAlphabet) s.

(** A token: six and sixteen characters of the alphabet around a dot. *)
Definition is_token (s : chars) : Prop :=
  ∃ a b, length a = 6%nat ∧ length b = 16%nat ∧ token_chars a ∧ token_chars b ∧ s = a ++ dot :: b.

Lemma alphabet_test (s : chars) : forallb (λ c, existsb (Ascii.eqb c) tokenAlphabet) s = true ↔ token_chars s.
Proof.
  unfold token_chars. rewrite forallb_forall, Forall_forall. setoid_rewrite existsb_true_iff.
  split; intros Hs x Hx.
  - destruct (Hs x) as (y & Hy & He); [by apply list_elem_of_In|]. apply Ascii.eqb_eq in He. by subst.
  - exists x. split; [apply Hs; by apply list_elem_of_In|apply Ascii.eqb_refl].
Qed.

Lemma tokenChars_Some n s rest : tokenChars n s = Some rest ↔ ∃ a, length a = n ∧ token_chars a ∧ s = a ++ rest.
Proof.
  unfold tokenChars. destruct (_ && _) eqn:Et.
  - apply andb_true_iff in Et as [Hl Ha]. apply Nat.leb_le in Hl. rewrite alphabet_test in Ha. split.
    + intros [= <-]. exists (take n s). by rewrite length_take_le, take_drop.
    + intros (a & <- & _ & ->). by rewrite drop_app_length.
  - split; [done|]. intros (a & <- & Ha & ->).
    rewrite take_app_length, (proj2 (alphabet_test a) Ha), andb_true_r, length_app in Et.
    apply Nat.leb_gt in Et. lia.
Qed.

Lemma dot_char c : is_char c "." = true ↔ c = dot.
Proof. unfold is_char. rewrite String.eqb_eq. naive_solver. Qed.

Lemma tokenAt_spec s : tokenAt s = true ↔ ∃ t post, is_token t ∧ s = t ++ post.
Proof.
  unfold tokenAt. split.
  - destruct (tokenChars 6 s) as [[|c rest]|] eqn:E1; [done| |done].
    rewrite andb_true_iff, dot_char. destruct (tokenChars 16 rest) as [post|] eqn:E2; [|by intros []].
    apply tokenChars_Some in E1 as (a & ? & ? & ->), E2 as (b & ? & ? & ->). intros [-> _].
    exists (a ++ dot :: b), post. split; [by exists a, b|]. by rewrite <- (assoc_L (++)).
  - intros (t & post & (a & b & Ha & Hb & ? & ? & ->) & ->).
    rewrite <- (assoc_L (++)). simpl.
    rewrite (proj2 (tokenChars_Some 6 _ (dot :: b ++ post))) by (by exists a).
    by rewrite (proj2 (tokenChars_Some 16 _ post)) by (by exists b).
Qed.

Lemma tokenSomewhere_spec s : tokenSomewhere s = true ↔ ∃ pre t post, is_token t ∧ s = pre ++ t ++ post.
Proof.
  induction s as [|c s IH]; [change (tokenSomewhere []) with (tokenAt [] || false)|
    change (tokenSomewhere (c :: s)) with (tokenAt (c :: s) || tokenSomewhere s)]; rewrite orb_true_iff, tokenAt_spec.
  - split; [intros [(t & post & Ht & E)|]; [by exists [], t, post|done]|].
    intros (pre & t & post & Ht & E). left. exists t, post. by destruct pre.
  - rewrite IH. split.
    + intros [(t & post & Ht & ->)|(pre & t & post & Ht & ->)]; [by exists [], t, post|by exists (c :: pre), t, post].
    + intros ([|c' pre] & t & post & Ht & E); simplify_list_eq; [left; by exists t, post|right; by exists pre, t, post].
Qed.

Definition holds_token (token : string) : Prop :=
  ∃ pre t post, is_token t ∧ String.list_ascii_of_string token = pre ++ t ++ post.

Lemma ValidateKubernetesToken_ok token : error_of (ValidateKubernetesToken token) = None ↔ holds_token token.
Proof.
  unfold ValidateKubernetesToken, holds_token. rewrite <- tokenSomewhere_spec.
  by destruct (tokenSomewhere _).
Qed.
#[export] Hint Rewrite ValidateKubernetesToken_ok : kkp_rw.

Lemma token_roundtrip rand6 rand16 :
  length (String.list_ascii_of_string rand6) = 6%nat → length (String.list_ascii_of_string rand16) = 16%nat →
  token_chars (String.list_ascii_of_string rand6) → token_chars (String.list_ascii_of_string rand16) →
  ValidateKubernetesToken (GenerateToken rand6 rand16) = Ok tt.
Proof.
  intros. unfold ValidateKubernetesToken. rewrite (proj2 (tokenSomewhere_spec _)); [done|].
  exists [], (String.list_ascii_of_string (GenerateToken rand6 rand16)), [].
  rewrite app_nil_r. split; [|done]. unfold GenerateToken. rewrite !list_ascii_app. by eexists _, _.
Qed.

(** ** Updates *)

(** A network setting, once it has a value, keeps it. *)
Record network_frozen (new old : ClusterNetworkingConfig) : Prop := mkNetworkFrozen {
  nf_ipFamily : cn_ipFamily old ≠ "" → cn_ipFamily new = cn_ipFamily old;
  nf_pods : nr_CIDRBlocks (cn_pods old) ≠ [] → nr_CIDRBlocks (cn_pods new) = nr_CIDRBlocks (cn_pods old);
  nf_services : nr_CIDRBlocks (cn_services old) ≠ [] → nr_CIDRBlocks (cn_services new) = nr_CIDRBlocks (cn_services old);
  nf_proxyMode : cn_proxyMode old ≠ "" → cn_proxyMode new = cn_proxyMode old;
  nf_dnsDomain : cn_dnsDomain old ≠ "" → cn_dnsDomain new = cn_dnsDomain old;
  nf_nodeLocalDNS : is_Some (cn_nodeLocalDNSCacheEnabled old) →
    cn_nodeLocalDNSCacheEnabled new = cn_nodeLocalDNSCacheEnabled old;
}.

Lemma network_frozen_iff new old p :
  validateClusterNetworkingConfigUpdateImmutability new old p = [] ↔ network_frozen new old.
Proof.
  unfold validateClusterNetworkingConfigUpdateImmutability.
  autorewrite with kkp_rw. split; [intros (?&?&?&?&?&?); by constructor|by intros []].
Qed.

Section updates.
Context `{SemverLib}.

(** The steps of a CNI plugin: introduced, kept, migrated to another type with a
    label, away from a version that is not supported, and to a neighbouring minor
    (or any version with a label). *)
Inductive cni_step (labels : gmap string string) : option CNIPluginSettings → option CNIPluginSettings → Prop :=
| cni_absent : cni_step labels None None
| cni_introduced c : cni_step labels (Some c) None
| cni_kept t v : cni_step labels (Some (mkCNIPluginSettings t v)) (Some (mkCNIPluginSettings t v))
| cni_migrated new old : cni_type new ≠ cni_type old → is_Some (labels !! UnsafeCNIMigrationLabel) →
    cni_step labels (Some new) (Some old)
| cni_leaving t v v' : IsSupportedCNIPluginTypeAndVersion (Some (mkCNIPluginSettings t v)) = false →
    cni_step labels (Some (mkCNIPluginSettings t v')) (Some (mkCNIPluginSettings t v))
| cni_upgraded t v v' newV oldV : NewVersion v' = inr newV → NewVersion v = inr oldV →
    oneMinorApart newV oldV = true ∨ is_Some (labels !! UnsafeCNIUpgradeLabel) →
    cni_step labels (Some (mkCNIPluginSettings t v')) (Some (mkCNIPluginSettings t v)).

#[local] Arguments IsSupportedCNIPluginTypeAndVersion : simpl never.

Lemma cni_step_iff new old labels : validateCNIUpdate new old labels = None ↔ cni_step labels new old.
Proof.
  unfold validateCNIUpdate. split.
  - destruct new as [[t' v']|], old as [[t v]|]; simpl; [|constructor|done|constructor].
    destruct (String.eqb t' t) eqn:Et; simpl.
    + apply String.eqb_eq in Et as ->. destruct (String.eqb v' v) eqn:Ev; simpl.
      { apply String.eqb_eq in Ev as ->. intros _. constructor. }
      destruct (IsSupportedCNIPluginTypeAndVersion (Some (mkCNIPluginSettings t v))) eqn:Es; simpl; [|intros _; by constructor].
      destruct (NewVersion v') as [|newV] eqn:E1; [done|]. destruct (NewVersion v) as [|oldV] eqn:E2; [done|].
      destruct (oneMinorApart newV oldV) eqn:Eo, (is_some (labels !! UnsafeCNIUpgradeLabel)) eqn:El; simpl; try done;
        intros _; eapply cni_upgraded; eauto; right; by apply is_some_iff.
    + destruct (is_some _) eqn:El; [|done]. intros _. apply cni_migrated; [by apply String.eqb_neq|by apply is_some_iff].
  - intros Hs. destruct Hs as [|c|t v|n o Hne Hl|t v v' Hn|t v v' newV oldV E1 E2 Ho]; simpl;
      rewrite ?String.eqb_refl; try done.
    + apply String.eqb_neq in Hne as ->. by apply is_some_iff in Hl as ->.
    + destruct (String.eqb v' v); simpl; [done|]. by rewrite Hn.
    + destruct (String.eqb v' v); simpl; [done|]. destruct (IsSupportedCNIPluginTypeAndVersion _); [|done].
      simpl. rewrite E1, E2. destruct Ho as [->|Ho%is_some_iff]; [done|]. by rewrite Ho, andb_false_r.
Qed.

(** The rule for encryption settings, as the check of an update from [old] to [new]
    documents it: no change in the middle of a phase, no change of the encrypted
    resources, and the feature stays on while data is encrypted. *)
Record encryption_rule (old new : Cluster) : Prop := mkEncryptionRule {
  en_phase e : map_bool (sp_features (cl_spec old)) ClusterFeatureEncryptionAtRest = true →
    cs_encryption (cl_status old) = Some e → ce_phase e ≠ "" → ce_phase e ≠ ClusterEncryptionPhaseActive →
    sp_encryptionConfiguration (cl_spec old) = sp_encryptionConfiguration (cl_spec new);
  en_resources e o n : map_bool (sp_features (cl_spec old)) ClusterFeatureEncryptionAtRest = true →
    cs_encryption (cl_status old) = Some e →
    sp_encryptionConfiguration (cl_spec old) = Some o → sp_encryptionConfiguration (cl_spec new) = Some n →
    ec_enabled o = true → ec_enabled n = true → ec_resources o = ec_resources n;
  en_feature : map_bool (sp_features (cl_spec new)) ClusterFeatureEncryptionAtRest = false →
    IsEncryptionEnabled new = false ∧ IsEncryptionActive new = false;
}.

Lemma err_if_andb b c e : err_if (b && c) e = [] ↔ (b = true → c = false).
Proof. destruct b, c; naive_solver. Qed.

Lemma encryption_rule_iff old new : validateEncryptionUpdate old new = [] ↔ encryption_rule old new.
Proof.
  unfold validateEncryptionUpdate. rewrite app_nil_iff, err_if_andb, negb_true_iff, orb_false_iff.
  split.
  - intros [Hn Ho]. constructor; [| |done].
    + intros e Hf He Hp Ha. rewrite Hf, He, app_nil_iff, err_if_andb, andb_true_iff, !negb_true_iff, !String.eqb_neq in Hn.
      destruct Hn as [Hn _]. specialize (Hn (conj Hp Ha)). by apply negb_false_iff, bool_decide_eq_true in Hn.
    + intros e n o Hf He En Eo H1 H2. rewrite Hf, He, app_nil_iff, En, Eo, H1, H2 in Hn. destruct Hn as [_ Hn].
      simpl in Hn. by apply err_if_negb, bool_decide_eq_true in Hn.
  - intros [Hp Hr Hf]. split; [|done].
    destruct (map_bool (sp_features (cl_spec old)) _) eqn:Em; [|done].
    destruct (cs_encryption (cl_status old)) as [e|] eqn:Ee; [|done].
    rewrite app_nil_iff, err_if_andb, andb_true_iff, !negb_true_iff, !String.eqb_neq. split.
    + intros []. rewrite negb_false_iff, bool_decide_eq_true. eauto.
    + destruct (sp_encryptionConfiguration (cl_spec old)) as [n|] eqn:En; [|done].
      destruct (sp_encryptionConfiguration (cl_spec new)) as [o|] eqn:Eo; [|done].
      rewrite err_if_andb, andb_true_iff, negb_false_iff, bool_decide_eq_true. intros []. eauto.
Qed.

(** *** All of an update *)

Lemma ClusterCloudProviderName_cases c : (∃ p, ClusterCloudProviderName c = Ok p) ∨ ∃ e, ClusterCloudProviderName c = Err e.
Proof. unfold ClusterCloudProviderName, one_cloud. destruct (_ ++ _) as [|? [|]]; eauto. Qed.

Lemma ValidateCloudChange_ok new old : error_of (ValidateCloudChange new old) = None ↔
  cd_datacenterName new = cd_datacenterName old ∧
  ∃ p, ClusterCloudProviderName new = Ok p ∧ ClusterCloudProviderName old = Ok p.
Proof.
  unfold ValidateCloudChange. destruct (String.eqb (cd_datacenterName new) _) eqn:Ed; simpl.
  2: { apply String.eqb_neq in Ed. split; [done|]. by intros []. }
  apply String.eqb_eq in Ed.
  destruct (ClusterCloudProviderName_cases old) as [[p Eo]|[e Eo]]; rewrite Eo; simpl; [|naive_solver].
  destruct (ClusterCloudProviderName_cases new) as [[q En]|[e En]]; rewrite En; simpl; [|naive_solver].
  destruct (String.eqb p q) eqn:Ep; simpl.
  - apply String.eqb_eq in Ep as ->. naive_solver.
  - apply String.eqb_neq in Ep. naive_solver.
Qed.

(** The updates that are accepted for the difference they make. *)
Record allowed_change (new old : Cluster) : Prop := mkAllowedChange {
  al_datacenter : sp_datacenterName (cl_spec new) = sp_datacenterName (cl_spec old);
  al_provider : ∃ p, ClusterCloudProviderName (sp_cloud (cl_spec new)) = Ok p ∧
                     ClusterCloudProviderName (sp_cloud (cl_spec old)) = Ok p;
  al_token : ca_adminToken (cl_address new) ≠ "" → holds_token (ca_adminToken (cl_address new));
  al_features feature : feature = ClusterFeatureExternalCloudProvider ∨ feature = ClusterFeatureEtcdLauncher →
    map_bool (sp_features (cl_spec old)) feature = true → map_bool (sp_features (cl_spec new)) feature = true;
  al_exposeStrategy : sp_exposeStrategy (cl_spec old) ≠ "" →
    sp_exposeStrategy (cl_spec new) = sp_exposeStrategy (cl_spec old);
  al_nodePortRange : nodePortRange_of old ≠ "" → nodePortRange_of new = nodePortRange_of old;
  al_sshAgent : match sp_enableUserSSHKeyAgent (cl_spec old) with
                | Some _ => sp_enableUserSSHKeyAgent (cl_spec new) = sp_enableUserSSHKeyAgent (cl_spec old)
                | None => sp_enableUserSSHKeyAgent (cl_spec new) ≠ Some false
                end;
  al_osm : sp_enableOperatingSystemManager (cl_spec new) = sp_enableOperatingSystemManager (cl_spec old);
  al_network : network_frozen (sp_clusterNetwork (cl_spec new)) (sp_clusterNetwork (cl_spec old));
  al_cni : cni_step (om_labels (cl_meta new)) (sp_cniPlugin (cl_spec new)) (sp_cniPlugin (cl_spec old));
  al_typeMeta : cl_typeMeta new = cl_typeMeta old;
}.

Lemma feature_disabled_nil f new old : feature_disabled f new old = [] ↔
  (map_bool (sp_features (cl_spec old)) f = true → map_bool (sp_features (cl_spec new)) f = true).
Proof. unfold feature_disabled. rewrite err_if_andb, negb_false_iff. done. Qed.

Lemma forbidden_nil {A} (o : outcome A) (f : error → FieldError) :
  match error_of o with Some e => [f e] | None => [] end = [] ↔ error_of o = None.
Proof. by destruct (error_of o). Qed.

Lemma sshAgent_nil (new old : option bool) p q d :
  match old with
  | Some _ => ValidateImmutableField new old p
  | None => err_if (match new with Some b => negb b | None => false end) (Invalid q d)
  end = [] ↔ match old with Some _ => new = old | None => new ≠ Some false end.
Proof. destruct old; [apply immutable_nil|]. by destruct new as [[]|]. Qed.

Lemma token_nil (token : string) p :
  (if negb (String.eqb token "") then invalid_on p (ValidateKubernetesToken token) else []) = [] ↔
  (token ≠ "" → holds_token token).
Proof.
  destruct (String.eqb token "") eqn:E; simpl.
  - apply String.eqb_eq in E. naive_solver.
  - apply String.eqb_neq in E. autorewrite with kkp_rw. naive_solver.
Qed.

(** All checks that compare the two clusters.  The rule for encryption settings is
    applied with the clusters exchanged. *)
Lemma validateChange_iff new old : validateChange new old = [] ↔ allowed_change new old ∧ encryption_rule new old.
Proof.
  unfold validateChange. cbn zeta.
  rewrite !app_nil_iff, forbidden_nil, ValidateCloudChange_ok, token_nil, !feature_disabled_nil, !immutable_if_nil,
    sshAgent_nil, network_frozen_iff, err_opt_nil, cni_step_iff, encryption_rule_iff, err_if_negb, bool_decide_eq_true,
    !negb_eqb_empty, negb_true_iff, eqb_false_iff.
  split.
  - intros ([]&?&?&?&?&?&?&?&?&?&?&?). split; [|done]. constructor; try done; [naive_solver|].
    by destruct (sp_enableOperatingSystemManager (cl_spec old)), (sp_enableOperatingSystemManager (cl_spec new)); auto.
  - intros [[???????????] ?]. split_and!; auto.
Qed.

(** With the status as it was and the encryption feature neither switched on nor
    off, the rule is the same in both directions. *)
Lemma encryption_rule_sym old new :
  cl_status new = cl_status old →
  map_bool (sp_features (cl_spec new)) ClusterFeatureEncryptionAtRest =
    map_bool (sp_features (cl_spec old)) ClusterFeatureEncryptionAtRest →
  encryption_rule new old → encryption_rule old new.
Proof.
  intros Hs Hf [Hp Hr Ho]. rewrite Hs, Hf in *. constructor.
  - intros e ? ? ? ?. symmetry. by eapply Hp.
  - intros e o n ? ? ? ? ? ?. symmetry. by eapply Hr.
  - intros Hoff. rewrite Hf in Hoff. destruct (Ho Hoff) as [_ Ha]. split.
    + unfold IsEncryptionEnabled. by rewrite Hf, Hoff.
    + unfold IsEncryptionActive in *. by rewrite Hs.
Qed.

(** Switched off, the feature is not checked at all. *)
Lemma encryption_rule_off old new :
  map_bool (sp_features (cl_spec old)) ClusterFeatureEncryptionAtRest = true →
  map_bool (sp_features (cl_spec new)) ClusterFeatureEncryptionAtRest = false →
  encryption_rule new old.
Proof. intros Ho Hn. constructor; intros; congruence. Qed.
End updates.

(** ** Network configurations *)

Definition cidr4 (s : string) : Prop := ∃ ip, ParseCIDR s = Ok ip ∧ is_Some (To4 ip).
Definition cidr6 (s : string) : Prop := ∃ ip, ParseCIDR s = Ok ip ∧ To4 ip = None.

(** One IPv4 range, and for two families an IPv6 range after it. *)
Definition family_blocks (dual : bool) (l : list string) : Prop :=
  if dual then ∃ a b, l = [a; b] ∧ cidr4 a ∧ cidr6 b else ∃ a, l = [a] ∧ cidr4 a.

(** The ranges of nodes are smaller than the range of pods. *)
Definition mask_ok (size : option Z) (cidr : option string) : Prop :=
  ∀ s c ip net, size = Some s → cidr = Some c → ParseCIDRNet c = Ok (ip, net) → Mask_ones (in_Mask net) < s.

Definition proxy_ok (n : ClusterNetworkingConfig) (cni : option CNIPluginSettings) : Prop :=
  cn_proxyMode n = IPVSProxyMode ∨ cn_proxyMode n = IPTablesProxyMode ∨
  (cn_proxyMode n = EBPFProxyMode ∧ cn_konnectivityEnabled n = Some true ∧
   ∃ c, cni = Some c ∧ cni_type c = CNIPluginTypeCilium).

Record network_ok (n : ClusterNetworkingConfig) (cni : option CNIPluginSettings) (dual : bool) : Prop := mkNetworkOk {
  no_pods : family_blocks dual (nr_CIDRBlocks (cn_pods n));
  no_services : family_blocks dual (nr_CIDRBlocks (cn_services n));
  no_ipv4 : cn_ipFamily n = IPFamilyIPv4 → dual = false;
  no_dual : cn_ipFamily n = IPFamilyDualStack → dual = true;
  no_mask4 : mask_ok (cn_nodeCIDRMaskSizeIPv4 n) (nr_CIDRBlocks (cn_pods n) !! 0%nat);
  no_mask6 : mask_ok (cn_nodeCIDRMaskSizeIPv6 n) (nr_CIDRBlocks (cn_pods n) !! 1%nat);
  no_dns : cn_dnsDomain n = "cluster.local";
  no_proxy : proxy_ok n cni;
}.

Lemma ParseCIDR_cases s : (∃ ip net, ParseCIDRNet s = Ok (ip, net) ∧ ParseCIDR s = Ok ip) ∨ ∃ e, ParseCIDRNet s = Err e ∧ ParseCIDR s = Err e.
Proof.
  unfold ParseCIDR, ParseCIDRNet. destruct (cut_slash _) as [[addr mask]|]; [|right; by eexists].
  destruct (dtoi mask) as [[m i] ok].
  destruct (parseIPv4 addr) as [ip|]; [|destruct (parseIPv6 addr) as [ip|]; [|right; by eexists]];
    (destruct (_ || _); [right; by eexists|left; by eexists _, _]).
Qed.

Lemma validateNodeCIDRMaskSize_nil size c p : c ≠ "" → (∃ ip, ParseCIDR c = Ok ip) →
  validateNodeCIDRMaskSize size c p = None ↔ mask_ok size (Some c).
Proof.
  intros Hc [ip Hip]. unfold validateNodeCIDRMaskSize, mask_ok.
  destruct size as [s|]; [|naive_solver]. apply String.eqb_neq in Hc. rewrite Hc.
  destruct (ParseCIDR_cases c) as [(ip' & net & E & _)|(e & _ & E)]; [|congruence]. rewrite E.
  destruct (s <=? _) eqn:El; [apply Z.leb_le in El|apply Z.leb_gt in El]; split; try done.
  - intros Hm. specialize (Hm _ _ _ _ eq_refl eq_refl E). lia.
  - intros _ s' c' ip1 net1 [= <-] [= <-] E'. rewrite E in E'. by injection E' as <- <-.
Qed.

Lemma cidr4_head a l p : validateCIDRsFrom 0 (a :: l) p = None ↔ cidr4 a ∧ validateCIDRsFrom 1 l p = None.
Proof.
  simpl. unfold cidr4. destruct (ParseCIDR a) as [ip| | |]; [|naive_solver..].
  destruct (To4 ip) eqn:E; simpl; split; intros Hx; try done.
  - split; [exists ip; rewrite E; eauto|done].
  - by destruct Hx.
  - destruct Hx as [(ip' & [= <-] & Hs) _]. rewrite E in Hs. by destruct Hs.
Qed.

Lemma cidr6_next b l p : validateCIDRsFrom 1 (b :: l) p = None ↔ cidr6 b ∧ validateCIDRsFrom 2 l p = None.
Proof.
  simpl. unfold cidr6. destruct (ParseCIDR b) as [ip| | |]; [|naive_solver..].
  destruct (To4 ip) eqn:E; simpl; split; intros Hx; try done.
  - destruct Hx as [(ip' & [= <-] & Hs) _]. congruence.
  - split; [by exists ip|done].
  - by destruct Hx.
Qed.

Lemma cidr_nonempty a : cidr4 a ∨ cidr6 a → a ≠ "".
Proof. by intros [(ip & E & _)|(ip & E & _)] ->. Qed.

Section network.
Context `{KubeNet}.

Lemma families a : (cidr4 a → IsIPv4CIDRString a = true ∧ IsIPv6CIDRString a = false) ∧
  (cidr6 a → IsIPv4CIDRString a = false ∧ IsIPv6CIDRString a = true).
Proof.
  split; intros (ip & Hip & H4); rewrite (IsIPv4CIDRString_parse _ _ Hip), (IsIPv6CIDRString_parse _ _ Hip).
  - by rewrite bool_decide_eq_true_2.
  - rewrite bool_decide_eq_false_2; [done|]. rewrite H4. by intros [].
Qed.

(** The ranges of each family in well-formed blocks. *)
Lemma family_blocks_get dual l : family_blocks dual l →
  GetIPv4CIDR (mkNetworkRanges l) = default "" (l !! 0%nat) ∧ GetIPv6CIDR (mkNetworkRanges l) = default "" (l !! 1%nat) ∧
  HasIPv4CIDR (mkNetworkRanges l) = true ∧ HasIPv6CIDR (mkNetworkRanges l) = dual.
Proof.
  unfold HasIPv4CIDR, HasIPv6CIDR, GetIPv4CIDR, GetIPv6CIDR. destruct dual; simpl.
  - intros (a & b & -> & Ha & Hb). pose proof (cidr_nonempty a (or_introl Ha)) as Na.
    pose proof (cidr_nonempty b (or_intror Hb)) as Nb. apply families in Ha as [Ha4 Ha6], Hb as [Hb4 Hb6]. simpl.
    rewrite Ha4, Ha6, Hb6. simpl. apply String.eqb_neq in Na, Nb. by rewrite Na, Nb.
  - intros (a & -> & Ha). pose proof (cidr_nonempty a (or_introl Ha)) as Na. apply families in Ha as [Ha4 Ha6]. simpl.
    rewrite Ha4, Ha6. simpl. apply String.eqb_neq in Na. by rewrite Na.
Qed.

Lemma masks_nil dual l size4 size6 p4 p6 : family_blocks dual l →
  (validateNodeCIDRMaskSize size4 (GetIPv4CIDR (mkNetworkRanges l)) p4 = None ∧
   validateNodeCIDRMaskSize size6 (GetIPv6CIDR (mkNetworkRanges l)) p6 = None) ↔
  mask_ok size4 (l !! 0%nat) ∧ mask_ok size6 (l !! 1%nat).
Proof.
  intros Hl. destruct (family_blocks_get _ _ Hl) as (-> & -> & _). destruct dual.
  - destruct Hl as (a & b & -> & Ha & Hb). simpl.
    rewrite !validateNodeCIDRMaskSize_nil; [done|by apply cidr_nonempty; right|destruct Hb as (?&?&_); eauto|
      by apply cidr_nonempty; left|destruct Ha as (?&?&_); eauto].
  - destruct Hl as (a & -> & Ha). simpl.
    rewrite validateNodeCIDRMaskSize_nil; [|by apply cidr_nonempty; left|destruct Ha as (?&?&_); eauto].
    split; intros [Hm _]; (split; [done|]); [by intros s c ip net|by destruct size6].
Qed.

Lemma family_blocks_length dual l : family_blocks dual l → length l = if dual then 2%nat else 1%nat.
Proof. destruct dual; [by intros (a & b & -> & _)|by intros (a & -> & _)]. Qed.

Lemma family_blocks_valid dual l p : family_blocks dual l → validateClusterCIDRBlocks l p = None.
Proof.
  unfold validateClusterCIDRBlocks. destruct dual.
  - intros (a & b & -> & Ha & Hb). by rewrite cidr4_head, cidr6_next.
  - intros (a & -> & Ha). by rewrite cidr4_head.
Qed.

Lemma family_blocks_intro l p : (1 ≤ length l ≤ 2)%nat → validateClusterCIDRBlocks l p = None →
  family_blocks (Nat.eqb (length l) 2) l.
Proof.
  unfold validateClusterCIDRBlocks. destruct l as [|a [|b [|]]]; intros Hl; simpl in Hl; try lia; rewrite cidr4_head.
  - intros [Ha _]. by exists a.
  - rewrite cidr6_next. intros (Ha & Hb & _). by exists a, b.
Qed.

Lemma proxy_nil n cni p q r : 
  (err_if (negb (String.eqb (cn_proxyMode n) IPVSProxyMode) && negb (String.eqb (cn_proxyMode n) IPTablesProxyMode) &&
          negb (String.eqb (cn_proxyMode n) EBPFProxyMode)) p = [] ∧
   err_if (String.eqb (cn_proxyMode n) EBPFProxyMode &&
          match cni with None => true | Some c => negb (String.eqb (cni_type c) CNIPluginTypeCilium) end) q = [] ∧
   err_if (String.eqb (cn_proxyMode n) EBPFProxyMode && negb (true_ptr (cn_konnectivityEnabled n))) r = []) ↔ proxy_ok n cni.
Proof.
  unfold proxy_ok. rewrite !err_if_andb, negb_false_iff, andb_true_iff, !negb_true_iff, !String.eqb_neq, !String.eqb_eq.
  split.
  - intros (Hm & Hc & Hk). destruct (decide (cn_proxyMode n = IPVSProxyMode)); [by left|].
    destruct (decide (cn_proxyMode n = IPTablesProxyMode)); [by right; left|]. right; right.
    specialize (Hm ltac:(done)). specialize (Hc Hm). specialize (Hk Hm). split; [done|].
    split; [by destruct (cn_konnectivityEnabled n) as [[]|]|].
    destruct cni as [c|]; [|done]. apply negb_false_iff, String.eqb_eq in Hc. eauto.
  - intros [->|[->|(-> & -> & c & -> & ->)]]; naive_solver.
Qed.

Lemma ValidateClusterNetworkConfig_iff n cni p :
  ValidateClusterNetworkConfig n cni p = [] ↔ ∃ dual, network_ok n cni dual.
Proof.
  unfold ValidateClusterNetworkConfig. cbn zeta. rewrite !app_nil_iff, proxy_nil.
  rewrite !err_opt_nil, err_if_negb, String.eqb_eq, !err_if_andb, !String.eqb_eq, !negb_false_iff, !Nat.eqb_eq.
  destruct (cn_pods n) as [pods] eqn:Ep, (cn_services n) as [services] eqn:Es.
  rewrite !err_if_nil, !Nat.ltb_ge, !Nat.eqb_neq. cbn [nr_CIDRBlocks]. split.
  - intros (?&?&?&?&?&?&Hp&Hs&H4&Hd&M4&M6&Hdns&Hproxy).
    apply family_blocks_intro in Hp; [|lia]. apply family_blocks_intro in Hs; [|lia].
    assert (length pods = length services) as El by lia. rewrite <- El in Hs.
    destruct (proj1 (masks_nil _ _ _ _ _ _ Hp) (conj M4 M6)) as [Hm4 Hm6].
    exists (Nat.eqb (length pods) 2). constructor; rewrite ?Ep, ?Es; try done.
    + intros HH. by rewrite (H4 HH).
    + intros HH. by rewrite (Hd HH).
  - intros (dual & [Hp Hs H4 Hd M4 M6 Hdns Hproxy]). rewrite Ep in *. rewrite Es in *. cbn [nr_CIDRBlocks] in *.
    pose proof (family_blocks_length _ _ Hp) as Lp. pose proof (family_blocks_length _ _ Hs) as Ls.
    destruct (proj2 (masks_nil _ _ _ _ (child p ["nodeCidrMaskSizeIPv4"]) (child p ["nodeCidrMaskSizeIPv6"]) Hp) (conj M4 M6)).
    rewrite Lp, Ls. split_and!; try done; try (by destruct dual; lia); try (by eapply family_blocks_valid).
    + intros HH. by rewrite (H4 HH).
    + intros HH. by rewrite (Hd HH).
Qed.
End network.

(** ** Accepted specs *)

Section specs.
Context `{SemverLib, KubeNet}.

(** An encryption key: a name, and either a value or a reference. *)
Definition key_ok (k : SecretboxKey) : Prop :=
  sk_name k ≠ "" ∧ (sk_value k = "" ↔ is_Some (sk_secretRef k)).

Record spec_ok (spec : ClusterSpec) (dc : Datacenter) (gates : gmap string bool) (versions : list ManagerVersion) : Prop := mkSpecOk {
  so_name : sp_humanReadableName spec ≠ "";
  so_version : ∃ v mv available, Semver_Semver (Some (sp_version spec)) = Some v ∧ mv ∈ versions ∧
    mv_version mv = Some available ∧ ver_Equal v available = true;
  so_exposeStrategy : sp_exposeStrategy spec ∈ AllExposeStrategies;
  so_tunneling : sp_exposeStrategy spec = ExposeStrategyTunneling → FeatureGate_Enabled gates TunnelingExposeStrategy = true;
  so_cni cni : sp_cniPlugin spec = Some cni → cni_type cni ∈ GetSupportedCNIPlugins ∧
    ∃ allowed, GetAllowedCNIPluginVersions (cni_type cni) = Ok allowed ∧ cni_version cni ∈ allowed;
  so_cloud : sp_datacenterName spec ≠ "" ∧ ∃ p, ClusterCloudProviderName (sp_cloud spec) = Ok p ∧
    DatacenterCloudProviderName (Some (dc_spec dc)) = Ok p ∧ (sp_providerName spec = "" ∨ sp_providerName spec = p);
  so_network : ∃ dual, network_ok (sp_clusterNetwork spec) (sp_cniPlugin spec) dual;
  so_nodePortRange : ∃ base size, ParsePortRange (as_nodePortRange (cmp_apiserver (sp_componentsOverride spec))) = inr (base, size) ∧
    base ≠ 0 ∧ size ≠ 0 ∧ as_nodePortRange (cmp_apiserver (sp_componentsOverride spec)) ≠ "";
  so_encryption cfg : sp_encryptionConfiguration spec = Some cfg → ec_enabled cfg = true →
    map_bool (sp_features spec) ClusterFeatureEncryptionAtRest = true ∧
    ∃ b, ec_secretbox cfg = Some b ∧ Forall key_ok (sb_keys b);
}.

Lemma versionAvailable_true wanted versions : versionAvailable wanted versions = Ok true →
  ∃ v mv available, wanted = Some v ∧ mv ∈ versions ∧ mv_version mv = Some available ∧ ver_Equal v available = true.
Proof.
  induction versions as [|mv versions IH]; simpl; intros Hv; [done|].
  destruct (mv_version mv) as [available|] eqn:Em; [|done]. destruct wanted as [v|]; [|done]. simpl in Hv.
  destruct (ver_Equal v available) eqn:Ee.
  - exists v, mv, available. set_solver.
  - destruct (IH Hv) as (v' & mv' & a & ? & ? & ?). exists v', mv', a. set_solver.
Qed.

Lemma validateKeys_nil i keys p : validateKeys i keys p = [] → Forall key_ok keys.
Proof.
  revert i. induction keys as [|k keys IH]; intros i; simpl; [constructor|].
  rewrite !app_nil_iff, err_if_nil, String.eqb_neq, !err_if_andb, String.eqb_eq, negb_false_iff, negb_true_iff, is_some_iff,
    String.eqb_neq. intros (? & Hv & Hn & Hr). constructor; [|by eapply IH]. split; [done|]. split; [done|].
  intros Hs%is_some_iff. destruct (decide (sk_value k = "")) as [|Hne]; [done|]. specialize (Hn Hne). congruence.
Qed.

Lemma validateEncryptionConfiguration_nil spec p cfg : validateEncryptionConfiguration spec p = [] →
  sp_encryptionConfiguration spec = Some cfg → ec_enabled cfg = true →
  map_bool (sp_features spec) ClusterFeatureEncryptionAtRest = true ∧
  ∃ b, ec_secretbox cfg = Some b ∧ Forall key_ok (sb_keys b).
Proof.
  unfold validateEncryptionConfiguration. intros Hv Ec He. rewrite Ec, He in Hv. simpl in Hv.
  rewrite app_nil_iff, err_if_negb in Hv. destruct Hv as [? Hv]. split; [done|].
  destruct (ec_secretbox cfg) as [b|]; [|done]. exists b. split; [done|]. by eapply validateKeys_nil.
Qed.

Lemma DatacenterCloudProviderName_cases d :
  (∃ p, DatacenterCloudProviderName d = Ok p) ∨ ∃ e, DatacenterCloudProviderName d = Err e.
Proof. destruct d as [d|]; [|left; by eexists]. unfold DatacenterCloudProviderName, one_cloud. destruct (_ ++ _) as [|? [|]]; eauto. Qed.

Lemma ValidateCloudSpec_nil spec dc p : ValidateCloudSpec spec (Some dc) p = [] →
  cd_datacenterName spec ≠ "" ∧ ∃ name, ClusterCloudProviderName spec = Ok name ∧
    DatacenterCloudProviderName (Some (dc_spec dc)) = Ok name ∧ (cd_providerName spec = "" ∨ cd_providerName spec = name).
Proof.
  unfold ValidateCloudSpec. rewrite !app_nil_iff, !invalid_on_nil, err_if_nil, String.eqb_neq, err_if_andb, err_if_negb,
    negb_true_iff, negb_false_iff, String.eqb_neq, !String.eqb_eq.
  intros (Hd & Hc & Hp & (_ & Hdc & He) & _). split; [done|].
  destruct (ClusterCloudProviderName_cases spec) as [[name En]|[e En]]; rewrite En in *; [|done].
  destruct (DatacenterCloudProviderName_cases (Some (dc_spec dc))) as [[dname Edn]|[e Edn]]; rewrite Edn in *; [|done].
  simpl in *. subst dname. exists name. split_and!; try done.
  destruct (decide (cd_providerName spec = "")); auto.
Qed.

Lemma validateCNI_nil spec p cni : validateCNI spec p = Ok [] → sp_cniPlugin spec = Some cni →
  cni_type cni ∈ GetSupportedCNIPlugins ∧
  ∃ allowed, GetAllowedCNIPluginVersions (cni_type cni) = Ok allowed ∧ cni_version cni ∈ allowed.
Proof.
  unfold validateCNI. intros Hv Ec. rewrite Ec in Hv.
  assert ((if negb (bool_decide (cni_type cni ∈ GetSupportedCNIPlugins))
           then [NotSupported (child p ["cniPlugin"; "type"]) (cni_type cni)]
           else err_if (match GetAllowedCNIPluginVersions (cni_type cni) with
                        | Ok versions => negb (bool_decide (cni_version cni ∈ versions))
                        | _ => true
                        end) (NotSupported (child p ["cniPlugin"; "version"]) (cni_version cni))) = []) as He.
  { destruct (_ && _); [|by injection Hv]. destruct (NewVersion (cni_version cni)); [by injection Hv|].
    apply obind_ok_inv in Hv as (c & _ & Hv). injection Hv as Hv. by apply app_nil_iff in Hv as [Hv _]. }
  destruct (bool_decide (cni_type cni ∈ GetSupportedCNIPlugins)) eqn:Et; [|done]. apply bool_decide_eq_true in Et.
  split; [done|]. simpl in He. destruct (GetAllowedCNIPluginVersions _) as [allowed| | |]; [|done..].
  apply err_if_negb, bool_decide_eq_true in He. eauto.
Qed.

Lemma ValidateNodePortRange_None r p : ValidateNodePortRange r p = None →
  ∃ base size, ParsePortRange r = inr (base, size) ∧ base ≠ 0 ∧ size ≠ 0 ∧ r ≠ "".
Proof.
  unfold ValidateNodePortRange. destruct (String.eqb r "") eqn:Er; [done|]. apply String.eqb_neq in Er.
  destruct (ParsePortRange r) as [|[base size]]; [done|]. destruct (_ || _) eqn:Ez; [done|]. intros _.
  apply orb_false_iff in Ez as [?%Z.eqb_neq ?%Z.eqb_neq]. eauto 10.
Qed.

Lemma ValidateClusterSpec_nil spec dc gates versions p :
  ValidateClusterSpec spec (Some dc) gates versions p = Ok [] → spec_ok spec dc gates versions.
Proof.
  unfold ValidateClusterSpec. intros Hv.
  apply obind_ok_inv in Hv as (valid & Ev & Hv). apply obind_ok_inv in Hv as (cniErrs & Ec & Hv).
  apply Ok_inj in Hv. rewrite !app_nil_iff in Hv.
  destruct Hv as (Hn & _ & Ha & He & Ht & -> & _ & _ & Hc & _ & Hw & Hp & Hen).
  apply err_if_negb in Ha as ->. apply versionAvailable_true in Ev. apply ValidateCloudSpec_nil in Hc.
  apply ValidateClusterNetworkConfig_iff in Hw. apply err_opt_nil, ValidateNodePortRange_None in Hp.
  rewrite err_if_nil, String.eqb_neq in Hn. rewrite err_if_andb, negb_false_iff, String.eqb_eq in Ht.
  constructor; try done.
  - rewrite err_if_negb in He. unfold ExposeStrategiesSet_Has in He. rewrite existsb_true_iff in He. destruct He as (x & Hx & E%String.eqb_eq). by subst.
  - intros cni. by eapply validateCNI_nil.
  - intros cfg. by eapply validateEncryptionConfiguration_nil.
Qed.
End specs.
