(* ===== verification/ClusterDefaultingSpec.v ===== *)
(** * What defaulting does to a cluster

    [pkg/defaulting/cluster.go]: defaults are stable under a second application,
    never touch a network setting that has a value, and give an accepted network
    configuration where nothing was chosen. *)

From S2P Require Import Prelude Kube Semver Net NetSpec CloudApi ClusterApi Field VersionManager ClusterDefaulting ClusterValidation ClusterValidationSpec.

Section defaulting.
Context `{KubeNet, DefaultingLibs}.

Lemma or_string_set x y : x ≠ "" → or_string x y = x.
Proof. unfold or_string. intros Hx. apply String.eqb_neq in Hx. by rewrite Hx. Qed.

Lemma or_string_idem x y : or_string (or_string x y) y = or_string x y.
Proof. unfold or_string. destruct (String.eqb x "") eqn:E; [by destruct (String.eqb y "")|by rewrite E]. Qed.

Lemma or_default_idem {A} (x y : option A) : or_default (or_default x y) y = or_default x y.
Proof. by destruct x, y. Qed.

(** ** Networks *)

Lemma default_network_frozen n provider : network_frozen (DefaultClusterNetwork n provider) n.
Proof.
  constructor; unfold DefaultClusterNetwork; cbn.
  - intros Hs. apply String.eqb_neq in Hs. by rewrite Hs.
  - by destruct (nr_CIDRBlocks (cn_pods n)) eqn:E.
  - by destruct (nr_CIDRBlocks (cn_services n)) eqn:E.
  - apply or_string_set.
  - apply or_string_set.
  - by intros [b ->].
Qed.

(** The settings that defaulting fills in. *)
Definition network_filled (n : ClusterNetworkingConfig) : Prop :=
  cn_ipFamily n ≠ "" ∧ nr_CIDRBlocks (cn_pods n) ≠ [] ∧ nr_CIDRBlocks (cn_services n) ≠ [] ∧
  cn_proxyMode n ≠ "" ∧ cn_dnsDomain n ≠ "" ∧ is_Some (cn_nodeLocalDNSCacheEnabled n).

Lemma or_string_nonempty x y : y ≠ "" → or_string x y ≠ "".
Proof. unfold or_string. intros. destruct (String.eqb x "") eqn:E; [done|by apply String.eqb_neq]. Qed.

Lemma default_network_filled n provider : network_filled (DefaultClusterNetwork n provider).
Proof.
  unfold network_filled, DefaultClusterNetwork. cbn. split_and!.
  - destruct (String.eqb (cn_ipFamily n) "") eqn:E; [by case_match|by apply String.eqb_neq].
  - by destruct (nr_CIDRBlocks (cn_pods n)) eqn:E; simpl; rewrite ?E.
  - by destruct (nr_CIDRBlocks (cn_services n)) eqn:E; simpl; rewrite ?E.
  - apply or_string_nonempty. unfold GetDefaultProxyMode. by destruct (String.eqb _ _).
  - by apply or_string_nonempty.
  - by destruct (cn_nodeLocalDNSCacheEnabled n); eexists.
Qed.

Lemma DefaultClusterNetwork_idem n provider :
  DefaultClusterNetwork (DefaultClusterNetwork n provider) provider = DefaultClusterNetwork n provider.
Proof.
  destruct (default_network_filled n provider) as (Hf & Hp & Hs & Hm & Hd & [b Hb]).
  remember (DefaultClusterNetwork n provider) as d eqn:Ed. unfold DefaultClusterNetwork at 1.
  apply String.eqb_neq in Hf. rewrite Hf.
  destruct (is_nil (nr_CIDRBlocks (cn_pods d))) eqn:Ep; [by destruct (nr_CIDRBlocks (cn_pods d))|].
  destruct (is_nil (nr_CIDRBlocks (cn_services d))) eqn:Es; [by destruct (nr_CIDRBlocks (cn_services d))|].
  rewrite (or_string_set _ _ Hm), (or_string_set _ _ Hd), Hb.
  assert (match cn_nodeCIDRMaskSizeIPv4 d with
          | None => if HasIPv4CIDR (cn_pods d) then Some DefaultNodeCIDRMaskSizeIPv4 else None | m => m end
          = cn_nodeCIDRMaskSizeIPv4 d) as ->.
  { subst d. unfold DefaultClusterNetwork. cbn. destruct (cn_nodeCIDRMaskSizeIPv4 n); [done|].
    by destruct (HasIPv4CIDR _) eqn:E; rewrite ?E. }
  assert (match cn_nodeCIDRMaskSizeIPv6 d with
          | None => if HasIPv6CIDR (cn_pods d) then Some DefaultNodeCIDRMaskSizeIPv6 else None | m => m end
          = cn_nodeCIDRMaskSizeIPv6 d) as ->.
  { subst d. unfold DefaultClusterNetwork. cbn. destruct (cn_nodeCIDRMaskSizeIPv6 n); [done|].
    by destruct (HasIPv6CIDR _) eqn:E; rewrite ?E. }
  assert ((if String.eqb (cn_proxyMode d) IPVSProxyMode
           then Some (mkIPVSConfiguration (or_default (iv_strictArp (default (mkIPVSConfiguration None) (cn_ipvs d))) (Some true)))
           else cn_ipvs d) = cn_ipvs d) as ->.
  { subst d. unfold DefaultClusterNetwork. cbn. destruct (String.eqb _ IPVSProxyMode) eqn:E; [|done].
    simpl. by rewrite or_default_idem. }
  destruct d; simpl in *; by rewrite Hb.
Qed.

(** *** Nothing chosen *)

Record network_unset (n : ClusterNetworkingConfig) : Prop := mkNetworkUnset {
  nu_ipFamily : cn_ipFamily n ∈ [IPFamilyUnspecified; IPFamilyIPv4; IPFamilyDualStack];
  nu_pods : nr_CIDRBlocks (cn_pods n) = [];
  nu_services : nr_CIDRBlocks (cn_services n) = [];
  nu_mask4 : cn_nodeCIDRMaskSizeIPv4 n = None;
  nu_mask6 : cn_nodeCIDRMaskSizeIPv6 n = None;
  nu_dnsDomain : cn_dnsDomain n = "";
  nu_proxyMode : cn_proxyMode n = "";
}.

Definition check4 (s : string) : bool := match ParseCIDR s with Ok ip => is_some (To4 ip) | _ => false end.
Definition check6 (s : string) : bool := match ParseCIDR s with Ok ip => negb (is_some (To4 ip)) | _ => false end.
Lemma check4_ok s : check4 s = true → cidr4 s.
Proof. unfold check4, cidr4. destruct (ParseCIDR s) as [ip| | |]; [|done..]. rewrite is_some_iff. eauto. Qed.
Lemma check6_ok s : check6 s = true → cidr6 s.
Proof. unfold check6, cidr6. destruct (ParseCIDR s) as [ip| | |]; [|done..]. rewrite negb_true_iff, is_some_None. eauto. Qed.

(** The chosen family decides about the default ranges. *)
Definition dual_of (n : ClusterNetworkingConfig) : bool := String.eqb (cn_ipFamily n) IPFamilyDualStack.
Definition default_pods (dual : bool) (provider : string) : list string :=
  GetDefaultPodCIDRIPv4 provider :: if dual then [DefaultClusterPodsCIDRIPv6] else [].
Definition default_services (dual : bool) (provider : string) : list string :=
  GetDefaultServicesCIDRIPv4 provider :: if dual then [DefaultClusterServicesCIDRIPv6] else [].

Lemma default_ranges_ok dual provider :
  family_blocks dual (default_pods dual provider) ∧ family_blocks dual (default_services dual provider).
Proof.
  unfold default_pods, default_services, GetDefaultPodCIDRIPv4, GetDefaultServicesCIDRIPv4.
  destruct (String.eqb provider KubevirtCloudProvider), dual; split;
    first [eexists _, _|eexists]; split_and!; try reflexivity; try (apply check4_ok; vm_compute; reflexivity);
    apply check6_ok; vm_compute; reflexivity.
Qed.

Lemma mask_check s c : match ParseCIDRNet c with Ok (_, net) => Mask_ones (in_Mask net) <? s | _ => false end = true →
  mask_ok (Some s) (Some c).
Proof. intros Hc s' c' ip net [= <-] [= <-] E. rewrite E in Hc. by apply Z.ltb_lt. Qed.

Lemma default_masks_ok dual provider :
  mask_ok (Some DefaultNodeCIDRMaskSizeIPv4) (default_pods dual provider !! 0%nat) ∧
  mask_ok (Some DefaultNodeCIDRMaskSizeIPv6) (default_pods dual provider !! 1%nat).
Proof.
  unfold default_pods, GetDefaultPodCIDRIPv4.
  destruct (String.eqb provider KubevirtCloudProvider), dual; simpl; split;
    first [apply mask_check; vm_compute; reflexivity|by intros s c ip net].
Qed.

Lemma default_network_value n provider : network_unset n →
  DefaultClusterNetwork n provider =
    let dual := dual_of n in
    let mode := GetDefaultProxyMode provider in
    mkClusterNetworkingConfig (if dual then IPFamilyDualStack else IPFamilyIPv4)
      (mkNetworkRanges (default_services dual provider)) (mkNetworkRanges (default_pods dual provider))
      (Some DefaultNodeCIDRMaskSizeIPv4) (if dual then Some DefaultNodeCIDRMaskSizeIPv6 else None) "cluster.local"
      mode
      (if String.eqb mode IPVSProxyMode
       then Some (mkIPVSConfiguration (or_default (iv_strictArp (default (mkIPVSConfiguration None) (cn_ipvs n))) (Some true)))
       else cn_ipvs n)
      (or_default (cn_nodeLocalDNSCacheEnabled n) (Some DefaultNodeLocalDNSCacheEnabled))
      (cn_coreDNSReplicas n) (cn_konnectivityEnabled n).
Proof.
  intros [Hf Hp Hs H4 H6 Hd Hm]. unfold DefaultClusterNetwork, dual_of. rewrite Hp, Hs, H4, H6, Hd, Hm. cbn [length is_nil].
  assert ((if String.eqb (cn_ipFamily n) "" then if Nat.ltb 0 2 then IPFamilyIPv4 else IPFamilyDualStack else cn_ipFamily n) =
          if String.eqb (cn_ipFamily n) IPFamilyDualStack then IPFamilyDualStack else IPFamilyIPv4) as ->.
  { rewrite !elem_of_cons in Hf. destruct Hf as [->|[->|[->|[]%elem_of_nil]]]; reflexivity. }
  assert (String.eqb (if String.eqb (cn_ipFamily n) IPFamilyDualStack then IPFamilyDualStack else IPFamilyIPv4) IPFamilyDualStack
          = String.eqb (cn_ipFamily n) IPFamilyDualStack) as -> by by destruct (String.eqb (cn_ipFamily n) IPFamilyDualStack).
  fold (default_pods (String.eqb (cn_ipFamily n) IPFamilyDualStack) provider).
  fold (default_services (String.eqb (cn_ipFamily n) IPFamilyDualStack) provider).
  destruct (default_ranges_ok (String.eqb (cn_ipFamily n) IPFamilyDualStack) provider) as [Hb _].
  destruct (family_blocks_get _ _ Hb) as (_ & _ & -> & ->). done.
Qed.

Lemma default_network_ok n provider cni : network_unset n → network_ok (DefaultClusterNetwork n provider) cni (dual_of n).
Proof.
  intros Hn. rewrite (default_network_value _ _ Hn). cbn zeta.
  destruct (default_ranges_ok (dual_of n) provider), (default_masks_ok (dual_of n) provider) as [H4 H6].
  constructor; cbn; try done; [by destruct (dual_of n)..| |].
  - destruct (dual_of n); [done|]. by intros s c ip net.
  - unfold proxy_ok, GetDefaultProxyMode. cbn. destruct (String.eqb provider HetznerCloudProvider); auto.
Qed.

(** ** The whole spec *)

Lemma defaultCNI_idem cni : defaultCNI (Some (defaultCNI cni)) = defaultCNI cni.
Proof.
  destruct cni as [[t v]|]; [|done]. simpl. destruct (String.eqb v "") eqn:E; simpl; [|by rewrite E].
  by destruct (String.eqb (GetDefaultCNIPluginVersion t) "").
Qed.

Lemma provider_name_kept p c : ClusterCloudProviderName (set_providerName p c) = ClusterCloudProviderName c.
Proof. done. Qed.

#[local] Arguments defaultCNI : simpl never.
#[local] Arguments DefaultClusterNetwork {_} _ _ : simpl never.
#[local] Arguments ClusterCloudProviderName : simpl never.
#[local] Arguments or_string : simpl never.

(** What defaulting guarantees of a spec, for the seed it was applied with. *)
Record defaulted (seed : Seed) (s : ClusterSpec) : Prop := mkDefaulted {
  df_expose : or_string (sp_exposeStrategy s) (seed_exposeStrategy seed) = sp_exposeStrategy s;
  df_provider : ClusterCloudProviderName (sp_cloud s) = Ok (sp_providerName s);
  df_cni : sp_cniPlugin s = Some (defaultCNI (sp_cniPlugin s));
  df_network : DefaultClusterNetwork (sp_clusterNetwork s) (sp_providerName s) = sp_clusterNetwork s;
  df_features : is_some (cd_anexia (sp_cloud s)) || is_some (cd_kubevirt (sp_cloud s)) = true →
    sp_features s !! ClusterFeatureExternalCloudProvider = Some true;
  df_datacenter : ∃ dc, seed_datacenters seed !! sp_datacenterName s = Some dc ∧ sp_datacenterName s ≠ "" ∧
    (ds_enforceAuditLogging (dc_spec dc) = true → sp_auditLogging s = Some (mkAuditLoggingSettings true "")) ∧
    (ds_enforcePodSecurityPolicy (dc_spec dc) = true → sp_usePodSecurityPolicyAdmissionPlugin s = true);
}.

Lemma defaultSpecFields_defaulted spec seed s : defaultSpecFields spec seed = Ok s → defaulted seed s.
Proof.
  unfold defaultSpecFields, DatacenterForClusterSpec. cbn. intros Hs.
  destruct (String.eqb (cd_datacenterName (sp_cloud spec)) "") eqn:Ed; [done|]. apply String.eqb_neq in Ed.
  destruct (seed_datacenters seed !! cd_datacenterName (sp_cloud spec)) as [dc|] eqn:Edc; [|done].
  destruct (ds_enforceAuditLogging (dc_spec dc)) eqn:Ea, (ds_enforcePodSecurityPolicy (dc_spec dc)) eqn:Epsp; cbn in Hs;
    (destruct (ClusterCloudProviderName_cases (sp_cloud spec)) as [[p Ep]|[e Ep]]; rewrite Ep in Hs; cbn in Hs; [|done];
     injection Hs as <-; destruct (is_some (cd_anexia (sp_cloud spec)) || is_some (cd_kubevirt (sp_cloud spec))) eqn:Ef;
     (constructor; cbn; rewrite ?or_string_idem, ?provider_name_kept, ?defaultCNI_idem, ?DefaultClusterNetwork_idem, ?Ef;
      [done|done|done|done|try done; intros _; by rewrite lookup_insert_eq|exists dc; split_and!; congruence])).
Qed.

Lemma defaultSpecFields_network spec seed s : defaultSpecFields spec seed = Ok s →
  sp_clusterNetwork s = DefaultClusterNetwork (sp_clusterNetwork spec) (sp_providerName s).
Proof.
  unfold defaultSpecFields. destruct (DatacenterForClusterSpec _ _) as [|dc]; [done|]. intros Hs.
  apply obind_ok_inv in Hs as (p & _ & Hs). injection Hs as <-. repeat case_match; done.
Qed.

(** A spec with the defaults is a fixed point. *)
Lemma defaulted_fixed seed s : defaulted seed s → defaultSpecFields s seed = Ok s.
Proof.
  intros [He Hp Hc Hn Hf (dc & Edc & Ed & Ha & Hpsp)]. unfold defaultSpecFields, DatacenterForClusterSpec.
  apply String.eqb_neq in Ed. unfold sp_datacenterName, sp_providerName in *.
  rewrite He. destruct s as [hn v [dn pn] cr cni nw mn ex co fe psp ssh osm au en pa ml re]. cbn in *.
  rewrite Ed, Edc.
  destruct (ds_enforceAuditLogging _); [rewrite Ha by done|]; (destruct (ds_enforcePodSecurityPolicy _); [rewrite Hpsp by done|]);
    cbn; rewrite ?Hp; cbn; rewrite <- Hc, Hn;
    (destruct (is_some _ || is_some _); [|done]; by rewrite insert_id by auto).
Qed.
End defaulting.
