(* ===== verification/ClusterAdmission.v ===== *)
(** * Admission of clusters

    The two webhooks that every creation and update of a cluster passes: the mutating
    one ([pkg/webhook/cluster/mutation/mutation.go]) fills in defaults and migrates
    settings, the validating one ([pkg/webhook/cluster/validation/validation.go])
    accepts or rejects the result. *)

From S2P Require Import Prelude ResourceNames Kube Semver Net CloudApi ClusterApi Corev1 Field VersionManager ClusterDefaulting ClusterValidation.

(** The handlers' fields: clients, getters, and the constructor of cloud providers. *)
Record AdmissionEnv (W : Type) := mkAdmissionEnv {
  ad_seedGetter : M W (option Seed);
  ad_configGetter : M W KubermaticConfiguration;
  ad_templates : Client W ClusterTemplate;
  ad_projects : Client W MetaObject;
  ad_cloudProvider : Datacenter → M W (CloudProvider W);
  ad_disableProvider : bool;
  ad_features : gmap string bool;
}.
Arguments ad_seedGetter {W}.
Arguments ad_configGetter {W}.
Arguments ad_templates {W}.
Arguments ad_projects {W}.
Arguments ad_cloudProvider {W}.
Arguments ad_disableProvider {W}.
Arguments ad_features {W}.

Inductive Operation := OpCreate | OpUpdate | OpDelete | OpOther (name : string).

(** An admission response: an error with its code, no change, or the patch from the
    request's object to a new one. *)
Inductive Response :=
| Errored (code : Z) (e : error)
| Allowed
| Patched (cluster : Cluster).

Definition StatusBadRequest : Z := 400.
Definition StatusInternalServerError : Z := 500.

Section admission.
Context `{SemverLib, KubeNet, DefaultingLibs} {W : Type} (env : AdmissionEnv W).

(** ** Mutation *)

Definition noSeed : error := ErrNew "webhook is not configured with -seed-name, cannot validate Clusters".

Definition getSeed : M W Seed :=
  r ← try (ad_seedGetter env);
  match r with
  | inl e => throw (field_error (InternalError "" e))
  | inr None => throw (field_error (InternalError "" noSeed))
  | inr (Some seed) => mret seed
  end.

Definition getDatacenter (c : Cluster) (seed : Seed) : M W Datacenter :=
  match DatacenterForClusterSpec (cl_spec c) seed with
  | inl e => throw (field_error e)
  | inr dc => mret dc
  end.

Definition getProvider (dc : Datacenter) : M W (CloudProvider W) :=
  r ← try (ad_cloudProvider env dc);
  match r with
  | inl e => throw (field_error (InternalError "" e))
  | inr p => mret p
  end.

Definition buildDefaultingDependencies (c : Cluster) : M W (Seed * option (CloudProvider W)) :=
  seed ← getSeed;
  if ad_disableProvider env then mret (seed, None) else
  datacenter ← getDatacenter c seed;
  cloudProvider ← getProvider datacenter;
  mret (seed, Some cloudProvider).

Definition applyDefaults (c : Cluster) : M W Cluster :=
  '(seed, provider) ← buildDefaultingDependencies c;
  config ← ad_configGetter env;
  defaultTemplate ← GetDefaultingClusterTemplate (ad_templates env) seed;
  spec ← DefaultClusterSpec (cl_spec c) defaultTemplate seed (Some config) provider;
  mret (set_cl_spec spec c).

Definition mutateCreate (newCluster : Cluster) : Cluster :=
  let features := sp_features (cl_spec newCluster) in
  set_cl_spec (set_features (match features !! ApiserverNetworkPolicy with
                             | None => <[ApiserverNetworkPolicy := true]> features
                             | Some _ => features
                             end) (cl_spec newCluster)) newCluster.

Definition addCCMCSIMigrationAnnotations (cluster : Cluster) : Cluster :=
  set_meta (set_annotations (<[CSIMigrationNeededAnnotation := ""]>
    (<[CCMMigrationNeededAnnotation := ""]> (om_annotations (cl_meta cluster)))) (cl_meta cluster)) cluster.

Definition set_openstack (o : OpenstackCloudSpec) (c : CloudSpec) : CloudSpec :=
  mkCloudSpec (cd_datacenterName c) (cd_providerName c) (cd_fake c) (cd_digitalocean c) (cd_bringYourOwn c) (cd_aws c)
    (cd_azure c) (Some o) (cd_packet c) (cd_hetzner c) (cd_vsphere c) (cd_gcp c) (cd_kubevirt c) (cd_alibaba c)
    (cd_anexia c) (cd_nutanix c) (cd_vmwareCloudDirector c).
Definition set_useOctavia (b : option bool) (o : OpenstackCloudSpec) : OpenstackCloudSpec :=
  mkOpenstackCloudSpec (os_credentialsReference o) (os_username o) (os_password o) (os_project o) (os_projectID o)
    (os_domain o) (os_applicationCredentialID o) (os_applicationCredentialSecret o) (os_useToken o) (os_token o)
    (os_network o) (os_securityGroups o) (os_nodePortsAllowedIPRange o) (os_nodePortsAllowedIPRanges o)
    (os_floatingIPPool o) (os_routerID o) (os_subnetID o) (os_ipv6SubnetID o) (os_ipv6SubnetPool o) b.

(** The CCM/CSI migration: the first half of [mutateUpdate]. *)
Definition migrateCCM (oldCluster newCluster : Cluster) : Cluster :=
  if map_bool (sp_features (cl_spec newCluster)) ClusterFeatureExternalCloudProvider &&
     negb (map_bool (sp_features (cl_spec oldCluster)) ClusterFeatureExternalCloudProvider)
  then match cd_openstack (sp_cloud (cl_spec newCluster)) with
       | Some o =>
           let c := addCCMCSIMigrationAnnotations newCluster in
           set_cl_spec (set_cloud (set_openstack (set_useOctavia (Some true) o) (sp_cloud (cl_spec c))) (cl_spec c)) c
       | None =>
           match cd_vsphere (sp_cloud (cl_spec newCluster)) with
           | Some _ => addCCMCSIMigrationAnnotations newCluster
           | None => newCluster
           end
       end
  else newCluster.

(** The version that feature toggles look at. *)
Definition currentVersion (c : Cluster) : Semver :=
  if String.eqb (cv_controlPlane (cs_versions (cl_status c))) "" then sp_version (cl_spec c)
  else cv_controlPlane (cs_versions (cl_status c)).

Definition constraint (msg text : string) : outcome Constraints :=
  match NewConstraint text with inr c => Ok c | inl e => Err (ErrWrap msg e) end.

(** [v.String() != "" && constraint.Check(v.Semver())]: a printed version is not nil. *)
Definition checkVersion (c : Constraints) (v : Semver) : bool :=
  negb (String.eqb (Semver_String (Some v)) "") &&
  match Semver_Semver (Some v) with Some sv => Constraints_Check c sv | None => false end.

Definition set_canal (version : string) (c : Cluster) : Cluster :=
  set_cl_spec (set_cniPlugin (Some (mkCNIPluginSettings CNIPluginTypeCanal version)) (cl_spec c)) c.

(** The Canal upgrades: the second half of [mutateUpdate]. *)
Definition upgradeUnspecified (c : Cluster) (cni : CNIPluginSettings) : outcome Cluster :=
  if String.eqb (cni_version cni) CanalCNILastUnspecifiedVersion then
    upgradeConstraint ← constraint "parsing CNI upgrade constraint failed" ">= 1.22";
    Ok (if checkVersion upgradeConstraint (currentVersion c)
        then set_canal (GetDefaultCNIPluginVersion CNIPluginTypeCanal) c else c)
  else Ok c.
Definition upgradeCanal (c : Cluster) : outcome Cluster :=
  cni ← deref (sp_cniPlugin (cl_spec c));
  if negb (String.eqb (cni_type cni) CNIPluginTypeCanal) then Ok c else
  c1 ← upgradeUnspecified c cni;
  cni1 ← deref (sp_cniPlugin (cl_spec c1));
  cniVersion ← (match NewVersion (cni_version cni1) with
                | inr v => Ok v
                | inl e => Err (ErrWrap "CNI plugin version parsing failed" e)
                end);
  lowerThan322 ← constraint "semver constraint parsing failed" "< 3.22";
  equalOrHigherThan123 ← constraint "semver constraint parsing failed" ">= 1.23";
  Ok (if Constraints_Check lowerThan322 cniVersion && checkVersion equalOrHigherThan123 (currentVersion c)
      then set_canal "v3.22" c1 else c1).

Definition mutateUpdate (oldCluster newCluster : Cluster) : outcome Cluster := upgradeCanal (migrateCCM oldCluster newCluster).

(** [Handle] for the decoded objects of a request. *)
Definition mutated (m : M W Cluster) : M W Response :=
  r ← try m;
  mret (match r with
        | inl e => Errored StatusInternalServerError (ErrWrap "cluster mutation request failed" e)
        | inr c => Patched c
        end).
Definition Handle (op : Operation) (object oldObject : outcome Cluster) : M W Response :=
  match op with
  | OpCreate =>
      r ← try (lift object);
      match r with
      | inl e => mret (Errored StatusBadRequest e)
      | inr cluster => mutated (cluster ← applyDefaults cluster; mret (mutateCreate cluster))
      end
  | OpUpdate =>
      r ← try (cluster ← lift object; oldCluster ← lift oldObject; mret (cluster, oldCluster));
      match r with
      | inl e => mret (Errored StatusBadRequest e)
      | inr (cluster, oldCluster) => mutated (cluster ← applyDefaults cluster; lift (mutateUpdate oldCluster cluster))
      end
  | OpDelete => mret Allowed
  | OpOther name => mret (Errored StatusBadRequest (ErrNew (name +:+ " not supported on cluster resources")))
  end.

(** ** Validation *)

Definition buildValidationDependencies (c : Cluster) : M W (Datacenter * option (CloudProvider W)) :=
  seed ← getSeed;
  datacenter ← getDatacenter c seed;
  if ad_disableProvider env then mret (datacenter, None) else
  cloudProvider ← getProvider datacenter;
  mret (datacenter, Some cloudProvider).

Definition project_label (c : Cluster) : string := map_str (om_labels (cl_meta c)) ProjectIDLabelKey.

Definition validateProjectRelation (cluster : Cluster) (oldCluster : option Cluster) : M W (option FieldError) :=
  let isUpdate := is_some oldCluster in
  if match oldCluster with
     | Some old => negb (String.eqb (project_label cluster) (project_label old))
     | None => false
     end
  then mret (Some (Invalid "metadata.labels" "the project-id label is immutable"))
  else if String.eqb (project_label cluster) "" then mret (Some (Required "metadata.labels" "Cluster resources must have a label"))
  else
    r ← try (c_get (ad_projects env) (mkKey "" (project_label cluster)));
    mret (match r with
          | inl e =>
              if IsNotFound e then if isUpdate then None else Some (Invalid "metadata.labels" "no such project exists")
              else Some (InternalError "metadata.labels" (ErrWrap "failed to get project" e))
          | inr project =>
              if negb isUpdate && is_some (om_deletionTimestamp (mo_meta project))
              then Some (Invalid "metadata.labels" "project is in deletion, cannot create new clusters in it")
              else None
          end).

Definition report (errs : list FieldError) : M W unit :=
  match ToAggregate errs with None => mret tt | Some e => throw e end.

Definition ValidateCreate (cluster : Cluster) : M W unit :=
  '(datacenter, cloudProvider) ← buildValidationDependencies cluster;
  config ← ad_configGetter env;
  errs ← ValidateNewClusterSpec (cl_spec cluster) (Some datacenter) cloudProvider (NewFromConfiguration (kc_versions config))
           (ad_features env) "";
  err ← validateProjectRelation cluster None;
  report (errs ++ err_opt err).

Definition ValidateUpdate (oldCluster newCluster : Cluster) : M W unit :=
  '(datacenter, cloudProvider) ← buildValidationDependencies newCluster;
  config ← ad_configGetter env;
  errs ← ValidateClusterUpdate newCluster oldCluster (Some datacenter) cloudProvider
           (NewFromConfiguration (kc_versions config)) (ad_features env);
  err ← validateProjectRelation newCluster (Some oldCluster);
  report (errs ++ err_opt err).

Definition ValidateDelete (cluster : Cluster) : M W unit := mret tt.

(** ** Both webhooks *)

(** What the API server stores for a creation or an update: the mutated object, if
    the validating webhook accepts it. *)
Definition admitted (r : Response) (validate : Cluster → M W unit) : M W Cluster :=
  match r with
  | Patched c => _ ← validate c; mret c
  | Errored _ e => throw e
  | Allowed => throw (ErrNew "not a write")
  end.
Definition admitCreate (cluster : Cluster) : M W Cluster :=
  r ← Handle OpCreate (Ok cluster) (Ok cluster);
  admitted r ValidateCreate.
Definition admitUpdate (oldCluster cluster : Cluster) : M W Cluster :=
  r ← Handle OpUpdate (Ok cluster) (Ok oldCluster);
  admitted r (ValidateUpdate oldCluster).
End admission.
