(* ===== verification/ClusterAdmissionSpec.v ===== *)
(** * What admission guarantees

    Both webhooks together: what a stored cluster satisfies, which settings never
    change over the life of a cluster, and two updates where the webhooks and their
    documentation, or the webhooks themselves, disagree. *)

From S2P Require Import Prelude ResourceNames Kube Semver Net NetSpec CloudApi ClusterApi Corev1 Field VersionManager ClusterDefaulting ClusterValidation ClusterValidationSpec ClusterDefaultingSpec ClusterAdmission.

Section admission.
Context `{L : SemverLib, KubeNet, DefaultingLibs} {W : Type}.
Implicit Types env : AdmissionEnv W.

(** ** Inversion of the webhooks *)

Lemma report_ok errs (w : W) u w' : report errs w = (Ok u, w') → errs = [].
Proof. unfold report. destruct (ToAggregate errs) eqn:E; [done|]. intros _. by apply ToAggregate_None. Qed.

(** Defaulting a request changes the spec only, to one with the defaults. *)
Lemma applyDefaults_ok env c w c' w' : applyDefaults env c w = (Ok c', w') →
  ∃ spec seed, c' = set_cl_spec spec c ∧ defaulted seed spec.
Proof.
  unfold applyDefaults. intros Ha. m_inv. destruct a as [seed provider]. m_inv.
  match goal with E : DefaultClusterSpec _ _ _ _ _ _ = _ |- _ => unfold DefaultClusterSpec in E; m_inv end.
  all: match goal with E : defaultSpecFields _ _ = _ |- _ => apply defaultSpecFields_defaulted in E end; eauto.
Qed.

Lemma versionsFor_nil m provider p versions : versionsFor m provider p = Ok ([], versions) →
  GetVersionsForProvider m provider [] = Ok versions.
Proof. unfold versionsFor. destruct (GetVersionsForProvider m provider []); by intros [= ->]. Qed.

(** The checks of a spec, for a seed, a configuration and feature gates. *)
Definition valid_in (seed : Seed) (config : KubermaticConfiguration) (gates : gmap string bool) (provider : string) (c : Cluster) : Prop :=
  ∃ dc versions, seed_datacenters seed !! sp_datacenterName (cl_spec c) = Some dc ∧
    GetVersionsForProvider (NewFromConfiguration (kc_versions config)) provider [] = Ok versions ∧
    spec_ok (cl_spec c) dc gates versions.

Lemma getDatacenter_ok c seed (w : W) dc w' : getDatacenter c seed w = (Ok dc, w') →
  seed_datacenters seed !! sp_datacenterName (cl_spec c) = Some dc ∧ w = w'.
Proof.
  unfold getDatacenter, DatacenterForClusterSpec. destruct (String.eqb _ ""); [done|].
  destruct (seed_datacenters seed !! _) as [d|] eqn:Ed; [|done]. by intros [= <- <-].
Qed.

(** What the calls of the webhooks to clients, getters and cloud providers keep. *)
Record admission_frame {X} env (v : W → X) : Prop := {
  af_seed : keeps v (ad_seedGetter env);
  af_config : keeps v (ad_configGetter env);
  af_template : ∀ k, keeps v (c_get (ad_templates env) k);
  af_project : ∀ k, keeps v (c_get (ad_projects env) k);
  af_cloud : ∀ dc, keeps v (ad_cloudProvider env dc);
  af_provider : ∀ dc w p w', ad_cloudProvider env dc w = (Ok p, w') →
    (∀ a, keeps v (cp_DefaultCloudSpec p a)) ∧ (∀ a, keeps v (cp_ValidateCloudSpec p a)) ∧
    ∀ a b, keeps v (cp_ValidateCloudSpecUpdate p a b);
}.

Section framed.
Context {X : Type} env (v : W → X) (Hf : admission_frame env v).

(** [m] succeeded with [a] in a world with the same view as [w]. *)
Definition observed {A} (w : W) (m : M W A) (r : outcome A) : Prop := ∃ w1 w2, m w1 = (r, w2) ∧ v w1 = v w.

Lemma getSeed_ok w seed w' : getSeed env w = (Ok seed, w') →
  observed w (ad_seedGetter env) (Ok (Some seed)) ∧ v w' = v w.
Proof.
  unfold getSeed. intros Hg. apply bind_ok_inv in Hg as (r & w1 & Et & Hg).
  apply try_ok_inv in Et as [(o & -> & E)|(e & -> & E)]; [|done]. destruct o as [s|]; [|done].
  apply ret_ok_inv in Hg as [<- <-]. split; [by exists w, w1|by eapply (af_seed _ _ Hf)].
Qed.

Lemma getProvider_ok dc w p w' : getProvider env dc w = (Ok p, w') →
  v w' = v w ∧ (∀ a, keeps v (cp_DefaultCloudSpec p a)) ∧ (∀ a, keeps v (cp_ValidateCloudSpec p a)) ∧
  ∀ a b, keeps v (cp_ValidateCloudSpecUpdate p a b).
Proof.
  unfold getProvider. intros Hg. apply bind_ok_inv in Hg as (r & w1 & Et & Hg).
  apply try_ok_inv in Et as [(o & -> & E)|(e & -> & E)]; [|done]. apply ret_ok_inv in Hg as [<- <-].
  split; [by eapply (af_cloud _ _ Hf)|by eapply (af_provider _ _ Hf)].
Qed.

Lemma buildValidationDependencies_ok c w dc p w' :
  buildValidationDependencies env c w = (Ok (dc, p), w') →
  ∃ seed, observed w (ad_seedGetter env) (Ok (Some seed)) ∧
    seed_datacenters seed !! sp_datacenterName (cl_spec c) = Some dc ∧ v w' = v w ∧
    ∀ q, p = Some q → (∀ a, keeps v (cp_ValidateCloudSpec q a)) ∧ ∀ a b, keeps v (cp_ValidateCloudSpecUpdate q a b).
Proof.
  unfold buildValidationDependencies. intros Hb. apply bind_ok_inv in Hb as (seed & w1 & Es & Hb).
  apply getSeed_ok in Es as [Es Hw1]. apply bind_ok_inv in Hb as (d & w2 & [Ed <-]%getDatacenter_ok & Hb).
  exists seed. destruct (ad_disableProvider env).
  - apply ret_ok_inv in Hb as [[= <- <-] <-]. by split_and!.
  - apply bind_ok_inv in Hb as (q & w3 & (Hw3 & _ & Hp1 & Hp2)%getProvider_ok & Hb). apply ret_ok_inv in Hb as [[= <- <-] <-].
    split_and!; [done|done|congruence|]. by intros q' [= <-].
Qed.

Lemma applyDefaults_keeps c w c' w' : applyDefaults env c w = (Ok c', w') → v w' = v w.
Proof.
  unfold applyDefaults, buildDefaultingDependencies. intros Ha.
  apply bind_ok_inv in Ha as ([seed p] & w1 & Eb & Ha).
  assert (Hp : v w1 = v w ∧ ∀ q, p = Some q → ∀ a, keeps v (cp_DefaultCloudSpec q a)).
  { apply bind_ok_inv in Eb as (s & w2 & [_ Hw2]%getSeed_ok & Eb). destruct (ad_disableProvider env).
    { by apply ret_ok_inv in Eb as [[= <- <-] <-]. }
    apply bind_ok_inv in Eb as (d & w3 & [_ <-]%getDatacenter_ok & Eb).
    apply bind_ok_inv in Eb as (q & w4 & (Hw4 & Hd & _)%getProvider_ok & Eb). apply ret_ok_inv in Eb as [[= <- <-] <-].
    split; [congruence|]. by intros ? [= <-]. }
  destruct Hp as [Hw1 Hp]. apply bind_ok_inv in Ha as (config & w2 & Ec & Ha). apply (af_config _ _ Hf) in Ec.
  apply bind_ok_inv in Ha as (tpl & w3 & Et & Ha).
  assert (Ht : keeps v (GetDefaultingClusterTemplate (ad_templates env) seed)).
  { unfold GetDefaultingClusterTemplate. destruct (String.eqb _ _); [apply keeps_ret|]. apply keeps_bind; [apply keeps_wrap, (af_template _ _ Hf)|].
    intros t. destruct (negb _); [apply keeps_throw|apply keeps_ret]. }
  apply Ht in Et. apply bind_ok_inv in Ha as (spec & w4 & Ed & Ha). apply ret_ok_inv in Ha as [_ <-].
  assert (Hd : keeps v (DefaultClusterSpec (cl_spec c) tpl seed (Some config) p)).
  { unfold DefaultClusterSpec. apply keeps_bind; [apply keeps_wrap, keeps_lift|intros]. apply keeps_bind;
      [destruct tpl; [apply keeps_wrap, keeps_lift|apply keeps_ret]|intros]. apply keeps_bind; [apply keeps_wrap, keeps_lift|intros].
    apply keeps_bind; [|intros; apply keeps_lift]. destruct p as [q|]; [by apply keeps_wrap, Hp|apply keeps_ret]. }
  apply Hd in Ed. congruence.
Qed.

(** A project that the validating webhook accepts a cluster for. *)
Lemma validateProjectRelation_ok c old w w' : validateProjectRelation env c old w = (Ok None, w') →
  project_label c ≠ "" ∧ (∀ o, old = Some o → project_label c = project_label o) ∧
  (old = None → ∃ project, observed w (c_get (ad_projects env) (mkKey "" (project_label c))) (Ok project) ∧
     om_deletionTimestamp (mo_meta project) = None).
Proof.
  unfold validateProjectRelation. intros Hv.
  destruct (match old with Some o => negb (String.eqb (project_label c) (project_label o)) | None => false end) eqn:Eo.
  { by apply ret_ok_inv in Hv as []. }
  destruct (String.eqb (project_label c) "") eqn:Ee; [by apply ret_ok_inv in Hv as []|]. apply String.eqb_neq in Ee.
  split; [done|]. split.
  - intros o ->. by apply negb_false_iff, String.eqb_eq in Eo.
  - intros ->. apply bind_ok_inv in Hv as (r & w1 & Et & Hv). apply ret_ok_inv in Hv as [Hv _]. cbn in Hv.
    apply try_ok_inv in Et as [(project & -> & E)|(e & -> & E)]; [|by destruct (IsNotFound e)].
    exists project. split; [by exists w, w1|]. by destruct (om_deletionTimestamp (mo_meta project)).
Qed.

Lemma ValidateNewClusterSpec_nil spec dc (provider : option (CloudProvider W)) m gates p w w' :
  (∀ q, provider = Some q → ∀ a, keeps v (cp_ValidateCloudSpec q a)) →
  ValidateNewClusterSpec spec (Some dc) provider m gates p w = (Ok [], w') →
  v w' = v w ∧ ∃ versions, GetVersionsForProvider m (sp_providerName spec) [] = Ok versions ∧ spec_ok spec dc gates versions.
Proof using Type.
  unfold ValidateNewClusterSpec. intros Hq Hv.
  apply bind_ok_inv in Hv as ([versionErrs versions] & w1 & Ev & Hv). apply lift_ok_inv in Ev as [Ev <-].
  apply bind_ok_inv in Hv as (specErrs & w2 & Es & Hv). apply lift_ok_inv in Es as [Es <-].
  apply bind_ok_inv in Hv as (cloudErrs & w3 & Ec & Hv). apply ret_ok_inv in Hv as [Hv <-].
  rewrite !app_nil_iff in Hv. destruct Hv as (-> & -> & _). split.
  - destruct provider as [q|]; [|by apply ret_ok_inv in Ec as [_ <-]].
    assert (Hk : ∀ f, keeps v (provider_err (cp_ValidateCloudSpec q (sp_cloud spec)) f)); [|by eapply Hk].
    intros f. unfold provider_err. apply keeps_bind; [by apply keeps_try, Hq|intros; apply keeps_ret].
  - exists versions. split; [by eapply versionsFor_nil|by eapply ValidateClusterSpec_nil].
Qed.

Lemma ValidateClusterUpdate_nil new old dc (provider : option (CloudProvider W)) m gates w w' :
  ValidateClusterUpdate new old (Some dc) provider m gates w = (Ok [], w') →
  allowed_change new old ∧ encryption_rule new old ∧
  ∃ versions, GetVersionsForProvider m (sp_providerName (cl_spec old)) [] = Ok versions ∧ spec_ok (cl_spec new) dc gates versions.
Proof using Type.
  unfold ValidateClusterUpdate. intros Hv.
  apply bind_ok_inv in Hv as ([versionErrs versions] & w1 & Ev & Hv). apply lift_ok_inv in Ev as [Ev _].
  apply bind_ok_inv in Hv as (specErrs & w2 & Es & Hv). apply lift_ok_inv in Es as [Es _].
  apply bind_ok_inv in Hv as (cloudErrs & w3 & _ & Hv). apply ret_ok_inv in Hv as [Hv _].
  rewrite !app_nil_iff in Hv. destruct Hv as (-> & -> & _ & Hc). apply validateChange_iff in Hc as [Hc He].
  split; [done|]. split; [done|].
  exists versions. split; [by eapply versionsFor_nil|by eapply ValidateClusterSpec_nil].
Qed.

Lemma ValidateCreate_ok c w u w' : ValidateCreate env c w = (Ok u, w') →
  ∃ seed config project,
    observed w (ad_seedGetter env) (Ok (Some seed)) ∧ observed w (ad_configGetter env) (Ok config) ∧
    observed w (c_get (ad_projects env) (mkKey "" (project_label c))) (Ok project) ∧
    valid_in seed config (ad_features env) (sp_providerName (cl_spec c)) c ∧
    project_label c ≠ "" ∧ om_deletionTimestamp (mo_meta project) = None.
Proof.
  unfold ValidateCreate. intros Hv.
  apply bind_ok_inv in Hv as ([dc p] & w1 & (seed & Hseed & Hdc & Hw1 & Hp)%buildValidationDependencies_ok & Hv).
  apply bind_ok_inv in Hv as (config & w2 & Ec & Hv). pose proof (af_config _ _ Hf _ _ _ Ec) as Hw2.
  apply bind_ok_inv in Hv as (errs & w3 & Es & Hv).
  apply bind_ok_inv in Hv as (err & w4 & Ep & Hv). apply report_ok, app_nil_iff in Hv as [-> He].
  apply err_opt_nil in He as ->. apply ValidateNewClusterSpec_nil in Es as (Hw3 & versions & ? & ?);
    [|intros q Hq; by apply Hp].
  apply validateProjectRelation_ok in Ep as (? & _ & Hproj). destruct (Hproj eq_refl) as (project & (wa & wb & Eg & Hwa) & Hd).
  exists seed, config, project. split_and!; try done.
  - by exists w1, w2.
  - exists wa, wb. split; [done|]. congruence.
  - by exists dc, versions.
Qed.

Lemma ValidateUpdate_ok old c w u w' : ValidateUpdate env old c w = (Ok u, w') →
  allowed_change c old ∧ encryption_rule c old ∧ project_label c ≠ "" ∧ project_label c = project_label old ∧
  ∃ seed config, observed w (ad_seedGetter env) (Ok (Some seed)) ∧ observed w (ad_configGetter env) (Ok config) ∧
    valid_in seed config (ad_features env) (sp_providerName (cl_spec old)) c.
Proof.
  unfold ValidateUpdate. intros Hv.
  apply bind_ok_inv in Hv as ([dc p] & w1 & (seed & Hseed & Hdc & Hw1 & _)%buildValidationDependencies_ok & Hv).
  apply bind_ok_inv in Hv as (config & w2 & Ec & Hv). apply bind_ok_inv in Hv as (errs & w3 & Es & Hv).
  apply bind_ok_inv in Hv as (err & w4 & Ep & Hv). apply report_ok, app_nil_iff in Hv as [-> Hp].
  apply err_opt_nil in Hp as ->. apply ValidateClusterUpdate_nil in Es as (? & ? & versions & ? & ?).
  apply validateProjectRelation_ok in Ep as (? & Hl & _). split_and!; [done..|by apply Hl|].
  exists seed, config. split_and!; [done|by exists w1, w2|by exists dc, versions].
Qed.
End framed.

(** Without any view. *)
Lemma no_frame env : admission_frame env (λ _, tt).
Proof. by split; intros; try split_and!; intros; intros ? ? ? ?. Qed.

(** ** The mutated objects *)

Lemma mutated_ok (m : M W Cluster) w r w' : mutated m w = (Ok r, w') →
  (∃ c, r = Patched c ∧ m w = (Ok c, w')) ∨ ∃ e, r = Errored StatusInternalServerError e.
Proof.
  unfold mutated. intros Hm. apply bind_ok_inv in Hm as (x & w1 & Et & Hm). apply ret_ok_inv in Hm as [<- <-].
  apply try_ok_inv in Et as [(c & -> & E)|(e & -> & E)]; eauto.
Qed.

Lemma admitCreate_ok env c w c' w' : admitCreate env c w = (Ok c', w') →
  ∃ d w1, applyDefaults env c w = (Ok d, w1) ∧ c' = mutateCreate d ∧ ValidateCreate env c' w1 = (Ok tt, w').
Proof.
  unfold admitCreate, Handle. intros Ha. apply bind_ok_inv in Ha as (r & w1 & Eh & Ha).
  apply bind_ok_inv in Eh as (x & w2 & Et & Eh). injection Et as <- <-.
  apply mutated_ok in Eh as [(c1 & -> & E)|(e & ->)]; [|done].
  apply bind_ok_inv in E as (d & w3 & Ed & E). apply ret_ok_inv in E as [<- <-].
  simpl in Ha. apply bind_ok_inv in Ha as ([] & w4 & Ev & Ha). apply ret_ok_inv in Ha as [<- <-]. eauto 10.
Qed.

Lemma admitUpdate_ok env old c w c' w' : admitUpdate env old c w = (Ok c', w') →
  ∃ d w1, applyDefaults env c w = (Ok d, w1) ∧ mutateUpdate old d = Ok c' ∧ ValidateUpdate env old c' w1 = (Ok tt, w').
Proof.
  unfold admitUpdate, Handle. intros Ha. apply bind_ok_inv in Ha as (r & w1 & Eh & Ha).
  apply bind_ok_inv in Eh as (x & w2 & Et & Eh). injection Et as <- <-.
  apply mutated_ok in Eh as [(c1 & -> & E)|(e & ->)]; [|done].
  apply bind_ok_inv in E as (d & w3 & Ed & E). apply lift_ok_inv in E as [E <-].
  simpl in Ha. apply bind_ok_inv in Ha as ([] & w4 & Ev & Ha). apply ret_ok_inv in Ha as [<- <-]. eauto 10.
Qed.

(** Neither mutation touches the network settings. *)
Lemma migrateCCM_network old d : sp_clusterNetwork (cl_spec (migrateCCM old d)) = sp_clusterNetwork (cl_spec d).
Proof. unfold migrateCCM. repeat case_match; done. Qed.

Lemma upgradeCanal_network c c' : upgradeCanal c = Ok c' → sp_clusterNetwork (cl_spec c') = sp_clusterNetwork (cl_spec c).
Proof.
  unfold upgradeCanal. intros Hu. apply obind_ok_inv in Hu as (cni & _ & Hu). destruct (negb _); [by injection Hu as <-|].
  apply obind_ok_inv in Hu as (c1 & E1 & Hu).
  assert (sp_clusterNetwork (cl_spec c1) = sp_clusterNetwork (cl_spec c)) as Hn.
  { unfold upgradeUnspecified in E1. destruct (String.eqb _ _); [|by injection E1 as <-].
    apply obind_ok_inv in E1 as (k & _ & E1). injection E1 as <-. by case_match. }
  apply obind_ok_inv in Hu as (cni1 & _ & Hu). apply obind_ok_inv in Hu as (v & _ & Hu).
  apply obind_ok_inv in Hu as (k1 & _ & Hu). apply obind_ok_inv in Hu as (k2 & _ & Hu).
  injection Hu as <-. rewrite <- Hn. by case_match.
Qed.

Lemma stored_filled env old c w c' w' :
  admitCreate env c w = (Ok c', w') ∨ admitUpdate env old c w = (Ok c', w') → network_filled (sp_clusterNetwork (cl_spec c')).
Proof.
  intros [Ha|Ha].
  - apply admitCreate_ok in Ha as (d & w1 & Ed & -> & _). apply applyDefaults_ok in Ed as (spec & seed & -> & [_ _ _ Hn _ _]).
    simpl. rewrite <- Hn. apply default_network_filled.
  - apply admitUpdate_ok in Ha as (d & w1 & Ed & Eu & _). apply applyDefaults_ok in Ed as (spec & seed & -> & [_ _ _ Hn _ _]).
    unfold mutateUpdate in Eu. rewrite (upgradeCanal_network _ _ Eu), migrateCCM_network. simpl. rewrite <- Hn.
    apply default_network_filled.
Qed.

(** ** The life of a cluster *)

(** What makes a cluster the one it is: where it runs, how it is reached, its
    networks, its project. *)
Record Identity := mkIdentity {
  id_datacenter : string;
  id_provider : outcome string;
  id_exposeStrategy : string;
  id_nodePortRange : string;
  id_ipFamily : string;
  id_pods : list string;
  id_services : list string;
  id_proxyMode : string;
  id_dnsDomain : string;
  id_nodeLocalDNS : option bool;
  id_osm : bool;
  id_sshAgent : bool;
  id_project : string;
  id_typeMeta : TypeMeta;
}.
Definition sshAgent_enabled (b : option bool) : bool := negb (bool_decide (b = Some false)).
Definition identity (c : Cluster) : Identity :=
  let s := cl_spec c in
  let n := sp_clusterNetwork s in
  mkIdentity (sp_datacenterName s) (ClusterCloudProviderName (sp_cloud s)) (sp_exposeStrategy s) (nodePortRange_of c)
    (cn_ipFamily n) (nr_CIDRBlocks (cn_pods n)) (nr_CIDRBlocks (cn_services n)) (cn_proxyMode n) (cn_dnsDomain n)
    (cn_nodeLocalDNSCacheEnabled n) (sp_enableOperatingSystemManager s) (sshAgent_enabled (sp_enableUserSSHKeyAgent s))
    (project_label c) (cl_typeMeta c).

(** Everything the identity is made of has a value. *)
Definition settled (c : Cluster) : Prop :=
  network_filled (sp_clusterNetwork (cl_spec c)) ∧ sp_exposeStrategy (cl_spec c) ≠ "" ∧ nodePortRange_of c ≠ "".

(** The writes to a stored cluster: updates through the webhooks, in any state of
    the API server and with any configuration, and writes to the status. *)
Inductive write : Cluster → Cluster → Prop :=
| write_update env old submitted w c w' : admitUpdate env old submitted w = (Ok c, w') → write old c
| write_status old s : write old (set_cl_status s old).

(** Feature gates that stay on. *)
Definition sticky (c c' : Cluster) : Prop :=
  ∀ f, f = ClusterFeatureExternalCloudProvider ∨ f = ClusterFeatureEtcdLauncher →
    map_bool (sp_features (cl_spec c)) f = true → map_bool (sp_features (cl_spec c')) f = true.

Lemma spec_ok_settled c dc gates versions : spec_ok (cl_spec c) dc gates versions →
  network_filled (sp_clusterNetwork (cl_spec c)) → settled c.
Proof.
  intros Hs Hn. split_and!; [done| |].
  - pose proof (so_exposeStrategy _ _ _ _ Hs) as He. intros E. rewrite E in He.
    by repeat (apply elem_of_cons in He as [He|He]; [done|]); apply elem_of_nil in He.
  - by destruct (so_nodePortRange _ _ _ _ Hs) as (? & ? & _ & _ & _ & ?).
Qed.

Lemma allowed_change_identity c old : allowed_change c old → settled old → project_label c = project_label old →
  identity c = identity old ∧ sticky old c.
Proof.
  intros [? (p & Ec & Eo) _ Hf He Hp Ha ? [? ? ? ? ? ?] _ ?] ((? & ? & ? & ? & ? & ?) & ? & ?) ?. split.
  - unfold identity. rewrite Ec, Eo. f_equal; auto. unfold sshAgent_enabled.
    destruct (sp_enableUserSSHKeyAgent (cl_spec old)); [by rewrite Ha|]. by rewrite !bool_decide_eq_false_2.
  - intros f Hin. auto.
Qed.

Lemma write_identity old c : settled old → write old c → settled c ∧ identity c = identity old ∧ sticky old c.
Proof.
  intros Hs Hw. destruct Hw as [env old submitted w c w' Ha|old s]; [|split; [exact Hs|split; [done|by intros f]]].
  pose proof (stored_filled _ _ _ _ _ _ (or_intror Ha)) as Hn.
  apply admitUpdate_ok in Ha as (d & w1 & _ & _ & Hv).
  apply (ValidateUpdate_ok _ _ (no_frame env)) in Hv as (Hc & _ & _ & Hl & _ & _ & _ & _ & dc & versions & _ & _ & Hok).
  split; [by eapply spec_ok_settled|]. by apply allowed_change_identity.
Qed.

Lemma created_settled env c w c' w' : admitCreate env c w = (Ok c', w') → settled c'.
Proof.
  intros Ha. pose proof (stored_filled env c _ _ _ _ (or_introl Ha)) as Hn.
  apply admitCreate_ok in Ha as (d & w1 & _ & _ & Hv).
  apply (ValidateCreate_ok _ _ (no_frame env)) in Hv as (_ & _ & _ & _ & _ & _ & (dc & versions & _ & _ & Hok) & _).
  by eapply spec_ok_settled.
Qed.

(** C3: over its life, whatever updates are submitted and however the configuration
    changes in between, a cluster keeps what the first accepted request gave it:
    datacenter, cloud provider, expose strategy, node port range, IP family, pod and
    service ranges, proxy mode, DNS domain, node-local DNS, operating system manager,
    SSH key agent, project and type; and the feature gates for external cloud
    providers and the etcd launcher stay on. *)
Theorem cluster_identity env submitted w c0 w' c :
  admitCreate env submitted w = (Ok c0, w') → rtc write c0 c →
  identity c = identity c0 ∧ sticky c0 c.
Proof.
  intros Hs%created_settled Hw. clear - Hs Hw. induction Hw as [c|c c1 c2 Hw1 _ IH]; [by split; [|intros f]|].
  destruct (write_identity _ _ Hs Hw1) as (Hs1 & Hi & Hst). destruct (IH Hs1) as [Hi2 Hst2].
  split; [congruence|]. intros f Hf Hon. auto.
Qed.

(** *** What a request is checked against *)

(** Seed, configuration and projects of the installation. *)
Record AdmissionSite := mkAdmissionSite {
  site_seed : option Seed;
  site_configuration : option KubermaticConfiguration;
  site_projects : string → option MetaObject;
}.

Class AdmissionWorld env := {
  asite : W → AdmissionSite;
  asite_frame : admission_frame env asite;
  asite_seed : ∀ w seed w', ad_seedGetter env w = (Ok (Some seed), w') → site_seed (asite w) = Some seed;
  asite_config : ∀ w config w', ad_configGetter env w = (Ok config, w') → site_configuration (asite w) = Some config;
  asite_project : ∀ name w p w', c_get (ad_projects env) (mkKey "" name) w = (Ok p, w') → site_projects (asite w) name = Some p;
}.

(** A configured version that no configured incompatibility excludes for new
    clusters of the provider, and that no automatic update would replace. *)
Definition offered (config : KubermaticVersioningConfiguration) (provider : string) (version : Semver) : Prop :=
  ∃ s v u, s ∈ kv_versions config ∧ Semver_Semver (Some s) = Some v ∧
    Semver_Semver (Some version) = Some u ∧ ver_Equal u v = true ∧
    (∀ i, i ∈ kv_providerIncompatibilities config → ic_provider i = provider ∨ ic_provider i = "" →
       ic_operation i = "CREATE" → ic_condition i = "always" → admits (ic_version i) v = false) ∧
    ∀ from up, NewVersion (ver_String v) = inr from → up ∈ kv_updates config → uc_automatic up = Some true →
      admits (uc_from up) from = false.

Lemma offered_ok `{!SemverLaws L} config provider version versions mv available u :
  GetVersionsForProvider (NewFromConfiguration config) provider [] = Ok versions → mv ∈ versions →
  mv_version mv = Some available → Semver_Semver (Some version) = Some u → ver_Equal u available = true →
  offered config provider version.
Proof.
  intros Hg Hin Ha Hu He. unfold GetVersionsForProvider in Hg. apply obind_ok_inv in Hg as (l & El & Hg).
  pose proof (proj1 (filterVersions_ok _ _ _ Hg mv) Hin) as [Hin1 Hc]. clear Hin. rename Hin1 into Hin.
  pose proof (proj1 (withoutAutomaticUpdate_ok _ _ _ El mv) Hin) as (Hin1 & ver & Hver & Hauto).
  rewrite Ha in Hver. injection Hver as <-. rewrite Ha in Hc.
  apply list_elem_of_fmap in Hin1 as (s & -> & Hs). cbn [mv_version] in Ha.
  exists s, available, u. split_and!; [done..| |].
  - intros i Hi Hp Hop Hcond. eapply compatible_unblocked with (pi := mkProviderIncompatibility _ _ _ _) in Hc;
      [|simpl; apply list_elem_of_fmap; by exists i]. unfold blocks, applies in Hc. simpl in Hc. rewrite Hop, Hcond in Hc.
    assert (String.eqb (ic_provider i) provider || String.eqb (ic_provider i) "" = true) as Hp'.
    { destruct Hp as [->| ->]; rewrite String.eqb_refl; [done|]. by rewrite orb_true_r. }
    by rewrite Hp' in Hc.
  - intros from up Hfrom Hup Hautom. unfold AutomaticControlplaneUpdate in Hauto. pose proof (automaticUpdate_inv _ _ _ _ _ Hfrom Hauto) as Hinv. simpl in Hinv.
    destruct (admits (uc_from up) from) eqn:Eadm; [|done]. exfalso.
    assert (Hf : mkUpdate (uc_from up) (uc_to up) true (is_true_ptr (uc_automaticNodeUpdate up)) ∈
      List.filter (rule_matches false from) (map (λ u, mkUpdate (uc_from u) (uc_to u) (is_true_ptr (uc_automatic u))
        (is_true_ptr (uc_automaticNodeUpdate u))) (kv_updates config))).
    { apply list_elem_of_In, filter_In. split; [|done]. apply in_map_iff. exists up. rewrite Hautom. split; [done|].
      by apply list_elem_of_In. }
    destruct (List.filter _ _) as [|x [|y rest]]; [by apply elem_of_nil in Hf|by destruct Hinv as (? & ? & ? & [=] & _)|done].
Qed.

(** A stored object that is valid at a site. *)
Record valid_at (site : AdmissionSite) (gates : gmap string bool) (provider : string) (c : Cluster) : Prop := {
  va_config : ∃ config, site_configuration site = Some config ∧ offered (kc_versions config) provider (sp_version (cl_spec c));
  va_spec : ∃ seed dc versions, site_seed site = Some seed ∧
    seed_datacenters seed !! sp_datacenterName (cl_spec c) = Some dc ∧ spec_ok (cl_spec c) dc gates versions;
}.

Lemma valid_in_at `{!SemverLaws L} seed config gates provider c site :
  site_seed site = Some seed → site_configuration site = Some config →
  valid_in seed config gates provider c → valid_at site gates provider c.
Proof.
  intros Hs Hc (dc & versions & Hdc & Hg & Hok). split; [|by exists seed, dc, versions].
  destruct (so_version _ _ _ _ Hok) as (u & mv & available & ? & ? & ? & ?). exists config. split; [done|]. by eapply offered_ok.
Qed.


(** ** Two traps *)

Lemma migrateCCM_keeps old d :
  sp_cniPlugin (cl_spec (migrateCCM old d)) = sp_cniPlugin (cl_spec d) ∧
  om_labels (cl_meta (migrateCCM old d)) = om_labels (cl_meta d) ∧ currentVersion (migrateCCM old d) = currentVersion d.
Proof. unfold migrateCCM. repeat case_match; done. Qed.

Lemma two_minors newV oldV : ver_Minor newV = 22 → ver_Minor oldV = 19 ∨ ver_Minor oldV = 20 → oneMinorApart newV oldV = false.
Proof. unfold oneMinorApart. intros -> [->| ->]; rewrite andb_false_iff; by right. Qed.

(** The mutating webhook moves a cluster with Canal v3.19 or v3.20 to v3.22 once
    its control plane runs Kubernetes 1.23, and the validating webhook rejects this
    jump of two minors: without the label for unsafe upgrades no update that keeps the
    CNI settings is accepted any more. *)
Theorem canal_upgrade_stuck env old d v oldV newV lt322 ge123 :
  sp_cniPlugin (cl_spec old) = Some (mkCNIPluginSettings CNIPluginTypeCanal v) →
  sp_cniPlugin (cl_spec d) = Some (mkCNIPluginSettings CNIPluginTypeCanal v) →
  v = "v3.19" ∨ v = "v3.20" →
  NewVersion v = inr oldV → ver_Minor oldV = 19 ∨ ver_Minor oldV = 20 →
  NewVersion "v3.22" = inr newV → ver_Minor newV = 22 →
  NewConstraint "< 3.22" = inr lt322 → Constraints_Check lt322 oldV = true →
  NewConstraint ">= 1.23" = inr ge123 → checkVersion ge123 (currentVersion d) = true →
  om_labels (cl_meta d) !! UnsafeCNIUpgradeLabel = None →
  ∃ c, mutateUpdate old d = Ok c ∧ sp_cniPlugin (cl_spec c) = Some (mkCNIPluginSettings CNIPluginTypeCanal "v3.22") ∧
    ∀ w u w', ValidateUpdate env old c w ≠ (Ok u, w').
Proof.
  intros Ho Hd Hv Ev Hm19 Ev22 Hm22 Elt Hlt Ege Hge Hl.
  destruct (migrateCCM_keeps old d) as (Ec & El & Ecur).
  exists (set_canal "v3.22" (migrateCCM old d)). split; [|split; [done|]].
  - unfold mutateUpdate, upgradeCanal. rewrite Ec, Hd. cbn [deref mbind outcome_MBind outcome_bind cni_type].
    rewrite String.eqb_refl. cbn [negb].
    assert (upgradeUnspecified (migrateCCM old d) (mkCNIPluginSettings CNIPluginTypeCanal v) = Ok (migrateCCM old d)) as ->.
    { unfold upgradeUnspecified. by destruct Hv as [->| ->]. }
    cbn. rewrite Ec, Hd. cbn. rewrite Ev. cbn. unfold constraint. rewrite Elt, Ege. cbn. by rewrite Hlt, Ecur, Hge.
  - intros w u w' Hu. apply (ValidateUpdate_ok _ _ (no_frame env)) in Hu as ([_ _ _ _ _ _ _ _ _ Hcni _] & _).
    apply cni_step_iff in Hcni. revert Hcni. rewrite Ho. unfold validateCNIUpdate.
    destruct Hv as [->| ->]; cbn; by rewrite Ev22, Ev, El, Hl, (two_minors _ _ Hm22 Hm19).
Qed.

(** The check that is to keep the encryption feature on while data is encrypted
    looks at the wrong cluster.  Switching the feature off is accepted although
    encryption is active, and then every update is rejected for as long as it is. *)
Theorem encryption_flag_unprotected old new c :
  map_bool (sp_features (cl_spec old)) ClusterFeatureEncryptionAtRest = true →
  map_bool (sp_features (cl_spec new)) ClusterFeatureEncryptionAtRest = false →
  IsEncryptionActive new = true →
  validateEncryptionUpdate new old = [] ∧ validateEncryptionUpdate old new ≠ [] ∧ validateChange c new ≠ [].
Proof.
  intros Ho Hn Ha. rewrite validateChange_iff, !encryption_rule_iff. split_and!.
  - by apply encryption_rule_off.
  - intros [_ _ Hf]. destruct (Hf Hn). congruence.
  - intros [_ [_ _ Hf]]. destruct (Hf Hn). congruence.
Qed.
End admission.

(** ** Defaults and checks *)

Section defaults.
Context `{KubeNet, DefaultingLibs}.

(** Applying the defaults to a spec that has them changes nothing; defaulting
    never changes a network setting that has a value, and in a datacenter that
    enforces audit logging the result has it. *)
Theorem defaulting_stable spec seed s : defaultSpecFields spec seed = Ok s →
  defaultSpecFields s seed = Ok s ∧ network_frozen (sp_clusterNetwork s) (sp_clusterNetwork spec) ∧
  ∃ dc, seed_datacenters seed !! sp_datacenterName s = Some dc ∧
    (ds_enforceAuditLogging (dc_spec dc) = true → sp_auditLogging s = Some (mkAuditLoggingSettings true "")).
Proof.
  intros Hs. pose proof (defaultSpecFields_defaulted _ _ _ Hs) as Hd. split; [by apply defaulted_fixed|].
  split; [|destruct (df_datacenter _ _ Hd) as (dc & ? & _ & ? & _); eauto].
  rewrite (defaultSpecFields_network _ _ _ Hs). apply default_network_frozen.
Qed.

(** A cluster that leaves its networks open gets a configuration that passes the
    checks, with every provider, every CNI plugin and either IP family. *)
Theorem default_network_accepted n provider cni p : network_unset n →
  ValidateClusterNetworkConfig (DefaultClusterNetwork n provider) cni p = [].
Proof. intros Hn. apply ValidateClusterNetworkConfig_iff. exists (dual_of n). by apply default_network_ok. Qed.

(** C22: the checks of a network configuration accept exactly one IPv4 range each for
    pods and services, or one IPv4 range and then one IPv6 range each, as the IP family
    says, with node ranges smaller than the pod range, the DNS domain
    "cluster.local" and a known proxy mode, ebpf only with Cilium and Konnectivity. *)
Theorem network_checks_exact n cni p : ValidateClusterNetworkConfig n cni p = [] ↔ ∃ dual, network_ok n cni dual.
Proof. apply ValidateClusterNetworkConfig_iff. Qed.
End defaults.

(** C21: for an update that leaves the status as it is and does not switch the
    encryption feature, the checks that compare the two clusters accept exactly the
    allowed changes that respect the documented rule for encryption settings.  An
    update that switches the feature off escapes that rule, also while data is
    encrypted: the code calls the check with the clusters exchanged. *)
Theorem update_checks_exact `{SemverLib} new old :
  cl_status new = cl_status old →
  let flag c := map_bool (sp_features (cl_spec c)) ClusterFeatureEncryptionAtRest in
  (flag new = flag old → (validateChange new old = [] ↔ allowed_change new old ∧ encryption_rule old new)) ∧
  (flag old = true → flag new = false → (validateChange new old = [] ↔ allowed_change new old)).
Proof.
  intros Hs flag. rewrite validateChange_iff. split.
  - intros Hf. split; (intros [? ?]; split; [done|]); apply encryption_rule_sym; by symmetry || done.
  - intros Ho Hn. split; [by intros [? _]|]. intros ?. split; [done|]. by apply encryption_rule_off.
Qed.

(** A generated token is valid. *)
Theorem GenerateToken_valid rand6 rand16 :
  length (String.list_ascii_of_string rand6) = 6%nat → length (String.list_ascii_of_string rand16) = 16%nat →
  token_chars (String.list_ascii_of_string rand6) → token_chars (String.list_ascii_of_string rand16) →
  ValidateKubernetesToken (GenerateToken rand6 rand16) = Ok tt.
Proof. apply token_roundtrip. Qed.
