(* ===== verification/UpdateController.v ===== *)
(** * The update controller

    [pkg/controller/seed-controller-manager/update-controller/controller.go]: moves
    a control plane step by step to the version of its spec.  It only writes the
    versions of the status; other controllers roll the components out. *)

From S2P Require Import Prelude ResourceNames Kube Semver ClusterApi Helper VersionManager.

Definition ClusterConditionUpToDate : string := "UpToDate".
Definition ClusterConditionProgressing : string := "Progressing".
Definition ClusterConditionOldNodes : string := "OldNodes".
Definition VersionLabel : string := "app.kubernetes.io/version".

(** The parts of a [ReplicaSet] in use. *)
Record ReplicaSet := mkReplicaSet {
  rs_meta : ObjectMeta;
  rs_replicas : Z;
}.

#[global] Program Instance ReplicaSet_object : Object ReplicaSet := {|
  obj_meta := rs_meta;
  set_meta m r := mkReplicaSet m (rs_replicas r);
|}.
Next Obligation. done. Qed.

Record controlPlaneStatus := mkControlPlaneStatus {
  cps_apiserver : option Semver;
  cps_controllerManager : option Semver;
  cps_scheduler : option Semver;
  cps_nodes : option Semver;
}.

Record UpdateEnv (W : Type) := mkUpdateEnv {
  ue_clusters : Client W Cluster;
  ue_replicaSets : Client W ReplicaSet;
  ue_retry : Retry W;
  ue_now : W → Z * W;
  ue_event : string → string → string → W → W;
  ue_configGetter : M W KubermaticVersioningConfiguration;
  ue_workerName : string;
  ue_versions : Versions;
}.
Arguments ue_clusters {W}.
Arguments ue_replicaSets {W}.
Arguments ue_retry {W}.
Arguments ue_now {W}.
Arguments ue_event {W}.
Arguments ue_configGetter {W}.
Arguments ue_workerName {W}.
Arguments ue_versions {W}.

(** Updates of single versions. *)
Definition with_versions (f : ClusterVersionsStatus → ClusterVersionsStatus) (c : Cluster) : Cluster :=
  set_cl_status (set_versions (f (cs_versions (cl_status c))) (cl_status c)) c.
Definition set_controlPlane (s : Semver) (v : ClusterVersionsStatus) : ClusterVersionsStatus :=
  mkClusterVersionsStatus s (cv_apiserver v) (cv_controllerManager v) (cv_scheduler v) (cv_oldestNodeVersion v).
Definition set_apiserver (s : Semver) (v : ClusterVersionsStatus) : ClusterVersionsStatus :=
  mkClusterVersionsStatus (cv_controlPlane v) s (cv_controllerManager v) (cv_scheduler v) (cv_oldestNodeVersion v).
Definition set_controllerManager (s : Semver) (v : ClusterVersionsStatus) : ClusterVersionsStatus :=
  mkClusterVersionsStatus (cv_controlPlane v) (cv_apiserver v) s (cv_scheduler v) (cv_oldestNodeVersion v).
Definition set_scheduler (s : Semver) (v : ClusterVersionsStatus) : ClusterVersionsStatus :=
  mkClusterVersionsStatus (cv_controlPlane v) (cv_apiserver v) (cv_controllerManager v) s (cv_oldestNodeVersion v).

Definition empty_str (s : string) : bool := String.eqb s "".

Section update.
Context `{L : SemverLib}.

Definition controlPlaneStatus_Equal (s : controlPlaneStatus) (b : option Semver) : bool :=
  Semver_Equal (cps_apiserver s) b && Semver_Equal (cps_controllerManager s) b &&
  Semver_Equal (cps_scheduler s) b.

(** The closure of [setInitialClusterVersions]. *)
Definition fillVersions (spec : Semver) (v : ClusterVersionsStatus) : ClusterVersionsStatus :=
  let v := if empty_str (cv_apiserver v) then set_apiserver spec v else v in
  let v := if empty_str (cv_controlPlane v) then set_controlPlane (cv_apiserver v) v else v in
  let v := if empty_str (cv_controllerManager v) then set_controllerManager spec v else v in
  if empty_str (cv_scheduler v) then set_scheduler spec v else v.

Definition initialVersions (cluster : Cluster) : outcome Cluster :=
  spec ← normalize (Some (sp_version (cl_spec cluster)));
  spec ← deref spec;
  mret (with_versions (fillVersions spec) cluster).

(** *** The running versions *)

Definition hasOwnerRefToAny (m : ObjectMeta) (ownerKind : string) (ownerNames : gset string) : bool :=
  existsb (λ ref, String.eqb (or_kind ref) ownerKind && bool_decide (or_name ref ∈ ownerNames))
    (om_ownerReferences m).

(** A label that does not parse gives a nil version ([NewSemver] returns one with
    its error, which is not tested), and nil is never greater or smaller. *)
Definition oldestStep (oldest : option Semver) (rs : ReplicaSet) : option Semver :=
  if rs_replicas rs =? 0 then oldest else
  let versionLabel := map_str (om_labels (rs_meta rs)) VersionLabel in
  if empty_str versionLabel then oldest else
  let parsedVersion := match NewSemver versionLabel with inl _ => None | inr s => Some s end in
  if bool_decide (oldest = None) || Semver_GreaterThan oldest parsedVersion
  then parsedVersion else oldest.

Definition getOldestAvailableVersion (replicaSets : list ReplicaSet) : outcome (option Semver) :=
  normalize (foldl oldestStep None replicaSets).

(** *** The next version *)

(** Same minor: only the target itself; the last match is kept. *)
Fixpoint selectTarget (targetVersion : Version) (versions : list ManagerVersion)
    (newTarget : option Semver) : outcome (option Semver) :=
  match versions with
  | [] => Ok newTarget
  | version :: rest =>
      v ← deref (mv_version version);
      if ver_Equal v targetVersion then
        s ← NewSemverOrDie (ver_String v);
        selectTarget targetVersion rest (Some s)
      else selectTarget targetVersion rest newTarget
  end.

(** Otherwise: the highest version that is neither above the target nor below
    the current one. *)
Fixpoint selectHighest (currentVersion targetVersion : Version) (versions : list ManagerVersion)
    (newTarget : option Semver) : outcome (option Semver) :=
  match versions with
  | [] => Ok newTarget
  | version :: rest =>
      v ← deref (mv_version version);
      if ver_GreaterThan v targetVersion then selectHighest currentVersion targetVersion rest newTarget
      else if ver_LessThan v currentVersion then selectHighest currentVersion targetVersion rest newTarget
      else
        better ← match newTarget with
                 | None => Ok true
                 | Some t => tv ← deref (Semver_Semver (Some t)); Ok (ver_GreaterThan v tv)
                 end;
        if (better : bool) then
          s ← NewSemverOrDie (ver_String v);
          selectHighest currentVersion targetVersion rest (Some s)
        else selectHighest currentVersion targetVersion rest newTarget
  end.

Definition updateConditions (cluster : Cluster) : list string :=
  if map_bool (sp_features (cl_spec cluster)) ClusterFeatureExternalCloudProvider
  then [ExternalCloudProviderCondition] else [].

Definition getNextApiserverVersion (config : KubermaticVersioningConfiguration) (cluster : Cluster)
    : outcome Semver :=
  let updateManager := NewFromConfiguration config in
  let current := Semver_Semver (Some (cv_apiserver (cs_versions (cl_status cluster)))) in
  let target := Semver_Semver (Some (sp_version (cl_spec cluster))) in
  currentVersion ← deref current;
  versions ← GetPossibleUpdates updateManager (ver_String currentVersion)
               (sp_providerName (cl_spec cluster)) (updateConditions cluster);
  targetVersion ← deref target;
  newTarget ← (if ver_Minor currentVersion =? ver_Minor targetVersion
               then selectTarget targetVersion versions None
               else selectHighest currentVersion targetVersion versions None);
  match newTarget with
  | None => Err (ErrNew "no update available")
  | Some t => n ← normalize (Some t); deref n
  end.

(** *** The node skew check: minors as [int], a 64-bit signed number *)
Definition nodeDistance (nodes controlPlane : option Semver) : outcome Z :=
  n ← deref (Semver_Semver nodes);
  c ← deref (Semver_Semver controlPlane);
  let distance := wrap64 (wrap64 (ver_Minor n) - wrap64 (ver_Minor c)) in
  Ok (if distance <? 0 then wrap64 (- distance) else distance).

Context {W : Type} (env : UpdateEnv W).

Definition updateStatus (cluster : Cluster) (f : Cluster → outcome Cluster) : M W Cluster :=
  UpdateClusterStatus (ue_clusters env) (ue_retry env) cluster (λ c, lift (f c)).

Definition updateVersions (cluster : Cluster) (f : ClusterVersionsStatus → ClusterVersionsStatus) : M W Cluster :=
  updateStatus cluster (λ c, Ok (with_versions f c)).

Definition setClusterCondition (cluster : Cluster) (reason message : string) : M W unit :=
  _ ← UpdateClusterStatus (ue_clusters env) (ue_retry env) cluster
        (SetClusterCondition (ue_now env) (ue_versions env) ClusterConditionUpdateProgress
           ConditionTrue reason message);
  mret tt.

Definition setInitialClusterVersions (cluster : Cluster) : M W Cluster :=
  updateStatus cluster initialVersions.

Definition getReplicaSetsForDeployment (namespace name : string) : M W (list ReplicaSet) :=
  rsList ← c_list (ue_replicaSets env) (mkListOptions namespace []);
  mret (List.filter (λ rs, hasOwnerRefToAny (rs_meta rs) "Deployment" {[name]}) rsList).

Definition currentVersionOf (namespace name : string) : M W (option Semver) :=
  replicaSets ← wrap "failed to get ReplicaSets" (getReplicaSetsForDeployment namespace name);
  lift (getOldestAvailableVersion replicaSets).

Definition getCurrentControlPlaneVersions (cluster : Cluster) : M W controlPlaneStatus :=
  let namespace := cs_namespaceName (cl_status cluster) in
  apiserver ← currentVersionOf namespace ApiserverDeploymentName;
  controllerManager ← currentVersionOf namespace ControllerManagerDeploymentName;
  scheduler ← currentVersionOf namespace SchedulerDeploymentName;
  mret (mkControlPlaneStatus apiserver controllerManager scheduler
          (cv_oldestNodeVersion (cs_versions (cl_status cluster)))).

Definition event (reason message : string) : M W unit := emit (ue_event env "Normal" reason message).

(** Bump a component to the apiserver's version, if it differs. *)
Definition followApiserver (get : ClusterVersionsStatus → Semver)
    (set : Semver → ClusterVersionsStatus → ClusterVersionsStatus) (failure reason message : string)
    (versions : ClusterVersionsStatus) (cluster : Cluster) : M W (Cluster * bool) :=
  if Semver_Equal (Some (cv_apiserver versions)) (Some (get versions)) then mret (cluster, false) else
  cluster ← wrap failure (updateVersions cluster (set (cv_apiserver versions)));
  _ ← event reason (message +:+ cv_apiserver versions +:+ ".");
  mret (cluster, true).

(** From the point where the cluster is healthy and its pods run the versions of
    the status. *)
Definition advance (cluster : Cluster) (cpStatus : controlPlaneStatus) : M W unit :=
  let versions := cs_versions (cl_status cluster) in
  '(cluster, updated1) ← followApiserver cv_controllerManager set_controllerManager
    "failed to update controller-manager version status" "ControllerManagerUpdated"
    "Kubernetes controller-manager was updated to version " versions cluster;
  '(cluster, updated2) ← followApiserver cv_scheduler set_scheduler
    "failed to update scheduler version status" "SchedulerUpdated"
    "Kubernetes scheduler was updated to version " versions cluster;
  if (updated1 : bool) || (updated2 : bool) then mret tt else
  oldNodes ← match cps_nodes cpStatus with
             | None => mret false
             | Some nodes =>
                 distance ← lift (nodeDistance (Some nodes) (Some (cv_controlPlane (cs_versions (cl_status cluster)))));
                 mret (2 <=? distance)
             end;
  if (oldNodes : bool) then setClusterCondition cluster ClusterConditionOldNodes
    ("Update in progress, control plane (v" +:+
     Semver_String (Some (cv_controlPlane (cs_versions (cl_status cluster)))) +:+
     ") is healthy but cluster still has old nodes (v" +:+ Semver_String (cps_nodes cpStatus) +:+ ").") else
  config ← wrap "failed to load KubermaticConfiguration" (ue_configGetter env);
  newVersion ← wrap "failed to determine update path" (lift (getNextApiserverVersion config cluster));
  _ ← wrap "failed to update apiserver version" (updateVersions cluster (set_apiserver newVersion));
  event "ApiserverUpdated" ("Kubernetes apiserver was updated to version " +:+ Semver_String (Some newVersion) +:+ ".").

Definition reconcile (cluster : Cluster) : M W unit :=
  let versions := cs_versions (cl_status cluster) in
  if empty_str (cv_controlPlane versions) || empty_str (cv_apiserver versions) ||
     empty_str (cv_controllerManager versions) || empty_str (cv_scheduler versions) then
    _ ← wrap "failed to set initial cluster status" (setInitialClusterVersions cluster);
    mret tt
  else
  cpStatus ← wrap "failed to determine version status for control plane" (getCurrentControlPlaneVersions cluster);
  spec ← lift (normalize (Some (sp_version (cl_spec cluster))));
  cluster ←
    match cps_apiserver cpStatus with
    | Some apiserver =>
        if Semver_Equal (Some (cv_controlPlane versions)) (Some apiserver) then mret cluster else
        cluster ← wrap "failed to update controller-manager version status"
                    (updateVersions cluster (set_controlPlane apiserver));
        _ ← event "ControlPlaneVersionChanged" ("Cluster control plane has reached version " +:+ apiserver +:+ ".");
        mret cluster
    | None => mret cluster
    end;
  if controlPlaneStatus_Equal cpStatus spec then
    setClusterCondition cluster ClusterConditionUpToDate
      "No update in progress, cluster has reached its desired version." else
  if negb (AllHealthy (cs_extendedHealth (cl_status cluster))) then
    setClusterCondition cluster ClusterConditionProgressing
      "Update in progress, control plane is not yet healthy." else
  let versions := cs_versions (cl_status cluster) in
  if negb (Semver_Equal (cps_apiserver cpStatus) (Some (cv_apiserver versions))) then
    setClusterCondition cluster ClusterConditionProgressing
      "Update in progress, control plane is healthy but apiserver is out-of-sync." else
  if negb (Semver_Equal (cps_controllerManager cpStatus) (Some (cv_controllerManager versions))) then
    setClusterCondition cluster ClusterConditionProgressing
      "Update in progress, control plane is healthy but controller-manager is out-of-sync." else
  if negb (Semver_Equal (cps_scheduler cpStatus) (Some (cv_scheduler versions))) then
    setClusterCondition cluster ClusterConditionProgressing
      "Update in progress, control plane is healthy but scheduler is out-of-sync." else
  advance cluster cpStatus.

Definition Reconcile (request : NamespacedName) : M W (Result * option error) :=
  r ← try (c_get (ue_clusters env) request);
  match r with
  | inl e => if IsNotFound e then mret (emptyResult, None) else mret (emptyResult, Some e)
  | inr cluster =>
      if bool_decide (is_Some (om_deletionTimestamp (cl_meta cluster))) then mret (emptyResult, None) else
      '(result, err) ← ClusterReconcileWrapper (ue_clusters env) (ue_retry env) (ue_now env)
         (ue_workerName env) cluster (ue_versions env) ClusterConditionUpdateControllerReconcilingSuccess
         (reconciled (_ ← reconcile cluster; mret None));
      _ ← match (err : option error) with
          | Some e => emit (ue_event env "Warning" "ReconcilingError" (error_string e))
          | None => mret tt
          end;
      mret (default emptyResult result, err)
  end.
End update.
