(* ===== verification/UpdateControllerSpec.v ===== *)
(** * What the update controller guarantees

    The next version is bounded by the current and the target version and as
    high as possible; the oldest running version is a lower bound of all running
    ones; and the apiserver of a cluster is bumped only from a healthy, settled
    control plane whose nodes can follow. *)

From S2P Require Import Prelude ResourceNames Kube Semver ClusterApi Helper HelperSpec VersionManager UpdateController.

Section pure.
Context `{L : SemverLib, !SemverLaws L}.

(** A spelling that stands for a version: it parses to one of the same
    precedence. *)
Definition denotes (s : Semver) (v : Version) : Prop :=
  ∃ u, Semver_Semver (Some s) = Some u ∧ ver_Compare v u = Eq.

Lemma denotes_String v s : NewSemverOrDie (ver_String v) = Ok s → denotes s v.
Proof.
  destruct (NewSemverOrDie_String v) as (b & H1 & H2 & H3). rewrite H1. intros [= <-]. by exists b.
Qed.

Lemma denotes_normalize s v n : denotes s v → normalize (Some s) = Ok (Some n) → denotes n v.
Proof.
  intros (u & Hu & Hc). destruct (normalize_ok s u Hu) as (b & H1 & H2 & H3). rewrite H1.
  intros [= <-]. exists b. split; [done|]. by eapply Compare_Eq_trans.
Qed.

Lemma ver_le_Eq a b : ver_Compare a b = Eq → ver_le a b ∧ ver_le b a.
Proof. intros E. unfold ver_le. by rewrite (Compare_antisym a b), E. Qed.

(** ** The next version *)

Lemma selectTarget_ok target versions : ∀ t0 t,
  selectTarget target versions t0 = Ok t →
  t = t0 ∨ ∃ mv v s, mv ∈ versions ∧ mv_version mv = Some v ∧ ver_Compare v target = Eq ∧
    t = Some s ∧ denotes s v.
Proof.
  induction versions as [|mv versions IH]; intros t0 t E; simpl in E; [o_inv; by left|].
  apply obind_ok_inv in E as (v & Ev%deref_ok & E).
  destruct (ver_Equal v target) eqn:Ee.
  - apply obind_ok_inv in E as (s & Es%denotes_String & E). apply ver_Equal_spec in Ee.
    right. destruct (IH _ _ E) as [->|(mv' & v' & s' & ? & ?)].
    + exists mv, v, s. set_solver.
    + exists mv', v', s'. set_solver.
  - destruct (IH _ _ E) as [->|(mv' & v' & s' & ? & ?)]; [by left|right].
    exists mv', v', s'. set_solver.
Qed.

(** A candidate between the current and the target version. *)
Definition candidate (current target : Version) (versions : list ManagerVersion) (v : Version) : Prop :=
  (∃ mv, mv ∈ versions ∧ mv_version mv = Some v) ∧ ver_le current v ∧ ver_le v target.

(** The best candidate so far. *)
Definition best_of (P : Version → Prop) (t : option Semver) : Prop :=
  match t with
  | None => ∀ v, ¬ P v
  | Some s => ∃ b, P b ∧ denotes s b ∧ ∀ v, P v → ver_le v b
  end.

Lemma candidate_snoc current target pre mv v x :
  mv_version mv = Some v →
  candidate current target (pre ++ [mv]) x ↔
  candidate current target pre x ∨ x = v ∧ ver_le current v ∧ ver_le v target.
Proof.
  intros Hv. unfold candidate. setoid_rewrite elem_of_app. setoid_rewrite list_elem_of_singleton.
  split; [intros ((m & [?| ->] & ?) & ? & ?); [left|right; simplify_eq]; eauto|].
  intros [((m & ? & ?) & ? & ?)|(-> & ? & ?)]; [eauto 10|]. eauto 10.
Qed.

Lemma best_of_iff (P Q : Version → Prop) t : (∀ v, P v ↔ Q v) → best_of P t → best_of Q t.
Proof. intros HPQ. destruct t; simpl; setoid_rewrite HPQ; done. Qed.

Lemma selectHighest_ok current target rest : ∀ pre t0 t,
  best_of (candidate current target pre) t0 →
  selectHighest current target rest t0 = Ok t →
  best_of (candidate current target (pre ++ rest)) t.
Proof.
  induction rest as [|mv rest IH]; intros pre t0 t Hb E; simpl in E.
  { o_inv. by rewrite app_nil_r. }
  apply obind_ok_inv in E as (v & Ev%deref_ok & E). rewrite cons_middle, app_assoc.
  assert (Hskip : ¬ (ver_le current v ∧ ver_le v target) → best_of (candidate current target (pre ++ [mv])) t0).
  { intros Hn. eapply best_of_iff; [|exact Hb]. intros x. rewrite (candidate_snoc _ _ _ _ _ _ Ev). naive_solver. }
  destruct (ver_GreaterThan v target) eqn:Eg.
  { eapply IH; [|exact E]. apply Hskip. intros [_ Hx%ver_GreaterThan_false]. congruence. }
  destruct (ver_LessThan v current) eqn:El.
  { eapply IH; [|exact E]. apply Hskip. intros [Hx%ver_LessThan_false _]. congruence. }
  apply ver_GreaterThan_false in Eg. apply ver_LessThan_false in El.
  apply obind_ok_inv in E as (better & Ebt & E).
  assert (Hnew : if (better : bool) then ∀ s, denotes s v → best_of (candidate current target (pre ++ [mv])) (Some s)
                 else best_of (candidate current target (pre ++ [mv])) t0).
  { destruct t0 as [s0|]; simpl in Hb.
    - destruct Hb as (b & HPb & (u & Hu & Hub) & Hmax).
      apply obind_ok_inv in Ebt as (tv & Etv%deref_ok & Ebt). simpl in Hu. assert (tv = u) as -> by congruence. injection Ebt as <-.
      destruct (ver_le_Eq _ _ Hub) as [Hbu Hub'].
      destruct (ver_GreaterThan v u) eqn:Ev2.
      + intros s Hs. exists v. apply ver_GreaterThan_le in Ev2.
        split_and!; [apply (candidate_snoc _ _ _ _ _ _ Ev); auto|done|].
        intros x [Hx|[-> _]]%(candidate_snoc _ _ _ _ _ _ Ev); [|reflexivity].
        transitivity b; [by apply Hmax|]. by transitivity u.
      + apply ver_GreaterThan_false in Ev2. exists b.
        split_and!; [apply (candidate_snoc _ _ _ _ _ _ Ev); auto|by exists u|].
        intros x [Hx|[-> _]]%(candidate_snoc _ _ _ _ _ _ Ev); [by apply Hmax|]. by transitivity u.
    - injection Ebt as <-. intros s Hs. exists v.
      split_and!; [apply (candidate_snoc _ _ _ _ _ _ Ev); auto|done|].
      intros x [Hx|[-> _]]%(candidate_snoc _ _ _ _ _ _ Ev); [|reflexivity]. by destruct (Hb x). }
  destruct better.
  - apply obind_ok_inv in E as (s & Es%denotes_String & E). eapply IH; [|exact E]. by apply Hnew.
  - by eapply IH; [|exact E].
Qed.

(** C20: the version the apiserver is moved to is one of the possible updates of
    the running version.  For a target of the same minor it is the target itself;
    otherwise it is the highest possible update that is not above the target and
    not below the running version.  It is written in canonical spelling. *)
Theorem getNextApiserverVersion_spec config cluster s current target :
  Semver_Semver (Some (cv_apiserver (cs_versions (cl_status cluster)))) = Some current →
  Semver_Semver (Some (sp_version (cl_spec cluster))) = Some target →
  getNextApiserverVersion config cluster = Ok s →
  ∃ versions v, GetPossibleUpdates (NewFromConfiguration config) (ver_String current)
      (sp_providerName (cl_spec cluster)) (updateConditions cluster) = Ok versions ∧
    (∃ mv, mv ∈ versions ∧ mv_version mv = Some v) ∧ denotes s v ∧
    if ver_Minor current =? ver_Minor target then ver_Compare v target = Eq
    else ver_le current v ∧ ver_le v target ∧
         ∀ x, candidate current target versions x → ver_le x v.
Proof.
  intros Hc Ht E. unfold getNextApiserverVersion in E. rewrite Hc, Ht in E. cbn [deref] in E.
  apply obind_ok_inv in E as (? & [= <-] & E). apply obind_ok_inv in E as (versions & Ev & E).
  apply obind_ok_inv in E as (? & [= <-] & E). apply obind_ok_inv in E as (t & Et & E).
  exists versions. destruct t as [t|]; [|done].
  apply obind_ok_inv in E as (n & En & E). apply deref_ok in E as ->.
  assert (Hn : ∀ v, denotes t v → denotes s v) by (intros v Hv; by eapply denotes_normalize).
  destruct (ver_Minor current =? ver_Minor target).
  - apply selectTarget_ok in Et as [?|(mv & v & s' & Hin & Hv & Heq & [= <-] & Hd)]; [done|].
    exists v. eauto 10.
  - apply (selectHighest_ok _ _ _ []) in Et as (b & [Hin [Hlo Hhi]] & Hd & Hmax).
    + exists b. split_and!; auto.
    + simpl. intros v [(mv & Hmv & _) _]. by apply not_elem_of_nil in Hmv.
Qed.

(** ** The oldest running version *)

Definition running_version (rs : ReplicaSet) : option Version :=
  let label := map_str (om_labels (rs_meta rs)) VersionLabel in
  if (rs_replicas rs =? 0) || empty_str label then None else Semver_Semver (Some label).

Definition oldest_of (l : list ReplicaSet) (o : option Semver) : Prop :=
  match o with
  | None => ∀ rs, rs ∈ l → running_version rs = None
  | Some s => ∃ v rs, Semver_Semver (Some s) = Some v ∧ rs ∈ l ∧ running_version rs = Some v ∧
                ∀ rs' v', rs' ∈ l → running_version rs' = Some v' → ver_le v v'
  end.

Lemma oldestStep_ok l o rs :
  oldest_of l o → oldest_of (l ++ [rs]) (oldestStep o rs).
Proof.
  intros Ho. unfold oldestStep.
  assert (Hskip : running_version rs = None → oldest_of (l ++ [rs]) o).
  { intros Hr. destruct o as [s|]; simpl in *.
    - destruct Ho as (v & r & Hv & Hin & Hrv & Hmin). exists v, r. split_and!; [done|set_solver|done|].
      intros r' v' [Hr'|Hr']%elem_of_app; [by apply (Hmin r')|].
      apply list_elem_of_singleton in Hr' as ->. congruence.
    - intros r' [Hr'|Hr']%elem_of_app; [by apply Ho|]. by apply list_elem_of_singleton in Hr' as ->. }
  unfold running_version in Hskip. destruct (rs_replicas rs =? 0) eqn:Er; [by apply Hskip|].
  set (label := map_str (om_labels (rs_meta rs)) VersionLabel) in *.
  destruct (empty_str label) eqn:El; [by apply Hskip|]. cbn [orb] in Hskip.
  unfold NewSemver, Semver_Set. destruct (NewVersion label) as [e|v] eqn:Ev.
  - assert (Hn : Semver_GreaterThan o None = false) by (by destruct o). rewrite Hn, orb_false_r.
    case_bool_decide as Hb; [rewrite <- Hb|]; apply Hskip; simpl; by rewrite Ev.
  - assert (Hrv : running_version rs = Some v) by (unfold running_version; fold label; rewrite Er, El; simpl; by rewrite Ev).
    assert (Hself : Semver_Semver (Some label) = Some v) by (simpl; by rewrite Ev).
    destruct o as [s|]; [rewrite bool_decide_false, orb_false_l by done|rewrite bool_decide_true, orb_true_l by done].
    + destruct Ho as (u & r & Hu & Hin & Hru & Hmin).
      assert (Hgt : Semver_GreaterThan (Some s) (Some label) = ver_GreaterThan u v)
        by (unfold Semver_GreaterThan, Semver_cmp; by rewrite Hu, Hself).
      rewrite Hgt.
      destruct (ver_GreaterThan u v) eqn:Eg.
      * apply ver_GreaterThan_le in Eg. exists v, rs. split_and!; [done|set_solver|done|].
        intros r' v' [Hr'|Hr']%elem_of_app Hv'.
        -- transitivity u; [done|]. by apply (Hmin r').
        -- apply list_elem_of_singleton in Hr' as ->. by simplify_eq.
      * apply ver_GreaterThan_false in Eg. exists u, r. split_and!; [done|set_solver|done|].
        intros r' v' [Hr'|Hr']%elem_of_app Hv'; [by apply (Hmin r')|].
        apply list_elem_of_singleton in Hr' as ->. by simplify_eq.
    + exists v, rs. split_and!; [done|set_solver|done|].
      intros r' v' [Hr'|Hr']%elem_of_app Hv'.
      * simpl in Ho. rewrite (Ho r' Hr') in Hv'. done.
      * apply list_elem_of_singleton in Hr' as ->. by simplify_eq.
Qed.

(** The version reported for a component is that of one of its replica sets
    with replicas and a valid version label, and none of them runs an older one;
    nothing is reported exactly when there is none. *)
Theorem getOldestAvailableVersion_spec l :
  ∃ o, getOldestAvailableVersion l = Ok o ∧
    match o with
    | None => ∀ rs, rs ∈ l → running_version rs = None
    | Some s => ∃ v rs, denotes s v ∧ rs ∈ l ∧ running_version rs = Some v ∧
                  ∀ rs' v', rs' ∈ l → running_version rs' = Some v' → ver_le v v'
    end.
Proof.
  assert (Ho : oldest_of l (foldl oldestStep None l)).
  { induction l as [|rs l IH] using rev_ind; [simpl; set_solver|].
    rewrite foldl_app. by apply oldestStep_ok. }
  unfold getOldestAvailableVersion. destruct (foldl oldestStep None l) as [s|]; [|by exists None].
  destruct Ho as (v & rs & Hv & Hin & Hrv & Hmin).
  destruct (normalize_ok s v Hv) as (b & H1 & H2 & H3). exists (Some (ver_String v)). split; [done|].
  exists v, rs. split_and!; [by exists b|done..].
Qed.
End pure.

Section initial.
Context `{L : SemverLib, !SemverLaws L}.

(** On a cluster whose spec has a valid version, the initial status gets all
    four versions: those that were set are kept, the missing ones are the
    canonical spelling of the spec's version (the control plane follows the
    apiserver), and nothing else changes. *)
Theorem initialVersions_spec c v :
  Semver_Semver (Some (sp_version (cl_spec c))) = Some v →
  ∃ c', initialVersions c = Ok c' ∧
    let vs := cs_versions (cl_status c) in let vs' := cs_versions (cl_status c') in
    let or_spec := λ s, if empty_str s then ver_String v else s in
    cv_apiserver vs' = or_spec (cv_apiserver vs) ∧
    cv_controllerManager vs' = or_spec (cv_controllerManager vs) ∧
    cv_scheduler vs' = or_spec (cv_scheduler vs) ∧
    cv_controlPlane vs' = (if empty_str (cv_controlPlane vs) then cv_apiserver vs' else cv_controlPlane vs) ∧
    forallb (λ s, negb (empty_str s)) [cv_controlPlane vs'; cv_apiserver vs'; cv_controllerManager vs'; cv_scheduler vs'] = true ∧
    c' = with_versions (λ _, vs') c.
Proof.
  intros Hv. destruct (normalize_ok _ _ Hv) as (b & Hn & _).
  assert (Hne : empty_str (ver_String v) = false) by (apply String.eqb_neq, String_nonempty).
  exists (with_versions (fillVersions (ver_String v)) c). split; [unfold initialVersions; by rewrite Hn|].
  cbn zeta. unfold with_versions at 1 2 3 4 5 6 7 8 9 10 11 12. cbn [cl_status set_cl_status cs_versions set_versions].
  unfold fillVersions.
  destruct (cs_versions (cl_status c)) as [cp api cm sched old] eqn:Evs. simpl.
  destruct (empty_str api) eqn:E1, (empty_str cp) eqn:E2, (empty_str cm) eqn:E3, (empty_str sched) eqn:E4;
    simpl; repeat (rewrite ?E1, ?E2, ?E3, ?E4, ?Hne; simpl); split_and!; try done;
    unfold with_versions, fillVersions; rewrite Evs; simpl;
    repeat (rewrite ?E1, ?E2, ?E3, ?E4, ?Hne; simpl); done.
Qed.
End initial.

(** ** Runs of the controller *)

(** What a run reads besides the cluster: the versioning configuration and the
    replica sets of each namespace. *)
Record UpdateSite := mkUpdateSite {
  site_config : option KubermaticVersioningConfiguration;
  site_replicaSets : string → list ReplicaSet;
}.

Class UpdateWorld {W} `{SemverLib, WireTime} (env : UpdateEnv W) := {
  uw_clusters :: ClusterWorld (ue_clusters env);
  usite : W → UpdateSite;
  us_config : ∀ w config w', ue_configGetter env w = (Ok config, w') → site_config (usite w) = Some config;
  us_list : ∀ ns w l w', c_list (ue_replicaSets env) (mkListOptions ns []) w = (Ok l, w') →
    site_replicaSets (usite w) ns = l;
  us_keeps_get : ∀ k, keeps usite (c_get (ue_clusters env) k);
  us_keeps_status : ∀ old new, keeps usite (c_status_patch (ue_clusters env) old new);
  us_keeps_now : keeps usite (read (ue_now env));
  us_keeps_event : ∀ t r m, keeps usite (emit (ue_event env t r m));
  us_keeps_list : ∀ o, keeps usite (c_list (ue_replicaSets env) o);
  us_keeps_config : keeps usite (ue_configGetter env);
  uw_now : ∀ k, keeps (cview k) (read (ue_now env));
  uw_event : ∀ k t r m, keeps (cview k) (emit (ue_event env t r m));
  uw_list : ∀ k o, keeps (cview k) (c_list (ue_replicaSets env) o);
  uw_config : ∀ k, keeps (cview k) (ue_configGetter env);
}.
#[export] Hint Resolve uw_now uw_event uw_list uw_config us_keeps_get us_keeps_status us_keeps_now us_keeps_event us_keeps_list us_keeps_config : kkp_frame.

Section runs.
Context {W : Type} `{L : SemverLib, !SemverLaws L, WireTime} (env : UpdateEnv W) `{!UpdateWorld env}.
Implicit Types c v x : Cluster.

Definition versions_of c : ClusterVersionsStatus := cs_versions (cl_status c).

(** Same object but for versions and conditions. *)
Record alike c c' : Prop := {
  al_key : object_key c' = object_key c;
  al_spec : cl_spec c' = cl_spec c;
  al_health : cs_extendedHealth (cl_status c') = cs_extendedHealth (cl_status c);
}.

#[local] Instance alike_preorder : PreOrder alike.
Proof.
  split; [by intros c; split|]. intros a b d [? ? ?] [? ? ?]. split; congruence.
Qed.

Lemma alike_stored rv old c v : alike v c → alike v (stored_cluster rv old c v).
Proof. intros [? ? Hh]. split; [done|done|]. by simpl. Qed.

Lemma merge1_same {A} `{EqDecision A} (old a : A) : merge1 old a a = a.
Proof. unfold merge1. by destruct (decide _). Qed.

Lemma merge1_cases {A} `{EqDecision A} (old new a : A) : merge1 old new a = new ∨ merge1 old new a = a.
Proof. unfold merge1. destruct (decide _); auto. Qed.

(** A version of a field after a write: as before or as requested. *)
Record written (f : ClusterVersionsStatus → ClusterVersionsStatus) (v0 v' : ClusterVersionsStatus) : Prop := {
  wr_controlPlane : cv_controlPlane v' = cv_controlPlane (f v0) ∨ cv_controlPlane v' = cv_controlPlane v0;
  wr_apiserver : cv_apiserver v' = cv_apiserver (f v0) ∨ cv_apiserver v' = cv_apiserver v0;
  wr_controllerManager : cv_controllerManager v' = cv_controllerManager (f v0) ∨ cv_controllerManager v' = cv_controllerManager v0;
  wr_scheduler : cv_scheduler v' = cv_scheduler (f v0) ∨ cv_scheduler v' = cv_scheduler v0;
}.

(** What a successful write of [f] leaves: exactly what was asked for, or the
    merge with the stored versions of a patch computed against their copy. *)
Definition landed (f : ClusterVersionsStatus → ClusterVersionsStatus) (v0 v' : ClusterVersionsStatus) : Prop :=
  v' = f v0 ∨ ∃ old, Versions_DeepCopy v0 = Ok old ∧ v' = merge_versions old (f v0) v0.

Lemma written_refl f vs : written f vs vs.
Proof. split; by right. Qed.
Lemma written_exact f vs : written f vs (f vs).
Proof. split; by left. Qed.
Lemma written_merge f old vs : written f vs (merge_versions old (f vs) vs).
Proof. split; simpl; apply merge1_cases. Qed.
Lemma landed_written f vs vs' : landed f vs vs' → written f vs vs'.
Proof. intros [->|(old & _ & ->)]; [apply written_exact|apply written_merge]. Qed.

(** A control plane version that was written and can be read is the requested one. *)
Lemma landed_controlPlane s (a : Version) vs vs' u :
  Semver_Semver (Some s) = Some a → landed (set_controlPlane s) vs vs' →
  Semver_Semver (Some (cv_controlPlane vs')) = Some u → ver_Compare u a = Eq.
Proof.
  intros Hs [->|(old & Hd & ->)]; [simpl in *; intros Hu; rewrite Hs in Hu; injection Hu as <-; apply Compare_refl|].
  cbn [merge_versions set_controlPlane cv_controlPlane]. unfold merge1. destruct (decide _) as [Hm|_];
    [|intros Hu; rewrite Hs in Hu; injection Hu as <-; apply Compare_refl].
  intros Hu. assert (Ho : Semver_DeepCopy (cv_controlPlane vs) = Ok s).
  { unfold Versions_DeepCopy in Hd. apply obind_ok_inv in Hd as (cp & -> & Hd). f_equal.
    repeat (apply obind_ok_inv in Hd as (? & _ & Hd)). injection Hd as <-. by simpl in Hm. }
  unfold Semver_DeepCopy in Ho. rewrite Hu in Ho. destruct (NewSemverOrDie_String u) as (b & Hn & Hb & Hc).
  unfold Semver_String in Ho. rewrite Hu, Hn in Ho. injection Ho as <-. congruence.
Qed.

Lemma updateVersions_triple (I : W → Prop) k c v w f :
  object_key c = k → cview k w = Some v →
  (∀ w' v', cview k w' = Some v' → alike v v' → written f (versions_of v) (versions_of v') → I w') →
  triple I w (updateVersions env c f)
    (λ x w', ∃ v', cview k w' = Some v' ∧ alike v v' ∧ written f (versions_of v) (versions_of v') ∧
                   alike v x ∧ landed f (versions_of v) (versions_of x)).
Proof.
  intros Hk Hv HI r w' E. unfold updateVersions, updateStatus in E.
  apply (UpdateClusterStatus_inv _ _ k _ c v) in E as [Hu _]; [|intros; frame| |done|done].
  - assert (Hal : ∀ w1 x w2, (lift (Ok (with_versions f v)) : M W Cluster) w1 = (Ok x, w2) →
      x = with_versions f v) by (intros w1 x w2 [= <- _]; done).
    assert (Haf : alike v (with_versions f v)) by done.
    destruct Hu as [Hw Hsame|rv old c1 w3 w4 Hd Hc1 _ Hw Hr].
    + split; [eapply HI; [done|reflexivity|apply written_refl]|].
      intros x Hx. destruct (Hsame x Hx) as (_ & w1 & w2 & _ & ->%Hal & _).
      exists v. split_and!; [done|reflexivity|apply written_refl|done|by left].
    + apply Hal in Hc1 as ->.
      assert (alike v (stored_cluster rv old (with_versions f v) v)) by by apply alike_stored.
      assert (written f (versions_of v) (versions_of (stored_cluster rv old (with_versions f v) v)))
        by apply written_merge.
      assert (landed f (versions_of v) (versions_of (stored_cluster rv old (with_versions f v) v))).
      { right. unfold Cluster_DeepCopy in Hd. apply obind_ok_inv in Hd as (? & _ & Hd).
        apply obind_ok_inv in Hd as (vs & Hvs & Hd). injection Hd as <-. by exists vs. }
      split; [by eapply HI|]. intros x ->%Hr. eauto 10.
  - intros c1 w1 o w2 [= <- _]. split; [done|]. by intros ? [= <-].
Qed.

Lemma setClusterCondition_triple (I : W → Prop) k c v w reason message :
  object_key c = k → cview k w = Some v →
  (∀ w' v', cview k w' = Some v' → alike v v' → versions_of v' = versions_of v → I w') →
  triple I w (setClusterCondition env c reason message) (λ _ w', I w').
Proof.
  intros Hk Hv HI. unfold setClusterCondition.
  eapply (triple_bind _ _ _ _ (λ _ w', I w')); [|intros; by apply triple_ret].
  intros r w' E. apply (UpdateClusterStatus_inv _ _ k _ c v) in E as [Hu _];
    [|intros; unfold SetClusterCondition; frame|apply SetClusterCondition_status_only|done|done].
  assert (HIw : I w'); [|by split].
  destruct Hu as [Hw _|rv old c1 w3 w4 Hd Hc1 _ Hw _].
  - eapply HI; [done|reflexivity|done].
  - assert (Hc : alike v c1 ∧ versions_of c1 = versions_of v).
    { destruct (SetClusterCondition_cases (ue_now env) (ue_versions env) ClusterConditionUpdateProgress
        ConditionTrue reason message v w3) as [(? & _ & _ & _ & _ & _ & E')|(? & ? & _ & E')];
        rewrite Hc1 in E'; injection E' as -> ->; done. }
    destruct Hc as [Hal Hver]. eapply HI; [done|by apply alike_stored|].
    unfold versions_of in *. simpl. rewrite Hver. unfold merge_versions. rewrite !merge1_same.
    by destruct (cs_versions (cl_status v)).
Qed.

(** *** What a bump of the apiserver needs *)

Definition owned_by (deployment : string) (rs : ReplicaSet) : Prop :=
  ∃ ref, ref ∈ om_ownerReferences (rs_meta rs) ∧ or_kind ref = "Deployment" ∧ or_name ref = deployment.

(** [s] is the oldest version that the replica sets of a deployment run. *)
Definition runs (l : list ReplicaSet) (deployment : string) (s : Semver) : Prop :=
  ∃ a rs u, Semver_Semver (Some s) = Some a ∧
    rs ∈ l ∧ owned_by deployment rs ∧ running_version rs = Some u ∧ ver_Compare a u = Eq ∧
    ∀ rs' u', rs' ∈ l → owned_by deployment rs' → running_version rs' = Some u' → ver_le a u'.

(** The minors of two versions differ by at most one; the code compares them as
    signed numbers. *)
Definition close (a b : Semver) : Prop :=
  ∃ va vb, Semver_Semver (Some a) = Some va ∧ Semver_Semver (Some b) = Some vb ∧
    (ver_Minor va < 2 ^ 63 → ver_Minor vb < 2 ^ 63 → Z.abs (ver_Minor va - ver_Minor vb) ≤ 1).

(** When the apiserver of [c] may be set to [nv] at a site. *)
Record may_bump (s : UpdateSite) c (nv : Semver) : Prop := {
  mb_healthy : AllHealthy (cs_extendedHealth (cl_status c)) = true;
  mb_runs : ∀ deployment version,
    (deployment, version) ∈ [(ApiserverDeploymentName, cv_apiserver); (ControllerManagerDeploymentName, cv_controllerManager);
      (SchedulerDeploymentName, cv_scheduler)] →
    runs (site_replicaSets s (cs_namespaceName (cl_status c))) deployment (version (versions_of c));
  mb_cm_settled : Semver_Equal (Some (cv_apiserver (versions_of c))) (Some (cv_controllerManager (versions_of c))) = true;
  mb_scheduler_settled : Semver_Equal (Some (cv_apiserver (versions_of c))) (Some (cv_scheduler (versions_of c))) = true;
  mb_nodes : ∀ nodes, cv_oldestNodeVersion (versions_of c) = Some nodes → close nodes (cv_apiserver (versions_of c));
  mb_next : ∃ config, site_config s = Some config ∧ getNextApiserverVersion config c = Ok nv;
}.

Lemma hasOwnerRef_owned d rs : hasOwnerRefToAny (rs_meta rs) "Deployment" {[d]} = true ↔ owned_by d rs.
Proof.
  unfold hasOwnerRefToAny, owned_by. rewrite existsb_exists. split; intros (ref & Hin & H2); exists ref;
    apply list_elem_of_In in Hin || apply list_elem_of_In; (split; [done|]).
  - apply andb_true_iff in H2 as [Hk Hn%bool_decide_eq_true]. apply String.eqb_eq in Hk. set_solver.
  - destruct H2 as [-> ->]. rewrite String.eqb_refl. apply bool_decide_eq_true. set_solver.
Qed.

(** What the code reads for a component is what its replica sets run. *)
Lemma currentVersionOf_runs ns d w o w' s :
  currentVersionOf env ns d w = (Ok o, w') → Semver_Equal o (Some s) = true →
  runs (site_replicaSets (usite w) ns) d s.
Proof.
  intros E Hs. unfold currentVersionOf in E.
  apply bind_ok_inv in E as (l & w1 & E%wrap_ok_inv & Eo). apply lift_ok_inv in Eo as [Eo _].
  unfold getReplicaSetsForDeployment in E. apply bind_ok_inv in E as (l0 & w2 & El & [= <- <-]).
  rewrite (us_list _ _ _ _ El).
  destruct (getOldestAvailableVersion_spec (List.filter (λ rs, hasOwnerRefToAny (rs_meta rs) "Deployment" {[d]}) l0))
    as (o' & Eo' & Ho). rewrite Eo in Eo'. injection Eo' as <-.
  destruct o as [t|]; [|done]. destruct Ho as (v & rs & (x & Hx & Hxv) & Hin & Hrv & Hmin).
  apply Semver_Equal_spec in Hs as (x' & a & Hx' & Ha & Hxa). rewrite Hx in Hx'. injection Hx' as <-.
  assert (Hav : ver_Compare a v = Eq) by (apply Compare_Eq_sym; by eapply Compare_Eq_trans).
  assert (Hmem : ∀ r, r ∈ List.filter (λ rs, hasOwnerRefToAny (rs_meta rs) "Deployment" {[d]}) l0 ↔ r ∈ l0 ∧ owned_by d r).
  { intros r. rewrite list_elem_of_In, filter_In, <- list_elem_of_In, hasOwnerRef_owned. done. }
  apply Hmem in Hin as [Hin Hown]. exists a, rs, v. split_and!; [done..|].
  intros rs' u' Hr' Ho' Hu'. destruct (ver_le_Eq a v Hav) as [Hle _]. transitivity v; [done|]. apply (Hmin rs'); [by apply Hmem|done].
Qed.

(** The three components of a status that was read at a site. *)
Lemma current_runs c w st w' :
  getCurrentControlPlaneVersions env c w = (Ok st, w') →
  usite w' = usite w ∧ cps_nodes st = cv_oldestNodeVersion (versions_of c) ∧
  ∀ deployment (running : option Semver) s,
    (deployment, running) ∈ [(ApiserverDeploymentName, cps_apiserver st);
      (ControllerManagerDeploymentName, cps_controllerManager st); (SchedulerDeploymentName, cps_scheduler st)] →
    Semver_Equal running (Some s) = true →
    runs (site_replicaSets (usite w) (cs_namespaceName (cl_status c))) deployment s.
Proof.
  intros E. unfold getCurrentControlPlaneVersions in E.
  assert (Hkeep : ∀ ns d, keeps usite (currentVersionOf env ns d))
    by (intros; unfold currentVersionOf, getReplicaSetsForDeployment; frame).
  apply bind_ok_inv in E as (a & w1 & Ea & E). apply bind_ok_inv in E as (m & w2 & Em & E).
  apply bind_ok_inv in E as (d & w3 & Ed & [= <- <-]).
  pose proof (Hkeep _ _ _ _ _ Ea) as H1. pose proof (Hkeep _ _ _ _ _ Em) as H2. pose proof (Hkeep _ _ _ _ _ Ed) as H3.
  split_and!; [congruence|done|]. intros dep o s Hin Hs. simpl in Hin.
  rewrite !elem_of_cons in Hin. destruct Hin as [[= -> ->]|[[= -> ->]|[[= -> ->]|Hin]]].
  - by eapply currentVersionOf_runs.
  - rewrite <- H1. by eapply currentVersionOf_runs.
  - rewrite <- H1, <- H2. by eapply currentVersionOf_runs.
  - by apply elem_of_nil in Hin.
Qed.

(** The node check of the code bounds the distance of the minors. *)
Lemma nodeDistance_close nodes cp api d :
  nodeDistance (Some nodes) (Some cp) = Ok d → d < 2 →
  (∀ u a, Semver_Semver (Some cp) = Some u → Semver_Semver (Some api) = Some a → ver_Compare u a = Eq) →
  is_Some (Semver_Semver (Some api)) → close nodes api.
Proof.
  unfold nodeDistance. intros E Hd Heq [a Ha].
  apply obind_ok_inv in E as (n & En%deref_ok & E). apply obind_ok_inv in E as (u & Eu%deref_ok & E).
  injection E as <-. specialize (Heq u a Eu Ha). apply Compare_Eq_Minor in Heq as [_ Hm].
  exists n, a. split_and!; [done..|]. rewrite <- Hm. intros Hn Hu.
  pose proof (Minor_range n). pose proof (Minor_range u).
  assert (Hw : ∀ z, - 2 ^ 63 ≤ z < 2 ^ 63 → wrap64 z = z).
  { intros z Hz. apply wrap64_small. unfold int64_min, int64_max. lia. }
  rewrite (Hw (ver_Minor n)), (Hw (ver_Minor u)) in Hd by lia. rewrite (Hw (ver_Minor n - ver_Minor u)) in Hd by lia.
  destruct (Z.ltb_spec (ver_Minor n - ver_Minor u) 0); [rewrite Hw in Hd by lia|]; lia.
Qed.

(** The next version depends on the spec and the apiserver's version only. *)
Lemma getNextApiserverVersion_ext config c x :
  cl_spec x = cl_spec c → cv_apiserver (versions_of x) = cv_apiserver (versions_of c) →
  getNextApiserverVersion config x = getNextApiserverVersion config c.
Proof.
  unfold versions_of. intros Hs Ha. unfold getNextApiserverVersion, updateConditions. by rewrite Hs, Ha.
Qed.

(** Versions that a run leaves while it does not touch the apiserver. *)
Record follows (vs vs' : ClusterVersionsStatus) : Prop := {
  fo_apiserver : cv_apiserver vs' = cv_apiserver vs;
  fo_controllerManager : cv_controllerManager vs' = cv_controllerManager vs ∨ cv_controllerManager vs' = cv_apiserver vs;
  fo_scheduler : cv_scheduler vs' = cv_scheduler vs ∨ cv_scheduler vs' = cv_apiserver vs;
}.

Record progress (s : UpdateSite) c c' : Prop := {
  pr_alike : alike c c';
  pr_versions : follows (versions_of c) (versions_of c') ∨
    (cv_controllerManager (versions_of c') = cv_controllerManager (versions_of c) ∧
     cv_scheduler (versions_of c') = cv_scheduler (versions_of c) ∧
     may_bump s c (cv_apiserver (versions_of c')));
}.

Definition inv k c (s : UpdateSite) (w : W) : Prop := ∀ c', cview k w = Some c' → progress s c c'.

Lemma inv_view k c s w w' : cview k w' = cview k w → inv k c s w → inv k c s w'.
Proof. intros E Hi v. rewrite E. apply Hi. Qed.

Lemma update_quiet {A} k c s w (m : M W A) :
  inv k c s w → keeps (cview k) m →
  triple (inv k c s) w m (λ a w', m w = (Ok a, w') ∧ cview k w' = cview k w).
Proof. apply triple_keeps. apply inv_view. Qed.

Lemma follows_inv k c s w v :
  cview k w = Some v → alike c v → follows (versions_of c) (versions_of v) → inv k c s w.
Proof. intros Hv Ha Hf v' Hv'. rewrite Hv in Hv'. injection Hv' as <-. split; [done|by left]. Qed.

(** An object in memory and its stored counterpart while the run follows. *)
Definition tracks k c (w : W) x : Prop :=
  alike c x ∧ follows (versions_of c) (versions_of x) ∧
  ∃ v, cview k w = Some v ∧ alike c v ∧ follows (versions_of c) (versions_of v).

Lemma tracks_inv k c s w x : tracks k c w x → inv k c s w.
Proof. intros (_ & _ & v & ? & ? & ?). by eapply follows_inv. Qed.

Lemma tracks_view k c w w' x : cview k w' = cview k w → tracks k c w x → tracks k c w' x.
Proof. intros E (? & ? & v & ? & ?). split_and!; [done..|]. exists v. by rewrite E. Qed.

Lemma followApiserver_triple k c s get set failure reason message x w :
  object_key c = k → tracks k c w x →
  (∀ vs vs', follows (versions_of c) vs → written (set (cv_apiserver (versions_of c))) vs vs' →
     follows (versions_of c) vs') →
  ∀ vs, cv_apiserver vs = cv_apiserver (versions_of c) →
  triple (inv k c s) w (followApiserver env get set failure reason message vs x)
    (λ '(x', updated) w', tracks k c w' x' ∧
       (updated = false → x' = x ∧ cview k w' = cview k w ∧
          Semver_Equal (Some (cv_apiserver vs)) (Some (get vs)) = true)).
Proof.
  intros Hk Ht Hset vs Hvs. unfold followApiserver.
  destruct (Semver_Equal (Some (cv_apiserver vs)) (Some (get vs))) eqn:Ee.
  { apply triple_ret; [by eapply tracks_inv|]. done. }
  pose proof Ht as (Hax & Hfx & v & Hv & Hav & Hfv).
  eapply triple_bind; [apply triple_wrap, (updateVersions_triple _ k x v)|].
  - by rewrite (al_key _ _ Hax).
  - done.
  - intros w' v' Hv' Ha' Hw'. eapply follows_inv; [done|by transitivity v|]. rewrite Hvs in Hw'. eauto.
  - intros x' w1 (v' & Hv' & Ha' & Hw' & Hax' & Hwx'%landed_written). rewrite Hvs in *.
    assert (Ht1 : tracks k c w1 x').
    { split_and!; [by transitivity v|eauto|]. exists v'. split_and!; [done|by transitivity v|eauto]. }
    eapply triple_bind; [apply update_quiet; [by eapply tracks_inv|unfold event; frame]|].
    intros u w2 [_ Hw2]. assert (tracks k c w2 x') by by eapply tracks_view.
    apply triple_ret; [by eapply tracks_inv|]. done.
Qed.

Lemma follows_controllerManager vs0 vs vs' :
  follows vs0 vs → written (set_controllerManager (cv_apiserver vs0)) vs vs' → follows vs0 vs'.
Proof. intros [Ha Hc Hs] [_ Wa Wc Ws]. simpl in *. split; naive_solver congruence. Qed.

Lemma follows_scheduler vs0 vs vs' :
  follows vs0 vs → written (set_scheduler (cv_apiserver vs0)) vs vs' → follows vs0 vs'.
Proof. intros [Ha Hc Hs] [_ Wa Wc Ws]. simpl in *. split; naive_solver congruence. Qed.

(** Before the first component is bumped: only the control plane version and
    conditions may differ from [c]. *)
Record same_components (vs vs' : ClusterVersionsStatus) : Prop := {
  sc_apiserver : cv_apiserver vs' = cv_apiserver vs;
  sc_controllerManager : cv_controllerManager vs' = cv_controllerManager vs;
  sc_scheduler : cv_scheduler vs' = cv_scheduler vs;
}.
Definition observes k c (w : W) x : Prop :=
  alike c x ∧ same_components (versions_of c) (versions_of x) ∧
  ∃ v, cview k w = Some v ∧ alike c v ∧ same_components (versions_of c) (versions_of v).

Lemma same_follows vs vs' : same_components vs vs' → follows vs vs'.
Proof. intros [? ? ?]. split; auto. Qed.

Lemma observes_tracks k c w x : observes k c w x → tracks k c w x.
Proof. intros (? & ?%same_follows & v & ? & ? & ?%same_follows). split_and!; eauto. Qed.

Lemma observes_inv k c s w x : observes k c w x → inv k c s w.
Proof. intros ?%observes_tracks. by eapply tracks_inv. Qed.

Lemma observes_view k c w w' x : cview k w' = cview k w → observes k c w x → observes k c w' x.
Proof. intros E (? & ? & v & ? & ?). split_and!; [done..|]. exists v. by rewrite E. Qed.

Lemma observes_refl k c w : cview k w = Some c → observes k c w c.
Proof. intros Hv. split_and!; [reflexivity|done|]. exists c. split_and!; [done|reflexivity|done]. Qed.

Lemma condition_triple k c s w x reason message :
  object_key c = k → observes k c w x →
  triple (inv k c s) w (setClusterCondition env x reason message) (λ _ w', inv k c s w').
Proof.
  intros Hk (Hax & _ & v & Hv & Hav & Hsv).
  apply (setClusterCondition_triple _ k x v); [by rewrite (al_key _ _ Hax)|done|].
  intros w' v' Hv' Ha' Hver. eapply follows_inv; [done|by transitivity v|]. rewrite Hver. by apply same_follows.
Qed.

(** The node check passes only when the oldest node is less than two minors away. *)
Lemma node_check_triple k c s st w x :
  observes k c w x →
  triple (inv k c s) w
    (match cps_nodes st with
     | None => mret false
     | Some nodes =>
         distance ← lift (nodeDistance (Some nodes) (Some (cv_controlPlane (cs_versions (cl_status x)))));
         mret (2 <=? distance)
     end)
    (λ old w', cview k w' = cview k w ∧ (old = false → ∀ nodes, cps_nodes st = Some nodes →
       ∃ d, nodeDistance (Some nodes) (Some (cv_controlPlane (versions_of x))) = Ok d ∧ d < 2)).
Proof.
  intros Hobs. destruct (cps_nodes st) as [nodes|]; [|by apply triple_ret; [eapply observes_inv|]].
  eapply triple_bind; [apply update_quiet; [by eapply observes_inv|frame]|].
  intros d w3 [Ed Hw3]. apply lift_ok_inv in Ed as [Ed _].
  apply triple_ret; [by eapply inv_view, observes_inv|]. split; [done|].
  intros Hlt n [= <-]. exists d. split; [done|]. by apply Z.leb_gt.
Qed.

(** Writing the next apiserver version, once it is justified. *)
Lemma bump_triple k c s w x nv message :
  object_key c = k → observes k c w x → may_bump s c nv →
  triple (inv k c s) w
    (_ ← wrap "failed to update apiserver version" (updateVersions env x (set_apiserver nv));
     event env "ApiserverUpdated" message) (λ _ w', inv k c s w').
Proof.
  intros Hk (Hax & _ & v & Hv & Hav & [Va Vc Vs]) Hbump.
  assert (Hfin : ∀ w' v', cview k w' = Some v' → alike v v' →
    written (set_apiserver nv) (versions_of v) (versions_of v') → inv k c s w').
  { intros w' v' Hv' Ha' [_ Wa Wc Ws] y Hy. rewrite Hv' in Hy. injection Hy as <-. simpl in *.
    split; [by transitivity v|]. destruct Wa as [Wa|Wa].
    - right. split_and!; [destruct Wc; congruence|destruct Ws; congruence|by rewrite Wa].
    - left. split; [congruence|left; destruct Wc; congruence|left; destruct Ws; congruence]. }
  eapply triple_bind.
  { apply triple_wrap, (updateVersions_triple _ k x v); [by rewrite (al_key _ _ Hax)|done|exact Hfin]. }
  intros x' w6 (v' & Hv' & Ha' & Hw' & _).
  eapply triple_consequence; [apply update_quiet; [by eapply Hfin|unfold event; frame]|].
  intros [] w7 [_ Hw7]. by eapply inv_view, Hfin.
Qed.

(** Once the recorded control plane version is that of the running apiserver. *)
Definition reached (st : controlPlaneStatus) x : Prop :=
  ∀ api u a, cps_apiserver st = Some api →
    Semver_Semver (Some (cv_controlPlane (versions_of x))) = Some u → Semver_Semver (Some api) = Some a →
    ver_Compare u a = Eq.

Lemma updates_keep_site c f : keeps usite (updateVersions env c f).
Proof. unfold updateVersions, updateStatus, UpdateClusterStatus. apply keeps_retry. frame. Qed.

Lemma follow_keeps_site get set f r m vs c : keeps usite (followApiserver env get set f r m vs c).
Proof. pose proof updates_keep_site. unfold followApiserver, event. frame. Qed.

Lemma advance_triple k c st w x :
  object_key c = k → observes k c w x → reached st x →
  AllHealthy (cs_extendedHealth (cl_status c)) = true →
  cps_nodes st = cv_oldestNodeVersion (versions_of c) →
  Semver_Equal (cps_apiserver st) (Some (cv_apiserver (versions_of c))) = true →
  (∀ deployment version,
    (deployment, version) ∈ [(ApiserverDeploymentName, cv_apiserver); (ControllerManagerDeploymentName, cv_controllerManager);
      (SchedulerDeploymentName, cv_scheduler)] →
    runs (site_replicaSets (usite w) (cs_namespaceName (cl_status c))) deployment (version (versions_of c))) →
  triple (inv k c (usite w)) w (advance env x st) (λ _ w', inv k c (usite w) w').
Proof.
  intros Hk Hobs Hcp Hh Hn Hapi Hruns. unfold advance. fold (versions_of x).
  pose proof Hobs as (Hax & [Ea Ec Es] & _). set (s := usite w) in *.
  eapply triple_bind.
  { apply (triple_and_keeps _ usite), (followApiserver_triple k c s); [apply follow_keeps_site|done|by apply observes_tracks| |done].
    apply follows_controllerManager. }
  intros [x1 u1] w1 [[Ht1 Hu1] Hs1].
  eapply triple_bind.
  { apply (triple_and_keeps _ usite), (followApiserver_triple k c s); [apply follow_keeps_site|done|exact Ht1| |done].
    apply follows_scheduler. }
  intros [x2 u2] w2 [[Ht2 Hu2] Hs2].
  destruct (u1 || u2) eqn:Eu; [apply triple_ret; by eapply tracks_inv|].
  apply orb_false_iff in Eu as [-> ->].
  destruct (Hu1 eq_refl) as (-> & Hw1 & Heq1), (Hu2 eq_refl) as (-> & Hw2 & Heq2).
  assert (Hobs2 : observes k c w2 x) by (eapply observes_view; [|exact Hobs]; congruence).
  clear Ht1 Ht2 Hu1 Hu2 Hobs Hw1 Hw2.
  eapply triple_bind; [apply (triple_and_keeps _ usite); [by destruct (cps_nodes st); frame|by apply (node_check_triple k c s)]|].
  intros old w3 [[Hw3 Hdist] Hs3]. apply (observes_view _ _ _ w3) in Hobs2; [|done].
  destruct old; [by apply condition_triple|]. specialize (Hdist eq_refl).
  eapply triple_bind; [apply update_quiet; [by eapply observes_inv|frame]|].
  intros config w4 [Ec4%wrap_ok_inv%us_config Hw4]. apply (observes_view _ _ _ w4) in Hobs2; [|done].
  eapply triple_bind; [apply update_quiet; [by eapply observes_inv|frame]|].
  intros nv w5 [En Hw5]. apply (observes_view _ _ _ w5) in Hobs2; [|done].
  apply wrap_ok_inv, lift_ok_inv in En as [En _].
  assert (Hbump : may_bump s c nv); [|by apply bump_triple].
  split; [done|done|by rewrite <- Ea, <- Ec|by rewrite <- Ea, <- Es| |].
  - rewrite <- Hn. intros nodes Hnodes. destruct (Hdist nodes Hnodes) as (d & Hd & Hlt).
    apply Semver_Equal_spec in Hapi as (a & a' & Hapi & Ha' & Haa'). destruct (cps_apiserver st) as [api|] eqn:Est; [|done].
    eapply nodeDistance_close; [exact Hd|done| |by eexists].
    intros u b Hu Hb. rewrite Ha' in Hb. injection Hb as <-.
    eapply Compare_Eq_trans; [by eapply Hcp|done].
  - exists config. split; [unfold s; by rewrite <- Hs1, <- Hs2, <- Hs3|]. rewrite <- En. symmetry. apply getNextApiserverVersion_ext; [apply Hax|done].
Qed.

(** Recording that the control plane has reached the version that runs. *)
Definition record_reached st c : M W Cluster :=
  match cps_apiserver st with
  | Some apiserver =>
      if Semver_Equal (Some (cv_controlPlane (versions_of c))) (Some apiserver) then mret c else
      cluster ← wrap "failed to update controller-manager version status"
                  (updateVersions env c (set_controlPlane apiserver));
      _ ← event env "ControlPlaneVersionChanged"
            ("Cluster control plane has reached version " +:+ apiserver +:+ ".");
      mret cluster
  | None => mret c
  end.

Lemma reached_triple k c s st w :
  object_key c = k → cview k w = Some c →
  triple (inv k c s) w (record_reached st c) (λ x w', observes k c w' x ∧ reached st x).
Proof.
  intros Hk Hv. pose proof (observes_refl k c w Hv) as Hobs. unfold record_reached, reached.
  destruct (cps_apiserver st) as [api|]; [|apply triple_ret; [by eapply observes_inv|done]].
  destruct (Semver_Equal _ _) eqn:Eq.
  { apply triple_ret; [by eapply observes_inv|]. split; [done|]. intros ? u a [= <-] Hu Ha.
    apply Semver_Equal_spec in Eq as (? & ? & ? & ? & ?). congruence. }
  assert (Hcp : ∀ vs', written (set_controlPlane api) (versions_of c) vs' → same_components (versions_of c) vs').
  { intros vs' [_ Wa Wc Ws]. simpl in *. split; [by destruct Wa|by destruct Wc|by destruct Ws]. }
  eapply triple_bind; [apply triple_wrap, (updateVersions_triple _ k c c); [done|done|]|].
  - intros w9 v' Hv' Ha Hwr. eapply follows_inv; [done..|]. by apply same_follows, Hcp.
  - intros x w3 (v' & Hv' & Ha & Hwr & Hax & Hwx).
    assert (observes k c w3 x).
    { split_and!; [done|by apply Hcp, landed_written|]. exists v'. split_and!; [done..|by apply Hcp]. }
    eapply triple_bind; [apply update_quiet; [by eapply observes_inv|unfold event; frame]|].
    intros u w4 [_ Hw4]. assert (observes k c w4 x) by by eapply observes_view.
    apply triple_ret; [by eapply observes_inv|]. split; [done|]. intros ? y a [= <-] Hy Hap.
    by eapply landed_controlPlane.
Qed.

Lemma record_keeps_site st c : keeps usite (record_reached st c).
Proof. pose proof updates_keep_site. unfold record_reached, event. frame. Qed.

(** C2: with version information in its status, whatever a run does, also when
    it fails half way, the stored cluster keeps its spec and health; the
    controller-manager and scheduler versions stay or become the apiserver's; and
    the apiserver version changes only to the next version that the versioning
    configuration of the installation gives for this cluster, when the cluster is
    healthy, the oldest version that the replica sets of each of the three
    components run is the one of the status, both other components are at the
    apiserver's version, and the minor of the oldest node is at most one away
    from the apiserver's. *)
Theorem apiserver_bump_safe k c w r w' c' :
  cview k w = Some c →
  forallb (λ s, negb (empty_str s)) [cv_controlPlane (versions_of c); cv_apiserver (versions_of c);
    cv_controllerManager (versions_of c); cv_scheduler (versions_of c)] = true →
  reconcile env c w = (r, w') → cview k w' = Some c' → progress (usite w) c c'.
Proof.
  intros Hv Hne E. pose proof (cview_key k w c Hv) as Hk. revert c'. change (inv k c (usite w) w'). revert r w' E.
  match goal with |- ∀ r w', ?m w = _ → _ => assert (HT : triple (inv k c (usite w)) w m (λ _ w', True)) end;
    [|intros r w' E; by destruct (HT _ _ E)].
  unfold reconcile. fold (versions_of c). simpl in Hne. rewrite !andb_true_iff, !negb_true_iff in Hne.
  destruct Hne as (E1 & E2 & E3 & E4 & _). rewrite E1, E2, E3, E4. cbn [orb].
  assert (Hobs : observes k c w c) by by apply observes_refl.
  eapply triple_bind; [apply update_quiet; [by eapply observes_inv|]|].
  { unfold getCurrentControlPlaneVersions, currentVersionOf, getReplicaSetsForDeployment. frame. }
  intros st w1 [Est%wrap_ok_inv Hw1]. apply current_runs in Est as (Hs1 & Hn & Hruns).
  apply (observes_view _ _ _ w1) in Hobs; [|done].
  eapply triple_bind; [apply (triple_and_keeps _ usite); [|apply update_quiet; [by eapply observes_inv|]]; frame|].
  intros spec w2 [[_ Hw2] Hs2]. apply (observes_view _ _ _ w2) in Hobs; [|done].
  eapply triple_bind; [apply (triple_and_keeps _ usite); [apply record_keeps_site|]|].
  { apply (reached_triple k c (usite w)); [done|congruence]. }
  intros x w3 [[Hx Hcp] Hs3]. pose proof Hx as (Hax & [Ea Ec Es] & _). fold (versions_of x).
  assert (Hcond : ∀ reason message, triple (inv k c (usite w)) w3 (setClusterCondition env x reason message) (λ _ _, True)).
  { intros. eapply triple_consequence; [by apply condition_triple|done]. }
  destruct (controlPlaneStatus_Equal st spec); [apply Hcond|].
  destruct (AllHealthy (cs_extendedHealth (cl_status x))) eqn:Hh; [|apply Hcond].
  rewrite (al_health _ _ Hax) in Hh. cbn [negb]. rewrite Ea, Ec, Es.
  destruct (Semver_Equal (cps_apiserver st) _) eqn:H1; [|apply Hcond].
  destruct (Semver_Equal (cps_controllerManager st) _) eqn:H2; [|apply Hcond].
  destruct (Semver_Equal (cps_scheduler st) _) eqn:H3; [|apply Hcond].
  assert (Hs : usite w = usite w3) by congruence. rewrite Hs.
  eapply triple_consequence; [apply advance_triple; try done|done].
  intros dep version Hin. rewrite <- Hs. rewrite !elem_of_cons in Hin.
  destruct Hin as [[= -> ->]|[[= -> ->]|[[= -> ->]|Hin]]]; [| | |by apply elem_of_nil in Hin];
    (eapply Hruns; [|eassumption]); set_solver.
Qed.
End runs.
