(* ===== verification/ClusterPhase.v ===== *)
(** * The cluster phase controller

    [pkg/controller/seed-controller-manager/cluster-phase-controller/controller.go]:
    derives the phase of a cluster from its other fields. *)

From S2P Require Import Prelude ResourceNames Kube Semver ClusterApi Helper HelperSpec UpdateController.

Record PhaseEnv (W : Type) := mkPhaseEnv {
  pe_clusters : Client W Cluster;
  pe_retry : Retry W;
  pe_event : string → string → string → W → W;
  pe_versions : Versions;
}.
Arguments pe_clusters {W}.
Arguments pe_retry {W}.
Arguments pe_event {W}.
Arguments pe_versions {W}.

Section phase.
Context `{L : SemverLib} {W : Type} (env : PhaseEnv W).

Definition setClusterPhase (cluster : Cluster) (phase : string) : M W unit :=
  _ ← UpdateClusterStatus (pe_clusters env) (pe_retry env) cluster
        (λ c, mret (set_cl_status (set_phase phase (cl_status c)) c));
  mret tt.

Definition phase_reconcile (cluster : Cluster) : M W unit :=
  if bool_decide (is_Some (om_deletionTimestamp (cl_meta cluster)))
  then setClusterPhase cluster ClusterTerminating else
  if negb (IsClusterInitialized cluster (pe_versions env))
  then setClusterPhase cluster ClusterCreating else
  match cs_conditions (cl_status cluster) !! ClusterConditionUpdateProgress with
  | Some cond =>
      if negb (String.eqb (cc_reason cond) ClusterConditionUpToDate)
      then setClusterPhase cluster ClusterUpdating
      else setClusterPhase cluster ClusterRunning
  | None => setClusterPhase cluster ClusterRunning
  end.

Definition phase_Reconcile (request : NamespacedName) : M W (Result * option error) :=
  r ← try (c_get (pe_clusters env) request);
  match r with
  | inl e => if IsNotFound e then mret (emptyResult, None) else mret (emptyResult, Some e)
  | inr cluster =>
      r ← try (phase_reconcile cluster);
      match r with
      | inl e =>
          _ ← emit (pe_event env "Warning" "ReconcilingError" (error_string e));
          mret (emptyResult, Some e)
      | inr _ => mret (emptyResult, None)
      end
  end.
End phase.

(** ** The phase that ends up in the store *)
Section phase_spec.
Context `{L : SemverLib, WireTime} {W : Type} (env : PhaseEnv W) `{!ClusterWorld (pe_clusters env)}.

Definition updating (c : Cluster) : Prop :=
  ∃ cond, cs_conditions (cl_status c) !! ClusterConditionUpdateProgress = Some cond ∧
    cc_reason cond ≠ ClusterConditionUpToDate.

Definition phase_spec (c : Cluster) (phase : string) : Prop :=
  (is_Some (om_deletionTimestamp (cl_meta c)) ∧ phase = ClusterTerminating) ∨
  (om_deletionTimestamp (cl_meta c) = None ∧ IsClusterInitialized c (pe_versions env) = false ∧
     phase = ClusterCreating) ∨
  (om_deletionTimestamp (cl_meta c) = None ∧ IsClusterInitialized c (pe_versions env) = true ∧
     (updating c ∧ phase = ClusterUpdating ∨ ¬ updating c ∧ phase = ClusterRunning)).

Lemma setClusterPhase_stored k c w phase w' :
  cview k w = Some c → setClusterPhase env c phase w = (Ok tt, w') →
  ∃ c', cview k w' = Some c' ∧ cs_phase (cl_status c') = phase ∧ cl_spec c' = cl_spec c.
Proof.
  intros Hv E. unfold setClusterPhase in E. apply bind_ok_inv in E as (x & w1 & E & Er).
  apply ret_ok_inv in Er as [_ <-].
  apply (UpdateClusterStatus_inv _ _ k _ c c) in E as [Hu _]; [|intros; frame| |by eapply cview_key|done].
  - destruct Hu as [Hw Hsame|rv old c1 w3 w4 Hd Hc1 _ Hw Hr].
    + destruct (Hsame x eq_refl) as (old & w3 & w4 & Hd & Hx & Hst). exists c. split_and!; [done| |done].
      apply ret_ok_inv in Hx as [<- _]. unfold Cluster_DeepCopy in Hd. o_inv.
      apply (f_equal cs_phase) in Hst. done.
    + apply ret_ok_inv in Hc1 as [<- _]. eexists. split_and!; [exact Hw|done|done].
  - intros c1 w1' o w2 [= <- _]. split; [done|]. by intros ? [= <-].
Qed.

(** After a successful run the stored phase is Terminating for a deleted
    cluster, Creating for one that was never fully reconciled, Updating while an
    update is in progress and Running otherwise. *)
Theorem phase_stored k c w w' :
  cview k w = Some c → phase_reconcile env c w = (Ok tt, w') →
  ∃ c', cview k w' = Some c' ∧ cl_spec c' = cl_spec c ∧ phase_spec c (cs_phase (cl_status c')).
Proof.
  intros Hv E. unfold phase_reconcile in E.
  assert (Hstore : ∀ p, setClusterPhase env c p w = (Ok tt, w') →
    (phase_spec c p) → ∃ c', cview k w' = Some c' ∧ cl_spec c' = cl_spec c ∧ phase_spec c (cs_phase (cl_status c'))).
  { intros p Ep Hp. destruct (setClusterPhase_stored k c w p w' Hv Ep) as (c' & ? & <- & ?). eauto. }
  case_bool_decide as Hd; [apply (Hstore _ E); left; done|].
  assert (Hnone : om_deletionTimestamp (cl_meta c) = None) by (destruct (om_deletionTimestamp _); [destruct Hd|]; eauto).
  destruct (IsClusterInitialized c (pe_versions env)) eqn:Ei; simpl in E; [|apply (Hstore _ E); right; left; done].
  destruct (cs_conditions (cl_status c) !! ClusterConditionUpdateProgress) as [cond|] eqn:Ec.
  - destruct (String.eqb_spec (cc_reason cond) ClusterConditionUpToDate) as [Er|Er]; simpl in E;
      apply (Hstore _ E); right; right; unfold updating; split_and!; [done..| |done|done|].
    + right. split; [|done]. intros (cond' & ? & ?). congruence.
    + left. split; [|done]. eauto.
  - apply (Hstore _ E). right. right. split_and!; [done..|]. right. split; [|done].
    intros (cond' & Hc & _). congruence.
Qed.

(** A cluster that was once marked initialized never returns to Creating. *)
Lemma initialized_sticky c :
  HasConditionValue (cl_status c) ClusterConditionClusterInitialized ConditionTrue = true →
  ¬ phase_spec c ClusterCreating.
Proof.
  intros Hi [[_ ?]|[(_ & Hn & _)|(_ & _ & [[_ ?]|[_ ?]])]]; try done.
  unfold IsClusterInitialized in Hn. by rewrite Hi in Hn.
Qed.
End phase_spec.
