(* ===== verification/AutoUpdate.v ===== *)
(** * The auto update controller

    [pkg/controller/seed-controller-manager/auto-update-controller/controller.go]:
    applies the automatic update rules to control planes and machine deployments. *)

From S2P Require Import Prelude ResourceNames Kube Semver ClusterApi Helper HelperSpec Corev1 VersionManager.

(** The parts of a [MachineDeployment] in use. *)
Record MachineDeployment := mkMachineDeployment {
  md_meta : ObjectMeta;
  md_kubelet : string;
  md_rest : gmap string string;
}.

#[global] Program Instance MachineDeployment_object : Object MachineDeployment := {|
  obj_meta := md_meta;
  set_meta m d := mkMachineDeployment m (md_kubelet d) (md_rest d);
|}.
Next Obligation. done. Qed.

Record AutoUpdateEnv (W : Type) := mkAutoUpdateEnv {
  ae_clusters : Client W Cluster;
  ae_userClusterClient : Cluster → M W (Client W MachineDeployment);
  ae_retry : Retry W;
  ae_now : W → Z * W;
  ae_event : string → string → string → W → W;
  ae_configGetter : M W KubermaticVersioningConfiguration;
  ae_workerName : string;
  ae_versions : Versions;
}.
Arguments ae_clusters {W}.
Arguments ae_userClusterClient {W}.
Arguments ae_retry {W}.
Arguments ae_now {W}.
Arguments ae_event {W}.
Arguments ae_configGetter {W}.
Arguments ae_workerName {W}.
Arguments ae_versions {W}.

(** Invalidate the health of the components that an update restarts. *)
Definition invalidate (h : ExtendedClusterHealth) : ExtendedClusterHealth :=
  mkExtendedClusterHealth HealthStatusDown HealthStatusDown HealthStatusDown (eh_machineController h)
    (eh_etcd h) (eh_openVPN h) (eh_konnectivity h) (eh_cloudProviderInfrastructure h)
    (eh_userClusterControllerManager h) (eh_gatekeeperController h) (eh_gatekeeperAudit h)
    (eh_monitoring h) (eh_logging h) (eh_alertmanagerConfig h) (eh_mlaGateway h)
    (eh_applicationController h).

Section auto_update.
Context `{L : SemverLib} {W : Type} (env : AutoUpdateEnv W).

Definition auto_event (reason message : string) : M W unit := emit (ae_event env "Normal" reason message).

Definition updateMachineDeployment (c : Client W MachineDeployment) (updateManager : Manager)
    (controlPlane : string) (md : MachineDeployment) : M W unit :=
  targetVersion ← wrap "failed to get automatic update for machinedeployment"
    (lift (AutomaticNodeUpdate updateManager (md_kubelet md) controlPlane));
  match (targetVersion : option ManagerVersion) with
  | None => mret tt
  | Some targetVersion =>
      v ← lift (deref (mv_version targetVersion));
      _ ← wrap "failed to update MachineDeployment"
            (c_update c (mkMachineDeployment (md_meta md) (ver_String v) (md_rest md)));
      auto_event "AutoUpdateMachineDeployment" ("Triggered automatic update of MachineDeployment " +:+
        om_namespace (md_meta md) +:+ "/" +:+ om_name (md_meta md) +:+ " to version " +:+ dq +:+ ver_String v +:+ dq)
  end.

Definition nodeUpdate (cluster : Cluster) (updateManager : Manager) : M W unit :=
  c ← wrap "failed to get usercluster client" (ae_userClusterClient env cluster);
  machineDeployments ← wrap "failed to list MachineDeployments"
    (c_list c (mkListOptions NamespaceSystem []));
  for_range (λ _, updateMachineDeployment c updateManager
    (Semver_String (Some (cv_controlPlane (cs_versions (cl_status cluster)))))) tt machineDeployments.

Definition controlPlaneUpgrade (cluster : Cluster) (updateManager : Manager) : M W Cluster :=
  update ← wrap "failed to get automatic update for cluster"
    (lift (AutomaticControlplaneUpdate updateManager (Semver_String (Some (sp_version (cl_spec cluster))))));
  match (update : option ManagerVersion) with
  | None => mret cluster
  | Some update =>
      oldCluster ← lift (Cluster_DeepCopy cluster);
      v ← lift (deref (mv_version update));
      sver ← lift (match NewSemver (ver_String v) with
                   | inl e => Err (ErrWrap "failed to parse version" e)
                   | inr s => Ok s
                   end);
      cluster ← wrap "failed to update cluster"
        (c_patch (ae_clusters env) oldCluster (set_cl_spec (set_spec_version sver (cl_spec cluster)) cluster));
      _ ← auto_event "AutoUpdateApplied" ("Cluster was automatically updated from v" +:+
            sp_version (cl_spec oldCluster) +:+ " to v" +:+ sp_version (cl_spec cluster) +:+ ".");
      wrap "failed to update cluster status"
        (UpdateClusterStatus (ae_clusters env) (ae_retry env) cluster
           (λ c, mret (set_cl_status (set_health (invalidate (cs_extendedHealth (cl_status c))) (cl_status c)) c)))
  end.

Definition auto_reconcile (cluster : Cluster) : M W (option Result) :=
  if negb (AllHealthy (cs_extendedHealth (cl_status cluster))) then mret None else
  config ← wrap "failed to load KubermaticConfiguration" (ae_configGetter env);
  let updateManager := NewFromConfiguration config in
  cluster ← wrap "failed to update the controlplane" (controlPlaneUpgrade cluster updateManager);
  _ ← wrap "failed to update the controlplane" (nodeUpdate cluster updateManager);
  mret None.

Definition auto_Reconcile (request : NamespacedName) : M W (Result * option error) :=
  r ← try (c_get (ae_clusters env) request);
  match r with
  | inl e => if IsNotFound e then mret (emptyResult, None) else mret (emptyResult, Some e)
  | inr cluster =>
      '(result, err) ← ClusterReconcileWrapper (ae_clusters env) (ae_retry env) (ae_now env)
         (ae_workerName env) cluster (ae_versions env) ClusterConditionUpdateControllerReconcilingSuccess
         (reconciled (auto_reconcile cluster));
      _ ← match (err : option error) with
          | Some e => emit (ae_event env "Warning" "ReconcilingError" (error_string e))
          | None => mret tt
          end;
      mret (default emptyResult result, err)
  end.
End auto_update.

(** ** One update at a time *)

(** A patch of the main resource whose base is a copy of the stored object: the
    version is written when it differs from the (normalized) version of the base,
    the rest of the spec as it is sent, and the answer is the stored object. *)
Class AutoUpdateWorld {W} `{SemverLib, WireTime} (env : AutoUpdateEnv W) := {
  aw_clusters :: ClusterWorld (ae_clusters env);
  aw_event : ∀ k t r m, keeps (cview k) (emit (ae_event env t r m));
  aw_patch : ∀ old new stored w x w',
    cview (object_key new) w = Some stored → Cluster_DeepCopy stored = Ok old →
    c_patch (ae_clusters env) old new w = (Ok x, w') →
    object_key x = object_key new ∧ cview (object_key new) w' = Some x ∧
    sp_version (cl_spec x) =
      merge1 (sp_version (cl_spec old)) (sp_version (cl_spec new)) (sp_version (cl_spec stored));
}.
#[export] Hint Resolve aw_event : kkp_frame.

Section auto_spec.
Context `{L : SemverLib, !SemverLaws L, WireTime} {W : Type} (env : AutoUpdateEnv W) `{!AutoUpdateWorld env}.

Lemma invalidate_unhealthy h : AllHealthy (invalidate h) = false.
Proof. unfold AllHealthy, ControlPlaneHealthy. simpl. by rewrite !andb_false_r. Qed.

(** What the version of a stored spec is after it was copied, set to [ver] and
    patched. *)
Lemma merged_version c old ver :
  Cluster_DeepCopy c = Ok old →
  ∃ b, Semver_Semver (Some (merge1 (sp_version (cl_spec old)) (ver_String ver) (sp_version (cl_spec c)))) = Some b ∧
    ver_Compare ver b = Eq.
Proof.
  intros Hd. destruct (parse_String ver) as (b & Hb & Hbc & _). unfold merge1.
  case_decide as Heq; [|exists b; simpl; by rewrite Hb].
  assert (Hv : Semver_DeepCopy (sp_version (cl_spec c)) = Ok (ver_String ver)).
  { rewrite <- Heq. unfold Cluster_DeepCopy in Hd. o_inv. done. }
  unfold Semver_DeepCopy in Hv. destruct (Semver_Semver (Some (sp_version (cl_spec c)))) as [sv|] eqn:Es.
  - exists sv. split; [done|]. unfold Semver_String in Hv. rewrite Es in Hv.
    destruct (NewSemverOrDie_String sv) as (b' & H1 & H2 & H3). rewrite H1 in Hv. injection Hv as Hv.
    rewrite Hv in H2. simpl in H2. rewrite Hb in H2. injection H2 as <-.
    eapply Compare_Eq_trans; [done|by apply Compare_Eq_sym].
  - injection Hv as Hv. by destruct (String_nonempty ver).
Qed.

(** An automatic control plane update writes the target of the one matching
    automatic rule into the spec and leaves the stored cluster unhealthy, so that
    no further update is applied before the control plane reports healthy again;
    a cluster that is not healthy is left alone altogether. *)
Theorem automatic_update_once k c manager w x w' from u :
  NewVersion (Semver_String (Some (sp_version (cl_spec c)))) = inr from →
  List.filter (rule_matches false from) (m_updates manager) = [u] →
  cview k w = Some c → controlPlaneUpgrade env c manager w = (Ok x, w') →
  ∃ v' target, cview k w' = Some v' ∧ NewVersion (u_to u) = inr target ∧
    (∃ ver, Semver_Semver (Some (sp_version (cl_spec v'))) = Some ver ∧ ver_Compare ver target = Eq) ∧
    ∀ w1, auto_reconcile env v' w1 = (Ok None, w1).
Proof.
  intros Hf Hu Hst E. pose proof (cview_key _ _ _ Hst) as Hk. unfold controlPlaneUpgrade in E.
  apply bind_ok_inv in E as (upd & w1 & Eu%wrap_ok_inv & E). apply lift_ok_inv in Eu as [Eu <-].
  pose proof (automaticUpdate_inv _ _ false _ _ Hf Eu) as Hspec. rewrite Hu in Hspec.
  destruct Hspec as (mv & ver & target & -> & _ & Hver & Ht & Hcmp).
  apply bind_ok_inv in E as (old & w2 & Eo & E). apply lift_ok_inv in Eo as [Eo <-].
  apply bind_ok_inv in E as (ver' & w2 & Ev & E). apply lift_ok_inv in Ev as [Ev%deref_ok <-].
  assert (ver' = ver) as -> by congruence.
  apply bind_ok_inv in E as (s & w2 & Es & E). apply lift_ok_inv in Es as [Es <-].
  destruct (parse_String ver) as (b & Hb & Hbc & _).
  unfold NewSemver, Semver_Set in Es. rewrite Hb in Es. injection Es as <-.
  apply bind_ok_inv in E as (c1 & w2 & Ep%wrap_ok_inv & E).
  apply (aw_patch _ _ c) in Ep as (Hk1 & Hv1 & Hs1); [|by rewrite <- Hk in Hst|done].
  destruct (merged_version c old ver Eo) as (b' & Hb' & Hc').
  assert (Hkey : object_key (set_cl_spec (set_spec_version (ver_String ver) (cl_spec c)) c) = k) by done.
  rewrite Hkey in Hk1, Hv1.
  apply bind_ok_inv in E as ([] & w3 & Ee & E). unfold auto_event in Ee.
  pose proof (aw_event k _ _ _ _ _ _ Ee) as Hw3. rewrite Hv1 in Hw3.
  apply wrap_ok_inv in E. apply (UpdateClusterStatus_inv _ _ k _ c1 c1) in E as [Hupd _];
    [|intros; frame| |done|done].
  - assert (Hgoal : ∀ v', cview k w' = Some v' → cl_spec v' = cl_spec c1 →
      AllHealthy (cs_extendedHealth (cl_status v')) = false →
      ∃ v' target, cview k w' = Some v' ∧ NewVersion (u_to u) = inr target ∧
      (∃ ver, Semver_Semver (Some (sp_version (cl_spec v'))) = Some ver ∧ ver_Compare ver target = Eq) ∧
      ∀ w1, auto_reconcile env v' w1 = (Ok None, w1)).
    { intros v' Hv' Hsp Hh. exists v', target. split_and!; [done..| |].
      - rewrite Hsp, Hs1. exists b'. split; [done|].
        eapply Compare_Eq_trans; [by apply Compare_Eq_sym|done].
      - intros w9. unfold auto_reconcile. by rewrite Hh. }
    destruct Hupd as [Hw Hsame|rv old' c2 w4 w5 Hd Hc2 _ Hw _].
    + destruct (Hsame x eq_refl) as (old' & w4 & w5 & Hd & Hx & Hsts).
      apply ret_ok_inv in Hx as [<- _]. apply (Hgoal c1); [done..|].
      unfold Cluster_DeepCopy in Hd. o_inv. apply (f_equal cs_extendedHealth) in Hsts. simpl in Hsts.
      rewrite Hsts. apply invalidate_unhealthy.
    + apply ret_ok_inv in Hc2 as [<- _]. eapply Hgoal; [exact Hw|done|]. apply invalidate_unhealthy.
  - intros c2 w4 o w5 [= <- _]. split; [done|]. by intros ? [= <-].
Qed.
End auto_spec.
