(* ===== verification/Reconciling.v ===== *)
(** * Ensuring objects

    [pkg/resources/reconciling/ensure.go]: create or update one named object from
    a creator function.  The semantic comparison of objects ([DeepEqual]), the
    reset of a workload's status and [wait.PollImmediate] are arguments. *)

From S2P Require Import Prelude Kube.

Definition set_name (name : string) (m : ObjectMeta) : ObjectMeta :=
  mkObjectMeta name (om_namespace m) (om_uid m) (om_labels m) (om_annotations m) (om_finalizers m)
    (om_ownerReferences m) (om_creationTimestamp m) (om_deletionTimestamp m) (om_resourceVersion m).
Definition set_namespace (ns : string) (m : ObjectMeta) : ObjectMeta :=
  mkObjectMeta (om_name m) ns (om_uid m) (om_labels m) (om_annotations m) (om_finalizers m)
    (om_ownerReferences m) (om_creationTimestamp m) (om_deletionTimestamp m) (om_resourceVersion m).
Definition set_uid (uid : string) (m : ObjectMeta) : ObjectMeta :=
  mkObjectMeta (om_name m) (om_namespace m) uid (om_labels m) (om_annotations m) (om_finalizers m)
    (om_ownerReferences m) (om_creationTimestamp m) (om_deletionTimestamp m) (om_resourceVersion m).

Section ensure.
Context {W O : Type} `{Object O} (client : Client W O) (DeepEqual : O → O → bool)
  (resetStatus : O → O) (PollImmediate : M W bool → M W unit).

Definition ObjectCreator : Type := O → outcome O.

Definition createWithNamespace (rawcreate : ObjectCreator) (namespace : string) : ObjectCreator := λ existing,
  obj ← rawcreate existing; mret (set_meta (set_namespace namespace (obj_meta obj)) obj).
Definition createWithName (rawcreate : ObjectCreator) (name : string) : ObjectCreator := λ existing,
  obj ← rawcreate existing; mret (set_meta (set_name name (obj_meta obj)) obj).

(** [OwnerRefWrapper] of [wrapper.go]. *)
Definition OwnerRefWrapper (ref : OwnerReference) (create : ObjectCreator) : ObjectCreator := λ existing,
  obj ← create existing; mret (set_meta (set_ownerReferences [ref] (obj_meta obj)) obj).

(** The two polled conditions never fail, they answer yes or no. *)
Definition waitUntilUpdateIsInCache (key : NamespacedName) (oldObj : O) : M W bool :=
  r ← try (c_get client key);
  match r with
  | inl _ => mret false
  | inr currentObj => mret (negb (DeepEqual currentObj oldObj))
  end.
Definition WaitUntilObjectExistsInCache (key : NamespacedName) : M W bool :=
  r ← try (c_get client key);
  match r with inl _ => mret false | inr _ => mret true end.

Definition EnsureNamedObject (key : NamespacedName) (rawcreate : ObjectCreator) (emptyObject : O)
    (requiresRecreate : bool) : M W unit :=
  let create := createWithName (createWithNamespace rawcreate (key_namespace key)) (key_name key) in
  r ← try (c_get client key);
  match r with
  | inl e =>
      if negb (IsNotFound e) then throw (ErrWrap "failed to get Object" e) else
      obj ← wrap "failed to generate object" (lift (create emptyObject));
      _ ← wrap "failed to create" (c_create client obj);
      wrap "failed waiting for the cache to contain our newly created object"
        (PollImmediate (WaitUntilObjectExistsInCache key))
  | inr existingObject =>
      obj ← wrap "failed to build Object" (lift (create existingObject));
      if DeepEqual obj existingObject then mret tt else
      _ ← (if negb requiresRecreate then
             wrap "failed to update object" (c_update client (resetStatus obj))
           else
             _ ← wrap "failed to delete object" (c_delete client obj);
             wrap "failed to create object"
               (c_create client (set_meta (set_uid "" (set_resourceVersion "" (obj_meta obj))) obj)));
      wrap "failed waiting for the cache to contain our latest changes"
        (PollImmediate (waitUntilUpdateIsInCache key existingObject))
  end.

(** A creator that agrees with what is stored. *)
Definition up_to_date (key : NamespacedName) (rawcreate : ObjectCreator) (existing : O) : Prop :=
  ∃ obj, createWithName (createWithNamespace rawcreate (key_namespace key)) (key_name key) existing = Ok obj ∧
    DeepEqual obj existing = true.

(** Ensuring an object whose creator agrees with the stored one only reads:
    whatever view of the world reading keeps, ensuring keeps; and a missing object
    is created under exactly the requested key. *)
Theorem EnsureNamedObject_spec {X} (v : W → X) key rawcreate emptyObject recreate w :
  (∀ k, keeps v (c_get client k)) →
  (∀ existing w1, c_get client key w = (Ok existing, w1) → up_to_date key rawcreate existing →
     EnsureNamedObject key rawcreate emptyObject recreate w = (Ok tt, w1) ∧ v w1 = v w) ∧
  (∀ e w1 obj, c_get client key w = (Err e, w1) → IsNotFound e = true → rawcreate emptyObject = Ok obj →
     ∃ obj', object_key obj' = key ∧
       EnsureNamedObject key rawcreate emptyObject recreate w =
         (_ ← wrap "failed to create" (c_create client obj');
          wrap "failed waiting for the cache to contain our newly created object"
            (PollImmediate (WaitUntilObjectExistsInCache key))) w1).
Proof.
  intros Hget. unfold EnsureNamedObject. split.
  - intros existing w1 E (obj & Hc & Hd). split; [|by eapply Hget].
    unfold mbind at 1, M_MBind, M_bind, try. rewrite E.
    unfold mbind, M_bind, wrap, lift. rewrite Hc, Hd. done.
  - intros e w1 obj E Hnf Hc. eexists. split.
    2: { unfold mbind at 1, M_MBind, M_bind at 1, try. rewrite E, Hnf. simpl negb. cbv iota.
         unfold mbind at 1, M_bind at 1, wrap at 1, lift, createWithName, createWithNamespace.
         rewrite Hc. simpl. reflexivity. }
    unfold object_key. rewrite !obj_meta_set. simpl. by destruct key.
Qed.
End ensure.
