(* ===== verification/ClusterDeletion.v ===== *)
(** * Deletion of clusters

    [pkg/clusterdeletion]: what the cluster controller does with a cluster that is
    being deleted.  Finalizers on the cluster record what is still to be cleaned up;
    each run does a part of the work and removes the finalizers of what is done. *)

From S2P Require Import Prelude ResourceNames Kube Semver Net CloudApi ClusterApi Corev1 Reconciling EtcdBackup.

(** ** Objects of the user cluster *)

Record Service := mkService { svc_meta : ObjectMeta; svc_type : string }.
#[global] Program Instance Service_object : Object Service := {|
  obj_meta := svc_meta;
  set_meta m s := mkService m (svc_type s);
|}.
Next Obligation. done. Qed.

Record PersistentVolume := mkPersistentVolume { pv_meta : ObjectMeta; pv_reclaimPolicy : string }.
#[global] Program Instance PersistentVolume_object : Object PersistentVolume := {|
  obj_meta := pv_meta;
  set_meta m p := mkPersistentVolume m (pv_reclaimPolicy p);
|}.
Next Obligation. done. Qed.

(** A pod with the claim of each of its volumes, if the volume is one. *)
Record UserPod := mkUserPod { up_meta : ObjectMeta; up_volumeClaims : list (option string) }.
#[global] Program Instance UserPod_object : Object UserPod := {|
  obj_meta := up_meta;
  set_meta m p := mkUserPod m (up_volumeClaims p);
|}.
Next Obligation. done. Qed.

Record Event := mkEvent { evt_involvedUID : string; evt_reason : string }.

Record WebhookRule := mkWebhookRule {
  wr_operations : list string;
  wr_apiGroups : list string;
  wr_apiVersions : list string;
  wr_resources : list string;
  wr_scope : option string;
}.
Record ValidatingWebhook := mkValidatingWebhook {
  vw_name : string;
  vw_url : option string;
  vw_rules : list WebhookRule;
  vw_failurePolicy : option string;
  vw_sideEffects : option string;
  vw_admissionReviewVersions : list string;
  vw_rest : gmap string string;
}.
Record ValidatingWebhookConfiguration := mkValidatingWebhookConfiguration {
  vwc_meta : ObjectMeta;
  vwc_webhooks : list ValidatingWebhook;
}.
#[global] Program Instance VWC_object : Object ValidatingWebhookConfiguration := {|
  obj_meta := vwc_meta;
  set_meta m v := mkValidatingWebhookConfiguration m (vwc_webhooks v);
|}.
Next Obligation. done. Qed.

(** ** Constants *)

Definition NodeDeletionFinalizer : string := "kubermatic.k8c.io/delete-nodes".
Definition InClusterPVCleanupFinalizer : string := "kubermatic.k8c.io/cleanup-in-cluster-pv".
Definition InClusterLBCleanupFinalizer : string := "kubermatic.k8c.io/cleanup-in-cluster-lb".
Definition CredentialsSecretsCleanupFinalizer : string := "kubermatic.k8c.io/cleanup-credentials-secrets".
Definition EtcdBackupConfigCleanupFinalizer : string := "kubermatic.k8c.io/cleanup-etcdbackupconfigs".
Definition GatekeeperConstraintCleanupFinalizer : string := "kubermatic.k8c.io/cleanup-gatekeeper-constraints".
Definition KubermaticConstraintCleanupFinalizer : string := "kubermatic.k8c.io/cleanup-kubermatic-constraints".
Definition ClusterRoleBindingsCleanupFinalizer : string := "kubermatic.k8c.io/cleanup-cluster-role-bindings".

Definition deletedLBAnnotationName : string := "kubermatic.k8c.io/cleaned-up-loadbalancers".
Definition eventReasonDeletedLoadBalancer : string := "DeletedLoadBalancer".
Definition annotationKeyDescription : string := "description".
Definition AnnDynamicallyProvisioned : string := "pv.kubernetes.io/provisioned-by".
Definition KubermaticNamespace : string := "kubermatic".
Definition CredentialPrefix : string := "credential".

(** Of [corev1] and of the machine controller. *)
Definition ServiceTypeLoadBalancer : string := "LoadBalancer".
Definition PersistentVolumeReclaimDelete : string := "Delete".
Definition SkipEvictionAnnotationKey : string := "kubermatic.io/skip-eviction".

Definition GetSecretName (cluster : Cluster) : string :=
  let cloud := sp_cloud (cl_spec cluster) in
  let named provider := CredentialPrefix +:+ "-" +:+ provider +:+ "-" +:+ cl_name cluster in
  if is_some (cd_aws cloud) then named "aws"
  else if is_some (cd_azure cloud) then named "azure"
  else if is_some (cd_digitalocean cloud) then named "digitalocean"
  else if is_some (cd_gcp cloud) then named "gcp"
  else if is_some (cd_hetzner cloud) then named "hetzner"
  else if is_some (cd_openstack cloud) then named "openstack"
  else if is_some (cd_packet cloud) then named "packet"
  else if is_some (cd_kubevirt cloud) then named "kubevirt"
  else if is_some (cd_vsphere cloud) then named "vsphere"
  else if is_some (cd_alibaba cloud) then named "alibaba"
  else if is_some (cd_anexia cloud) then named "anexia"
  else if is_some (cd_nutanix cloud) then named "nutanix"
  else if is_some (cd_vmwareCloudDirector cloud) then named "vmware-cloud-director"
  else "".

(** ** Sets of strings in an annotation *)

(** [strings.Split(s, ",")]. *)
Fixpoint split_comma (s : string) : list string :=
  match s with
  | "" => [""]
  | String c rest =>
      match split_comma rest with
      | [] => [String c ""]
      | x :: l => if is_char c "," then "" :: x :: l else String c x :: l
      end
  end.
Definition parseStringSet (l : string) : gset string :=
  list_to_set (List.filter (λ item, negb (String.eqb item "")) (split_comma l)).
Definition encodeStringSet `{StringSets} (s : gset string) : string := strings_Join (set_List s) ",".

(** ** Preventing new volumes *)

(** An intentionally defunct webhook, so that all creations fail. *)
Definition emptyWebhook : ValidatingWebhook := mkValidatingWebhook "" None [] None None [] ∅.
Definition creationPreventingWebhook (apiGroup : string) (resources : list string)
    : string * (ValidatingWebhookConfiguration → outcome ValidatingWebhookConfiguration) :=
  ("kubernetes-cluster-cleanup-" +:+ strings_Join resources "-", λ vwc,
   let meta := set_annotations (<[annotationKeyDescription :=
     "This webhook configuration exists to prevent creation of any new stateful resources in a cluster that is currently being terminated"]>
     (om_annotations (vwc_meta vwc))) (vwc_meta vwc) in
   let '(first, scope) :=
     match vwc_webhooks vwc with
     | [w] => (w, match vw_rules w with r :: _ => wr_scope r | [] => None end)
     | _ => (emptyWebhook, None)
     end in
   Ok (mkValidatingWebhookConfiguration meta
     [mkValidatingWebhook "kubernetes.cluster.cleanup" (Some "https://127.0.0.1:1")
        [mkWebhookRule ["CREATE"] [apiGroup] ["*"] resources scope] (Some "Fail") (Some "None") ["v1"] (vw_rest first)])).

(** ** Environment *)

(** A client of the user cluster at the types in use; events are selected by the UID
    of the object they are about. *)
Record UserClient (W : Type) := mkUserClient {
  ucl_services : Client W Service;
  ucl_nodes : Client W MetaObject;
  ucl_machineDeployments : Client W MetaObject;
  ucl_machineSets : Client W MetaObject;
  ucl_machines : Client W MetaObject;
  ucl_pvcs : Client W MetaObject;
  ucl_pvs : Client W PersistentVolume;
  ucl_pods : Client W UserPod;
  ucl_webhooks : Client W ValidatingWebhookConfiguration;
  ucl_events : string → M W (list Event);
}.
Arguments ucl_services {W}.
Arguments ucl_nodes {W}.
Arguments ucl_machineDeployments {W}.
Arguments ucl_machineSets {W}.
Arguments ucl_machines {W}.
Arguments ucl_pvcs {W}.
Arguments ucl_pvs {W}.
Arguments ucl_pods {W}.
Arguments ucl_webhooks {W}.
Arguments ucl_events {W}.

(** The [Deletion] struct, with the libraries it calls: the clock, [wait.Poll] and
    [wait.PollImmediate], [meta.IsNoMatchError], the comparison of webhook
    configurations, and the order in which a set is ranged over. *)
Record Deletion (W : Type) := mkDeletion {
  dn_clusters : Client W Cluster;
  dn_constraints : Client W MetaObject;
  dn_deleteAllConstraints : string → M W unit;
  dn_backupConfigs : Client W EtcdBackupConfig;
  dn_secrets : Client W Secret;
  dn_userClusterClientGetter : M W (UserClient W);
  dn_retry : Retry W;
  dn_now : M W Z;
  dn_poll : M W bool → M W unit;
  dn_pollImmediate : M W bool → M W unit;
  dn_isNoMatchError : error → bool;
  dn_webhookEqual : ValidatingWebhookConfiguration → ValidatingWebhookConfiguration → bool;
  dn_range : gset string → list string;
}.
Arguments dn_clusters {W}.
Arguments dn_constraints {W}.
Arguments dn_deleteAllConstraints {W}.
Arguments dn_backupConfigs {W}.
Arguments dn_secrets {W}.
Arguments dn_userClusterClientGetter {W}.
Arguments dn_retry {W}.
Arguments dn_now {W}.
Arguments dn_poll {W}.
Arguments dn_pollImmediate {W}.
Arguments dn_isNoMatchError {W}.
Arguments dn_webhookEqual {W}.
Arguments dn_range {W}.

Section deletion.
Context `{SemverLib, StringSets} {W : Type} (d : Deletion W).

Definition inNamespace (ns : string) : ListOptions := mkListOptions ns [].
Definition everything : ListOptions := mkListOptions "" [].

Definition removeClusterFinalizers (cluster : Cluster) (finalizers : list string) : M W Cluster :=
  TryRemoveFinalizer (dn_clusters d) (dn_retry d) cluster finalizers.

(** [if err := f(); err != nil && !allowed(err) { return err }] *)
Definition unless {A} (allowed : error → bool) (m : M W A) (default : A) : M W A :=
  r ← try m;
  match r with
  | inl e => if allowed e then mret default else throw e
  | inr a => mret a
  end.

(** *** Constraints *)

Definition cleanupConstraints (cluster : Cluster) : M W Cluster :=
  let ns := cs_namespaceName (cl_status cluster) in
  if String.eqb ns "" then mret cluster else
  _ ← dn_deleteAllConstraints d ns;
  constraintList ← c_list (dn_constraints d) (inNamespace ns);
  _ ← for_range (λ _ constraint,
        _ ← wrap "failed to remove constraint finalizer"
              (TryRemoveFinalizer (dn_constraints d) (dn_retry d) constraint [GatekeeperConstraintCleanupFinalizer]);
        mret tt) tt constraintList;
  removeClusterFinalizers cluster [KubermaticConstraintCleanupFinalizer].

(** *** Load balancers *)

(** The polled condition: whether the UID is in the annotation of the cluster. *)
Definition lbRecorded (cluster : Cluster) (uid : string) : M W bool :=
  latestCluster ← c_get (dn_clusters d) (mkKey "" (cl_name cluster));
  mret (strings_Contains (map_str (om_annotations (cl_meta latestCluster)) deletedLBAnnotationName) uid).

Definition set_deletedLBs (s : gset string) (cluster : Cluster) : Cluster :=
  set_meta (set_annotations (<[deletedLBAnnotationName := encodeStringSet s]> (om_annotations (cl_meta cluster)))
    (cl_meta cluster)) cluster.
Definition deletedLBs (cluster : Cluster) : string := map_str (om_annotations (cl_meta cluster)) deletedLBAnnotationName.

Definition cleanupLB (user : UserClient W) (service : Service) (cluster : Cluster) : M W Cluster :=
  _ ← wrap "failed to delete service" (c_delete (ucl_services user) service);
  oldCluster ← lift (Cluster_DeepCopy cluster);
  let uid := om_uid (svc_meta service) in
  let cluster := set_deletedLBs ({[uid]} ∪ parseStringSet (deletedLBs cluster)) cluster in
  cluster ← wrap "failed to update cluster when trying to add UID of deleted LoadBalancer"
              (c_patch (dn_clusters d) oldCluster cluster);
  _ ← wrap "failed to wait for deletedLBAnnotation to appear in the lister" (dn_poll d (lbRecorded cluster uid));
  mret cluster.

Definition cleanupLBs (cluster : Cluster) : M W (bool * Cluster) :=
  user ← dn_userClusterClientGetter d;
  serviceList ← wrap "failed to list Service's from user cluster" (c_list (ucl_services user) everything);
  for_range (λ '(deletedSomeLBs, cluster) service,
    if negb (String.eqb (svc_type service) ServiceTypeLoadBalancer) then mret (deletedSomeLBs, cluster) else
    cluster ← wrap "failed to delete service inside user cluster" (cleanupLB user service cluster);
    mret (true, cluster)) (false, cluster) serviceList.

Definition is_inTree (cluster : Cluster) : bool :=
  let cloud := sp_cloud (cl_spec cluster) in
  is_some (cd_aws cloud) || is_some (cd_azure cloud) || is_some (cd_openstack cloud).

Definition dropReported (user : UserClient W) (remaining : gset string) (deletedLB : string) : M W (gset string) :=
  events ← wrap "failed to get service events" (ucl_events user deletedLB);
  mret (if existsb (λ e, String.eqb (evt_reason e) eventReasonDeletedLoadBalancer) events
        then remaining ∖ {[deletedLB]} else remaining).

Definition checkIfAllLoadbalancersAreGone (cluster : Cluster) : M W (bool * Cluster) :=
  if negb (is_inTree cluster) then mret (true, cluster) else
  if String.eqb (deletedLBs cluster) "" then mret (true, cluster) else
  let deletedLoadBalancers := parseStringSet (deletedLBs cluster) in
  deletion ← lift (deref (om_deletionTimestamp (cl_meta cluster)));
  now ← dn_now d;
  if deletion + 7200 * Second <? now then mret (true, cluster) else
  user ← dn_userClusterClientGetter d;
  remaining ← for_range (dropReported user) deletedLoadBalancers (dn_range d deletedLoadBalancers);
  oldCluster ← lift (Cluster_DeepCopy cluster);
  cluster ← wrap "failed to update cluster" (c_patch (dn_clusters d) oldCluster (set_deletedLBs remaining cluster));
  mret (negb (bool_decide (remaining = ∅)), cluster).

(** *** Volumes *)

Definition disablePVCreation (user : UserClient W) : M W unit :=
  let '(name, create) := creationPreventingWebhook "" ["persistentvolumes"; "persistentvolumeclaims"] in
  wrap "failed to create ValidatingWebhookConfiguration to prevent creation of PVs/PVCs"
    (wrap "failed to ensure ValidatingWebhookConfiguration"
      (EnsureNamedObject (ucl_webhooks user) (dn_webhookEqual d) id (dn_pollImmediate d) (mkKey "" name)
        (createWithName (createWithNamespace create "") name) (mkValidatingWebhookConfiguration emptyMeta []) false)).

Definition podUsesPV (p : UserPod) : bool := existsb is_some (up_volumeClaims p).

Definition cleanupPVCUsingPods (user : UserClient W) : M W unit :=
  podList ← wrap "failed to list Pods from user cluster" (c_list (ucl_pods user) everything);
  for_range (λ _ pod, wrap "failed to delete pod" (unless IsNotFound (c_delete (ucl_pods user) pod) tt)) tt
    (List.filter podUsesPV podList).

(** Dynamically provisioned volumes that their provisioner will delete. *)
Definition awaited (pv : PersistentVolume) : bool :=
  negb (String.eqb (map_str (om_annotations (pv_meta pv)) AnnDynamicallyProvisioned) "") &&
  String.eqb (pv_reclaimPolicy pv) PersistentVolumeReclaimDelete.

Definition cleanupVolumes (cluster : Cluster) : M W bool :=
  user ← dn_userClusterClientGetter d;
  _ ← wrap "failed to disable future PV & PVC creation" (disablePVCreation user);
  pvcList ← wrap "failed to list PVCs from user cluster" (c_list (ucl_pvcs user) everything);
  allPVList ← wrap "failed to list PVs from user cluster" (c_list (ucl_pvs user) everything);
  let pvList := List.filter awaited allPVList in
  match pvcList, pvList with
  | [], [] => mret false
  | _, _ =>
      _ ← wrap "failed to clean up PV using pod from user cluster" (cleanupPVCUsingPods user);
      _ ← for_range (λ _ pvc, wrap "failed to delete PVC from user cluster"
            (unless IsNotFound (c_delete (ucl_pvcs user) pvc) tt)) tt pvcList;
      mret true
  end.

Definition cleanupInClusterResources (cluster : Cluster) : M W Cluster :=
  let shouldDeleteLBs := HasFinalizer (cl_meta cluster) [InClusterLBCleanupFinalizer] in
  let shouldDeletePVs := HasFinalizer (cl_meta cluster) [InClusterPVCleanupFinalizer] in
  if negb shouldDeleteLBs && negb shouldDeletePVs then mret cluster else
  '(deletedSomeLBs, cluster) ←
     (if shouldDeleteLBs then wrap "failed to cleanup LBs" (cleanupLBs cluster) else mret (false, cluster));
  deletedSomeVolumes ←
     (if shouldDeletePVs then wrap "failed to cleanup PVs" (cleanupVolumes cluster) else mret false);
  if deletedSomeLBs || deletedSomeVolumes then mret cluster else
  '(lbsAreGone, cluster) ← wrap "failed to check if all Loadbalancers are gone" (checkIfAllLoadbalancersAreGone cluster);
  if negb lbsAreGone then mret cluster else
  removeClusterFinalizers cluster [InClusterLBCleanupFinalizer; InClusterPVCleanupFinalizer].

(** *** Backup configurations *)

Definition cleanupEtcdBackupConfigs (cluster : Cluster) : M W Cluster :=
  if negb (HasFinalizer (cl_meta cluster) [EtcdBackupConfigCleanupFinalizer]) then mret cluster else
  backupConfigs ← wrap "failed to get EtcdBackupConfigs"
                    (c_list (dn_backupConfigs d) (inNamespace (cs_namespaceName (cl_status cluster))));
  match backupConfigs with
  | [] => removeClusterFinalizers cluster [EtcdBackupConfigCleanupFinalizer]
  | _ =>
      _ ← for_range (λ _ backupConfig, wrap "failed to delete EtcdBackupConfig" (c_delete (dn_backupConfigs d) backupConfig))
            tt backupConfigs;
      mret cluster
  end.

(** *** Nodes *)

Definition skipEviction (user : UserClient W) (node : MetaObject) : M W unit :=
  let annotations := om_annotations (mo_meta node) in
  if String.eqb (map_str annotations SkipEvictionAnnotationKey) "true" then mret tt else
  _ ← wrap "failed to add the annotation to node"
        (c_patch (ucl_nodes user) node
          (set_meta (set_annotations (<[SkipEvictionAnnotationKey := "true"]> annotations) (mo_meta node)) node));
  mret tt.

(** The objects of one kind in [kube-system], none if the kind is unknown; whether
    there were any, in which case all are deleted. *)
Definition deleteAll (client : Client W MetaObject) (listMsg deleteMsg : string) : M W bool :=
  items ← wrap listMsg (unless (dn_isNoMatchError d) (c_list client (inNamespace NamespaceSystem)) []);
  match items with
  | [] => mret false
  | _ => _ ← for_range (λ _ item, wrap deleteMsg (c_delete client item)) tt items; mret true
  end.

Definition cleanupNodes (cluster : Cluster) : M W Cluster :=
  if negb (HasFinalizer (cl_meta cluster) [NodeDeletionFinalizer]) then mret cluster else
  user ← dn_userClusterClientGetter d;
  nodes ← wrap "failed to get user cluster nodes" (c_list (ucl_nodes user) everything);
  _ ← for_range (λ _ node, skipEviction user node) tt nodes;
  someDeployments ← deleteAll (ucl_machineDeployments user) "failed to list MachineDeployments" "failed to delete MachineDeployment";
  if (someDeployments : bool) then mret cluster else
  someSets ← deleteAll (ucl_machineSets user) "failed to list MachineSets" "failed to delete MachineSet";
  if (someSets : bool) then mret cluster else
  someMachines ← deleteAll (ucl_machines user) "failed to get Machines" "failed to delete Machine";
  if (someMachines : bool) then mret cluster else
  removeClusterFinalizers cluster [NodeDeletionFinalizer].

(** *** Role bindings and credentials *)

Definition cleanupClusterRoleBindings (cluster : Cluster) : M W Cluster :=
  removeClusterFinalizers cluster [ClusterRoleBindingsCleanupFinalizer].

Definition deleteSecret (cluster : Cluster) : M W unit :=
  let secretName := GetSecretName cluster in
  if String.eqb secretName "" then mret tt else
  r ← try (c_get (dn_secrets d) (mkKey KubermaticNamespace secretName));
  match r with
  | inl e => if IsNotFound e then mret tt else throw (ErrWrap "failed to get Secret" e)
  | inr secret => wrap "failed to delete Secret" (c_delete (dn_secrets d) secret)
  end.

Definition cleanUpCredentialsSecrets (cluster : Cluster) : M W Cluster :=
  _ ← deleteSecret cluster;
  removeClusterFinalizers cluster [CredentialsSecretsCleanupFinalizer].

(** *** All of it *)

Definition CleanupCluster (cluster : Cluster) : M W Cluster :=
  cluster ← cleanupConstraints cluster;
  cluster ← cleanupInClusterResources cluster;
  if HasAnyFinalizer (cl_meta cluster) [InClusterLBCleanupFinalizer; InClusterPVCleanupFinalizer] then mret cluster else
  cluster ← cleanupEtcdBackupConfigs cluster;
  cluster ← cleanupNodes cluster;
  cluster ← cleanupClusterRoleBindings cluster;
  if HasFinalizer (cl_meta cluster) [NodeDeletionFinalizer] then mret cluster else
  if HasOnlyFinalizer (cl_meta cluster) CredentialsSecretsCleanupFinalizer then cleanUpCredentialsSecrets cluster
  else mret cluster.
End deletion.
