(* ===== verification/ClusterDeletionSpec.v ===== *)
(** * Deletion of clusters: order and evidence

    What a run of [CleanupCluster] may do: it removes a finalizer only with evidence
    that what the finalizer stands for is gone, and touches machines, backup
    configurations and credentials only in their order. *)

From S2P Require Import Prelude ResourceNames Kube Semver Net CloudApi ClusterApi Corev1 Reconciling EtcdBackup ClusterDeletion.

(** ** What finalizers are about *)

(** The tables of the seed and the user cluster that deletion empties: services that
    are load balancers, claims, volumes that a provisioner deletes, the three kinds of
    the machine controller, backup configurations, credentials, and constraints. *)
Inductive kind := KServices | KClaims | KVolumes | KDeployments | KSets | KMachines | KConfigs | KSecrets | KConstraints.
#[global] Instance kind_eq_dec : EqDecision kind.
Proof. solve_decision. Defined.

(** What a run only reads: which deleted load balancers the events of the user cluster
    report, and the time of the run. *)
Record Site := mkSite { si_reported : string → bool; si_clock : Z }.

Record Tables (T : Type) := mkTables {
  tb_services : T; tb_claims : T; tb_volumes : T; tb_deployments : T; tb_sets : T; tb_machines : T; tb_configs : T; tb_secrets : T;
  tb_constraints : T; tb_site : Site;
}.
Arguments mkTables {T}.
Arguments tb_services {T}.
Arguments tb_claims {T}.
Arguments tb_volumes {T}.
Arguments tb_deployments {T}.
Arguments tb_sets {T}.
Arguments tb_machines {T}.
Arguments tb_configs {T}.
Arguments tb_secrets {T}.
Arguments tb_constraints {T}.
Arguments tb_site {T}.
Definition tab {T} (k : kind) (t : Tables T) : T :=
  match k with
  | KServices => tb_services t | KClaims => tb_claims t | KVolumes => tb_volumes t | KDeployments => tb_deployments t
  | KSets => tb_sets t | KMachines => tb_machines t | KConfigs => tb_configs t | KSecrets => tb_secrets t
  | KConstraints => tb_constraints t
  end.

(** ** The API servers *)

(** The view of a world: the stored clusters and the tables; [empty] says whether a
    table has nothing to wait for in a namespace, or at all for the empty one. *)
Section laws.
Context {W T : Type} (stored : W → gmap NamespacedName Cluster) (tables : W → Tables T) (empty : kind → string → T → bool).

Definition view (w : W) : gmap NamespacedName Cluster * Tables T := (stored w, tables w).

(** A computation that changes one table at most. *)
Definition only (k : kind) {A} (m : M W A) : Prop := ∀ w r w', m w = (r, w') →
  stored w' = stored w ∧ tb_site (tables w') = tb_site (tables w) ∧ ∀ j, j ≠ k → tab j (tables w') = tab j (tables w).

(** A client of objects that no finalizer is about. *)
Record quiet_client {O} (c : Client W O) : Prop := {
  qc_get : ∀ k, keeps view (c_get c k);
  qc_list : ∀ o, keeps view (c_list c o);
  qc_create : ∀ o, keeps view (c_create c o);
  qc_update : ∀ o, keeps view (c_update c o);
  qc_patch : ∀ o n, keeps view (c_patch c o n);
  qc_delete : ∀ o, keeps view (c_delete c o);
}.

(** Listing one of the kinds; a kind that the server does not know has no objects. *)
Definition lists {O} (noMatch : error → bool) (k : kind) (c : Client W O) (ns : string) (counts : O → bool) : Prop :=
  ∀ w r w', c_list c (inNamespace ns) w = (r, w') → view w' = view w ∧
    (∀ l, r = Ok l → empty k ns (tab k (tables w)) = negb (existsb counts l)) ∧
    (∀ e, r = Err e → noMatch e = true → empty k ns (tab k (tables w)) = true).

Record UserLaws (noMatch : error → bool) (u : UserClient W) : Prop := {
  ul_nodes : quiet_client (ucl_nodes u);
  ul_pods : quiet_client (ucl_pods u);
  ul_webhooks : quiet_client (ucl_webhooks u);
  ul_services : lists noMatch KServices (ucl_services u) "" (λ s, String.eqb (svc_type s) ServiceTypeLoadBalancer);
  ul_services_delete : ∀ o, only KServices (c_delete (ucl_services u) o);
  ul_claims : lists noMatch KClaims (ucl_pvcs u) "" (λ _, true);
  ul_claims_delete : ∀ o, only KClaims (c_delete (ucl_pvcs u) o);
  ul_volumes : lists noMatch KVolumes (ucl_pvs u) "" awaited;
  ul_deployments : lists noMatch KDeployments (ucl_machineDeployments u) NamespaceSystem (λ _, true);
  ul_deployments_delete : ∀ o, only KDeployments (c_delete (ucl_machineDeployments u) o);
  ul_sets : lists noMatch KSets (ucl_machineSets u) NamespaceSystem (λ _, true);
  ul_sets_delete : ∀ o, only KSets (c_delete (ucl_machineSets u) o);
  ul_machines : lists noMatch KMachines (ucl_machines u) NamespaceSystem (λ _, true);
  ul_machines_delete : ∀ o, only KMachines (c_delete (ucl_machines u) o);
  ul_events : ∀ uid, keeps view (ucl_events u uid);
  ul_reported : ∀ uid w l w', ucl_events u uid w = (Ok l, w') →
    existsb (λ e, String.eqb (evt_reason e) eventReasonDeletedLoadBalancer) l = si_reported (tb_site (tables w)) uid;
}.
End laws.

(** What the server stores for an update by [c] of [s]: the status stays as it was. *)
Record updated (s c c' : Cluster) : Prop := {
  up_key : object_key c' = object_key s;
  up_finalizers : om_finalizers (cl_meta c') = om_finalizers (cl_meta c);
  up_namespace : cs_namespaceName (cl_status c') = cs_namespaceName (cl_status s);
  up_cloud : sp_cloud (cl_spec c') = sp_cloud (cl_spec c);
  up_annotations : om_annotations (cl_meta c') = om_annotations (cl_meta c);
  up_deletion : om_deletionTimestamp (cl_meta c') = om_deletionTimestamp (cl_meta s);
}.
(** And for a merge patch of [s] that only names annotations. *)
Record patched (s c' : Cluster) : Prop := {
  pt_key : object_key c' = object_key s;
  pt_finalizers : om_finalizers (cl_meta c') = om_finalizers (cl_meta s);
  pt_namespace : cs_namespaceName (cl_status c') = cs_namespaceName (cl_status s);
  pt_cloud : sp_cloud (cl_spec c') = sp_cloud (cl_spec s);
  pt_deletion : om_deletionTimestamp (cl_meta c') = om_deletionTimestamp (cl_meta s);
}.
(** What is returned is what is stored, as far as deletion looks at it. *)
Record same_cluster (c' x : Cluster) : Prop := {
  sc_key : object_key x = object_key c';
  sc_finalizers : om_finalizers (cl_meta x) = om_finalizers (cl_meta c');
  sc_namespace : cs_namespaceName (cl_status x) = cs_namespaceName (cl_status c');
  sc_cloud : sp_cloud (cl_spec x) = sp_cloud (cl_spec c');
  sc_annotations : om_annotations (cl_meta x) = om_annotations (cl_meta c');
  sc_deletion : om_deletionTimestamp (cl_meta x) = om_deletionTimestamp (cl_meta c');
}.

(** The servers: nobody else writes during a run, which takes no time; an update that
    removes the last finalizer removes the cluster; a patch that says nothing about
    finalizers keeps the stored ones; deleting all constraints of a namespace leaves
    none there that is not being deleted ([empty] for constraints), and nothing the
    run does to constraints undoes that. *)
Class DeletionWorld {W} (d : Deletion W) := {
  dw_T : Type;
  dw_stored : W → gmap NamespacedName Cluster;
  dw_tables : W → Tables dw_T;
  dw_empty : kind → string → dw_T → bool;
  dw_view := view dw_stored dw_tables;
  dw_getter : keeps dw_view (dn_userClusterClientGetter d);
  dw_user : ∀ w u w', dn_userClusterClientGetter d w = (Ok u, w') →
    UserLaws dw_stored dw_tables dw_empty (dn_isNoMatchError d) u;
  dw_now : ∀ w r w', dn_now d w = (r, w') → dw_view w' = dw_view w ∧ r = Ok (si_clock (tb_site (dw_tables w)));
  dw_poll : ∀ X (v : W → X) cond, keeps v cond → keeps v (dn_poll d cond);
  dw_pollImmediate : ∀ X (v : W → X) cond, keeps v cond → keeps v (dn_pollImmediate d cond);
  dw_constraint_get : ∀ k, keeps dw_view (c_get (dn_constraints d) k);
  dw_constraint_list : ∀ o, keeps dw_view (c_list (dn_constraints d) o);
  dw_constraint_update : ∀ o, only dw_stored dw_tables KConstraints (c_update (dn_constraints d) o);
  dw_constraint_updated : ∀ o ns w r w', c_update (dn_constraints d) o w = (r, w') →
    dw_empty KConstraints ns (tab KConstraints (dw_tables w)) = true → dw_empty KConstraints ns (tab KConstraints (dw_tables w')) = true;
  dw_deleteConstraints : ∀ ns, only dw_stored dw_tables KConstraints (dn_deleteAllConstraints d ns);
  dw_deletedConstraints : ∀ ns w u w', dn_deleteAllConstraints d ns w = (Ok u, w') →
    dw_empty KConstraints ns (tab KConstraints (dw_tables w')) = true;
  dw_configs : ∀ ns, lists dw_stored dw_tables dw_empty (λ _, false) KConfigs (dn_backupConfigs d) ns (λ _, true);
  dw_configs_delete : ∀ o, only dw_stored dw_tables KConfigs (c_delete (dn_backupConfigs d) o);
  dw_secret_get : ∀ k, keeps dw_view (c_get (dn_secrets d) k);
  dw_secret_delete : ∀ o, only dw_stored dw_tables KSecrets (c_delete (dn_secrets d) o);
  dw_key : ∀ w k c, dw_stored w !! k = Some c → object_key c = k;
  dw_get : ∀ k w r w', c_get (dn_clusters d) k w = (r, w') → dw_view w' = dw_view w ∧
    (∀ c, r = Ok c → dw_stored w !! k = Some c) ∧ (∀ e, r = Err e → IsNotFound e = true → dw_stored w !! k = None);
  dw_update : ∀ c w r w', c_update (dn_clusters d) c w = (r, w') → dw_tables w' = dw_tables w ∧
    (dw_stored w' = dw_stored w ∧ (∀ x, r ≠ Ok x) ∨
     (∀ e, r = Err e → IsConflict e = false) ∧
     ∃ s c', dw_stored w !! object_key c = Some s ∧ updated s c c' ∧ (∀ x, r = Ok x → same_cluster c' x) ∧
       (dw_stored w' = <[object_key c := c']> (dw_stored w) ∨
        om_finalizers (cl_meta c) = [] ∧ dw_stored w' = delete (object_key c) (dw_stored w)));
  dw_patch : ∀ old new w r w', c_patch (dn_clusters d) old new w = (r, w') →
    om_finalizers (cl_meta old) = om_finalizers (cl_meta new) → dw_tables w' = dw_tables w ∧
    (dw_stored w' = dw_stored w ∧ (∀ x, r ≠ Ok x) ∨
     ∃ s c', dw_stored w !! object_key new = Some s ∧ patched s c' ∧ (∀ x, r = Ok x → same_cluster c' x) ∧
       dw_stored w' = <[object_key new := c']> (dw_stored w));
  dw_range : ∀ s x, x ∈ dn_range d s ↔ x ∈ s;
}.

(** Whether an event reports a deleted load balancer, and the time. *)
Definition dw_reported {W} (d : Deletion W) `{!DeletionWorld d} (w : W) (uid : string) : bool := si_reported (tb_site (dw_tables w)) uid.
Definition dw_clock {W} (d : Deletion W) `{!DeletionWorld d} (w : W) : Z := si_clock (tb_site (dw_tables w)).

(** No load balancer is known whose deletion has to be waited for. *)
Definition no_awaited_lbs (x : Cluster) : Prop := is_inTree x = false ∨ deletedLBs x = "".

Lemma triple_loop {W S A} (I : W → Prop) (f : S → A → M W S) (J : list A → S → W → Prop) :
  (∀ done s a w, I w → J done s w → triple I w (f s a) (J (done ++ [a]))) →
  ∀ l done s w, I w → J done s w → triple I w (for_range f s l) (J (done ++ l)).
Proof.
  intros Hf l. induction l as [|a l IH]; intros done s w HI HJ; simpl; [rewrite app_nil_r; by apply triple_ret|].
  intros r w'. unfold mbind, M_MBind, M_bind. destruct (f s a w) as [o w1] eqn:E.
  destruct (Hf _ _ _ _ HI HJ _ _ E) as [HI1 HQ].
  destruct o as [s1|e|m|]; [|intros [= <- <-]; by split..]. intros E1.
  specialize (IH (done ++ [a]) s1 w1 HI1 (HQ s1 eq_refl) r w' E1). by rewrite <- app_assoc in IH.
Qed.

(** ** Waiting for the load balancers *)

Section waiting.
Context `{SemverLib, StringSets} {W : Type} (d : Deletion W) `{!DeletionWorld d}.

Definition reports (w v : W) : Prop := dw_tables v = dw_tables w.

Lemma quiet_reports {A} w v (m : M W A) : keeps dw_view m → reports w v →
  triple (reports w) v m (λ a v', m v = (Ok a, v')).
Proof.
  unfold reports. intros Hm Hv r v' E. pose proof (Hm _ _ _ E) as Hk. injection Hk as _ Hr. split; [congruence|]. intros a ->. exact E.
Qed.

Lemma dropReported_triple u w v s uid : UserLaws dw_stored dw_tables dw_empty (dn_isNoMatchError d) u → reports w v →
  triple (reports w) v (dropReported u s uid) (λ s' _, ∀ x, x ∈ s' ↔ x ∈ s ∧ (x = uid → dw_reported d w uid = false)).
Proof.
  intros Hu Hv. unfold dropReported. eapply triple_seq; [apply triple_wrap, quiet_reports; [apply Hu|exact Hv]|].
  cbn beta. intros l v1 Hv1 E. apply triple_ret; [done|]. rewrite (ul_reported _ _ _ _ _ Hu _ _ _ _ E), Hv. intros x.
  change (si_reported (tb_site (dw_tables w)) uid) with (dw_reported d w uid).
  destruct (dw_reported d w uid); set_solver.
Qed.

(** The UIDs that no event has reported yet. *)
Lemma drop_loop_triple u w v s : UserLaws dw_stored dw_tables dw_empty (dn_isNoMatchError d) u → reports w v →
  triple (reports w) v (for_range (dropReported u) s (dn_range d s)) (λ s' _, ∀ x, x ∈ s' ↔ x ∈ s ∧ dw_reported d w x = false).
Proof.
  intros Hu Hv. eapply triple_consequence;
    [apply (triple_loop (reports w) _ (λ done s' _, ∀ x, x ∈ s' ↔ x ∈ s ∧ (x ∈ done → dw_reported d w x = false)) ) with (done := [])|].
  - intros done s' uid v' Hv' HJ. eapply triple_consequence; [by apply dropReported_triple|]. cbn beta. intros s'' _ Hs'' x.
    rewrite Hs'', HJ, elem_of_app, list_elem_of_singleton. intuition (subst; auto).
  - done.
  - intros x. rewrite elem_of_nil. tauto.
  - cbn beta. intros s' _ Hs' x. rewrite Hs'. simpl. rewrite dw_range. tauto.
Qed.
End waiting.

(** For a cluster that is being deleted since [t], the check that the load balancers
    are gone succeeds when there is no cloud provider in tree or no load balancer to
    wait for, or two hours after [t]; otherwise it succeeds exactly while an event about
    a recorded load balancer is still missing, the opposite of what its name says. *)
Theorem loadbalancers_gone_spec `{SemverLib, StringSets} {W} (d : Deletion W) `{!DeletionWorld d} c t w b x w' :
  om_deletionTimestamp (cl_meta c) = Some t → checkIfAllLoadbalancersAreGone d c w = (Ok (b, x), w') →
  b = true ↔ no_awaited_lbs c ∨ t + 7200 * Second < dw_clock d w ∨
    ∃ uid, uid ∈ parseStringSet (deletedLBs c) ∧ dw_reported d w uid = false.
Proof.
  intros Ht. unfold checkIfAllLoadbalancersAreGone, no_awaited_lbs. rewrite Ht.
  destruct (is_inTree c); cbn [negb]; [|intros [= <- _ _]; tauto].
  destruct (String.eqb_spec (deletedLBs c) "") as [|Hne]; [intros [= <- _ _]; tauto|].
  set (s := parseStringSet (deletedLBs c)).
  intros E. apply bind_ok_inv in E as (t' & w1 & [[= <-] Hw]%lift_ok_inv & E). subst w1.
  apply bind_ok_inv in E as (now & w2 & En & E). destruct (dw_now _ _ _ En) as ([= _ Hr2] & [= ->]). fold (dw_clock d w) in E.
  destruct (Z.ltb_spec (t + 7200 * Second) (dw_clock d w)) as [|Hlt]; [injection E as <- _ _; tauto|].
  apply bind_ok_inv in E as (u & w3 & Eu & E). pose proof (dw_user _ _ _ Eu) as Hu.
  pose proof (dw_getter _ _ _ Eu) as Hr3. injection Hr3 as _ Hr3.
  apply bind_ok_inv in E as (left & w4 & El & E).
  destruct (drop_loop_triple d u w w3 s Hu ltac:(unfold reports; congruence) _ _ El) as [_ Hleft]. specialize (Hleft left eq_refl).
  apply bind_ok_inv in E as (old & w5 & _ & E). apply bind_ok_inv in E as (x' & w6 & _ & E). injection E as <- _ _.
  rewrite negb_true_iff, bool_decide_eq_false. split.
  - intros (uid & Hin)%set_choose_L. right; right. exists uid. by apply Hleft.
  - intros [[?|?]|[?|(uid & Hin)]]; [done..|lia|]. apply Hleft in Hin. set_solver.
Qed.

(** ** Evidence *)

Section run.
Context `{SemverLib, StringSets} {W : Type} (d : Deletion W) `{!DeletionWorld d}.
Context (w0 : W) (c0 : Cluster).

Let key : NamespacedName := object_key c0.
Let ns : string := cs_namespaceName (cl_status c0).
Let present (f : string) : Prop := f ∈ om_finalizers (cl_meta c0).

(** At the start of the run there is nothing of this kind. *)
Definition gone (k : kind) : Prop :=
  let scope := match k with
               | KServices | KClaims | KVolumes => ""
               | KDeployments | KSets | KMachines => NamespaceSystem
               | KConfigs | KSecrets | KConstraints => cs_namespaceName (cl_status c0)
               end in
  dw_empty k scope (tab k (dw_tables w0)) = true.

(** Inside the user cluster no load balancers and volumes are left, as far as there
    are finalizers that ask for their clean-up. *)
Definition inCluster_empty : Prop :=
  (InClusterLBCleanupFinalizer ∈ om_finalizers (cl_meta c0) → gone KServices) ∧
  (InClusterPVCleanupFinalizer ∈ om_finalizers (cl_meta c0) → gone KClaims ∧ gone KVolumes).

(** And the load balancers that were deleted need no more waiting, the way the code
    decides it: there is none, or two hours have passed, or (inverted) an event about
    one of them is still missing. *)
Definition lbs_settled : Prop :=
  no_awaited_lbs c0 ∨
  (∃ t, om_deletionTimestamp (cl_meta c0) = Some t ∧ t + 7200 * Second < dw_clock d w0) ∨
  ∃ uid, uid ∈ parseStringSet (deletedLBs c0) ∧ dw_reported d w0 uid = false.
Definition lb_or_pv (f : string) : Prop := f = InClusterLBCleanupFinalizer ∨ f = InClusterPVCleanupFinalizer.
Definition inCluster_clean : Prop :=
  inCluster_empty ∧ ((∃ f, lb_or_pv f ∧ f ∈ om_finalizers (cl_meta c0)) → lbs_settled).

(** No constraint of the cluster is left that is not being deleted. *)
Definition constraints_doomed (w : W) : Prop :=
  dw_empty KConstraints (cs_namespaceName (cl_status c0)) (tab KConstraints (dw_tables w)) = true.

(** The reason to remove a finalizer other than that of the credentials. *)
Definition settled (f : string) : Prop :=
  f = KubermaticConstraintCleanupFinalizer ∧ cs_namespaceName (cl_status c0) ≠ "" ∨
  inCluster_clean ∧
    (f = InClusterLBCleanupFinalizer ∨ f = InClusterPVCleanupFinalizer ∨ f = ClusterRoleBindingsCleanupFinalizer ∨
     f = EtcdBackupConfigCleanupFinalizer ∧ gone KConfigs ∨
     f = NodeDeletionFinalizer ∧ gone KDeployments ∧ gone KSets ∧ gone KMachines).

(** All other finalizers, those of the cloud provider included, can go. *)
Definition only_credentials_left : Prop :=
  inCluster_clean ∧ ∀ g, g ∈ om_finalizers (cl_meta c0) → g ≠ CredentialsSecretsCleanupFinalizer → settled g.

Definition evidence (f : string) : Prop := settled f ∨ f = CredentialsSecretsCleanupFinalizer ∧ only_credentials_left.

(** When a table may be changed. *)
Definition may_touch (k : kind) : Prop :=
  match k with
  | KServices => InClusterLBCleanupFinalizer ∈ om_finalizers (cl_meta c0)
  | KClaims => InClusterPVCleanupFinalizer ∈ om_finalizers (cl_meta c0)
  | KVolumes => False
  | KConfigs => inCluster_clean ∧ EtcdBackupConfigCleanupFinalizer ∈ om_finalizers (cl_meta c0)
  | KDeployments => inCluster_clean ∧ NodeDeletionFinalizer ∈ om_finalizers (cl_meta c0)
  | KSets => inCluster_clean ∧ gone KDeployments
  | KMachines => inCluster_clean ∧ gone KDeployments ∧ gone KSets
  | KSecrets => only_credentials_left
  | KConstraints => cs_namespaceName (cl_status c0) ≠ ""
  end.

Definition holds (w : W) (f : string) : Prop :=
  ∃ s, dw_stored w !! object_key c0 = Some s ∧ f ∈ om_finalizers (cl_meta s).

(** What is true of the servers at every moment of a run. *)
Record orderly (w : W) : Prop := {
  od_evidence : ∀ f, f ∈ om_finalizers (cl_meta c0) → ¬ holds w f → evidence f;
  od_stored : ∀ s, dw_stored w !! object_key c0 = Some s →
    cs_namespaceName (cl_status s) = cs_namespaceName (cl_status c0) ∧
    ∀ f, f ∈ om_finalizers (cl_meta s) → f ∈ om_finalizers (cl_meta c0);
  od_others : ∀ j, j ≠ object_key c0 → dw_stored w !! j = dw_stored w0 !! j;
  od_tables : ∀ k, tab k (dw_tables w) = tab k (dw_tables w0) ∨ may_touch k;
  od_site : tb_site (dw_tables w) = tb_site (dw_tables w0);
  od_constraints : KubermaticConstraintCleanupFinalizer ∈ om_finalizers (cl_meta c0) →
    ¬ holds w KubermaticConstraintCleanupFinalizer → constraints_doomed w;
}.

(** The object in memory is the stored one. *)
Record matches (x : Cluster) (w : W) : Prop := {
  mt_key : object_key x = key;
  mt_namespace : cs_namespaceName (cl_status x) = ns;
  mt_finalizers : ∀ f, f ∈ om_finalizers (cl_meta x) ↔ holds w f;
  mt_stored : ∀ s, dw_stored w !! key = Some s →
    sp_cloud (cl_spec x) = sp_cloud (cl_spec s) ∧ om_annotations (cl_meta x) = om_annotations (cl_meta s) ∧
    om_deletionTimestamp (cl_meta x) = om_deletionTimestamp (cl_meta s);
}.

(** The same cloud, annotations and time of deletion. *)
Definition alike (x x' : Cluster) : Prop :=
  sp_cloud (cl_spec x') = sp_cloud (cl_spec x) ∧ om_annotations (cl_meta x') = om_annotations (cl_meta x) ∧
  om_deletionTimestamp (cl_meta x') = om_deletionTimestamp (cl_meta x).

Lemma holds_view w w' f : dw_stored w' = dw_stored w → holds w' f ↔ holds w f.
Proof. intros E. unfold holds. by rewrite E. Qed.

Lemma orderly_view w w' : dw_view w' = dw_view w → orderly w → orderly w'.
Proof.
  intros [= Es Et] [He Hs Ho Ht Hsite Hc]. split; unfold constraints_doomed; rewrite ?Es, ?Et; try done.
  - intros f Hf Hn. apply He; [done|]. by rewrite <- (holds_view _ _ _ Es).
  - intros Hf Hn. apply Hc; [done|]. by rewrite <- (holds_view _ _ _ Es).
Qed.

Lemma matches_view x w w' : dw_stored w' = dw_stored w → matches x w → matches x w'.
Proof. intros Es [? ? Hf ?]. split; rewrite ?Es; try done. intros f. rewrite Hf. symmetry. by apply holds_view. Qed.

(** ** Removing finalizers *)

Lemma removal_update s fs w r w' : dw_stored w !! key = Some s → orderly w →
  (∀ f, f ∈ fs → present f → evidence f) → (KubermaticConstraintCleanupFinalizer ∈ fs → constraints_doomed w) →
  c_update (dn_clusters d) (set_meta (RemoveFinalizer fs (cl_meta s)) s) w = (r, w') →
  orderly w' ∧ dw_tables w' = dw_tables w ∧
  (∀ e, r = Err e → IsConflict e = true → dw_view w' = dw_view w) ∧
  ∀ x, r = Ok x → matches x w' ∧ alike s x ∧ ∀ f, f ∈ om_finalizers (cl_meta x) ↔ f ∈ om_finalizers (cl_meta s) ∧ f ∉ fs.
Proof.
  intros Hs Ho Hfs Hdoom E. pose proof (dw_key _ _ _ Hs) as Hkey.
  destruct (dw_update _ _ _ _ E) as [Et Hcase].
  assert (Hk : object_key (set_meta (RemoveFinalizer fs (cl_meta s)) s) = key) by exact Hkey. rewrite Hk in Hcase.
  destruct Hcase as [[Es Hno]|(Hcf & s' & c' & Hs' & Hc' & Hx & Hnew)].
  { assert (Hv : dw_view w' = dw_view w) by (unfold dw_view, view; by rewrite Es, Et). split; [by eapply orderly_view|].
    split; [done|]. split; [done|]. intros x Hr. by destruct (Hno x). }
  assert (s' = s) as -> by congruence. destruct (od_stored _ Ho _ Hs) as [Hns Hsub].
  assert (Hfin : ∀ f, f ∈ om_finalizers (cl_meta c') ↔ f ∈ om_finalizers (cl_meta s) ∧ f ∉ fs).
  { intros f. rewrite (up_finalizers _ _ _ Hc'). apply elem_of_RemoveFinalizer. }
  assert (Hholds : ∀ f, holds w' f ↔ f ∈ om_finalizers (cl_meta s) ∧ f ∉ fs).
  { intros f. unfold holds. destruct Hnew as [->|[Hnil ->]].
    - rewrite <- (Hfin f). split; [|intros ?; exists c'; by rewrite lookup_insert_eq].
      intros (x & Hl & ?). rewrite lookup_insert_eq in Hl. by injection Hl as <-.
    - split; [intros (x & Hl & _); by rewrite lookup_delete_eq in Hl|]. intros Hf. exfalso.
      apply (elem_of_RemoveFinalizer fs (cl_meta s) f) in Hf. unfold key in *.
      assert (om_finalizers (RemoveFinalizer fs (cl_meta s)) = []) as E0 by exact Hnil. rewrite E0 in Hf. by apply elem_of_nil in Hf. }
  split.
  - split.
    + intros f Hf Hn. destruct (decide (f ∈ fs)) as [?|Hnf]; [by apply Hfs|]. apply (od_evidence _ Ho); [done|].
      intros (x & Hx' & Hfx). apply Hn, Hholds. split; [|done]. unfold key in Hs. congruence.
    + intros x Hx'. unfold key in *. destruct Hnew as [En|[_ En]]; rewrite En in Hx'; [|by rewrite lookup_delete_eq in Hx'].
      rewrite lookup_insert_eq in Hx'. injection Hx' as <-. split; [rewrite (up_namespace _ _ _ Hc'); done|].
      intros f ?%(Hfin f). naive_solver.
    + intros j Hj. rewrite <- (od_others _ Ho j Hj). unfold key in *. destruct Hnew as [->|[_ ->]];
        [by rewrite lookup_insert_ne|by rewrite lookup_delete_ne].
    + rewrite Et. apply Ho.
    + rewrite Et. apply Ho.
    + intros Hf Hn. unfold constraints_doomed. rewrite Et.
      destruct (decide (KubermaticConstraintCleanupFinalizer ∈ fs)) as [Hin|Hnin]; [by apply Hdoom|].
      apply (od_constraints _ Ho); [done|]. intros (y & Hy & Hfy). apply Hn, Hholds. split; [|done]. unfold key in Hs. congruence.
  - split; [done|]. split; [intros e He Hc; by rewrite (Hcf e He) in Hc|]. intros x Hr. destruct (Hx x Hr) as [Hxk Hxf Hxn Hxc Hxa Hxd]. destruct Hc' as [Hck Hcfin Hcn Hcc Hca Hcd].
    split; [|split; [split_and!; [by rewrite Hxc, Hcc|by rewrite Hxa, Hca|by rewrite Hxd, Hcd]|intros f; rewrite Hxf; apply Hfin]]. split.
    + congruence.
    + by rewrite Hxn, Hcn.
    + intros f. by rewrite Hholds, Hxf, Hfin.
    + intros y Hy. unfold key in *. destruct Hnew as [En|[_ En]]; rewrite En in Hy; [|by rewrite lookup_delete_eq in Hy].
      rewrite lookup_insert_eq in Hy. by injection Hy as <-.
Qed.

Lemma remove_triple x w fs : orderly w → matches x w → (∀ f, f ∈ fs → present f → evidence f) →
  (KubermaticConstraintCleanupFinalizer ∈ fs → constraints_doomed w) →
  triple orderly w (removeClusterFinalizers d x fs) (λ x' w', matches x' w' ∧ dw_tables w' = dw_tables w ∧ alike x x' ∧
    ∀ f, f ∈ om_finalizers (cl_meta x') ↔ f ∈ om_finalizers (cl_meta x) ∧ f ∉ fs).
Proof.
  intros Ho Hm Hfs Hdoom. apply triple_wrap. intros r w' (v & E & HP)%retry_last.
  match type of E with ?b _ = _ => set (body := b) in * end. revert E.
  assert (Hbody : ∀ v r w', dw_view v = dw_view w → body v = (r, w') → orderly w' ∧
    (∀ e, r = Err e → IsConflict e = true → dw_view w' = dw_view w) ∧
    ∀ x', r = Ok x' → matches x' w' ∧ dw_tables w' = dw_tables w ∧ alike x x' ∧
      ∀ f, f ∈ om_finalizers (cl_meta x') ↔ f ∈ om_finalizers (cl_meta x) ∧ f ∉ fs).
  { clear v r w' HP. intros v r w' Hv. unfold body, mbind, M_MBind, M_bind, try.
    rewrite (mt_key _ _ Hm). destruct (c_get (dn_clusters d) key v) as [o v1] eqn:Eg.
    destruct (dw_get _ _ _ _ Eg) as (Hv1 & Hok & Hnf). rewrite Hv in Hv1.
    assert (Ho1 : orderly v1) by (by eapply orderly_view). injection Hv1 as Hs1 Ht1. injection Hv as Hsv _. rewrite Hsv in Hok, Hnf.
    destruct o as [s|e|m|]; cbn beta iota; [| |intros [= <- <-]; by split..].
    - specialize (Hok s eq_refl). destruct (mt_stored _ _ Hm s Hok) as (Hcl & Han & Hdl). assert (Hfin : ∀ f, f ∈ om_finalizers (cl_meta x) ↔ f ∈ om_finalizers (cl_meta s)).
      { intros f. rewrite (mt_finalizers _ _ Hm). unfold holds, key in *. split; [intros (y & Hy & ?); congruence|eauto]. }
      case_bool_decide as Eq.
      + intros [= <- <-]. split; [done|]. split; [done|]. intros x' [= <-].
        assert (Hsame : ∀ f, f ∈ om_finalizers (RemoveFinalizer fs (cl_meta s)) ↔ f ∈ om_finalizers (cl_meta s)).
        { intros f. cbn in Eq. unfold NewString in Eq. apply (f_equal (λ X : gset string, f ∈ X)) in Eq.
          assert ((f ∈ (list_to_set (om_finalizers (cl_meta s)) : gset string)) =
            (f ∈ (list_to_set (om_finalizers (RemoveFinalizer fs (cl_meta s))) : gset string))) as E by exact Eq.
          rewrite <- !(elem_of_list_to_set (C := gset string)), E. done. }
        split_and!; [|done|by split_and!|intros f; rewrite Hfin; apply elem_of_RemoveFinalizer]. split.
        * change (object_key s = key). by apply (dw_key w).
        * change (cs_namespaceName (cl_status s) = ns). by apply (od_stored _ Ho).
        * intros f. change (f ∈ om_finalizers (RemoveFinalizer fs (cl_meta s)) ↔ holds v1 f).
          rewrite Hsame, <- Hfin, (mt_finalizers _ _ Hm). symmetry. by apply holds_view.
        * intros y. rewrite Hs1. intros Hy. assert (y = s) as -> by congruence. done.
      + intros Eu. rewrite <- Hs1 in Hok. destruct (removal_update s fs v1 r w' Hok Ho1 Hfs) as (? & Ht & Hc & Hx);
          [unfold constraints_doomed; by rewrite Ht1|exact Eu|].
        split; [done|]. split; [intros e He Hce; rewrite (Hc e He Hce); unfold dw_view, view; by rewrite Hs1, Ht1|].
        intros x' Hr. destruct (Hx x' Hr) as (? & (Ha1 & Ha2 & Ha3) & Hf). split_and!; [done|congruence|split_and!; congruence|]. intros f. by rewrite Hf, Hfin.
    - destruct (IsNotFound e) eqn:En.
      + intros [= <- <-]. split; [done|]. split; [done|]. intros x' [= <-]. split; [by eapply matches_view|]. split; [done|]. split; [done|].
        specialize (Hnf e eq_refl En). intros f. rewrite (mt_finalizers _ _ Hm). unfold holds, key in *.
        split; [intros (y & Hy & ?); congruence|by intros [(y & Hy & ?) _]; congruence].
      + intros [= <- <-]. split; [done|]. split; [|done]. intros _ _ _. unfold dw_view, view. by rewrite Hs1, Ht1. }
  intros E. assert (Hv : dw_view v = dw_view w).
  { apply (HP (λ u, dw_view u = dw_view w)); [|done]. intros u1 e u2 Hu Eu Hc. destruct (Hbody _ _ _ Hu Eu) as (_ & Hx & _). eauto. }
  destruct (Hbody _ _ _ Hv E) as (? & _ & ?). split; [done|]. auto.
Qed.

(** ** Steps *)

Lemma quiet_triple {A} w (m : M W A) : orderly w → keeps dw_view m →
  triple orderly w m (λ a w', m w = (Ok a, w') ∧ dw_view w' = dw_view w).
Proof. intros Ho Hm. apply (triple_keeps orderly dw_view); [by intros; eapply orderly_view|done..]. Qed.

Definition untouched (ks : list kind) (w : W) : Prop := ∀ k, k ∈ ks → tab k (dw_tables w) = tab k (dw_tables w0).

Lemma untouched_tables ks w w' : dw_tables w' = dw_tables w → untouched ks w → untouched ks w'.
Proof. intros E Hu k Hk. rewrite E. by apply Hu. Qed.

(** A step that changes one table, and is allowed to. *)
Lemma only_triple {A} k w (m : M W A) : orderly w → only dw_stored dw_tables k m → may_touch k → k ≠ KConstraints →
  triple orderly w m (λ _ w', dw_stored w' = dw_stored w ∧ ∀ ks, k ∉ ks → untouched ks w → untouched ks w').
Proof.
  intros Ho Hm Hk Hnc r w' E. destruct (Hm _ _ _ E) as (Es & Esite & Et). split.
  - destruct Ho as [He Hs Hj Ht Hsite Hc]. split; rewrite ?Es, ?Esite; try done.
    + intros f Hf Hn. apply He; [done|]. by rewrite <- (holds_view _ _ _ Es).
    + intros j. destruct (decide (j = k)) as [->|Hne]; [by right|]. rewrite Et by done. apply Ht.
    + intros Hf Hn. unfold constraints_doomed. rewrite Et by done. apply Hc; [done|]. by rewrite <- (holds_view _ _ _ Es).
  - intros a _. split; [done|]. intros ks Hks Hu j Hj. rewrite Et by (intros ->; done). by apply Hu.
Qed.

Lemma only_try {A} k (m : M W A) : only dw_stored dw_tables k m → only dw_stored dw_tables k (try m).
Proof. intros Hm w r w'. unfold try. destruct (m w) as [[] w1] eqn:E; intros [= <- <-]; by eapply Hm. Qed.
Lemma only_wrap {A} k msg (m : M W A) : only dw_stored dw_tables k m → only dw_stored dw_tables k (wrap msg m).
Proof. intros Hm w r w'. unfold wrap. destruct (m w) as [[] w1] eqn:E; intros [= <- <-]; by eapply Hm. Qed.
Lemma only_bind {A B} k (m : M W A) (f : A → M W B) : only dw_stored dw_tables k m →
  (∀ a, only dw_stored dw_tables k (f a)) → only dw_stored dw_tables k (m ≫= f).
Proof.
  intros Hm Hf w r w'. unfold mbind, M_MBind, M_bind. destruct (m w) as [o w1] eqn:E.
  destruct (Hm _ _ _ E) as (Es & Esite & Et). destruct o as [a| | |]; [|intros [= <- <-]; done..]. intros E1.
  destruct (Hf _ _ _ _ E1) as (Es1 & Esite1 & Et1). split_and!; [congruence..|]. intros j Hj. by rewrite Et1, Et.
Qed.
Lemma only_keeps {A} k (m : M W A) : keeps dw_view m → only dw_stored dw_tables k m.
Proof. intros Hm w r w' E. injection (Hm _ _ _ E) as Es Et. by rewrite Es, Et. Qed.
Lemma only_loop {S A} k (f : S → A → M W S) : (∀ s a, only dw_stored dw_tables k (f s a)) →
  ∀ l s, only dw_stored dw_tables k (for_range f s l).
Proof.
  intros Hf l. induction l as [|a l IH]; intros s; simpl; [apply only_keeps, keeps_ret|]. apply only_bind; auto.
Qed.
Lemma only_unless {A} k allowed (m : M W A) x : only dw_stored dw_tables k m → only dw_stored dw_tables k (unless allowed m x).
Proof.
  intros Hm. unfold unless. apply only_bind; [by apply only_try|]. intros [e|a]; [|apply only_keeps, keeps_ret].
  destruct (allowed e); apply only_keeps; [apply keeps_ret|apply keeps_throw].
Qed.

Lemma keeps_unless {X A} (v : W → X) allowed (m : M W A) x : keeps v m → keeps v (unless allowed m x).
Proof. intros Hm. unfold unless. apply keeps_bind; [by apply keeps_try|]. intros [e|a]; [|apply keeps_ret]. destruct (allowed e); frame. Qed.

Lemma user_triple w : orderly w → triple orderly w (dn_userClusterClientGetter d)
  (λ u w', dw_view w' = dw_view w ∧ UserLaws dw_stored dw_tables dw_empty (dn_isNoMatchError d) u).
Proof.
  intros Ho r w' E. pose proof (dw_getter _ _ _ E) as Hv. split; [by eapply orderly_view|].
  intros u ->. split; [done|]. by eapply dw_user.
Qed.

(** Listing a kind whose table is as it was at the start. *)
Lemma list_triple {O} noMatch k (c : Client W O) scope counts w : orderly w →
  lists dw_stored dw_tables dw_empty noMatch k c scope counts →
  triple orderly w (c_list c (inNamespace scope)) (λ l w', dw_view w' = dw_view w ∧
    (untouched [k] w → dw_empty k scope (tab k (dw_tables w0)) = negb (existsb counts l))).
Proof.
  intros Ho Hl r w' E. destruct (Hl _ _ _ E) as (Hv & Hok & _). split; [by eapply orderly_view|]. intros l ->.
  split; [done|]. intros Hu. rewrite <- (Hu k ltac:(left)). by apply Hok.
Qed.

(** Steps on constraints: nothing else changes, and constraints that are being deleted
    stay so. *)
Definition constraint_step (w w' : W) : Prop :=
  dw_stored w' = dw_stored w ∧ tb_site (dw_tables w') = tb_site (dw_tables w) ∧
  (∀ j, j ≠ KConstraints → tab j (dw_tables w') = tab j (dw_tables w)) ∧ (constraints_doomed w → constraints_doomed w').

#[local] Instance constraint_step_preorder : PreOrder constraint_step.
Proof.
  split; [by intros w; split_and!|]. intros a b e (H1 & H2 & H3 & H4) (K1 & K2 & K3 & K4).
  split_and!; [congruence..| |auto]. intros j Hj. by rewrite K3, H3.
Qed.

Definition constraint_safe {A} (m : M W A) : Prop := ∀ w r w', m w = (r, w') → constraint_step w w'.

Lemma safe_view {A} (m : M W A) : keeps dw_view m → constraint_safe m.
Proof.
  intros Hm w r w' E. injection (Hm _ _ _ E) as Es Et. unfold constraint_step, constraints_doomed. rewrite Es, Et. by split_and!.
Qed.
Lemma safe_bind {A B} (m : M W A) (f : A → M W B) : constraint_safe m → (∀ a, constraint_safe (f a)) → constraint_safe (m ≫= f).
Proof.
  intros Hm Hf w r w'. unfold mbind, M_MBind, M_bind. destruct (m w) as [o w1] eqn:E. apply Hm in E.
  destruct o as [a| | |]; [|intros [= <- <-]; done..]. intros E1. transitivity w1; [done|by eapply Hf].
Qed.
Lemma safe_wrap {A} msg (m : M W A) : constraint_safe m → constraint_safe (wrap msg m).
Proof. intros Hm w r w'. unfold wrap. destruct (m w) as [[] w1] eqn:E; intros [= <- <-]; by eapply Hm. Qed.
Lemma safe_retry {A} (m : M W A) : constraint_safe m → constraint_safe (RetryOnConflict (dn_retry d) m).
Proof.
  intros Hm w r w' (w1 & E & HP)%retry_last. transitivity w1; [|by eapply Hm].
  apply HP; [|reflexivity]. intros w2 e w3 H2 E3 _. transitivity w2; [done|by eapply Hm].
Qed.
Lemma safe_loop {S A} (f : S → A → M W S) : (∀ s a, constraint_safe (f s a)) → ∀ l s, constraint_safe (for_range f s l).
Proof. intros Hf l. induction l as [|a l IH]; intros s; simpl; [apply safe_view, keeps_ret|]. apply safe_bind; auto. Qed.

Lemma safe_update o : constraint_safe (c_update (dn_constraints d) o).
Proof.
  intros w r w' E. destruct (dw_constraint_update _ _ _ _ E) as (? & ? & ?). split_and!; [done..|]. by eapply dw_constraint_updated.
Qed.
Lemma safe_TryRemove o fs : constraint_safe (TryRemoveFinalizer (dn_constraints d) (dn_retry d) o fs).
Proof.
  unfold TryRemoveFinalizer. apply safe_wrap, safe_retry. apply safe_bind; [apply safe_view, keeps_try, dw_constraint_get|].
  intros [e|o']; [destruct (IsNotFound e); apply safe_view; frame|]. case_bool_decide; [apply safe_view; frame|apply safe_update].
Qed.

Lemma constraint_orderly w w' : orderly w → (present KubermaticConstraintCleanupFinalizer → holds w KubermaticConstraintCleanupFinalizer) →
  cs_namespaceName (cl_status c0) ≠ "" → dw_stored w' = dw_stored w → tb_site (dw_tables w') = tb_site (dw_tables w) →
  (∀ j, j ≠ KConstraints → tab j (dw_tables w') = tab j (dw_tables w)) → orderly w'.
Proof.
  intros [He Hs Ho Ht Hsite _] Hall Hns Es Esite Et. split; rewrite ?Es, ?Esite; try done.
  - intros f Hf Hn. apply He; [done|]. by rewrite <- (holds_view _ _ _ Es).
  - intros k. destruct (decide (k = KConstraints)) as [->|Hne]; [by right|]. rewrite Et by done. apply Ht.
  - intros Hf Hn. destruct Hn. rewrite (holds_view _ _ _ Es). by apply Hall.
Qed.

Lemma constraints_triple x w ks : orderly w → matches x w → KConstraints ∉ ks → untouched ks w →
  (present KubermaticConstraintCleanupFinalizer → holds w KubermaticConstraintCleanupFinalizer) →
  triple orderly w (cleanupConstraints d x) (λ x' w', matches x' w' ∧ untouched ks w' ∧ alike x x' ∧
    (cs_namespaceName (cl_status c0) ≠ "" → KubermaticConstraintCleanupFinalizer ∉ om_finalizers (cl_meta x')) ∧
    ∀ f, f ≠ KubermaticConstraintCleanupFinalizer → f ∈ om_finalizers (cl_meta x') ↔ f ∈ om_finalizers (cl_meta x)).
Proof.
  intros Ho Hm Hks Hun Hall. unfold cleanupConstraints. rewrite (mt_namespace _ _ Hm).
  destruct (String.eqb_spec ns "") as [|Hne]; [apply triple_ret; [done|]; split_and!; [done..|by intros ?|done]|].
  eapply (triple_bind _ _ _ _ (λ _ w1, orderly w1 ∧ dw_stored w1 = dw_stored w ∧ untouched ks w1 ∧ constraints_doomed w1)).
  { intros r w1 E. destruct (dw_deleteConstraints _ _ _ _ E) as (Es & Esite & Et).
    assert (orderly w1) by by eapply constraint_orderly. split; [done|]. intros u ->. split_and!; [done|done| |by eapply dw_deletedConstraints].
    intros k Hk. rewrite Et by (intros ->; done). by apply Hun. }
  intros _ w1 (Ho1 & Es1 & Hun1 & Hd1).
  assert (Hall1 : present KubermaticConstraintCleanupFinalizer → holds w1 KubermaticConstraintCleanupFinalizer)
    by (intros ?; rewrite (holds_view _ _ _ Es1); by apply Hall).
  eapply (triple_bind _ _ _ _ (λ _ w2, orderly w2 ∧ dw_view w2 = dw_view w1)).
  { intros r w2 E. pose proof (dw_constraint_list _ _ _ _ E) as Hv. assert (orderly w2) by by eapply orderly_view. by split. }
  intros l w2 [Ho2 Hv2]. injection Hv2 as Es2 Et2.
  eapply (triple_bind _ _ _ _ (λ _ w3, orderly w3 ∧ dw_stored w3 = dw_stored w ∧ untouched ks w3 ∧ constraints_doomed w3)).
  { intros r w3 E. assert (Hst : constraint_step w2 w3).
    { revert E. apply safe_loop. intros _ o. apply safe_bind; [apply safe_wrap, safe_TryRemove|intros; apply safe_view, keeps_ret]. }
    destruct Hst as (Es3 & Esite3 & Et3 & Hd3).
    assert (orderly w3) by (eapply (constraint_orderly w2); try done; intros ?; rewrite (holds_view _ _ _ Es2); by apply Hall1).
    split; [done|]. intros _ _. split_and!; [done|congruence| |].
    - intros k Hk. rewrite Et3 by (intros ->; done). rewrite Et2. by apply Hun1.
    - apply Hd3. unfold constraints_doomed. by rewrite Et2. }
  intros _ w3 (Ho3 & Es3 & Hun3 & Hd3).
  eapply triple_consequence; [apply remove_triple; [done|by eapply matches_view| |done]|].
  - intros f ->%list_elem_of_singleton _. left. by left.
  - cbn beta. intros x' w4 (Hm' & Ht' & Ha & Hf). split_and!; [done|by eapply untouched_tables|done| |];
      [intros _; rewrite Hf, list_elem_of_singleton; naive_solver|]. intros f Hne'. rewrite Hf, list_elem_of_singleton. naive_solver.
Qed.

(** Patching the annotations of the cluster. *)
Lemma copy_triple x w : orderly w →
  triple orderly w (lift (Cluster_DeepCopy x)) (λ old w', w' = w ∧ cl_meta old = cl_meta x).
Proof.
  intros Ho r w' [= <- <-]. split; [done|]. intros old Ed. split; [done|]. unfold Cluster_DeepCopy in Ed. o_inv. by subst.
Qed.

(** The object in memory, with the finalizers of [x]. *)
Definition follows (x x' : Cluster) (w : W) : Prop :=
  matches x' w ∧ ∀ f, f ∈ om_finalizers (cl_meta x') ↔ f ∈ om_finalizers (cl_meta x).

Lemma follows_view x x' w w' : dw_stored w' = dw_stored w → follows x x' w → follows x x' w'.
Proof. intros Es [? ?]. split; [by eapply matches_view|done]. Qed.

Lemma patch_triple x x' w old a : orderly w → follows x x' w → cl_meta old = cl_meta x' →
  triple orderly w (c_patch (dn_clusters d) old (set_meta (set_annotations a (cl_meta x')) x'))
    (λ x'' w', follows x x'' w' ∧ dw_tables w' = dw_tables w).
Proof.
  intros Ho [Hm Hfx] Hold r w' E.
  destruct (dw_patch _ _ _ _ _ E ltac:(by rewrite Hold)) as [Et Hcase].
  change (object_key (set_meta (set_annotations a (cl_meta x')) x')) with (object_key x') in Hcase.
  rewrite (mt_key _ _ Hm) in Hcase. destruct Hcase as [[Es Hno]|(s & c' & Hs & Hc' & Hx & En)].
  { split; [|intros y Hr; by destruct (Hno y)]. eapply orderly_view, Ho. unfold dw_view, view. by rewrite Es, Et. }
  unfold key in *. destruct (od_stored _ Ho _ Hs) as [Hns Hsub].
  assert (Hholds : ∀ f, holds w' f ↔ holds w f).
  { intros f. unfold holds. rewrite En, lookup_insert_eq. split.
    - intros (y & [= <-] & Hf). exists s. by rewrite (pt_finalizers _ _ Hc') in Hf.
    - intros (y & Hy & Hf). exists c'. rewrite (pt_finalizers _ _ Hc'). split; [done|]. congruence. }
  split.
  - split.
    + intros f Hf Hn. apply (od_evidence _ Ho); [done|]. by rewrite <- Hholds.
    + intros y. rewrite En, lookup_insert_eq. intros [= <-]. by rewrite (pt_namespace _ _ Hc'), (pt_finalizers _ _ Hc').
    + intros j Hj. rewrite En, lookup_insert_ne by done. by apply Ho.
    + rewrite Et. apply Ho.
    + rewrite Et. apply Ho.
    + intros Hf Hn. unfold constraints_doomed. rewrite Et. apply (od_constraints _ Ho); [done|]. by rewrite <- Hholds.
  - intros y Hr. destruct (Hx y Hr) as [Hxk Hxf Hxn Hxc Hxa Hxd]. destruct Hc' as [Hck Hcf Hcn Hcc Hcd].
    assert (Hf : ∀ f, f ∈ om_finalizers (cl_meta y) ↔ holds w f).
    { intros f. rewrite Hxf, Hcf. unfold holds. split; [eauto|]. intros (z & Hz & ?). congruence. }
    split; [|done]. split; [|intros f; by rewrite Hf, <- (mt_finalizers _ _ Hm)]. split.
    + rewrite Hxk, Hck. by apply (dw_key w).
    + by rewrite Hxn, Hcn.
    + intros f. by rewrite Hf, Hholds.
    + intros z. unfold key. rewrite En, lookup_insert_eq. by intros [= <-].
Qed.

(** ** Load balancers and volumes *)

Definition after_services : list kind := [KClaims; KVolumes; KDeployments; KSets; KMachines; KConfigs; KSecrets].
Definition after_volumes : list kind := [KDeployments; KSets; KMachines; KConfigs; KSecrets].

Lemma cleanupLB_triple u s x x' w : UserLaws dw_stored dw_tables dw_empty (dn_isNoMatchError d) u →
  may_touch KServices → orderly w → follows x x' w → untouched after_services w →
  triple orderly w (cleanupLB d u s x') (λ x'' w', follows x x'' w' ∧ untouched after_services w').
Proof.
  intros Hu Hmay Ho Hf Hun. unfold cleanupLB.
  eapply triple_seq; [apply triple_wrap, (only_triple KServices); [done|apply Hu|done|done]|]. intros _ w1 Ho1 [Es1 Hu1].
  apply Hu1 in Hun; [|set_solver]. apply (follows_view _ _ _ w1) in Hf; [|done].
  eapply triple_seq; [by apply copy_triple|]. cbn beta. intros old w2 Ho2 [-> Hold].
  eapply triple_seq; [by apply triple_wrap, (patch_triple x)|]. cbn beta. intros x'' w3 Ho3 [Hf3 Ht3].
  eapply triple_seq; [apply quiet_triple; [done|]|].
  { apply keeps_wrap, dw_poll. unfold lbRecorded. apply keeps_bind; [intros v r v' E; by apply (dw_get _ _ _ _ E)|frame]. }
  cbn beta. intros _ w4 Ho4 [_ [= Es4 Et4]]. apply triple_ret; [done|].
  split; [by eapply follows_view|]. eapply untouched_tables; [exact Et4|]. by eapply untouched_tables.
Qed.

Lemma after_volumes_services k : k ∈ after_volumes → k ∈ after_services.
Proof. unfold after_volumes, after_services. rewrite !elem_of_cons. tauto. Qed.

Lemma cleanupLBs_triple x w : present InClusterLBCleanupFinalizer → orderly w → matches x w →
  untouched (KServices :: after_services) w →
  triple orderly w (cleanupLBs d x) (λ '(deleted, x') w', follows x x' w' ∧ untouched after_services w' ∧
    (deleted = false → x' = x) ∧ (deleted = false ↔ gone KServices)).
Proof.
  intros Hp Ho Hm Hun. unfold cleanupLBs.
  eapply triple_seq; [by apply user_triple|]. cbn beta. intros u w1 Ho1 [Hv1 Hu]. injection Hv1 as Es1 Et1.
  apply (untouched_tables _ _ w1) in Hun; [|done].
  eapply triple_seq; [apply triple_wrap, (list_triple (dn_isNoMatchError d) KServices _ ""); [done|eapply ul_services, Hu]|].
  cbn beta. intros l w2 Ho2 [[= Es2 Et2] He]. specialize (He ltac:(intros k ->%list_elem_of_singleton; apply Hun; left)).
  apply (untouched_tables _ _ w2) in Hun; [|done].
  set (J := λ (done : list Service) '((deleted, x') : bool * Cluster) w', follows x x' w' ∧ untouched after_services w' ∧
    (deleted = false → x' = x) ∧ deleted = existsb (λ s, String.eqb (svc_type s) ServiceTypeLoadBalancer) done).
  eapply triple_consequence; [apply (triple_loop orderly _ J) with (done := [])|].
  - intros done [deleted x'] s v Hov (Hf & Hu' & Hx' & ->). unfold J. destruct (String.eqb (svc_type s) ServiceTypeLoadBalancer) eqn:E; cbn [negb].
    + eapply triple_seq; [apply triple_wrap, (cleanupLB_triple u s x); [done|exact Hp|done..]|].
      cbn beta. intros x'' v' Hov' [? ?]. apply triple_ret; [done|]. split_and!; [done..|]. rewrite existsb_app. simpl. rewrite E. by rewrite orb_true_r.
    + apply triple_ret; [done|]. split_and!; [done..|]. rewrite existsb_app. simpl. by rewrite E, !orb_false_r.
  - done.
  - unfold J. split_and!; [|intros k Hk; apply Hun; by right|done..]. split; [|done]. eapply matches_view, Hm. congruence.
  - cbn beta. intros [deleted x'] w' (? & ? & ? & ->). split_and!; [done..|]. unfold gone. by rewrite He, negb_true_iff.
Qed.

Lemma disablePVCreation_quiet u : UserLaws dw_stored dw_tables dw_empty (dn_isNoMatchError d) u →
  keeps dw_view (disablePVCreation d u).
Proof.
  intros Hu. destruct (ul_webhooks _ _ _ _ _ Hu) as [Hg Hl Hc Hup Hp Hd]. unfold disablePVCreation. cbn beta iota zeta.
  apply keeps_wrap, keeps_wrap. unfold EnsureNamedObject. apply keeps_bind; [apply keeps_try, Hg|]. intros [e|o].
  - destruct (IsNotFound e); cbn [negb]; [|frame]. apply keeps_bind; [apply keeps_wrap, keeps_lift|]. intros o.
    apply keeps_bind; [apply keeps_wrap, Hc|]. intros _. apply keeps_wrap, dw_pollImmediate. unfold WaitUntilObjectExistsInCache.
    apply keeps_bind; [apply keeps_try, Hg|]. intros [|]; frame.
  - apply keeps_bind; [apply keeps_wrap, keeps_lift|]. intros o'. destruct (dn_webhookEqual d o' o); [frame|].
    cbn [negb]. apply keeps_bind; [apply keeps_wrap, Hup|]. intros _. apply keeps_wrap, dw_pollImmediate. unfold waitUntilUpdateIsInCache.
    apply keeps_bind; [apply keeps_try, Hg|]. intros [|]; frame.
Qed.

Lemma cleanupPods_quiet u : UserLaws dw_stored dw_tables dw_empty (dn_isNoMatchError d) u →
  keeps dw_view (cleanupPVCUsingPods u).
Proof.
  intros Hu. destruct (ul_pods _ _ _ _ _ Hu) as [Hg Hl Hc Hup Hp Hd]. unfold cleanupPVCUsingPods.
  apply keeps_bind; [apply keeps_wrap, Hl|]. intros l. apply keeps_for_range. intros _ p. apply keeps_wrap, keeps_unless, Hd.
Qed.

Lemma existsb_all {A} (l : list A) : negb (existsb (λ _, true) l) = true → l = [].
Proof. by destruct l. Qed.

Lemma filter_none {A} (p : A → bool) l : List.filter p l = [] → negb (existsb p l) = true.
Proof. induction l as [|a l IH]; simpl; [done|]. by destruct (p a). Qed.

Lemma none_filter {A} (p : A → bool) l : negb (existsb p l) = true → List.filter p l = [].
Proof. induction l as [|a l IH]; simpl; [done|]. by destruct (p a). Qed.

Lemma cleanupVolumes_triple x w : present InClusterPVCleanupFinalizer → orderly w → untouched after_services w →
  triple orderly w (cleanupVolumes d x) (λ deleted w', dw_stored w' = dw_stored w ∧ untouched after_volumes w' ∧
    (deleted = false ↔ gone KClaims ∧ gone KVolumes)).
Proof.
  intros Hp Ho Hun. unfold cleanupVolumes.
  eapply triple_seq; [by apply user_triple|]. cbn beta. intros u w1 Ho1 [[= Es1 Et1] Hu]. apply (untouched_tables _ _ w1) in Hun; [|done].
  eapply triple_seq; [apply triple_wrap, quiet_triple; [done|by apply disablePVCreation_quiet]|]. cbn beta.
  intros _ w2 Ho2 [_ [= Es2 Et2]]. apply (untouched_tables _ _ w2) in Hun; [|done].
  eapply triple_seq; [apply triple_wrap, (list_triple (dn_isNoMatchError d) KClaims _ ""); [done|eapply ul_claims, Hu]|].
  cbn beta. intros pvcs w3 Ho3 [[= Es3 Et3] Hc]. specialize (Hc ltac:(intros k ->%list_elem_of_singleton; apply Hun; set_solver)).
  apply (untouched_tables _ _ w3) in Hun; [|done].
  eapply triple_seq; [apply triple_wrap, (list_triple (dn_isNoMatchError d) KVolumes _ ""); [done|eapply ul_volumes, Hu]|].
  cbn beta. intros pvs w4 Ho4 [[= Es4 Et4] Hv]. specialize (Hv ltac:(intros k ->%list_elem_of_singleton; apply Hun; set_solver)).
  apply (untouched_tables _ _ w4) in Hun; [|done].
  assert (Hun4 : untouched after_volumes w4) by (intros k Hk; by apply Hun, after_volumes_services). clear Hun.
  assert (Hrest : ¬ (gone KClaims ∧ gone KVolumes) → triple orderly w4 (_ ← wrap "failed to clean up PV using pod from user cluster" (cleanupPVCUsingPods u);
      _ ← for_range (λ _ pvc, wrap "failed to delete PVC from user cluster" (unless IsNotFound (c_delete (ucl_pvcs u) pvc) tt)) tt pvcs;
      mret true) (λ deleted w', dw_stored w' = dw_stored w ∧ untouched after_volumes w' ∧ (deleted = false ↔ gone KClaims ∧ gone KVolumes))).
  { intros Hnot. eapply triple_seq; [apply triple_wrap, quiet_triple; [done|by apply cleanupPods_quiet]|]. cbn beta.
    intros _ w5 Ho5 [_ [= Es5 Et5]]. apply (untouched_tables _ _ w5) in Hun4; [|done].
    eapply triple_seq; [apply (only_triple KClaims); [done| |exact Hp|done]|].
    { apply only_loop. intros _ o. apply only_wrap, only_unless, Hu. }
    cbn beta. intros _ w6 Ho6 [Es6 Hu6]. apply triple_ret; [done|]. split_and!; [congruence|apply Hu6; [set_solver|done]|by split]. }
  unfold gone in *. rewrite Hc, Hv in *. destruct pvcs as [|p pvcs]; [|apply Hrest; by intros [? _]].
  destruct (List.filter awaited pvs) eqn:Ef; [|apply Hrest; intros [_ Hn%none_filter]; congruence].
  apply triple_ret; [done|]. split_and!; [congruence|done|]. split; [|done]. intros _. split; [done|]. by apply filter_none.
Qed.

Lemma no_awaited_lbs_alike x x' : alike x x' → no_awaited_lbs x → no_awaited_lbs x'.
Proof. unfold no_awaited_lbs, is_inTree, deletedLBs. by intros (-> & -> & _). Qed.

Lemma check_triple x x' w : orderly w → follows x x' w →
  triple orderly w (checkIfAllLoadbalancersAreGone d x') (λ '(b, x'') w', follows x x'' w' ∧ dw_tables w' = dw_tables w ∧
    (no_awaited_lbs x' → b = true)).
Proof.
  intros Ho Hf. unfold checkIfAllLoadbalancersAreGone. destruct (negb (is_inTree x')) eqn:Et; [by apply triple_ret|]. apply negb_false_iff in Et.
  destruct (String.eqb_spec (deletedLBs x') "") as [|Hlb]; [by apply triple_ret|].
  assert (Hno : ¬ no_awaited_lbs x') by (intros [?|?]; congruence). clear Et Hlb.
  eapply triple_seq; [apply quiet_triple; [done|apply keeps_lift]|]. cbn beta. intros t w1 Ho1 [_ [= Es1 Et1]].
  eapply triple_seq; [apply quiet_triple; [done|]|]; [intros v r v' E; by apply (dw_now _ _ _ E)|]. cbn beta.
  intros now w2 Ho2 [_ [= Es2 Et2]]. rewrite Es1 in Es2. rewrite Et1 in Et2.
  destruct (t + 7200 * Second <? now); [apply triple_ret; [done|]; split_and!; [by eapply follows_view|done..]|].
  eapply triple_seq; [by apply user_triple|]. cbn beta. intros u w3 Ho3 [[= Es3 Et3] Hu]. rewrite Es2 in Es3. rewrite Et2 in Et3.
  eapply triple_seq; [apply quiet_triple; [done|]|].
  { apply keeps_for_range. intros s uid. unfold dropReported. apply keeps_bind; [|frame].
    apply keeps_wrap, Hu. }
  cbn beta. intros remaining w4 Ho4 [_ [= Es4 Et4]]. rewrite Es3 in Es4. rewrite Et3 in Et4.
  eapply triple_seq; [by apply copy_triple|]. cbn beta. intros old w5 Ho5 [-> Hold].
  eapply triple_seq; [apply triple_wrap, (patch_triple x); [done|by eapply follows_view|done]|]. cbn beta.
  intros x'' w6 Ho6 [Hf6 Ht6]. apply triple_ret; [done|]. split_and!; [done|congruence|done].
Qed.

(** A positive answer of the check, for a cluster that is like [c0]. *)
Lemma check_settles x w b x' w' : orderly w → alike c0 x →
  checkIfAllLoadbalancersAreGone d x w = (Ok (b, x'), w') → b = true → lbs_settled.
Proof.
  intros Ho Ha E Hb. destruct Ha as (Hcl & Han & Hdl). unfold lbs_settled.
  assert (Hno : no_awaited_lbs x ↔ no_awaited_lbs c0) by (unfold no_awaited_lbs, is_inTree, deletedLBs; by rewrite Hcl, Han).
  assert (Hd : deletedLBs x = deletedLBs c0) by (unfold deletedLBs; by rewrite Han).
  destruct (om_deletionTimestamp (cl_meta x)) as [t|] eqn:Et.
  - apply (loadbalancers_gone_spec d x t w b x' w' Et) in E. apply E in Hb. unfold dw_clock, dw_reported in *.
    rewrite (od_site _ Ho), Hno, Hd in Hb. destruct Hb as [?|[?|?]]; [by left| |by right; right]. right; left. exists t. by rewrite <- Hdl.
  - left. apply Hno. unfold no_awaited_lbs. unfold checkIfAllLoadbalancersAreGone in E.
    destruct (is_inTree x); [right|by left]. cbn [negb] in E. destruct (String.eqb_spec (deletedLBs x) ""); [done|].
    rewrite Et in E. discriminate E.
Qed.

Lemma has_finalizer x f : HasFinalizer (cl_meta x) [f] = true ↔ f ∈ om_finalizers (cl_meta x).
Proof. rewrite HasFinalizer_spec. set_solver. Qed.
Lemma has_no_finalizer x f : HasFinalizer (cl_meta x) [f] = false ↔ f ∉ om_finalizers (cl_meta x).
Proof. rewrite <- has_finalizer. by destruct (HasFinalizer _ _). Qed.

Lemma elem_of_removed : KubermaticConstraintCleanupFinalizer ∈ [InClusterLBCleanupFinalizer; InClusterPVCleanupFinalizer] → False.
Proof. intros Hf. repeat (apply elem_of_cons in Hf as [Hf|Hf]; [discriminate Hf|]). by apply elem_of_nil in Hf. Qed.

Lemma iff_given (P Q R : Prop) : P → (Q ↔ R) → Q ↔ (P → R).
Proof. tauto. Qed.

Lemma inCluster_triple x w : orderly w → matches x w → alike c0 x → untouched (KServices :: after_services) w →
  (∀ f, lb_or_pv f → f ∈ om_finalizers (cl_meta x) ↔ present f) →
  triple orderly w (cleanupInClusterResources d x) (λ x' w', matches x' w' ∧ untouched after_volumes w' ∧
    ((∃ f, lb_or_pv f ∧ f ∈ om_finalizers (cl_meta x')) ∨ inCluster_clean) ∧
    (inCluster_empty → no_awaited_lbs x → ∀ f, lb_or_pv f → f ∉ om_finalizers (cl_meta x')) ∧
    ∀ f, ¬ lb_or_pv f → f ∈ om_finalizers (cl_meta x') ↔ f ∈ om_finalizers (cl_meta x)).
Proof.
  intros Ho Hm Ha Hun Hfs. unfold cleanupInClusterResources.
  assert (Hlb := Hfs _ (or_introl eq_refl)). assert (Hpv := Hfs _ (or_intror eq_refl)).
  set (lbs := HasFinalizer (cl_meta x) [InClusterLBCleanupFinalizer]) in *.
  set (pvs := HasFinalizer (cl_meta x) [InClusterPVCleanupFinalizer]) in *.
  assert (Elb : lbs = true ↔ present InClusterLBCleanupFinalizer) by (unfold lbs; by rewrite has_finalizer).
  assert (Epv : pvs = true ↔ present InClusterPVCleanupFinalizer) by (unfold pvs; by rewrite has_finalizer).
  assert (Hu1 : untouched after_volumes w) by (intros k Hk; apply Hun; right; by apply after_volumes_services).
  destruct (negb lbs && negb pvs) eqn:Eno.
  { apply andb_true_iff in Eno as [El Ep]. apply negb_true_iff in El, Ep. apply triple_ret; [done|]. split_and!; [done..| | |done].
    - right. split; [split; intros Hp; exfalso; [apply Elb in Hp|apply Epv in Hp]; congruence|].
      intros (f & [->| ->] & Hp); exfalso; [apply Elb in Hp|apply Epv in Hp]; congruence.
    - intros _ _ f [->| ->]; apply has_no_finalizer; [exact El|exact Ep]. }
  assert (Hany : ∀ x' w', follows x x' w' → ∃ f, lb_or_pv f ∧ f ∈ om_finalizers (cl_meta x')).
  { intros x' w' [_ Hf]. destruct lbs eqn:El.
    - exists InClusterLBCleanupFinalizer. split; [by left|]. rewrite Hf, Hlb. by apply Elb.
    - destruct pvs eqn:Ep; [|done]. exists InClusterPVCleanupFinalizer. split; [by right|]. rewrite Hf, Hpv. by apply Epv. }
  eapply (triple_seq _ _ _ _ (λ '(deleted, x') w', follows x x' w' ∧ untouched after_services w' ∧
    (deleted = false → x' = x) ∧ (deleted = false ↔ (present InClusterLBCleanupFinalizer → gone KServices)))).
  { destruct lbs eqn:El.
    - eapply triple_consequence; [apply triple_wrap, cleanupLBs_triple; [by apply Elb|done..]|]. intros [b y] v (? & ? & ? & Hg). split_and!; [done..|]. apply iff_given; [by apply Elb|exact Hg].
    - apply triple_ret; [done|]. split_and!; [by split|intros k ?; apply Hun; by right|done|]. split; [|reflexivity]. intros _ Hp%Elb. discriminate Hp. }
  intros [deletedSome x1] w1 Ho1 (Hf1 & Hun1 & Hx1 & Hg1).
  eapply (triple_seq _ _ _ _ (λ deleted w', dw_stored w' = dw_stored w1 ∧ untouched after_volumes w' ∧
    (deleted = false ↔ (present InClusterPVCleanupFinalizer → gone KClaims ∧ gone KVolumes)))).
  { destruct pvs eqn:Ep.
    - eapply triple_consequence; [apply triple_wrap, cleanupVolumes_triple; [by apply Epv|done..]|]. cbn beta. intros b v (? & ? & Hg). split_and!; [done..|]. apply iff_given; [by apply Epv|exact Hg].
    - apply triple_ret; [done|]. split_and!; [done|intros k ?; by apply Hun1, after_volumes_services|]. split; [|reflexivity]. intros _ Hp%Epv. discriminate Hp. }
  intros deletedVolumes w2 Ho2 (Es2 & Hun2 & Hg2). apply (follows_view _ _ _ w2) in Hf1; [|done].
  assert (Hboth : deletedSome || deletedVolumes = false ↔ inCluster_empty) by (rewrite orb_false_iff, Hg1, Hg2; done).
  destruct (deletedSome || deletedVolumes) eqn:Ed.
  { apply triple_ret; [done|]. split_and!; [by apply Hf1|done|left; by eapply Hany|by intros ?%Hboth|]. intros f _. apply Hf1. }
  assert (Hempty : inCluster_empty) by by apply Hboth.
  apply orb_false_iff in Ed as [-> ->].
  rewrite (Hx1 eq_refl) in *. eapply (triple_seq _ _ _ _ (λ '(b, x'') w', follows x x'' w' ∧ dw_tables w' = dw_tables w2 ∧
    (no_awaited_lbs x → b = true) ∧ (b = true → lbs_settled))).
  { apply triple_wrap. intros r v E. destruct (check_triple x x w2 Ho2 Hf1 r v E) as [Hov Hr]. split; [done|]. intros [b y] ->.
    destruct (Hr _ eq_refl) as (? & ? & ?). split_and!; [done..|]. exact (check_settles x w2 b y v Ho2 Ha E). }
  intros [b x2] w3 Ho3 (Hf3 & Ht3 & Hb & Hset).
  apply (untouched_tables _ _ w3) in Hun2; [|done]. destruct (negb b) eqn:Eb.
  { apply triple_ret; [done|]. split_and!; [by apply Hf3|done|left; by eapply Hany| |intros f _; apply Hf3].
    intros _ Hno. by rewrite (Hb Hno) in Eb. }
  apply negb_false_iff in Eb. assert (Hclean : inCluster_clean) by (split; [done|intros _; by apply Hset]).
  eapply triple_consequence; [apply remove_triple; [done|by apply Hf3| |intros Hf; destruct (elem_of_removed Hf)]|].
  - intros f Hf _. left. right. split; [done|]. rewrite !elem_of_cons, elem_of_nil in Hf. tauto.
  - cbn beta. intros x' w' (Hm' & Ht' & _ & Hf'). split_and!; [done|by eapply untouched_tables|by right| |].
    { intros _ _ f Hf. rewrite Hf', !elem_of_cons. unfold lb_or_pv in Hf. tauto. }
    intros f Hnf. rewrite Hf', <- (proj2 Hf3 f), !elem_of_cons, elem_of_nil. unfold lb_or_pv in Hnf. tauto.
Qed.

(** ** Backup configurations and machines *)

Definition after_configs : list kind := [KDeployments; KSets; KMachines; KSecrets].

(** The finalizers of [x'] are those of [x], up to [f]. *)
Definition drops (f : string) (x x' : Cluster) : Prop :=
  (∀ g, g ∈ om_finalizers (cl_meta x') → g ∈ om_finalizers (cl_meta x)) ∧
  ∀ g, g ≠ f → g ∈ om_finalizers (cl_meta x) → g ∈ om_finalizers (cl_meta x').

Lemma drops_refl f x : drops f x x.
Proof. by split. Qed.

Lemma drop_triple x w f : orderly w → matches x w → f ≠ KubermaticConstraintCleanupFinalizer → (present f → evidence f) →
  triple orderly w (removeClusterFinalizers d x [f]) (λ x' w', matches x' w' ∧ dw_tables w' = dw_tables w ∧ drops f x x' ∧
    f ∉ om_finalizers (cl_meta x')).
Proof.
  intros Ho Hm Hne He. eapply triple_consequence; [apply remove_triple; [done..| |intros Hf%list_elem_of_singleton; by destruct Hne]|].
  - intros g ->%list_elem_of_singleton. exact He.
  - cbn beta. intros x' w' (? & ? & _ & Hf). split_and!; [done..| |rewrite Hf, list_elem_of_singleton; tauto]. split; intros g; rewrite Hf, list_elem_of_singleton; tauto.
Qed.

Lemma configs_triple x w : inCluster_clean → orderly w → matches x w → untouched after_volumes w →
  (EtcdBackupConfigCleanupFinalizer ∈ om_finalizers (cl_meta x) → present EtcdBackupConfigCleanupFinalizer) →
  triple orderly w (cleanupEtcdBackupConfigs d x) (λ x' w', matches x' w' ∧ untouched after_configs w' ∧
    drops EtcdBackupConfigCleanupFinalizer x x' ∧ (gone KConfigs → EtcdBackupConfigCleanupFinalizer ∉ om_finalizers (cl_meta x'))).
Proof.
  intros Hclean Ho Hm Hun Hp. unfold cleanupEtcdBackupConfigs.
  assert (Hun1 : untouched after_configs w).
  { intros k Hk. apply Hun. unfold after_configs, after_volumes in *. rewrite !elem_of_cons in *. tauto. }
  destruct (HasFinalizer (cl_meta x) _) eqn:Ef; cbn [negb];
    [|apply triple_ret; [done|]; split_and!; [done..|apply drops_refl|intros _; by apply has_no_finalizer]].
  apply has_finalizer in Ef. specialize (Hp Ef).
  eapply triple_seq; [apply triple_wrap, (list_triple (λ _, false) KConfigs); [done|apply dw_configs]|].
  cbn beta. intros l w1 Ho1 [[= Es1 Et1] He]. rewrite (mt_namespace _ _ Hm) in He.
  assert (Hu0 : untouched [KConfigs] w). { intros k ->%list_elem_of_singleton. apply Hun. unfold after_volumes. rewrite !elem_of_cons. tauto. }
  specialize (He Hu0). apply (untouched_tables _ _ w1) in Hun1; [|done]. apply (matches_view _ _ w1) in Hm; [|done].
  destruct l as [|b l].
  - eapply triple_consequence; [apply drop_triple; [done|done|discriminate|]|].
    + intros _. left. right. split; [done|]. right; right; right; left. split; [done|]. exact He.
    + cbn beta. intros x' w' (? & ? & ? & ?). split; [done|]. split; [by eapply untouched_tables|]. by split.
  - eapply triple_seq; [apply (only_triple KConfigs); [done| |exact (conj Hclean Hp)|done]|].
    { apply only_loop. intros _ o. apply only_wrap, dw_configs_delete. }
    cbn beta. intros _ w2 Ho2 [Es2 Hu2]. apply triple_ret; [done|]. split; [by eapply matches_view|].
    split; [|split; [apply drops_refl|intros Hg; change (dw_empty KConfigs ns (tab KConfigs (dw_tables w0)) = true) in Hg; by rewrite He in Hg]].
    apply Hu2; [|done]. unfold after_configs. rewrite !elem_of_cons, elem_of_nil. intuition congruence.
Qed.

(** One kind of the machine controller. *)
Lemma deleteAll_triple k (c : Client W MetaObject) msg msg' w rest : orderly w →
  match k with KDeployments | KSets | KMachines => True | _ => False end →
  lists dw_stored dw_tables dw_empty (dn_isNoMatchError d) k c NamespaceSystem (λ _, true) →
  (∀ o, only dw_stored dw_tables k (c_delete c o)) → may_touch k → k ∉ rest → untouched (k :: rest) w →
  triple orderly w (deleteAll d c msg msg') (λ some w', dw_stored w' = dw_stored w ∧ untouched rest w' ∧ (some = false ↔ gone k)).
Proof.
  intros Ho Hk Hl Hd Hmay Hni Hun. unfold deleteAll.
  eapply (triple_seq _ _ _ _ (λ l w', dw_view w' = dw_view w ∧ (l = [] ↔ gone k))).
  { apply triple_wrap. intros r w' E. unfold unless, mbind, M_MBind, M_bind, try in E.
    destruct (c_list c (inNamespace NamespaceSystem) w) as [o w1] eqn:El. destruct (Hl _ _ _ El) as (Hv & Hok & Hno).
    assert (Hg : gone k ↔ dw_empty k NamespaceSystem (tab k (dw_tables w)) = true).
    { unfold gone. rewrite <- (Hun k ltac:(left)). by destruct k. }
    destruct o as [l|e|m|]; cbn beta iota in E.
    - injection E as <- <-. split; [by eapply orderly_view|]. intros l' [= <-]. split; [done|]. rewrite Hg, (Hok l eq_refl). by destruct l.
    - destruct (dn_isNoMatchError d e) eqn:En; injection E as <- <-; (split; [by eapply orderly_view|]); [|done].
      intros l' [= <-]. split; [done|]. rewrite Hg, (Hno e eq_refl En). done.
    - injection E as <- <-. split; [by eapply orderly_view|done].
    - injection E as <- <-. split; [by eapply orderly_view|done]. }
  intros l w1 Ho1 [[= Es1 Et1] Hg]. apply (untouched_tables _ _ w1) in Hun; [|done].
  assert (Hun1 : untouched rest w1) by (intros j Hj; apply Hun; by right).
  destruct l as [|o l]; [apply triple_ret; [done|]; split; [done|]; split; [done|]; by rewrite <- Hg|].
  eapply triple_seq; [apply (only_triple k); [done| |done|by intros ->]|]; [apply only_loop; intros _ o'; apply only_wrap, Hd|].
  cbn beta. intros _ w2 Ho2 [Es2 Hu2]. apply triple_ret; [done|]. split; [congruence|]. split; [by apply Hu2|]. by rewrite <- Hg.
Qed.

Lemma nodes_triple x w : inCluster_clean → orderly w → matches x w → untouched after_configs w →
  (NodeDeletionFinalizer ∈ om_finalizers (cl_meta x) → present NodeDeletionFinalizer) →
  triple orderly w (cleanupNodes d x) (λ x' w', matches x' w' ∧ untouched [KSecrets] w' ∧ drops NodeDeletionFinalizer x x' ∧
    (gone KDeployments → gone KSets → gone KMachines → NodeDeletionFinalizer ∉ om_finalizers (cl_meta x'))).
Proof.
  intros Hclean Ho Hm Hun Hp. unfold cleanupNodes.
  assert (Hsub : ∀ w', untouched after_configs w' → untouched [KSecrets] w').
  { intros w' Hu k ->%list_elem_of_singleton. apply Hu. unfold after_configs. rewrite !elem_of_cons. tauto. }
  destruct (HasFinalizer (cl_meta x) _) eqn:Ef; cbn [negb];
    [|apply triple_ret; [done|]; split_and!; [done|by apply Hsub|apply drops_refl|intros _ _ _; by apply has_no_finalizer]].
  apply has_finalizer in Ef. specialize (Hp Ef).
  eapply triple_seq; [by apply user_triple|]. cbn beta. intros u w1 Ho1 [[= Es1 Et1] Hu].
  eapply triple_seq; [apply triple_wrap, quiet_triple; [done|apply Hu]|]. cbn beta. intros nodes w2 Ho2 [_ [= Es2 Et2]].
  eapply triple_seq; [apply quiet_triple; [done|]|].
  { apply keeps_for_range. intros _ n. unfold skipEviction. destruct (String.eqb _ "true"); [frame|].
    apply keeps_bind; [apply keeps_wrap, Hu|frame]. }
  cbn beta. intros _ w3 Ho3 [_ [= Es3 Et3]].
  assert (Hun3 : untouched after_configs w3) by (eapply untouched_tables; [|exact Hun]; congruence).
  assert (Hm3 : matches x w3) by (eapply matches_view; [|exact Hm]; congruence). clear Hm Hun.
  assert (Hret : ∀ w' ks, orderly w' → dw_stored w' = dw_stored w3 → KSecrets ∈ ks → untouched ks w' → ¬ (gone KDeployments ∧ gone KSets ∧ gone KMachines) →
    triple orderly w' (mret x) (λ x' w', matches x' w' ∧ untouched [KSecrets] w' ∧ drops NodeDeletionFinalizer x x' ∧
      (gone KDeployments → gone KSets → gone KMachines → NodeDeletionFinalizer ∉ om_finalizers (cl_meta x')))).
  { intros w' ks Ho' Es' Hin Hu' Hnot. apply triple_ret; [done|]. split; [by eapply matches_view|]. split; [|split; [apply drops_refl|intros ? ? ?; by destruct Hnot]].
    intros k ->%list_elem_of_singleton. by apply Hu'. }
  eapply triple_seq; [apply (deleteAll_triple KDeployments _ _ _ _ [KSets; KMachines; KSecrets]);
    [done|done|apply Hu|apply Hu|exact (conj Hclean Hp)|rewrite !elem_of_cons, elem_of_nil; intuition congruence|exact Hun3]|].
  cbn beta. intros someD w4 Ho4 (Es4 & Hu4 & HD). destruct someD.
  { eapply Hret; [done|done| |exact Hu4|intros (?%HD & _); discriminate]. rewrite !elem_of_cons; tauto. }
  apply proj1 in HD. specialize (HD eq_refl).
  eapply triple_seq; [apply (deleteAll_triple KSets _ _ _ _ [KMachines; KSecrets]);
    [done|done|apply Hu|apply Hu|exact (conj Hclean HD)|rewrite !elem_of_cons, elem_of_nil; intuition congruence|exact Hu4]|].
  cbn beta. intros someS w5 Ho5 (Es5 & Hu5 & HS). destruct someS.
  { eapply Hret; [done|congruence| |exact Hu5|intros (_ & ?%HS & _); discriminate]. rewrite !elem_of_cons; tauto. }
  apply proj1 in HS. specialize (HS eq_refl).
  eapply triple_seq; [apply (deleteAll_triple KMachines _ _ _ _ [KSecrets]);
    [done|done|apply Hu|apply Hu|exact (conj Hclean (conj HD HS))|rewrite list_elem_of_singleton; congruence|exact Hu5]|].
  cbn beta. intros someM w6 Ho6 (Es6 & Hu6 & HM). destruct someM.
  { eapply Hret; [done|congruence| |exact Hu6|intros (_ & _ & ?%HM); discriminate]. by left. }
  apply proj1 in HM. specialize (HM eq_refl).
  eapply triple_consequence; [apply drop_triple; [done|eapply matches_view; [|exact Hm3]; congruence|discriminate|]|].
  - intros _. left. right. split; [done|]. right; right; right; right. done.
  - cbn beta. intros x' w' (? & ? & ? & ?). split; [done|]. split; [by eapply untouched_tables|]. by split.
Qed.

(** ** The whole run *)

Lemma only_finalizer x f : HasOnlyFinalizer (cl_meta x) f = true → ∀ g, g ∈ om_finalizers (cl_meta x) → g = f.
Proof.
  unfold HasOnlyFinalizer, NewString. rewrite andb_true_iff, !bool_decide_eq_true. intros [Hin Hsz] g Hg.
  apply (size_singleton_inv (C := gset string) _ g f Hsz); [|done]. by apply elem_of_list_to_set.
Qed.

Lemma deleteSecret_only x : only dw_stored dw_tables KSecrets (deleteSecret d x).
Proof.
  unfold deleteSecret. destruct (String.eqb _ ""); [apply only_keeps; frame|].
  apply only_bind; [apply only_keeps, keeps_try, dw_secret_get|]. intros [e|s].
  - destruct (IsNotFound e); apply only_keeps; frame.
  - apply only_wrap, dw_secret_delete.
Qed.

(** The finalizers that deletion itself removes. *)
Definition kkpFinalizers : list string :=
  [KubermaticConstraintCleanupFinalizer; InClusterLBCleanupFinalizer; InClusterPVCleanupFinalizer;
   EtcdBackupConfigCleanupFinalizer; NodeDeletionFinalizer; ClusterRoleBindingsCleanupFinalizer; CredentialsSecretsCleanupFinalizer].

(** Nothing is left to wait for. *)
Record finished : Prop := {
  fd_namespace : cs_namespaceName (cl_status c0) ≠ "";
  fd_gone : ∀ k, k ≠ KSecrets → k ≠ KConstraints → gone k;
  fd_lbs : no_awaited_lbs c0;
  fd_finalizers : ∀ f, f ∈ om_finalizers (cl_meta c0) → f ∈ kkpFinalizers;
}.

Lemma only_finalizer_none x f : (∀ g, g ∈ om_finalizers (cl_meta x) → g = f) →
  HasOnlyFinalizer (cl_meta x) f = false → om_finalizers (cl_meta x) = [].
Proof.
  intros Hall Hno. destruct (om_finalizers (cl_meta x)) as [|g l] eqn:E; [done|]. exfalso. rewrite <- not_true_iff_false in Hno. apply Hno.
  assert (Hs : (NewString (om_finalizers (cl_meta x)) : gset string) = {[f]}).
  { apply set_eq. intros h. unfold NewString. rewrite elem_of_list_to_set, elem_of_singleton, E. split; [apply Hall|].
    intros ->. rewrite <- (Hall g) by left. left. }
  unfold HasOnlyFinalizer. rewrite Hs, andb_true_iff, !bool_decide_eq_true, size_singleton. set_solver.
Qed.

Lemma finished_rest x1 x2 x3 x4 x5 : finished →
  (∀ f, f ∈ om_finalizers (cl_meta x1) → present f) → KubermaticConstraintCleanupFinalizer ∉ om_finalizers (cl_meta x1) →
  (∀ f, lb_or_pv f → f ∉ om_finalizers (cl_meta x2)) →
  (∀ f, ¬ lb_or_pv f → f ∈ om_finalizers (cl_meta x2) ↔ f ∈ om_finalizers (cl_meta x1)) →
  drops EtcdBackupConfigCleanupFinalizer x2 x3 → EtcdBackupConfigCleanupFinalizer ∉ om_finalizers (cl_meta x3) →
  drops NodeDeletionFinalizer x3 x4 → NodeDeletionFinalizer ∉ om_finalizers (cl_meta x4) →
  drops ClusterRoleBindingsCleanupFinalizer x4 x5 → ClusterRoleBindingsCleanupFinalizer ∉ om_finalizers (cl_meta x5) →
  ∀ f, f ∈ om_finalizers (cl_meta x5) → f = CredentialsSecretsCleanupFinalizer.
Proof.
  intros Hfin Hp H1 H2 H12 [H23 _] H3 [H34 _] H4 [H45 _] H5 f Hf5.
  pose proof (H45 _ Hf5) as Hf4. pose proof (H34 _ Hf4) as Hf3. pose proof (H23 _ Hf3) as Hf2.
  assert (Hn : ¬ lb_or_pv f) by (intros ?; by apply (H2 f)). apply (H12 f Hn) in Hf2 as Hf1.
  pose proof (fd_finalizers Hfin f (Hp f Hf1)) as Hk. unfold kkpFinalizers in Hk. unfold lb_or_pv in Hn.
  rewrite !elem_of_cons, elem_of_nil in Hk. intuition (subst; contradiction).
Qed.

Lemma CleanupCluster_orderly : dw_stored w0 !! key = Some c0 →
  triple orderly w0 (CleanupCluster d c0) (λ x w', matches x w' ∧ (finished → om_finalizers (cl_meta x) = [])).
Proof.
  intros Hs0. assert (Ho : orderly w0).
  { split; [| |done|by left|done|].
    - intros f Hf Hn. destruct Hn. by exists c0.
    - intros s Hs. unfold key in Hs0. by assert (s = c0) as -> by congruence.
    - intros Hf Hn. destruct Hn. by exists c0. }
  assert (Hm : matches c0 w0).
  { split; [done..| |intros s Hs; by assert (s = c0) as -> by congruence].
    intros f. unfold holds, key in *. split; [eauto|]. intros (s & Hs & ?). congruence. }
  unfold CleanupCluster. eapply triple_seq; [apply (constraints_triple c0 w0 (KServices :: after_services)); try done|].
  { unfold after_services. rewrite !elem_of_cons, elem_of_nil. intuition congruence. }
  { by exists c0. }
  cbn beta. intros x1 w1 Ho1 (Hm1 & Ht1 & Ha1 & Hn1 & Hf1).
  assert (Hsub1 : ∀ x w f, orderly w → matches x w → f ∈ om_finalizers (cl_meta x) → present f).
  { intros x w f How Hmx Hf. apply (mt_finalizers _ _ Hmx) in Hf as (s & Hs & Hf). by apply (od_stored _ How s Hs). }
  assert (Hcl : finished → inCluster_empty) by (intros [_ Hg _ _]; split; intros _; [by apply Hg|split; by apply Hg]).
  eapply triple_seq; [apply inCluster_triple; [done..|]|].
  - intros f [->| ->]; apply Hf1; discriminate.
  - cbn beta. intros x2 w2 Ho2 (Hm2 & Hun2 & Hclean & Hl2 & Hf2).
    assert (Hl : finished → ∀ f, lb_or_pv f → f ∉ om_finalizers (cl_meta x2)).
    { intros Hfin. apply Hl2; [by apply Hcl|]. eapply no_awaited_lbs_alike; [exact Ha1|apply Hfin]. }
    destruct (HasAnyFinalizer (cl_meta x2) _) eqn:Eany.
    { apply triple_ret; [done|]. split; [done|]. intros Hfin. apply HasAnyFinalizer_spec in Eany as (f & Hf & Hin). exfalso.
      apply (Hl Hfin f); [|done]. unfold lb_or_pv. rewrite !elem_of_cons, elem_of_nil in Hf. tauto. }
    destruct Hclean as [(f & Hf & Hin)|Hclean].
    { exfalso. assert (HasAnyFinalizer (cl_meta x2) [InClusterLBCleanupFinalizer; InClusterPVCleanupFinalizer] = true); [|congruence].
      apply HasAnyFinalizer_spec. exists f. split; [|done]. rewrite !elem_of_cons. destruct Hf; tauto. }
    eapply triple_seq; [apply configs_triple; [done..|]; by eapply Hsub1|]. cbn beta. intros x3 w3 Ho3 (Hm3 & Hun3 & Hd3 & Hf3).
    eapply triple_seq; [apply nodes_triple; [done..|]; by eapply Hsub1|]. cbn beta. intros x4 w4 Ho4 (Hm4 & Hun4 & Hd4 & Hf4).
    eapply triple_seq; [apply drop_triple; [done|done|discriminate|]|].
    { intros _. left. right. split; [done|]. tauto. }
    cbn beta. intros x5 w5 Ho5 (Hm5 & Ht5 & Hd5 & Hf5).
    assert (Hrest : finished → ∀ f, f ∈ om_finalizers (cl_meta x5) → f = CredentialsSecretsCleanupFinalizer).
    { intros Hfin. pose proof (fd_gone Hfin) as Hg. eapply (finished_rest x1 x2 x3 x4 x5 Hfin); try eassumption.
      - by intros f Hf; eapply (Hsub1 x1 w1).
      - apply Hn1, Hfin.
      - by apply Hl.
      - by apply Hf3, Hg.
      - by apply Hf4; apply Hg. }
    destruct (HasFinalizer (cl_meta x5) _) eqn:Enode.
    { apply triple_ret; [done|]. split; [done|]. intros Hfin. apply has_finalizer in Enode. by apply (Hrest Hfin) in Enode. }
    destruct (HasOnlyFinalizer (cl_meta x5) _) eqn:Eonly.
    2: { apply triple_ret; [done|]. split; [done|]. intros Hfin. eapply only_finalizer_none; [by apply Hrest|done]. }
    assert (Hleft : only_credentials_left).
    { split; [done|]. intros g Hg Hne. assert (Hn : ¬ holds w5 g).
      { intros Hh. apply (mt_finalizers _ _ Hm5) in Hh. by apply Hne, (only_finalizer _ _ Eonly). }
      destruct (od_evidence _ Ho5 g Hg Hn) as [?|[? _]]; done. }
    eapply triple_seq; [apply (only_triple KSecrets); [done|apply deleteSecret_only|exact Hleft|done]|].
    cbn beta. intros _ w6 Ho6 [Es6 _]. eapply triple_consequence; [apply drop_triple; [done|by eapply matches_view|discriminate|]|].
    + intros _. by right.
    + intros x' w' (? & _ & [Hsub6 _] & Hn6). split; [done|]. intros Hfin. destruct (om_finalizers (cl_meta x')) as [|g l] eqn:E6; [done|].
      exfalso. assert (g = CredentialsSecretsCleanupFinalizer) as ->; [|apply Hn6; left]. apply (Hrest Hfin), Hsub6. left.
Qed.
End run.

(** C10: a run for a cluster that is being deleted, whatever its outcome, removes a
    finalizer from the stored cluster only with the evidence for it: that of the
    constraints after all constraints of the cluster's namespace were deleted, those of
    load balancers and volumes when both are gone from the user cluster and the check
    of the cloud's load balancers answers yes (no such load balancer, two hours since
    the deletion, or, inverted at [lb.go:162], an event still missing), then that of
    the backup configurations when there are none, that of the nodes when no machine
    deployment, set and machine is left, the credentials' one after all others.  The
    finalizer of the cluster role bindings stands for nothing any more and goes with no
    evidence but the clean user cluster.  A run never touches the finalizers of cloud
    providers and other clusters, and changes a table only in its turn: machine sets
    after the deployments are gone, machines after both, credentials when nothing else
    is left. *)
Theorem deletion_order `{SemverLib, StringSets} {W} (d : Deletion W) `{!DeletionWorld d} c w r w' :
  dw_stored w !! object_key c = Some c → CleanupCluster d c w = (r, w') →
  (∀ f, f ∈ om_finalizers (cl_meta c) → ¬ holds d c w' f → evidence d w c f) ∧
  (∀ s f, dw_stored w' !! object_key c = Some s → f ∈ om_finalizers (cl_meta s) → f ∈ om_finalizers (cl_meta c)) ∧
  (∀ j, j ≠ object_key c → dw_stored w' !! j = dw_stored w !! j) ∧
  (∀ k, tab k (dw_tables w') = tab k (dw_tables w) ∨ may_touch d w c k) ∧
  (KubermaticConstraintCleanupFinalizer ∈ om_finalizers (cl_meta c) → ¬ holds d c w' KubermaticConstraintCleanupFinalizer →
    constraints_doomed d c w').
Proof.
  intros Hs E. destruct (CleanupCluster_orderly d w c) with r w' as [[He Hst Hj Ht _ Hc] _]; [done|exact E|].
  split; [exact He|]. split; [intros s f Hs' Hf; by apply (Hst s Hs')|]. done.
Qed.

(** C23: when nothing of the cluster's resources is left and no load balancer is waited
    for, one run that succeeds removes every finalizer that KKP put on the cluster,
    so that the API server can remove it. *)
Theorem deletion_finishes `{SemverLib, StringSets} {W} (d : Deletion W) `{!DeletionWorld d} c w x w' :
  dw_stored w !! object_key c = Some c → finished d w c → CleanupCluster d c w = (Ok x, w') →
  om_finalizers (cl_meta x) = [] ∧ ∀ s, dw_stored w' !! object_key c = Some s → om_finalizers (cl_meta s) = [].
Proof.
  intros Hs Hfin E. destruct (CleanupCluster_orderly d w c Hs _ _ E) as [_ Hx]. destruct (Hx x eq_refl) as [Hm Hnil].
  split; [by apply Hnil|]. intros s Hs'. destruct (om_finalizers (cl_meta s)) as [|f l] eqn:Ef; [done|]. exfalso.
  assert (Hf : f ∈ om_finalizers (cl_meta x)) by (apply (mt_finalizers _ _ _ _ Hm); exists s; split; [done|rewrite Ef; left]).
  rewrite (Hnil Hfin) in Hf. by apply elem_of_nil in Hf.
Qed.
