(* ===== verification/Workloads.v ===== *)
(** * Workloads of a control plane

    The state of deployments, stateful sets and daemon sets as far as the
    controllers look at it: rollouts ([pkg/kubernetes/helper.go]), health
    ([pkg/resources/health.go]), and whether the controller manager of a cluster
    still runs its cloud controllers ([pkg/resources/data.go]). *)

From S2P Require Import Prelude ResourceNames Kube Semver Net CloudApi ClusterApi Helper Corev1 ClusterDeletion.

(** ** Data *)

Record DeploymentCondition := mkDeploymentCondition { dco_type : string; dco_reason : string }.

(** Of a deployment the spec with its containers, and the status. *)
Record Deployment := mkDeployment {
  dep_meta : ObjectMeta;
  dep_generation : Z;
  dep_replicas : option Z;
  dep_containers : list Container;
  dep_observedGeneration : Z;
  dep_statusReplicas : Z;
  dep_updatedReplicas : Z;
  dep_readyReplicas : Z;
  dep_availableReplicas : Z;
  dep_conditions : list DeploymentCondition;
}.
#[global] Program Instance Deployment_object : Object Deployment := {|
  obj_meta := dep_meta;
  set_meta m d := mkDeployment m (dep_generation d) (dep_replicas d) (dep_containers d) (dep_observedGeneration d)
    (dep_statusReplicas d) (dep_updatedReplicas d) (dep_readyReplicas d) (dep_availableReplicas d) (dep_conditions d);
|}.
Next Obligation. done. Qed.

Record EtcdSet := mkEtcdSet {
  ss_meta : ObjectMeta;
  ss_replicas : option Z;
  ss_containers : list Container;
  ss_statusReplicas : Z;
  ss_updatedReplicas : Z;
  ss_readyReplicas : Z;
}.
#[global] Program Instance EtcdSet_object : Object EtcdSet := {|
  obj_meta := ss_meta;
  set_meta m s := mkEtcdSet m (ss_replicas s) (ss_containers s) (ss_statusReplicas s) (ss_updatedReplicas s) (ss_readyReplicas s);
|}.
Next Obligation. done. Qed.

Record DaemonSet := mkDaemonSet { ds_meta : ObjectMeta; ds_numberReady : Z; ds_desiredNumberScheduled : Z }.
#[global] Program Instance DaemonSet_object : Object DaemonSet := {|
  obj_meta := ds_meta;
  set_meta m s := mkDaemonSet m (ds_numberReady s) (ds_desiredNumberScheduled s);
|}.
Next Obligation. done. Qed.

(** ** Rollouts *)

Definition RevisionAnnotation : string := "deployment.kubernetes.io/revision".
Definition DeploymentProgressing : string := "Progressing".

(** [strconv.ParseInt(s, 10, 64)]. *)
Fixpoint decimal_value (acc : Z) (s : chars) : option Z :=
  match s with
  | [] => Some acc
  | c :: rest => match decimal c with Some d => decimal_value (10 * acc + d) rest | None => None end
  end.
Definition ParseInt (s : string) : outcome Z :=
  let invalid := Err (ErrNew "invalid syntax") in
  let cs := String.list_ascii_of_string s in
  let '(negative, digits) :=
    match cs with
    | c :: rest => if is_char c "-" then (true, rest) else if is_char c "+" then (false, rest) else (false, cs)
    | [] => (false, [])
    end in
  match digits with
  | [] => invalid
  | _ =>
      match decimal_value 0 digits with
      | None => invalid
      | Some n =>
          let n := if (negative : bool) then - n else n in
          if (n <? - 2 ^ 63) || (2 ^ 63 <=? n) then Err (ErrNew "value out of range") else Ok n
      end
  end.

Definition Revision (m : ObjectMeta) : outcome Z :=
  match om_annotations m !! RevisionAnnotation with
  | None => Ok 0
  | Some v => ParseInt v
  end.

Definition GetDeploymentCondition (conditions : list DeploymentCondition) (condType : string) : option DeploymentCondition :=
  List.find (λ c, String.eqb (dco_type c) condType) conditions.

Definition IsDeploymentRolloutComplete (d : Deployment) (revision : Z) : outcome bool :=
  _ ← (if 0 <? revision then
         deploymentRev ← outcome_wrap "cannot get the revision of deployment" (Revision (dep_meta d));
         if negb (revision =? deploymentRev) then Err (ErrNew "desired revision is different from the running revision") else Ok tt
       else Ok tt);
  if negb (dep_generation d <=? dep_observedGeneration d) then Ok false else
  let exceeded :=
    match GetDeploymentCondition (dep_conditions d) DeploymentProgressing with
    | Some cond => String.eqb (dco_reason cond) "ProgressDeadlineExceeded"
    | None => false
    end in
  if exceeded then Err (ErrNew "deployment exceeded its progress deadline") else
  if match dep_replicas d with Some n => dep_updatedReplicas d <? n | None => false end then Ok false else
  if dep_updatedReplicas d <? dep_statusReplicas d then Ok false else
  if dep_availableReplicas d <? dep_updatedReplicas d then Ok false else
  Ok true.

(** ** Health *)

Section health.
Context {W : Type}.

(** [client.Get], where a missing object means that the component is down. *)
Definition get_or_down {O} (client : Client W O) (nn : NamespacedName) (status : O → outcome string) : M W string :=
  r ← try (c_get client nn);
  match r with
  | inl e => if IsNotFound e then mret HealthStatusDown else throw e
  | inr o => lift (status o)
  end.

(** A nil number of replicas is a panic, but only when enough replicas are ready. *)
Definition replicas_status (minReady ready updated statusReplicas : Z) (replicas : option Z) : outcome string :=
  if ready <? minReady then Ok HealthStatusDown else
  replicas ← deref replicas;
  if negb (updated =? replicas) || negb (ready =? replicas) || negb (statusReplicas =? replicas)
  then Ok HealthStatusProvisioning else Ok HealthStatusUp.

Definition HealthyDeployment (client : Client W Deployment) (nn : NamespacedName) (minReady : Z) : M W string :=
  get_or_down client nn (λ d,
    replicas_status minReady (dep_readyReplicas d) (dep_updatedReplicas d) (dep_statusReplicas d) (dep_replicas d)).

Definition HealthyStatefulSet (client : Client W EtcdSet) (nn : NamespacedName) (minReady : Z) : M W string :=
  get_or_down client nn (λ s,
    replicas_status minReady (ss_readyReplicas s) (ss_updatedReplicas s) (ss_statusReplicas s) (ss_replicas s)).

Definition HealthyDaemonSet (client : Client W DaemonSet) (nn : NamespacedName) (minReady : Z) : M W string :=
  get_or_down client nn (λ s,
    if ds_numberReady s <? minReady then Ok HealthStatusDown
    else if negb (ds_numberReady s =? ds_desiredNumberScheduled s) then Ok HealthStatusProvisioning
    else Ok HealthStatusUp).
End health.

(** ** The cloud controllers of the controller manager *)

Definition cloudProviderExternalFlag : string := "external".

(** [httpproberapi.Command], the JSON argument of the wrapper. *)
Record Command := mkCommand { cmd_command : string; cmd_args : list string }.

Section kcm.
Context (unmarshal : string → option Command).

(** The first [-command] that is followed by another argument decides. *)
Fixpoint unwrapArgs (args : list string) : option Command :=
  match args with
  | arg :: ((next :: _) as rest) => if String.eqb arg "-command" then unmarshal next else unwrapArgs rest
  | _ => None
  end.
Definition UnwrapCommand (container : Container) : option Command := unwrapArgs (ct_args container).

Fixpoint getArgValue (args : list string) (argName : string) : option string :=
  match args with
  | [] => None
  | arg :: rest => if String.eqb arg argName then head rest else getArgValue rest argName
  end.

Definition getContainer (d : Deployment) (containerName : string) : option Container :=
  List.find (λ c, String.eqb (ct_name c) containerName) (dep_containers d).

Definition cloudControllersDisabled (args : list string) : bool :=
  match getArgValue args "--cloud-provider" with
  | None => true
  | Some val =>
      if String.eqb val cloudProviderExternalFlag then true else
      match getArgValue args "--controllers" with
      | None => false
      | Some val => forallb (λ c, existsb (String.eqb c) (split_comma val)) ["-cloud-node-lifecycle"; "-route"; "-service"]
      end
  end.

Definition KCMCloudControllersDeactivated {W} (client : Client W Deployment) (namespace : string) : M W bool :=
  r ← try (c_get client (mkKey namespace ControllerManagerDeploymentName));
  match r with
  | inl _ => mret false
  | inr kcm =>
      ready ← (match IsDeploymentRolloutComplete kcm 0 with
               | Ok b => mret b
               | Err _ => mret false
               | Panic m => panic m
               | OutOfFuel => λ w, (OutOfFuel, w)
               end);
      mret (match getContainer kcm ControllerManagerDeploymentName with
            | None => false
            | Some c =>
                match UnwrapCommand c with
                | None => false
                | Some cmd => (ready : bool) && cloudControllersDisabled (cmd_args cmd)
                end
            end)
  end.
End kcm.
