(* ===== verification/ControlPlane.v ===== *)
(** * The objects of a control plane

    What the cluster controller deploys for a cluster and what it removes:
    [pkg/controller/seed-controller-manager/kubernetes/resources.go], with the names
    that the packages below [pkg/resources] give to their objects.  A creator is
    represented by the name of its object; what the object contains, the template,
    is not modelled. *)

From S2P Require Import Prelude ResourceNames Kube Semver Net CloudApi ClusterApi Helper Corev1 EtcdBackup VersionManager Field ClusterDefaulting ClusterDeletion Workloads.

(** ** Data *)

Inductive ResourceKind :=
| RService | RServiceAccount | RRole | RRoleBinding | RClusterRole | RClusterRoleBinding | RNetworkPolicy | RSecret
| RConfigMap | RDeployment | RStatefulSet | RCronJob | RPodDisruptionBudget | RVerticalPodAutoscaler | REtcdBackupConfig.
#[global] Instance ResourceKind_eq_dec : EqDecision ResourceKind.
Proof. solve_decision. Defined.

(** An object of a control plane. *)
Record Resource := mkResource { rs_kind : ResourceKind; rs_key : NamespacedName }.
#[global] Instance Resource_eq_dec : EqDecision Resource.
Proof. solve_decision. Defined.

Record Features := mkFeatures {
  ft_VPA : bool;
  ft_EtcdDataCorruptionChecks : bool;
  ft_KubernetesOIDCAuthentication : bool;
  ft_EtcdLauncher : bool;
  ft_Konnectivity : bool;
}.

Record TemplateData := mkTemplateData {
  td_cluster : Cluster;
  td_dc : Datacenter;
  td_seed : Seed;
  td_config : KubermaticConfiguration;
  td_OverwriteRegistry : string;
  td_nodePortRange : string;
  td_nodeAccessNetwork : string;
  td_etcdDiskSize : string;
  td_oidcIssuerURL : string;
  td_oidcIssuerClientID : string;
  td_kubermaticImage : string;
  td_etcdLauncherImage : string;
  td_dnatControllerImage : string;
  td_machineControllerImageTag : string;
  td_machineControllerImageRepository : string;
  td_backupSchedule : Z;
  td_versions : Versions;
  td_caBundle : string;
  td_supportsFailureDomainZoneAntiAffinity : bool;
  td_userClusterMLAEnabled : bool;
  td_isKonnectivityEnabled : bool;
}.

(** The template data holds a pointer to the cluster: it sees its changes. *)
Definition set_td_cluster (c : Cluster) (d : TemplateData) : TemplateData :=
  mkTemplateData c (td_dc d) (td_seed d) (td_config d) (td_OverwriteRegistry d) (td_nodePortRange d) (td_nodeAccessNetwork d)
    (td_etcdDiskSize d) (td_oidcIssuerURL d) (td_oidcIssuerClientID d) (td_kubermaticImage d) (td_etcdLauncherImage d)
    (td_dnatControllerImage d) (td_machineControllerImageTag d) (td_machineControllerImageRepository d) (td_backupSchedule d)
    (td_versions d) (td_caBundle d) (td_supportsFailureDomainZoneAntiAffinity d) (td_userClusterMLAEnabled d)
    (td_isKonnectivityEnabled d).

(** What a creator gets beside the template data. *)
Inductive TemplateArgs :=
| NoArgs
| OIDCAuthentication (enabled : bool)
| EtcdArgs (dataCorruptionChecks tlsOnly : bool)
| EgressIPs (ips : list IP)
| TargetNamespace (ns : ObjectMeta)
| VPATarget (pod : list Container) (controllerRef : OwnerReference) (enabled : bool).
Definition plain (names : list string) : list (string * TemplateArgs) := map (λ n, (n, NoArgs)) names.

(** Settings of the spec that nothing else models, by their JSON path. *)
Definition KubernetesDashboardEnabled (s : ClusterSpec) : bool :=
  bool_decide (sp_rest s !! "kubernetesDashboard.enabled" = Some "true").
Definition OIDC_IssuerURL (s : ClusterSpec) : string := default "" (sp_rest s !! "oidc.issuerUrl").

(** [features.Konnectivity && KonnectivityEnabled != nil && *KonnectivityEnabled] *)
Definition konnectivity (f : Features) (c : Cluster) : bool :=
  ft_Konnectivity f && default false (cn_konnectivityEnabled (sp_clusterNetwork (cl_spec c))).

Definition is_loadBalancer (c : Cluster) : bool := String.eqb (sp_exposeStrategy (cl_spec c)) ExposeStrategyLoadBalancer.

(** [if b { l = append(l, ...) }] *)
Definition when {A} (b : bool) (l : list A) : list A := if b then l else [].

(** ** Creators *)

Definition GetServiceCreators (d : TemplateData) : list string :=
  [ApiserverServiceName; EtcdServiceName; MachineControllerWebhookServiceName; UserClusterWebhookServiceName] ++
  (if td_isKonnectivityEnabled d then [KonnectivityProxyServiceName]
   else [OpenVPNServerServiceName; MetricsServerServiceName; DNSResolverServiceName]) ++
  when (is_loadBalancer (td_cluster d)) [FrontLoadBalancerServiceName].

(** The name of [cloudcontroller.DeploymentCreator]. *)
Definition cloudControllerDeployment (c : Cluster) : string :=
  let cloud := sp_cloud (cl_spec c) in
  if is_some (cd_openstack cloud) then OpenstackCCMDeploymentName
  else if is_some (cd_hetzner cloud) then HetznerCCMDeploymentName
  else if is_some (cd_anexia cloud) then AnexiaCCMDeploymentName
  else if is_some (cd_vsphere cloud) then vsphereCCMDeploymentName
  else if is_some (cd_kubevirt cloud) then KubeVirtCCMDeploymentName
  else "unsupported".

(** Whether the external cloud controller may be deployed; the controller manager is
    asked only during a migration. *)
Definition ccmAllowed {W} (kcmDeactivated : M W bool) (c : Cluster) : M W bool :=
  if negb (map_bool (sp_features (cl_spec c)) ClusterFeatureExternalCloudProvider) then mret false
  else if negb (is_some (om_annotations (cl_meta c) !! CCMMigrationNeededAnnotation)) then mret true
  else kcmDeactivated.

Definition deploymentsWith (d : TemplateData) (ccm : bool) : list string :=
  let cluster := td_cluster d in
  [ApiserverDeploymentName; SchedulerDeploymentName; ControllerManagerDeploymentName; MachineControllerDeploymentName;
   MachineControllerWebhookDeploymentName; UserClusterControllerDeploymentName; UserClusterWebhookDeploymentName;
   webTerminalName] ++
  when (KubernetesDashboardEnabled (cl_spec cluster)) [KubernetesDashboardDeploymentName] ++
  when (negb (td_isKonnectivityEnabled d)) [OpenVPNServerDeploymentName; MetricsServerDeploymentName; DNSResolverDeploymentName] ++
  when ccm [cloudControllerDeployment cluster] ++
  when (sp_enableOperatingSystemManager (cl_spec cluster)) [OperatingSystemManagerDeploymentName] ++
  when (is_loadBalancer cluster) [NodePortProxyEnvoyDeploymentName; nodeportProxyName +:+ "-lb-updater"].

Definition GetDeploymentCreators {W} (kcmDeactivated : M W bool) (d : TemplateData) : M W (list string) :=
  ccm ← ccmAllowed kcmDeactivated (td_cluster d);
  mret (deploymentsWith d ccm).

Definition GetSecretCreators (d : TemplateData) : list string :=
  let cluster := td_cluster d in
  [CASecretName; FrontProxyCASecretName; ImagePullSecretName; ApiserverFrontProxyClientCertificateSecretName;
   EtcdTLSCertificateSecretName; ApiserverEtcdClientCertificateSecretName; ApiserverTLSSecretName;
   KubeletClientCertificatesSecretName; ServiceAccountKeySecretName; MachineControllerWebhookServingCertSecretName;
   UserClusterWebhookServingCertSecretName; SchedulerKubeconfigSecretName; MachineControllerKubeconfigSecretName;
   OperatingSystemManagerKubeconfigSecretName; ControllerManagerKubeconfigSecretName; KubeStateMetricsKubeconfigSecretName;
   InternalUserClusterAdminKubeconfigSecretName; ClusterAutoscalerKubeconfigSecretName; AdminKubeconfigSecretName;
   ViewerTokenSecretName; TokensSecretName; ViewerKubeconfigSecretName] ++
  when (KubernetesDashboardEnabled (cl_spec cluster)) [KubernetesDashboardKubeconfigSecretName] ++
  (if td_isKonnectivityEnabled d then [KonnectivityProxyTLSSecretName; KonnectivityKubeconfigSecretName]
   else [OpenVPNCASecretName; OpenVPNServerCertificatesSecretName; OpenVPNClientCertificatesSecretName;
         ServingCertSecretName; MetricsServerKubeconfigSecretName; KubeletDnatControllerKubeconfigSecretName]) ++
  when (IsEncryptionEnabled cluster || IsEncryptionActive cluster) [EncryptionConfigurationSecretName] ++
  when (map_bool (sp_features (cl_spec cluster)) ClusterFeatureExternalCloudProvider) [CloudControllerManagerKubeconfigSecretName] ++
  when (is_some (cd_gcp (sp_cloud (cl_spec cluster)))) [GoogleServiceAccountSecretName].

Definition serviceAccountCreators (c : Cluster) : list string :=
  [EtcdLauncherServiceAccountName; userclusterServiceAccountName; machineControllerServiceAccountName;
   machineControllerWebhookServiceAccountName; webhookServiceAccountName] ++
  when (sp_enableOperatingSystemManager (cl_spec c)) [osmServiceAccountName] ++
  when (is_loadBalancer c) [nodeportProxyName].
Definition roleCreators (c : Cluster) : list string :=
  [userclusterRoleName; machineControllerWebhookRoleName] ++
  when (sp_enableOperatingSystemManager (cl_spec c)) [osmRoleName] ++
  when (is_loadBalancer c) [nodeportProxyName].
Definition roleBindingCreators (c : Cluster) : list string :=
  [userclusterRoleBindingName; machineControllerWebhookRoleBindingName] ++
  when (sp_enableOperatingSystemManager (cl_spec c)) [osmRoleBindingName] ++
  when (is_loadBalancer c) [nodeportProxyName].
Definition clusterRoleCreators : list string := [userclusterRoleName; webhookRoleName].
Definition GenClusterRoleBindingName (targetNamespace : string) : string := userclusterRoleBindingName +:+ "-" +:+ targetNamespace.
Definition GenerateRoleName (targetNamespace : string) : string := webhookRoleBindingName +:+ "-" +:+ targetNamespace.
Definition clusterRoleBindingCreators (namespace : string) : list string :=
  [GenClusterRoleBindingName namespace; GenerateRoleName namespace].

(** Of [ensureNetworkPolicies]: the addresses of the cluster and those of the OIDC
    issuer, if there is one, go into the policies. *)
Definition networkPolicyCreators (d : TemplateData) (externalIPs : list IP) (issuerIPs : option (list IP))
    : list (string * TemplateArgs) :=
  plain [NetworkPolicyDefaultDenyAllEgress; NetworkPolicyDNSAllow; NetworkPolicyEtcdAllow;
         NetworkPolicyMachineControllerWebhookAllow] ++
  (if td_isKonnectivityEnabled d then [(NetworkPolicyClusterExternalAddrAllow, EgressIPs externalIPs)]
   else plain [NetworkPolicyOpenVPNServerAllow; NetworkPolicyMetricsServerAllow]) ++
  match issuerIPs with Some ips => [(NetworkPolicyOIDCIssuerAllow, EgressIPs ips)] | None => [] end.

Definition GetConfigMapCreators (d : TemplateData) : list string :=
  let cloud := sp_cloud (cl_spec (td_cluster d)) in
  [CloudConfigConfigMapName; AuditConfigMapName; AdmissionControlConfigMapName; CABundleConfigMapName] ++
  (if td_isKonnectivityEnabled d then [KonnectivityKubeApiserverEgress]
   else [OpenVPNClientConfigsConfigMapName; DNSResolverConfigMapName]) ++
  when (is_some (cd_vsphere cloud)) [CSICloudConfigName] ++
  when (match cd_nutanix cloud with Some n => is_some (nx_csi n) | None => false end) [CSICloudConfigName].

Definition GetStatefulSetCreators : list string := [EtcdStatefulSetName].
Definition GetEtcdBackupConfigCreators : list string := [EtcdDefaultBackupConfigName].
Definition GetPodDisruptionBudgetCreators (d : TemplateData) : list string :=
  [EtcdPodDisruptionBudgetName; ApiserverPodDisruptionBudgetName] ++
  when (negb (td_isKonnectivityEnabled d)) [MetricsServerPodDisruptionBudgetName; DNSResolverPodDisruptionBudetName] ++
  when (is_loadBalancer (td_cluster d)) [nodeportProxyName +:+ "-envoy"].
Definition GetCronJobCreators : list string := [EtcdDefragCronJobName].

(** The deployments that get an autoscaler. *)
Definition controlPlaneDeploymentNames (d : TemplateData) : list string :=
  [MachineControllerDeploymentName; MachineControllerWebhookDeploymentName; ApiserverDeploymentName;
   ControllerManagerDeploymentName; SchedulerDeploymentName] ++
  when (negb (td_isKonnectivityEnabled d)) [OpenVPNServerDeploymentName; MetricsServerDeploymentName; DNSResolverDeploymentName].

(** ** Removals *)

Definition in_ns (ns : string) (kind : ResourceKind) (name : string) : Resource := mkResource kind (mkKey ns name).

Definition gatekeeper_GetResourcesToRemoveOnDelete (ns : string) : list Resource :=
  [in_ns ns RDeployment GatekeeperControllerDeploymentName; in_ns ns RDeployment GatekeeperAuditDeploymentName;
   in_ns ns RService GatekeeperWebhookServiceName; in_ns ns RServiceAccount GatekeeperServiceAccountName;
   in_ns ns RRole GatekeeperRoleName; in_ns ns RRoleBinding GatekeeperRoleBindingName].
Definition kubernetesdashboard_ResourcesForDeletion (ns : string) : list Resource :=
  [in_ns ns RDeployment KubernetesDashboardDeploymentName; in_ns ns RSecret KubernetesDashboardKubeconfigSecretName].
Definition osm_ResourcesForDeletion (ns : string) : list Resource :=
  [in_ns ns RDeployment OperatingSystemManagerDeploymentName; in_ns ns RServiceAccount osmServiceAccountName;
   in_ns ns RRole osmRoleName; in_ns ns RRoleBinding osmRoleBindingName].
Definition openvpn_ResourcesForDeletion (ns : string) : list Resource :=
  [in_ns ns RDeployment OpenVPNServerDeploymentName; in_ns ns RService OpenVPNServerServiceName;
   in_ns ns RConfigMap OpenVPNClientConfigsConfigMapName; in_ns ns RSecret OpenVPNServerCertificatesSecretName;
   in_ns ns RSecret OpenVPNClientCertificatesSecretName; in_ns ns RSecret OpenVPNCASecretName;
   in_ns ns RVerticalPodAutoscaler OpenVPNServerDeploymentName; in_ns ns RNetworkPolicy NetworkPolicyOpenVPNServerAllow].
Definition metricsserver_ResourcesForDeletion (ns : string) : list Resource :=
  [in_ns ns RDeployment MetricsServerDeploymentName; in_ns ns RService MetricsServerServiceName;
   in_ns ns RSecret ServingCertSecretName; in_ns ns RSecret MetricsServerKubeconfigSecretName;
   in_ns ns RPodDisruptionBudget MetricsServerPodDisruptionBudgetName;
   in_ns ns RVerticalPodAutoscaler MetricsServerDeploymentName; in_ns ns RNetworkPolicy NetworkPolicyMetricsServerAllow].
Definition dns_ResourcesForDeletion (ns : string) : list Resource :=
  [in_ns ns RDeployment DNSResolverDeploymentName; in_ns ns RService DNSResolverServiceName;
   in_ns ns RConfigMap DNSResolverConfigMapName; in_ns ns RPodDisruptionBudget DNSResolverPodDisruptionBudetName;
   in_ns ns RVerticalPodAutoscaler DNSResolverDeploymentName].
Definition konnectivity_ResourcesForDeletion (ns : string) : list Resource :=
  [in_ns ns RService KonnectivityProxyServiceName; in_ns ns RConfigMap KonnectivityKubeApiserverEgress;
   in_ns ns RSecret KonnectivityKubeconfigSecretName; in_ns ns RSecret KonnectivityProxyTLSSecretName;
   in_ns ns RNetworkPolicy NetworkPolicyClusterExternalAddrAllow].
Definition EncryptionResourcesForDeletion (ns : string) : list Resource := [in_ns ns RSecret EncryptionConfigurationKeyName].
