(* ===== verification/ControlPlaneSpec.v ===== *)
(** * Control planes by component

    [resources.go] lists the objects of a control plane by kind, each list with its
    own conditions; switching a component on or off has to change all of them
    together, and the lists of what is to be removed too.  Here the same objects are
    listed by component, and the two views are shown to agree. *)

From S2P Require Import Prelude ResourceNames Kube Semver Net CloudApi ClusterApi Helper Corev1 EtcdBackup VersionManager Field ClusterDefaulting ClusterDeletion Workloads ControlPlane.

(** ** Components *)

Inductive Component :=
| CBase | CDashboard | COpenVPN | CKonnectivity | COSM | CFrontLB | CEncryption | CExternalCloud | CCloudController
| CGCP | CCSI | CBackup | CPolicies | COpenVPNPolicies | CKonnectivityPolicies | CIssuerPolicy | CGatekeeper.
#[global] Instance Component_eq_dec : EqDecision Component.
Proof. solve_decision. Defined.

(** The names of the objects of a component, by kind; [ccm] is the name of the cloud
    controller. *)
Definition base_names (k : ResourceKind) : list string :=
  match k with
  | RService => [ApiserverServiceName; EtcdServiceName; MachineControllerWebhookServiceName; UserClusterWebhookServiceName]
  | RDeployment => [ApiserverDeploymentName; SchedulerDeploymentName; ControllerManagerDeploymentName;
      MachineControllerDeploymentName; MachineControllerWebhookDeploymentName; UserClusterControllerDeploymentName;
      UserClusterWebhookDeploymentName; webTerminalName]
  | RSecret => [CASecretName; FrontProxyCASecretName; ImagePullSecretName; ApiserverFrontProxyClientCertificateSecretName;
      EtcdTLSCertificateSecretName; ApiserverEtcdClientCertificateSecretName; ApiserverTLSSecretName;
      KubeletClientCertificatesSecretName; ServiceAccountKeySecretName; MachineControllerWebhookServingCertSecretName;
      UserClusterWebhookServingCertSecretName; SchedulerKubeconfigSecretName; MachineControllerKubeconfigSecretName;
      OperatingSystemManagerKubeconfigSecretName; ControllerManagerKubeconfigSecretName; KubeStateMetricsKubeconfigSecretName;
      InternalUserClusterAdminKubeconfigSecretName; ClusterAutoscalerKubeconfigSecretName; AdminKubeconfigSecretName;
      ViewerTokenSecretName; TokensSecretName; ViewerKubeconfigSecretName]
  | RServiceAccount => [EtcdLauncherServiceAccountName; userclusterServiceAccountName; machineControllerServiceAccountName;
      machineControllerWebhookServiceAccountName; webhookServiceAccountName]
  | RRole => [userclusterRoleName; machineControllerWebhookRoleName]
  | RRoleBinding => [userclusterRoleBindingName; machineControllerWebhookRoleBindingName]
  | RConfigMap => [CloudConfigConfigMapName; AuditConfigMapName; AdmissionControlConfigMapName; CABundleConfigMapName]
  | RStatefulSet => [EtcdStatefulSetName]
  | RCronJob => [EtcdDefragCronJobName]
  | RPodDisruptionBudget => [EtcdPodDisruptionBudgetName; ApiserverPodDisruptionBudgetName]
  | RVerticalPodAutoscaler => [MachineControllerDeploymentName; MachineControllerWebhookDeploymentName;
      ApiserverDeploymentName; ControllerManagerDeploymentName; SchedulerDeploymentName; EtcdStatefulSetName]
  | _ => []
  end.
Definition openvpn_names (k : ResourceKind) : list string :=
  match k with
  | RService => [OpenVPNServerServiceName; MetricsServerServiceName; DNSResolverServiceName]
  | RDeployment | RVerticalPodAutoscaler => [OpenVPNServerDeploymentName; MetricsServerDeploymentName; DNSResolverDeploymentName]
  | RSecret => [OpenVPNCASecretName; OpenVPNServerCertificatesSecretName; OpenVPNClientCertificatesSecretName;
      ServingCertSecretName; MetricsServerKubeconfigSecretName; KubeletDnatControllerKubeconfigSecretName]
  | RConfigMap => [OpenVPNClientConfigsConfigMapName; DNSResolverConfigMapName]
  | RPodDisruptionBudget => [MetricsServerPodDisruptionBudgetName; DNSResolverPodDisruptionBudetName]
  | _ => []
  end.
Definition names (ccm : string) (comp : Component) (k : ResourceKind) : list string :=
  match comp, k with
  | CBase, _ => base_names k
  | CDashboard, RDeployment => [KubernetesDashboardDeploymentName]
  | CDashboard, RSecret => [KubernetesDashboardKubeconfigSecretName]
  | COpenVPN, _ => openvpn_names k
  | CKonnectivity, RService => [KonnectivityProxyServiceName]
  | CKonnectivity, RSecret => [KonnectivityProxyTLSSecretName; KonnectivityKubeconfigSecretName]
  | CKonnectivity, RConfigMap => [KonnectivityKubeApiserverEgress]
  | COSM, RDeployment => [OperatingSystemManagerDeploymentName]
  | COSM, RServiceAccount => [osmServiceAccountName]
  | COSM, RRole => [osmRoleName]
  | COSM, RRoleBinding => [osmRoleBindingName]
  | CFrontLB, RService => [FrontLoadBalancerServiceName]
  | CFrontLB, RDeployment => [NodePortProxyEnvoyDeploymentName; nodeportProxyName +:+ "-lb-updater"]
  | CFrontLB, (RServiceAccount | RRole | RRoleBinding) => [nodeportProxyName]
  | CFrontLB, RPodDisruptionBudget => [nodeportProxyName +:+ "-envoy"]
  | CEncryption, RSecret => [EncryptionConfigurationSecretName]
  | CExternalCloud, RSecret => [CloudControllerManagerKubeconfigSecretName]
  | CCloudController, RDeployment => [ccm]
  | CGCP, RSecret => [GoogleServiceAccountSecretName]
  | CCSI, RConfigMap => [CSICloudConfigName]
  | CBackup, REtcdBackupConfig => [EtcdDefaultBackupConfigName]
  | CPolicies, RNetworkPolicy => [NetworkPolicyDefaultDenyAllEgress; NetworkPolicyDNSAllow; NetworkPolicyEtcdAllow;
      NetworkPolicyMachineControllerWebhookAllow]
  | COpenVPNPolicies, RNetworkPolicy => [NetworkPolicyOpenVPNServerAllow; NetworkPolicyMetricsServerAllow]
  | CKonnectivityPolicies, RNetworkPolicy => [NetworkPolicyClusterExternalAddrAllow]
  | CIssuerPolicy, RNetworkPolicy => [NetworkPolicyOIDCIssuerAllow]
  | CGatekeeper, RDeployment => [GatekeeperControllerDeploymentName; GatekeeperAuditDeploymentName]
  | CGatekeeper, RService => [GatekeeperWebhookServiceName]
  | CGatekeeper, RServiceAccount => [GatekeeperServiceAccountName]
  | CGatekeeper, RRole => [GatekeeperRoleName]
  | CGatekeeper, RRoleBinding => [GatekeeperRoleBindingName]
  | _, _ => []
  end.

(** What decides about a component. *)
Record Conditions := mkConditions { cd_issuer : bool; cd_backup : bool; cd_ccm : bool }.

Definition has_feature (c : Cluster) (f : string) : bool := map_bool (sp_features (cl_spec c)) f.
Definition has_csi (c : Cluster) : bool :=
  is_some (cd_vsphere (sp_cloud (cl_spec c))) ||
  match cd_nutanix (sp_cloud (cl_spec c)) with Some n => is_some (nx_csi n) | None => false end.

Definition enabled (f : Features) (c : Cluster) (q : Conditions) (comp : Component) : bool :=
  let policies := has_feature c ApiserverNetworkPolicy in
  match comp with
  | CBase => true
  | CDashboard => KubernetesDashboardEnabled (cl_spec c)
  | COpenVPN => negb (konnectivity f c)
  | CKonnectivity => konnectivity f c
  | COSM => sp_enableOperatingSystemManager (cl_spec c)
  | CFrontLB => is_loadBalancer c
  | CEncryption => IsEncryptionEnabled c || IsEncryptionActive c
  | CExternalCloud => has_feature c ClusterFeatureExternalCloudProvider
  | CCloudController => cd_ccm q
  | CGCP => is_some (cd_gcp (sp_cloud (cl_spec c)))
  | CCSI => has_csi c
  | CBackup => cd_backup q
  | CPolicies => policies
  | COpenVPNPolicies => policies && negb (konnectivity f c)
  | CKonnectivityPolicies => policies && konnectivity f c
  | CIssuerPolicy => policies && cd_issuer q
  | CGatekeeper => false
  end.

(** The components that a run removes. *)
Definition dropped (f : Features) (c : Cluster) (q : Conditions) (comp : Component) : bool :=
  match comp with
  | CDashboard => negb (KubernetesDashboardEnabled (cl_spec c))
  | COpenVPN | COpenVPNPolicies => konnectivity f c
  | CKonnectivity | CKonnectivityPolicies => ft_Konnectivity f && negb (konnectivity f c)
  | COSM => negb (sp_enableOperatingSystemManager (cl_spec c))
  | CBackup => negb (cd_backup q)
  | CGatekeeper => true
  | _ => false
  end.

(** An object of a component, in the namespace of the cluster. *)
Definition object_of (ns ccm : string) (comp : Component) (x : Resource) : Prop :=
  ∃ k n, x = in_ns ns k n ∧ n ∈ names ccm comp k.

Lemma dropped_not_enabled f c q comp : dropped f c q comp = true → enabled f c q comp = false.
Proof. destruct comp; simpl; try done; [by intros ->%negb_true_iff|by intros ->|by intros [_ ->%negb_true_iff]%andb_true_iff|
  by intros ->%negb_true_iff|by intros ->%negb_true_iff|by intros ->; rewrite andb_false_r|
  by intros [_ ->%negb_true_iff]%andb_true_iff; rewrite andb_false_r]. Qed.

(** ** The lists by kind are the lists by component *)

Section by_component.
Context (f : Features) (d : TemplateData) (q : Conditions).
Let c := td_cluster d.
Let ccm := cloudControllerDeployment c.
Hypothesis Hk : td_isKonnectivityEnabled d = konnectivity f c.

Definition listed (k : ResourceKind) (n : string) : Prop := ∃ comp, enabled f c q comp = true ∧ n ∈ names ccm comp k.

Lemma elem_of_when {A} (b : bool) (l : list A) x : x ∈ when b l ↔ b = true ∧ x ∈ l.
Proof. destruct b; simpl; [naive_solver|]. rewrite elem_of_nil. naive_solver. Qed.

Lemma elem_of_plain l n : (∃ a, (n, a) ∈ plain l) ↔ n ∈ l.
Proof.
  unfold plain. split.
  - intros [a (m & [= -> ->] & ?)%list_elem_of_fmap]. done.
  - intros ?. exists NoArgs. apply list_elem_of_fmap. eauto.
Qed.

Lemma some_component (P : Component → Prop) : (∃ comp, P comp) ↔
  P CBase ∨ P CDashboard ∨ P COpenVPN ∨ P CKonnectivity ∨ P COSM ∨ P CFrontLB ∨ P CEncryption ∨ P CExternalCloud ∨
  P CCloudController ∨ P CGCP ∨ P CCSI ∨ P CBackup ∨ P CPolicies ∨ P COpenVPNPolicies ∨ P CKonnectivityPolicies ∨
  P CIssuerPolicy ∨ P CGatekeeper.
Proof.
  split.
  - intros [[] H]; tauto.
  - intros H. repeat (destruct H as [H|H]; [by eexists|]). by eexists.
Qed.

(** Both sides as a disjunction over lists of names, with the conditions decided. *)
Ltac by_component := unfold listed; rewrite some_component; cbn [names enabled base_names openvpn_names];
  rewrite ?elem_of_app, ?elem_of_when, ?elem_of_nil, ?Hk; fold c; fold ccm;
  destruct (konnectivity f c); cbn [negb andb]; rewrite ?elem_of_app, ?andb_true_r, ?andb_false_r; intuition congruence.

Lemma services_listed n : n ∈ GetServiceCreators d ↔ listed RService n.
Proof. unfold GetServiceCreators. by_component. Qed.
Lemma deployments_listed n : n ∈ deploymentsWith d (cd_ccm q) ↔ listed RDeployment n.
Proof. unfold deploymentsWith. by_component. Qed.
Lemma secrets_listed n : n ∈ GetSecretCreators d ↔ listed RSecret n.
Proof. unfold GetSecretCreators. by_component. Qed.
Lemma serviceAccounts_listed n : n ∈ serviceAccountCreators c ↔ listed RServiceAccount n.
Proof. unfold serviceAccountCreators. by_component. Qed.
Lemma roles_listed n : n ∈ roleCreators c ↔ listed RRole n.
Proof. unfold roleCreators. by_component. Qed.
Lemma roleBindings_listed n : n ∈ roleBindingCreators c ↔ listed RRoleBinding n.
Proof. unfold roleBindingCreators. by_component. Qed.
Lemma configMaps_listed n : n ∈ GetConfigMapCreators d ↔ listed RConfigMap n.
Proof.
  assert (Hcsi : has_csi c = true ↔ is_some (cd_vsphere (sp_cloud (cl_spec c))) = true ∨
    match cd_nutanix (sp_cloud (cl_spec c)) with Some n => is_some (nx_csi n) | None => false end = true) by apply orb_true_iff.
  unfold GetConfigMapCreators. by_component.
Qed.
Lemma statefulSets_listed n : n ∈ GetStatefulSetCreators ↔ listed RStatefulSet n.
Proof. unfold GetStatefulSetCreators. by_component. Qed.
Lemma backupConfigs_listed n : cd_backup q = true → n ∈ GetEtcdBackupConfigCreators ↔ listed REtcdBackupConfig n.
Proof. intros Hq. unfold GetEtcdBackupConfigCreators. by_component. Qed.
Lemma cronJobs_listed n : n ∈ GetCronJobCreators ↔ listed RCronJob n.
Proof. unfold GetCronJobCreators. by_component. Qed.
Lemma budgets_listed n : n ∈ GetPodDisruptionBudgetCreators d ↔ listed RPodDisruptionBudget n.
Proof. unfold GetPodDisruptionBudgetCreators. by_component. Qed.
Lemma autoscalers_listed n : n ∈ controlPlaneDeploymentNames d ++ [EtcdStatefulSetName] ↔ listed RVerticalPodAutoscaler n.
Proof.
  assert (Hb : n ∈ base_names RVerticalPodAutoscaler ↔ n ∈ [MachineControllerDeploymentName; MachineControllerWebhookDeploymentName;
    ApiserverDeploymentName; ControllerManagerDeploymentName; SchedulerDeploymentName] ∨ n ∈ [EtcdStatefulSetName])
    by (rewrite <- elem_of_app; done).
  cbn [base_names] in Hb. unfold controlPlaneDeploymentNames. by_component.
Qed.
Lemma policies_listed n ips issuer : has_feature c ApiserverNetworkPolicy = true → cd_issuer q = is_some issuer →
  (∃ a, (n, a) ∈ networkPolicyCreators d ips issuer) ↔ listed RNetworkPolicy n.
Proof.
  intros Hp Hq. transitivity (n ∈ map fst (networkPolicyCreators d ips issuer)).
  { rewrite list_elem_of_fmap. split; [intros [a ?]; by exists (n, a)|intros ([m a] & -> & ?); eauto]. }
  unfold networkPolicyCreators. rewrite Hk. unfold listed. rewrite some_component. cbn [names enabled base_names openvpn_names].
  fold c. rewrite Hp, Hq. unfold plain. rewrite !map_app, !map_map. cbn [fst]. rewrite !map_id, !elem_of_app, !elem_of_nil.
  destruct (konnectivity f c), issuer; cbn [map fst is_some negb andb]; rewrite ?map_map, ?map_id, ?elem_of_nil; cbn [fst]; intuition congruence.
Qed.
End by_component.

(** ** Components have no objects in common *)

Definition components : list Component :=
  [CBase; CDashboard; COpenVPN; CKonnectivity; COSM; CFrontLB; CEncryption; CExternalCloud; CCloudController; CGCP; CCSI;
   CBackup; CPolicies; COpenVPNPolicies; CKonnectivityPolicies; CIssuerPolicy; CGatekeeper].
Definition kinds : list ResourceKind :=
  [RService; RServiceAccount; RRole; RRoleBinding; RClusterRole; RClusterRoleBinding; RNetworkPolicy; RSecret; RConfigMap;
   RDeployment; RStatefulSet; RCronJob; RPodDisruptionBudget; RVerticalPodAutoscaler; REtcdBackupConfig].
Definition ccmNames : list string :=
  [OpenstackCCMDeploymentName; HetznerCCMDeploymentName; AnexiaCCMDeploymentName; vsphereCCMDeploymentName;
   KubeVirtCCMDeploymentName; "unsupported"].

Definition separate (ccm : string) : bool :=
  forallb (λ k, forallb (λ a, forallb (λ b, bool_decide (a = b) ||
    forallb (λ n, negb (existsb (String.eqb n) (names ccm b k))) (names ccm a k)) components) components) kinds.

Lemma in_components comp : comp ∈ components.
Proof. destruct comp; unfold components; set_solver. Qed.
Lemma in_kinds k : k ∈ kinds.
Proof. destruct k; unfold kinds; set_solver. Qed.
Lemma ccm_name c : cloudControllerDeployment c ∈ ccmNames.
Proof.
  unfold cloudControllerDeployment, ccmNames.
  repeat match goal with |- context [if ?b then _ else _] => destruct b end; set_solver.
Qed.
Lemma ccm_separate c : separate (cloudControllerDeployment c) = true.
Proof.
  assert (H : Forall (λ n, separate n = true) ccmNames) by (repeat (constructor; [vm_compute; reflexivity|]); constructor).
  rewrite Forall_forall in H. apply H, ccm_name.
Qed.

Lemma names_disjoint c a b k n : let ccm := cloudControllerDeployment c in
  n ∈ names ccm a k → n ∈ names ccm b k → a = b.
Proof.
  intros ccm Ha Hb. pose proof (ccm_separate c) as H. unfold separate in H. fold ccm in H.
  rewrite forallb_forall in H. specialize (H k (proj1 (list_elem_of_In _ _) (in_kinds k))).
  rewrite forallb_forall in H. specialize (H a (proj1 (list_elem_of_In _ _) (in_components a))).
  rewrite forallb_forall in H. specialize (H b (proj1 (list_elem_of_In _ _) (in_components b))).
  apply orb_true_iff in H as [H|H]; [by apply bool_decide_eq_true in H|]. exfalso.
  rewrite forallb_forall in H. specialize (H n (proj1 (list_elem_of_In _ _) Ha)). apply negb_true_iff in H.
  assert (existsb (String.eqb n) (names ccm b k) = true) as E; [|congruence].
  apply existsb_exists. exists n. split; [by apply list_elem_of_In|apply String.eqb_refl].
Qed.

Lemma object_of_unique c ns a b x : let ccm := cloudControllerDeployment c in
  object_of ns ccm a x → object_of ns ccm b x → a = b.
Proof. intros ccm (k & n & -> & Ha) (k' & n' & [= <- <-] & Hb). by eapply names_disjoint. Qed.

(** ** What is removed *)

Definition openVPNSetup (ns : string) : list Resource :=
  openvpn_ResourcesForDeletion ns ++ metricsserver_ResourcesForDeletion ns ++ dns_ResourcesForDeletion ns ++
  [in_ns ns RSecret KubeletDnatControllerKubeconfigSecretName].

(** The objects of a component as a list. *)
Definition objects (ns ccm : string) (comp : Component) : list Resource :=
  concat (map (λ k, map (in_ns ns k) (names ccm comp k)) kinds).
Lemma elem_of_objects ns ccm comp x : x ∈ objects ns ccm comp ↔ object_of ns ccm comp x.
Proof.
  unfold objects, object_of. rewrite list_elem_of_In, in_concat. split.
  - intros (l & (k & <- & _)%in_map_iff & (n & <- & Hn)%in_map_iff). exists k, n. by rewrite list_elem_of_In.
  - intros (k & n & -> & Hn). exists (map (in_ns ns k) (names ccm comp k)). split.
    + apply in_map_iff. exists k. split; [done|]. apply list_elem_of_In, in_kinds.
    + by apply in_map, list_elem_of_In.
Qed.

(** Two lists of literals with the same elements. *)
Ltac same_literals := cbn; let x := fresh "x" in intros x; split;
  intros Hin; repeat (apply elem_of_cons in Hin as [->|Hin]; [repeat (first [left | right])|]); by apply elem_of_nil in Hin.

Section removals.
Context (ns ccm : string).

Lemma openvpn_removal x : x ∈ openVPNSetup ns ↔ x ∈ objects ns ccm COpenVPN ++ objects ns ccm COpenVPNPolicies.
Proof. revert x. unfold openVPNSetup, objects. same_literals. Qed.
Lemma konnectivity_removal x : x ∈ konnectivity_ResourcesForDeletion ns ↔
  x ∈ objects ns ccm CKonnectivity ++ objects ns ccm CKonnectivityPolicies.
Proof. revert x. unfold objects. same_literals. Qed.
Lemma osm_removal x : x ∈ osm_ResourcesForDeletion ns ↔ x ∈ objects ns ccm COSM.
Proof. revert x. unfold objects. same_literals. Qed.
Lemma dashboard_removal x : x ∈ kubernetesdashboard_ResourcesForDeletion ns ↔ x ∈ objects ns ccm CDashboard.
Proof. revert x. unfold objects. same_literals. Qed.
Lemma gatekeeper_removal x : x ∈ gatekeeper_GetResourcesToRemoveOnDelete ns ↔ x ∈ objects ns ccm CGatekeeper.
Proof. revert x. unfold objects. same_literals. Qed.
End removals.

(** The objects that a complete run deletes, if they exist. *)
Definition removals (f : Features) (c : Cluster) (ns : string) : list Resource :=
  gatekeeper_GetResourcesToRemoveOnDelete ns ++
  when (ft_Konnectivity f) (if default false (cn_konnectivityEnabled (sp_clusterNetwork (cl_spec c)))
                            then openVPNSetup ns else konnectivity_ResourcesForDeletion ns) ++
  when (negb (sp_enableOperatingSystemManager (cl_spec c))) (osm_ResourcesForDeletion ns) ++
  when (negb (KubernetesDashboardEnabled (cl_spec c))) (kubernetesdashboard_ResourcesForDeletion ns) ++
  when (negb (IsEncryptionEnabled c) && negb (IsEncryptionActive c)) (EncryptionResourcesForDeletion ns).

(** All components that are dropped, and a secret that nothing creates. *)
Lemma elem_of_removals f c q ns x : let ccm := cloudControllerDeployment c in
  x ∈ removals f c ns ↔
  (∃ comp, comp ≠ CBackup ∧ dropped f c q comp = true ∧ object_of ns ccm comp x) ∨
  (negb (IsEncryptionEnabled c) && negb (IsEncryptionActive c) = true ∧ x = in_ns ns RSecret EncryptionConfigurationKeyName).
Proof.
  intros ccm. rewrite some_component. cbn [dropped]. rewrite <- !elem_of_objects.
  unfold removals. rewrite !elem_of_app, !elem_of_when, (gatekeeper_removal ns ccm), (osm_removal ns ccm), (dashboard_removal ns ccm).
  unfold EncryptionResourcesForDeletion. rewrite list_elem_of_singleton. unfold konnectivity.
  destruct (ft_Konnectivity f); cbn [andb]; [|intuition congruence].
  destruct (default false _); cbn [negb]; rewrite ?(openvpn_removal ns ccm), ?(konnectivity_removal ns ccm), ?elem_of_app;
    intuition congruence.
Qed.

(** The last secret is no object of a component. *)
Lemma unused_secret ns ccm comp : ¬ object_of ns ccm comp (in_ns ns RSecret EncryptionConfigurationKeyName).
Proof.
  intros (k & n & [= <- <-] & Hn). destruct comp; cbn in Hn; try (by apply elem_of_nil in Hn);
    repeat (apply elem_of_cons in Hn as [[=]|Hn]); by apply elem_of_nil in Hn.
Qed.

(** What is deployed is not removed: an object of an enabled component is none of
    those that the same run deletes. *)
Lemma enabled_not_removed f c q ns comp x : enabled f c q comp = true →
  object_of ns (cloudControllerDeployment c) comp x → x ∉ removals f c ns.
Proof.
  intros He Hx. rewrite (elem_of_removals f c q). intros [(comp' & _ & Hd & Hx')|[_ ->]].
  - pose proof (object_of_unique _ _ _ _ _ Hx Hx') as <-. apply dropped_not_enabled in Hd. congruence.
  - by eapply unused_secret.
Qed.

(** ** Well-formedness *)

(** The names that the creators of a run give to objects of a kind. *)
Definition creatorNames (d : TemplateData) (ccm backup : bool) (ips : list IP) (issuer : option (list IP)) (ns : string)
    (k : ResourceKind) : list string :=
  let c := td_cluster d in
  match k with
  | RService => GetServiceCreators d
  | RServiceAccount => serviceAccountCreators c
  | RRole => roleCreators c
  | RRoleBinding => roleBindingCreators c
  | RClusterRole => clusterRoleCreators
  | RClusterRoleBinding => clusterRoleBindingCreators ns
  | RNetworkPolicy => when (has_feature c ApiserverNetworkPolicy) (map fst (networkPolicyCreators d ips issuer))
  | RSecret => GetSecretCreators d
  | RConfigMap => GetConfigMapCreators d
  | RDeployment => deploymentsWith d ccm
  | RStatefulSet => GetStatefulSetCreators
  | RCronJob => GetCronJobCreators
  | RPodDisruptionBudget => GetPodDisruptionBudgetCreators d
  | RVerticalPodAutoscaler => controlPlaneDeploymentNames d ++ [EtcdStatefulSetName]
  | REtcdBackupConfig => when backup GetEtcdBackupConfigCreators
  end.

(** A list that is written with conditions is a part of the list without them. *)
Lemma sublist_when {A} (b : bool) (l : list A) : when b l `sublist_of` l.
Proof. destruct b; simpl; [done|apply sublist_nil_l]. Qed.
Lemma sublist_if {A} (b : bool) (l m : list A) : (if b then l else m) `sublist_of` l ++ m.
Proof. destruct b; [by apply sublist_inserts_r|by apply sublist_inserts_l]. Qed.
Ltac unconditional := repeat first [apply sublist_app | apply sublist_when | apply sublist_if | reflexivity].

(** No two creators of a run are for the same object, for a cluster that does not have
    both vSphere and Nutanix with its storage driver (whose drivers share the name of
    their configuration): the names of each kind differ pairwise. *)
Theorem creators_well_formed d ccm backup ips issuer ns k :
  is_some (cd_vsphere (sp_cloud (cl_spec (td_cluster d)))) &&
    match cd_nutanix (sp_cloud (cl_spec (td_cluster d))) with Some n => is_some (nx_csi n) | None => false end = false →
  NoDup (creatorNames d ccm backup ips issuer ns k).
Proof.
  intros Hcloud. pose proof (ccm_name (td_cluster d)) as Hccm.
  assert (Hp : ∀ l, map fst (plain l) = l) by (intros l; unfold plain; rewrite map_map; apply map_id).
  destruct k; cbn [creatorNames].
  - eapply sublist_NoDup; [|unfold GetServiceCreators; unconditional]. by apply (bool_decide_unpack _).
  - eapply sublist_NoDup; [|unfold serviceAccountCreators; unconditional]. by apply (bool_decide_unpack _).
  - eapply sublist_NoDup; [|unfold roleCreators; unconditional]. by apply (bool_decide_unpack _).
  - eapply sublist_NoDup; [|unfold roleBindingCreators; unconditional]. by apply (bool_decide_unpack _).
  - by apply (bool_decide_unpack _).
  - unfold clusterRoleBindingCreators. constructor; [|constructor; [apply not_elem_of_nil|constructor]].
    intros Hin%list_elem_of_singleton; discriminate Hin.
  - eapply sublist_NoDup; [|apply sublist_when]. unfold networkPolicyCreators. rewrite !map_app, Hp.
    destruct (td_isKonnectivityEnabled d), issuer; rewrite ?Hp; by apply (bool_decide_unpack _).
  - eapply sublist_NoDup; [|unfold GetSecretCreators; unconditional]. by apply (bool_decide_unpack _).
  - unfold GetConfigMapCreators. destruct (is_some (cd_vsphere _)), (match cd_nutanix _ with Some n => _ | None => _ end); try done;
      destruct (td_isKonnectivityEnabled d); by apply (bool_decide_unpack _).
  - eapply sublist_NoDup; [|unfold deploymentsWith; unconditional].
    unfold ccmNames in Hccm. repeat (apply elem_of_cons in Hccm as [->|Hccm]; [by apply (bool_decide_unpack _)|]).
    by apply elem_of_nil in Hccm.
  - by apply (bool_decide_unpack _).
  - by apply (bool_decide_unpack _).
  - eapply sublist_NoDup; [|unfold GetPodDisruptionBudgetCreators; unconditional]. by apply (bool_decide_unpack _).
  - eapply sublist_NoDup; [|unfold controlPlaneDeploymentNames; unconditional]. by apply (bool_decide_unpack _).
  - eapply sublist_NoDup; [|apply sublist_when]. by apply (bool_decide_unpack _).
Qed.

(** The secret with the encryption configuration is not among the removals. *)
Lemma encryption_secret_not_removed f c ns : in_ns ns RSecret EncryptionConfigurationSecretName ∉ removals f c ns.
Proof.
  rewrite (elem_of_removals f c (mkConditions false false false)). intros [(comp & _ & Hd & Hx)|[_ [=]]].
  assert (comp = CEncryption) as ->; [|done]. eapply object_of_unique; [exact Hx|].
  exists RSecret, EncryptionConfigurationSecretName. split; [done|]. left.
Qed.
