(* ===== verification/ClusterAddressing.v ===== *)
(** * The address of a cluster

    [pkg/resources/address/address.go]: the names, the IP address, the port and the
    URL under which the API server of a user cluster is reached. *)

From S2P Require Import Prelude ResourceNames Kube Semver Net CloudApi ClusterApi Corev1.

(** A service of the control plane: ports with target and node port, and what the
    load balancer reports. *)
Record ServicePort := mkServicePort { spt_targetPort : Z; spt_nodePort : Z }.
Record Ingress := mkIngress { ing_ip : string; ing_hostname : string }.
Record SeedService := mkSeedService {
  sv_meta : ObjectMeta;
  sv_ports : list ServicePort;
  sv_loadBalancerIP : string;
  sv_ingress : list Ingress;
}.
#[global] Program Instance SeedService_object : Object SeedService := {|
  obj_meta := sv_meta;
  set_meta m s := mkSeedService m (sv_ports s) (sv_loadBalancerIP s) (sv_ingress s);
|}.
Next Obligation. done. Qed.

Definition SeedDNSOverwrite (s : Seed) : string := default "" (seed_rest s !! "seedDNSOverwrite").

(** Updates of one field of the address. *)
Definition set_externalName (x : string) (a : ClusterAddress) : ClusterAddress :=
  mkClusterAddress (ca_url a) (ca_port a) x (ca_internalName a) (ca_adminToken a) (ca_ip a).
Definition set_internalName (x : string) (a : ClusterAddress) : ClusterAddress :=
  mkClusterAddress (ca_url a) (ca_port a) (ca_externalName a) x (ca_adminToken a) (ca_ip a).
Definition set_ip (x : string) (a : ClusterAddress) : ClusterAddress :=
  mkClusterAddress (ca_url a) (ca_port a) (ca_externalName a) (ca_internalName a) (ca_adminToken a) x.
Definition set_port (x : Z) (a : ClusterAddress) : ClusterAddress :=
  mkClusterAddress (ca_url a) x (ca_externalName a) (ca_internalName a) (ca_adminToken a) (ca_ip a).
Definition set_url (x : string) (a : ClusterAddress) : ClusterAddress :=
  mkClusterAddress x (ca_port a) (ca_externalName a) (ca_internalName a) (ca_adminToken a) (ca_ip a).
Definition set_adminToken (x : string) (a : ClusterAddress) : ClusterAddress :=
  mkClusterAddress (ca_url a) (ca_port a) (ca_externalName a) (ca_internalName a) x (ca_ip a).
Definition set_address (a : ClusterAddress) (c : Cluster) : Cluster :=
  mkCluster (cl_meta c) (cl_spec c) (cl_status c) a (cl_typeMeta c).

(** [net.JoinHostPort]: an address with colons is bracketed. *)
Definition JoinHostPort (host port : string) : string :=
  if strings_Contains host ":" then "[" +:+ host +:+ "]:" +:+ port else host +:+ ":" +:+ port.

(** The last address and the last host name that the load balancer reports; without
    an address, the one that was asked for. *)
Definition ingressAddress (s : SeedService) : string * string :=
  fold_left (λ '(ip, hostname) (i : Ingress),
    (if String.eqb (ing_ip i) "" then ip else ing_ip i, if String.eqb (ing_hostname i) "" then hostname else ing_hostname i))
    (sv_ingress s) (sv_loadBalancerIP s, "").

(** ** The builder *)

Section build.
Context `{StringSets} {W : Type}.
Context (services : Client W SeedService) (lookup : string → M W (list IP)) (externalURL tunnelingAgentIP : string).

Definition getExternalIPv4 (hostname : string) : M W string :=
  resolvedIPs ← wrap "failed to lookup ip" (lookup hostname);
  match set_List (list_to_set (map IP_String (List.filter (λ ip, is_some (To4 ip)) resolvedIPs))) with
  | [] => throw (ErrNew "no ip addresses found")
  | ip :: _ => mret ip
  end.

Definition frontLoadBalancer (cluster : Cluster) : M W (string * string) :=
  if negb (String.eqb (sp_exposeStrategy (cl_spec cluster)) ExposeStrategyLoadBalancer) then mret ("", "") else
  service ← wrap "failed to get the front-loadbalancer service"
              (c_get services (mkKey (cs_namespaceName (cl_status cluster)) FrontLoadBalancerServiceName));
  mret (ingressAddress service).

Definition externalNameOf (cluster : Cluster) (seed : Seed) (lbIP lbHostname : string) : string :=
  let subdomain := if String.eqb (SeedDNSOverwrite seed) "" then seed_name seed else SeedDNSOverwrite seed in
  if String.eqb (sp_exposeStrategy (cl_spec cluster)) ExposeStrategyLoadBalancer
  then if String.eqb lbIP "" then lbHostname else lbIP
  else cl_name cluster +:+ "." +:+ subdomain +:+ "." +:+ externalURL.

Definition addressIP (cluster : Cluster) (externalName lbIP lbHostname : string) : M W string :=
  let strategy := sp_exposeStrategy (cl_spec cluster) in
  if String.eqb strategy ExposeStrategyLoadBalancer then
    if negb (String.eqb lbIP "") then mret lbIP
    else if negb (String.eqb lbHostname "") then getExternalIPv4 lbHostname
    else mret ""
  else if String.eqb strategy ExposeStrategyNodePort then getExternalIPv4 externalName
  else if String.eqb strategy ExposeStrategyTunneling then mret tunnelingAgentIP
  else mret "".

Definition apiserverPort (cluster : Cluster) : M W Z :=
  service ← c_get services (mkKey (cs_namespaceName (cl_status cluster)) ApiserverServiceName);
  match sv_ports service with
  | [] => throw (ErrNew "service has no port configured")
  | p :: _ =>
      mret (if String.eqb (sp_exposeStrategy (cl_spec cluster)) ExposeStrategyTunneling then spt_targetPort p else spt_nodePort p)
  end.

(** A modifier for a field whose value differs. *)
Definition modifier {A} `{EqDecision A} (current new : A) (set : A → ClusterAddress → ClusterAddress)
    : list (ClusterAddress → ClusterAddress) :=
  if bool_decide (current = new) then [] else [set new].

Definition Build (cluster : Cluster) (seed : Seed) : M W (list (ClusterAddress → ClusterAddress)) :=
  let a := cl_address cluster in
  '(lbIP, lbHostname) ← frontLoadBalancer cluster;
  let externalName := externalNameOf cluster seed lbIP lbHostname in
  let internalName := ApiserverServiceName +:+ "." +:+ cs_namespaceName (cl_status cluster) +:+ ".svc.cluster.local." in
  ip ← addressIP cluster externalName lbIP lbHostname;
  port ← apiserverPort cluster;
  let url := "https://" +:+ JoinHostPort externalName (pretty port) in
  mret (modifier (ca_externalName a) externalName set_externalName ++ modifier (ca_internalName a) internalName set_internalName ++
        modifier (ca_ip a) ip set_ip ++ modifier (ca_port a) port set_port ++ modifier (ca_url a) url set_url).

(** What the address should be. *)
Record Addressing := mkAddressing { ad_externalName : string; ad_internalName : string; ad_ip : string; ad_port : Z }.
Definition address_of (x : Addressing) (token : string) : ClusterAddress :=
  mkClusterAddress ("https://" +:+ JoinHostPort (ad_externalName x) (pretty (ad_port x))) (ad_port x) (ad_externalName x)
    (ad_internalName x) token (ad_ip x).

(** What [Build] finds out, apart from the current address. *)
Definition resolveAddress (cluster : Cluster) (seed : Seed) : M W Addressing :=
  '(lbIP, lbHostname) ← frontLoadBalancer cluster;
  let externalName := externalNameOf cluster seed lbIP lbHostname in
  ip ← addressIP cluster externalName lbIP lbHostname;
  port ← apiserverPort cluster;
  mret (mkAddressing externalName (ApiserverServiceName +:+ "." +:+ cs_namespaceName (cl_status cluster) +:+ ".svc.cluster.local.") ip port).

Definition modifiers (a : ClusterAddress) (x : Addressing) : list (ClusterAddress → ClusterAddress) :=
  modifier (ca_externalName a) (ad_externalName x) set_externalName ++ modifier (ca_internalName a) (ad_internalName x) set_internalName ++
  modifier (ca_ip a) (ad_ip x) set_ip ++ modifier (ca_port a) (ad_port x) set_port ++
  modifier (ca_url a) (ca_url (address_of x "")) set_url.

Lemma Build_resolve cluster seed w :
  Build cluster seed w = (x ← resolveAddress cluster seed; mret (modifiers (cl_address cluster) x)) w.
Proof.
  unfold Build, resolveAddress, mbind, M_MBind, M_bind. destruct (frontLoadBalancer cluster w) as [[[lbIP lbHostname]| | |] w1]; try done.
  destruct (addressIP _ _ _ _ w1) as [[ip| | |] w2]; try done. by destruct (apiserverPort cluster w2) as [[port| | |] w3].
Qed.

Lemma modifiers_apply a x : fold_left (λ a f, f a) (modifiers a x) a = address_of x (ca_adminToken a).
Proof.
  destruct a as [url port ext int token ip]. unfold modifiers, modifier. simpl.
  repeat case_bool_decide; simpl; subst; reflexivity.
Qed.
Lemma modifiers_nil x token : modifiers (address_of x token) x = [].
Proof. unfold modifiers, modifier. simpl. by rewrite !bool_decide_eq_true_2. Qed.

(** The modifiers that [Build] returns turn the address of a cluster into the one
    that services and name resolution give, whatever it was before (the admin token is
    kept; the URL always belongs to the external name and the port); with that address
    a second [Build] in the same situation has nothing to modify. *)
Theorem address_converges cluster seed w l w1 : Build cluster seed w = (Ok l, w1) →
  ∃ x, resolveAddress cluster seed w = (Ok x, w1) ∧
    fold_left (λ a f, f a) l (cl_address cluster) = address_of x (ca_adminToken (cl_address cluster)) ∧
    Build (set_address (address_of x (ca_adminToken (cl_address cluster))) cluster) seed w = (Ok [], w1).
Proof.
  rewrite Build_resolve. intros (x & w2 & Er & [<- <-]%ret_ok_inv)%bind_ok_inv. exists x. split; [done|].
  split; [apply modifiers_apply|]. rewrite Build_resolve. change (resolveAddress (set_address _ cluster) seed) with (resolveAddress cluster seed).
  rewrite (bind_ok _ _ _ _ _ Er). cbn [cl_address set_address]. by rewrite modifiers_nil.
Qed.
End build.
