(* ===== verification/ClusterHealth.v ===== *)
(** * The cluster controller: its environment and the health of a cluster

    [pkg/controller/seed-controller-manager/kubernetes]: the reconciler, and how it
    computes [cluster.status.extendedHealth] ([health.go], [launching.go]). *)

From S2P Require Import Prelude ResourceNames Kube Semver Net CloudApi ClusterApi Helper Corev1 EtcdBackup VersionManager Field ClusterDefaulting ClusterDeletion Workloads ControlPlane ClusterAddressing.

(** ** The reconciler *)

Record Namespace := mkNamespace { ns_meta : ObjectMeta; ns_typeMeta : TypeMeta }.
#[global] Program Instance Namespace_object : Object Namespace := {|
  obj_meta := ns_meta;
  set_meta m n := mkNamespace m (ns_typeMeta n);
|}.
Next Obligation. done. Qed.

(** A client of the user cluster, at the types of this controller and of deletion. *)
Record UserAccess (W : Type) := mkUserAccess {
  ua_client : UserClient W;
  ua_mutatingWebhooks : Client W MetaObject;
  ua_namespaces : Client W MetaObject;
}.
Arguments ua_client {W}.
Arguments ua_mutatingWebhooks {W}.
Arguments ua_namespaces {W}.

(** Settings that are handed to the templates. *)
Record Settings := mkSettings {
  st_overwriteRegistry : string;
  st_nodeAccessNetwork : string;
  st_etcdDiskSize : string;
  st_userClusterMLAEnabled : bool;
  st_kubermaticImage : string;
  st_etcdLauncherImage : string;
  st_dnatControllerImage : string;
  st_machineControllerImageTag : string;
  st_machineControllerImageRepository : string;
  st_backupSchedule : Z;
  st_oidcIssuerURL : string;
  st_oidcIssuerClientID : string;
  st_caBundle : string;
}.

(** The [Reconciler] with its client at the types in use.  [k8_objects] serves every
    kind of object that is deployed; [k8_template] is the creator of an object, from
    the template data if it gets them and its other arguments, and
    [k8_equal], [k8_resetStatus] and [k8_poll] are what [EnsureNamedObject] needs;
    [k8_deletion] is [clusterdeletion.New].  [k8_range] is the order in which a map
    is iterated. *)
Record ClusterReconciler (W : Type) := mkClusterReconciler {
  k8_clusters : Client W Cluster;
  k8_namespaces : Client W Namespace;
  k8_deployments : Client W Deployment;
  k8_etcdSets : Client W EtcdSet;
  k8_pods : Client W MetaObject;
  k8_services : Client W SeedService;
  k8_zonedNodes : M W (list MetaObject);
  k8_objects : ResourceKind → Client W DataObject;
  k8_template : option TemplateData → TemplateArgs → Resource → DataObject → outcome DataObject;
  k8_equal : DataObject → DataObject → bool;
  k8_resetStatus : DataObject → DataObject;
  k8_poll : M W bool → M W unit;
  k8_retry : Retry W;
  k8_now : W → Z * W;
  k8_rand : nat → W → string * W;
  k8_event : string → string → string → W → W;
  k8_userClusterConnProvider : Cluster → M W (UserAccess W);
  k8_seedGetter : M W (option Seed);
  k8_configGetter : M W (option KubermaticConfiguration);
  k8_deletion : M W (UserClient W) → Deletion W;
  k8_lookupIP : string → M W (list IP);
  k8_resolve : string → M W (list IP);
  k8_hostname : string → outcome string;
  k8_unmarshal : string → option Command;
  k8_range : list (string * (string → ExtendedClusterHealth → ExtendedClusterHealth)) →
             list (string * (string → ExtendedClusterHealth → ExtendedClusterHealth));
  k8_workerName : string;
  k8_externalURL : string;
  k8_tunnelingAgentIP : string;
  k8_concurrentClusterUpdates : Z;
  k8_settings : Settings;
  k8_features : Features;
  k8_versions : Versions;
}.
Arguments k8_clusters {W}.
Arguments k8_namespaces {W}.
Arguments k8_deployments {W}.
Arguments k8_etcdSets {W}.
Arguments k8_pods {W}.
Arguments k8_services {W}.
Arguments k8_zonedNodes {W}.
Arguments k8_objects {W}.
Arguments k8_template {W}.
Arguments k8_equal {W}.
Arguments k8_resetStatus {W}.
Arguments k8_poll {W}.
Arguments k8_retry {W}.
Arguments k8_now {W}.
Arguments k8_rand {W}.
Arguments k8_event {W}.
Arguments k8_userClusterConnProvider {W}.
Arguments k8_seedGetter {W}.
Arguments k8_configGetter {W}.
Arguments k8_deletion {W}.
Arguments k8_lookupIP {W}.
Arguments k8_resolve {W}.
Arguments k8_hostname {W}.
Arguments k8_unmarshal {W}.
Arguments k8_range {W}.
Arguments k8_workerName {W}.
Arguments k8_externalURL {W}.
Arguments k8_tunnelingAgentIP {W}.
Arguments k8_concurrentClusterUpdates {W}.
Arguments k8_settings {W}.
Arguments k8_features {W}.
Arguments k8_versions {W}.

(** ** Fields of the health *)

Definition set_apiserver (x : string) (h : ExtendedClusterHealth) : ExtendedClusterHealth :=
  mkExtendedClusterHealth x (eh_scheduler h) (eh_controller h) (eh_machineController h) (eh_etcd h) (eh_openVPN h)
    (eh_konnectivity h) (eh_cloudProviderInfrastructure h) (eh_userClusterControllerManager h) (eh_gatekeeperController h)
    (eh_gatekeeperAudit h) (eh_monitoring h) (eh_logging h) (eh_alertmanagerConfig h) (eh_mlaGateway h) (eh_applicationController h).
Definition set_scheduler (x : string) (h : ExtendedClusterHealth) : ExtendedClusterHealth :=
  mkExtendedClusterHealth (eh_apiserver h) x (eh_controller h) (eh_machineController h) (eh_etcd h) (eh_openVPN h)
    (eh_konnectivity h) (eh_cloudProviderInfrastructure h) (eh_userClusterControllerManager h) (eh_gatekeeperController h)
    (eh_gatekeeperAudit h) (eh_monitoring h) (eh_logging h) (eh_alertmanagerConfig h) (eh_mlaGateway h) (eh_applicationController h).
Definition set_controller (x : string) (h : ExtendedClusterHealth) : ExtendedClusterHealth :=
  mkExtendedClusterHealth (eh_apiserver h) (eh_scheduler h) x (eh_machineController h) (eh_etcd h) (eh_openVPN h)
    (eh_konnectivity h) (eh_cloudProviderInfrastructure h) (eh_userClusterControllerManager h) (eh_gatekeeperController h)
    (eh_gatekeeperAudit h) (eh_monitoring h) (eh_logging h) (eh_alertmanagerConfig h) (eh_mlaGateway h) (eh_applicationController h).
Definition set_userClusterControllerManager (x : string) (h : ExtendedClusterHealth) : ExtendedClusterHealth :=
  mkExtendedClusterHealth (eh_apiserver h) (eh_scheduler h) (eh_controller h) (eh_machineController h) (eh_etcd h) (eh_openVPN h)
    (eh_konnectivity h) (eh_cloudProviderInfrastructure h) x (eh_gatekeeperController h)
    (eh_gatekeeperAudit h) (eh_monitoring h) (eh_logging h) (eh_alertmanagerConfig h) (eh_mlaGateway h) (eh_applicationController h).
Definition set_openVPN (x : string) (h : ExtendedClusterHealth) : ExtendedClusterHealth :=
  mkExtendedClusterHealth (eh_apiserver h) (eh_scheduler h) (eh_controller h) (eh_machineController h) (eh_etcd h) x
    (eh_konnectivity h) (eh_cloudProviderInfrastructure h) (eh_userClusterControllerManager h) (eh_gatekeeperController h)
    (eh_gatekeeperAudit h) (eh_monitoring h) (eh_logging h) (eh_alertmanagerConfig h) (eh_mlaGateway h) (eh_applicationController h).
(** The fields that are set after the loop. *)
Definition set_rest_of_health (konnectivity etcd mc apps : string) (h : ExtendedClusterHealth) : ExtendedClusterHealth :=
  mkExtendedClusterHealth (eh_apiserver h) (eh_scheduler h) (eh_controller h) mc etcd (eh_openVPN h)
    konnectivity (eh_cloudProviderInfrastructure h) (eh_userClusterControllerManager h) (eh_gatekeeperController h)
    (eh_gatekeeperAudit h) (eh_monitoring h) (eh_logging h) (eh_alertmanagerConfig h) (eh_mlaGateway h) apps.

Definition healthMapping (showKonnectivity : bool) : list (string * (string → ExtendedClusterHealth → ExtendedClusterHealth)) :=
  [(ApiserverDeploymentName, set_apiserver); (ControllerManagerDeploymentName, set_controller);
   (SchedulerDeploymentName, set_scheduler); (UserClusterControllerDeploymentName, set_userClusterControllerManager)] ++
  when (negb showKonnectivity) [(OpenVPNServerDeploymentName, set_openVPN)].

Definition GetBasePodLabels (c : Cluster) : list (string * string) :=
  [(AppLabelKey, EtcdStatefulSetName); ("cluster", cl_name c)].

(** The status of two components together. *)
Definition both_status (a b : string) : string :=
  if String.eqb a HealthStatusUp && String.eqb b HealthStatusUp then HealthStatusUp
  else if String.eqb a HealthStatusProvisioning || String.eqb b HealthStatusProvisioning then HealthStatusProvisioning
  else HealthStatusDown.

Section health.
Context `{SemverLib} {W : Type} (r : ClusterReconciler W).

Definition namedDeploymentHealth (namespace name : string) : M W string :=
  wrap "failed to get dep health" (HealthyDeployment (k8_deployments r) (mkKey namespace name) 1).

(** Down as long as the webhook configuration is missing in the user cluster; then
    the status of the two deployments. *)
Definition webhookThenDeployments {O} (client : Client W O) (webhook namespace first second : string) : M W string :=
  res ← try (c_get client (mkKey "" webhook));
  match res with
  | inl e => if IsNotFound e then mret HealthStatusDown else throw e
  | inr _ =>
      a ← namedDeploymentHealth namespace first;
      b ← namedDeploymentHealth namespace second;
      mret (both_status a b)
  end.

Definition machineControllerHealthCheck (cluster : Cluster) (namespace : string) : M W string :=
  userClient ← k8_userClusterConnProvider r cluster;
  webhookThenDeployments (ua_mutatingWebhooks userClient) MachineControllerMutatingWebhookConfigurationName namespace
    MachineControllerDeploymentName MachineControllerWebhookDeploymentName.

Definition applicationControllerHealthCheck (cluster : Cluster) (namespace : string) : M W string :=
  userClient ← k8_userClusterConnProvider r cluster;
  webhookThenDeployments (ucl_webhooks (ua_client userClient)) ApplicationInstallationAdmissionWebhookName namespace
    UserClusterControllerDeploymentName UserClusterWebhookDeploymentName.

Definition clusterHealth (cluster : Cluster) : M W ExtendedClusterHealth :=
  let ns := cs_namespaceName (cl_status cluster) in
  let showKonnectivity := konnectivity (k8_features r) cluster in
  extendedHealth ← for_range (λ h '(name, set),
      status ← namedDeploymentHealth ns name;
      mret (set (GetHealthStatus status cluster (k8_versions r)) h))
    (cs_extendedHealth (cl_status cluster)) (k8_range r (healthMapping showKonnectivity));
  let konnectivityStatus := if showKonnectivity then eh_apiserver extendedHealth else eh_konnectivity extendedHealth in
  etcdHealthStatus ← wrap "failed to get etcd health"
    (HealthyStatefulSet (k8_etcdSets r) (mkKey ns EtcdStatefulSetName) 2);
  let apiserverUp := String.eqb (eh_apiserver extendedHealth) HealthStatusUp in
  mcHealthStatus ← (if apiserverUp
    then wrap "failed to get machine controller health" (machineControllerHealthCheck cluster ns) else mret HealthStatusDown);
  applicationControllerHealthStatus ← (if apiserverUp
    then wrap "failed to evaluate application controller health" (applicationControllerHealthCheck cluster ns)
    else mret HealthStatusDown);
  mret (set_rest_of_health konnectivityStatus (GetHealthStatus etcdHealthStatus cluster (k8_versions r)) mcHealthStatus
          applicationControllerHealthStatus extendedHealth).

(** The function that updates the status works on the cluster that was passed in, so
    that [IsClusterInitialized] sees the new health. *)
Definition syncHealth (cluster : Cluster) : M W Cluster :=
  extendedHealth ← clusterHealth cluster;
  UpdateClusterStatus (k8_clusters r) (k8_retry r) cluster (λ c,
    let c := set_cl_status (set_health extendedHealth (cl_status c)) c in
    c ← (if String.eqb (eh_etcd extendedHealth) HealthStatusUp
         then SetClusterCondition (k8_now r) (k8_versions r) ClusterConditionEtcdClusterInitialized ConditionTrue ""
                "Etcd Cluster has been initialized successfully" c
         else mret c);
    if IsClusterInitialized c (k8_versions r)
    then SetClusterCondition (k8_now r) (k8_versions r) ClusterConditionClusterInitialized ConditionTrue ""
           "Cluster has been initialized successfully" c
    else mret c).

(** Whether nothing speaks against an update of etcd. *)
Definition statefulSetHealthCheck (c : Cluster) : M W bool :=
  res ← try (c_get (k8_etcdSets r) (mkKey (cs_namespaceName (cl_status c)) EtcdStatefulSetName));
  match res with
  | inl e => if IsNotFound e then mret true else throw e
  | inr s => mret ((ss_statusReplicas s =? ss_readyReplicas s) && (ss_statusReplicas s =? ss_updatedReplicas s))
  end.

Definition etcdUseStrictTLS (c : Cluster) : M W bool :=
  res ← try (c_get (k8_etcdSets r) (mkKey (cs_namespaceName (cl_status c)) EtcdStatefulSetName));
  match res with
  | inl e => if IsNotFound e then mret true else throw e
  | inr _ =>
      pods ← c_list (k8_pods r) (mkListOptions (cs_namespaceName (cl_status c)) (GetBasePodLabels c));
      mret (forallb (λ p, is_some (om_annotations (mo_meta p) !! EtcdTLSEnabledAnnotation)) pods)
  end.

(** Whether the API server of the user cluster answers. *)
Definition clusterIsReachable (c : Cluster) : M W bool :=
  client ← k8_userClusterConnProvider r c;
  res ← try (c_list (ua_namespaces client) everything);
  match res with inl _ => mret false | inr _ => mret true end.
End health.
