(* ===== verification/ClusterResources.v ===== *)
(** * The cluster controller: deploying a control plane

    [pkg/controller/seed-controller-manager/kubernetes/resources.go] and [address.go]:
    in which order the objects of a control plane are ensured and removed, and what
    the controller waits for in between. *)

From Stdlib Require Import Sorting.
From S2P Require Import Prelude ResourceNames Kube Semver Net CloudApi ClusterApi Helper Corev1 EtcdBackup VersionManager Field ClusterDefaulting ClusterValidation Reconciling ClusterDeletion Workloads ControlPlane ClusterAddressing ClusterHealth.

Definition clusterIPUnknownRetryTimeout : Z := 5 * Second.

(** The kind that is deleted and created again instead of updated. *)
Definition requiresRecreate (kind : ResourceKind) : bool :=
  match kind with RPodDisruptionBudget => true | _ => false end.

(** An object of which only the key matters. *)
Definition stub (key : NamespacedName) : DataObject := mkDataObject (set_namespace (key_namespace key) (set_name (key_name key) emptyMeta)) ∅.

(** [metav1.NewControllerRef(obj, appsv1.SchemeGroupVersion.WithKind(kind))] *)
Definition appsRef (kind : string) (m : ObjectMeta) : OwnerReference := mkOwnerReference "apps/v1" kind (om_name m) (om_uid m).

(** [bytes.Compare], and sorting by it. *)
Fixpoint bytes_Compare (a b : list Z) : comparison :=
  match a, b with
  | [], [] => Eq
  | [], _ :: _ => Lt
  | _ :: _, [] => Gt
  | x :: a', y :: b' => match x ?= y with Eq => bytes_Compare a' b' | c => c end
  end.
Definition bytes_le (a b : list Z) : Prop := bytes_Compare a b ≠ Gt.
#[global] Instance bytes_le_dec a b : Decision (bytes_le a b).
Proof. unfold bytes_le. destruct (bytes_Compare a b); [left|left|right]; congruence. Defined.
Definition sort_IPs (l : list IP) : list IP := merge_sort bytes_le l.

Section resources.
Context `{SemverLib, StringSets} {W : Type} (r : ClusterReconciler W).

(** ** Ensuring and removing objects *)

Definition ensureObject (data : option TemplateData) (args : TemplateArgs) (res : Resource) : M W unit :=
  let key := rs_key res in
  EnsureNamedObject (k8_objects r (rs_kind res)) (k8_equal r) (k8_resetStatus r) (k8_poll r) key
    (createWithName (createWithNamespace (k8_template r data args res) (key_namespace key)) (key_name key))
    (mkDataObject emptyMeta ∅) (requiresRecreate (rs_kind res)).

(** The loop that all functions of the generated file share. *)
Definition ReconcileObjects (kind : ResourceKind) (msg : string) (creators : list (string * TemplateArgs))
    (data : option TemplateData) (namespace : string) : M W unit :=
  for_range (λ _ '(name, args), wrap msg (ensureObject data args (in_ns namespace kind name))) tt creators.
Definition ReconcileServices := ReconcileObjects RService "failed to ensure Service".
Definition ReconcileSecrets := ReconcileObjects RSecret "failed to ensure Secret".
Definition ReconcileConfigMaps := ReconcileObjects RConfigMap "failed to ensure ConfigMap".
Definition ReconcileServiceAccounts := ReconcileObjects RServiceAccount "failed to ensure ServiceAccount".
Definition ReconcileStatefulSets := ReconcileObjects RStatefulSet "failed to ensure StatefulSet".
Definition ReconcileDeployments := ReconcileObjects RDeployment "failed to ensure Deployment".
Definition ReconcilePodDisruptionBudgets := ReconcileObjects RPodDisruptionBudget "failed to ensure PodDisruptionBudget".
Definition ReconcileVerticalPodAutoscalers := ReconcileObjects RVerticalPodAutoscaler "failed to ensure VerticalPodAutoscaler".
Definition ReconcileClusterRoleBindings := ReconcileObjects RClusterRoleBinding "failed to ensure ClusterRoleBinding".
Definition ReconcileClusterRoles := ReconcileObjects RClusterRole "failed to ensure ClusterRole".
Definition ReconcileRoles := ReconcileObjects RRole "failed to ensure Role".
Definition ReconcileRoleBindings := ReconcileObjects RRoleBinding "failed to ensure RoleBinding".
Definition ReconcileCronJobs := ReconcileObjects RCronJob "failed to ensure CronJob".
Definition ReconcileEtcdBackupConfigs := ReconcileObjects REtcdBackupConfig "failed to ensure EtcdBackupConfig".
Definition ReconcileNetworkPolicies := ReconcileObjects RNetworkPolicy "failed to ensure NetworkPolicy".

(** Deleting what may not be there. *)
Definition removeAll (msg : string) (resources : list Resource) : M W unit :=
  for_range (λ _ res, wrap msg (unless IsNotFound (c_delete (k8_objects r (rs_kind res)) (stub (rs_key res))) tt)) tt resources.

(** ** The cluster object *)

Definition updateCluster (cluster : Cluster) (modify : Cluster → M W Cluster) : M W Cluster :=
  oldCluster ← lift (Cluster_DeepCopy cluster);
  cluster ← modify cluster;
  if bool_decide (oldCluster = cluster) then mret cluster
  else if negb (bool_decide (cl_status oldCluster = cl_status cluster))
  then throw (ErrNew "updateCluster must not change cluster status")
  else c_patch (k8_clusters r) oldCluster cluster.

Definition syncAddress (cluster : Cluster) (seed : Seed) : M W Cluster :=
  cluster ← (if String.eqb (ca_adminToken (cl_address cluster)) "" then
      updateCluster cluster (λ c,
        rand6 ← read (k8_rand r 6%nat);
        rand16 ← read (k8_rand r 16%nat);
        mret (set_address (set_adminToken (GenerateToken rand6 rand16) (cl_address c)) c))
    else mret cluster);
  let agentIP := if String.eqb (sp_exposeStrategy (cl_spec cluster)) ExposeStrategyTunneling then k8_tunnelingAgentIP r else "" in
  modifiers ← Build (k8_services r) (k8_lookupIP r) (k8_externalURL r) agentIP cluster seed;
  match modifiers with
  | [] => mret cluster
  | _ => updateCluster cluster (λ c, mret (set_address (fold_left (λ a f, f a) modifiers (cl_address c)) c))
  end.

(** ** Template data *)

Definition SupportsFailureDomainZoneAntiAffinity : M W bool :=
  nodeList ← wrap "failed to list nodes having the label" (k8_zonedNodes r);
  mret (match nodeList with [] => false | _ => true end).

Definition getClusterTemplateData (cluster : Cluster) (seed : option Seed) (config : option KubermaticConfiguration)
    : M W TemplateData :=
  seed ← lift (deref seed);
  match seed_datacenters seed !! sp_datacenterName (cl_spec cluster) with
  | None => throw (ErrNew "failed to get datacenter")
  | Some datacenter =>
      supports ← SupportsFailureDomainZoneAntiAffinity;
      config ← lift (deref config);
      let s := k8_settings r in
      mret (mkTemplateData cluster datacenter seed config (st_overwriteRegistry s) (uc_nodePortRange (kc_userCluster config))
        (st_nodeAccessNetwork s) (st_etcdDiskSize s) (st_oidcIssuerURL s) (st_oidcIssuerClientID s) (st_kubermaticImage s)
        (st_etcdLauncherImage s) (st_dnatControllerImage s) (st_machineControllerImageTag s)
        (st_machineControllerImageRepository s) (st_backupSchedule s) (k8_versions r) (st_caBundle s) supports
        (st_userClusterMLAEnabled s) (konnectivity (k8_features r) cluster))
  end.

(** ** The namespace *)

Definition ensureNamespaceExists (cluster : Cluster) : M W Namespace :=
  let name := cs_namespaceName (cl_status cluster) in
  res ← try (c_get (k8_namespaces r) (mkKey "" name));
  match res with
  | inr ns => mret ns
  | inl e =>
      if negb (IsNotFound e) then throw e else
      ns ← wrap "failed to create Namespace" (c_create (k8_namespaces r)
             (mkNamespace (set_ownerReferences [GetClusterRef cluster] (set_name name emptyMeta)) (mkTypeMeta "" "")));
      mret (mkNamespace (ns_meta ns) (mkTypeMeta "Namespace" "v1"))
  end.

(** ** Groups of objects *)

Definition ns_of (c : Cluster) : string := cs_namespaceName (cl_status c).

Definition ensureServices (c : Cluster) (data : TemplateData) : M W unit :=
  ReconcileServices (plain (GetServiceCreators data)) (Some data) (ns_of c).

Definition ensureDeployments (c : Cluster) (data : TemplateData) : M W unit :=
  names ← GetDeploymentCreators
    (KCMCloudControllersDeactivated (k8_unmarshal r) (k8_deployments r) (ns_of (td_cluster data))) data;
  ReconcileDeployments (map (λ n, (n, if String.eqb n ApiserverDeploymentName
                                      then OIDCAuthentication (ft_KubernetesOIDCAuthentication (k8_features r)) else NoArgs)) names)
    (Some data) (ns_of c).

Definition ensureSecrets (c : Cluster) (data : TemplateData) : M W unit :=
  wrap "failed to ensure that the Secret exists" (ReconcileSecrets (plain (GetSecretCreators data)) (Some data) (ns_of c)).

Definition ensureServiceAccounts (c : Cluster) : M W unit :=
  wrap "failed to ensure ServiceAccounts" (ReconcileServiceAccounts (plain (serviceAccountCreators c)) None (ns_of c)).
Definition ensureRoles (c : Cluster) : M W unit :=
  wrap "failed to ensure Roles" (ReconcileRoles (plain (roleCreators c)) None (ns_of c)).
Definition ensureRoleBindings (c : Cluster) : M W unit :=
  wrap "failed to ensure RoleBindings" (ReconcileRoleBindings (plain (roleBindingCreators c)) None (ns_of c)).
Definition ensureClusterRoles : M W unit :=
  wrap "failed to ensure Cluster Roles" (ReconcileClusterRoles (plain clusterRoleCreators) None "").
Definition ensureClusterRoleBindings (namespace : Namespace) : M W unit :=
  wrap "failed to ensure Cluster Role Bindings"
    (ReconcileClusterRoleBindings (map (λ n, (n, TargetNamespace (ns_meta namespace)))
       (clusterRoleBindingCreators (om_name (ns_meta namespace)))) None "").
Definition ensureRBAC (c : Cluster) (namespace : Namespace) : M W unit :=
  _ ← ensureServiceAccounts c;
  _ ← ensureRoles c;
  _ ← ensureRoleBindings c;
  _ ← ensureClusterRoles;
  ensureClusterRoleBindings namespace.

Definition hostnameToIPList (hostname : string) : M W (list IP) :=
  match ParseIP hostname with
  | Some ip => mret [ip]
  | None =>
      ipList ← k8_resolve r hostname;
      match ipList with
      | [] => throw (ErrNew "no resolved IP address for hostname")
      | _ => mret (sort_IPs ipList)
      end
  end.

(** The issuer of the cluster, or that of the installation. *)
Definition oidcIssuer (c : Cluster) (data : TemplateData) : string :=
  let issuerURL := OIDC_IssuerURL (cl_spec c) in
  if String.eqb issuerURL "" && ft_KubernetesOIDCAuthentication (k8_features r) then td_oidcIssuerURL data else issuerURL.

Definition ensureNetworkPolicies (c : Cluster) (data : TemplateData) : M W unit :=
  if negb (map_bool (sp_features (cl_spec c)) ApiserverNetworkPolicy) then mret tt else
  externalIPs ← (if td_isKonnectivityEnabled data
    then wrap "failed to resolve cluster external name" (hostnameToIPList (ca_externalName (cl_address c))) else mret []);
  issuerIPs ← (if String.eqb (oidcIssuer c data) "" then mret None else
    hostname ← wrap "failed to parse OIDC issuer URL" (lift (k8_hostname r (oidcIssuer c data)));
    ips ← wrap "failed to resolve OIDC issuer URL" (hostnameToIPList hostname);
    mret (Some ips));
  wrap "failed to ensure Network Policies"
    (ReconcileNetworkPolicies (networkPolicyCreators data externalIPs issuerIPs) (Some data) (ns_of c)).

Definition ensureConfigMaps (c : Cluster) (data : TemplateData) : M W unit :=
  wrap "failed to ensure that the ConfigMap exists" (ReconcileConfigMaps (plain (GetConfigMapCreators data)) (Some data) (ns_of c)).

Definition ensureStatefulSets (c : Cluster) (data : TemplateData) : M W unit :=
  useTLSOnly ← etcdUseStrictTLS r c;
  ReconcileStatefulSets (map (λ n, (n, EtcdArgs (ft_EtcdDataCorruptionChecks (k8_features r)) useTLSOnly)) GetStatefulSetCreators)
    (Some data) (ns_of c).

Definition ensureEtcdBackupConfigs (c : Cluster) (data : TemplateData) (seed : Seed) : M W unit :=
  if IsDefaultEtcdAutomaticBackupEnabled seed
  then ReconcileEtcdBackupConfigs (plain GetEtcdBackupConfigCreators) (Some data) (ns_of c)
  else
    res ← try (c_get (k8_objects r REtcdBackupConfig) (mkKey (ns_of c) EtcdDefaultBackupConfigName));
    match res with
    | inl e => if IsNotFound e then mret tt else throw e
    | inr ebc => c_delete (k8_objects r REtcdBackupConfig) ebc
    end.

Definition ensurePodDisruptionBudgets (c : Cluster) (data : TemplateData) : M W unit :=
  wrap "failed to ensure that the PodDisruptionBudget exists"
    (ReconcilePodDisruptionBudgets (plain (GetPodDisruptionBudgetCreators data)) (Some data) (ns_of c)).
Definition ensureCronJobs (c : Cluster) (data : TemplateData) : M W unit :=
  wrap "failed to ensure that the CronJobs exists" (ReconcileCronJobs (plain GetCronJobCreators) (Some data) (ns_of c)).

(** The autoscaler of an object has its name. *)
Definition getVerticalPodAutoscalersForResource {O} `{Object O} (client : Client W O) (kind : string) (pod : O → list Container)
    (names : list string) (namespace : string) (enabled : bool) : M W (list (string * TemplateArgs)) :=
  for_range (λ creators name,
    obj ← wrap "failed to get object from store" (c_get client (mkKey namespace name));
    mret (creators ++ [(om_name (obj_meta obj), VPATarget (pod obj) (appsRef kind (obj_meta obj)) enabled)])) [] names.

Definition GetVerticalPodAutoscalersForAll (deploymentNames statefulSetNames : list string) (namespace : string) (enabled : bool)
    : M W (list (string * TemplateArgs)) :=
  deploymentVPACreators ← wrap "failed to create VPA creator functions for Deployments"
    (getVerticalPodAutoscalersForResource (k8_deployments r) "Deployment" dep_containers deploymentNames namespace enabled);
  statefulSetVPACreators ← wrap "failed to create VPA creator functions for StatefulSets"
    (getVerticalPodAutoscalersForResource (k8_etcdSets r) "StatefulSet" ss_containers statefulSetNames namespace enabled);
  mret (deploymentVPACreators ++ statefulSetVPACreators).

Definition ensureVerticalPodAutoscalers (c : Cluster) (data : TemplateData) : M W unit :=
  creators ← wrap "failed to create the functions to handle VPA resources"
    (GetVerticalPodAutoscalersForAll (controlPlaneDeploymentNames data) [EtcdStatefulSetName] (ns_of c) (ft_VPA (k8_features r)));
  ReconcileVerticalPodAutoscalers creators None (ns_of c).

(** ** Removals *)

Definition ensureOldOPAIntegrationIsRemoved (data : TemplateData) : M W unit :=
  removeAll "failed to ensure old OPA integration version resources are removed/not present"
    (gatekeeper_GetResourcesToRemoveOnDelete (ns_of (td_cluster data))).
Definition ensureKubernetesDashboardResourcesAreRemoved (data : TemplateData) : M W unit :=
  removeAll "failed to ensure kubernetes-dashboard resources are removed/not present"
    (kubernetesdashboard_ResourcesForDeletion (ns_of (td_cluster data))).
Definition ensureOSMResourcesAreRemoved (data : TemplateData) : M W unit :=
  removeAll "failed to ensure OSM resources are removed/not present" (osm_ResourcesForDeletion (ns_of (td_cluster data))).
Definition ensureOpenVPNSetupIsRemoved (data : TemplateData) : M W unit :=
  let ns := ns_of (td_cluster data) in
  _ ← removeAll "failed to ensure OpenVPN resources are removed/not present" (openvpn_ResourcesForDeletion ns);
  _ ← removeAll "failed to ensure metrics-server resources are removed/not present" (metricsserver_ResourcesForDeletion ns);
  _ ← removeAll "failed to ensure dns-resolver resources are removed/not present" (dns_ResourcesForDeletion ns);
  removeAll "failed to ensure DNAT controller resources are removed/not present"
    [in_ns ns RSecret KubeletDnatControllerKubeconfigSecretName].
Definition ensureKonnectivitySetupIsRemoved (data : TemplateData) : M W unit :=
  removeAll "failed to ensure Konnectivity resources are removed/not present"
    (konnectivity_ResourcesForDeletion (ns_of (td_cluster data))).
Definition ensureEncryptionConfigurationIsRemoved (data : TemplateData) : M W unit :=
  removeAll "failed to ensure encryption-at-rest resources are removed/not present"
    (EncryptionResourcesForDeletion (ns_of (td_cluster data))).

(** [if b { if err := f(); err != nil { return nil, err } }] *)
Definition only_if (b : bool) (m : M W unit) : M W unit := if b then m else mret tt.

(** ** All of it *)

(** What is not, or no longer, part of the control plane. *)
Definition removeDropped (cluster : Cluster) (data : TemplateData) : M W unit :=
  _ ← ensureOldOPAIntegrationIsRemoved data;
  _ ← only_if (ft_Konnectivity (k8_features r))
        (if default false (cn_konnectivityEnabled (sp_clusterNetwork (cl_spec cluster)))
         then ensureOpenVPNSetupIsRemoved data else ensureKonnectivitySetupIsRemoved data);
  _ ← only_if (negb (sp_enableOperatingSystemManager (cl_spec cluster))) (ensureOSMResourcesAreRemoved data);
  _ ← only_if (negb (KubernetesDashboardEnabled (cl_spec cluster))) (ensureKubernetesDashboardResourcesAreRemoved data);
  only_if (negb (IsEncryptionEnabled cluster) && negb (IsEncryptionActive cluster)) (ensureEncryptionConfigurationIsRemoved data).

(** The second half, which needs the infrastructure of the cloud provider. *)
Definition deployWorkloads (cluster : Cluster) (data : TemplateData) : M W unit :=
  _ ← ensureConfigMaps cluster data;
  _ ← ensureDeployments cluster data;
  _ ← ensureCronJobs cluster data;
  _ ← ensurePodDisruptionBudgets cluster data;
  _ ← ensureVerticalPodAutoscalers cluster data;
  removeDropped cluster data.

(** Etcd is left alone while it is not healthy, and when its health is not known. *)
Definition ensureEtcd (cluster : Cluster) (data : TemplateData) : M W unit :=
  ok ← try (statefulSetHealthCheck r cluster);
  match ok with
  | inr true => ensureStatefulSets cluster data
  | _ => mret tt
  end.

(** The first half, which needs the address of the cluster. *)
Definition deployFoundation (cluster : Cluster) (namespace : Namespace) (data : TemplateData) (seed : Seed) : M W unit :=
  _ ← ensureSecrets cluster data;
  _ ← ensureRBAC cluster namespace;
  _ ← ensureNetworkPolicies cluster data;
  _ ← ensureEtcd cluster data;
  ensureEtcdBackupConfigs cluster data seed.

Definition ensureResourcesAreDeployed (cluster : Cluster) (namespace : Namespace) : M W (Cluster * option Result) :=
  seed ← k8_seedGetter r;
  config ← k8_configGetter r;
  data ← getClusterTemplateData cluster seed config;
  _ ← ensureServices cluster data;
  seed ← lift (deref seed);
  cluster ← wrap "failed to sync address" (syncAddress cluster seed);
  let data := set_td_cluster cluster data in
  if String.eqb (ca_ip (cl_address cluster)) "" && negb (String.eqb (sp_exposeStrategy (cl_spec cluster)) ExposeStrategyTunneling)
  then mret (cluster, Some (mkResult false clusterIPUnknownRetryTimeout)) else
  _ ← deployFoundation cluster namespace data seed;
  if negb (String.eqb (eh_cloudProviderInfrastructure (cs_extendedHealth (cl_status cluster))) HealthStatusUp)
  then mret (cluster, None) else
  _ ← deployWorkloads cluster data;
  mret (cluster, Some emptyResult).
End resources.
