(* ===== verification/ClusterController.v ===== *)
(** * The cluster controller

    [cluster_controller.go] and [pending.go] of
    [pkg/controller/seed-controller-manager/kubernetes], and the limit on concurrent
    updates of [pkg/controller/util/util.go]. *)

From S2P Require Import Prelude ResourceNames Kube Semver Net CloudApi ClusterApi Helper Corev1 EtcdBackup VersionManager Field ClusterDefaulting ClusterDeletion Workloads ControlPlane ClusterAddressing ClusterHealth ClusterResources.

Definition reachableCheckPeriod : Z := 5 * Second.
Definition ReconcileClusterError : string := "ReconcileError".

Definition NamespacePrefix : string := "cluster-".
Definition NamespaceName (clusterName : string) : string := NamespacePrefix +:+ clusterName.

Definition set_namespaceName (n : string) (s : ClusterStatus) : ClusterStatus :=
  mkClusterStatus (cs_lastUpdated s) (cs_extendedHealth s) (cs_lastProviderReconciliation s)
    n (cs_versions s) (cs_userName s) (cs_userEmail s) (cs_errorReason s)
    (cs_errorMessage s) (cs_conditions s) (cs_phase s) (cs_cloudMigrationRevision s)
    (cs_inheritedLabels s) (cs_encryption s) (cs_resourceUsage s).
Definition set_error (reason message : option string) (s : ClusterStatus) : ClusterStatus :=
  mkClusterStatus (cs_lastUpdated s) (cs_extendedHealth s) (cs_lastProviderReconciliation s)
    (cs_namespaceName s) (cs_versions s) (cs_userName s) (cs_userEmail s) reason
    message (cs_conditions s) (cs_phase s) (cs_cloudMigrationRevision s)
    (cs_inheritedLabels s) (cs_encryption s) (cs_resourceUsage s).

Definition is_upToDate (c : Cluster) : bool := HasConditionValue (cl_status c) ClusterConditionSeedResourcesUpToDate ConditionTrue.

(** [res.IsZero()], which accepts a nil receiver. *)
Definition Result_IsZero (res : option Result) : bool :=
  match res with None => true | Some res => bool_decide (res = emptyResult) end.

Section limit.
Context {W : Type} (clusters : Client W Cluster).

Definition ConcurrencyLimitReached (limit : Z) : M W bool :=
  items ← wrap "failed to list clusters" (c_list clusters everything);
  let finishedUpdatingClustersCount := Z.of_nat (length (List.filter is_upToDate items)) in
  let clustersUpdatingInProgressCount := Z.of_nat (length items) - finishedUpdatingClustersCount in
  mret (limit <=? clustersUpdatingInProgressCount).

Definition ClusterAvailableForReconciling (cluster : Cluster) (concurrencyLimit : Z) : M W bool :=
  if negb (is_upToDate cluster) then mret true else
  limitReached ← ConcurrencyLimitReached concurrencyLimit;
  mret (negb limitReached).
End limit.

Section controller.
Context `{SemverLib, StringSets} {W : Type} (r : ClusterReconciler W).

Definition AddFinalizers (cluster : Cluster) (finalizers : list string) : M W (Cluster * option Result) :=
  cluster ← TryAddFinalizer (k8_clusters r) (k8_retry r) cluster finalizers;
  mret (cluster, Some emptyResult).

Definition updateClusterError (cluster : Cluster) (reason message : string) : M W Cluster :=
  wrap "failed to set error status on cluster. Could not update cluster"
    (UpdateClusterStatus (k8_clusters r) (k8_retry r) cluster
      (λ c, mret (set_cl_status (set_error (Some reason) (Some message) (cl_status c)) c))).
Definition clearClusterError (cluster : Cluster) : M W Cluster :=
  UpdateClusterStatus (k8_clusters r) (k8_retry r) cluster
    (λ c, mret (set_cl_status (set_error None None (cl_status c)) c)).

Definition reconcileClusterStatus (cluster : Cluster) : M W Cluster :=
  UpdateClusterStatus (k8_clusters r) (k8_retry r) cluster (λ c,
    mret (if String.eqb (cs_namespaceName (cl_status c)) ""
          then set_cl_status (set_namespaceName (NamespaceName (cl_name c)) (cl_status c)) c else c)).

Definition ensureEtcdLauncherFeatureFlag (cluster : Cluster) : M W Cluster :=
  updateCluster r cluster (λ c,
    let features := sp_features (cl_spec c) in
    mret (if ft_EtcdLauncher (k8_features r) && negb (is_some (features !! ClusterFeatureEtcdLauncher))
          then set_cl_spec (set_features (<[ClusterFeatureEtcdLauncher := true]> features) (cl_spec c)) c else c)).

(** The finalizers at the end of a run. *)
Definition missingFinalizers (cluster : Cluster) (apiserverUp : bool) : list string :=
  when (apiserverUp && negb (HasFinalizer (cl_meta cluster) [NodeDeletionFinalizer])) [NodeDeletionFinalizer] ++
  when (negb (HasFinalizer (cl_meta cluster) [KubermaticConstraintCleanupFinalizer])) [KubermaticConstraintCleanupFinalizer].

(** What is left to do once the resources are deployed. *)
Definition finishReconciliation (cluster : Cluster) : M W (Cluster * option Result) :=
  let apiserverUp := String.eqb (eh_apiserver (cs_extendedHealth (cl_status cluster))) HealthStatusUp in
  reachable ← (if apiserverUp then clusterIsReachable r cluster else mret true);
  if negb reachable then mret (cluster, Some (mkResult false reachableCheckPeriod)) else
  match missingFinalizers cluster apiserverUp with
  | [] => mret (cluster, Some emptyResult)
  | finalizers => AddFinalizers cluster finalizers
  end.

Definition reconcileCluster (cluster : Cluster) : M W (Cluster * option Result) :=
  namespace ← ensureNamespaceExists r cluster;
  '(cluster, res) ← (if HasFinalizer (cl_meta cluster) [EtcdBackupConfigCleanupFinalizer] then mret (cluster, None)
                     else AddFinalizers cluster [EtcdBackupConfigCleanupFinalizer]);
  if negb (Result_IsZero res) then mret (cluster, res) else
  cluster ← ensureEtcdLauncherFeatureFlag cluster;
  '(cluster, res) ← ensureResourcesAreDeployed r cluster namespace;
  if negb (Result_IsZero res) then mret (cluster, res) else
  finishReconciliation cluster.

(** A cluster that is being deleted is cleaned up, and looked at again after ten
    seconds whatever comes of it. *)
Definition cluster_reconcile (cluster : Cluster) : M W Reconciled :=
  synced ← try (wrap "failed to sync health" (syncHealth r cluster));
  match synced with
  | inl e => mret (None, Some e)
  | inr cluster =>
      if is_some (om_deletionTimestamp (cl_meta cluster)) then
        let userClusterClientGetter :=
          wrap "failed to get user cluster client" (access ← k8_userClusterConnProvider r cluster; mret (ua_client access)) in
        cleaned ← try (CleanupCluster (k8_deletion r userClusterClientGetter) cluster);
        mret (Some (mkResult false (10 * Second)), match cleaned with inl e => Some e | inr _ => None end)
      else
        done ← try (reconcileCluster cluster);
        match done with
        | inl e =>
            updated ← try (updateClusterError cluster ReconcileClusterError (error_string e));
            mret (None, Some (match updated with
                              | inl updateErr => ErrWrap "failed to set the cluster error" updateErr
                              | inr _ => ErrWrap "failed to reconcile cluster" e
                              end))
        | inr (cluster, res) =>
            cleared ← try (wrap "failed to clear error on cluster" (clearClusterError cluster));
            mret (match cleared with inl e => (None, Some e) | inr _ => (res, None) end)
        end
  end.

Definition warn (e : error) : M W unit := emit (k8_event r "Warning" "ReconcilingError" (error_string e)).

(** Only if there are not too many updates running. *)
Definition limited_reconcile (cluster : Cluster) : M W Reconciled :=
  available ← try (ClusterAvailableForReconciling (k8_clusters r) cluster (k8_concurrentClusterUpdates r));
  match available with
  | inr true => cluster_reconcile cluster
  | inr false => mret (Some (mkResult false (10 * Second)), None)
  | inl e => mret (Some (mkResult false (10 * Second)), Some e)
  end.

Definition cluster_Reconcile (request : NamespacedName) : M W (Result * option error) :=
  res ← try (c_get (k8_clusters r) request);
  match res with
  | inl e => if IsNotFound e then mret (emptyResult, None) else mret (emptyResult, Some e)
  | inr cluster =>
      status ← try (reconcileClusterStatus cluster);
      match status with
      | inl e => _ ← warn e; mret (emptyResult, Some e)
      | inr cluster =>
          if String.eqb (cv_controlPlane (cs_versions (cl_status cluster))) "" then mret (emptyResult, None) else
          '(result, err) ← ClusterReconcileWrapper (k8_clusters r) (k8_retry r) (k8_now r) (k8_workerName r) cluster
             (k8_versions r) ClusterConditionClusterControllerReconcilingSuccess (limited_reconcile cluster);
          _ ← match (err : option error) with Some e => warn e | None => mret tt end;
          mret (default emptyResult result, err)
      end
  end.
End controller.
