(* ===== verification/ClusterResourcesSpec.v ===== *)
(** * What a run of the cluster controller deploys and removes

    The objects of the seed cluster before and after [ensureResourcesAreDeployed]:
    after a complete run the objects of all enabled components exist and those of the
    components that were switched off are deleted; no run touches anything else. *)

From S2P Require Import Prelude ResourceNames Kube Semver Net CloudApi ClusterApi Helper Corev1 EtcdBackup VersionManager Field ClusterDefaulting ClusterValidation Reconciling ClusterDeletion Workloads ControlPlane ControlPlaneSpec ClusterAddressing ClusterHealth ClusterResources.

(** ** After a computation *)

(** [after P m]: whenever [m] succeeds, [P] holds of the world.  [stable P m]: if [P]
    held before, it holds after [m] has succeeded. *)
Definition after {W A} (P : W → Prop) (m : M W A) : Prop := ∀ w a w', m w = (Ok a, w') → P w'.
Definition stable {W A} (P : W → Prop) (m : M W A) : Prop := ∀ w a w', P w → m w = (Ok a, w') → P w'.

Section after.
Context {W : Type} (P : W → Prop).

Lemma after_now {A B} (m : M W A) (k : A → M W B) : after P m → (∀ a, stable P (k a)) → after P (m ≫= k).
Proof. intros Hm Hk w b w' (a & w1 & E & Ek)%bind_ok_inv. eapply Hk; [|exact Ek]. by eapply Hm. Qed.
Lemma after_later {A B} (m : M W A) (k : A → M W B) : (∀ w a w', m w = (Ok a, w') → after P (k a)) → after P (m ≫= k).
Proof. intros Hk w b w' (a & w1 & E & Ek)%bind_ok_inv. by eapply Hk. Qed.
Lemma after_wrap {A} msg (m : M W A) : after P m → after P (wrap msg m).
Proof. intros Hm w a w' E%wrap_ok_inv. by eapply Hm. Qed.
Lemma stable_ret {A} (a : A) : stable P (mret a : M W A).
Proof. by intros w b w' HP [_ <-]%ret_ok_inv. Qed.
Lemma stable_bind {A B} (m : M W A) (k : A → M W B) :
  stable P m → (∀ w a w', m w = (Ok a, w') → stable P (k a)) → stable P (m ≫= k).
Proof. intros Hm Hk w b w' HP (a & w1 & E & Ek)%bind_ok_inv. eapply Hk; [exact E| |exact Ek]. by eapply Hm. Qed.
Lemma stable_wrap {A} msg (m : M W A) : stable P m → stable P (wrap msg m).
Proof. intros Hm w a w' HP E%wrap_ok_inv. by eapply Hm. Qed.
Lemma stable_loop {S A} (f : S → A → M W S) l : (∀ s a, a ∈ l → stable P (f s a)) → ∀ s, stable P (for_range f s l).
Proof.
  induction l as [|a l IH]; intros Hf s; [apply stable_ret|]. simpl. apply stable_bind; [apply Hf; left|].
  intros _ s' _ _. apply IH. intros s'' b Hb. apply Hf. by right.
Qed.
Lemma after_stable {A} (m : M W A) : after P m → stable P m.
Proof. intros Hm w a w' _ E. by eapply Hm. Qed.
(** A loop in which one step establishes [P] and the others keep it. *)
Lemma after_loop {S A} (f : S → A → M W S) a l : a ∈ l → (∀ s, after P (f s a)) → (∀ s b, b ∈ l → stable P (f s b)) →
  ∀ s, after P (for_range f s l).
Proof.
  induction l as [|b l IH]; [by intros ?%elem_of_nil|]. intros [->|Hin]%elem_of_cons Ha Hst s; simpl.
  - apply after_now; [apply Ha|]. intros s'. apply stable_loop. intros. apply Hst. by right.
  - apply after_later. intros _ s' _ _. apply IH; [done..|]. intros s'' b' Hb'. apply Hst. by right.
Qed.
End after.

(** A computation that keeps a view keeps what is said about it. *)
Lemma stable_keeps {W X A} (v : W → X) (Q : X → Prop) (m : M W A) : keeps v m → stable (λ w, Q (v w)) m.
Proof. intros Hm w a w' HQ E. by rewrite (Hm _ _ _ E). Qed.
(** The second part may depend on what the first has returned. *)
Lemma keeps_bind_run {W X A B} (v : W → X) (m : M W A) (k : A → M W B) :
  keeps v m → (∀ w a w', m w = (Ok a, w') → keeps v (k a)) → keeps v (m ≫= k).
Proof.
  intros Hm Hk w o w'. unfold mbind, M_MBind, M_bind. destruct (m w) as [o1 w1] eqn:E.
  pose proof (Hm _ _ _ E) as Hv. destruct o1; intros HH; simplify_eq; try done. rewrite <- Hv. by eapply Hk.
Qed.
Lemma keeps_loop_in {W X S A} (v : W → X) (f : S → A → M W S) l :
  (∀ s a, a ∈ l → keeps v (f s a)) → ∀ s, keeps v (for_range f s l).
Proof.
  induction l as [|a l IH]; intros Hf s; simpl; [apply keeps_ret|]. apply keeps_bind; [apply Hf; left|].
  intros s'. apply IH. intros s'' b Hb. apply Hf. by right.
Qed.

(** ** The seed cluster *)

(** [cp_lookup x w] is the object under [x], if there is one.  Nobody else writes
    during a run; an object is created, updated and deleted under its own key, and a
    deleted one is gone or waits for its finalizers.  All other calls leave the
    objects of control planes alone. *)
Class ControlPlaneWorld {W} (r : ClusterReconciler W) := {
  cp_lookup : Resource → W → option DataObject;
  cp_present (x : Resource) (w : W) : Prop := is_Some (cp_lookup x w);
  cp_removed (x : Resource) (w : W) : Prop :=
    ∀ o, cp_lookup x w = Some o → is_Some (om_deletionTimestamp (do_meta o));
  cp_get : ∀ x k n, keeps (cp_lookup x) (c_get (k8_objects r k) n);
  cp_get_ok : ∀ k n w o w', c_get (k8_objects r k) n w = (Ok o, w') →
    cp_lookup (mkResource k n) w = Some o ∧ object_key o = n;
  cp_get_missing : ∀ k n w e w', c_get (k8_objects r k) n w = (Err e, w') → IsNotFound e = true →
    cp_lookup (mkResource k n) w = None;
  cp_create : ∀ k o w z w', c_create (k8_objects r k) o w = (z, w') →
    (∀ x, x ≠ mkResource k (object_key o) → cp_lookup x w' = cp_lookup x w) ∧
    (∀ y, z = Ok y → is_Some (cp_lookup (mkResource k (object_key o)) w'));
  cp_update : ∀ k o w z w', c_update (k8_objects r k) o w = (z, w') →
    (∀ x, x ≠ mkResource k (object_key o) → cp_lookup x w' = cp_lookup x w) ∧
    (∀ y, z = Ok y → is_Some (cp_lookup (mkResource k (object_key o)) w'));
  cp_delete : ∀ k o w z w', c_delete (k8_objects r k) o w = (z, w') →
    (∀ x, x ≠ mkResource k (object_key o) → cp_lookup x w' = cp_lookup x w) ∧
    (z = Ok tt ∨ (∃ e, z = Err e ∧ IsNotFound e = true) → cp_removed (mkResource k (object_key o)) w');
  cp_poll : ∀ X (v : W → X) cond, keeps v cond → keeps v (k8_poll r cond);
  cp_resetStatus : ∀ o, object_key (k8_resetStatus r o) = object_key o;
  cp_deployment : ∀ x n, keeps (cp_lookup x) (c_get (k8_deployments r) n);
  cp_deployment_name : ∀ n w o w', c_get (k8_deployments r) n w = (Ok o, w') → om_name (dep_meta o) = key_name n;
  cp_etcd : ∀ x n, keeps (cp_lookup x) (c_get (k8_etcdSets r) n);
  cp_etcd_ok : ∀ n w o w', c_get (k8_etcdSets r) n w = (Ok o, w') →
    om_name (ss_meta o) = key_name n ∧ is_Some (cp_lookup (mkResource RStatefulSet n) w);
  cp_pods : ∀ x o, keeps (cp_lookup x) (c_list (k8_pods r) o);
  cp_services : ∀ x n, keeps (cp_lookup x) (c_get (k8_services r) n);
  cp_nodes : ∀ x, keeps (cp_lookup x) (k8_zonedNodes r);
  cp_seedGetter : ∀ x, keeps (cp_lookup x) (k8_seedGetter r);
  cp_configGetter : ∀ x, keeps (cp_lookup x) (k8_configGetter r);
  cp_lookupIP : ∀ x h, keeps (cp_lookup x) (k8_lookupIP r h);
  cp_resolve : ∀ x h, keeps (cp_lookup x) (k8_resolve r h);
  cp_rand : ∀ x n, keeps (cp_lookup x) (read (k8_rand r n));
  cp_patch : ∀ x old new, keeps (cp_lookup x) (c_patch (k8_clusters r) old new);
  cp_patch_ok : ∀ old new w c w', c_patch (k8_clusters r) old new w = (Ok c, w') →
    cl_spec c = cl_spec new ∧ cl_status c = cl_status new ∧ om_annotations (cl_meta c) = om_annotations (cl_meta new);
}.
#[export] Hint Resolve cp_get cp_deployment cp_etcd cp_pods cp_services cp_nodes cp_seedGetter cp_configGetter cp_lookupIP
  cp_resolve cp_rand cp_patch : kkp_frame.

Section deploy.
Context `{SemverLib, StringSets} {W : Type} (r : ClusterReconciler W) `{!ControlPlaneWorld r}.

(** ** One object *)

Lemma created_key (raw : ObjectCreator (O := DataObject)) ns n o o' :
  createWithName (createWithNamespace raw ns) n o = Ok o' → object_key o' = mkKey ns n.
Proof.
  unfold createWithName, createWithNamespace, mret, outcome_MRet, mbind, outcome_MBind. intros E. destruct (raw o); [|done..].
  cbn in E. by injection E as <-.
Qed.

Lemma poll_keeps x k n o : keeps (cp_lookup x) (k8_poll r (waitUntilUpdateIsInCache (k8_objects r k) (k8_equal r) n o)).
Proof. apply cp_poll. unfold waitUntilUpdateIsInCache. frame. Qed.
Lemma poll_exists_keeps x k n : keeps (cp_lookup x) (k8_poll r (WaitUntilObjectExistsInCache (k8_objects r k) n)).
Proof. apply cp_poll. unfold WaitUntilObjectExistsInCache. frame. Qed.

(** Writing an object with the key [n]. *)
Definition writes (k : ResourceKind) (n : NamespacedName) {A} (m : M W A) : Prop := ∀ w z w', m w = (z, w') →
  (∀ x, x ≠ mkResource k n → cp_lookup x w' = cp_lookup x w) ∧ (∀ y, z = Ok y → cp_present (mkResource k n) w').

Lemma writes_wrap k n msg {A} (m : M W A) : writes k n m → writes k n (wrap msg m).
Proof.
  intros Hm w z w'. unfold wrap. destruct (m w) as [o w1] eqn:E. destruct (Hm _ _ _ E) as [? ?].
  destruct o; intros [= <- <-]; by split.
Qed.
Lemma writes_then k n {A B} (m : M W A) (c : A → M W B) : writes k n m → (∀ x a, keeps (cp_lookup x) (c a)) → writes k n (m ≫= c).
Proof.
  intros Hm Hc w z w'. unfold mbind, M_MBind, M_bind. destruct (m w) as [o w1] eqn:E. destruct (Hm _ _ _ E) as [Hf Hp].
  destruct o as [a| | |]; [|intros [= <- <-]; split; [done|by intros y]..]. intros Ec. split.
  - intros x Hx. by rewrite (Hc x _ _ _ _ Ec), Hf.
  - intros y _. unfold cp_present. rewrite (Hc _ _ _ _ _ Ec). by apply (Hp a).
Qed.

(** Replacing the stored object, by an update or by deleting and creating it. *)
Lemma replace_writes k key obj : object_key obj = key →
  writes k key (if negb (requiresRecreate k)
    then wrap "failed to update object" (c_update (k8_objects r k) (k8_resetStatus r obj))
    else _ ← wrap "failed to delete object" (c_delete (k8_objects r k) obj);
      wrap "failed to create object" (c_create (k8_objects r k) (set_meta (set_uid "" (set_resourceVersion "" (obj_meta obj))) obj))).
Proof.
  intros Hkey. destruct (requiresRecreate k); cbn [negb].
  - intros u z' u'. unfold mbind, M_MBind, M_bind, wrap at 1. destruct (c_delete (k8_objects r k) obj u) as [o u1] eqn:Ed.
    destruct (cp_delete _ _ _ _ _ Ed) as [Hf _]. rewrite Hkey in Hf. destruct o; [|intros [= <- <-]; by split..].
    intros Ec. assert (Hw : writes k key (wrap "failed to create object"
      (c_create (k8_objects r k) (set_meta (set_uid "" (set_resourceVersion "" (obj_meta obj))) obj)))).
    { apply writes_wrap. intros v z1 v' E1. apply cp_create in E1. unfold object_key in E1, Hkey. rewrite !obj_meta_set in E1.
      cbn in E1, Hkey. by rewrite Hkey in E1. }
    destruct (Hw _ _ _ Ec) as [Hf2 Hp2]. split; [|done]. intros x Hx. by rewrite Hf2, Hf.
  - apply writes_wrap. intros u z' u' Eu. apply cp_update in Eu. by rewrite cp_resetStatus, Hkey in Eu.
Qed.

Lemma ensureObject_writes data args x : writes (rs_kind x) (rs_key x) (ensureObject r data args x).
Proof.
  destruct x as [k [ns n]]. unfold ensureObject, EnsureNamedObject. cbn [rs_kind rs_key key_namespace key_name].
  set (key := mkKey ns n). intros w z w'. unfold mbind at 1, M_MBind, M_bind, try.
  destruct (c_get (k8_objects r k) key w) as [o w1] eqn:Eg. pose proof (λ x, cp_get x k key _ _ _ Eg) as Hw1.
  assert (Hthen : ∀ {A B} (m : M W A) (c : A → M W B) z w', writes k key m → (∀ x a, keeps (cp_lookup x) (c a)) →
    (m ≫= c) w1 = (z, w') → (∀ x, x ≠ mkResource k key → cp_lookup x w' = cp_lookup x w) ∧ (∀ y, z = Ok y → cp_present (mkResource k key) w')).
  { intros A B m c z1 u Hm Hc E. destruct (writes_then k key m c Hm Hc _ _ _ E) as [Hf Hp]. split; [|done]. intros x Hx. by rewrite Hf, Hw1. }
  assert (Hstop : (∀ x, x ≠ mkResource k key → cp_lookup x w1 = cp_lookup x w)) by (intros; apply Hw1).
  destruct o as [existing|e|p|]; cbn beta iota; [| |intros [= <- <-]; by split..].
  - apply cp_get_ok in Eg as [Hex _]. unfold mbind at 1, M_bind, wrap at 1, lift.
    destruct (createWithName _ n existing) as [obj|e|p|] eqn:Eo; [|intros [= <- <-]; by split..].
    pose proof (created_key _ _ _ _ _ Eo) as Hkey. destruct (k8_equal r obj existing).
    { intros [= <- <-]. split; [done|]. intros _ _. unfold cp_present. by rewrite Hw1, Hex. }
    apply Hthen; [by apply replace_writes|]. intros x _. apply keeps_wrap, poll_keeps.
  - destruct (IsNotFound e); cbn [negb]; [|intros [= <- <-]; by split].
    unfold mbind at 1, M_bind, wrap at 1, lift.
    destruct (createWithName _ n (mkDataObject emptyMeta ∅)) as [obj|e'|p|] eqn:Eo; [|intros [= <- <-]; by split..].
    pose proof (created_key _ _ _ _ _ Eo) as Hkey. apply Hthen; [|intros x _; apply keeps_wrap, poll_exists_keeps].
    apply writes_wrap. intros u z' u' Eu. apply cp_create in Eu. by rewrite Hkey in Eu.
Qed.

Lemma ensureObject_keeps data args x y : x ≠ y → keeps (cp_lookup x) (ensureObject r data args y).
Proof. intros Hne w z w' E. apply ensureObject_writes in E as [Hf _]. apply Hf. by destruct y. Qed.
Lemma ensureObject_after data args x : after (cp_present x) (ensureObject r data args x).
Proof. intros w a w' E. apply ensureObject_writes in E as [_ Hp]. specialize (Hp a eq_refl). by destruct x. Qed.
Lemma ensureObject_stable data args x y : stable (cp_present x) (ensureObject r data args y).
Proof.
  destruct (decide (x = y)) as [->|Hne]; [apply after_stable, ensureObject_after|].
  apply (stable_keeps (cp_lookup x) is_Some). by apply ensureObject_keeps.
Qed.

(** ** Lists of objects *)

Section creators.
Context (k : ResourceKind) (msg : string) (creators : list (string * TemplateArgs)) (data : option TemplateData) (ns : string).
Let m : M W unit := ReconcileObjects r k msg creators data ns.

Lemma ReconcileObjects_keeps x : (∀ n a, (n, a) ∈ creators → x ≠ in_ns ns k n) → keeps (cp_lookup x) m.
Proof. intros Hx. apply keeps_loop_in. intros _ [n a] Hin. apply keeps_wrap, ensureObject_keeps. by eapply Hx. Qed.
Lemma ReconcileObjects_stable x : stable (cp_present x) m.
Proof. apply stable_loop. intros _ [n a] _. apply stable_wrap, ensureObject_stable. Qed.
Lemma ReconcileObjects_after n a : (n, a) ∈ creators → after (cp_present (in_ns ns k n)) m.
Proof.
  intros Hin. eapply after_loop; [exact Hin| |].
  - intros _. apply after_wrap, ensureObject_after.
  - intros _ [n' a'] _. apply stable_wrap, ensureObject_stable.
Qed.
End creators.

Lemma remove_run x msg w z w' : wrap msg (unless IsNotFound (c_delete (k8_objects r (rs_kind x)) (stub (rs_key x))) tt) w = (z, w') →
  (∀ y, y ≠ x → cp_lookup y w' = cp_lookup y w) ∧ (z = Ok tt → cp_removed x w').
Proof.
  unfold wrap, unless, mbind, M_MBind, M_bind, try. destruct (c_delete _ _ w) as [o w1] eqn:E. apply cp_delete in E as [Hf Hr].
  assert (Hkey : mkResource (rs_kind x) (object_key (stub (rs_key x))) = x) by (by destruct x as [? []]). rewrite Hkey in Hf, Hr.
  destruct o as [[]|e|p|]; [| |intros [= <- <-]; by split..].
  - intros [= <- <-]. split; [done|]. intros _. apply Hr. by left.
  - destruct (IsNotFound e) eqn:En; intros [= <- <-]; (split; [done|]); [intros _; apply Hr; right; by eexists|done].
Qed.

Section removing.
Context (msg : string) (l : list Resource).

Lemma removeAll_keeps x : x ∉ l → keeps (cp_lookup x) (removeAll r msg l).
Proof. intros Hx. apply keeps_loop_in. intros _ y Hy w z w' E. apply remove_run in E as [Hf _]. apply Hf. by intros ->. Qed.
Lemma removeAll_present x : x ∉ l → stable (cp_present x) (removeAll r msg l).
Proof. intros Hx. apply (stable_keeps (cp_lookup x) is_Some). by apply removeAll_keeps. Qed.
Lemma remove_removed x y : stable (cp_removed x)
  (wrap msg (unless IsNotFound (c_delete (k8_objects r (rs_kind y)) (stub (rs_key y))) tt)).
Proof.
  intros w [] w' Hx E. apply remove_run in E as [Hf Hr]. destruct (decide (x = y)) as [->|Hne]; [by apply Hr|].
  unfold cp_removed in *. by rewrite Hf.
Qed.
Lemma removeAll_stable x : stable (cp_removed x) (removeAll r msg l).
Proof. apply stable_loop. intros _ y _. apply remove_removed. Qed.
Lemma removeAll_after x : x ∈ l → after (cp_removed x) (removeAll r msg l).
Proof.
  intros Hx. eapply after_loop; [exact Hx| |].
  - intros _ w [] w' E. apply remove_run in E as [_ Hr]. by apply Hr.
  - intros _ y _. apply remove_removed.
Qed.
End removing.

(** A computation that removes the objects of a list, and only those. *)
Record removes (l : list Resource) (m : M W unit) : Prop := {
  rm_keeps : ∀ x, x ∉ l → keeps (cp_lookup x) m;
  rm_stable : ∀ x, stable (cp_removed x) m;
  rm_after : ∀ x, x ∈ l → after (cp_removed x) m;
}.
Lemma removes_all msg l : removes l (removeAll r msg l).
Proof. split; [apply removeAll_keeps|apply removeAll_stable|apply removeAll_after]. Qed.
Lemma removes_seq l m l' m' : removes l m → removes l' m' → removes (l ++ l') (m ≫= λ _, m').
Proof.
  intros [Hk Hs Ha] [Hk' Hs' Ha']. split; intros x.
  - rewrite not_elem_of_app. intros [? ?]. apply keeps_bind; auto.
  - apply stable_bind; auto.
  - intros [?|?]%elem_of_app; [apply after_now; auto|apply after_later; auto].
Qed.
Lemma removes_if b l m : removes l m → removes (when b l) (only_if b m).
Proof.
  intros Hm. destruct b; [done|]. split; intros x; [intros _; apply keeps_ret|apply stable_ret|by intros ?%elem_of_nil].
Qed.

(** ** The parts of a run *)

(** The cluster-wide objects of a control plane. *)
Definition cluster_wide (namespace : string) : list Resource :=
  map (in_ns "" RClusterRole) clusterRoleCreators ++ map (in_ns "" RClusterRoleBinding) (clusterRoleBindingCreators namespace).

(** The issuer whose addresses the API server may reach. *)
Definition issuerURL (c : Cluster) : string :=
  if String.eqb (OIDC_IssuerURL (cl_spec c)) "" && ft_KubernetesOIDCAuthentication (k8_features r)
  then st_oidcIssuerURL (k8_settings r) else OIDC_IssuerURL (cl_spec c).

Definition conditions (c : Cluster) (backup ccm : bool) : Conditions := mkConditions (negb (String.eqb (issuerURL c) "")) backup ccm.

(** The external cloud controller is deployed when the cluster uses it and is not
    being migrated; during a migration it may be. *)
Definition ccm_allowed (c : Cluster) : bool := has_feature c ClusterFeatureExternalCloudProvider.
Definition ccm_required (c : Cluster) : bool :=
  ccm_allowed c && negb (is_some (om_annotations (cl_meta c) !! CCMMigrationNeededAnnotation)).

(** An object that no run for this cluster has to do with. *)
Definition outside (c : Cluster) (namespace : string) (x : Resource) : Prop :=
  (∀ comp, enabled (k8_features r) c (conditions c true (ccm_allowed c)) comp = true →
     ¬ object_of (ns_of c) (cloudControllerDeployment c) comp x) ∧
  (x ∉ removals (k8_features r) c (ns_of c)) ∧ (x ∉ cluster_wide namespace).

Section parts.
Context (c : Cluster) (d : TemplateData).
Hypothesis Hc : td_cluster d = c.
Hypothesis Hk : td_isKonnectivityEnabled d = konnectivity (k8_features r) c.
Hypothesis Hi : td_oidcIssuerURL d = st_oidcIssuerURL (k8_settings r).
Let f : Features := k8_features r.
Let ns : string := ns_of c.
Let ccm : string := cloudControllerDeployment c.

Lemma Hk' : td_isKonnectivityEnabled d = konnectivity f (td_cluster d).
Proof. by rewrite Hc. Qed.

Lemma listed_object q k n : listed f d q k n → ∃ comp, enabled f c q comp = true ∧ object_of ns ccm comp (in_ns ns k n).
Proof. intros (comp & He & Hn). rewrite Hc in He, Hn. exists comp. split; [done|]. by exists k, n. Qed.
Lemma object_listed q k n comp : enabled f c q comp = true → n ∈ names ccm comp k → listed f d q k n.
Proof. intros He Hn. exists comp. by rewrite Hc. Qed.

(** With fewer conditions there are fewer components. *)
Lemma enabled_mono backup b comp : (b = true → ccm_allowed c = true) →
  enabled f c (conditions c backup b) comp = true → enabled f c (conditions c true (ccm_allowed c)) comp = true.
Proof. intros Hb. destruct comp; simpl; auto. Qed.

Lemma listed_outside namespace x backup b k n : outside c namespace x → (b = true → ccm_allowed c = true) →
  listed f d (conditions c backup b) k n → x ≠ in_ns ns k n.
Proof.
  intros (Ho & _) Hb (comp & He & Hn)%listed_object ->. eapply Ho; [|exact Hn]. by eapply enabled_mono.
Qed.

Lemma stage_keeps namespace x backup b k msg creators data : outside c namespace x → (b = true → ccm_allowed c = true) →
  (∀ n a, (n, a) ∈ creators → listed f d (conditions c backup b) k n) →
  keeps (cp_lookup x) (ReconcileObjects r k msg creators data ns).
Proof. intros Ho Hb Hl. apply ReconcileObjects_keeps. intros n a Hin. eapply listed_outside; [done|exact Hb|]. by eapply Hl. Qed.

Lemma plain_listed q k l : (∀ n, n ∈ l ↔ listed f d q k n) → ∀ n a, (n, a) ∈ plain l → listed f d q k n.
Proof. intros Hl n a Hin. apply Hl, elem_of_plain. eauto. Qed.

(** *** Services, secrets, RBAC *)

Lemma services_keeps namespace x : outside c namespace x → keeps (cp_lookup x) (ensureServices r c d).
Proof.
  intros Ho. eapply (stage_keeps _ _ false false); [done..|]. apply plain_listed. intros n. by apply services_listed, Hk'.
Qed.
Lemma secrets_keeps namespace x : outside c namespace x → keeps (cp_lookup x) (ensureSecrets r c d).
Proof.
  intros Ho. apply keeps_wrap. eapply (stage_keeps _ _ false false); [done..|]. apply plain_listed. intros n. by apply secrets_listed, Hk'.
Qed.
Lemma rbac_keeps (namespace : Namespace) x : outside c (om_name (ns_meta namespace)) x → keeps (cp_lookup x) (ensureRBAC r c namespace).
Proof.
  intros Ho. pose proof Ho as (_ & _ & Hw). unfold ensureRBAC, ensureServiceAccounts, ensureRoles, ensureRoleBindings.
  assert (Hrbac : ∀ msg msg' k l, (∀ n, n ∈ l ↔ listed f d (conditions c false false) k n) →
    keeps (cp_lookup x) (wrap msg (ReconcileObjects r k msg' (plain l) None (ns_of c))))
    by (intros; apply keeps_wrap; eapply (stage_keeps _ _ false false); [done..|by apply plain_listed]).
  apply keeps_bind; [apply Hrbac; intros n; rewrite <- Hc; by apply serviceAccounts_listed, Hk'|intros _].
  apply keeps_bind; [apply Hrbac; intros n; rewrite <- Hc; by apply roles_listed, Hk'|intros _].
  apply keeps_bind; [apply Hrbac; intros n; rewrite <- Hc; by apply roleBindings_listed, Hk'|intros _].
  apply keeps_bind; [|intros _].
  - apply keeps_wrap, ReconcileObjects_keeps. intros n a Hin ->. apply Hw, elem_of_app. left.
    apply list_elem_of_fmap. exists n. split; [done|]. apply elem_of_plain. eauto.
  - apply keeps_wrap, ReconcileObjects_keeps. intros n a (m & [= -> ->] & Hin)%list_elem_of_fmap ->. apply Hw, elem_of_app. right.
    apply list_elem_of_fmap. eauto.
Qed.

Lemma issuer_data : oidcIssuer r c d = issuerURL c.
Proof. unfold oidcIssuer, issuerURL. by rewrite Hi. Qed.

Lemma hostname_keeps x h : keeps (cp_lookup x) (hostnameToIPList r h).
Proof. unfold hostnameToIPList. frame. Qed.
Local Hint Resolve hostname_keeps : kkp_frame.

(** The network policies, once the addresses are known. *)
Lemma policies_run : has_feature c ApiserverNetworkPolicy = true → ∀ w u w', ensureNetworkPolicies r c d w = (Ok u, w') →
  ∃ ips issuer w1, is_some issuer = negb (String.eqb (issuerURL c) "") ∧
    wrap "failed to ensure Network Policies"
      (ReconcileNetworkPolicies r (networkPolicyCreators d ips issuer) (Some d) ns) w1 = (Ok u, w').
Proof.
  intros Hp w u w'. unfold ensureNetworkPolicies. unfold has_feature in Hp. rewrite Hp. cbn [negb]. rewrite issuer_data.
  intros (ips & w1 & _ & (issuer & w2 & Eb & Hr)%bind_ok_inv)%bind_ok_inv. exists ips, issuer, w2. split; [|done].
  destruct (String.eqb (issuerURL c) ""); m_inv; done.
Qed.

Lemma policies_keeps namespace x : outside c namespace x → keeps (cp_lookup x) (ensureNetworkPolicies r c d).
Proof.
  intros Ho. unfold ensureNetworkPolicies. rewrite issuer_data. destruct (map_bool _ _) eqn:Hp; cbn [negb]; [|frame].
  apply keeps_bind; [frame|]. intros ips. apply keeps_bind_run; [frame|]. intros w issuer w' Eb.
  apply keeps_wrap. eapply (stage_keeps _ _ false false); [done..|]. intros n a Hin.
  apply (policies_listed f d _ Hk' n ips issuer); [by rewrite Hc| |eauto]. simpl.
  destruct (String.eqb (issuerURL c) ""); m_inv; done.
Qed.

Lemma health_keeps x : keeps (cp_lookup x) (statefulSetHealthCheck r c).
Proof. unfold statefulSetHealthCheck. frame. Qed.
Lemma tls_keeps x : keeps (cp_lookup x) (etcdUseStrictTLS r c).
Proof. unfold etcdUseStrictTLS. frame. Qed.

Lemma map_listed q k l (g : string → TemplateArgs) : (∀ n, n ∈ l ↔ listed f d q k n) →
  ∀ n a, (n, a) ∈ map (λ n, (n, g n)) l → listed f d q k n.
Proof. intros Hl n a (m & [= -> ->] & Hm)%list_elem_of_fmap. by apply Hl. Qed.

Lemma etcd_keeps namespace x : outside c namespace x → keeps (cp_lookup x) (ensureEtcd r c d).
Proof.
  intros Ho. unfold ensureEtcd. apply keeps_bind; [apply keeps_try, health_keeps|]. intros [e|[]]; [frame| |frame].
  unfold ensureStatefulSets. apply keeps_bind; [apply tls_keeps|]. intros tls. eapply (stage_keeps _ _ false false); [done..|].
  apply (map_listed _ _ _ (λ _, EtcdArgs _ tls)). intros n. by apply statefulSets_listed, Hk'.
Qed.

Definition backupObject : Resource := in_ns ns REtcdBackupConfig EtcdDefaultBackupConfigName.

Lemma backup_keeps seed x : x ≠ backupObject → keeps (cp_lookup x) (ensureEtcdBackupConfigs r c d seed).
Proof.
  intros Hx. unfold ensureEtcdBackupConfigs. destruct (IsDefaultEtcdAutomaticBackupEnabled seed).
  - apply ReconcileObjects_keeps. intros n a Hin. assert (n = EtcdDefaultBackupConfigName) as ->; [|done].
    apply list_elem_of_singleton, elem_of_plain. eauto.
  - apply keeps_bind_run; [frame|]. intros w [e|o] w' Eg; [destruct (IsNotFound e); frame|].
    apply try_ok_inv in Eg as [(o' & [= <-] & Eg)|(? & ? & _)]; [|done]. apply cp_get_ok in Eg as [_ Ho].
    intros u z u' Ed. apply cp_delete in Ed as [Hf _]. rewrite Ho in Hf. by apply Hf.
Qed.

Lemma backup_removed seed : IsDefaultEtcdAutomaticBackupEnabled seed = false →
  after (cp_removed backupObject) (ensureEtcdBackupConfigs r c d seed).
Proof.
  intros Hs. unfold ensureEtcdBackupConfigs. rewrite Hs. intros w [] w' E.
  apply bind_ok_inv in E as (res & w1 & Eg & E). pose proof (λ x, keeps_try _ _ (cp_get x _ _) _ _ _ Eg) as Hw1.
  apply try_ok_inv in Eg as [(o & -> & Eg)|(e & -> & Eg)].
  - apply cp_get_ok in Eg as [_ Ho]. apply cp_delete in E as [_ Hr]. rewrite Ho in Hr. apply Hr. by left.
  - destruct (IsNotFound e) eqn:En; [|by apply throw_ok_inv in E]. apply ret_ok_inv in E as [_ <-].
    intros o Ho. rewrite Hw1 in Ho. by rewrite (cp_get_missing _ _ _ _ _ Eg En) in Ho.
Qed.

(** *** Workloads *)

Lemma kcm_keeps x : keeps (cp_lookup x) (KCMCloudControllersDeactivated (k8_unmarshal r) (k8_deployments r) (ns_of (td_cluster d))).
Proof.
  unfold KCMCloudControllersDeactivated. apply keeps_bind; [frame|]. intros [e|kcm]; [frame|]. apply keeps_bind; [|frame].
  destruct (IsDeploymentRolloutComplete kcm 0); frame. by intros w z w' [= _ <-].
Qed.

Lemma creators_run (m : M W bool) (w w' : W) l : GetDeploymentCreators m d w = (Ok l, w') →
  ∃ b, l = deploymentsWith d b ∧ (b = true → ccm_allowed c = true) ∧ (ccm_required c = true → b = true).
Proof.
  unfold GetDeploymentCreators. intros (b & w1 & Eb & [<- _]%ret_ok_inv)%bind_ok_inv. exists b. split; [done|].
  unfold ccmAllowed in Eb. rewrite Hc in Eb. unfold ccm_required, ccm_allowed, has_feature.
  destruct (map_bool _ _); cbn [negb] in Eb; [|apply ret_ok_inv in Eb as [<- _]; done]. split; [done|].
  destruct (is_some _); cbn [negb andb] in *; [done|]. by apply ret_ok_inv in Eb as [<- _].
Qed.

Lemma creators_keeps x : keeps (cp_lookup x) (GetDeploymentCreators
  (KCMCloudControllersDeactivated (k8_unmarshal r) (k8_deployments r) (ns_of (td_cluster d))) d).
Proof.
  unfold GetDeploymentCreators. apply keeps_bind; [|frame]. unfold ccmAllowed.
  destruct (negb _); [frame|]. destruct (negb _); [frame|apply kcm_keeps].
Qed.

Lemma deployments_keeps namespace x : outside c namespace x → keeps (cp_lookup x) (ensureDeployments r c d).
Proof.
  intros Ho. unfold ensureDeployments. apply keeps_bind_run; [apply creators_keeps|]. intros w l w' (b & -> & Hb & _)%creators_run.
  eapply (stage_keeps _ _ false b); [done..|]. apply (map_listed _ _ _ (λ n, if String.eqb n _ then _ else _)). intros n.
  by apply (deployments_listed f d (conditions c false b)), Hk'.
Qed.

Lemma vpa_names {O} `{Object O} (client : Client W O) kind pod l namespace en w z w' :
  (∀ n w o w', c_get client n w = (Ok o, w') → om_name (obj_meta o) = key_name n) →
  getVerticalPodAutoscalersForResource client kind pod l namespace en w = (Ok z, w') → map fst z = l.
Proof.
  intros Hname. unfold getVerticalPodAutoscalersForResource. set (step := λ _ _, _).
  cut (∀ acc w, for_range step acc l w = (Ok z, w') → map fst z = map fst acc ++ l); [intros Hz E; apply (Hz [] _ E)|].
  induction l as [|n l IH]; intros acc u E; simpl in E; [apply ret_ok_inv in E as [<- _]; by rewrite app_nil_r|].
  apply bind_ok_inv in E as (acc' & w1 & Ea & E). apply bind_ok_inv in Ea as (o & w2 & Eg%wrap_ok_inv & [<- _]%ret_ok_inv).
  apply IH in E. rewrite E, map_app. cbn [map fst]. by rewrite (Hname _ _ _ _ Eg), <- app_assoc.
Qed.

Lemma vpa_keeps_reads x {O} `{Object O} (client : Client W O) kind pod l namespace en :
  (∀ n, keeps (cp_lookup x) (c_get client n)) →
  keeps (cp_lookup x) (getVerticalPodAutoscalersForResource client kind pod l namespace en).
Proof. intros Hg. apply keeps_for_range. intros acc n. apply keeps_bind; [apply keeps_wrap, Hg|frame]. Qed.

Lemma vpa_creators w l w' en : GetVerticalPodAutoscalersForAll r (controlPlaneDeploymentNames d) [EtcdStatefulSetName] ns en w = (Ok l, w') →
  map fst l = controlPlaneDeploymentNames d ++ [EtcdStatefulSetName].
Proof.
  unfold GetVerticalPodAutoscalersForAll.
  intros (a & w1 & Ea%wrap_ok_inv & (b & w2 & Eb%wrap_ok_inv & [<- _]%ret_ok_inv)%bind_ok_inv)%bind_ok_inv. rewrite map_app.
  apply vpa_names in Ea; [|exact cp_deployment_name]. apply vpa_names in Eb; [|intros; by eapply cp_etcd_ok]. by rewrite Ea, Eb.
Qed.
Lemma vpa_reads x en : keeps (cp_lookup x) (GetVerticalPodAutoscalersForAll r (controlPlaneDeploymentNames d) [EtcdStatefulSetName] ns en).
Proof.
  unfold GetVerticalPodAutoscalersForAll. apply keeps_bind; [|intros a; apply keeps_bind; [|frame]];
    apply keeps_wrap, vpa_keeps_reads; intros; [apply cp_deployment|apply cp_etcd].
Qed.
Lemma fst_listed q k l (creators : list (string * TemplateArgs)) : (∀ n, n ∈ l ↔ listed f d q k n) → map fst creators = l →
  ∀ n a, (n, a) ∈ creators → listed f d q k n.
Proof. intros Hl <- n a Hin. apply Hl, list_elem_of_fmap. by exists (n, a). Qed.

Lemma autoscalers_keeps namespace x : outside c namespace x → keeps (cp_lookup x) (ensureVerticalPodAutoscalers r c d).
Proof.
  intros Ho. unfold ensureVerticalPodAutoscalers. apply keeps_bind_run; [apply keeps_wrap, vpa_reads|].
  intros w l w' El%wrap_ok_inv%vpa_creators. eapply (stage_keeps _ _ false false); [done..|]. eapply fst_listed; [|exact El].
  intros n. by apply autoscalers_listed, Hk'.
Qed.

(** *** Removals *)

Lemma removeDropped_removes : removes (removals f c ns) (removeDropped r c d).
Proof.
  unfold removeDropped, removals, ensureOldOPAIntegrationIsRemoved, ensureKonnectivitySetupIsRemoved, ensureOSMResourcesAreRemoved,
    ensureKubernetesDashboardResourcesAreRemoved, ensureEncryptionConfigurationIsRemoved. rewrite Hc.
  apply removes_seq; [apply removes_all|]. apply removes_seq; [apply removes_if|].
  - destruct (default false _); [|apply removes_all]. unfold ensureOpenVPNSetupIsRemoved, openVPNSetup. rewrite Hc.
    repeat (apply removes_seq; [apply removes_all|]). apply removes_all.
  - repeat (apply removes_seq; [apply removes_if, removes_all|]). apply removes_if, removes_all.
Qed.

(** *** The second half *)

(** Reading keeps what is there. *)
Lemma reads_stable {A} x (m : M W A) : keeps (cp_lookup x) m → stable (cp_present x) m.
Proof. apply (stable_keeps (cp_lookup x) is_Some). Qed.

Lemma deployments_stable x : stable (cp_present x) (ensureDeployments r c d).
Proof. apply stable_bind; [apply reads_stable, creators_keeps|]. intros. apply ReconcileObjects_stable. Qed.
Lemma autoscalers_stable x : stable (cp_present x) (ensureVerticalPodAutoscalers r c d).
Proof. apply stable_bind; [apply reads_stable, keeps_wrap, vpa_reads|]. intros. apply ReconcileObjects_stable. Qed.

Lemma plain_after k msg l data n : n ∈ l → after (cp_present (in_ns ns k n)) (ReconcileObjects r k msg (plain l) data ns).
Proof. intros Hn. apply ReconcileObjects_after with NoArgs. apply list_elem_of_fmap. eauto. Qed.

Lemma configMaps_after q n : listed f d q RConfigMap n → after (cp_present (in_ns ns RConfigMap n)) (ensureConfigMaps r c d).
Proof. intros Hn. apply after_wrap, plain_after. by apply (configMaps_listed f d q Hk'). Qed.
Lemma cronJobs_after q n : listed f d q RCronJob n → after (cp_present (in_ns ns RCronJob n)) (ensureCronJobs r c d).
Proof. intros Hn. apply after_wrap, plain_after. by apply (cronJobs_listed f d q Hk'). Qed.
Lemma budgets_after q n : listed f d q RPodDisruptionBudget n →
  after (cp_present (in_ns ns RPodDisruptionBudget n)) (ensurePodDisruptionBudgets r c d).
Proof. intros Hn. apply after_wrap, plain_after. by apply (budgets_listed f d q Hk'). Qed.
Lemma deployments_after backup n : listed f d (conditions c backup (ccm_required c)) RDeployment n →
  after (cp_present (in_ns ns RDeployment n)) (ensureDeployments r c d).
Proof.
  intros (comp & He & Hn). apply after_later. intros w l w' (b & -> & _ & Hb)%creators_run.
  eapply ReconcileObjects_after, list_elem_of_fmap. exists n. split; [done|].
  apply (deployments_listed f d (conditions c backup b) Hk'). exists comp. split; [|done].
  destruct comp; simpl in *; auto.
Qed.
Lemma autoscalers_after q n : listed f d q RVerticalPodAutoscaler n →
  after (cp_present (in_ns ns RVerticalPodAutoscaler n)) (ensureVerticalPodAutoscalers r c d).
Proof.
  intros Hn. apply after_later. intros w l w' El%wrap_ok_inv%vpa_creators. apply (autoscalers_listed f d q Hk') in Hn.
  rewrite <- El in Hn. apply list_elem_of_fmap in Hn as ([m a] & -> & Hin). by eapply ReconcileObjects_after.
Qed.
(** The autoscaler of etcd is only made for a stateful set that exists. *)
Lemma etcd_after : after (cp_present (in_ns ns RStatefulSet EtcdStatefulSetName)) (ensureVerticalPodAutoscalers r c d).
Proof.
  apply after_now; [|intros; apply ReconcileObjects_stable]. apply after_wrap. unfold GetVerticalPodAutoscalersForAll.
  apply after_later. intros _ a _ _. apply after_now; [|intros; apply stable_ret]. apply after_wrap. intros w l w' E.
  pose proof (vpa_keeps_reads (in_ns ns RStatefulSet EtcdStatefulSetName) (k8_etcdSets r) "StatefulSet" ss_containers
    [EtcdStatefulSetName] (ns_of c) (ft_VPA (k8_features r)) (cp_etcd _) _ _ _ E) as Hv.
  unfold cp_present. rewrite Hv. apply bind_ok_inv in E as (l1 & w1 & E & _). apply bind_ok_inv in E as (o & w2 & E%wrap_ok_inv & _).
  by apply cp_etcd_ok in E as [_ ?].
Qed.

Lemma deployWorkloads_keeps namespace x : outside c namespace x → keeps (cp_lookup x) (deployWorkloads r c d).
Proof.
  intros Ho. unfold deployWorkloads. pose proof Ho as (_ & Hr & _).
  assert (Hplain : ∀ msg msg' k l, (∀ n, n ∈ l ↔ listed f d (conditions c false false) k n) →
    keeps (cp_lookup x) (wrap msg (ReconcileObjects r k msg' (plain l) (Some d) (ns_of c))))
    by (intros; apply keeps_wrap; eapply (stage_keeps _ _ false false); [done..|by apply plain_listed]).
  apply keeps_bind; [apply Hplain; intros n; by apply configMaps_listed, Hk'|intros _].
  apply keeps_bind; [by eapply deployments_keeps|intros _].
  apply keeps_bind; [apply Hplain; intros n; by apply cronJobs_listed, Hk'|intros _].
  apply keeps_bind; [apply Hplain; intros n; by apply budgets_listed, Hk'|intros _].
  apply keeps_bind; [by eapply autoscalers_keeps|intros _]. by apply (rm_keeps _ _ removeDropped_removes).
Qed.

Lemma deployWorkloads_stable x : x ∉ removals f c ns → stable (cp_present x) (deployWorkloads r c d).
Proof.
  intros Hx. unfold deployWorkloads. apply stable_bind; [apply stable_wrap, ReconcileObjects_stable|intros _ _ _ _].
  apply stable_bind; [apply deployments_stable|intros _ _ _ _].
  do 2 (apply stable_bind; [apply stable_wrap, ReconcileObjects_stable|intros _ _ _ _]).
  apply stable_bind; [apply autoscalers_stable|intros _ _ _ _]. by apply reads_stable, (rm_keeps _ _ removeDropped_removes).
Qed.

Lemma deployWorkloads_removed x : x ∈ removals f c ns → after (cp_removed x) (deployWorkloads r c d).
Proof.
  intros Hx. unfold deployWorkloads. do 5 (apply after_later; intros _ _ _ _). by apply (rm_after _ _ removeDropped_removes).
Qed.

Definition workload (k : ResourceKind) : bool :=
  match k with
  | RConfigMap | RDeployment | RCronJob | RPodDisruptionBudget | RVerticalPodAutoscaler | RStatefulSet => true
  | _ => false
  end.

Lemma deployWorkloads_after backup comp k n : workload k = true →
  enabled f c (conditions c backup (ccm_required c)) comp = true → n ∈ names ccm comp k →
  after (cp_present (in_ns ns k n)) (deployWorkloads r c d).
Proof.
  intros Hw He Hn. pose proof (object_listed _ _ _ _ He Hn) as Hl.
  assert (Hr : in_ns ns k n ∉ removals f c ns) by (eapply enabled_not_removed; [exact He|by exists k, n]).
  assert (Hrm : stable (cp_present (in_ns ns k n)) (removeDropped r c d)) by (by apply reads_stable, (rm_keeps _ _ removeDropped_removes)).
  unfold deployWorkloads. destruct k; try done.
  - apply after_now; [by eapply configMaps_after|intros _].
    apply stable_bind; [apply deployments_stable|intros _ _ _ _].
    do 2 (apply stable_bind; [apply stable_wrap, ReconcileObjects_stable|intros _ _ _ _]).
    by apply stable_bind; [apply autoscalers_stable|intros _ _ _ _].
  - apply after_later; intros _ _ _ _. apply after_now; [by eapply deployments_after|intros _].
    do 2 (apply stable_bind; [apply stable_wrap, ReconcileObjects_stable|intros _ _ _ _]).
    by apply stable_bind; [apply autoscalers_stable|intros _ _ _ _].
  - do 4 (apply after_later; intros _ _ _ _). apply after_now; [|done].
    assert (n = EtcdStatefulSetName) as ->; [|apply etcd_after].
    apply (statefulSets_listed f d _ Hk') in Hl. by apply list_elem_of_singleton in Hl.
  - do 2 (apply after_later; intros _ _ _ _). apply after_now; [by eapply cronJobs_after|intros _].
    apply stable_bind; [apply stable_wrap, ReconcileObjects_stable|intros _ _ _ _].
    by apply stable_bind; [apply autoscalers_stable|intros _ _ _ _].
  - do 3 (apply after_later; intros _ _ _ _). apply after_now; [by eapply budgets_after|intros _].
    by apply stable_bind; [apply autoscalers_stable|intros _ _ _ _].
  - do 4 (apply after_later; intros _ _ _ _). by apply after_now; [eapply autoscalers_after|].
Qed.

(** *** The first half *)

Lemma rbac_stable (namespace : Namespace) x : stable (cp_present x) (ensureRBAC r c namespace).
Proof.
  unfold ensureRBAC. do 4 (apply stable_bind; [apply stable_wrap, ReconcileObjects_stable|intros _ _ _ _]).
  apply stable_wrap, ReconcileObjects_stable.
Qed.
Lemma policies_stable x : stable (cp_present x) (ensureNetworkPolicies r c d).
Proof.
  unfold ensureNetworkPolicies. destruct (map_bool _ _); [cbn [negb]|apply stable_ret].
  apply stable_bind; [apply reads_stable; frame|intros _ ips _ _]. apply stable_bind; [apply reads_stable; frame|intros _ issuer _ _].
  apply stable_wrap, ReconcileObjects_stable.
Qed.
Lemma etcd_stable x : stable (cp_present x) (ensureEtcd r c d).
Proof.
  apply stable_bind; [apply reads_stable, keeps_try, health_keeps|]. intros _ [e|[]] _ _; [apply stable_ret| |apply stable_ret].
  apply stable_bind; [apply reads_stable, tls_keeps|intros _ tls _ _; apply ReconcileObjects_stable].
Qed.
Lemma backup_stable seed x : x ≠ backupObject ∨ IsDefaultEtcdAutomaticBackupEnabled seed = true →
  stable (cp_present x) (ensureEtcdBackupConfigs r c d seed).
Proof.
  intros [Hx|Hs]; [by apply reads_stable, backup_keeps|]. unfold ensureEtcdBackupConfigs. rewrite Hs. apply ReconcileObjects_stable.
Qed.

Lemma foundation_keeps (namespace : Namespace) seed x : outside c (om_name (ns_meta namespace)) x →
  keeps (cp_lookup x) (deployFoundation r c namespace d seed).
Proof.
  intros Ho. unfold deployFoundation. apply keeps_bind; [by eapply secrets_keeps|intros _].
  apply keeps_bind; [by apply rbac_keeps|intros _]. apply keeps_bind; [by eapply policies_keeps|intros _].
  apply keeps_bind; [by eapply etcd_keeps|intros _]. apply backup_keeps. intros ->. destruct Ho as [Ho _].
  apply (Ho CBackup); [done|]. exists REtcdBackupConfig, EtcdDefaultBackupConfigName. split; [done|]. left.
Qed.

Lemma foundation_stable namespace seed x : x ≠ backupObject ∨ IsDefaultEtcdAutomaticBackupEnabled seed = true →
  stable (cp_present x) (deployFoundation r c namespace d seed).
Proof.
  intros Hx. unfold deployFoundation. apply stable_bind; [apply stable_wrap, ReconcileObjects_stable|intros _ _ _ _].
  apply stable_bind; [apply rbac_stable|intros _ _ _ _]. apply stable_bind; [apply policies_stable|intros _ _ _ _].
  apply stable_bind; [apply etcd_stable|intros _ _ _ _]. by apply backup_stable.
Qed.

Lemma rbac_after (namespace : Namespace) x :
  (∃ q n, listed f d q RServiceAccount n ∧ x = in_ns ns RServiceAccount n ∨ listed f d q RRole n ∧ x = in_ns ns RRole n ∨
      listed f d q RRoleBinding n ∧ x = in_ns ns RRoleBinding n) ∨ x ∈ cluster_wide (om_name (ns_meta namespace)) →
  after (cp_present x) (ensureRBAC r c namespace).
Proof.
  unfold ensureRBAC. assert (Hst : ∀ x, stable (cp_present x) (ensureClusterRoleBindings r namespace))
    by (intros; apply stable_wrap, ReconcileObjects_stable).
  assert (Hst' : ∀ x msg k msg' l ns', stable (cp_present x) (wrap msg (ReconcileObjects r k msg' l None ns')))
    by (intros; apply stable_wrap, ReconcileObjects_stable).
  intros [(q & n & [[Hn ->]|[[Hn ->]|[Hn ->]]])|[(n & -> & Hn)%list_elem_of_fmap|(n & -> & Hn)%list_elem_of_fmap]%elem_of_app].
  - apply after_now; [apply after_wrap, plain_after; rewrite <- Hc; by apply (serviceAccounts_listed f d q Hk')|intros _].
    do 3 (apply stable_bind; [apply Hst'|intros _ _ _ _]). apply Hst.
  - apply after_later; intros _ _ _ _. apply after_now; [apply after_wrap, plain_after; rewrite <- Hc; by apply (roles_listed f d q Hk')|intros _].
    do 2 (apply stable_bind; [apply Hst'|intros _ _ _ _]). apply Hst.
  - do 2 (apply after_later; intros _ _ _ _). apply after_now; [apply after_wrap, plain_after; rewrite <- Hc; by apply (roleBindings_listed f d q Hk')|intros _].
    apply stable_bind; [apply Hst'|intros _ _ _ _; apply Hst].
  - do 3 (apply after_later; intros _ _ _ _). apply after_now; [|intros _; apply Hst]. apply after_wrap.
    apply ReconcileObjects_after with NoArgs. apply list_elem_of_fmap. eauto.
  - do 4 (apply after_later; intros _ _ _ _). apply after_wrap. eapply ReconcileObjects_after, list_elem_of_fmap. eauto.
Qed.

Definition foundation (k : ResourceKind) : bool :=
  match k with RSecret | RServiceAccount | RRole | RRoleBinding | RNetworkPolicy | REtcdBackupConfig => true | _ => false end.

Lemma policies_after backup n : listed f d (conditions c backup (ccm_required c)) RNetworkPolicy n →
  after (cp_present (in_ns ns RNetworkPolicy n)) (ensureNetworkPolicies r c d).
Proof.
  intros Hn. assert (Hp : has_feature c ApiserverNetworkPolicy = true).
  { destruct Hn as (comp & He & Hn). rewrite Hc in He. destruct comp; cbn in He, Hn; try (by apply elem_of_nil in Hn); try done;
      by apply andb_true_iff in He as [? _]. }
  intros w u w' (ips & issuer & w1 & Hi' & E%wrap_ok_inv)%policies_run; [|done].
  apply (policies_listed f d _ Hk' n ips issuer) in Hn as [a Hin]; [|by rewrite Hc|done].
  by eapply ReconcileObjects_after in E.
Qed.

Lemma foundation_after (namespace : Namespace) seed comp k n : let backup := IsDefaultEtcdAutomaticBackupEnabled seed in
  foundation k = true → enabled f c (conditions c backup (ccm_required c)) comp = true → n ∈ names ccm comp k →
  after (cp_present (in_ns ns k n)) (deployFoundation r c namespace d seed).
Proof.
  intros backup Hf He Hn. pose proof (object_listed _ _ _ _ He Hn) as Hl. unfold deployFoundation.
  assert (Hb : in_ns ns k n ≠ backupObject ∨ backup = true).
  { destruct comp; cbn in He; try (by right); left; intros [= -> ->]; cbn in Hn; by apply elem_of_nil in Hn. }
  assert (Hrest : stable (cp_present (in_ns ns k n)) (ensureNetworkPolicies r c d ≫= λ _,
    ensureEtcd r c d ≫= λ _, ensureEtcdBackupConfigs r c d seed)).
  { apply stable_bind; [apply policies_stable|intros _ _ _ _]. apply stable_bind; [apply etcd_stable|intros _ _ _ _]. by apply backup_stable. }
  destruct k; try done.
  - apply after_later; intros _ _ _ _. apply after_now; [|intros _; exact Hrest]. apply rbac_after. left. do 2 eexists. by left.
  - apply after_later; intros _ _ _ _. apply after_now; [|intros _; exact Hrest]. apply rbac_after. left. do 2 eexists. right. by left.
  - apply after_later; intros _ _ _ _. apply after_now; [|intros _; exact Hrest]. apply rbac_after. left. do 2 eexists. right. by right.
  - do 2 (apply after_later; intros _ _ _ _). apply after_now; [by eapply policies_after|intros _].
    apply stable_bind; [apply etcd_stable|intros _ _ _ _]. by apply backup_stable.
  - apply after_now; [apply after_wrap, plain_after; by apply (secrets_listed f d _ Hk') in Hl|intros _].
    apply stable_bind; [apply rbac_stable|intros _ _ _ _; exact Hrest].
  - do 4 (apply after_later; intros _ _ _ _). assert (Hs : backup = true).
    { destruct Hb as [Hb|Hb]; [|done]. destruct comp; cbn in Hn; try (by apply elem_of_nil in Hn). by cbn in He. }
    unfold ensureEtcdBackupConfigs. fold backup. rewrite Hs. apply plain_after.
    by apply (backupConfigs_listed f d (conditions c backup (ccm_required c)) Hk') in Hl.
Qed.

Lemma foundation_cluster_wide (namespace : Namespace) seed x : x ∈ cluster_wide (om_name (ns_meta namespace)) →
  after (cp_present x) (deployFoundation r c namespace d seed).
Proof.
  intros Hx. assert (x ≠ backupObject).
  { intros ->. apply elem_of_app in Hx as [(n & [=] & _)%list_elem_of_fmap|(n & [=] & _)%list_elem_of_fmap]. }
  unfold deployFoundation. apply after_later; intros _ _ _ _. apply after_now; [apply rbac_after; by right|intros _].
  apply stable_bind; [apply policies_stable|intros _ _ _ _]. apply stable_bind; [apply etcd_stable|intros _ _ _ _].
  apply backup_stable. by left.
Qed.

Lemma foundation_backup_removed namespace seed : IsDefaultEtcdAutomaticBackupEnabled seed = false →
  after (cp_removed backupObject) (deployFoundation r c namespace d seed).
Proof. intros Hs. unfold deployFoundation. do 4 (apply after_later; intros _ _ _ _). by apply backup_removed. Qed.

(** The second half has nothing to do with backups. *)
Lemma workloads_backup : keeps (cp_lookup backupObject) (deployWorkloads r c d).
Proof.
  unfold deployWorkloads. assert (Hr : ∀ k msg msg' l, k ≠ REtcdBackupConfig →
    keeps (cp_lookup backupObject) (wrap msg (ReconcileObjects r k msg' l (Some d) ns)))
    by (intros; apply keeps_wrap, ReconcileObjects_keeps; intros n a _ [=]; done).
  apply keeps_bind; [by apply Hr|intros _]. apply keeps_bind; [|intros _].
  { apply keeps_bind; [apply creators_keeps|intros l]. apply ReconcileObjects_keeps. by intros n a _ [=]. }
  do 2 (apply keeps_bind; [by apply Hr|intros _]). apply keeps_bind; [|intros _].
  { apply keeps_bind; [apply keeps_wrap, vpa_reads|intros l]. apply ReconcileObjects_keeps. by intros n a _ [=]. }
  apply (rm_keeps _ _ removeDropped_removes). rewrite (elem_of_removals f c (conditions c true true)).
  intros [(comp & Hne & _ & Hx)|[_ [=]]]. apply Hne. eapply object_of_unique; [exact Hx|].
  exists REtcdBackupConfig, EtcdDefaultBackupConfigName. split; [done|]. left.
Qed.
End parts.

(** ** A whole run *)

(** A cluster object that differs from another one in its address and its metadata
    only, annotations excepted. *)
Record same_plan (c c' : Cluster) : Prop := {
  sp_same_spec : cl_spec c' = cl_spec c;
  sp_same_status : cl_status c' = cl_status c;
  sp_same_annotations : om_annotations (cl_meta c') = om_annotations (cl_meta c);
}.
Lemma same_plan_trans a b c : same_plan a b → same_plan b c → same_plan a c.
Proof. intros [? ? ?] [? ? ?]. split; congruence. Qed.

Lemma updateCluster_run c modify w c' w' : (∀ c u x u', modify c u = (Ok x, u') → same_plan c x) →
  updateCluster r c modify w = (Ok c', w') → same_plan c c'.
Proof.
  intros Hm (old & w1 & _ & (x & w2 & Ex & E)%bind_ok_inv)%bind_ok_inv. apply Hm in Ex.
  case_bool_decide; [by apply ret_ok_inv in E as [<- _]|]. destruct (negb _); [done|].
  apply cp_patch_ok in E as (? & ? & ?). eapply same_plan_trans; [done|]. by split.
Qed.
Lemma updateCluster_keeps x c modify : (∀ c, keeps (cp_lookup x) (modify c)) → keeps (cp_lookup x) (updateCluster r c modify).
Proof.
  intros Hm. unfold updateCluster. apply keeps_bind; [frame|intros old]. apply keeps_bind; [apply Hm|intros new].
  destruct (bool_decide _); [frame|]. destruct (negb _); frame.
Qed.

Lemma syncAddress_run c seed w c' w' : syncAddress r c seed w = (Ok c', w') → same_plan c c'.
Proof.
  assert (Hrefl : ∀ c, same_plan c c) by (by split).
  intros (c1 & w1 & E1 & (l & w2 & _ & E)%bind_ok_inv)%bind_ok_inv. apply (same_plan_trans _ c1).
  - destruct (String.eqb _ ""); [|by apply ret_ok_inv in E1 as [<- _]]. eapply updateCluster_run; [|exact E1].
    intros c2 u x u' (a & u1 & _ & (b & u2 & _ & [<- _]%ret_ok_inv)%bind_ok_inv)%bind_ok_inv. by split.
  - destruct l; [by apply ret_ok_inv in E as [<- _]|]. eapply updateCluster_run; [|exact E]. intros c2 u x u' [<- _]%ret_ok_inv. by split.
Qed.

Lemma syncAddress_keeps x c seed : keeps (cp_lookup x) (syncAddress r c seed).
Proof.
  unfold syncAddress. apply keeps_bind; [|intros c1].
  - destruct (String.eqb _ ""); [|frame]. apply updateCluster_keeps. frame.
  - apply keeps_bind; [|intros l; destruct l; [frame|apply updateCluster_keeps; frame]].
    unfold Build, frontLoadBalancer, addressIP, apiserverPort, getExternalIPv4. frame.
Qed.

Lemma templateData_run c seed config w d w' : getClusterTemplateData r c seed config w = (Ok d, w') →
  td_cluster d = c ∧ td_isKonnectivityEnabled d = konnectivity (k8_features r) c ∧ td_oidcIssuerURL d = st_oidcIssuerURL (k8_settings r).
Proof. unfold getClusterTemplateData. intros E. m_inv. done. Qed.
Lemma templateData_keeps x c seed config : keeps (cp_lookup x) (getClusterTemplateData r c seed config).
Proof. unfold getClusterTemplateData, SupportsFailureDomainZoneAntiAffinity. frame. Qed.

(** The plan depends on the spec, the status and the annotations. *)
Section same.
Context (c c' : Cluster).
Hypothesis Hs : same_plan c c'.
Lemma same_ns : ns_of c' = ns_of c.
Proof. unfold ns_of. by rewrite (sp_same_status _ _ Hs). Qed.
Lemma same_konnectivity f : konnectivity f c' = konnectivity f c.
Proof. unfold konnectivity. by rewrite (sp_same_spec _ _ Hs). Qed.
Lemma same_ccm : cloudControllerDeployment c' = cloudControllerDeployment c.
Proof. unfold cloudControllerDeployment. by rewrite (sp_same_spec _ _ Hs). Qed.
Lemma same_encryption : IsEncryptionEnabled c' = IsEncryptionEnabled c ∧ IsEncryptionActive c' = IsEncryptionActive c.
Proof. unfold IsEncryptionEnabled, IsEncryptionActive. by rewrite (sp_same_spec _ _ Hs), (sp_same_status _ _ Hs). Qed.
Lemma same_conditions backup b : conditions c' backup b = conditions c backup b.
Proof. unfold conditions, issuerURL. by rewrite (sp_same_spec _ _ Hs). Qed.
Lemma same_allowed : ccm_allowed c' = ccm_allowed c ∧ ccm_required c' = ccm_required c.
Proof. unfold ccm_required, ccm_allowed, has_feature. by rewrite (sp_same_spec _ _ Hs), (sp_same_annotations _ _ Hs). Qed.
Lemma same_enabled f q comp : enabled f c' q comp = enabled f c q comp.
Proof.
  destruct same_encryption as [E1 E2]. unfold enabled, has_feature, has_csi, is_loadBalancer.
  by rewrite same_konnectivity, (sp_same_spec _ _ Hs), E1, E2.
Qed.
Lemma same_removals f ns : removals f c' ns = removals f c ns.
Proof. destruct same_encryption as [E1 E2]. unfold removals. by rewrite (sp_same_spec _ _ Hs), E1, E2. Qed.
Lemma same_outside namespace x : outside c namespace x → outside c' namespace x.
Proof.
  intros (Ho & Hr & Hw). split; [|by rewrite same_ns, same_removals].
  intros comp. rewrite same_enabled, same_conditions, same_ns, same_ccm, (proj1 same_allowed). apply Ho.
Qed.
End same.

(** A run that does not ask for another one, taken apart: it stops before the workloads
    while the infrastructure of the cloud provider is not up. *)
Definition infrastructure_up (c : Cluster) : Prop :=
  eh_cloudProviderInfrastructure (cs_extendedHealth (cl_status c)) = HealthStatusUp.

Lemma finished_run c namespace w c' res w' : res = None ∨ res = Some emptyResult →
  ensureResourcesAreDeployed r c namespace w = (Ok (c', res), w') →
  ∃ seed w1 d w2 w3 w4 w5, k8_seedGetter r w = (Ok (Some seed), w1) ∧ td_cluster d = c ∧
    td_isKonnectivityEnabled d = konnectivity (k8_features r) c ∧ td_oidcIssuerURL d = st_oidcIssuerURL (k8_settings r) ∧
    ensureServices r c d w2 = (Ok tt, w3) ∧ syncAddress r c seed w3 = (Ok c', w4) ∧
    deployFoundation r c' namespace (set_td_cluster c' d) seed w4 = (Ok tt, w5) ∧
    (res = Some emptyResult ∧ infrastructure_up c ∧ deployWorkloads r c' (set_td_cluster c' d) w5 = (Ok tt, w') ∨
     res = None ∧ ¬ infrastructure_up c ∧ w' = w5).
Proof.
  intros Hres. unfold ensureResourcesAreDeployed. intros (seed & w1 & Es & E)%bind_ok_inv.
  apply bind_ok_inv in E as (config & w2 & _ & E). apply bind_ok_inv in E as (d & w3 & (Hc & Hk & Hi)%templateData_run & E).
  apply bind_ok_inv in E as ([] & w4 & Esv & E). destruct seed as [seed|]; [|done].
  apply bind_ok_inv in E as (? & ? & [[= <-] <-]%lift_ok_inv & E).
  apply bind_ok_inv in E as (c1 & w6 & Ey%wrap_ok_inv & E).
  pose proof (sp_same_status _ _ (syncAddress_run _ _ _ _ _ Ey)) as Hst.
  destruct (_ && _); [apply ret_ok_inv in E as [[= <- <-] _]; destruct Hres as [[=]|[=]]|].
  apply bind_ok_inv in E as ([] & w7 & Ef & E). unfold infrastructure_up. rewrite Hst in E.
  destruct (String.eqb_spec (eh_cloudProviderInfrastructure (cs_extendedHealth (cl_status c))) HealthStatusUp) as [Hup|Hup]; cbn [negb] in E.
  - apply bind_ok_inv in E as ([] & w8 & Ew & [[= <- <-] <-]%ret_ok_inv). exists seed, w1, d, w3, w4, w6, w7. split_and!; try done. by left.
  - apply ret_ok_inv in E as [[= <- <-] <-]. exists seed, w1, d, w3, w4, w6, w7. split_and!; try done. by right.
Qed.

Lemma cluster_wide_not_removed f c ns namespace x : x ∈ cluster_wide namespace → x ∉ removals f c ns.
Proof.
  intros Hx. rewrite (elem_of_removals _ _ (mkConditions false false false)).
  intros [(comp & _ & _ & (k & n & -> & Hn))|[_ ->]];
    apply elem_of_app in Hx as [(m & Heq & _)%list_elem_of_fmap|(m & Heq & _)%list_elem_of_fmap]; try discriminate Heq;
    injection Heq as -> -> ->; destruct comp; by apply elem_of_nil in Hn.
Qed.

(** A run, however it ends, changes no object but those of the control plane of its
    cluster: enabled components, components to remove, and the cluster-wide roles and
    bindings. *)
Lemma ensureResources_keeps c (namespace : Namespace) x :
  outside c (om_name (ns_meta namespace)) x → keeps (cp_lookup x) (ensureResourcesAreDeployed r c namespace).
Proof.
  intros Ho. unfold ensureResourcesAreDeployed. apply keeps_bind; [apply cp_seedGetter|intros seed].
  apply keeps_bind; [apply cp_configGetter|intros config]. apply keeps_bind_run; [apply templateData_keeps|].
  intros w d w' (Hc & Hk & Hi)%templateData_run. apply keeps_bind; [by eapply services_keeps|intros _].
  apply keeps_bind; [frame|intros seed']. apply keeps_bind_run; [apply keeps_wrap, syncAddress_keeps|].
  intros u c' u' Hs%wrap_ok_inv%syncAddress_run. pose proof (same_outside _ _ Hs _ _ Ho) as Ho'.
  assert (Hk' : td_isKonnectivityEnabled (set_td_cluster c' d) = konnectivity (k8_features r) c')
    by (by rewrite (same_konnectivity _ _ Hs)).
  destruct (_ && _); [frame|]. apply keeps_bind; [by eapply foundation_keeps|intros _]. destruct (negb _); [frame|].
  apply keeps_bind; [by eapply deployWorkloads_keeps|frame].
Qed.

(** An object of a component that is neither deployed nor removed. *)
Lemma undecided_outside c q namespace comp x : enabled (k8_features r) c (conditions c true (ccm_allowed c)) comp = false →
  dropped (k8_features r) c q comp = false → object_of (ns_of c) (cloudControllerDeployment c) comp x → outside c namespace x.
Proof.
  intros He Hd Hx. split; [|split].
  - intros comp' He' Hx'. pose proof (object_of_unique _ _ _ _ _ Hx Hx') as <-. congruence.
  - rewrite (elem_of_removals _ _ q). intros [(comp' & _ & Hd' & Hx')|[_ ->]].
    + pose proof (object_of_unique _ _ _ _ _ Hx Hx') as <-. congruence.
    + by eapply unused_secret.
  - intros Hw. destruct Hx as (k & n & -> & Hn).
    apply elem_of_app in Hw as [(m & [= -> _ _] & _)%list_elem_of_fmap|(m & [= -> _ _] & _)%list_elem_of_fmap];
      destruct comp; cbn in Hn; by apply elem_of_nil in Hn.
Qed.

Section deployed.
Context (c c' : Cluster) (d : TemplateData) (namespace : Namespace) (seed : Seed).
Hypothesis Hs : same_plan c c'.
Hypothesis Hc : td_cluster d = c.
Hypothesis Hk : td_isKonnectivityEnabled d = konnectivity (k8_features r) c.
Hypothesis Hi : td_oidcIssuerURL d = st_oidcIssuerURL (k8_settings r).
Let d' : TemplateData := set_td_cluster c' d.
Let q : Conditions := conditions c (IsDefaultEtcdAutomaticBackupEnabled seed) (ccm_required c).

Lemma Hkn' : td_isKonnectivityEnabled d' = konnectivity (k8_features r) c'.
Proof. rewrite (same_konnectivity _ _ Hs). exact Hk. Qed.
Lemma same_q : q = conditions c' (IsDefaultEtcdAutomaticBackupEnabled seed) (ccm_required c').
Proof. unfold q. by rewrite (same_conditions _ _ Hs), (proj2 (same_allowed _ _ Hs)). Qed.
Lemma same_dropped comp : dropped (k8_features r) c' q comp = dropped (k8_features r) c q comp.
Proof. destruct comp; simpl; by rewrite ?(same_konnectivity _ _ Hs), ?(sp_same_spec _ _ Hs). Qed.

(** The services and the foundation of enabled components. *)
Lemma foundation_present w2 w3 w4 w5 comp x : ensureServices r c d w2 = (Ok tt, w3) → syncAddress r c seed w3 = (Ok c', w4) →
  deployFoundation r c' namespace d' seed w4 = (Ok tt, w5) →
  enabled (k8_features r) c q comp = true → object_of (ns_of c) (cloudControllerDeployment c) comp x →
  workload (rs_kind x) = false → cp_present x w5.
Proof.
  intros Esv Ey Ef He (k & n & -> & Hn) Hwl. rewrite <- (same_enabled _ _ Hs), same_q in He. rewrite <- (same_ccm _ _ Hs) in Hn.
  rewrite <- (same_ns _ _ Hs). destruct (foundation k) eqn:Hfo.
  { by apply (foundation_after c' d' eq_refl Hkn' Hi namespace seed comp k n Hfo He Hn) in Ef. }
  simpl in Hwl. assert (k = RService) as -> by (destruct k; try done; destruct comp; cbn in Hn; by apply elem_of_nil in Hn).
  eapply (foundation_stable c' d' Hkn' namespace seed); [by left| |exact Ef].
  unfold cp_present. rewrite (syncAddress_keeps _ _ _ _ _ _ Ey), (same_ns _ _ Hs).
  eapply ReconcileObjects_after; [|exact Esv]. eapply list_elem_of_fmap. exists n. split; [done|].
  apply (services_listed (k8_features r) d (conditions c' (IsDefaultEtcdAutomaticBackupEnabled seed) (ccm_required c'))).
  { by rewrite Hc, Hk. }
  exists comp. rewrite Hc, <- (same_enabled _ _ Hs), <- (same_ccm _ _ Hs). done.
Qed.

(** The default configuration of backups, when it is switched off. *)
Lemma backup_dropped w4 w5 x : deployFoundation r c' namespace d' seed w4 = (Ok tt, w5) →
  dropped (k8_features r) c q CBackup = true → object_of (ns_of c) (cloudControllerDeployment c) CBackup x →
  x = backupObject c' ∧ cp_removed x w5.
Proof.
  intros Ef Hd (k & n & -> & Hn). destruct k; cbn in Hn; try (by apply elem_of_nil in Hn). apply list_elem_of_singleton in Hn as ->.
  simpl in Hd. apply negb_true_iff in Hd. apply (foundation_backup_removed c' d' namespace seed Hd) in Ef.
  unfold backupObject in *. rewrite (same_ns _ _ Hs) in *. done.
Qed.

(** The workloads: everything is there, and what is switched off is not. *)
Lemma workloads_present w5 w' comp x : deployWorkloads r c' d' w5 = (Ok tt, w') →
  enabled (k8_features r) c q comp = true → object_of (ns_of c) (cloudControllerDeployment c) comp x →
  workload (rs_kind x) = true ∨ cp_present x w5 → cp_present x w'.
Proof.
  intros Ew He Hx Hor. pose proof Hx as (k & n & -> & Hn). rewrite <- (same_enabled _ _ Hs), same_q in He.
  rewrite <- (same_ccm _ _ Hs) in Hn, Hx. rewrite <- (same_ns _ _ Hs) in *.
  destruct Hor as [Hwl|Hp]; [by apply (deployWorkloads_after c' d' eq_refl Hkn' _ comp k n Hwl He Hn) in Ew|].
  eapply (deployWorkloads_stable c' d' eq_refl); [eapply enabled_not_removed; [exact He|exact Hx]|exact Hp|exact Ew].
Qed.
Lemma workloads_dropped w5 w' comp x : deployWorkloads r c' d' w5 = (Ok tt, w') → comp ≠ CBackup →
  dropped (k8_features r) c q comp = true → object_of (ns_of c) (cloudControllerDeployment c) comp x → cp_removed x w'.
Proof.
  intros Ew Hne Hd Hx. rewrite <- same_dropped in Hd. rewrite <- (same_ns _ _ Hs), <- (same_ccm _ _ Hs) in Hx.
  apply (deployWorkloads_removed c' d' eq_refl x) in Ew; [done|]. apply (elem_of_removals _ _ q). left. eauto.
Qed.
End deployed.

(** C4: a run that succeeds and asks for no other one stops before the workloads exactly
    while the infrastructure of the cloud provider is not up.  In either case every
    service and every object of the foundation (secrets, service accounts, roles and
    bindings, network policies, the default backup configuration) of the components that
    the settings and the spec enable exists, with the cluster-wide roles and bindings,
    and a default backup configuration that is switched off is deleted.  When the
    infrastructure is up the workloads of enabled components exist too (etcd, whose
    update is skipped while it is not healthy, included), and the objects of the
    dashboard, OpenVPN, Konnectivity, the operating system manager and the old
    Gatekeeper are deleted when they are [dropped].  The objects of the other components
    (front load balancer, encryption secret, network policies, external cloud provider,
    CSI, credentials of GCP) are left exactly as they were when they are switched off. *)
Theorem control_plane_deployed c namespace seed w w1 c' res w' :
  k8_seedGetter r w = (Ok (Some seed), w1) → res = None ∨ res = Some emptyResult →
  ensureResourcesAreDeployed r c namespace w = (Ok (c', res), w') →
  let q := conditions c (IsDefaultEtcdAutomaticBackupEnabled seed) (ccm_required c) in
  let object := object_of (ns_of c) (cloudControllerDeployment c) in
  (res = Some emptyResult ↔ infrastructure_up c) ∧
  (∀ comp x, enabled (k8_features r) c q comp = true → object comp x →
     workload (rs_kind x) = false ∨ infrastructure_up c → cp_present x w') ∧
  (∀ x, x ∈ cluster_wide (om_name (ns_meta namespace)) → cp_present x w') ∧
  (∀ comp x, dropped (k8_features r) c q comp = true → object comp x → comp = CBackup ∨ infrastructure_up c → cp_removed x w') ∧
  (∀ comp x, enabled (k8_features r) c (conditions c true (ccm_allowed c)) comp = false →
     dropped (k8_features r) c q comp = false → object comp x → cp_lookup x w' = cp_lookup x w).
Proof.
  intros Hseed Hres Erun q object. pose proof Erun as (seed' & w0 & d & w2 & w3 & w4 & w5 & Es & Hc & Hk & Hi & Esv & Ey & Ef & Ew)%finished_run;
    [|done]. assert (seed' = seed) as -> by congruence. pose proof (syncAddress_run _ _ _ _ _ Ey) as Hs.
  pose proof (foundation_present c c' d namespace seed Hs Hc Hk Hi w2 w3 w4 w5) as Hfound.
  pose proof (Hkn' c c' d Hs Hk) as Hk'. set (d' := set_td_cluster c' d) in *.
  split_and!.
  - destruct Ew as [(-> & ? & _)|(-> & ? & _)]; by split.
  - intros comp x He Hx Hor. destruct Ew as [(_ & _ & Ew)|(_ & Hno & ->)]; [|apply (Hfound comp); try done; by destruct Hor].
    eapply (workloads_present c c' d seed Hs Hk); [exact Ew|exact He|exact Hx|].
    destruct (workload (rs_kind x)) eqn:Hwl; [by left|]. right. by apply (Hfound comp).
  - intros x Hx. apply (foundation_cluster_wide c' d' eq_refl Hk' _ _ _ Hx) in Ef. destruct Ew as [(_ & _ & Ew)|(_ & _ & ->)]; [|done].
    eapply (deployWorkloads_stable c' d' eq_refl); [by eapply cluster_wide_not_removed|exact Ef|exact Ew].
  - intros comp x Hd Hx Hor. destruct (decide (comp = CBackup)) as [->|Hne].
    + destruct (backup_dropped c c' d namespace seed Hs w4 w5 x Ef Hd Hx) as [-> Hr]. destruct Ew as [(_ & _ & Ew)|(_ & _ & ->)]; [|done].
      intros o Ho. apply Hr. by rewrite <- (workloads_backup c' d' eq_refl _ _ _ Ew).
    + destruct Hor as [?|Hup]; [done|]. destruct Ew as [(_ & _ & Ew)|(_ & ? & _)]; [|done]. by eapply (workloads_dropped c c' d seed Hs).
  - intros comp x He Hd Hx. eapply ensureResources_keeps; [|exact Erun]. by eapply undecided_outside.
Qed.

(** Objects of another namespace that are not the cluster-wide ones. *)
Lemma outside_namespace c namespace x : key_namespace (rs_key x) ≠ ns_of c → x ∉ cluster_wide namespace → outside c namespace x.
Proof.
  intros Hne Hw. split; [|split; [|done]].
  - intros comp _ (k & n & -> & _). done.
  - rewrite (elem_of_removals _ _ (mkConditions false false false)). by intros [(comp & _ & _ & (k & n & -> & _))|[_ ->]].
Qed.

(** The bindings of two namespaces differ. *)
Lemma bindings_differ a b x : a ≠ b → x ∈ map (in_ns "" RClusterRoleBinding) (clusterRoleBindingCreators a) → x ∉ cluster_wide b.
Proof.
  intros Hne (n & -> & Hn)%list_elem_of_fmap [(m & [=] & _)%list_elem_of_fmap|(m & [= ->] & Hm)%list_elem_of_fmap]%elem_of_app.
  unfold clusterRoleBindingCreators in Hn, Hm. rewrite elem_of_cons, list_elem_of_singleton in Hn, Hm.
  destruct Hn as [-> | ->], Hm as [Hm|Hm]; try discriminate Hm;
    unfold GenClusterRoleBindingName, GenerateRoleName in Hm; by repeat apply (inj (String.append _)) in Hm.
Qed.

(** C19: control planes are isolated: a run for one cluster changes neither an object in
    the namespace of another cluster nor the cluster-wide bindings of that one. *)
Theorem control_planes_isolated c c2 (namespace : Namespace) x :
  ns_of c ≠ "" → ns_of c2 ≠ "" → ns_of c ≠ ns_of c2 → om_name (ns_meta namespace) = ns_of c →
  key_namespace (rs_key x) = ns_of c2 ∨ x ∈ map (in_ns "" RClusterRoleBinding) (clusterRoleBindingCreators (ns_of c2)) →
  keeps (cp_lookup x) (ensureResourcesAreDeployed r c namespace).
Proof.
  intros H1 H2 Hne Hn Hx. apply ensureResources_keeps. rewrite Hn. apply outside_namespace; [destruct Hx as [->|Hx]|destruct Hx as [Hx|Hx]].
  - congruence.
  - apply list_elem_of_fmap in Hx as (n & -> & _). by simpl.
  - intros Hw. apply elem_of_app in Hw as [(n & -> & _)%list_elem_of_fmap|(n & -> & _)%list_elem_of_fmap]; by simpl in Hx.
  - eapply bindings_differ; [|exact Hx]. congruence.
Qed.

(** Switching encryption at rest off leaves the secret with the encryption keys
    behind: no run for a cluster without encryption touches it, because what is
    deleted is a secret with the name of a key of that secret. *)
Theorem encryption_secret_survives c namespace :
  IsEncryptionEnabled c = false → IsEncryptionActive c = false →
  keeps (cp_lookup (in_ns (ns_of c) RSecret EncryptionConfigurationSecretName)) (ensureResourcesAreDeployed r c namespace).
Proof.
  intros He Ha. apply ensureResources_keeps. split; [|split].
  - intros comp Hc Hx. assert (comp = CEncryption) as ->; [|simpl in Hc; by rewrite He, Ha in Hc].
    eapply object_of_unique; [exact Hx|]. exists RSecret, EncryptionConfigurationSecretName. split; [done|]. left.
  - apply encryption_secret_not_removed.
  - intros Hw. apply elem_of_app in Hw as [(n & [=] & _)%list_elem_of_fmap|(n & [=] & _)%list_elem_of_fmap].
Qed.

(** ** What a run waits for *)

Lemma rbac_other (namespace : Namespace) c x : foundation (rs_kind x) = false → rs_kind x ≠ RClusterRole → rs_kind x ≠ RClusterRoleBinding →
  keeps (cp_lookup x) (ensureRBAC r c namespace).
Proof.
  intros Hk H1 H2. unfold ensureRBAC. assert (Hr : ∀ k msg msg' l ns, k ≠ rs_kind x →
    keeps (cp_lookup x) (wrap msg (ReconcileObjects r k msg' l None ns)))
    by (intros; apply keeps_wrap, ReconcileObjects_keeps; intros n a _ ->; done).
  do 3 (apply keeps_bind; [apply Hr; intros Heq; by rewrite <- Heq in Hk|intros _]).
  apply keeps_bind; [by apply Hr|intros _]. by apply Hr.
Qed.

Lemma foundation_other c (namespace : Namespace) d seed x : foundation (rs_kind x) = false → rs_kind x ≠ RClusterRole →
  rs_kind x ≠ RClusterRoleBinding → rs_kind x ≠ RStatefulSet → keeps (cp_lookup x) (deployFoundation r c namespace d seed).
Proof.
  intros Hk H1 H2 H3. unfold deployFoundation. assert (Hr : ∀ k msg l data ns, k ≠ rs_kind x →
    keeps (cp_lookup x) (ReconcileObjects r k msg l data ns)) by (intros; apply ReconcileObjects_keeps; intros n a _ ->; done).
  assert (Hne : ∀ k, foundation k = true → k ≠ rs_kind x) by (intros k ? ->; congruence).
  apply keeps_bind; [by apply keeps_wrap, Hr, Hne|intros _]. apply keeps_bind; [by apply rbac_other|intros _].
  apply keeps_bind; [|intros _; apply keeps_bind; [|intros _]].
  - unfold ensureNetworkPolicies. destruct (negb _); [frame|]. unfold hostnameToIPList.
    apply keeps_bind; [frame|intros ips]. apply keeps_bind; [frame|intros issuer]. by apply keeps_wrap, Hr, Hne.
  - unfold ensureEtcd, statefulSetHealthCheck. apply keeps_bind; [frame|]. intros [e|[]]; [frame| |frame].
    apply keeps_bind; [apply tls_keeps|intros tls]. by apply Hr.
  - apply backup_keeps. intros ->. done.
Qed.

(** C24: the configuration and the workloads of a control plane, etcd excepted, wait for
    the infrastructure of the cloud provider; and a run that asks for another one,
    because the address of the cluster is not known yet, has ensured services only. *)
Theorem deployment_gates c (namespace : Namespace) :
  (∀ x, workload (rs_kind x) = true → rs_kind x ≠ RStatefulSet →
     eh_cloudProviderInfrastructure (cs_extendedHealth (cl_status c)) ≠ HealthStatusUp →
     keeps (cp_lookup x) (ensureResourcesAreDeployed r c namespace)) ∧
  (∀ x w c' res w', rs_kind x ≠ RService → Requeue res = true ∨ RequeueAfter res ≠ 0 →
     ensureResourcesAreDeployed r c namespace w = (Ok (c', Some res), w') →
     cp_lookup x w' = cp_lookup x w ∧ ca_ip (cl_address c') = "" ∧ sp_exposeStrategy (cl_spec c) ≠ ExposeStrategyTunneling).
Proof.
  assert (Hsv : ∀ d x, rs_kind x ≠ RService → keeps (cp_lookup x) (ensureServices r c d))
    by (intros; apply ReconcileObjects_keeps; intros n a _ ->; done).
  unfold ensureResourcesAreDeployed. split.
  - intros x Hw Hs Hup. assert (foundation (rs_kind x) = false ∧ rs_kind x ≠ RClusterRole ∧ rs_kind x ≠ RClusterRoleBinding ∧
      rs_kind x ≠ RService) as (? & ? & ? & ?) by (by destruct (rs_kind x)).
    apply keeps_bind; [frame|intros seed]. apply keeps_bind; [frame|intros config]. apply keeps_bind; [apply templateData_keeps|intros d].
    apply keeps_bind; [by apply Hsv|intros _]. apply keeps_bind; [frame|intros seed'].
    apply keeps_bind_run; [apply keeps_wrap, syncAddress_keeps|]. intros u c' u' [_ Hst _]%wrap_ok_inv%syncAddress_run.
    destruct (_ && _); [frame|]. apply keeps_bind; [by apply foundation_other|intros _]. rewrite Hst.
    destruct (String.eqb_spec (eh_cloudProviderInfrastructure (cs_extendedHealth (cl_status c))) HealthStatusUp); [done|]. cbn [negb]. frame.
  - intros x w c' res w' Hk Hres E. apply bind_ok_inv in E as (seed & w1 & E1%(cp_seedGetter x) & E).
    apply bind_ok_inv in E as (config & w2 & E2%(cp_configGetter x) & E). apply bind_ok_inv in E as (d & w3 & E3%(templateData_keeps x) & E).
    apply bind_ok_inv in E as ([] & w4 & E4%(Hsv d x Hk) & E). apply bind_ok_inv in E as (seed' & ? & [_ <-]%lift_ok_inv & E).
    apply bind_ok_inv in E as (c1 & w5 & E5%wrap_ok_inv & E). pose proof (sp_same_spec _ _ (syncAddress_run _ _ _ _ _ E5)) as Hsp.
    apply (syncAddress_keeps x) in E5. destruct (_ && _) eqn:Eg.
    + apply ret_ok_inv in E as [[= <- <-] <-]. apply andb_true_iff in Eg as [Hip%String.eqb_eq Hst%negb_true_iff%String.eqb_neq].
      split_and!; [congruence|done|by rewrite <- Hsp].
    + exfalso. clear Eg. apply bind_ok_inv in E as ([] & w6 & _ & E). destruct (negb _); [by apply ret_ok_inv in E as [[=] _]|].
      apply bind_ok_inv in E as ([] & w7 & _ & [[= _ <-] _]%ret_ok_inv). destruct Hres as [[=]|Hres]. by apply Hres.
Qed.
End deploy.
