(* ===== verification/ClusterControllerSpec.v ===== *)
(** * The cluster controller: health, limits and finalizers *)

From S2P Require Import Prelude ResourceNames Kube Semver Net CloudApi ClusterApi Helper Corev1 EtcdBackup VersionManager Field ClusterDefaulting Reconciling ClusterDeletion Workloads ControlPlane ControlPlaneSpec ClusterAddressing ClusterHealth ClusterResources ClusterResourcesSpec ClusterController.

(** ** Health *)

(** The deployments and stateful sets that are stored, which the calls made for the
    health of a cluster only read; and some order of iteration. *)
Class HealthWorld {W} (r : ClusterReconciler W) := {
  hw_deployment : NamespacedName → W → option Deployment;
  hw_etcdSet : NamespacedName → W → option EtcdSet;
  hw_deployment_get : ∀ n w o w', c_get (k8_deployments r) n w = (o, w') →
    (∀ k, hw_deployment k w' = hw_deployment k w) ∧ (∀ k, hw_etcdSet k w' = hw_etcdSet k w) ∧
    (∀ d, o = Ok d → hw_deployment n w = Some d) ∧ (∀ e, o = Err e → IsNotFound e = true → hw_deployment n w = None);
  hw_etcd_get : ∀ n w o w', c_get (k8_etcdSets r) n w = (o, w') →
    (∀ k, hw_deployment k w' = hw_deployment k w) ∧ (∀ k, hw_etcdSet k w' = hw_etcdSet k w) ∧
    (∀ s, o = Ok s → hw_etcdSet n w = Some s) ∧ (∀ e, o = Err e → IsNotFound e = true → hw_etcdSet n w = None);
  hw_range : ∀ l, k8_range r l ≡ₚ l;
}.

(** The health of a component with [minReady] replicas: missing is down. *)
Definition replica_health (minReady : Z) (replicas : option (Z * Z * Z * option Z)) : string :=
  match replicas with
  | None => HealthStatusDown
  | Some (ready, updated, total, wanted) =>
      if ready <? minReady then HealthStatusDown
      else if bool_decide (wanted = Some updated ∧ wanted = Some ready ∧ wanted = Some total) then HealthStatusUp
      else HealthStatusProvisioning
  end.
Definition deployment_health (d : option Deployment) : string :=
  replica_health 1 (d ← d; Some (dep_readyReplicas d, dep_updatedReplicas d, dep_statusReplicas d, dep_replicas d)).
Definition etcd_health (s : option EtcdSet) : string :=
  replica_health 2 (s ← s; Some (ss_readyReplicas s, ss_updatedReplicas s, ss_statusReplicas s, ss_replicas s)).

Lemma replicas_status_ok minReady ready updated total wanted s :
  replicas_status minReady ready updated total wanted = Ok s → s = replica_health minReady (Some (ready, updated, total, wanted)).
Proof.
  unfold replicas_status, replica_health. destruct (ready <? minReady); [by intros [= <-]|].
  destruct wanted as [n|]; [|done]. cbn. case_bool_decide as Hb.
  - destruct Hb as ([= ->] & [= ->] & [= ->]). rewrite !Z.eqb_refl. cbn. by intros [= <-].
  - destruct (Z.eqb_spec updated n), (Z.eqb_spec ready n), (Z.eqb_spec total n); cbn; intros [= <-]; try done.
    destruct Hb. subst. done.
Qed.

Section health.
Context `{SemverLib} {W : Type} (r : ClusterReconciler W) `{!HealthWorld r}.

Definition same_workloads (w w' : W) : Prop :=
  (∀ k, hw_deployment k w' = hw_deployment k w) ∧ (∀ k, hw_etcdSet k w' = hw_etcdSet k w).

Lemma named_health ns n w s w' : namedDeploymentHealth r ns n w = (Ok s, w') →
  same_workloads w w' ∧ s = deployment_health (hw_deployment (mkKey ns n) w).
Proof.
  unfold namedDeploymentHealth, HealthyDeployment, get_or_down. intros E%wrap_ok_inv.
  apply bind_ok_inv in E as (res & w1 & Eg & E). 
  apply try_ok_inv in Eg as [(d & -> & Ec)|(e & -> & Ec)]; destruct (hw_deployment_get _ _ _ _ Ec) as (H1 & H2 & Hok & Hnf).
  - apply lift_ok_inv in E as [E%replicas_status_ok <-]. split; [by split|]. by rewrite (Hok d eq_refl), E.
  - destruct (IsNotFound e) eqn:En; [|by apply throw_ok_inv in E]. apply ret_ok_inv in E as [<- <-]. split; [by split|].
    by rewrite (Hnf e eq_refl En).
Qed.

Lemma etcd_run n w s w' : HealthyStatefulSet (k8_etcdSets r) n 2 w = (Ok s, w') → same_workloads w w' ∧ s = etcd_health (hw_etcdSet n w).
Proof.
  unfold HealthyStatefulSet, get_or_down. intros E. apply bind_ok_inv in E as (res & w1 & Eg & E). 
  apply try_ok_inv in Eg as [(d & -> & Ec)|(e & -> & Ec)]; destruct (hw_etcd_get _ _ _ _ Ec) as (H1 & H2 & Hok & Hnf).
  - apply lift_ok_inv in E as [E%replicas_status_ok <-]. split; [by split|]. by rewrite (Hok d eq_refl), E.
  - destruct (IsNotFound e) eqn:En; [|by apply throw_ok_inv in E]. apply ret_ok_inv in E as [<- <-]. split; [by split|].
    by rewrite (Hnf e eq_refl En).
Qed.

(** The loop computes a fold over the statuses, and its order does not matter. *)
Definition entry : Type := string * (string → ExtendedClusterHealth → ExtendedClusterHealth).
Definition fill (val : string → string) (h : ExtendedClusterHealth) (e : entry) : ExtendedClusterHealth := e.2 (val e.1) h.

Lemma fill_ext v v' l : (∀ n, v n = v' n) → ∀ h, fold_left (fill v) l h = fold_left (fill v') l h.
Proof. intros Hv. induction l as [|e l IH]; intros h; [done|]. simpl. rewrite IH. unfold fill at 2 4. by rewrite Hv. Qed.

Lemma loop_fold ns (g : string → string) (l : list entry) h w h' w' :
  for_range (λ h '(name, set), status ← namedDeploymentHealth r ns name; mret (set (g status) h)) h l w = (Ok h', w') →
  same_workloads w w' ∧ h' = fold_left (fill (λ n, g (deployment_health (hw_deployment (mkKey ns n) w)))) l h.
Proof.
  revert h w. induction l as [|[n set] l IH]; intros h w E; simpl in E; [by apply ret_ok_inv in E as [<- <-]|].
  apply bind_ok_inv in E as (h1 & w1 & E1 & E). apply bind_ok_inv in E1 as (s & w2 & [[Hd He] ->]%named_health & [<- <-]%ret_ok_inv).
  apply IH in E as [[Hd' He'] ->]. split; [split; intros; congruence|]. simpl. apply fill_ext. intros m. by rewrite Hd.
Qed.

Lemma fill_perm v l l' : l ≡ₚ l' → (∀ a b h, a ∈ l → b ∈ l → fill v (fill v h a) b = fill v (fill v h b) a) →
  ∀ h, fold_left (fill v) l h = fold_left (fill v) l' h.
Proof.
  induction 1 as [|e l l' _ IH|a b l|l l1 l2 P1 IH1 P2 IH2]; intros Hc h; simpl.
  - done.
  - apply IH. intros. apply Hc; by right.
  - f_equal. apply Hc; [left|right; left].
  - rewrite IH1 by done. apply IH2. intros a b h' Ha Hb. rewrite <- P1 in Ha, Hb. by apply Hc.
Qed.
Lemma healthMapping_commute v b x y h : x ∈ healthMapping b → y ∈ healthMapping b → fill v (fill v h x) y = fill v (fill v h y) x.
Proof.
  unfold healthMapping. destruct b; cbn [negb when app]; intros Hx Hy;
    repeat (apply elem_of_cons in Hx as [->|Hx]); try (by apply elem_of_nil in Hx);
    repeat (apply elem_of_cons in Hy as [->|Hy]); try (by apply elem_of_nil in Hy); reflexivity.
Qed.

Definition component_health (c : Cluster) (w : W) (name : string) : string :=
  GetHealthStatus (deployment_health (hw_deployment (mkKey (cs_namespaceName (cl_status c)) name) w)) c (k8_versions r).

(** The health of a cluster: each component of the control plane has the health of
    its workload, in whatever order the components are visited (a component that is
    down counts as provisioning until the cluster was initialized); OpenVPN is only
    looked at without Konnectivity, and Konnectivity, which runs with the API server,
    shares its health; machine and application controller are down unless the API
    server is up; the health that other controllers report is kept. *)
Theorem clusterHealth_spec c w h w' : clusterHealth r c w = (Ok h, w') →
  let old := cs_extendedHealth (cl_status c) in let k := konnectivity (k8_features r) c in let up := component_health c w in
  eh_apiserver h = up ApiserverDeploymentName ∧ eh_controller h = up ControllerManagerDeploymentName ∧
  eh_scheduler h = up SchedulerDeploymentName ∧ eh_userClusterControllerManager h = up UserClusterControllerDeploymentName ∧
  eh_openVPN h = (if k then eh_openVPN old else up OpenVPNServerDeploymentName) ∧
  eh_konnectivity h = (if k then up ApiserverDeploymentName else eh_konnectivity old) ∧
  eh_etcd h = GetHealthStatus (etcd_health (hw_etcdSet (mkKey (cs_namespaceName (cl_status c)) EtcdStatefulSetName) w)) c (k8_versions r) ∧
  (eh_apiserver h ≠ HealthStatusUp → eh_machineController h = HealthStatusDown ∧ eh_applicationController h = HealthStatusDown) ∧
  (eh_cloudProviderInfrastructure h, eh_gatekeeperController h, eh_gatekeeperAudit h, eh_monitoring h, eh_logging h,
   eh_alertmanagerConfig h, eh_mlaGateway h) =
  (eh_cloudProviderInfrastructure old, eh_gatekeeperController old, eh_gatekeeperAudit old, eh_monitoring old, eh_logging old,
   eh_alertmanagerConfig old, eh_mlaGateway old).
Proof.
  intros E old k up. unfold clusterHealth in E. apply bind_ok_inv in E as (h1 & w1 & [[Hd He] ->]%loop_fold & E).
  change (λ n, GetHealthStatus _ c (k8_versions r)) with up in E. fold k in E.
  rewrite (fill_perm up (k8_range r (healthMapping k)) (healthMapping k) (hw_range _)) in E;
    [|intros a b h2 Ha Hb; rewrite hw_range in Ha, Hb; by eapply healthMapping_commute].
  apply bind_ok_inv in E as (s & w2 & [_ ->]%wrap_ok_inv%etcd_run & E). rewrite He in E.
  apply bind_ok_inv in E as (mc & w3 & Em & E). apply bind_ok_inv in E as (apps & w4 & Ea & [<- _]%ret_ok_inv).
  unfold healthMapping in *. destruct k; cbn in *; split_and!; try done;
    intros Hne; apply String.eqb_neq in Hne; rewrite Hne in Em, Ea; by apply ret_ok_inv in Em as [<- _], Ea as [<- _].
Qed.
End health.

(** ** The limit on updates *)

Section limits.
Context `{SemverLib, StringSets} {W : Type} (r : ClusterReconciler W).

Lemma count_busy items : Z.of_nat (length items) - Z.of_nat (length (List.filter is_upToDate items)) =
  Z.of_nat (length (List.filter (λ c, negb (is_upToDate c)) items)).
Proof. induction items as [|c items IH]; [done|]. simpl. destruct (is_upToDate c); simpl; lia. Qed.

(** C26: a cluster whose resources are up to date is reconciled only while fewer
    clusters than the limit are being updated; otherwise nothing at all is done with
    it and it is looked at again after ten seconds.  A cluster that is being updated
    itself is always reconciled. *)
Theorem concurrency_limit c w items w1 :
  c_list (k8_clusters r) everything w = (Ok items, w1) →
  let busy := Z.of_nat (length (List.filter (λ c, negb (is_upToDate c)) items)) in
  limited_reconcile r c w =
    if negb (is_upToDate c) then cluster_reconcile r c w
    else if busy <? k8_concurrentClusterUpdates r then cluster_reconcile r c w1
    else (Ok (Some (mkResult false (10 * Second)), None), w1).
Proof.
  intros El busy. unfold limited_reconcile, ClusterAvailableForReconciling, ConcurrencyLimitReached, mbind, M_MBind, M_bind, try.
  destruct (is_upToDate c); cbn [negb]; [|done]. unfold wrap. rewrite El. cbn. rewrite count_busy. fold busy.
  rewrite <- Z.ltb_antisym. by destruct (busy <? k8_concurrentClusterUpdates r).
Qed.
End limits.

(** ** Finalizers *)

(** A view of the world that everything a run does leaves alone, the updates of the
    cluster object excepted. *)
Record quiet {W X} (r : ClusterReconciler W) (v : W → X) : Prop := {
  qt_clusters_get : ∀ k, keeps v (c_get (k8_clusters r) k);
  qt_clusters_patch : ∀ old new, om_finalizers (cl_meta old) = om_finalizers (cl_meta new) → keeps v (c_patch (k8_clusters r) old new);
  qt_namespaces_get : ∀ k, keeps v (c_get (k8_namespaces r) k);
  qt_namespaces_create : ∀ o, keeps v (c_create (k8_namespaces r) o);
  qt_deployments : ∀ k, keeps v (c_get (k8_deployments r) k);
  qt_etcdSets : ∀ k, keeps v (c_get (k8_etcdSets r) k);
  qt_pods : ∀ o, keeps v (c_list (k8_pods r) o);
  qt_services : ∀ k, keeps v (c_get (k8_services r) k);
  qt_nodes : keeps v (k8_zonedNodes r);
  qt_get : ∀ k n, keeps v (c_get (k8_objects r k) n);
  qt_create : ∀ k o, keeps v (c_create (k8_objects r k) o);
  qt_update : ∀ k o, keeps v (c_update (k8_objects r k) o);
  qt_delete : ∀ k o, keeps v (c_delete (k8_objects r k) o);
  qt_poll : ∀ cond, keeps v cond → keeps v (k8_poll r cond);
  qt_seedGetter : keeps v (k8_seedGetter r);
  qt_configGetter : keeps v (k8_configGetter r);
  qt_lookupIP : ∀ h, keeps v (k8_lookupIP r h);
  qt_resolve : ∀ h, keeps v (k8_resolve r h);
  qt_rand : ∀ n, keeps v (read (k8_rand r n));
  qt_user : ∀ c, keeps v (k8_userClusterConnProvider r c);
  qt_reach : ∀ c w a w', k8_userClusterConnProvider r c w = (Ok a, w') → keeps v (c_list (ua_namespaces a) everything);
}.
#[export] Hint Resolve qt_clusters_get qt_namespaces_get qt_namespaces_create qt_deployments qt_etcdSets qt_pods qt_services
  qt_nodes qt_get qt_create qt_update qt_delete qt_seedGetter qt_configGetter qt_lookupIP qt_resolve qt_rand qt_user : kkp_frame.

Section quiet.
Context `{SemverLib, StringSets} {W X : Type} (r : ClusterReconciler W) (v : W → X) (Hq : quiet r v).
Local Hint Resolve Hq : kkp_frame.

Lemma DeepCopy_meta c old : Cluster_DeepCopy c = Ok old → cl_meta old = cl_meta c.
Proof. unfold Cluster_DeepCopy. intros E. o_inv. done. Qed.

Lemma quiet_updateCluster c modify : (∀ c, keeps v (modify c)) →
  (∀ c w x w', modify c w = (Ok x, w') → om_finalizers (cl_meta x) = om_finalizers (cl_meta c)) →
  keeps v (updateCluster r c modify).
Proof.
  intros Hm Hf. unfold updateCluster. apply keeps_bind_run; [apply keeps_lift|]. intros _ old _ [Ho%DeepCopy_meta _]%lift_ok_inv.
  apply keeps_bind_run; [apply Hm|]. intros w x w' Ex%Hf. destruct (bool_decide _); [frame|]. destruct (negb _); [frame|].
  apply (qt_clusters_patch _ _ Hq). congruence.
Qed.

Lemma quiet_ensureObject data args x : keeps v (ensureObject r data args x).
Proof.
  unfold ensureObject, EnsureNamedObject. apply keeps_bind; [frame|]. intros [e|o].
  - destruct (negb _); [frame|]. apply keeps_bind; [frame|]. intros o. apply keeps_bind; [frame|]. intros _.
    apply keeps_wrap, (qt_poll _ _ Hq). unfold WaitUntilObjectExistsInCache. frame.
  - apply keeps_bind; [frame|]. intros o'. destruct (k8_equal r o' o); [frame|]. apply keeps_bind; [destruct (negb _); frame|].
    intros _. apply keeps_wrap, (qt_poll _ _ Hq). unfold waitUntilUpdateIsInCache. frame.
Qed.
Local Hint Resolve quiet_ensureObject : kkp_frame.

Lemma quiet_objects k msg l data ns : keeps v (ReconcileObjects r k msg l data ns).
Proof. apply keeps_for_range. intros _ [n a]. frame. Qed.
Lemma quiet_remove msg l : keeps v (removeAll r msg l).
Proof. apply keeps_for_range. intros _ x. unfold unless. frame. Qed.
Local Hint Resolve quiet_objects quiet_remove : kkp_frame.

Lemma quiet_syncAddress c seed : keeps v (syncAddress r c seed).
Proof.
  unfold syncAddress. apply keeps_bind; [|intros c1].
  - destruct (String.eqb _ ""); [|frame]. apply quiet_updateCluster; [frame|].
    intros c2 w x w' (a & w1 & _ & (b & w2 & _ & [<- _]%ret_ok_inv)%bind_ok_inv)%bind_ok_inv. done.
  - apply keeps_bind; [unfold Build, frontLoadBalancer, addressIP, apiserverPort, getExternalIPv4; frame|].
    intros l; destruct l; [frame|]. apply quiet_updateCluster; [frame|]. by intros c2 w x w' [<- _]%ret_ok_inv.
Qed.
Local Hint Resolve quiet_syncAddress : kkp_frame.

Lemma quiet_kcm c : keeps v (KCMCloudControllersDeactivated (k8_unmarshal r) (k8_deployments r) (ns_of c)).
Proof.
  unfold KCMCloudControllersDeactivated. apply keeps_bind; [frame|]. intros [e|kcm]; [frame|]. apply keeps_bind; [|frame].
  destruct (IsDeploymentRolloutComplete kcm 0); frame. by intros w z w' [= _ <-].
Qed.
Local Hint Resolve quiet_kcm : kkp_frame.

Lemma quiet_removals c d : keeps v (removeDropped r c d).
Proof.
  unfold removeDropped, only_if, ensureOldOPAIntegrationIsRemoved, ensureOpenVPNSetupIsRemoved, ensureKonnectivitySetupIsRemoved,
    ensureOSMResourcesAreRemoved, ensureKubernetesDashboardResourcesAreRemoved, ensureEncryptionConfigurationIsRemoved. frame.
Qed.
Lemma quiet_workloads c d : keeps v (deployWorkloads r c d).
Proof.
  unfold deployWorkloads, ensureConfigMaps, ensureDeployments, ensureCronJobs, ensurePodDisruptionBudgets,
    ensureVerticalPodAutoscalers, GetDeploymentCreators, ccmAllowed, GetVerticalPodAutoscalersForAll,
    getVerticalPodAutoscalersForResource. pose proof (quiet_removals c d). frame.
Qed.
Lemma quiet_foundation c namespace d seed : keeps v (deployFoundation r c namespace d seed).
Proof.
  unfold deployFoundation, ensureSecrets, ensureRBAC, ensureServiceAccounts, ensureRoles, ensureRoleBindings, ensureClusterRoles,
    ensureClusterRoleBindings, ensureNetworkPolicies, hostnameToIPList, ensureEtcd, statefulSetHealthCheck, ensureStatefulSets,
    etcdUseStrictTLS, ensureEtcdBackupConfigs. frame.
Qed.
Local Hint Resolve quiet_workloads quiet_foundation : kkp_frame.

Lemma quiet_deploy c namespace : keeps v (ensureResourcesAreDeployed r c namespace).
Proof.
  unfold ensureResourcesAreDeployed, getClusterTemplateData, SupportsFailureDomainZoneAntiAffinity, ensureServices. frame.
Qed.

Lemma quiet_namespace c : keeps v (ensureNamespaceExists r c).
Proof. unfold ensureNamespaceExists. frame. Qed.
Lemma quiet_launcher c : keeps v (ensureEtcdLauncherFeatureFlag r c).
Proof. apply quiet_updateCluster; [frame|]. intros c2 w x w' [<- _]%ret_ok_inv. by destruct (_ && _). Qed.
Lemma quiet_reachable c : keeps v (clusterIsReachable r c).
Proof.
  unfold clusterIsReachable. apply keeps_bind_run; [frame|]. intros w a w' E. apply keeps_bind; [|frame].
  apply keeps_try. by eapply qt_reach.
Qed.
End quiet.

(** The finalizers of the stored clusters; nobody else changes them during a run. *)
Class FinalizerWorld {W} (r : ClusterReconciler W) := {
  fz : NamespacedName → W → option (list string);
  fz_quiet : ∀ k, quiet r (fz k);
  fz_get : ∀ k w c w', c_get (k8_clusters r) k w = (Ok c, w') → fz k w = Some (om_finalizers (cl_meta c)) ∧ object_key c = k;
  fz_patch_key : ∀ old new w x w', c_patch (k8_clusters r) old new w = (Ok x, w') → object_key x = object_key new;
  fz_update : ∀ c w o w', c_update (k8_clusters r) c w = (o, w') → (∀ x, o = Ok x → object_key x = object_key c) ∧
    (fz (object_key c) w' = fz (object_key c) w ∨
     fz (object_key c) w' = Some (om_finalizers (cl_meta c)) ∧ (∀ e, o = Err e → IsConflict e = false));
}.

Section finalizers.
Context `{SemverLib, StringSets} {W : Type} (r : ClusterReconciler W) `{!FinalizerWorld r}.
Context (key : NamespacedName) (allowed : string → Prop).

(** Finalizers were added, of the allowed ones. *)
Definition grown (w w' : W) : Prop := ∀ fs, fz key w = Some fs → ∃ fs', fz key w' = Some fs' ∧
  (∀ f, f ∈ fs → f ∈ fs') ∧ (∀ f, f ∈ fs' → f ∈ fs ∨ allowed f).

Lemma grown_keeps {A} (m : M W A) w o w' : keeps (fz key) m → m w = (o, w') → grown w w'.
Proof. intros Hm E fs Hfs. exists fs. rewrite (Hm _ _ _ E). split; [done|]. split; [done|]. by left. Qed.
Lemma grown_trans a b c : grown a b → grown b c → grown a c.
Proof.
  intros H1 H2 fs (fs1 & H3 & H4 & H5)%H1. destruct (H2 _ H3) as (fs2 & H6 & H7 & H8). exists fs2. split; [done|]. split; [auto|].
  intros f [?|?]%H8; [auto|by right].
Qed.

(** [grows Q m]: however [m] ends, finalizers were added; if it succeeds, [Q]. *)
Definition grows {A} (Q : A → Prop) (m : M W A) : Prop := ∀ w o w', m w = (o, w') → grown w w' ∧ ∀ a, o = Ok a → Q a.
Lemma grows_bind {A B} (P : A → Prop) (Q : B → Prop) (m : M W A) (k : A → M W B) :
  grows P m → (∀ w a w', m w = (Ok a, w') → P a → grows Q (k a)) → grows Q (m ≫= k).
Proof.
  intros Hm Hk w o w'. unfold mbind, M_MBind, M_bind. destruct (m w) as [o1 w1] eqn:E. destruct (Hm _ _ _ E) as [Hg HP].
  destruct o1 as [a| | |]; [|intros [= <- <-]; by split..]. intros Ek. destruct (Hk _ _ _ E (HP a eq_refl) _ _ _ Ek) as [Hg2 HQ].
  split; [by eapply grown_trans|done].
Qed.
Lemma grows_quiet {A} (Q : A → Prop) (m : M W A) : keeps (fz key) m → (∀ w a w', m w = (Ok a, w') → Q a) → grows Q m.
Proof. intros Hm HQ w o w' E. split; [by eapply grown_keeps|]. intros a ->. by eapply HQ. Qed.

Lemma grows_wrap {A} (Q : A → Prop) msg (m : M W A) : grows Q m → grows Q (wrap msg m).
Proof.
  intros Hm w o w'. unfold wrap. destruct (m w) as [o1 w1] eqn:E. destruct (Hm _ _ _ E) as [? ?].
  destruct o1; intros [= <- <-]; by split.
Qed.

(** One attempt of [TryAddFinalizer]. *)
Definition add_attempt (l : list string) : M W Cluster :=
  obj ← c_get (k8_clusters r) key;
  match om_deletionTimestamp (obj_meta obj) with
  | Some _ => mret obj
  | None =>
      let previous := NewString (om_finalizers (obj_meta obj)) in
      let obj := set_meta (AddFinalizer l (obj_meta obj)) obj in
      let current := NewString (om_finalizers (obj_meta obj)) in
      if bool_decide (previous = current) then mret obj else c_update (k8_clusters r) obj
  end.

Lemma add_attempt_run l u z u' : (∀ f, f ∈ l → allowed f) → add_attempt l u = (z, u') →
  grown u u' ∧ (∀ x, z = Ok x → object_key x = key) ∧ ∀ e, z = Err e → IsConflict e = true → fz key u' = fz key u.
Proof.
  intros Hl. unfold add_attempt, mbind, M_MBind, M_bind. destruct (c_get (k8_clusters r) key u) as [o u1] eqn:Eg.
  pose proof (grown_keeps _ _ _ _ (qt_clusters_get _ _ (fz_quiet key) key) Eg) as Hstop.
  pose proof (qt_clusters_get _ _ (fz_quiet key) key _ _ _ Eg) as Hu1.
  destruct o as [s| | |]; [|intros [= <- <-]; split; [exact Hstop|]; by split..].
  destruct (fz_get _ _ _ _ Eg) as [Hfs Hks]. cbn [obj_meta Cluster_object]. destruct (om_deletionTimestamp (cl_meta s)) eqn:Ed.
  { intros [= <- <-]. split; [exact Hstop|]. split; [by intros x [= <-]|done]. }
  destruct (bool_decide _). { intros [= <- <-]. split; [exact Hstop|]. split; [by intros x [= <-]|done]. }
  intros Eu. destruct (fz_update _ _ _ _ Eu) as [Hx Hcase].
  change (object_key (set_meta _ s)) with (object_key s) in Hx, Hcase. rewrite Hks in Hx, Hcase. split; [|split; [done|]].
  - destruct Hcase as [Hu|[Hu _]]; intros fs Hfs'; [exists fs; rewrite Hu, Hu1; split; [done|]; split; [done|]; by left|].
    assert (fs = om_finalizers (cl_meta s)) as -> by congruence. eexists. split; [exact Hu|].
    split; intros f Hf; [apply elem_of_AddFinalizer; by left|]. apply elem_of_AddFinalizer in Hf as [?|?]; [by left|right; auto].
  - intros e He Hc. destruct Hcase as [Hu|[_ Hnc]]; [congruence|]. by rewrite (Hnc e He) in Hc.
Qed.

Lemma AddFinalizers_grows c l : object_key c = key → (∀ f, f ∈ l → allowed f) →
  grows (λ p, object_key p.1 = key) (AddFinalizers r c l).
Proof.
  intros Hk Hl. unfold AddFinalizers. apply (grows_bind (λ c, object_key c = key));
    [|intros _ x _ _ Hx; apply grows_quiet; [apply keeps_ret|by intros w a w' [<- _]%ret_ok_inv]].
  unfold TryAddFinalizer. rewrite Hk. apply grows_wrap. intros w o w' (w0 & E & HP)%retry_last. change (add_attempt l w0 = (o, w')) in E.
  destruct (add_attempt_run _ _ _ _ Hl E) as (Hg & Hx & _). split; [|done].
  assert (Hw0 : fz key w0 = fz key w).
  { apply (HP (λ u, fz key u = fz key w)); [|done]. intros u e u' Hu Eu Hc.
    destruct (add_attempt_run l _ _ _ Hl Eu) as (_ & _ & He). rewrite <- Hu. by eapply He. }
  intros fs. rewrite <- Hw0. apply Hg.
Qed.

(** The key of the object in memory does not change. *)
Lemma updateCluster_key c modify w c' w' : (∀ c w x w', modify c w = (Ok x, w') → object_key x = object_key c) →
  updateCluster r c modify w = (Ok c', w') → object_key c' = object_key c.
Proof.
  intros Hm (old & w1 & _ & (x & w2 & Ex%Hm & E)%bind_ok_inv)%bind_ok_inv.
  destruct (bool_decide _); [by apply ret_ok_inv in E as [<- _]|]. destruct (negb _); [done|]. apply fz_patch_key in E. congruence.
Qed.
Lemma syncAddress_key c seed w c' w' : syncAddress r c seed w = (Ok c', w') → object_key c' = object_key c.
Proof.
  intros (c1 & w1 & E1 & (l & w2 & _ & E)%bind_ok_inv)%bind_ok_inv. transitivity (object_key c1).
  - destruct l; [by apply ret_ok_inv in E as [<- _]|]. eapply updateCluster_key; [|exact E]. by intros c2 u x u' [<- _]%ret_ok_inv.
  - destruct (String.eqb _ ""); [|by apply ret_ok_inv in E1 as [<- _]]. eapply updateCluster_key; [|exact E1].
    by intros c2 u x u' (a & u1 & _ & (b & u2 & _ & [<- _]%ret_ok_inv)%bind_ok_inv)%bind_ok_inv.
Qed.
Lemma deploy_key c namespace w c' res w' : ensureResourcesAreDeployed r c namespace w = (Ok (c', res), w') → object_key c' = object_key c.
Proof.
  unfold ensureResourcesAreDeployed. intros E. apply bind_ok_inv in E as (seed & w1 & _ & E).
  apply bind_ok_inv in E as (config & w2 & _ & E). apply bind_ok_inv in E as (d & w3 & _ & E).
  apply bind_ok_inv in E as ([] & w4 & _ & E). apply bind_ok_inv in E as (seed' & w5 & _ & E).
  apply bind_ok_inv in E as (c1 & w6 & Hk%wrap_ok_inv%syncAddress_key & E). destruct (_ && _); [by apply ret_ok_inv in E as [[= <- _] _]|].
  apply bind_ok_inv in E as ([] & w7 & _ & E). destruct (negb _); [by apply ret_ok_inv in E as [[= <- _] _]|].
  apply bind_ok_inv in E as ([] & w8 & _ & [[= <- _] _]%ret_ok_inv). done.
Qed.
End finalizers.

Section node_finalizer.
Context `{SemverLib, StringSets} {W : Type} (r : ClusterReconciler W) `{!FinalizerWorld r}.

(** The API server was reported to be up, and it answered. *)
Definition apiserver_answered (key : NamespacedName) : Prop := ∃ c w w', object_key c = key ∧
  eh_apiserver (cs_extendedHealth (cl_status c)) = HealthStatusUp ∧ clusterIsReachable r c w = (Ok true, w').

Definition may_add (key : NamespacedName) (f : string) : Prop :=
  f = EtcdBackupConfigCleanupFinalizer ∨ f = KubermaticConstraintCleanupFinalizer ∨ f = NodeDeletionFinalizer ∧ apiserver_answered key.

Lemma finish_grows key c : object_key c = key → grows r key (may_add key) (λ _, True) (finishReconciliation r c).
Proof.
  intros Hk. unfold finishReconciliation. set (up := String.eqb _ HealthStatusUp).
  apply (grows_bind _ _ _ (λ _, True)); [apply grows_quiet; [|done]|].
  { destruct up; [apply quiet_reachable, fz_quiet|apply keeps_ret]. }
  intros w reachable w' E _. destruct reachable; cbn [negb]; [|apply grows_quiet; [apply keeps_ret|done]].
  assert (Hl : ∀ f, f ∈ missingFinalizers c up → may_add key f).
  { intros f [[Hup Hf]%elem_of_when|[_ Hf]%elem_of_when]%elem_of_app; apply list_elem_of_singleton in Hf as ->; [|by right; left].
    right. right. split; [done|]. apply andb_true_iff in Hup as [Hup _]. rewrite Hup in E. exists c, w, w'. split; [done|].
    split; [by apply String.eqb_eq|done]. }
  destruct (missingFinalizers c up) as [|f l] eqn:El; [apply grows_quiet; [apply keeps_ret|done]|].
  intros u o u' Ea. destruct (AddFinalizers_grows r key (may_add key) c (f :: l) Hk Hl _ _ _ Ea) as [Hg _]. by split.
Qed.

(** C13: reconciling a cluster, however it ends, never removes a finalizer and adds only
    those for backups, constraints and nodes; the one for nodes only after the API
    server of the cluster was up and has answered a request, since deleting nodes
    needs it. *)
Theorem reconcile_finalizers c w o w' fs :
  reconcileCluster r c w = (o, w') → fz (object_key c) w = Some fs →
  ∃ fs', fz (object_key c) w' = Some fs' ∧ (∀ f, f ∈ fs → f ∈ fs') ∧
    ∀ f, f ∈ fs' → f ∈ fs ∨ may_add (object_key c) f.
Proof.
  intros E. revert fs. set (key := object_key c). cut (grows r key (may_add key) (λ _, True) (reconcileCluster r c)).
  { intros Hg fs Hfs. destruct (Hg _ _ _ E) as [Hgr _]. exact (Hgr fs Hfs). }
  clear w o w' E. unfold reconcileCluster. pose proof (fz_quiet key) as Hq.
  apply (grows_bind _ _ _ (λ _, True)); [by apply grows_quiet; [apply quiet_namespace|]|]. intros _ namespace _ _ _.
  apply (grows_bind _ _ _ (λ p, object_key p.1 = key)).
  { destruct (HasFinalizer _ _); [apply grows_quiet; [apply keeps_ret|by intros w a w' [<- _]%ret_ok_inv]|].
    apply AddFinalizers_grows; [done|]. intros f ->%list_elem_of_singleton. by left. }
  intros _ [c1 res] _ _ Hk1. destruct (negb _); [apply grows_quiet; [apply keeps_ret|done]|].
  apply (grows_bind _ _ _ (λ c, object_key c = key)).
  { apply grows_quiet; [by apply quiet_launcher|]. intros w c2 w' E. rewrite <- Hk1. eapply (updateCluster_key r); [|exact E].
    intros c3 u x u' [<- _]%ret_ok_inv. by destruct (_ && _). }
  intros _ c2 _ _ Hk2. apply (grows_bind _ _ _ (λ p, object_key p.1 = key)).
  { apply grows_quiet; [by apply quiet_deploy|]. intros w [c3 res'] w' E. apply (deploy_key r) in E. simpl. congruence. }
  intros _ [c3 res'] _ _ Hk3. destruct (negb _); [apply grows_quiet; [apply keeps_ret|done]|]. by apply finish_grows.
Qed.
End node_finalizer.
