(* ===== verification/EtcdRestore.v ===== *)
(** * The etcd restore controller

    [pkg/controller/seed-controller-manager/etcdrestore/etcd_restore_controller.go],
    its API type, and [GetEtcdRestoreS3Client] of [pkg/resources/resources.go].  A
    restore pauses the cluster, deletes the etcd stateful set and its volumes, and
    lets the cluster controllers rebuild etcd from the backup. *)

From S2P Require Import Prelude ResourceNames Kube Semver CloudApi ClusterApi Helper HelperSpec Corev1 EtcdBackup Reconciling.

(** ** Types *)

Definition EtcdRestorePhaseStarted : string := "Started".
Definition EtcdRestorePhaseStsRebuilding : string := "StsRebuilding".
Definition EtcdRestorePhaseCompleted : string := "Completed".
Definition FinishRestoreFinalizer : string := "kubermatic.k8c.io/finish-restore".
Definition ActiveRestoreAnnotationName : string := "kubermatic.k8c.io/active-restore".
Definition EtcdRestoreS3BucketNameKey : string := "BUCKET_NAME".
Definition EtcdRestoreS3EndpointKey : string := "ENDPOINT".
Definition EtcdRestoreDefaultS3SEndpoint : string := "s3.amazonaws.com".
Definition CABundleConfigMapKey : string := "ca-bundle.pem".

Record EtcdRestoreSpec := mkEtcdRestoreSpec {
  er_name : string;
  er_cluster : string;
  er_backupName : string;
  er_backupDownloadCredentialsSecret : string;
  er_destination : string;
}.
Record EtcdRestoreStatus := mkEtcdRestoreStatus {
  er_phase : string;
  er_restoreTime : Z;
}.
Record EtcdRestore := mkEtcdRestore {
  er_meta : ObjectMeta;
  er_spec : EtcdRestoreSpec;
  er_status : EtcdRestoreStatus;
}.

#[global] Instance EtcdRestoreSpec_eq_dec : EqDecision EtcdRestoreSpec.
Proof. solve_decision. Defined.
#[global] Instance EtcdRestoreStatus_eq_dec : EqDecision EtcdRestoreStatus.
Proof. solve_decision. Defined.
#[global] Instance EtcdRestore_eq_dec : EqDecision EtcdRestore.
Proof. solve_decision. Defined.

#[global] Program Instance EtcdRestore_object : Object EtcdRestore := {|
  obj_meta := er_meta;
  set_meta m r := mkEtcdRestore m (er_spec r) (er_status r);
|}.
Next Obligation. done. Qed.

Definition set_phase_of (p : string) (r : EtcdRestore) : EtcdRestore :=
  mkEtcdRestore (er_meta r) (er_spec r) (mkEtcdRestoreStatus p (er_restoreTime (er_status r))).
Definition set_restore_status (s : EtcdRestoreStatus) (r : EtcdRestore) : EtcdRestore :=
  mkEtcdRestore (er_meta r) (er_spec r) s.
Definition set_credentialsSecret (n : string) (r : EtcdRestore) : EtcdRestore :=
  mkEtcdRestore (er_meta r)
    (mkEtcdRestoreSpec (er_name (er_spec r)) (er_cluster (er_spec r)) (er_backupName (er_spec r)) n
       (er_destination (er_spec r))) (er_status r).

Definition GetEtcdRestoreRef (restore : EtcdRestore) : OwnerReference :=
  mkOwnerReference "kubermatic.k8c.io/v1" "EtcdRestore" (om_name (er_meta restore)) (om_uid (er_meta restore)).

Definition BackupCABundleConfigMapName (cluster : Cluster) : string :=
  "cluster-" +:+ cl_name cluster +:+ "-ca-bundle".

(** The S3 library: building a client from endpoint, keys and CA bundle, which may
    be rejected, and asking for an object. *)
Record S3Config := mkS3Config {
  s3_endpoint : string;
  s3_accessKeyID : string;
  s3_secretAccessKey : string;
  s3_caBundle : string;
}.

Record RestoreEnv (W : Type) := mkRestoreEnv {
  re_restores : Client W EtcdRestore;
  re_clusters : Client W Cluster;
  re_secrets : Client W Secret;
  re_configMaps : Client W ConfigMap;
  re_statefulSets : Client W StatefulSet;
  re_pvcs : Client W PersistentVolumeClaim;
  re_retry : Retry W;
  re_now : W → Z * W;
  re_rand : W → string * W;
  re_event : string → string → string → W → W;
  re_seedGetter : M W Seed;
  re_secretEqual : Secret → Secret → bool;
  re_poll : M W bool → M W unit;
  re_caBundleValid : string → bool;
  re_s3New : S3Config → M W unit;
  re_statObject : S3Config → string → string → M W unit;
  re_workerName : string;
  re_versions : Versions;
}.
Arguments re_restores {W}.
Arguments re_clusters {W}.
Arguments re_secrets {W}.
Arguments re_configMaps {W}.
Arguments re_statefulSets {W}.
Arguments re_pvcs {W}.
Arguments re_retry {W}.
Arguments re_now {W}.
Arguments re_rand {W}.
Arguments re_event {W}.
Arguments re_seedGetter {W}.
Arguments re_secretEqual {W}.
Arguments re_poll {W}.
Arguments re_caBundleValid {W}.
Arguments re_s3New {W}.
Arguments re_statObject {W}.
Arguments re_workerName {W}.
Arguments re_versions {W}.

Section restore.
Context `{L : SemverLib, StringSets} {W : Type} (env : RestoreEnv W).

(** [updateCluster]: patches metadata and spec, never the status. *)
Definition updateCluster (cluster : Cluster) (modify : Cluster → Cluster) : M W Cluster :=
  oldCluster ← lift (Cluster_DeepCopy cluster);
  let cluster := modify cluster in
  if bool_decide (oldCluster = cluster) then mret cluster else
  if negb (bool_decide (cl_status oldCluster = cl_status cluster))
  then throw (ErrNew "updateCluster must not change cluster status") else
  c_patch (re_clusters env) oldCluster cluster.

(** [updateRestore]: first metadata and spec, then the status. *)
Definition updateRestore (restore : EtcdRestore) (modify : EtcdRestore → EtcdRestore) : M W EtcdRestore :=
  let oldRestore := restore in
  let restore := modify restore in
  if bool_decide (oldRestore = restore) then mret restore else
  let status := er_status restore in
  restore ← c_patch (re_restores env) oldRestore restore;
  let oldRestore := restore in
  let restore := set_restore_status status restore in
  if bool_decide (oldRestore = restore) then mret restore else
  c_status_patch (re_restores env) oldRestore restore.

(** The secret data and the restore after [GetEtcdRestoreS3Client] has looked up
    or created the credentials. *)
Definition restoreCredentials (restore : EtcdRestore) (createSecretIfMissing : bool) (cluster : Cluster)
    (destination : option BackupDestination) : M W (gmap string string * EtcdRestore) :=
  let namespace := cs_namespaceName (cl_status cluster) in
  let secretRef := er_backupDownloadCredentialsSecret (er_spec restore) in
  if negb (String.eqb secretRef "") then
    secret ← wrap "failed to get BackupDownloadCredentialsSecret credentials secret"
               (c_get (re_secrets env) (mkKey namespace secretRef));
    mret (do_data secret, restore)
  else if negb createSecretIfMissing then throw (ErrNew "BackupDownloadCredentialsSecret not set") else
    destination ← lift (deref destination);
    credentials ← lift (deref (bd_credentials destination));
    credsSecret ← wrap "failed to get s3 credentials secret" (c_get (re_secrets env) credentials);
    let secretData :=
      <[EtcdRestoreS3EndpointKey := bd_endpoint destination]>
        (<[EtcdRestoreS3BucketNameKey := bd_bucketName destination]> (do_data credsSecret)) in
    let creator : ObjectCreator (O := Secret) :=
      λ se, Ok (mkDataObject (do_meta se) (secretData ∪ do_data se)) in
    rnd ← read (re_rand env);
    let secretName := om_name (er_meta restore) +:+ "-backupdownload-" +:+ rnd in
    _ ← wrap "failed to ensure Secret"
          (EnsureNamedObject (re_secrets env) (re_secretEqual env) id (re_poll env) (mkKey namespace secretName)
             (OwnerRefWrapper (GetEtcdRestoreRef restore) creator) (mkDataObject emptyMeta ∅) false);
    restore ← wrap "failed to write etcdrestore.backupDownloadCredentialsSecret"
                (c_patch (re_restores env) restore (set_credentialsSecret secretName restore));
    mret (secretData, restore).

Definition GetEtcdRestoreS3Client (restore : EtcdRestore) (createSecretIfMissing : bool) (cluster : Cluster)
    (destination : option BackupDestination) : M W (S3Config * string * EtcdRestore) :=
  '(secretData, restore) ← restoreCredentials restore createSecretIfMissing cluster destination;
  let bucketName := map_str secretData EtcdRestoreS3BucketNameKey in
  let endpoint := map_str secretData EtcdRestoreS3EndpointKey in
  if String.eqb bucketName "" then throw (ErrNew "s3 bucket name not set") else
  let endpoint := if String.eqb endpoint "" then EtcdRestoreDefaultS3SEndpoint else endpoint in
  caBundleConfigMap ← wrap "failed to get CA bundle ConfigMap"
    (c_get (re_configMaps env) (mkKey NamespaceSystem (BackupCABundleConfigMapName cluster)));
  match do_data caBundleConfigMap !! CABundleConfigMapKey with
  | None => throw (ErrNew "ConfigMap does not contain key")
  | Some bundle =>
      if negb (re_caBundleValid env bundle)
      then throw (ErrNew "CA bundle does not contain any valid certificates") else
      let s3 := mkS3Config endpoint (map_str secretData AccessKeyIdEnvVarKey)
                  (map_str secretData SecretAccessKeyEnvVarKey) bundle in
      _ ← wrap "error creating S3 client" (re_s3New env s3);
      mret (s3, bucketName, restore)
  end.

(** The destination of a restore: nil when the spec names none. *)
Definition restoreDestination (restore : EtcdRestore) (seed : Seed) : outcome (option BackupDestination) :=
  let name := er_destination (er_spec restore) in
  if String.eqb name "" then Ok None else
  match seed_etcdBackupRestore seed with
  | None => Err (ErrNew "can't find backup restore destination in Seed")
  | Some cfg =>
      match ebr_destinations cfg !! name with
      | None => Err (ErrNew "can't find backup restore destination in Seed")
      | Some destination =>
          d ← deref destination;
          if bool_decide (bd_credentials d = None)
          then Err (ErrNew "credentials not set for backup destination") else Ok (Some d)
      end
  end.

Definition requeue (after : Z) : option Result := Some (mkResult false after).

Definition rebuildEtcdStatefulset (restore : EtcdRestore) (cluster : Cluster) : M W (option Result) :=
  cluster ←
    (if sp_pause (cl_spec cluster) then
       cluster ← wrap "failed to reset etcd initialized status"
         (UpdateClusterStatus (re_clusters env) (re_retry env) cluster
            (SetClusterCondition (re_now env) (re_versions env) ClusterConditionEtcdClusterInitialized
               ConditionFalse "" ("Etcd Cluster is being restored from backup " +:+ er_backupName (er_spec restore))));
       wrap "failed to unpause cluster"
         (updateCluster cluster (λ c, set_cl_spec (set_pause false (cl_spec c)) c))
     else mret cluster);
  if negb (HasConditionValue (cl_status cluster) ClusterConditionEtcdClusterInitialized ConditionTrue)
  then mret (requeue (30 * Second)) else
  _ ← wrap "failed to clear cluster active restore annotation"
    (updateCluster cluster (λ c, set_meta
       (set_annotations (delete ActiveRestoreAnnotationName (om_annotations (cl_meta c))) (cl_meta c)) c));
  _ ← wrap "failed to mark restore completed"
    (updateRestore restore (λ r,
       let r := set_phase_of EtcdRestorePhaseCompleted r in
       set_meta (RemoveFinalizer [FinishRestoreFinalizer] (er_meta r)) r));
  mret None.

(** Delete the etcd stateful set and its volume claims; the number of claims that
    were still there. *)
Definition deleteEtcd (cluster : Cluster) : M W nat :=
  let namespace := cs_namespaceName (cl_status cluster) in
  r ← try (c_get (re_statefulSets env) (mkKey namespace EtcdStatefulSetName));
  _ ← match r with
      | inr sts =>
          d ← try (c_delete (re_statefulSets env) sts);
          match d with
          | inl e => if IsNotFound e then mret tt else throw (ErrWrap "failed to delete etcd statefulset" e)
          | inr _ => mret tt
          end
      | inl e => if IsNotFound e then mret tt else throw (ErrWrap "failed to get etcd statefulset" e)
      end;
  pvcs ← wrap "failed to list pvcs"
    (c_list (re_pvcs env) (mkListOptions namespace [(AppLabelKey, EtcdStatefulSetName)]));
  _ ← for_range (λ _ pvc, wrap "failed to delete pvc" (c_delete (re_pvcs env) pvc)) tt pvcs;
  mret (length pvcs).

(** Claim the cluster for this restore: [None] when another restore is active or
    the claim lost a race. *)
Definition claimCluster (restore : EtcdRestore) (cluster : Cluster) : M W (option Cluster) :=
  let thisRestore := om_namespace (er_meta restore) +:+ "/" +:+ om_name (er_meta restore) in
  let activeRestore := map_str (om_annotations (cl_meta cluster)) ActiveRestoreAnnotationName in
  if negb (String.eqb activeRestore "") then
    if negb (String.eqb activeRestore thisRestore) then mret None else mret (Some cluster)
  else
    let cluster := set_meta (set_annotations
      (<[ActiveRestoreAnnotationName := thisRestore]> (om_annotations (cl_meta cluster))) (cl_meta cluster)) cluster in
    r ← try (c_update (re_clusters env) cluster);
    match r with
    | inl e => if IsConflict e then mret None
               else throw (ErrWrap "error updating cluster active restore annotation" e)
    | inr cluster => mret (Some cluster)
    end.

(** From the claimed cluster on. *)
Definition performRestore (restore : EtcdRestore) (cluster : Cluster) : M W (option Result) :=
  if String.eqb (er_phase (er_status restore)) EtcdRestorePhaseStsRebuilding
  then rebuildEtcdStatefulset restore cluster else
  cluster ← wrap "failed to pause cluster"
    (updateCluster cluster (λ c, set_cl_spec (set_pause true (cl_spec c)) c));
  restore ← wrap "failed to set EtcdRestore started phase"
    (updateRestore restore (set_phase_of EtcdRestorePhaseStarted));
  remaining ← deleteEtcd cluster;
  if (0 <? remaining)%nat then mret (requeue (30 * Second)) else
  restore ← wrap "failed to proceed to sts rebuilding phase"
    (updateRestore restore (set_phase_of EtcdRestorePhaseStsRebuilding));
  rebuildEtcdStatefulset restore cluster.

Definition restore_reconcile (restore : EtcdRestore) (cluster : Cluster) (seed : Seed) : M W (option Result) :=
  if negb (map_bool (sp_features (cl_spec cluster)) ClusterFeatureEtcdLauncher)
  then throw (ErrNew "etcdLauncher not enabled on cluster") else
  if String.eqb (er_phase (er_status restore)) EtcdRestorePhaseCompleted then mret None else
  restore ← match om_deletionTimestamp (er_meta restore) with
            | None => wrap "failed to add finalizer"
                        (TryAddFinalizer (re_restores env) (re_retry env) restore [FinishRestoreFinalizer])
            | Some _ => mret restore
            end;
  destination ← lift (restoreDestination restore seed);
  '((s3Client, bucketName), restore) ← wrap "failed to obtain S3 client"
    (GetEtcdRestoreS3Client restore true cluster destination);
  let objectName := cl_name cluster +:+ "-" +:+ er_backupName (er_spec restore) in
  _ ← wrap "could not access backup object" (re_statObject env s3Client bucketName objectName);
  claimed ← claimCluster restore cluster;
  match (claimed : option Cluster) with
  | None => mret (requeue (1 * Minute))
  | Some cluster => performRestore restore cluster
  end.

Definition restore_Reconcile (request : NamespacedName) : M W (Result * option error) :=
  pre ← try (
    seed ← re_seedGetter env;
    if negb (IsDefaultEtcdAutomaticBackupEnabled seed) then mret None else
    r ← try (c_get (re_restores env) request);
    match r with
    | inl e => if IsNotFound e then mret None else throw e
    | inr restore =>
        cluster ← c_get (re_clusters env) (mkKey "" (er_cluster (er_spec restore)));
        if String.eqb (cs_namespaceName (cl_status cluster)) "" then mret None else
        if negb (String.eqb (map_str (om_labels (cl_meta cluster)) WorkerNameLabelKey) (re_workerName env))
        then mret None else mret (Some (restore, cluster, seed))
    end);
  match pre with
  | inl e => mret (emptyResult, Some e)
  | inr None => mret (emptyResult, None)
  | inr (Some (restore, cluster, seed)) =>
      r ← try (restore_reconcile restore cluster seed);
      match r with
      | inl e =>
          _ ← emit (re_event env "Warning" "ReconcilingError" (error_string e));
          _ ← emit (re_event env "Warning" "ReconcilingError"
                ("failed to reconcile etcd restore " +:+ dq +:+ om_name (er_meta restore) +:+ dq +:+ ": "
                 +:+ error_string e));
          mret (emptyResult, Some e)
      | inr result => mret (default emptyResult result, None)
      end
  end.
End restore.

(** ** Theorems *)

Section restore_spec.
Context `{L : SemverLib, StringSets} {W : Type} (env : RestoreEnv W).

(** A restore that names neither a destination nor a credentials secret,
    which the API documents as a use of the legacy destination, ends in a nil
    pointer panic. *)
Theorem restore_without_destination_panics restore cluster seed w :
  er_destination (er_spec restore) = "" → er_backupDownloadCredentialsSecret (er_spec restore) = "" →
  ∃ destination msg, restoreDestination restore seed = Ok destination ∧
    GetEtcdRestoreS3Client env restore true cluster destination w = (Panic msg, w).
Proof.
  intros Hd Hs. exists None. eexists. split; [unfold restoreDestination; by rewrite Hd|].
  unfold GetEtcdRestoreS3Client, restoreCredentials, mbind, M_MBind, M_bind. rewrite Hs. simpl. reflexivity.
Qed.

Lemma keeps_bind_ok {X A B} (v : W → X) (m : M W A) (k : A → M W B) :
  keeps v m → (∀ a w w', m w = (Ok a, w') → keeps v (k a)) → keeps v (m ≫= k).
Proof.
  intros Hm Hk w r w'. unfold mbind, M_MBind, M_bind. destruct (m w) as [o w1] eqn:E.
  pose proof (Hm _ _ _ E) as Hw. destruct o; intros HH; simplify_eq; try done.
  apply (Hk _ _ _ E) in HH. congruence.
Qed.

(** The clients a restore may use while another one is active: those for
    restores, secrets and config maps, and S3. *)
Record harmless {X} (v : W → X) : Prop := {
  hl_restore_get : ∀ k, keeps v (c_get (re_restores env) k);
  hl_restore_update : ∀ r, keeps v (c_update (re_restores env) r);
  hl_restore_patch : ∀ a b, keeps v (c_patch (re_restores env) a b);
  hl_secret_get : ∀ k, keeps v (c_get (re_secrets env) k);
  hl_secret_create : ∀ s, keeps v (c_create (re_secrets env) s);
  hl_secret_update : ∀ s, keeps v (c_update (re_secrets env) s);
  hl_configMap_get : ∀ k, keeps v (c_get (re_configMaps env) k);
  hl_rand : keeps v (read (re_rand env));
  hl_poll : ∀ m, keeps v m → keeps v (re_poll env m);
  hl_s3New : ∀ s, keeps v (re_s3New env s);
  hl_statObject : ∀ s b o, keeps v (re_statObject env s b o);
}.

(** The restore client answers with the object that was asked for. *)
Record keyed : Prop := {
  ky_get : ∀ k w o w', c_get (re_restores env) k w = (Ok o, w') → object_key o = k;
  ky_update : ∀ r w o w', c_update (re_restores env) r w = (Ok o, w') → object_key o = object_key r;
  ky_patch : ∀ a b w o w', c_patch (re_restores env) a b w = (Ok o, w') → object_key o = object_key b;
}.

Section exclusion.
Context {X : Type} (v : W → X) (Hv : harmless v).

Lemma keeps_TryAddFinalizer r fs : keeps v (TryAddFinalizer (re_restores env) (re_retry env) r fs).
Proof.
  destruct Hv. unfold TryAddFinalizer. apply keeps_wrap, keeps_retry. frame.
Qed.

Lemma keeps_GetEtcdRestoreS3Client r cr cl d : keeps v (GetEtcdRestoreS3Client env r cr cl d).
Proof.
  destruct Hv. unfold GetEtcdRestoreS3Client, restoreCredentials, EnsureNamedObject, WaitUntilObjectExistsInCache,
    waitUntilUpdateIsInCache. cbn [negb]. repeat (frame; try (apply hl_poll0)).
Qed.
End exclusion.

Lemma TryAddFinalizer_key (Hk : keyed) r fs w r' w' :
  TryAddFinalizer (re_restores env) (re_retry env) r fs w = (Ok r', w') → object_key r' = object_key r.
Proof.
  unfold TryAddFinalizer. intros E%wrap_ok_inv. apply retry_last in E as (w0 & E & _).
  apply bind_ok_inv in E as (o & w1 & Eg & E). apply (ky_get Hk) in Eg.
  destruct (om_deletionTimestamp _); [apply ret_ok_inv in E as [<- _]; done|].
  case_bool_decide; [apply ret_ok_inv in E as [<- _]; done|]. apply (ky_update Hk) in E. by rewrite E.
Qed.

Lemma GetEtcdRestoreS3Client_key (Hk : keyed) r cr cl d w s3 b r' w' :
  GetEtcdRestoreS3Client env r cr cl d w = (Ok (s3, b, r'), w') → object_key r' = object_key r.
Proof.
  unfold GetEtcdRestoreS3Client. intros E.
  apply bind_ok_inv in E as ([data r1] & w1 & E1 & E).
  assert (Hr1 : object_key r1 = object_key r).
  { unfold restoreCredentials in E1. destruct (negb _).
    - apply bind_ok_inv in E1 as (s & w2 & _ & E1). by apply ret_ok_inv in E1 as [[= _ <-] _].
    - destruct (negb _); [done|]. do 5 (apply bind_ok_inv in E1 as (? & ? & _ & E1)).
      apply bind_ok_inv in E1 as (r2 & w2 & Ep & E1). apply ret_ok_inv in E1 as [[= _ <-] _].
      apply wrap_ok_inv, (ky_patch Hk) in Ep. by rewrite Ep. }
  destruct (String.eqb _ _); [done|].
  apply bind_ok_inv in E as (cm & w2 & _ & E). destruct (do_data cm !! _); [|done].
  destruct (negb _); [done|]. apply bind_ok_inv in E as (u & w3 & _ & E).
  by apply ret_ok_inv in E as [[= _ _ <-] _].
Qed.

(** C7: while the cluster names another restore as the active one, a restore
    does not touch the cluster, its etcd stateful set or its volume claims: it
    leaves every view of the world alone that the clients for restores, secrets
    and config maps and the S3 calls leave alone. *)
Theorem restore_mutual_exclusion {X} (v : W → X) restore cluster seed :
  harmless v → keyed →
  let active := map_str (om_annotations (cl_meta cluster)) ActiveRestoreAnnotationName in
  active ≠ "" → active ≠ om_namespace (er_meta restore) +:+ "/" +:+ om_name (er_meta restore) →
  keeps v (restore_reconcile env restore cluster seed).
Proof.
  intros Hv Hk active Ha Hne. unfold restore_reconcile.
  destruct (negb _); [frame|]. destruct (String.eqb _ _); [frame|].
  apply keeps_bind_ok.
  { destruct (om_deletionTimestamp _); [frame|]. apply keeps_wrap. by apply keeps_TryAddFinalizer. }
  intros r1 w1 w2 E1. assert (Hr1 : object_key r1 = object_key restore).
  { destruct (om_deletionTimestamp _); [by apply ret_ok_inv in E1 as [<- _]|].
    apply wrap_ok_inv in E1. by eapply TryAddFinalizer_key. }
  apply keeps_bind_ok; [frame|]. intros d _ _ _.
  apply keeps_bind_ok; [apply keeps_wrap; by apply keeps_GetEtcdRestoreS3Client|].
  intros [[s3 b] r2] w3 w4 E2%wrap_ok_inv. apply (GetEtcdRestoreS3Client_key Hk) in E2.
  apply keeps_bind_ok; [apply keeps_wrap; apply Hv|]. intros _ _ _ _.
  assert (Hclaim : claimCluster env r2 cluster = mret None).
  { unfold claimCluster. fold active. apply String.eqb_neq in Ha. rewrite Ha. cbn [negb].
    rewrite Hr1 in E2. unfold object_key in E2. simpl in E2. injection E2 as Hns Hn. rewrite Hns, Hn.
    apply String.eqb_neq in Hne. rewrite Hne. done. }
  rewrite Hclaim. apply keeps_bind_ok; [frame|]. intros claimed w5 w6 [<- _]%ret_ok_inv. frame.
Qed.
End restore_spec.

(** ** Rebuilding *)

Class RestoreWorld {W} `{SemverLib, WireTime} (env : RestoreEnv W) := {
  rw_clusters :: ClusterWorld (re_clusters env);
  rw_now : ∀ k, keeps (cview k) (read (re_now env));
  rw_patch_status : ∀ old new w y w' v, cview (object_key new) w = Some v →
    c_patch (re_clusters env) old new w = (Ok y, w') → cl_status y = cl_status v;
}.
#[export] Hint Resolve rw_now : kkp_frame.

Section rebuild.
Context `{L : SemverLib, StringSets, WireTime} {W : Type} (env : RestoreEnv W) `{!RestoreWorld env}.

Lemma DeepCopy_conditions c old : Cluster_DeepCopy c = Ok old →
  cs_conditions (cl_status old) = cs_conditions (cl_status c) ∧ cl_meta old = cl_meta c.
Proof. unfold Cluster_DeepCopy. intros E. by o_inv. Qed.

(** The run that unpauses a cluster after its etcd was deleted never
    completes the restore: it has just marked etcd as not initialized, so it asks
    to be called again in 30 seconds. *)
Theorem rebuild_waits k restore c v w res w' :
  object_key c = k → cview k w = Some v → sp_pause (cl_spec c) = true →
  rebuildEtcdStatefulset env restore c w = (Ok res, w') →
  res = Some (mkResult false (30 * Second)).
Proof.
  intros Hk Hv Hp E. unfold rebuildEtcdStatefulset in E. rewrite Hp in E.
  apply bind_ok_inv in E as (y & w1 & Ey & E).
  assert (Hcond : HasConditionValue (cl_status y) ClusterConditionEtcdClusterInitialized ConditionTrue = false).
  2: { rewrite Hcond in E. by apply ret_ok_inv in E as [<- _]. }
  clear E. apply bind_ok_inv in Ey as (x & w2 & Ex%wrap_ok_inv & Ey%wrap_ok_inv).
  apply (UpdateClusterStatus_inv _ _ k _ c v) in Ex as [Hu _];
    [|intros; unfold SetClusterCondition; frame|apply SetClusterCondition_status_only|done|done].
  assert (Hx : object_key x = k ∧ ∃ v', cview k w2 = Some v' ∧
    cs_conditions (cl_status v') = cs_conditions (cl_status x) ∧
    ∃ cond, cs_conditions (cl_status x) !! ClusterConditionEtcdClusterInitialized = Some cond ∧
      cc_status cond = ConditionFalse).
  { pose proof (cview_key k w v Hv) as Hkv. destruct Hu as [Hw Hsame|rv old c1 w3 w4 Hd Hc1 _ Hw Hr].
    - destruct (Hsame x eq_refl) as (old & w3 & w4 & Hd & Hx & Hst).
      destruct (SetClusterCondition_status_only _ _ _ _ _ _ _ _ _ _ Hx) as [_ Hm].
      destruct (Hm _ eq_refl) as [Hm1 _]. split; [by rewrite (object_key_meta _ _ Hm1)|].
      exists v. split_and!; [done| |].
      + destruct (DeepCopy_conditions _ _ Hd) as [<- _]. by rewrite Hst.
      + destruct (SetClusterCondition_set _ _ _ _ _ _ _ _ _ _ Hx) as (cond & ? & ? & _). eauto.
    - specialize (Hr x eq_refl). subst x. split; [done|]. eexists. split_and!; [exact Hw|done|].
      destruct (SetClusterCondition_set _ _ _ _ _ _ _ _ _ _ Hc1) as (cond & Hl & Hs & _).
      exists (wire_cluster_condition cond). simpl. by rewrite lookup_fmap, Hl. }
  destruct Hx as (Hkx & v' & Hv' & Hcv & cond & Hl & Hs).
  assert (Hy : cs_conditions (cl_status y) = cs_conditions (cl_status x)).
  { unfold updateCluster in Ey. apply bind_ok_inv in Ey as (old & w3 & Eo & Ey).
    apply lift_ok_inv in Eo as [_ <-]. case_bool_decide; [by apply ret_ok_inv in Ey as [<- _]|].
    destruct (negb _); [done|].
    assert (Hkn : object_key (set_cl_spec (set_pause false (cl_spec x)) x) = k) by done.
    apply (rw_patch_status _ _ _ _ _ v') in Ey; [|by rewrite Hkn]. by rewrite Ey. }
  unfold HasConditionValue. rewrite Hy, Hl. by rewrite Hs.
Qed.
End rebuild.
