(* ===== verification/Encryption.v ===== *)
(** * The encryption-at-rest controller

    [pkg/controller/seed-controller-manager/encryption-at-rest-controller]: walks a
    cluster through the phases of encrypting its data, by waiting for the API
    servers to pick up a new encryption configuration and running a job that
    rewrites the encrypted resources; with the job of [pkg/resources/encryption]. *)

From S2P Require Import Prelude ResourceNames Kube Semver CloudApi ClusterApi Helper HelperSpec Corev1 EtcdBackup Reconciling.

(** ** Data *)


Definition ApiserverEncryptionRevisionLabelKey : string := "apiserver-encryption-configuration-secret-revision".
Definition ApiserverEncryptionHashLabelKey : string := "kubermatic.k8c.io/encryption-spec-hash".
Definition SecretboxPrefix : string := "secretbox".
Definition IdentityKey : string := "identity".
Definition EncryptionJobPrefix : string := "data-encryption".
Definition ClusterLabelKey : string := "kubermatic.k8c.io/cluster".
Definition SecretRevisionLabelKey : string := "kubermatic.k8c.io/secret-revision".
Definition AppLabelValue : string := "encryption-runner".
Definition RegistryQuay : string := "quay.io".

(** The parts of [apiserverconfigv1.EncryptionConfiguration] in use: the resources
    and providers of its items, a provider with the names of its secretbox keys. *)
Record ProviderConfiguration := mkProviderConfiguration {
  pc_secretbox : option (list string);
  pc_identity : bool;
}.
Record ResourceConfiguration := mkResourceConfiguration {
  rc_resources : list string;
  rc_providers : list ProviderConfiguration;
}.

Record EncryptionEnv (W : Type) := mkEncryptionEnv {
  ee_clusters : Client W Cluster;
  ee_secrets : Client W Secret;
  ee_pods : Client W MetaObject;
  ee_jobs : Client W Job;
  ee_retry : Retry W;
  ee_now : W → Z * W;
  ee_event : string → string → string → W → W;
  ee_seedGetter : M W Seed;
  ee_configGetter : M W unit;
  ee_poll : M W bool → M W unit;
  ee_specHash : option EncryptionConfiguration → outcome string;
  ee_decode : string → outcome (list ResourceConfiguration);
  ee_workerName : string;
  ee_overwriteRegistry : string;
  ee_versions : Versions;
}.
Arguments ee_clusters {W}.
Arguments ee_secrets {W}.
Arguments ee_pods {W}.
Arguments ee_jobs {W}.
Arguments ee_retry {W}.
Arguments ee_now {W}.
Arguments ee_event {W}.
Arguments ee_seedGetter {W}.
Arguments ee_configGetter {W}.
Arguments ee_poll {W}.
Arguments ee_specHash {W}.
Arguments ee_decode {W}.
Arguments ee_workerName {W}.
Arguments ee_overwriteRegistry {W}.
Arguments ee_versions {W}.

Definition encryption_key (cluster : Cluster) : NamespacedName :=
  mkKey (cs_namespaceName (cl_status cluster)) EncryptionConfigurationSecretName.

(** ** Helpers of [utils.go] *)

Fixpoint isEqualSlice (a b : list string) : bool :=
  match a, b with
  | [], [] => true
  | x :: a', y :: b' => if String.eqb x y then isEqualSlice a' b' else false
  | _, _ => false
  end.

Definition mergeSlice (a b : list string) : list string :=
  foldl (λ result element,
    if existsb (λ r, String.eqb r element) result then result else result ++ [element]) [] (a ++ b).

(** [Keys[0].Name]: an empty list panics. *)
Definition first_key (keys : list string) : outcome string :=
  match keys with
  | [] => Panic "index out of range [0] with length 0"
  | k :: _ => Ok (SecretboxPrefix +:+ "/" +:+ k)
  end.

Definition getConfiguredKey (cluster : Cluster) : outcome string :=
  match sp_encryptionConfiguration (cl_spec cluster) with
  | None => Ok IdentityKey
  | Some ec =>
      if negb (ec_enabled ec) then Ok IdentityKey else
      match ec_secretbox ec with
      | Some sb => first_key (map sk_name (sb_keys sb))
      | None => Err (ErrNew "no supported encryption provider found")
      end
  end.

(** The part of [getActiveConfiguration] after the configuration is decoded. *)
Definition activeConfiguration (config : list ResourceConfiguration) : outcome (string * list string) :=
  let unexpected := Err (ErrNew
    "unexpected apiserverconfigv1.EncryptionConfiguration: too many items in .resources or .resources[0].providers") in
  match config with
  | [r] =>
      match rc_providers r with
      | p :: rest =>
          if negb (bool_decide (length rest = 0%nat)) && negb (bool_decide (length rest = 1%nat)) then unexpected else
          keyName ← match pc_secretbox p with
                    | Some keys => first_key keys
                    | None => Ok (if pc_identity p then IdentityKey else "")
                    end;
          Ok (keyName, rc_resources r)
      | [] => unexpected
      end
  | _ => unexpected
  end.

Definition ImageRegistry (overwriteRegistry defaultRegistry : string) : string :=
  if negb (String.eqb overwriteRegistry "") then overwriteRegistry else defaultRegistry.

(** ** The re-encryption job *)

Definition encryptionJobScript (resourceList : string) : string :=
  nl +:+ "resources=$(kubectl get " +:+ resourceList +:+ " --all-namespaces --output json | jq -r '.items[] | "
  +:+ dq +:+ "\(.metadata.namespace // " +:+ dq +:+ "default" +:+ dq
  +:+ "):\(.kind):\(.metadata.name)" +:+ dq +:+ "');" +:+ nl
  +:+ "for res in $resources; do" +:+ nl
  +:+ "    ns=$(cut -d':' -f1 <<< $res);" +:+ nl
  +:+ "    kind=$(cut -d':' -f2 <<< $res);" +:+ nl
  +:+ "    name=$(cut -d':' -f3 <<< $res);" +:+ nl
  +:+ "    kubectl get $kind/$name --namespace $ns --output json | kubectl replace --filename -;" +:+ nl
  +:+ "done" +:+ nl.

Definition EncryptionJobCreator (overwriteRegistry : string) (cluster : Cluster) (secret : Secret)
    (res : list string) (key : string) : Job :=
  let resourceList := strings_Join res "," in
  mkJob
    (mkObjectMeta "" (cs_namespaceName (cl_status cluster)) ""
       (list_to_map [(AppLabelKey, AppLabelValue); (ClusterLabelKey, cl_name cluster);
                     (SecretRevisionLabelKey, om_resourceVersion (do_meta secret))])
       ∅ [] [] 0 None "")
    (EncryptionJobPrefix +:+ "-" +:+ cl_name cluster +:+ "-")
    (Some 0) (Some 1) (Some 1) None (Some 86400) "Never" true []
    [mkContainer "encryption-runner" (ImageRegistry overwriteRegistry RegistryQuay +:+ "/kubermatic/util:2.0.0")
       ["/bin/bash"; "-c"] [encryptionJobScript resourceList]
       [mkEnvVar "KUBECONFIG" "/opt/kubeconfig/kubeconfig" None]
       [mkVolumeMount "kubeconfig" "/opt/kubeconfig" true] ∅]
    [mkVolume "kubeconfig" (SecretVolume AdminKubeconfigSecretName)]
    [] 0 0.

(** ** The controller *)
Section encryption.
Context `{L : SemverLib} {W : Type} (env : EncryptionEnv W).

Definition isApiserverUpdated (cluster : Cluster) : M W bool :=
  r ← try (c_get (ee_secrets env) (encryption_key cluster));
  match r with
  | inl e => if IsNotFound e then mret false else throw e
  | inr secret =>
      hash ← lift (ee_specHash env (sp_encryptionConfiguration (cl_spec cluster)));
      if negb (bool_decide (om_labels (do_meta secret) !! ApiserverEncryptionHashLabelKey = Some hash))
      then mret false else
      podList ← c_list (ee_pods env)
        (mkListOptions (cs_namespaceName (cl_status cluster)) [(AppLabelKey, "apiserver")]);
      if bool_decide (length podList = 0%nat) then mret false else
      mret (forallb (λ pod, bool_decide (om_labels (mo_meta pod) !! ApiserverEncryptionRevisionLabelKey
                                         = Some (om_resourceVersion (do_meta secret)))) podList)
  end.

Definition getActiveConfiguration (cluster : Cluster) : M W (string * list string) :=
  secret ← c_get (ee_secrets env) (encryption_key cluster);
  config ← match do_data secret !! EncryptionConfigurationKeyName with
           | Some data => lift (ee_decode env data)
           | None => mret []
           end;
  lift (activeConfiguration config).

Definition getClusterTemplateData (cluster : Cluster) (seed : Seed) : M W string :=
  match seed_datacenters seed !! sp_datacenterName (cl_spec cluster) with
  | None => throw (ErrNew ("failed to get datacenter " +:+ sp_datacenterName (cl_spec cluster)))
  | Some _ => mret (ee_overwriteRegistry env)
  end.

Definition enc_update (cluster : Cluster) (patch : Cluster → M W Cluster) : M W Cluster :=
  UpdateClusterStatus (ee_clusters env) (ee_retry env) cluster patch.

(** Writing through [c.Status.Encryption], which is a pointer. *)
Definition on_encryption (f : ClusterEncryptionStatus → ClusterEncryptionStatus) (c : Cluster) : M W Cluster :=
  match cs_encryption (cl_status c) with
  | None => panic "invalid memory address or nil pointer dereference"
  | Some e => mret (set_cl_status (set_encryption (Some (f e)) (cl_status c)) c)
  end.
Definition enc_phase (p : string) (e : ClusterEncryptionStatus) : ClusterEncryptionStatus :=
  mkClusterEncryptionStatus (ce_activeKey e) (ce_encryptedResources e) p.

Definition encryption_jobs (cluster : Cluster) (secret : Secret) : ListOptions :=
  mkListOptions "" [(ClusterLabelKey, cl_name cluster);
                    (SecretRevisionLabelKey, om_resourceVersion (do_meta secret))].

Definition createEncryptionJob (cluster : Cluster) (secret : Secret) (resourceList : list string)
    (key : string) : M W unit :=
  seed ← ee_seedGetter env;
  _ ← ee_configGetter env;
  data ← getClusterTemplateData cluster seed;
  encrypted ← match cs_encryption (cl_status cluster) with
              | None => panic "invalid memory address or nil pointer dereference"
              | Some e => mret (ce_encryptedResources e)
              end;
  job ← c_create (ee_jobs env)
    (EncryptionJobCreator data cluster secret (mergeSlice resourceList encrypted) key);
  wrap "failed waiting for the Job to appear in the cache"
    (ee_poll env (WaitUntilObjectExistsInCache (ee_jobs env) (object_key job))).

Definition encryptData (cluster : Cluster) : M W (option Result) :=
  '(key, resourceList) ← getActiveConfiguration cluster;
  secret ← c_get (ee_secrets env) (encryption_key cluster);
  jobList ← c_list (ee_jobs env) (encryption_jobs cluster secret);
  match jobList with
  | [] => _ ← createEncryptionJob cluster secret resourceList key; mret (Some emptyResult)
  | job :: _ =>
      if job_succeeded job =? 1 then
        _ ← enc_update cluster (on_encryption (λ _,
              mkClusterEncryptionStatus key resourceList ClusterEncryptionPhaseActive));
        mret (Some emptyResult)
      else if 0 <? job_failed job then
        _ ← enc_update cluster (on_encryption (enc_phase ClusterEncryptionPhaseFailed));
        mret (Some emptyResult)
      else mret (Some emptyResult)
  end.

Definition init_encryption (c : Cluster) : Cluster :=
  match cs_encryption (cl_status c) with
  | Some _ => c
  | None => set_cl_status (set_encryption
              (Some (mkClusterEncryptionStatus "" [] ClusterEncryptionPhasePending)) (cl_status c)) c
  end.

Definition setInitializedCondition (cluster : Cluster) : M W (option Result) :=
  _ ← enc_update cluster (λ c,
        SetClusterCondition (ee_now env) (ee_versions env) ClusterConditionEncryptionInitialized ConditionTrue ""
          "Cluster data encryption has been initialized" (init_encryption c));
  mret (Some emptyResult).

(** The phase [Pending] of [reconcile]. *)
Definition enc_pending (cluster : Cluster) : M W (option Result) :=
  isUpdated ← isApiserverUpdated cluster;
  if negb isUpdated then mret (Some (mkResult false (10 * Second))) else
  '(keyHint, resourceList) ← getActiveConfiguration cluster;
  _ ← enc_update cluster (on_encryption (λ e,
        if negb (String.eqb (ce_activeKey e) keyHint) ||
           negb (isEqualSlice (ce_encryptedResources e) resourceList)
        then enc_phase ClusterEncryptionPhaseEncryptionNeeded e
        else enc_phase ClusterEncryptionPhaseActive e));
  mret (Some emptyResult).

(** The phase [Active]; after the first update [cluster] is the object that was
    read and written there. *)
Definition enc_active (cluster : Cluster) (e : ClusterEncryptionStatus) : M W (option Result) :=
  configuredKey ← lift (getConfiguredKey cluster);
  cluster ← (if negb (String.eqb (ce_activeKey e) configuredKey)
             then enc_update cluster (on_encryption (enc_phase ClusterEncryptionPhasePending))
             else mret cluster);
  match cs_encryption (cl_status cluster) with
  | None => panic "invalid memory address or nil pointer dereference"
  | Some e =>
      if String.eqb (ce_activeKey e) IdentityKey && negb (IsEncryptionEnabled cluster) then
        _ ← enc_update cluster (λ c,
              SetClusterCondition (ee_now env) (ee_versions env) ClusterConditionEncryptionInitialized
                ConditionFalse "" "Cluster data encryption has been removed"
                (set_cl_status (set_encryption None (cl_status c)) c));
        mret (Some emptyResult)
      else mret (Some emptyResult)
  end.

Definition enc_reconcile (cluster : Cluster) : M W (option Result) :=
  if IsEncryptionEnabled cluster && negb (IsEncryptionActive cluster) then setInitializedCondition cluster else
  match cs_encryption (cl_status cluster) with
  | None => throw (ErrNew "expected cluster.status.encryption to exist, but is nil")
  | Some e =>
      if String.eqb (ce_phase e) ClusterEncryptionPhasePending then enc_pending cluster
      else if String.eqb (ce_phase e) ClusterEncryptionPhaseEncryptionNeeded then encryptData cluster
      else if String.eqb (ce_phase e) ClusterEncryptionPhaseActive then enc_active cluster e
      else mret (Some emptyResult)
  end.

Definition enc_Reconcile (request : NamespacedName) : M W (Result * option error) :=
  r ← try (c_get (ee_clusters env) request);
  match r with
  | inl e => if IsNotFound e then mret (emptyResult, None) else mret (emptyResult, Some e)
  | inr cluster =>
      if negb (IsEncryptionEnabled cluster || IsEncryptionActive cluster) then mret (emptyResult, None) else
      '(result, err) ← ClusterReconcileWrapper (ee_clusters env) (ee_retry env) (ee_now env)
         (ee_workerName env) cluster (ee_versions env) ClusterConditionEncryptionControllerReconcilingSuccess
         (reconciled (enc_reconcile cluster));
      _ ← match (err : option error) with
          | Some e => emit (ee_event env "Warning" "ReconcilingError" (error_string e))
          | None => mret tt
          end;
      mret (default emptyResult result, err)
  end.
End encryption.
