(* ===== verification/EncryptionSpec.v ===== *)
(** * What the encryption controller guarantees

    The phases of a cluster's encryption form a state machine whose transitions
    carry evidence: a configuration that every API server uses, a job of the
    current configuration that finished. *)

From S2P Require Import Prelude ResourceNames Kube Semver CloudApi ClusterApi Helper HelperSpec Corev1 EtcdBackup Reconciling Encryption.

(** ** Slices *)

Lemma isEqualSlice_spec a b : isEqualSlice a b = true ↔ a = b.
Proof.
  revert b. induction a as [|x a IH]; intros [|y b]; simpl; try (by split).
  destruct (String.eqb_spec x y) as [->|]; [rewrite IH; split; congruence|]. split; congruence.
Qed.

Lemma merge_step_elem (l acc : list string) (x : string) :
  x ∈ foldl (λ result element,
    if existsb (λ r, String.eqb r element) result then result else result ++ [element]) acc l ↔ x ∈ acc ∨ x ∈ l.
Proof.
  revert acc. induction l as [|y l IH]; intros acc; simpl; [set_solver|]. rewrite IH.
  destruct (existsb _ acc) eqn:E; [|set_solver].
  apply existsb_true_iff in E as (z & Hz & ->%String.eqb_eq). set_solver.
Qed.

Lemma merge_step_NoDup (l acc : list string) :
  NoDup acc → NoDup (foldl (λ result element,
    if existsb (λ r, String.eqb r element) result then result else result ++ [element]) acc l).
Proof.
  revert acc. induction l as [|y l IH]; intros acc Hn; simpl; [done|]. apply IH.
  destruct (existsb _ acc) eqn:E; [done|]. apply NoDup_app. split_and!; [done| |by apply NoDup_singleton].
  intros x Hx Hy. apply list_elem_of_singleton in Hy as ->.
  assert (existsb (λ r, String.eqb r y) acc = true) as E2; [|congruence].
  apply existsb_true_iff. exists y. by rewrite String.eqb_refl.
Qed.

(** The resources that a re-encryption job rewrites are exactly those that the
    new configuration names and those that were encrypted before, each once. *)
Theorem mergeSlice_spec a b :
  NoDup (mergeSlice a b) ∧ ∀ x, x ∈ mergeSlice a b ↔ x ∈ a ∨ x ∈ b.
Proof.
  unfold mergeSlice. split; [apply merge_step_NoDup, NoDup_nil_2|].
  intros x. rewrite merge_step_elem. set_solver.
Qed.

(** ** The world of the controller

    Secrets, pods and jobs as the API server has them; the reads see them, and none
    of the reads changes them or the cluster. *)
Class EncryptionWorld {W} `{SemverLib, WireTime} (env : EncryptionEnv W) := {
  ew_clusters :: ClusterWorld (ee_clusters env);
  ew_store : W → gmap NamespacedName Secret * (ListOptions → list MetaObject) * (ListOptions → list Job);
  ew_now : ∀ k, keeps (cview k) (read (ee_now env));
  ew_get_secret : ∀ k key, keeps (λ w, (cview k w, ew_store w)) (c_get (ee_secrets env) key);
  ew_get_secret_ok : ∀ key w s w', c_get (ee_secrets env) key w = (Ok s, w') → (ew_store w).1.1 !! key = Some s;
  ew_list_pods : ∀ k o, keeps (λ w, (cview k w, ew_store w)) (c_list (ee_pods env) o);
  ew_list_pods_ok : ∀ o w l w', c_list (ee_pods env) o w = (Ok l, w') → (ew_store w).1.2 o = l;
  ew_list_jobs : ∀ k o, keeps (λ w, (cview k w, ew_store w)) (c_list (ee_jobs env) o);
  ew_list_jobs_ok : ∀ o w l w', c_list (ee_jobs env) o w = (Ok l, w') → (ew_store w).2 o = l;
  ew_get_job : ∀ k key, keeps (cview k) (c_get (ee_jobs env) key);
  ew_create_job : ∀ k j, keeps (cview k) (c_create (ee_jobs env) j);
  ew_seed : ∀ k, keeps (cview k) (ee_seedGetter env);
  ew_config : ∀ k, keeps (cview k) (ee_configGetter env);
  ew_poll : ∀ k m, keeps (cview k) m → keeps (cview k) (ee_poll env m);
}.
#[export] Hint Resolve ew_now ew_get_secret ew_list_pods ew_list_jobs ew_get_job ew_create_job ew_seed ew_config
  : kkp_frame.

Section machine.
Context `{L : SemverLib, WireTime} {W : Type} (env : EncryptionEnv W) `{!EncryptionWorld env}.

(** ** Evidence *)

Abbreviation store := (gmap NamespacedName Secret * (ListOptions → list MetaObject) * (ListOptions → list Job))%type.

(** The stored configuration names [key] as the primary key and [res] as the
    resources to encrypt. *)
Definition configures (st : store) (c : Cluster) (secret : Secret) (key : string) (res : list string) : Prop :=
  st.1.1 !! encryption_key c = Some secret ∧
  ∃ config, activeConfiguration config = Ok (key, res) ∧
    match do_data secret !! EncryptionConfigurationKeyName with
    | Some data => ee_decode env data = Ok config
    | None => config = []
    end.

(** The stored configuration was generated from the spec, there are API servers,
    and all of them run with this revision of it. *)
Definition apiservers_current (st : store) (c : Cluster) (secret : Secret) : Prop :=
  st.1.1 !! encryption_key c = Some secret ∧
  (∃ hash, ee_specHash env (sp_encryptionConfiguration (cl_spec c)) = Ok hash ∧
     om_labels (do_meta secret) !! ApiserverEncryptionHashLabelKey = Some hash) ∧
  let pods := st.1.2 (mkListOptions (cs_namespaceName (cl_status c)) [(AppLabelKey, "apiserver")]) in
  pods ≠ [] ∧ Forall (λ p, om_labels (mo_meta p) !! ApiserverEncryptionRevisionLabelKey
                           = Some (om_resourceVersion (do_meta secret))) pods.

(** The first job that ran for this revision of the configuration. *)
Definition job_of (st : store) (c : Cluster) (secret : Secret) (j : Job) : Prop :=
  head (st.2 (encryption_jobs c secret)) = Some j.

Inductive enc_step (st : store) (c : Cluster) :
  option ClusterEncryptionStatus → option ClusterEncryptionStatus → Prop :=
| es_stay s : enc_step st c s s
| es_init :
    IsEncryptionEnabled c = true →
    enc_step st c None (Some (mkClusterEncryptionStatus "" [] ClusterEncryptionPhasePending))
| es_needed e secret key res :
    ce_phase e = ClusterEncryptionPhasePending → apiservers_current st c secret →
    configures st c secret key res → (ce_activeKey e, ce_encryptedResources e) ≠ (key, res) →
    enc_step st c (Some e) (Some (enc_phase ClusterEncryptionPhaseEncryptionNeeded e))
| es_current e secret :
    ce_phase e = ClusterEncryptionPhasePending → apiservers_current st c secret →
    configures st c secret (ce_activeKey e) (ce_encryptedResources e) →
    enc_step st c (Some e) (Some (enc_phase ClusterEncryptionPhaseActive e))
| es_encrypted e secret key res j :
    ce_phase e = ClusterEncryptionPhaseEncryptionNeeded → configures st c secret key res →
    job_of st c secret j → job_succeeded j = 1 →
    enc_step st c (Some e) (Some (mkClusterEncryptionStatus key res ClusterEncryptionPhaseActive))
| es_failed e secret j :
    ce_phase e = ClusterEncryptionPhaseEncryptionNeeded → job_of st c secret j → 0 < job_failed j →
    enc_step st c (Some e) (Some (enc_phase ClusterEncryptionPhaseFailed e))
| es_rotate e key :
    ce_phase e = ClusterEncryptionPhaseActive → getConfiguredKey c = Ok key → ce_activeKey e ≠ key →
    enc_step st c (Some e) (Some (enc_phase ClusterEncryptionPhasePending e))
| es_reset e :
    ce_phase e = ClusterEncryptionPhaseActive → ce_activeKey e = IdentityKey → IsEncryptionEnabled c = false →
    enc_step st c (Some e) None.

(** ** Status updates *)

(** What an update leaves in the store, as far as encryption is concerned. *)
Lemma enc_update_inv k patch c v w r w' :
  (∀ c, keeps (cview k) (patch c)) → status_only patch → object_key c = k → cview k w = Some v →
  enc_update env c patch w = (r, w') →
  ∃ v', cview k w' = Some v' ∧ cl_spec v' = cl_spec v ∧
    ((cs_encryption (cl_status v') = cs_encryption (cl_status v) ∧ ∀ x, r ≠ Ok x) ∨
     ∃ c1 w1 w2, patch v w1 = (Ok c1, w2) ∧ cs_encryption (cl_status v') = cs_encryption (cl_status c1) ∧
       ∀ x, r = Ok x → object_key x = k ∧ cl_spec x = cl_spec v ∧
         cs_encryption (cl_status x) = cs_encryption (cl_status c1)).
Proof.
  intros Hkeep Hso Hk Hv E. pose proof (cview_key _ _ _ Hv) as Hkv.
  apply (UpdateClusterStatus_inv _ _ k _ c v) in E as [Hu _]; [|done..].
  destruct Hu as [Hw Hsame|rv old c1 w1 w2 Hd Hc1 _ Hw Hr].
  - exists v. split_and!; [done..|]. destruct r as [x|e|p|]; [right|left; by split..].
    destruct (Hsame x eq_refl) as (old & w1 & w2 & Hd & Hx & Hst). exists x, w1, w2.
    destruct (Hso _ _ _ _ Hx) as [_ Hm]. destruct (Hm _ eq_refl) as [Hm1 Hs1].
    split_and!; [done| |].
    + unfold Cluster_DeepCopy in Hd. o_inv. apply (f_equal cs_encryption) in Hst. done.
    + intros y [= <-]. split_and!; [by rewrite (object_key_meta _ _ Hm1)|done..].
  - eexists. split_and!; [exact Hw|done|]. right. exists c1, w1, w2. split_and!; [done..|].
    intros x ->%Hr. done.
Qed.

Lemma on_encryption_status_only f : status_only (W := W) (on_encryption f).
Proof.
  intros c w r w'. unfold on_encryption. destruct (cs_encryption (cl_status c)); intros [= <- <-]; [|done].
  split; [done|]. by intros ? [= <-].
Qed.

Lemma on_encryption_inv f (c c1 : Cluster) (w1 w2 : W) :
  on_encryption f c w1 = (Ok c1, w2) →
  ∃ e, cs_encryption (cl_status c) = Some e ∧ cs_encryption (cl_status c1) = Some (f e).
Proof. unfold on_encryption. destruct (cs_encryption (cl_status c)) as [e|]; [|done]. intros [= <- _]. eauto. Qed.

Lemma condition_status_only t s r m g :
  (∀ c, cl_meta (g c) = cl_meta c ∧ cl_spec (g c) = cl_spec c) →
  status_only (λ c, SetClusterCondition (ee_now env) (ee_versions env) t s r m (g c)).
Proof.
  intros Hg c w o w' E. destruct (SetClusterCondition_status_only _ _ _ _ _ _ _ _ _ _ E) as [He Hm].
  split; [done|]. intros c' Hc'. destruct (Hm c' Hc') as [-> ->]. apply Hg.
Qed.

Lemma condition_encryption t s r m c w c' w' :
  SetClusterCondition (ee_now env) (ee_versions env) t s r m c w = (Ok c', w') →
  cs_encryption (cl_status c') = cs_encryption (cl_status c).
Proof.
  intros E. destruct (SetClusterCondition_cases (ee_now env) (ee_versions env) t s r m c w)
    as [(? & _ & _ & _ & _ & _ & E')|(? & ? & _ & E')]; rewrite E in E'; by injection E' as -> ->.
Qed.

(** ** The machine *)

Definition stepped (k : NamespacedName) (v : Cluster) (st : store) (w' : W) : Prop :=
  ∃ v', cview k w' = Some v' ∧ enc_step st v (cs_encryption (cl_status v)) (cs_encryption (cl_status v')).

Lemma stepped_keeps {A} k v st (m : M W A) w :
  keeps (λ w, (cview k w, ew_store w)) m → cview k w = Some v →
  triple (stepped k v st) w m (λ a w', m w = (Ok a, w') ∧ cview k w' = Some v ∧ ew_store w' = ew_store w).
Proof.
  intros Hm Hv r w' E. pose proof (Hm _ _ _ E) as [= Hc Hst]. rewrite Hv in Hc.
  split; [exists v; split; [done|apply es_stay]|]. intros a ->. done.
Qed.

Lemma stepped_view {A} k v st (m : M W A) w :
  keeps (cview k) m → cview k w = Some v → triple (stepped k v st) w m (λ _ _, True).
Proof.
  intros Hm Hv r w' E. pose proof (Hm _ _ _ E) as Hc. rewrite Hv in Hc.
  split; [exists v; split; [done|apply es_stay]|done].
Qed.

(** An update that is the last effect of a run. *)
Lemma stepped_update k v st patch (res : option Result) w :
  (∀ c, keeps (cview k) (patch c)) → status_only patch → cview k w = Some v →
  (∀ c1 w1 w2, patch v w1 = (Ok c1, w2) →
     enc_step st v (cs_encryption (cl_status v)) (cs_encryption (cl_status c1))) →
  triple (stepped k v st) w (_ ← enc_update env v patch; mret res) (λ _ _, True).
Proof.
  intros Hkeep Hso Hv Hstep. pose proof (cview_key _ _ _ Hv) as Hkv. apply triple_bind with (Q1 := λ _, stepped k v st).
  - intros r w' E. apply (enc_update_inv k _ _ v) in E as (v' & Hv' & _ & Hc); [|done..].
    assert (stepped k v st w'); [|done]. exists v'. split; [done|].
    destruct Hc as [[-> _]|(c1 & w1 & w2 & Hp & -> & _)]; [apply es_stay|by eapply Hstep].
  - intros _ w1 Hw1. by apply triple_ret.
Qed.

Lemma getActiveConfiguration_triple k v st w :
  cview k w = Some v →
  triple (stepped k v st) w (getActiveConfiguration env v) (λ kr w',
    cview k w' = Some v ∧ ew_store w' = ew_store w ∧ ∃ secret, configures (ew_store w) v secret kr.1 kr.2).
Proof.
  intros Hv. unfold getActiveConfiguration.
  eapply triple_bind; [apply stepped_keeps; [apply ew_get_secret|done]|].
  intros secret w1 (E%ew_get_secret_ok & Hv1 & Hs1).
  intros r w' E'. assert (Hkeep : keeps (λ w, (cview k w, ew_store w)) (
    config ← match do_data secret !! EncryptionConfigurationKeyName with
           | Some data => lift (ee_decode env data)
           | None => mret []
           end; lift (activeConfiguration config))) by (frame).
  pose proof (Hkeep _ _ _ E') as [= Hc Hst]. rewrite Hv1 in Hc.
  split; [exists v; split; [done|apply es_stay]|]. intros [key res] ->.
  split_and!; [done|by rewrite Hst|]. exists secret. split; [done|].
  apply bind_ok_inv in E' as (config & w2 & E1 & E2). apply lift_ok_inv in E2 as [E2 _].
  exists config. split; [done|]. destruct (do_data secret !! _).
  - by apply lift_ok_inv in E1 as [? _].
  - by apply ret_ok_inv in E1 as [<- _].
Qed.

Lemma isApiserverUpdated_triple k v st w :
  cview k w = Some v →
  triple (stepped k v st) w (isApiserverUpdated env v) (λ b w',
    cview k w' = Some v ∧ ew_store w' = ew_store w ∧
    (b = true → ∃ secret, apiservers_current (ew_store w) v secret)).
Proof.
  intros Hv r w' E. assert (Hkeep : keeps (λ w, (cview k w, ew_store w)) (isApiserverUpdated env v)).
  { unfold isApiserverUpdated. frame. }
  pose proof (Hkeep _ _ _ E) as [= Hc Hst]. rewrite Hv in Hc.
  split; [exists v; split; [done|apply es_stay]|]. intros b ->. split_and!; [done..|]. intros ->.
  unfold isApiserverUpdated in E. apply bind_ok_inv in E as (rs & w1 & Er & E).
  apply try_ok_inv in Er as [(secret & -> & Er)|(e & -> & _)]; [|by destruct (IsNotFound e)].
  pose proof (ew_get_secret k _ _ _ _ Er) as [= _ Hst1]. apply ew_get_secret_ok in Er.
  apply bind_ok_inv in E as (hash & w2 & Eh & E). apply lift_ok_inv in Eh as [Eh <-].
  case_bool_decide as Hl; [|done]. simpl in E. apply bind_ok_inv in E as (pods & w2 & Ep & E).
  apply ew_list_pods_ok in Ep. rewrite Hst1 in Ep. case_bool_decide as Hlen; [done|].
  apply ret_ok_inv in E as [Hall _]. exists secret. split_and!; [done|by exists hash|].
  cbv zeta. rewrite Ep. split; [by intros ->|]. apply Forall_forall. intros p Hp.
  rewrite forallb_forall in Hall. apply list_elem_of_In, Hall, bool_decide_eq_true in Hp. done.
Qed.

Lemma pending_step k v e w :
  cview k w = Some v → cs_encryption (cl_status v) = Some e → ce_phase e = ClusterEncryptionPhasePending →
  triple (stepped k v (ew_store w)) w (enc_pending env v) (λ _ _, True).
Proof.
  intros Hv He Hph. unfold enc_pending.
  eapply triple_bind; [by apply isApiserverUpdated_triple|]. intros b w1 (Hv1 & Hs1 & Hb).
  destruct b; simpl; [|apply triple_ret; [|done]; exists v; split; [done|apply es_stay]].
  destruct (Hb eq_refl) as [secret Hcur].
  eapply triple_bind; [by apply getActiveConfiguration_triple|].
  intros [key res] w2 (Hv2 & Hs2 & secret' & Hconf). simpl in Hconf. rewrite Hs1 in Hconf.
  assert (secret' = secret) as -> by (destruct Hconf as [H1 _], Hcur as [H2 _]; congruence).
  apply stepped_update; [|apply on_encryption_status_only|done|].
  { intros c. unfold on_encryption. frame. }
  intros c1 w3 w4 (e' & He' & ->)%on_encryption_inv. rewrite He in He' |- *. injection He' as <-.
  destruct (String.eqb_spec (ce_activeKey e) key) as [<-|Hne]; simpl.
  - destruct (isEqualSlice (ce_encryptedResources e) res) eqn:Eq; simpl.
    + apply isEqualSlice_spec in Eq as <-. by eapply es_current.
    + eapply es_needed; [done..|]. intros [= Heq]. by rewrite (proj2 (isEqualSlice_spec _ _) Heq) in Eq.
  - eapply es_needed; [done..|]. by intros [= ? ?].
Qed.

Lemma encrypt_step k v e w :
  cview k w = Some v → cs_encryption (cl_status v) = Some e →
  ce_phase e = ClusterEncryptionPhaseEncryptionNeeded →
  triple (stepped k v (ew_store w)) w (encryptData env v) (λ _ _, True).
Proof.
  intros Hv He Hph. unfold encryptData.
  eapply triple_bind; [by apply getActiveConfiguration_triple|].
  intros [key res] w1 (Hv1 & Hs1 & secret & Hconf). simpl in Hconf.
  eapply triple_bind; [apply stepped_keeps; [apply ew_get_secret|done]|].
  intros secret' w2 (E%ew_get_secret_ok & Hv2 & Hs2). rewrite Hs1 in E.
  assert (secret' = secret) as -> by (destruct Hconf as [H1 _]; congruence).
  eapply triple_bind; [apply stepped_keeps; [apply ew_list_jobs|done]|].
  intros jobs w3 (Ej%ew_list_jobs_ok & Hv3 & Hs3). rewrite Hs2, Hs1 in Ej.
  destruct jobs as [|j jobs].
  { apply stepped_view; [|done]. unfold createEncryptionJob, getClusterTemplateData. frame.
    apply ew_poll. unfold WaitUntilObjectExistsInCache. frame. }
  assert (Hjob : job_of (ew_store w) v secret j) by (unfold job_of; by rewrite Ej).
  assert (Hkeep : ∀ f c, keeps (cview k) (on_encryption f c)) by (intros; unfold on_encryption; frame).
  destruct (Z.eqb_spec (job_succeeded j) 1) as [Hsucc|_].
  { apply stepped_update; [done|apply on_encryption_status_only|done|].
    intros c1 w4 w5 (e' & He' & ->)%on_encryption_inv. rewrite He. by eapply es_encrypted. }
  destruct (Z.ltb_spec 0 (job_failed j)) as [Hfail|_].
  { apply stepped_update; [done|apply on_encryption_status_only|done|].
    intros c1 w4 w5 (e' & He' & ->)%on_encryption_inv. rewrite He in He' |- *. injection He' as <-.
    by eapply es_failed. }
  apply triple_ret; [|done]. exists v. split; [done|apply es_stay].
Qed.
Lemma enabled_spec c c' : cl_spec c = cl_spec c' → IsEncryptionEnabled c = IsEncryptionEnabled c'.
Proof. unfold IsEncryptionEnabled. by intros ->. Qed.

Lemma active_step k v e w st :
  cview k w = Some v → cs_encryption (cl_status v) = Some e → ce_phase e = ClusterEncryptionPhaseActive →
  triple (stepped k v st) w (enc_active env v e) (λ _ _, True).
Proof.
  intros Hv He Hph. unfold enc_active.
  eapply triple_bind; [apply stepped_keeps; [frame|done]|].
  intros key w1 (Hkey & Hv1 & _). apply lift_ok_inv in Hkey as [Hkey _].
  (* the object and the store after the first update *)
  apply triple_bind with (Q1 := λ c w2, ∃ v2 e2, cview k w2 = Some v2 ∧ object_key c = k ∧
    cl_spec c = cl_spec v ∧ cs_encryption (cl_status c) = Some e2 ∧ ce_activeKey e2 = ce_activeKey e ∧
    enc_step st v (Some e) (cs_encryption (cl_status v2))).
  { pose proof (cview_key _ _ _ Hv) as Hkv. destruct (String.eqb_spec (ce_activeKey e) key) as [Hk|Hne]; simpl.
    - apply triple_ret.
      + exists v. split; [done|apply es_stay].
      + exists v, e. split_and!; [done..|]. rewrite He. apply es_stay.
    - intros r w' E. apply (enc_update_inv k _ _ v) in E as (v' & Hv' & _ & Hc);
        [|intros; unfold on_encryption; frame|apply on_encryption_status_only|done..].
      destruct Hc as [[Hsame Hno]|(c1 & w2 & w3 & Hp & Hc & Hx)].
      + split; [exists v'; split; [done|]; rewrite Hsame; apply es_stay|]. intros a ->. by destruct (Hno a).
      + apply on_encryption_inv in Hp as (e' & He' & Hc1). rewrite He in He'. injection He' as <-.
        assert (Hst : enc_step st v (Some e) (cs_encryption (cl_status v'))).
        { rewrite Hc, Hc1. by eapply es_rotate. }
        split; [exists v'; split; [done|by rewrite He]|].
        intros x ->. destruct (Hx x eq_refl) as (Hkx & Hspx & Hex). rewrite Hc1 in Hex.
        exists v', (enc_phase ClusterEncryptionPhasePending e). done. }
  intros c w2 (v2 & e2 & Hv2 & Hk2 & Hsp & He2 & Hact & Hst). rewrite He2.
  assert (Hstay : stepped k v st w2) by (exists v2; split; [done|by rewrite He]).
  destruct (String.eqb_spec (ce_activeKey e2) IdentityKey) as [Hid|_]; simpl; [|by apply triple_ret].
  destruct (IsEncryptionEnabled c) eqn:Een; simpl; [by apply triple_ret|].
  rewrite (enabled_spec c v Hsp) in Een. rewrite Hact in Hid.
  apply triple_bind with (Q1 := λ _, stepped k v st); [|intros _ w3 Hw3; by apply triple_ret].
  intros r w' E. apply (enc_update_inv k _ _ v2) in E as (v' & Hv' & _ & Hc);
    [|intros; unfold SetClusterCondition; frame|by apply condition_status_only|done..].
  assert (stepped k v st w'); [|done]. exists v'. split; [done|]. rewrite He.
  destruct Hc as [[-> _]|(c1 & w4 & w5 & Hp%condition_encryption & -> & _)]; [done|].
  rewrite Hp. by apply es_reset.
Qed.

Lemma init_step k v w st :
  cview k w = Some v → IsEncryptionEnabled v = true →
  triple (stepped k v st) w (setInitializedCondition env v) (λ _ _, True).
Proof.
  intros Hv Hen. apply stepped_update; [intros; unfold SetClusterCondition; frame| |done|].
  - apply condition_status_only. intros c. unfold init_encryption. by destruct (cs_encryption (cl_status c)).
  - intros c1 w1 w2 ->%condition_encryption. unfold init_encryption.
    destruct (cs_encryption (cl_status v)) eqn:E; [rewrite E; apply es_stay|by apply es_init].
Qed.

(** C5: one run of the encryption controller, whatever its outcome, moves the
    stored encryption status along one edge of the state machine [enc_step]:
    pending becomes active or in need of encryption only when all API servers run
    the current configuration, a cluster in need of encryption becomes active
    only after a job for the current configuration succeeded, and then with the
    key and resources of that configuration, and the status is dropped only when
    the data is unencrypted and encryption is no longer wanted. *)
Theorem encryption_phases k v w r w' :
  cview k w = Some v → enc_reconcile env v w = (r, w') →
  ∃ v', cview k w' = Some v' ∧
    enc_step (ew_store w) v (cs_encryption (cl_status v)) (cs_encryption (cl_status v')).
Proof.
  intros Hv E. enough (triple (stepped k v (ew_store w)) w (enc_reconcile env v) (λ _ _, True)) as Ht.
  { by apply Ht in E as [? _]. }
  clear E. assert (Hstay : stepped k v (ew_store w) w) by (exists v; split; [done|apply es_stay]).
  unfold enc_reconcile. destruct (IsEncryptionEnabled v && negb (IsEncryptionActive v)) eqn:Ei.
  { apply andb_true_iff in Ei as [? _]. by apply init_step. }
  destruct (cs_encryption (cl_status v)) as [e|] eqn:He; [|apply stepped_view; [frame|done]].
  destruct (String.eqb_spec (ce_phase e) ClusterEncryptionPhasePending); [by eapply pending_step|].
  destruct (String.eqb_spec (ce_phase e) ClusterEncryptionPhaseEncryptionNeeded); [by eapply encrypt_step|].
  destruct (String.eqb_spec (ce_phase e) ClusterEncryptionPhaseActive); [by eapply active_step|].
  by apply triple_ret.
Qed.

Definition with_resources (rs : list string) (c : Cluster) : Cluster :=
  match sp_encryptionConfiguration (cl_spec c) with
  | None => c
  | Some ec =>
      set_cl_spec (set_encryptionConfiguration
        (Some (mkEncryptionConfiguration (ec_enabled ec) rs (ec_secretbox ec))) (cl_spec c)) c
  end.

(** An active cluster whose primary key does not change is left alone, no
    matter to which list of resources its spec changes: the status keeps the old
    list, and no job encrypts the new resources. *)
Theorem resources_change_ignored c e w :
  IsEncryptionEnabled c = true → IsEncryptionActive c = true →
  cs_encryption (cl_status c) = Some e → ce_phase e = ClusterEncryptionPhaseActive →
  getConfiguredKey c = Ok (ce_activeKey e) →
  ∀ rs, enc_reconcile env (with_resources rs c) w = (Ok (Some emptyResult), w).
Proof.
  intros Hen Hact He Hph Hkey rs.
  assert (IsEncryptionEnabled (with_resources rs c) = true ∧ getConfiguredKey (with_resources rs c) = Ok (ce_activeKey e)
    ∧ cl_status (with_resources rs c) = cl_status c) as (Hen' & Hkey' & Hs).
  { revert Hen Hkey. unfold with_resources, IsEncryptionEnabled, getConfiguredKey.
    by destruct (sp_encryptionConfiguration (cl_spec c)) as [[]|] eqn:E; simpl; rewrite ?E. }
  unfold enc_reconcile, IsEncryptionActive in *. rewrite Hen', Hs, Hact, He, Hph. simpl.
  unfold enc_active, mbind, M_MBind, M_bind, lift. rewrite Hkey', String.eqb_refl. simpl.
  unfold mret, M_MRet, M_ret. rewrite Hs, He, Hen', andb_false_r. done.
Qed.
End machine.
