(* ===== verification/Ipam.v ===== *)
(** * The IPAM controller

    [pkg/controller/user-cluster-controller-manager/ipam/ipam_controller.go]: gives
    every machine that asks for it a free address from the configured ranges. *)

From S2P Require Import Prelude ResourceNames Kube Helper Corev1 Net.

(** ** Addresses *)

Record Network := mkNetwork {
  n_IP : IP;
  n_IPNet : IPNet;
  n_Gateway : IP;
  n_DNSServers : list IP;
}.

(** [inc]: from the last byte on, until one does not wrap. *)
Fixpoint inc_carry (ip : IP) : bool * IP :=
  match ip with
  | [] => (true, [])
  | b :: rest =>
      let '(carry, rest') := inc_carry rest in
      if carry then let b' := (b + 1) `mod` 256 in (b' =? 0, b' :: rest') else (false, b :: rest')
  end.

Definition inc (ip : IP) : IP := (inc_carry ip).2.

Definition ipsContains (haystack : list IP) (needle : IP) : bool := existsb (λ ip, IP_Equal ip needle) haystack.

Definition exhausted : error := ErrNew "cidr exhausted".

(** The loop of [getNextFreeIPForCIDR]. *)
Fixpoint nextFree (fuel : nat) (network : Network) (usedIps : list IP) (ip : IP) : outcome IP :=
  if negb (Contains (n_IPNet network) ip) then Err exhausted else
  match fuel with
  | O => OutOfFuel
  | S fuel =>
      match last ip with
      | None => Panic "index out of range [-1]"
      | Some b =>
          if (b =? 0) || (b =? 255) || IP_Equal ip (n_Gateway network)
          then nextFree fuel network usedIps (inc ip)
          else if negb (ipsContains usedIps ip) then Ok ip
          else nextFree fuel network usedIps (inc ip)
      end
  end.

Definition getNextFreeIPForCIDR (fuel : nat) (network : Network) (usedIps : list IP) : outcome IP :=
  nextFree fuel network usedIps (IP_Mask (n_IP network) (in_Mask (n_IPNet network))).

(** The first range with a free address. *)
Fixpoint firstFree (fuel : nat) (cidrRanges : list Network) (usedIps : list IP) : outcome (IP * Network) :=
  match cidrRanges with
  | [] => Err exhausted
  | cidr :: rest =>
      match getNextFreeIPForCIDR fuel cidr usedIps with
      | Ok ip => Ok (ip, cidr)
      | Err _ => firstFree fuel rest usedIps
      | Panic s => Panic s
      | OutOfFuel => OutOfFuel
      end
  end.

(** ** Machines *)

Record NetworkConfig := mkNetworkConfig { nc_cidr : string; nc_gateway : string; nc_dns : list string }.

(** [providerconfig.Config] of the machine controller; its other fields travel in
    [pcf_rest]. *)
Record ProviderConfig := mkProviderConfig { pcf_network : option NetworkConfig; pcf_rest : gmap string string }.

Record Machine := mkMachine { mc_meta : ObjectMeta; mc_providerSpec : string }.

#[global] Program Instance Machine_object : Object Machine := {|
  obj_meta := mc_meta;
  set_meta m x := mkMachine m (mc_providerSpec x);
|}.
Next Obligation. done. Qed.

(** [strings.ReplaceAll(s, old, "")] for a non-empty [old]. *)
Fixpoint strings_Remove (fuel : nat) (s old : string) : string :=
  match fuel with
  | O => s
  | S fuel =>
      match String.index 0 old s with
      | None => s
      | Some i => String.substring 0 i s +:+
          strings_Remove fuel (String.substring (i + String.length old) (String.length s) s) old
      end
  end.

Definition annotationMachineUninitialized : string := "machine-controller.kubermatic.io/initializers".
Definition annotationValue : string := "ipam".

Record IpamEnv (W : Type) := mkIpamEnv {
  ie_machines : Client W Machine;
  ie_event : string → string → string → W → W;
  ie_getConfig : string → outcome ProviderConfig;
  ie_marshal : ProviderConfig → outcome string;
  ie_poll : M W bool → M W unit;
  ie_cidrRanges : list Network;
  ie_fuel : nat;
}.
Arguments ie_machines {W}.
Arguments ie_event {W}.
Arguments ie_getConfig {W}.
Arguments ie_marshal {W}.
Arguments ie_poll {W}.
Arguments ie_cidrRanges {W}.
Arguments ie_fuel {W}.

Section ipam.
Context {W : Type} (env : IpamEnv W).

Definition ipsToStrs (ips : list IP) : list string := map IP_String ips.

(** The address of one machine, if it has any. *)
Definition machineIP (m : Machine) : outcome (option IP) :=
  match om_deletionTimestamp (mc_meta m) with
  | Some _ => Ok None
  | None =>
      cfg ← ie_getConfig env (mc_providerSpec m);
      match pcf_network cfg with
      | None => Ok None
      | Some n => ip ← ParseCIDR (nc_cidr n); Ok (if Nat.eqb (length ip) 0 then None else Some ip)
      end
  end.

Fixpoint usedIPs (machines : list Machine) : outcome (list IP) :=
  match machines with
  | [] => Ok []
  | m :: rest =>
      ip ← machineIP m;
      ips ← usedIPs rest;
      Ok (match ip with Some ip => ip :: ips | None => ips end)
  end.

Definition getUsedIPs : M W (list IP) :=
  machines ← wrap "failed to list machines" (c_list (ie_machines env) (mkListOptions "" []));
  lift (usedIPs machines).

Definition getNextFreeIP : M W (IP * Network) :=
  usedIps ← getUsedIPs;
  lift (firstFree (ie_fuel env) (ie_cidrRanges env) usedIps).

Definition cidrOf (ip : IP) (network : Network) : string :=
  IP_String ip +:+ "/" +:+ pretty (Z.to_N (Mask_ones (in_Mask (n_IPNet network)))).

(** The polled condition: whether the machine's new configuration can be read. *)
Definition configVisible (machine : Machine) (cidr : string) : M W bool :=
  newMachine ← c_get (ie_machines env) (object_key machine);
  match ie_getConfig env (mc_providerSpec newMachine) with
  | Ok newConfig => mret (match pcf_network newConfig with
                          | Some n => String.eqb (nc_cidr n) cidr
                          | None => false
                          end)
  | Err _ => mret false
  | Panic s => panic s
  | OutOfFuel => lift OutOfFuel
  end.

Definition ipam_reconcile (machine : Machine) : M W unit :=
  match om_deletionTimestamp (mc_meta machine) with
  | Some _ => mret tt
  | None =>
      let initializers := default "" (om_annotations (mc_meta machine) !! annotationMachineUninitialized) in
      if negb (strings_Contains initializers annotationValue) then mret tt else
      cfg ← lift (ie_getConfig env (mc_providerSpec machine));
      '(ip, network) ← getNextFreeIP;
      let cidr := cidrOf ip network in
      let cfg := mkProviderConfig
        (Some (mkNetworkConfig cidr (IP_String (n_Gateway network)) (ipsToStrs (n_DNSServers network)))) (pcf_rest cfg) in
      cfgSerialized ← lift (ie_marshal env cfg);
      let newAnnotationVal := strings_Remove (String.length initializers) initializers annotationValue in
      let machine := mkMachine (set_annotations
        (<[annotationMachineUninitialized := newAnnotationVal]> (om_annotations (mc_meta machine))) (mc_meta machine))
        cfgSerialized in
      machine ← wrap "failed to update machine after adding network" (c_update (ie_machines env) machine);
      ie_poll env (configVisible machine cidr)
  end.

Definition ipam_Reconcile (request : NamespacedName) : M W (Result * option error) :=
  r ← try (c_get (ie_machines env) request);
  match r with
  | inl e => if IsNotFound e then mret (emptyResult, None) else mret (emptyResult, Some e)
  | inr machine =>
      r ← try (ipam_reconcile machine);
      match r with
      | inl e =>
          _ ← emit (ie_event env "Warning" "ReconcilingError" (error_string e));
          mret (emptyResult, Some e)
      | inr _ => mret (emptyResult, None)
      end
  end.
End ipam.
