(* ===== verification/IpamSpec.v ===== *)
(** * What the IPAM controller guarantees

    The search for a free IPv4 address terminates and finds the lowest free one;
    an address that is handed out differs from those of all live machines. *)

From S2P Require Import Prelude ResourceNames Kube Helper Corev1 TimeFormat Net NetSpec Ipam.

Lemma inc_carry_spec ip : bytes ip →
  bytes (inc ip) ∧ length (inc ip) = length ip ∧
  val (inc ip) + (if (inc_carry ip).1 then 256 ^ Z.of_nat (length ip) else 0) = val ip + 1.
Proof.
  unfold inc. induction 1 as [|b ip Hb _ IH]; [simpl; split_and!; [constructor|done|lia]|].
  destruct IH as (Hbs & Hlen & Hval). simpl. destruct (inc_carry ip) as [[] rest]; simpl in *.
  - destruct (Z.eqb_spec b 255) as [->|Hne].
    + change ((255 + 1) `mod` 256) with 0. simpl. rewrite pow256_S in *.
      split_and!; [by constructor|congruence|rewrite Hlen; lia].
    + rewrite Z.mod_small by lia. destruct (Z.eqb_spec (b + 1) 0); [lia|].
      split_and!; [constructor; [lia|done]|simpl; congruence|simpl; rewrite Hlen; lia].
  - split_and!; [by constructor|simpl; congruence|simpl; rewrite Hlen; lia].
Qed.

(** ** IPv4 ranges *)

(** A range as [net.ParseCIDR] builds it: the address in four or sixteen bytes, and
    the network it lies in, of [p] leading bits. *)
Record v4_range (n : Network) (a : IP) (p : Z) : Prop := {
  v4_bytes : bytes a;
  v4_length : length a = 4%nat;
  v4_prefix : 0 < p ≤ 32;
  v4_ip : n_IP n = a ∨ n_IP n = v4InV6Prefix ++ a;
  v4_net : n_IPNet n = mkIPNet (and_bytes a (CIDRMask 4 p)) (CIDRMask 4 p);
}.

(** The addresses of a range, and those of them that may be given out: not the
    network's or the broadcast address of any /24, not the gateway's, not used. *)
Definition in_range (n : Network) (ip : IP) : Prop :=
  bytes ip ∧ length ip = 4%nat ∧ Contains (n_IPNet n) ip = true.
Definition usable (n : Network) (used : list IP) (ip : IP) : Prop :=
  last ip ≠ Some 0 ∧ last ip ≠ Some 255 ∧ IP_Equal ip (n_Gateway n) = false ∧
  Forall (λ u, IP_Equal u ip = false) used.

Lemma To4_four ip : length ip = 4%nat → To4 ip = Some ip.
Proof. intros Hl. unfold To4. by rewrite Hl. Qed.

Lemma and_bytes_bytes a b : bytes a → bytes b → bytes (and_bytes a b).
Proof.
  intros Ha. revert b. induction Ha as [|x a Hx Ha IH]; intros [|y b] Hb; try by constructor.
  inversion Hb; subst. simpl. constructor; [|by apply IH]. rewrite <- (land_byte x), (Z.land_comm x), <- Z.land_assoc, Z.land_comm by done.
  change 255 with (Z.ones 8). rewrite Z.land_ones by lia. apply Z.mod_pos_bound. lia.
Qed.

Lemma CIDRMask_bytes n p : bytes (CIDRMask n p).
Proof.
  revert p. induction n as [|n IH]; intros p; simpl; constructor; [|apply IH].
  destruct (Z.leb_spec 8 p); [lia|]. destruct (Z.leb_spec p 0); [lia|].
  assert (1 < 2 ^ (8 - p)) by (apply Z.pow_gt_1; lia).
  assert (2 ^ (8 - p) ≤ 2 ^ 8) by (apply Z.pow_le_mono_r; lia). lia.
Qed.
#[local] Hint Resolve and_bytes_bytes CIDRMask_bytes : core.

Lemma ipsContains_false used ip : ipsContains used ip = false ↔ Forall (λ u, IP_Equal u ip = false) used.
Proof.
  unfold ipsContains. rewrite <- not_true_iff_false, existsb_true_iff, Forall_forall. split.
  - intros Hn u Hu. apply not_true_is_false. eauto.
  - intros Hall (u & Hu & E). rewrite Hall in E; done.
Qed.

Section range.
Context (n : Network) (a : IP) (p : Z) (HR : v4_range n a p).
Local Abbreviation size := (2 ^ (32 - p)).
Local Abbreviation base := (val a / 2 ^ (32 - p) * 2 ^ (32 - p)).

Lemma size_pos : 0 < size.
Proof. destruct HR. apply Z.pow_pos_nonneg; lia. Qed.

Lemma masked_val ip : bytes ip → length ip = 4%nat →
  val (and_bytes ip (CIDRMask 4 p)) = val ip / size * size.
Proof.
  intros Hb Hl. destruct HR. pose proof (and_val ip p Hb) as Ha. rewrite Hl in Ha. apply Ha. lia.
Qed.

Lemma masked_length ip : length ip = 4%nat → length (and_bytes ip (CIDRMask 4 p)) = 4%nat.
Proof. intros Hl. by rewrite and_bytes_length; rewrite ?CIDRMask_length. Qed.

Lemma Contains_iff ip : bytes ip → length ip = 4%nat →
  Contains (n_IPNet n) ip = true ↔ base ≤ val ip < base + size.
Proof.
  intros Hb Hl. pose proof size_pos. destruct HR as [Hba Hla _ _ Hnet].
  unfold Contains, networkNumberAndMask. rewrite Hnet. cbn [in_IP in_Mask].
  rewrite To4_four, CIDRMask_length by (by apply masked_length).
  rewrite masked_length by done. cbn [Nat.eqb IPv4len negb]. rewrite To4_four, Hl, masked_length by done.
  cbn [Nat.eqb negb]. rewrite bool_decide_eq_true.
  transitivity (val a / size * size = val ip / size * size).
  - rewrite <- (masked_val ip) by done. split.
    + intros <-. rewrite (masked_val (and_bytes _ _)), masked_val, Z.div_mul by (auto using masked_length; lia). done.
    + intros Hv. apply val_inj; eauto. { by rewrite !masked_length by auto using masked_length. }
      rewrite (masked_val (and_bytes _ _)), masked_val, Z.div_mul by (auto using masked_length; lia). lia.
  - pose proof (Z.div_mod (val ip) size ltac:(lia)). pose proof (Z.mod_pos_bound (val ip) size ltac:(lia)).
    generalize dependent (val ip / size). intros q Hq. generalize (val a / size). intros q'. split; [lia|].
    intros Hr. assert (q = q') as ->; [|done]. assert (q < q' + 1) by nia. assert (q' < q + 1) by nia. lia.
Qed.

Lemma first_ip : IP_Mask (n_IP n) (in_Mask (n_IPNet n)) = and_bytes a (CIDRMask 4 p).
Proof.
  destruct HR as [_ Hl _ Hip ->]. destruct a as [|x [|y [|z [|t [|]]]]]; try discriminate Hl.
  destruct Hip as [->| ->]; reflexivity.
Qed.

Lemma in_range_iff ip : in_range n ip ↔ bytes ip ∧ length ip = 4%nat ∧ base ≤ val ip < base + size.
Proof.
  unfold in_range. split; intros (Hb & Hl & Hc); (split; [done|]); (split; [done|]); by apply (Contains_iff ip).
Qed.

Lemma base_bounds : 0 < base + size ≤ 256 ^ 4 ∧ (base + size = 256 ^ 4 → 0 < base) ∧ 0 ≤ base.
Proof.
  pose proof size_pos. destruct HR as [Hb Hl Hp _ _]. pose proof (val_range a Hb) as Hr. rewrite Hl in Hr.
  assert (Hpow : 256 ^ 4 = 2 ^ p * size) by (rewrite <- Z.pow_add_r by lia; by replace (p + (32 - p)) with 32 by lia).
  change (Z.of_nat 4) with 4 in Hr. rewrite Hpow in *.
  assert (1 < 2 ^ p) by (apply Z.pow_gt_1; lia).
  assert (0 ≤ val a / size < 2 ^ p).
  { split; [apply Z.div_pos; lia|]. apply Z.div_lt_upper_bound; lia. }
  nia.
Qed.

(** The search goes through the range upwards. *)
Lemma inc_in_range ip : in_range n ip →
  if decide (val ip + 1 < base + size) then in_range n (inc ip) ∧ val (inc ip) = val ip + 1
  else Contains (n_IPNet n) (inc ip) = false.
Proof.
  intros (Hb & Hl & Hr)%in_range_iff. pose proof base_bounds as (B1 & B2 & B3).
  destruct (inc_carry_spec ip Hb) as (Hb' & Hl' & Hv). rewrite Hl in *. change (Z.of_nat 4) with 4 in Hv.
  pose proof (val_range _ Hb') as Hr'. rewrite Hl' in Hr'. change (Z.of_nat 4) with 4 in Hr'.
  case_decide as Hd.
  - rewrite in_range_iff. destruct (inc_carry ip).1; [lia|]. split_and!; try done; lia.
  - apply not_true_is_false. rewrite Contains_iff by done. destruct (inc_carry ip).1; lia.
Qed.

Lemma last_some {A} (l : list A) : l ≠ [] → ∃ x, last l = Some x.
Proof. intros Hl. destruct (last l) eqn:E; [by eexists|]. by apply last_None in E. Qed.

Lemma usable_dec used ip b : last ip = Some b →
  usable n used ip ↔
  (b =? 0) || (b =? 255) || IP_Equal ip (n_Gateway n) = false ∧ ipsContains used ip = false.
Proof.
  intros Hb. unfold usable. rewrite Hb, !orb_false_iff, !Z.eqb_neq, ipsContains_false. naive_solver.
Qed.

(** The outcome of a search from an address on. *)
Definition lowest_from (used : list IP) (from : Z) (r : outcome IP) : Prop :=
  match r with
  | Ok x => in_range n x ∧ usable n used x ∧
      ∀ y, in_range n y → usable n used y → from ≤ val y → val x ≤ val y
  | Err e => e = exhausted ∧ ∀ y, in_range n y → from ≤ val y → ¬ usable n used y
  | _ => False
  end.

Lemma nextFree_spec used fuel ip : in_range n ip → base + size - val ip ≤ Z.of_nat fuel →
  lowest_from used (val ip) (nextFree fuel n used ip).
Proof.
  revert ip. induction fuel as [|fuel IH]; intros ip Hin Hf.
  { apply in_range_iff in Hin. lia. }
  pose proof Hin as (Hb & Hl & Hc). simpl. rewrite Hc. cbn [negb].
  destruct (last_some ip) as [b Eb]; [by destruct ip|]. rewrite Eb.
  pose proof (usable_dec used ip b Eb) as Hu. pose proof (inc_in_range ip Hin) as Hi.
  assert (Hstep : ¬ usable n used ip → lowest_from used (val ip) (nextFree fuel n used (inc ip))).
  { intros Hnu. assert (Hnext : ∀ y, in_range n y → usable n used y → val ip ≤ val y → val ip + 1 ≤ val y).
    { intros y (Hby & Hly & _) Huy Hle. destruct (decide (val ip = val y)) as [Hv|]; [|lia].
      apply val_inj in Hv; [|done|done|congruence]. by subst y. }
    case_decide as Hd.
    - destruct Hi as [Hin' Hv]. specialize (IH (inc ip) Hin' ltac:(lia)). rewrite Hv in IH.
      unfold lowest_from in *. destruct (nextFree fuel n used (inc ip)); naive_solver.
    - assert (nextFree fuel n used (inc ip) = Err exhausted) as -> by (destruct fuel; simpl; by rewrite Hi).
      split; [done|]. intros y Hy Hle Huy. pose proof (Hnext y Hy Huy Hle). apply in_range_iff in Hy. lia. }
  destruct ((b =? 0) || (b =? 255) || IP_Equal ip (n_Gateway n)); [apply Hstep; rewrite Hu; naive_solver|].
  destruct (ipsContains used ip); cbn [negb]; [apply Hstep; rewrite Hu; naive_solver|].
  split_and!; [done|by apply Hu|auto].
Qed.
End range.

(** A search through a whole range. *)
Lemma search_lowest n a p fuel used : v4_range n a p → 2 ^ (32 - p) ≤ Z.of_nat fuel →
  lowest_from n used 0 (getNextFreeIPForCIDR fuel n used).
Proof.
  intros HR Hf. unfold getNextFreeIPForCIDR. erewrite first_ip by done. destruct (HR) as [Hb Hl _ _ _].
  set (ip0 := and_bytes a (CIDRMask 4 p)).
  assert (Hv : val ip0 = val a / 2 ^ (32 - p) * 2 ^ (32 - p)) by (eapply masked_val; done).
  assert (Hin : in_range n ip0).
  { rewrite in_range_iff by done. pose proof (size_pos n a p HR).
    split_and!; [by apply and_bytes_bytes|by apply masked_length|lia..]. }
  assert (Hlow : ∀ y, in_range n y → val ip0 ≤ val y).
  { intros y Hy. rewrite in_range_iff in Hy by done. lia. }
  pose proof (nextFree_spec n a p HR used fuel ip0 Hin ltac:(lia)) as H.
  unfold lowest_from in *. destruct (nextFree fuel n used ip0); naive_solver.
Qed.

Lemma in_range_nonneg n y : in_range n y → 0 ≤ val y.
Proof. intros (Hb & _ & _). apply val_range in Hb. lia. Qed.

(** C25: given enough fuel for the addresses of an IPv4 range with a prefix of at least
    one bit, the search of [getNextFreeIPForCIDR] ends; it returns the lowest usable
    address of the range (one that no machine uses, that is not the gateway's and whose
    last byte is neither 0 nor 255), and reports the range as exhausted exactly when it
    has no usable address. *)
Theorem getNextFreeIPForCIDR_spec n a p fuel used :
  v4_range n a p → 2 ^ (32 - p) ≤ Z.of_nat fuel →
  match getNextFreeIPForCIDR fuel n used with
  | Ok x => in_range n x ∧ usable n used x ∧ ∀ y, in_range n y → usable n used y → val x ≤ val y
  | Err e => e = exhausted ∧ ∀ y, in_range n y → ¬ usable n used y
  | _ => False
  end.
Proof.
  intros HR Hf. pose proof (search_lowest n a p fuel used HR Hf) as H. unfold lowest_from in H.
  destruct (getNextFreeIPForCIDR fuel n used); naive_solver eauto using in_range_nonneg.
Qed.

(** The ranges are used up in their order: the address that is given out lies
    in the first range with a usable address, and only when no range has one the
    ranges are reported as exhausted. *)
Theorem firstFree_spec fuel ranges used :
  (∀ n, n ∈ ranges → ∃ a p, v4_range n a p ∧ 2 ^ (32 - p) ≤ Z.of_nat fuel) →
  match firstFree fuel ranges used with
  | Ok (x, n) => ∃ before after, ranges = before ++ n :: after ∧ in_range n x ∧ usable n used x ∧
      ∀ n' y, n' ∈ before → in_range n' y → ¬ usable n' used y
  | Err e => e = exhausted ∧ ∀ n y, n ∈ ranges → in_range n y → ¬ usable n used y
  | _ => False
  end.
Proof.
  induction ranges as [|n ranges IH]; intros Hv; simpl; [split; [done|]; intros n y Hn; by apply elem_of_nil in Hn|].
  destruct (Hv n ltac:(by left)) as (a & p & HR & Hf). pose proof (search_lowest n a p fuel used HR Hf) as H.
  unfold lowest_from in H. destruct (getNextFreeIPForCIDR fuel n used) as [x|e|s|]; [|..|done|done].
  { destruct H as (Hin & Hu & _). exists [], ranges. split_and!; [done..|]. intros n' y Hn'. by apply elem_of_nil in Hn'. }
  destruct H as [_ H]. assert (Hno : ∀ y, in_range n y → ¬ usable n used y) by eauto using in_range_nonneg.
  specialize (IH ltac:(intros n' Hn'; apply Hv; by right)).
  destruct (firstFree fuel ranges used) as [[x n1]|e'|s|]; [|..|done|done].
  - destruct IH as (before & after & -> & Hin & Hu & Hb). exists (n :: before), after. split_and!; [done..|].
    intros n' y [->|Hn']%elem_of_cons; eauto.
  - destruct IH as [-> IH]. split; [done|]. intros n' y [->|Hn']%elem_of_cons; eauto.
Qed.

(** ** What is given out *)

Lemma nextFree_sound n used fuel ip x : nextFree fuel n used ip = Ok x → bytes ip → length ip = 4%nat →
  bytes x ∧ length x = 4%nat ∧ ipsContains used x = false.
Proof.
  revert ip. induction fuel as [|fuel IH]; intros ip E Hb Hl; simpl in E; destruct (negb (Contains _ _)); try done.
  destruct (inc_carry_spec ip Hb) as (Hb' & Hl' & _). rewrite Hl in Hl'.
  destruct (last ip); [|done]. destruct (_ || _); [by eapply IH|].
  destruct (ipsContains used ip) eqn:Eu; simpl in E; [by eapply IH|]. injection E as <-. done.
Qed.

Lemma firstFree_sound fuel ranges used ip network :
  firstFree fuel ranges used = Ok (ip, network) → (∀ n, n ∈ ranges → ∃ a p, v4_range n a p) →
  network ∈ ranges ∧ bytes ip ∧ length ip = 4%nat ∧ Forall (λ u, IP_Equal u ip = false) used.
Proof.
  induction ranges as [|c ranges IH]; intros E Hv; simpl in E; [done|].
  destruct (getNextFreeIPForCIDR fuel c used) as [x|e|s|] eqn:Eg; try done.
  - injection E as -> ->. destruct (Hv network ltac:(by left)) as (a & p & HR).
    unfold getNextFreeIPForCIDR in Eg. rewrite (first_ip _ _ _ HR) in Eg. destruct HR.
    apply nextFree_sound in Eg as (? & ? & Hu%ipsContains_false); [|by apply and_bytes_bytes|by apply masked_length].
    split_and!; [by left|done..].
  - destruct IH as (? & ? & ? & ?); [done|intros n Hn; apply Hv; by right|]. split_and!; [by right|done..].
Qed.

Lemma canon_mapped ip : length ip = 4%nat → IP_Equal (v4InV6Prefix ++ ip) ip = true.
Proof.
  intros Hl. unfold IP_Equal. rewrite length_app, Hl. simpl. apply bool_decide_eq_true. done.
Qed.

(** The prefix length that is printed. *)
Lemma ones_checked : check_range (λ p, Mask_ones (CIDRMask 4 p) =? p) 33 0 = true.
Proof. vm_compute. reflexivity. Qed.

Lemma Mask_ones_cidr p : 0 ≤ p ≤ 32 → Mask_ones (CIDRMask 4 p) = p.
Proof. intros Hp. apply Z.eqb_eq, (check_range_ok _ _ _ ones_checked). simpl. lia. Qed.

Lemma cidrOf_parse n a p ip : v4_range n a p → bytes ip → length ip = 4%nat →
  ParseCIDR (cidrOf ip n) = Ok (v4InV6Prefix ++ ip).
Proof.
  intros [_ _ Hp _ Hnet] Hb Hl. unfold cidrOf. rewrite Hnet. cbn [in_Mask].
  rewrite Mask_ones_cidr by lia. apply ParseCIDR_print; [done|done|lia].
Qed.

(** The text that the controller stores for an address, with the length of the
    range's mask, is read back as this address when the used addresses are gathered
    in the next run. *)
Theorem cidr_roundtrip fuel n a p used ip :
  v4_range n a p → getNextFreeIPForCIDR fuel n used = Ok ip →
  ∃ ip', ParseCIDR (cidrOf ip n) = Ok ip' ∧ IP_Equal ip' ip = true ∧ ipsContains [ip'] ip = true.
Proof.
  intros HR E. unfold getNextFreeIPForCIDR in E. rewrite (first_ip _ _ _ HR) in E. destruct (HR) as [Hb Hl _ _ _].
  apply nextFree_sound in E as (Hbi & Hli & _); [|by apply and_bytes_bytes|by apply masked_length].
  exists (v4InV6Prefix ++ ip). pose proof (canon_mapped ip Hli) as Hc.
  split_and!; [by eapply cidrOf_parse|done|]. unfold ipsContains. cbn [existsb]. by rewrite Hc.
Qed.

(** ** Server and lister *)

(** The lister follows the server, machine by machine. *)
Definition catches_up (s l l' : gmap NamespacedName Machine) : Prop := ∀ k, l' !! k = l !! k ∨ l' !! k = s !! k.

(** What the controller relies on: reads come from a lister that trails the server,
    updates go to the server and do not revive a machine, polling ends well only
    when the condition held, and a configuration survives serialization. *)
Class IpamWorld {W} (env : IpamEnv W) := {
  server : W → gmap NamespacedName Machine;
  lister : W → gmap NamespacedName Machine;
  iw_get : ∀ k w r w', c_get (ie_machines env) k w = (r, w') →
    server w' = server w ∧ catches_up (server w) (lister w) (lister w') ∧
    ∀ m, r = Ok m → lister w' !! k = Some m ∧ object_key m = k;
  iw_list : ∀ w r w', c_list (ie_machines env) (mkListOptions "" []) w = (r, w') →
    server w' = server w ∧ catches_up (server w) (lister w) (lister w') ∧
    ∀ l, r = Ok l → ∀ k m, lister w' !! k = Some m → m ∈ l;
  iw_update : ∀ o w r w', c_update (ie_machines env) o w = (r, w') →
    catches_up (server w') (lister w) (lister w') ∧
    ((server w' = server w ∧ ∀ x, r ≠ Ok x) ∨
     ∃ old meta, let o' := mkMachine meta (mc_providerSpec o) in
       server w !! object_key o = Some old ∧ om_deletionTimestamp meta = om_deletionTimestamp (mc_meta old) ∧
       object_key o' = object_key o ∧ server w' = <[object_key o := o']> (server w) ∧ ∀ x, r = Ok x → x = o');
  iw_event : ∀ t r m w, server (ie_event env t r m w) = server w ∧
    catches_up (server w) (lister w) (lister (ie_event env t r m w));
  iw_poll : ∀ cond w r w', ie_poll env cond w = (r, w') → ∀ P : W → Prop, P w →
    (∀ w1 r1 w2, P w1 → cond w1 = (r1, w2) → P w2) →
    (∀ w1 w2, P w1 → server w2 = server w1 → catches_up (server w1) (lister w1) (lister w2) → P w2) →
    P w' ∧ (r = Ok tt → ∃ w0, P w0 ∧ cond w0 = (Ok true, w'));
  iw_config : ∀ cfg s, ie_marshal env cfg = Ok s →
    ∃ cfg', ie_getConfig env s = Ok cfg' ∧ pcf_network cfg' = pcf_network cfg;
}.

Section unique.
Context {W : Type} (env : IpamEnv W) `{!IpamWorld env}.
Hypothesis ranges_v4 : ∀ n, n ∈ ie_cidrRanges env → ∃ a p, v4_range n a p.

(** No two live machines have the same address. *)
Definition distinct (w : W) : Prop := ∀ k1 k2 m1 m2 ip1 ip2, k1 ≠ k2 →
  server w !! k1 = Some m1 → server w !! k2 = Some m2 →
  machineIP env m1 = Ok (Some ip1) → machineIP env m2 = Ok (Some ip2) → IP_Equal ip1 ip2 = false.

(** Every address that is given out can be seen in the lister. *)
Definition covered (w : W) : Prop := ∀ k m ip,
  server w !! k = Some m → machineIP env m = Ok (Some ip) →
  ∃ m', lister w !! k = Some m' ∧ machineIP env m' = Ok (Some ip).

Lemma covered_catch_up w w' : server w' = server w → catches_up (server w) (lister w) (lister w') →
  covered w → covered w'.
Proof.
  intros Hs Hl Hc k m ip Hk Ha. rewrite Hs in Hk. destruct (Hl k) as [->| ->]; [by eapply Hc|by exists m].
Qed.

Lemma distinct_same w w' : server w' = server w → distinct w → distinct w'.
Proof. intros Hs Hd. unfold distinct. by rewrite Hs. Qed.

Lemma usedIPs_all l used m ip : usedIPs env l = Ok used → m ∈ l → machineIP env m = Ok (Some ip) → ip ∈ used.
Proof.
  revert used. induction l as [|x l IH]; intros used E Hm Ha; [by apply elem_of_nil in Hm|].
  simpl in E. apply elem_of_cons in Hm as [->|Hm].
  - rewrite Ha in E. simpl in E. destruct (usedIPs env l); try done. injection E as <-. by left.
  - destruct (machineIP env x) as [o| | |]; try done. simpl in E. destruct (usedIPs env l) as [ips| | |]; try done.
    injection E as <-. specialize (IH ips eq_refl Hm Ha). destruct o; [by right|done].
Qed.

(** No machine in the lister has the address. *)
Definition fresh_ip (ip : IP) (w : W) : Prop := ∀ k m u,
  lister w !! k = Some m → machineIP env m = Ok (Some u) → IP_Equal u ip = false.

Lemma getNextFreeIP_triple w : distinct w → covered w →
  triple distinct w (getNextFreeIP env) (λ r w1, let '(ip, n) := r in
    server w1 = server w ∧ catches_up (server w) (lister w) (lister w1) ∧
    n ∈ ie_cidrRanges env ∧ bytes ip ∧ length ip = 4%nat ∧ fresh_ip ip w1).
Proof.
  intros Hd Hc. unfold getNextFreeIP, getUsedIPs.
  apply triple_bind with (Q1 := λ used w1, server w1 = server w ∧ catches_up (server w) (lister w) (lister w1) ∧
    ∀ k m u, lister w1 !! k = Some m → machineIP env m = Ok (Some u) → u ∈ used).
  - apply triple_bind with (Q1 := λ l w1, server w1 = server w ∧ catches_up (server w) (lister w) (lister w1) ∧
      ∀ k m, lister w1 !! k = Some m → m ∈ l).
    + apply triple_wrap. intros r w1 (Hs & Hl & Hall)%iw_list. split; [by eapply distinct_same|].
      intros l ->. split_and!; [done..|]. by apply Hall.
    + intros l w1 (Hs & Hl & Hall) r w' [= <- <-]. split; [by eapply distinct_same|].
      intros used E. split_and!; [done..|]. intros k m u Hk Ha. eapply usedIPs_all; [done|by eapply Hall|done].
  - intros used w1 (Hs & Hl & Hall) r w' [= <- <-]. split; [by eapply distinct_same|].
    intros [ip n] E. apply firstFree_sound in E as (Hn & Hb & Hlen & Hu); [|done].
    split_and!; [done..|]. intros k m u Hk Ha. rewrite Forall_forall in Hu. eapply Hu, Hall; done.
Qed.

Lemma machineIP_live m cfg nc ip : om_deletionTimestamp (mc_meta m) = None →
  ie_getConfig env (mc_providerSpec m) = Ok cfg → pcf_network cfg = Some nc →
  ParseCIDR (nc_cidr nc) = Ok (v4InV6Prefix ++ ip) → machineIP env m = Ok (Some (v4InV6Prefix ++ ip)).
Proof. intros Hd Hg Hn Hp. unfold machineIP. rewrite Hd, Hg. simpl. rewrite Hn, Hp. done. Qed.

Lemma machineIP_dead m x ip : machineIP env m = Ok (Some ip) → om_deletionTimestamp (mc_meta m) ≠ Some x.
Proof. unfold machineIP. by destruct (om_deletionTimestamp _). Qed.

Lemma fresh_mapped ip u : length ip = 4%nat → IP_Equal u ip = false →
  IP_Equal u (v4InV6Prefix ++ ip) = false ∧ IP_Equal (v4InV6Prefix ++ ip) u = false.
Proof.
  intros Hl%canon_mapped Hu. rewrite IP_Equal_canon in Hl.
  split; apply not_true_is_false; rewrite IP_Equal_canon, Hl; intros E; apply not_true_iff_false in Hu;
    apply Hu; by rewrite IP_Equal_canon.
Qed.

(** Storing a fresh address keeps the addresses apart. *)
Lemma distinct_insert w w' k x ip : distinct w → covered w → fresh_ip ip w → length ip = 4%nat →
  server w' = <[k := x]> (server w) →
  (∀ u, machineIP env x = Ok (Some u) → u = v4InV6Prefix ++ ip) → distinct w'.
Proof.
  intros Hd Hc Hf Hl Hs Hx k1 k2 m1 m2 ip1 ip2 Hne E1 E2 A1 A2. rewrite Hs in E1, E2.
  assert (Hold : ∀ k' m' u, server w !! k' = Some m' → machineIP env m' = Ok (Some u) → IP_Equal u ip = false).
  { intros k' m' u Hk' Ha. destruct (Hc _ _ _ Hk' Ha) as (m0 & Hm0 & Ha0). by eapply Hf. }
  apply lookup_insert_Some in E1 as [[<- <-]|[Hk1 E1]], E2 as [[<- <-]|[Hk2 E2]]; [done|..|exact (Hd _ _ _ _ _ _ Hne E1 E2 A1 A2)].
  - rewrite (Hx _ A1). by apply fresh_mapped; [|eapply Hold].
  - rewrite (Hx _ A2). by apply fresh_mapped; [|eapply Hold].
Qed.

Lemma catches_up_trans s l1 l2 l3 : catches_up s l1 l2 → catches_up s l2 l3 → catches_up s l1 l3.
Proof. intros H12 H23 k. destruct (H23 k) as [->|]; [apply H12|by right]. Qed.

Lemma configVisible_ok m cidr w w' : configVisible env m cidr w = (Ok true, w') →
  ∃ nm cfg nc, lister w' !! object_key m = Some nm ∧ ie_getConfig env (mc_providerSpec nm) = Ok cfg ∧
    pcf_network cfg = Some nc ∧ nc_cidr nc = cidr.
Proof.
  unfold configVisible. intros E. apply bind_ok_inv in E as (nm & w1 & Eg & E).
  apply iw_get in Eg as (_ & _ & Hnm). destruct (Hnm nm eq_refl) as [Hl _].
  destruct (ie_getConfig env _) as [cfg| | |] eqn:Ec; m_inv; try done.
  destruct (pcf_network cfg) as [nc|] eqn:En; [|done]. exists nm, cfg, nc. split_and!; [done..|].
  by apply String.eqb_eq.
Qed.

Lemma configVisible_state m cidr w r w' : configVisible env m cidr w = (r, w') →
  server w' = server w ∧ catches_up (server w) (lister w) (lister w').
Proof.
  unfold configVisible, mbind, M_MBind, M_bind. destruct (c_get _ _ w) as [o w1] eqn:Eg.
  apply iw_get in Eg as (Hs & Hl & _). destruct o as [nm|e|p|]; intros E; try by injection E as _ <-.
  destruct (ie_getConfig env _); injection E as _ <-; done.
Qed.

Lemma poll_state m cidr w r w' : ie_poll env (configVisible env m cidr) w = (r, w') →
  (server w' = server w ∧ catches_up (server w) (lister w) (lister w')) ∧
  (r = Ok tt → ∃ w0, configVisible env m cidr w0 = (Ok true, w')).
Proof.
  intros E. destruct (iw_poll _ _ _ _ E (λ v, server v = server w ∧ catches_up (server w) (lister w) (lister v)))
    as [HP Hok]; [split; [done|by left]|..].
  - intros w1 r1 w2 [Hs Hl] (Hs' & Hl')%configVisible_state. rewrite Hs', Hs in *.
    split; [done|by eapply catches_up_trans].
  - intros w1 w2 [Hs Hl] Hs' Hl'. rewrite Hs', Hs in *. split; [done|by eapply catches_up_trans].
  - split; [done|]. intros Hr. destruct (Hok Hr) as (w0 & _ & E0). by exists w0.
Qed.

(** A visible configuration makes the new address part of what is covered. *)
Lemma covered_insert w w' k x old ip n : covered w → server w' = <[k := x]> (server w) →
  catches_up (server w') (lister w) (lister w') → n ∈ ie_cidrRanges env → bytes ip → length ip = 4%nat →
  (∀ u, machineIP env x = Ok (Some u) → u = v4InV6Prefix ++ ip) →
  server w !! k = Some old → om_deletionTimestamp (mc_meta x) = om_deletionTimestamp (mc_meta old) →
  (∃ m, lister w !! k = Some m ∧ om_deletionTimestamp (mc_meta m) = None) ∨ lister w !! k = server w !! k →
  (∃ nm cfg nc, lister w' !! k = Some nm ∧ ie_getConfig env (mc_providerSpec nm) = Ok cfg ∧
    pcf_network cfg = Some nc ∧ nc_cidr nc = cidrOf ip n) →
  covered w'.
Proof.
  intros Hc Hs Hl Hn Hb Hlen Hx Hold Hdel Hseen (nm & cfg & nc & Hnm & Hcfg & Hnet & Hcidr) k' m u Hk Ha.
  rewrite Hs in Hk. apply lookup_insert_Some in Hk as [[<- <-]|[Hne Hk]].
  - exists nm. split; [done|]. rewrite (Hx u Ha). destruct (ranges_v4 n Hn) as (a & p & HR).
    assert (Hlive : om_deletionTimestamp (mc_meta x) = None).
    { destruct (om_deletionTimestamp (mc_meta x)) as [t|] eqn:E; [|done]. by apply (machineIP_dead x t u) in Ha. }
    assert (om_deletionTimestamp (mc_meta nm) = None).
    { destruct (Hl k) as [E|E]; rewrite E in Hnm.
      - destruct Hseen as [(m0 & E0 & Hm0)|E0]; rewrite E0 in Hnm; [by injection Hnm as <-|].
        rewrite Hold in Hnm. injection Hnm as <-. congruence.
      - rewrite Hs, lookup_insert_eq in Hnm. by injection Hnm as <-. }
    eapply machineIP_live; [done..|]. rewrite Hcidr. by eapply cidrOf_parse.
  - destruct (Hl k') as [->| ->]; [by eapply Hc|]. exists m. by rewrite Hs, lookup_insert_ne.
Qed.

Lemma store_triple w o cfg nc ip n msg : distinct w → covered w → fresh_ip ip w →
  n ∈ ie_cidrRanges env → bytes ip → length ip = 4%nat →
  ie_getConfig env (mc_providerSpec o) = Ok cfg → pcf_network cfg = Some nc → nc_cidr nc = cidrOf ip n →
  (∃ m, lister w !! object_key o = Some m ∧ om_deletionTimestamp (mc_meta m) = None) ∨
    lister w !! object_key o = server w !! object_key o →
  triple distinct w (machine ← wrap msg (c_update (ie_machines env) o);
                     ie_poll env (configVisible env machine (cidrOf ip n))) (λ _ w', covered w').
Proof.
  intros Hd Hc Hf Hn Hb Hlen Hcfg Hnet Hcidr Hseen.
  assert (Hx : ∀ meta u, machineIP env (mkMachine meta (mc_providerSpec o)) = Ok (Some u) → u = v4InV6Prefix ++ ip).
  { intros meta u Ha. destruct (ranges_v4 n Hn) as (a & p & HR).
    destruct (om_deletionTimestamp meta) as [t|] eqn:E; [by apply (machineIP_dead _ t u) in Ha|].
    assert (machineIP env (mkMachine meta (mc_providerSpec o)) = Ok (Some (v4InV6Prefix ++ ip))); [|congruence].
    eapply machineIP_live; [done..|]. rewrite Hcidr. by eapply cidrOf_parse. }
  apply triple_bind with (Q1 := λ x w2, object_key x = object_key o ∧ distinct w2 ∧
    server w2 = <[object_key o := x]> (server w) ∧ catches_up (server w2) (lister w) (lister w2) ∧
    (∀ u, machineIP env x = Ok (Some u) → u = v4InV6Prefix ++ ip) ∧
    ∃ old, server w !! object_key o = Some old ∧ om_deletionTimestamp (mc_meta x) = om_deletionTimestamp (mc_meta old)).
  - apply triple_wrap. intros r w' [Hl [[Hs Hr]|(old & meta & Hold & Hdel & Hkey & Hs & Hr)]]%iw_update.
    + split; [by eapply distinct_same|]. intros a ->. by destruct (Hr a).
    + assert (distinct w') by (eapply distinct_insert; [done..|apply Hx]). split; [done|].
      intros a ->. rewrite (Hr a eq_refl) in *. split_and!; [done..|apply Hx|by exists old].
  - intros x w2 (Hkey & Hd2 & Hs & Hl & Hxu & old & Hold & Hdel) r w' [[Hs' Hl'] Hok]%poll_state.
    split; [by eapply distinct_same|]. intros [] ->. destruct (Hok eq_refl) as (w0 & E0).
    apply configVisible_ok in E0. rewrite Hkey in E0. rewrite Hs in Hs'.
    eapply covered_insert; try done. rewrite Hs', <- Hs. by eapply catches_up_trans.
Qed.

Lemma reconcile_triple w machine : distinct w → covered w →
  lister w !! object_key machine = Some machine →
  triple distinct w (ipam_reconcile env machine) (λ _ w', covered w').
Proof.
  intros Hd Hc Hm. unfold ipam_reconcile.
  destruct (om_deletionTimestamp (mc_meta machine)) as [t|] eqn:Hdel; [by apply triple_ret|].
  destruct (negb _); [by apply triple_ret|].
  apply triple_bind with (Q1 := λ _ w1, w1 = w); [by intros r w' [= <- <-]|].
  intros cfg _ ->. eapply triple_bind; [by apply getNextFreeIP_triple|].
  intros [ip n] w1 (Hs & Hl & Hn & Hb & Hlen & Hf). cbv zeta.
  apply triple_bind with (Q1 := λ s w2, w2 = w1 ∧ ie_marshal env (mkProviderConfig (Some (mkNetworkConfig
    (cidrOf ip n) (IP_String (n_Gateway n)) (ipsToStrs (n_DNSServers n)))) (pcf_rest cfg)) = Ok s).
  { intros r w' [= <- <-]. split; [by eapply distinct_same|done]. }
  intros s _ [-> Hmar]. apply iw_config in Hmar as (cfg' & Hcfg & Hnet).
  eapply store_triple; try done; [by eapply distinct_same|by eapply covered_catch_up|].
  change (object_key (mkMachine (set_annotations _ _) s)) with (object_key machine).
  destruct (Hl (object_key machine)) as [->| ->]; [left; by exists machine|right; by rewrite Hs].
Qed.

Lemma Reconcile_triple w request : distinct w → covered w →
  triple distinct w (ipam_Reconcile env request) (λ res w', res.2 = None → covered w').
Proof.
  intros Hd Hc. unfold ipam_Reconcile.
  apply triple_bind with (Q1 := λ r w1, distinct w1 ∧ covered w1 ∧
    ∀ m, r = inr m → lister w1 !! object_key m = Some m).
  { intros r w' E. unfold try in E. destruct (c_get _ _ w) as [o w1] eqn:Eg.
    apply iw_get in Eg as (Hs & Hl & Hm). assert (distinct w1) by (by eapply distinct_same).
    assert (covered w1) by (by eapply covered_catch_up).
    destruct o as [m|e|p|]; injection E as <- <-; (split; [done|]); intros a [= <-]; (split; [done|]); (split; [done|]).
    - intros m' [= <-]. destruct (Hm m eq_refl) as [? Hk]. by rewrite Hk.
    - done. }
  intros [e|m] w1 (Hd1 & Hc1 & Hm); [destruct (IsNotFound e); by apply triple_ret|].
  eapply triple_bind; [apply triple_try, reconcile_triple; [done|done|by apply Hm]|].
  intros [e|[]] w2 [Hd2 HQ]; [|apply triple_ret; [done|intros _; by apply (HQ tt)]].
  apply triple_bind with (Q1 := λ _ w3, distinct w3).
  - intros r w' [= <- <-]. assert (Hs := iw_event "Warning" "ReconcilingError" (error_string e) w2).
    destruct Hs as [Hs _]. assert (distinct (ie_event env "Warning" "ReconcilingError" (error_string e) w2))
      by (by eapply distinct_same). done.
  - intros _ w3 Hd3. by apply triple_ret.
Qed.

(** What everybody else does: machines come, change and go, but nobody else gives
    out addresses, and the lister follows. *)
Definition others (w w' : W) : Prop :=
  catches_up (server w') (lister w) (lister w') ∧
  ∀ k m' ip, server w' !! k = Some m' → machineIP env m' = Ok (Some ip) →
    ∃ m, server w !! k = Some m ∧ machineIP env m = Ok (Some ip).

(** Histories: runs of the controller with any outcome, between what others do.
    [pending] says that a run ended with an error or a panic, so that it may have
    stored an address that it did not wait for; the next run then starts only when
    the lister shows all addresses. *)
Definition clean_run (r : outcome (Result * option error)) : bool := match r with Ok (_, None) => true | _ => false end.
Inductive history (w : W) : bool → W → Prop :=
| history_start : history w false w
| history_run pending w1 w2 request r : history w pending w1 → (pending = true → covered w1) →
    ipam_Reconcile env request w1 = (r, w2) → history w (negb (clean_run r)) w2
| history_others pending w1 w2 : history w pending w1 → others w1 w2 → history w pending w2.

Lemma others_distinct w w' : others w w' → distinct w → distinct w'.
Proof.
  intros [_ Ho] Hd k1 k2 m1 m2 ip1 ip2 Hne E1 E2 A1 A2. destruct (Ho _ _ _ E1 A1) as (m1' & E1' & A1').
  destruct (Ho _ _ _ E2 A2) as (m2' & E2' & A2'). exact (Hd _ _ _ _ _ _ Hne E1' E2' A1' A2').
Qed.

Lemma others_covered w w' : others w w' → covered w → covered w'.
Proof.
  intros [Hl Ho] Hc k m ip Hk Ha. destruct (Ho _ _ _ Hk Ha) as (m' & Hk' & Ha').
  destruct (Hl k) as [->| ->]; [by eapply Hc|by exists m].
Qed.

End unique.
