(* ===== verification/MasterApi.v ===== *)
(** * Objects of the master cluster

    Users, project bindings, SSH keys and the objects that the master only hands on to
    the seeds ([pkg/apis/kubermatic/v1], [pkg/apis/apps.kubermatic/v1]), with the
    finalizers of [pkg/api/v1] that guard their copies. *)

From S2P Require Import Prelude Kube CloudApi Corev1.

(** ** Users *)

Record UserSettings := mkUserSettings {
  us_selectedTheme : string;
  us_itemsPerPage : Z;
  us_selectedProjectID : string;
  us_selectProjectTableView : bool;
  us_collapseSidenav : bool;
  us_displayAllProjectsForAdmin : bool;
  us_lastSeenChangelogVersion : string;
  us_useClustersView : bool;
}.
Record UserSpec := mkUserSpec {
  us_id : string;
  us_name : string;
  us_email : string;
  us_isAdmin : bool;
  us_project : string;
  us_settings : option UserSettings;
  us_invalidTokensReference : option SecretKeySelector;
}.
Record UserStatus := mkUserStatus { ust_lastSeen : Z }.
Record User := mkUser { u_meta : ObjectMeta; u_spec : UserSpec; u_status : UserStatus }.
#[global] Program Instance User_object : Object User := {|
  obj_meta := u_meta;
  set_meta m u := mkUser m (u_spec u) (u_status u);
|}.
Next Obligation. done. Qed.
Definition empty_user : User := mkUser emptyMeta (mkUserSpec "" "" "" false "" None None) (mkUserStatus 0).

Definition UserServiceAccountPrefix : string := "serviceaccount-".
Definition IsProjectServiceAccount (nameOrEmail : string) : bool := String.prefix UserServiceAccountPrefix nameOrEmail.
(** [strings.TrimPrefix]. *)
Definition TrimPrefix (s prefix : string) : string :=
  if String.prefix prefix s then String.substring (String.length prefix) (String.length s) s else s.
Definition RemoveProjectServiceAccountPrefix (str : string) : string := TrimPrefix str UserServiceAccountPrefix.
Definition EnsureProjectServiceAccountPrefix (str : string) : string :=
  if negb (IsProjectServiceAccount str) then UserServiceAccountPrefix +:+ str else str.

(** ** Members of projects *)

Record UserProjectBindingSpec := mkUserProjectBindingSpec { ub_userEmail : string; ub_projectID : string; ub_group : string }.
Record UserProjectBinding := mkUserProjectBinding { ub_meta : ObjectMeta; ub_spec : UserProjectBindingSpec }.
#[global] Program Instance UserProjectBinding_object : Object UserProjectBinding := {|
  obj_meta := ub_meta;
  set_meta m b := mkUserProjectBinding m (ub_spec b);
|}.
Next Obligation. done. Qed.
Definition empty_binding : UserProjectBinding := mkUserProjectBinding emptyMeta (mkUserProjectBindingSpec "" "" "").

(** ** SSH keys *)

Record SSHKeySpec := mkSSHKeySpec {
  ssh_name : string;
  ssh_owner : string;
  ssh_project : string;
  ssh_clusters : list string;
  ssh_fingerprint : string;
  ssh_publicKey : string;
}.
Record UserSSHKey := mkUserSSHKey { ssh_meta : ObjectMeta; ssh_spec : SSHKeySpec }.
#[global] Program Instance UserSSHKey_object : Object UserSSHKey := {|
  obj_meta := ssh_meta;
  set_meta m k := mkUserSSHKey m (ssh_spec k);
|}.
Next Obligation. done. Qed.
Definition set_clusters (l : list string) (k : UserSSHKey) : UserSSHKey :=
  let s := ssh_spec k in
  mkUserSSHKey (ssh_meta k) (mkSSHKeySpec (ssh_name s) (ssh_owner s) (ssh_project s) l (ssh_fingerprint s) (ssh_publicKey s)).

Section keys.
Context `{StringSets}.
Definition IsUsedByCluster (k : UserSSHKey) (clustername : string) : bool :=
  bool_decide (clustername ∈ NewString (ssh_clusters (ssh_spec k))).
Definition RemoveFromCluster (k : UserSSHKey) (clustername : string) : UserSSHKey :=
  set_clusters (set_List (NewString (ssh_clusters (ssh_spec k)) ∖ {[clustername]})) k.
Definition AddToCluster (k : UserSSHKey) (clustername : string) : UserSSHKey :=
  set_clusters (set_List (NewString (ssh_clusters (ssh_spec k)) ∪ {[clustername]})) k.

(** A key is used by exactly the clusters it was added to and not removed from. *)
Lemma IsUsedByCluster_add k c d : IsUsedByCluster (AddToCluster k c) d = bool_decide (d = c) || IsUsedByCluster k d.
Proof.
  unfold IsUsedByCluster, AddToCluster, NewString. simpl. rewrite <- bool_decide_or. apply bool_decide_ext.
  rewrite !elem_of_list_to_set, elem_of_set_List. set_solver.
Qed.
Lemma IsUsedByCluster_remove k c d : IsUsedByCluster (RemoveFromCluster k c) d = negb (bool_decide (d = c)) && IsUsedByCluster k d.
Proof.
  unfold IsUsedByCluster, RemoveFromCluster, NewString. simpl. rewrite <- bool_decide_not, <- bool_decide_and. apply bool_decide_ext.
  rewrite !elem_of_list_to_set, elem_of_set_List. set_solver.
Qed.
End keys.

(** ** Objects that are only handed on

    Presets, constraints, constraint templates and application definitions: the
    controllers of the master look at their metadata and copy their specs, whatever
    these are. *)
Record SpecObject (Spec : Type) := mkSpecObject { so_meta : ObjectMeta; so_spec : Spec }.
Arguments mkSpecObject {Spec}.
Arguments so_meta {Spec}.
Arguments so_spec {Spec}.
#[global] Program Instance SpecObject_object Spec : Object (SpecObject Spec) := {|
  obj_meta := so_meta;
  set_meta m o := mkSpecObject m (so_spec o);
|}.
Next Obligation. done. Qed.
(** The zero value of a type of specs. *)
Definition empty_spec_object {Spec} `{Inhabited Spec} : SpecObject Spec := mkSpecObject emptyMeta inhabitant.

Definition set_labels (l : gmap string string) (m : ObjectMeta) : ObjectMeta :=
  mkObjectMeta (om_name m) (om_namespace m) (om_uid m) l (om_annotations m) (om_finalizers m)
    (om_ownerReferences m) (om_creationTimestamp m) (om_deletionTimestamp m) (om_resourceVersion m).

(** ** Finalizers *)

Definition SeedProjectCleanupFinalizer : string := "kubermatic.k8c.io/cleanup-seed-projects".
Definition SeedUserProjectBindingCleanupFinalizer : string := "kubermatic.k8c.io/cleanup-seed-user-project-bindings".
Definition SeedUserCleanupFinalizer : string := "kubermatic.k8c.io/cleanup-seed-users".
Definition ClusterTemplateSeedCleanupFinalizer : string := "kubermatic.k8c.io/cleanup-seed-cluster-template".
Definition PresetSeedCleanupFinalizer : string := "kubermatic.k8c.io/cleanup-seed-preset".
Definition GatekeeperSeedConstraintCleanupFinalizer : string := "kubermatic.k8c.io/cleanup-gatekeeper-seed-constraint".
Definition GatekeeperSeedConstraintTemplateCleanupFinalizer : string :=
  "kubermatic.k8c.io/cleanup-gatekeeper-master-constraint-templates".
Definition ApplicationDefinitionSeedCleanupFinalizer : string := "kubermatic.k8c.io/cleanup-seed-application-definition".
