(* ===== verification/MasterSync.v ===== *)
(** * From the master to the seeds

    The controllers of [pkg/controller/master-controller-manager] that keep a copy of an
    object of the master on every seed: projects, users, project bindings, cluster
    templates, presets, application definitions, constraints, constraint templates and
    the secrets of applications.  Each guards its object with a finalizer while there
    may be copies. *)

From S2P Require Import Prelude Kube Semver Net CloudApi ClusterApi Helper Corev1 Field ClusterDefaulting Rbac RbacSync Reconciling ClusterDeletion MasterApi.

(** ** Clients *)

(** [sy_read] is the reader of the first [Get] (uncached where the code asks for it);
    [sy_seeds] are the clients of the seeds in the order in which the range over the
    map of clients yields them; [sy_event] records the event of a failure. *)
Record Synchronizer (W O : Type) := mkSynchronizer {
  sy_master : Client W O;
  sy_read : NamespacedName → M W O;
  sy_seeds : list (string * Client W O);
  sy_retry : Retry W;
  sy_equal : O → O → bool;
  sy_poll : M W bool → M W unit;
  sy_event : O → string → W → W;
}.
Arguments sy_master {W O}.
Arguments sy_read {W O}.
Arguments sy_seeds {W O}.
Arguments sy_retry {W O}.
Arguments sy_equal {W O}.
Arguments sy_poll {W O}.
Arguments sy_event {W O}.

(** [!o.DeletionTimestamp.IsZero()] *)
Definition is_deleted {O} `{Object O} (o : O) : bool := negb (PTime_IsZero (om_deletionTimestamp (obj_meta o))).

Section sync.
Context `{StringSets} {W O : Type} `{Object O} (r : Synchronizer W O).

(** [reconciling.Reconcile<Kind>s]. *)
Definition ReconcileNamed (kind : string) (empty : O) (creators : list (string * (O → outcome O))) (namespace : string)
    (client : Client W O) : M W unit :=
  for_range (λ _ '(name, create), wrap ("failed to ensure " +:+ kind)
    (EnsureNamedObject client (sy_equal r) id (sy_poll r) (mkKey namespace name) create empty false)) tt creators.

Definition syncSeeds (msg : string) (action : Client W O → M W unit) : M W unit :=
  for_range (λ _ '(_, seedClient), wrap msg (action seedClient)) tt (sy_seeds r).

(** [ctrlruntimeclient.IgnoreNotFound]. *)
Definition ignoreNotFound (m : M W unit) : M W unit := unless IsNotFound m tt.

(** Failures are recorded at the object before they are wrapped and returned. *)
Definition recorded (obj : O) (msg : string) (m : M W unit) : M W unit :=
  res ← try m;
  match res with
  | inl e => _ ← emit (sy_event r obj (error_string e)); throw (ErrWrap msg e)
  | inr _ => mret tt
  end.

(** The object of a request, which may be gone by now. *)
Definition with_object (get : M W O) (k : O → M W unit) : M W unit :=
  got ← try get;
  match got with
  | inl e => if IsNotFound e then mret tt else throw e
  | inr obj => k obj
  end.

Definition addFinalizer (obj : O) (finalizer : string) : M W O :=
  wrap "failed to add finalizer" (TryAddFinalizer (sy_master r) (sy_retry r) obj [finalizer]).
Definition dropFinalizer (obj : O) (finalizer : string) : M W unit :=
  _ ← TryRemoveFinalizer (sy_master r) (sy_retry r) obj [finalizer]; mret tt.
End sync.

(** ** Projects *)

Module ProjectSync.
Section controller.
Context `{StringSets} {W : Type} (r : Synchronizer W Project).

Definition projectCreator (project p : Project) : outcome Project := Ok (mkProject (pj_meta p) (pj_name project) (pj_phase p)).
Definition ReconcileKubermaticV1Projects := ReconcileNamed r "Project" (mkProject emptyMeta "" "").
Definition syncAllSeeds := syncSeeds r "failed syncing project for seed".

Definition handleDeletion (project : Project) : M W unit :=
  _ ← syncAllSeeds (λ seed, ignoreNotFound (c_delete seed project));
  dropFinalizer r project SeedProjectCleanupFinalizer.

(** Spec and status are two writes: the status is a subresource. *)
Definition syncToSeed (request : NamespacedName) (project : Project) (seed : Client W Project) : M W unit :=
  _ ← wrap "failed to reconcile project"
        (ReconcileKubermaticV1Projects [(om_name (pj_meta project), projectCreator project)] "" seed);
  seedProject ← wrap "failed to fetch project on seed cluster" (c_get seed request);
  _ ← wrap "failed to update project status on seed cluster"
        (c_status_patch seed seedProject (mkProject (pj_meta seedProject) (pj_name seedProject) (pj_phase project)));
  mret tt.

Definition Reconcile (request : NamespacedName) : M W unit :=
  with_object (sy_read r request) (λ project,
    if String.eqb (pj_phase project) "" then mret tt else
    if is_deleted project then wrap "handling deletion" (handleDeletion project) else
    project ← addFinalizer r project SeedProjectCleanupFinalizer;
    recorded r project "reconciled project" (syncAllSeeds (syncToSeed request project))).
End controller.
End ProjectSync.

(** ** Users *)

Module UserSync.
Section controller.
Context `{StringSets} {W : Type} (r : Synchronizer W User).

Definition userCreator (user u : User) : outcome User :=
  Ok (mkUser (set_name (om_name (u_meta user)) (u_meta u)) (u_spec user) (u_status u)).
Definition ReconcileKubermaticV1Users := ReconcileNamed r "User" empty_user.
Definition syncAllSeeds := syncSeeds r "failed syncing user for seed".

Definition handleDeletion (user : User) : M W unit :=
  _ ← syncAllSeeds (λ seed, ignoreNotFound (c_delete seed user));
  dropFinalizer r user SeedUserCleanupFinalizer.

Definition syncToSeed (request : NamespacedName) (user : User) (seed : Client W User) : M W unit :=
  _ ← wrap "failed to reconcile user" (ReconcileKubermaticV1Users [(om_name (u_meta user), userCreator user)] "" seed);
  seedUser ← wrap "failed to fetch user on seed cluster" (c_get seed request);
  _ ← wrap "failed to update user status on seed cluster"
        (c_status_patch seed seedUser (mkUser (u_meta seedUser) (u_spec seedUser) (u_status user)));
  mret tt.

Definition Reconcile (request : NamespacedName) : M W unit :=
  with_object (sy_read r request) (λ user,
    if is_deleted user then wrap "handling deletion" (handleDeletion user) else
    user ← addFinalizer r user SeedUserCleanupFinalizer;
    recorded r user "reconciled user" (syncAllSeeds (syncToSeed request user))).
End controller.
End UserSync.

(** ** Project bindings *)

Module BindingSync.
Section controller.
Context `{StringSets} {W : Type} (r : Synchronizer W UserProjectBinding).

Definition userProjectBindingCreator (b p : UserProjectBinding) : outcome UserProjectBinding :=
  Ok (mkUserProjectBinding (set_labels (om_labels (ub_meta b)) (set_name (om_name (ub_meta b)) (ub_meta p))) (ub_spec b)).
Definition ReconcileKubermaticV1UserProjectBindings := ReconcileNamed r "UserProjectBinding" empty_binding.
Definition syncAllSeeds := syncSeeds r "failed syncing userprojectbinding for seed".

Definition handleDeletion (b : UserProjectBinding) : M W unit :=
  _ ← syncAllSeeds (λ seed, ignoreNotFound (c_delete seed b));
  dropFinalizer r b SeedUserProjectBindingCleanupFinalizer.

Definition Reconcile (request : NamespacedName) : M W unit :=
  with_object (sy_read r request) (λ b,
    if is_deleted b then wrap "handling deletion" (handleDeletion b) else
    b ← addFinalizer r b SeedUserProjectBindingCleanupFinalizer;
    recorded r b "reconciled userprojectbinding" (syncAllSeeds
      (ReconcileKubermaticV1UserProjectBindings [(om_name (ub_meta b), userProjectBindingCreator b)] ""))).
End controller.
End BindingSync.

(** ** Cluster templates *)

Module TemplateSync.
Section controller.
Context `{StringSets} {W : Type} (r : Synchronizer W ClusterTemplate) (secrets : list (string * Client W Secret))
  (emptySpec : ClusterSpec).

(** Labels of clusters and SSH keys are not among the copied fields. *)
Definition clusterTemplateCreator (template c : ClusterTemplate) : outcome ClusterTemplate :=
  let m := tpl_meta template in
  Ok (mkClusterTemplate
        (set_annotations (om_annotations m) (set_labels (om_labels m) (set_name (om_name m) (tpl_meta c))))
        (tpl_clusterLabels c) (tpl_inheritedClusterLabels template) (tpl_credential template) (tpl_userSSHKeys c)
        (tpl_spec template)).
Definition empty_template : ClusterTemplate := mkClusterTemplate emptyMeta ∅ ∅ "" [] emptySpec.
Definition ReconcileKubermaticV1ClusterTemplates := ReconcileNamed r "ClusterTemplate" empty_template.
Definition syncAllSeeds := syncSeeds r "failed syncing cluster template for seed".

Definition stub_template (name : string) : ClusterTemplate := set_meta (set_name name emptyMeta) empty_template.
Definition credential_secret (template : ClusterTemplate) : Secret :=
  mkDataObject (set_namespace KubermaticNamespace (set_name (tpl_credential template) emptyMeta)) ∅.

Definition handleDeletion (template : ClusterTemplate) : M W unit :=
  template ← (if HasFinalizer (tpl_meta template) [ClusterTemplateSeedCleanupFinalizer] then
      _ ← syncAllSeeds (λ seed, ignoreNotFound (c_delete seed (stub_template (om_name (tpl_meta template)))));
      wrap "failed to remove cluster template finalizer"
        (TryRemoveFinalizer (sy_master r) (sy_retry r) template [ClusterTemplateSeedCleanupFinalizer])
    else mret template);
  if HasFinalizer (tpl_meta template) [CredentialsSecretsCleanupFinalizer] then
    _ ← for_range (λ _ '(_, seed), wrap "failed syncing cluster template for seed"
          (ignoreNotFound (c_delete seed (credential_secret template)))) tt secrets;
    _ ← wrap "failed to remove credential secret finalizer"
          (TryRemoveFinalizer (sy_master r) (sy_retry r) template [CredentialsSecretsCleanupFinalizer]);
    mret tt
  else mret tt.

Definition reconcile (request : NamespacedName) : M W unit :=
  with_object (sy_read r (mkKey "" (key_name request))) (λ template,
    if is_deleted template then wrap "handling deletion of cluster template" (handleDeletion template) else
    template ← addFinalizer r template ClusterTemplateSeedCleanupFinalizer;
    recorded r template "reconciled cluster template" (syncAllSeeds
      (ReconcileKubermaticV1ClusterTemplates [(om_name (tpl_meta template), clusterTemplateCreator template)] ""))).
Definition Reconcile := reconcile.
End controller.
End TemplateSync.

(** ** Presets *)

(** A stub with which an object is deleted. *)
Definition named_object {Spec} `{Inhabited Spec} (namespace name : string) : SpecObject Spec :=
  mkSpecObject (set_namespace namespace (set_name name emptyMeta)) inhabitant.

Module PresetSync.
Section controller.
Context `{StringSets} {W PresetSpec : Type} `{Inhabited PresetSpec} (r : Synchronizer W (SpecObject PresetSpec)).
Abbreviation Preset := (SpecObject PresetSpec).

Definition presetCreator (preset c : Preset) : outcome Preset :=
  Ok (mkSpecObject (set_labels (om_labels (so_meta preset)) (set_name (om_name (so_meta preset)) (so_meta c))) (so_spec preset)).
Definition ReconcileKubermaticV1Presets := ReconcileNamed r "Preset" empty_spec_object.
Definition syncAllSeeds := syncSeeds r "failed syncing preset for seed".

Definition handleDeletion (preset : Preset) : M W unit :=
  if HasFinalizer (so_meta preset) [PresetSeedCleanupFinalizer] then
    _ ← syncAllSeeds (λ seed, ignoreNotFound (c_delete seed (named_object "" (om_name (so_meta preset)))));
    wrap "failed to remove preset finalizer" (dropFinalizer r preset PresetSeedCleanupFinalizer)
  else mret tt.

Definition reconcile (request : NamespacedName) : M W unit :=
  with_object (sy_read r (mkKey "" (key_name request))) (λ preset,
    if is_deleted preset then wrap "handling deletion of preset" (handleDeletion preset) else
    preset ← addFinalizer r preset PresetSeedCleanupFinalizer;
    recorded r preset "reconciled preset" (syncAllSeeds
      (ReconcileKubermaticV1Presets [(om_name (so_meta preset), presetCreator preset)] ""))).
Definition Reconcile := reconcile.
End controller.
End PresetSync.

(** ** Application definitions *)

Module ApplicationDefinitionSync.
Section controller.
Context `{StringSets} {W DefinitionSpec : Type} `{Inhabited DefinitionSpec} (r : Synchronizer W (SpecObject DefinitionSpec)).
Abbreviation ApplicationDefinition := (SpecObject DefinitionSpec).

Definition applicationDefCreator (applicationDef a : ApplicationDefinition) : outcome ApplicationDefinition :=
  let m := so_meta applicationDef in
  Ok (mkSpecObject (set_annotations (om_annotations m) (set_labels (om_labels m) (so_meta a))) (so_spec applicationDef)).
Definition ReconcileAppsKubermaticV1ApplicationDefinitions := ReconcileNamed r "ApplicationDefinition" empty_spec_object.
Definition syncAllSeeds := syncSeeds r "failed syncing application definition for seed".

Definition handleDeletion (applicationDef : ApplicationDefinition) : M W unit :=
  if HasFinalizer (so_meta applicationDef) [ApplicationDefinitionSeedCleanupFinalizer] then
    _ ← syncAllSeeds (λ seed, ignoreNotFound (c_delete seed (named_object "" (om_name (so_meta applicationDef)))));
    wrap "failed to remove application definition finalizer"
      (dropFinalizer r applicationDef ApplicationDefinitionSeedCleanupFinalizer)
  else mret tt.

Definition reconcile (request : NamespacedName) : M W unit :=
  with_object (sy_read r request) (λ applicationDef,
    if is_deleted applicationDef then wrap "handling deletion of application definition" (handleDeletion applicationDef) else
    applicationDef ← addFinalizer r applicationDef ApplicationDefinitionSeedCleanupFinalizer;
    recorded r applicationDef "reconciled application definition" (syncAllSeeds
      (ReconcileAppsKubermaticV1ApplicationDefinitions
        [(om_name (so_meta applicationDef), applicationDefCreator applicationDef)] ""))).
Definition Reconcile := reconcile.
End controller.
End ApplicationDefinitionSync.

(** ** Constraints *)

Module ConstraintSync.
Section controller.
Context `{StringSets} {W ConstraintSpec : Type} `{Inhabited ConstraintSpec} (r : Synchronizer W (SpecObject ConstraintSpec))
  (namespace : string).
Abbreviation Constraint := (SpecObject ConstraintSpec).

Definition constraintCreator (constraint c : Constraint) : outcome Constraint :=
  let m := so_meta constraint in
  Ok (mkSpecObject (set_namespace (om_namespace m) (set_name (om_name m) (so_meta c))) (so_spec constraint)).
Definition ReconcileKubermaticV1Constraints := ReconcileNamed r "Constraint" empty_spec_object.
Definition syncAllSeeds := syncSeeds r "failed syncing constraint for seed".

Definition handleDeletion (constraint : Constraint) : M W unit :=
  if negb (HasFinalizer (so_meta constraint) [GatekeeperSeedConstraintCleanupFinalizer]) then mret tt else
  _ ← syncAllSeeds (λ seed,
        ignoreNotFound (c_delete seed (named_object (om_namespace (so_meta constraint)) (om_name (so_meta constraint)))));
  dropFinalizer r constraint GatekeeperSeedConstraintCleanupFinalizer.

Definition reconcile (request : NamespacedName) : M W unit :=
  with_object (sy_read r request) (λ constraint,
    if is_deleted constraint then wrap "handling deletion of constraint" (handleDeletion constraint) else
    constraint ← addFinalizer r constraint GatekeeperSeedConstraintCleanupFinalizer;
    syncAllSeeds (ReconcileKubermaticV1Constraints [(om_name (so_meta constraint), constraintCreator constraint)] namespace)).
Definition Reconcile := reconcile.
End controller.
End ConstraintSync.

(** ** Constraint templates *)

(** The seeds and their clients are looked up in every run. *)
Module ConstraintTemplateSync.
Section controller.
Context `{StringSets} {W TemplateSpec : Type} `{Inhabited TemplateSpec} (r : Synchronizer W (SpecObject TemplateSpec))
  (seedsGetter : M W (list string)) (seedClientGetter : string → M W (Client W (SpecObject TemplateSpec))).
Abbreviation ConstraintTemplate := (SpecObject TemplateSpec).

Definition constraintTemplateCreator (kubeCT ct : ConstraintTemplate) : outcome ConstraintTemplate :=
  Ok (mkSpecObject (set_name (om_name (so_meta kubeCT)) (so_meta ct)) (so_spec kubeCT)).
Definition ReconcileKubermaticV1ConstraintTemplates := ReconcileNamed r "ConstraintTemplate" empty_spec_object.

Definition syncAllSeeds (action : Client W ConstraintTemplate → M W unit) : M W unit :=
  seeds ← wrap "failed listing seeds" seedsGetter;
  for_range (λ _ seed,
    seedClient ← wrap "failed getting seed client for seed" (seedClientGetter seed);
    wrap "failed syncing constraint template for seed" (action seedClient)) tt seeds.

Definition reconcile (constraintTemplate : ConstraintTemplate) : M W unit :=
  if is_some (om_deletionTimestamp (so_meta constraintTemplate)) then
    if negb (HasFinalizer (so_meta constraintTemplate) [GatekeeperSeedConstraintTemplateCleanupFinalizer]) then mret tt else
    _ ← syncAllSeeds (λ seed, ignoreNotFound (c_delete seed (named_object "" (om_name (so_meta constraintTemplate)))));
    dropFinalizer r constraintTemplate GatekeeperSeedConstraintTemplateCleanupFinalizer
  else
  constraintTemplate ← addFinalizer r constraintTemplate GatekeeperSeedConstraintTemplateCleanupFinalizer;
  syncAllSeeds (ReconcileKubermaticV1ConstraintTemplates
    [(om_name (so_meta constraintTemplate), constraintTemplateCreator constraintTemplate)] "").

(** The event is recorded here, and the error returned as it is. *)
Definition Reconcile (request : NamespacedName) : M W unit :=
  got ← try (sy_read r request);
  match got with
  | inl e => if IsNotFound e then mret tt else throw (ErrWrap "failed to get constraint template" e)
  | inr constraintTemplate =>
      res ← try (reconcile constraintTemplate);
      match res with
      | inl e => _ ← emit (sy_event r constraintTemplate (error_string e)); throw e
      | inr _ => mret tt
      end
  end.
End controller.
End ConstraintTemplateSync.

(** ** Secrets of applications

    The creator returns the same object for every seed, whatever is stored there.  The
    client writes the response of the server through that pointer, so that the object
    that is sent to one seed carries what the seed before it has set.  [ensureShared] is
    [EnsureNamedObject] for such a creator and returns the object as it is afterwards. *)
Module ApplicationSecretSync.
Section shared.
Context {W O : Type} `{Object O} (client : Client W O) (DeepEqual : O → O → bool) (poll : M W bool → M W unit).

Definition ensureShared (key : NamespacedName) (shared : O) : M W O :=
  let obj := set_meta (set_name (key_name key) (set_namespace (key_namespace key) (obj_meta shared))) shared in
  got ← try (c_get client key);
  match got with
  | inl e =>
      if negb (IsNotFound e) then throw (ErrWrap "failed to get Object" e) else
      obj ← wrap "failed to create" (c_create client obj);
      _ ← wrap "failed waiting for the cache to contain our newly created object" (poll (WaitUntilObjectExistsInCache client key));
      mret obj
  | inr existingObject =>
      if DeepEqual obj existingObject then mret obj else
      obj ← wrap "failed to update object" (c_update client obj);
      _ ← wrap "failed waiting for the cache to contain our latest changes"
            (poll (waitUntilUpdateIsInCache client DeepEqual key existingObject));
      mret obj
  end.
End shared.

Section controller.
Context {W : Type} (r : Synchronizer W Secret) (namespace : string).

Definition reconcileAllSeeds {S} (action : S → Client W Secret → M W S) (s : S) : M W S :=
  for_range (λ s '(_, seedClient), wrap "failed syncing secret for seed" (action s seedClient)) s (sy_seeds r).

Definition ReconcileSecrets (secret : Secret) (seed : Client W Secret) : M W Secret :=
  wrap "failed to ensure Secret" (ensureShared seed (sy_equal r) (sy_poll r) (mkKey namespace (om_name (do_meta secret))) secret).

Definition handleDeletion (secret : Secret) : M W unit :=
  reconcileAllSeeds (λ _ seed,
    got ← try (c_get seed (object_key secret));
    match got with
    | inl e => if IsNotFound e then mret tt else throw e
    | inr _ => c_delete seed secret
    end) tt.

Definition reconcile (request : NamespacedName) : M W unit :=
  got ← try (sy_read r request);
  match got with
  | inl e =>
      if negb (IsNotFound e) then throw e else
      wrap "failed to delete secret"
        (handleDeletion (mkDataObject (set_namespace namespace (set_name (key_name request) emptyMeta)) ∅))
  | inr secret =>
      let seedsecret := set_meta (set_resourceVersion "" (do_meta secret)) secret in
      recorded r secret "reconciling secret failed" (_ ← reconcileAllSeeds ReconcileSecrets seedsecret; mret tt)
  end.
Definition Reconcile := reconcile.
End controller.

(** [ensureShared] is [EnsureNamedObject] with the constant creator. *)
Lemma ensureShared_named {W O : Type} `{Object O} (client : Client W O) DeepEqual poll key (shared empty : O) w :
  (∀ m m' o, set_meta m (set_meta m' o) = set_meta m o) →
  EnsureNamedObject client DeepEqual id poll key (λ _, Ok shared) empty false w =
  (_ ← ensureShared client DeepEqual poll key shared; mret tt) w.
Proof.
  intros Hss. unfold EnsureNamedObject, ensureShared, createWithName, createWithNamespace.
  unfold mbind, M_MBind, M_bind, try, wrap, lift, throw, mret, M_MRet, M_ret.
  destruct (c_get client key w) as [[existing|e|p|] w1]; cbn; try done.
  - rewrite obj_meta_set, Hss. unfold id. destruct (DeepEqual _ existing); [done|].
    destruct (c_update client _ w1) as [[o|e|p|] w2]; try done. by destruct (poll _ w2) as [[[]|e|p|] w3].
  - destruct (negb (IsNotFound e)); [done|]. rewrite obj_meta_set, Hss.
    destruct (c_create client _ w1) as [[o|e'|p|] w2]; try done. by destruct (poll _ w2) as [[[]|e'|p|] w3].
Qed.
End ApplicationSecretSync.
