(* ===== verification/MasterSyncSpec.v ===== *)
(** * Copies on the seeds

    What a run of a synchronizer does to the object on the master and to its copies on
    the seeds.  The stores are named: the master and a seed may be the same cluster, and
    so may two seeds. *)

From S2P Require Import Prelude Kube Semver Net CloudApi ClusterApi Helper Corev1 Field ClusterDefaulting Rbac RbacSync Reconciling ClusterDeletion MasterApi MasterSync.

(** ** Stores *)

(** A client of the store [i], in terms of what each store holds under each key.
    [main] are the fields that main writes store, [status] the status subresource.
    Reads return what is stored; a write that fails may have been applied; a deleted
    object stays as long as it has finalizers, and goes when an update takes the last
    one. *)
Section store.
Context {W O I X Y : Type} `{Object O} (view : I → NamespacedName → W → option O) (main : O → X) (status : O → Y).

Definition elsewhere (i : I) (k : NamespacedName) (w w' : W) : Prop := ∀ j k', (j, k') ≠ (i, k) → view j k' w' = view j k' w.
Definition finalizers (o : O) : list string := om_finalizers (obj_meta o).
Definition deletion (o : O) : option Z := om_deletionTimestamp (obj_meta o).

Record at_store (client : Client W O) (i : I) : Prop := {
  as_get : ∀ k j k', keeps (view j k') (c_get client k);
  as_get_ok : ∀ k w o w', c_get client k w = (Ok o, w') → view i k w = Some o ∧ object_key o = k;
  as_get_missing : ∀ k w e w', c_get client k w = (Err e, w') → IsNotFound e = true → view i k w = None;
  as_create : ∀ o w z w', c_create client o w = (z, w') → elsewhere i (object_key o) w w' ∧
    ((view i (object_key o) w' = view i (object_key o) w ∧ ∀ x, z ≠ Ok x) ∨
     (view i (object_key o) w = None ∧ ∃ x, view i (object_key o) w' = Some x ∧ main x = main o));
  as_update : ∀ o w z w', c_update client o w = (z, w') → elsewhere i (object_key o) w w' ∧
    (∀ y, z = Ok y → object_key y = object_key o) ∧
    ((view i (object_key o) w' = view i (object_key o) w ∧ ∀ x, z ≠ Ok x) ∨
     ∃ old, view i (object_key o) w = Some old ∧
       ((view i (object_key o) w' = None ∧ finalizers o = [] ∧ finalizers old ≠ []) ∨
        ∃ x, view i (object_key o) w' = Some x ∧ main x = main o ∧ finalizers x = finalizers o ∧
          deletion x = deletion old ∧ status x = status old ∧ object_key x = object_key o ∧ (∀ y, z = Ok y → y = x)));
  as_status_patch : ∀ old new w z w', c_status_patch client old new w = (z, w') →
    view i (object_key old) w = Some old → elsewhere i (object_key old) w w' ∧
    ((view i (object_key old) w' = Some old ∧ ∀ x, z ≠ Ok x) ∨
     ∃ x, view i (object_key old) w' = Some x ∧ main x = main old ∧ finalizers x = finalizers old ∧
       deletion x = deletion old ∧ status x = status new);
  as_delete : ∀ o w z w', c_delete client o w = (z, w') → elsewhere i (object_key o) w w' ∧
    (view i (object_key o) w' = view i (object_key o) w ∨
     (∃ old, view i (object_key o) w = Some old ∧ finalizers old = [] ∧ view i (object_key o) w' = None) ∨
     (∃ old x, view i (object_key o) w = Some old ∧ view i (object_key o) w' = Some x ∧ finalizers x = finalizers old ∧
        is_Some (deletion x))) ∧
    (z = Ok tt ∨ (∃ e, z = Err e ∧ IsNotFound e = true) → ∀ x, view i (object_key o) w' = Some x → is_Some (deletion x));
}.
End store.

(** The world of a synchronizer. *)
Class SyncWorld {W O I X Y : Type} `{Object O} (r : Synchronizer W O) (main : O → X) (status : O → Y) := {
  sv_view : I → NamespacedName → W → option O;
  sv_master : I;
  sv_store : string → I;
  sv_at_master : at_store sv_view main status (sy_master r) sv_master;
  sv_at_seed : ∀ n c, (n, c) ∈ sy_seeds r → at_store sv_view main status c (sv_store n);
  sv_read : ∀ k j k', keeps (sv_view j k') (sy_read r k);
  sv_read_ok : ∀ k w o w', sy_read r k w = (Ok o, w') → sv_view sv_master k w = Some o ∧ object_key o = k;
  sv_read_missing : ∀ k w e w', sy_read r k w = (Err e, w') → IsNotFound e = true → sv_view sv_master k w = None;
  sv_poll : ∀ A (v : W → A) cond, keeps v cond → keeps v (sy_poll r cond);
  sv_event : ∀ o msg j k w, sv_view j k (sy_event r o msg w) = sv_view j k w;
  sv_equal : ∀ a b, sy_equal r a b = true → main a = main b;
  sv_main : ∀ m o, om_labels m = om_labels (obj_meta o) → om_annotations m = om_annotations (obj_meta o) →
    main (set_meta m o) = main o;
  sv_status : ∀ m o, status (set_meta m o) = status o;
}.

(** A controller that works on one store [i], seen as a synchronizer without seeds: what
    is shown below about copies and finalizers then holds for it, too. *)
Section alone.
Context {W O I X Y : Type} `{Object O} (client : Client W O) (retry : Retry W) (equal : O → O → bool) (poll : M W bool → M W unit)
  (view : I → NamespacedName → W → option O) (main : O → X) (status : O → Y) (i : I).
Definition alone : Synchronizer W O := mkSynchronizer _ _ client (c_get client) [] retry equal poll (λ _ _ w, w).
Definition alone_world (Hat : at_store view main status client i)
    (Hpoll : ∀ A (v : W → A) cond, keeps v cond → keeps v (poll cond))
    (Hequal : ∀ a b, equal a b = true → main a = main b)
    (Hmain : ∀ m o, om_labels m = om_labels (obj_meta o) → om_annotations m = om_annotations (obj_meta o) → main (set_meta m o) = main o)
    (Hstatus : ∀ m o, status (set_meta m o) = status o) : SyncWorld (I := I) alone main status.
Proof.
  refine {| sv_view := view; sv_master := i; sv_store := λ _, i |}; try done.
  - by intros n c ?%elem_of_nil.
  - intros. apply (as_get _ _ _ _ _ Hat).
  - intros k w o w'. apply (as_get_ok _ _ _ _ _ Hat).
  - intros k w e w'. apply (as_get_missing _ _ _ _ _ Hat).
Defined.
End alone.

(** Ensuring an object leaves alone what reading and writing its kind leaves alone. *)
Lemma keeps_ensure {W O X : Type} `{Object O} (v : W → X) (client : Client W O) equal poll key create empty :
  (∀ cond, keeps v cond → keeps v (poll cond)) →
  (∀ k, keeps v (c_get client k)) → (∀ o, keeps v (c_create client o)) → (∀ o, keeps v (c_update client o)) →
  keeps v (EnsureNamedObject client equal id poll key create empty false).
Proof.
  intros Hp Hg Hc Hu. unfold EnsureNamedObject. simpl negb. cbv iota.
  unfold WaitUntilObjectExistsInCache, waitUntilUpdateIsInCache. repeat (frame; try apply Hp).
Qed.

(** Less of what is stored. *)
Lemma at_store_weaken {W O I X X' Y : Type} `{Object O} (view : I → NamespacedName → W → option O) (main : O → X) (f : X → X') (status : O → Y) client i :
  at_store view main status client i → at_store view (λ o, f (main o)) status client i.
Proof.
  intros [H1 H2 H3 H4 H5 H6 H7]. split; try done.
  - intros o w z w' E. destruct (H4 _ _ _ _ E) as [He Hc]. split; [done|]. destruct Hc as [Hc|(Hn & x & Hx & Hm)]; [by left|right]. split; [done|].
    exists x. by rewrite Hm.
  - intros o w z w' E. destruct (H5 _ _ _ _ E) as (He & Hk & Hc). split_and!; [done..|]. destruct Hc as [Hc|(old & Ho & Hc)]; [by left|right].
    exists old. split; [done|]. destruct Hc as [Hc|(x & ? & Hm & Hrest)]; [by left|right]. exists x. by rewrite Hm.
  - intros old new w z w' E Hv. destruct (H6 _ _ _ _ _ E Hv) as [He Hc]. split; [done|]. destruct Hc as [Hc|(x & ? & Hm & Hrest)]; [by left|right].
    exists x. by rewrite Hm.
Qed.

(** ** One entry *)

Section acts.
Context {W O I : Type} `{EqDecision I} (view : I → NamespacedName → W → option O) (k : NamespacedName).

(** [runs w i R G m]: run from [w], [m] changes, whatever its outcome, at most the
    object [k] of the store [i], as [R] allows; if it succeeds, [G] holds of that
    object.  [acts] is the same from every world. *)
Definition runs (w : W) (i : I) (R : relation (option O)) (G : option O → Prop) {A} (m : M W A) : Prop := ∀ z w', m w = (z, w') →
  elsewhere view i k w w' ∧ R (view i k w) (view i k w') ∧ (∀ a, z = Ok a → G (view i k w')).
Definition acts (i : I) (R : relation (option O)) (G : option O → Prop) {A} (m : M W A) : Prop := ∀ w, runs w i R G m.

Lemma runs_wrap w i R G {A} msg (m : M W A) : runs w i R G m → runs w i R G (wrap msg m).
Proof.
  intros Hm z w'. unfold wrap. destruct (m w) as [o w1] eqn:E. destruct (Hm _ _ E) as (? & ? & ?).
  destruct o; intros [= <- <-]; by split_and!.
Qed.
Lemma runs_keeps w i R (G : option O → Prop) {A} (m : M W A) : Reflexive R → (∀ j k', keeps (view j k') m) →
  (∀ a w', m w = (Ok a, w') → G (view i k w)) → runs w i R G m.
Proof.
  intros ? Hm Hok z w' E. split; [intros j k' _; by rewrite (Hm _ _ _ _ _ E)|]. rewrite (Hm _ _ _ _ _ E). split; [done|].
  intros a ->. by eapply Hok.
Qed.
Lemma runs_bind w i R G1 G {A B} (m : M W A) (f : A → M W B) : Transitive R → runs w i R G1 m →
  (∀ a w1, m w = (Ok a, w1) → G1 (view i k w1) → runs w1 i R G (f a)) → runs w i R G (m ≫= f).
Proof.
  intros HR Hm Hf z w'. unfold mbind, M_MBind, M_bind. destruct (m w) as [o w1] eqn:E. destruct (Hm _ _ E) as (He & HR1 & HG1).
  destruct o as [a|e|p|]; intros Ez; [|injection Ez as <- <-; by split_and!..].
  destruct (Hf a w1 eq_refl (HG1 a eq_refl) _ _ Ez) as (He2 & HR2 & HG2). split_and!; [|by etrans|done].
  intros j k' Hne. by rewrite He2, He.
Qed.
(** Reading first, and waiting afterwards. *)
Lemma runs_read w i R G {A B} (m : M W A) (f : A → M W B) : PreOrder R → (∀ j k', keeps (view j k') m) →
  (∀ a w1, m w = (Ok a, w1) → (∀ j k', view j k' w1 = view j k' w) → runs w1 i R G (f a)) → runs w i R G (m ≫= f).
Proof.
  intros HR Hm Hf. apply (runs_bind w i R (λ _, True)); [apply _|by apply runs_keeps; [apply _|..]|].
  intros a w1 E _. apply Hf; [done|]. intros j k'. by apply (Hm j k') in E.
Qed.
Lemma runs_wait w i R G {A B} (m : M W A) (f : A → M W B) : PreOrder R → (∀ a j k', keeps (view j k') (f a)) →
  runs w i R G m → runs w i R G (m ≫= f).
Proof. intros HR Hf Hm. apply (runs_bind w i R G); [apply _|done|]. intros a w1 _ HG. apply runs_keeps; [apply _|apply Hf|done]. Qed.

(** The same for the whole world: [k] is the only key that changes, in every store as
    [R] allows. *)
Definition spreads (R : relation (option O)) (w w' : W) : Prop :=
  (∀ j k', k' ≠ k → view j k' w' = view j k' w) ∧ (∀ j, R (view j k w) (view j k w')).

Lemma acts_spreads i R G {A} (m : M W A) w z w' : Reflexive R → acts i R G m → m w = (z, w') → spreads R w w'.
Proof.
  intros HR Hm E. destruct (Hm _ _ _ E) as (He & Hi & _). split; [intros j k' Hne; apply He; congruence|].
  intros j. destruct (decide (j = i)) as [->|Hne]; [done|]. rewrite He by congruence. reflexivity.
Qed.
Lemma spreads_refl R w : Reflexive R → spreads R w w.
Proof. by split. Qed.
Lemma spreads_trans R w1 w2 w3 : Transitive R → spreads R w1 w2 → spreads R w2 w3 → spreads R w1 w3.
Proof. intros ? [H1 H2] [H3 H4]. split; [intros j k' Hne; by rewrite H3, H1|]. intros j. by etrans. Qed.
Lemma spreads_keeps R {A} (m : M W A) w z w' : Reflexive R → (∀ j k', keeps (view j k') m) → m w = (z, w') → spreads R w w'.
Proof. intros ? Hm E. split; [intros j k' _|intros j]; by rewrite (Hm _ _ _ _ _ E). Qed.

(** A loop over stores in any order, possibly with repetitions. *)
Lemma acts_loop {A} (st : A → I) R G (body : A → M W unit) l : PreOrder R → (∀ x y, R x y → G x → G y) →
  (∀ a, a ∈ l → acts (st a) R G (body a)) → ∀ w z w', for_range (λ _ a, body a) tt l w = (z, w') →
  spreads R w w' ∧ (z = Ok tt → ∀ a, a ∈ l → G (view (st a) k w')).
Proof.
  intros HR HG. induction l as [|a l IH]; intros Hb w z w' E; simpl in E.
  { injection E as <- <-. split; [by apply spreads_refl, _|]. by intros _ a ?%elem_of_nil. }
  unfold mbind, M_MBind, M_bind in E. destruct (body a w) as [o w1] eqn:Ea.
  assert (Hs1 : spreads R w w1) by (eapply acts_spreads; [apply _|apply Hb; left|exact Ea]). destruct (Hb a ltac:(left) _ _ _ Ea) as (_ & _ & HG1).
  destruct o as [[]|e|p|]; [|by injection E as <- <-..].
  destruct (IH ltac:(intros b Hin; apply Hb; by right) _ _ _ E) as [Hs2 HG2]. split; [by eapply spreads_trans; [apply _|..]|].
  intros Hz b [->|Hin]%elem_of_cons; [|by apply HG2]. eapply HG; [apply Hs2|]. by eapply HG1.
Qed.
End acts.

(** A loop over keys of one store, possibly with repetitions. *)
Lemma keys_loop {W O I A : Type} `{EqDecision I} (view : I → NamespacedName → W → option O) (i : I) (key_of : A → NamespacedName)
    (R : relation (option O)) G (body : A → M W unit) l : PreOrder R → (∀ x y, R x y → G x → G y) →
  (∀ a, a ∈ l → acts view (key_of a) i R G (body a)) → ∀ w z w', for_range (λ _ a, body a) tt l w = (z, w') →
  (∀ j k, (∀ a, a ∈ l → (j, k) ≠ (i, key_of a)) → view j k w' = view j k w) ∧ (∀ j k, R (view j k w) (view j k w')) ∧
  (z = Ok tt → ∀ a, a ∈ l → G (view i (key_of a) w')).
Proof.
  intros HR HG. induction l as [|a l IH]; intros Hb w z w' E; simpl in E.
  { injection E as <- <-. split_and!; [done|intros; reflexivity|by intros _ a ?%elem_of_nil]. }
  unfold mbind, M_MBind, M_bind in E. destruct (body a w) as [o w1] eqn:Ea. destruct (Hb a ltac:(left) _ _ _ Ea) as (He & HR1 & HG1).
  assert (Hall : ∀ j k, R (view j k w) (view j k w1)).
  { intros j k. destruct (decide ((j, k) = (i, key_of a))) as [[= -> ->]|Hne]; [done|]. rewrite He by done. reflexivity. }
  assert (Hf : ∀ j k, (∀ b, b ∈ a :: l → (j, k) ≠ (i, key_of b)) → view j k w1 = view j k w) by (intros j k Hk; apply He, Hk; left).
  destruct o as [[]|e|p|]; [|by injection E as <- <-..].
  destruct (IH ltac:(intros b Hin; apply Hb; by right) _ _ _ E) as (Hf2 & HR2 & HG2). split_and!.
  - intros j k Hk. rewrite Hf2, Hf; [done..|]. intros b Hin. apply Hk. by right.
  - intros j k. etrans; [apply Hall|apply HR2].
  - intros Hz b [->|Hin]%elem_of_cons; [|by apply HG2]. eapply HG; [apply HR2|]. by eapply HG1.
Qed.

(** ** Copying *)

Section copy.
Context `{StringSets} {W O I X Y : Type} `{Object O, EqDecision I} (r : Synchronizer W O) (main : O → X) (status : O → Y)
  `{!SyncWorld (I := I) r main status} (k : NamespacedName).

(** What the copy of [p] may go through: its main fields are written, or its status. *)
Inductive copying (p : O) (old new : option O) : Prop :=
| copying_main x : new = Some x → main x = main p →
    (∀ y, old = Some y → finalizers x = finalizers y ∧ deletion x = deletion y ∧ status x = status y) → copying p old new
| copying_status x y : old = Some y → new = Some x → main x = main y → finalizers x = finalizers y →
    deletion x = deletion y → status x = status p → copying p old new.
Abbreviation copied p := (rtc (copying p)).

Definition same_main (p : O) (o : option O) : Prop := ∃ x, o = Some x ∧ main x = main p.
Definition is_copy (p : O) (o : option O) : Prop := ∃ x, o = Some x ∧ main x = main p ∧ status x = status p.

Lemma same_main_copied p a b : copied p a b → same_main p a → same_main p b.
Proof.
  induction 1 as [o|a b c Hab _ IH]; [done|]. intros (x & -> & Hx). apply IH.
  destruct Hab as [y -> ? _|y z [= <-] -> ? _ _ _]; [by exists y|]. exists y. by split; [|congruence].
Qed.
Lemma is_copy_copied p a b : copied p a b → is_copy p a → is_copy p b.
Proof.
  induction 1 as [o|a b c Hab _ IH]; [done|]. intros (x & -> & Hx & Hs). apply IH.
  destruct Hab as [y -> ? Hy|y z [= <-] -> ? _ _ ?]; exists y; split_and!; try done; [|congruence].
  destruct (Hy x eq_refl) as (_ & _ & ?). congruence.
Qed.
Lemma copied_meta p a b x : copied p a b → a = Some x → ∃ y, b = Some y ∧ finalizers y = finalizers x ∧ deletion y = deletion x.
Proof.
  intros Hab. revert x. induction Hab as [o|a b c Hab _ IH]; intros x ->; [by exists x|].
  destruct Hab as [y -> _ Hy|y z [= <-] -> _ Hf Hd _].
  - destruct (IH y eq_refl) as (u & -> & ? & ?). destruct (Hy x eq_refl) as (? & ? & _). exists u. split; [done|]. split; congruence.
  - destruct (IH y eq_refl) as (u & -> & ? & ?). exists u. split; [done|]. split; congruence.
Qed.

(** [EnsureNamedObject] with a creator that puts the main fields of [p] into what is
    there. *)
Definition copies (p : O) (create : O → outcome O) : Prop := ∀ e y, create e = Ok y → main y = main p ∧ finalizers y = finalizers e.

Lemma created_object p create e obj : copies p create →
  createWithName (createWithNamespace create (key_namespace k)) (key_name k) e = Ok obj →
  object_key obj = k ∧ main obj = main p ∧ finalizers obj = finalizers e.
Proof.
  intros Hc E. unfold createWithName, createWithNamespace in E. cbn in E. destruct (create e) as [y| | |] eqn:Ey; try done.
  cbn in E. injection E as <-. destruct (Hc _ _ Ey) as [Hm Hf]. unfold object_key, finalizers. rewrite !obj_meta_set. cbn.
  split; [by destruct k|]. split; [|done]. rewrite <- Hm. rewrite sv_main; [|by rewrite obj_meta_set..]. by rewrite sv_main.
Qed.

Lemma ensure_acts i client p create empty : at_store sv_view main status client i → copies p create →
  acts sv_view k i (copied p) (same_main p) (EnsureNamedObject client (sy_equal r) id (sy_poll r) k create empty false).
Proof.
  intros Hat Hc w. unfold EnsureNamedObject.
  assert (Hg : ∀ k' j k'', keeps (sv_view j k'') (c_get client k')) by (intros; by eapply as_get).
  apply runs_read; [apply _|intros; frame|]. intros [e|existing] w1 Eg Hw1.
  - destruct (negb (IsNotFound e)); [apply runs_keeps; [apply _|intros; frame|done]|].
    apply runs_read; [apply _|intros; frame|]. intros obj w2 [Eo <-]%wrap_ok_inv%lift_ok_inv _.
    destruct (created_object _ _ _ _ Hc Eo) as (Hk & Hm & _).
    apply runs_wait; [apply _|intros; unfold WaitUntilObjectExistsInCache; apply keeps_wrap, sv_poll; frame|].
    apply runs_wrap. intros z w' E. destruct (as_create _ _ _ _ _ Hat _ _ _ _ E) as [He Hcase]. rewrite Hk in He, Hcase. split; [done|].
    destruct Hcase as [[-> Hno]|(Hnone & x & -> & Hx)]; [split; [done|]; intros a ->; by destruct (Hno a)|].
    split; [|intros; exists x; split; [done|congruence]]. apply rtc_once, (copying_main _ _ _ x); [done|congruence|]. by rewrite Hnone.
  - assert (Hex : sv_view i k w1 = Some existing).
    { apply try_ok_inv in Eg as [(o & [= <-] & Eg)|(e & [=] & _)]. rewrite Hw1. by apply (as_get_ok _ _ _ _ _ Hat) in Eg as [? _]. }
    apply runs_read; [apply _|intros; frame|]. intros obj w2 [Eo <-]%wrap_ok_inv%lift_ok_inv _.
    destruct (created_object _ _ _ _ Hc Eo) as (Hk & Hm & Hf). destruct (sy_equal r obj existing) eqn:Eq.
    { apply runs_keeps; [apply _|intros; frame|]. intros _ _ _. exists existing. split; [done|]. apply sv_equal in Eq. congruence. }
    apply runs_wait; [apply _|intros; unfold waitUntilUpdateIsInCache; apply keeps_wrap, sv_poll; frame|].
    apply runs_wrap. intros z w' E. destruct (as_update _ _ _ _ _ Hat _ _ _ _ E) as (He & _ & Hcase). unfold id in *. rewrite Hk in He, Hcase. split; [done|].
    destruct Hcase as [[-> Hno]|(old & Hold & [(_ & Hn & Hne)|(x & -> & Hx & Hfx & Hd & Hs & _ & _)])].
    + split; [done|]. intros a ->. by destruct (Hno a).
    + assert (old = existing) as -> by congruence. by rewrite <- Hf in Hne.
    + assert (old = existing) as -> by congruence. split; [|intros; exists x; split; [done|congruence]].
      apply rtc_once, (copying_main _ _ _ x); [done|congruence|]. rewrite Hold. intros y [= <-]. split_and!; congruence.
Qed.
Lemma reconcile_acts i client kind p create empty ns name : mkKey ns name = k → at_store sv_view main status client i → copies p create →
  acts sv_view k i (copied p) (same_main p) (ReconcileNamed r kind empty [(name, create)] ns client).
Proof.
  intros Hk Hat Hc w. apply runs_wait; [apply _|intros; apply keeps_ret|]. apply runs_wrap. rewrite Hk. by apply ensure_acts.
Qed.

(** The status follows the main fields. *)
Lemma push_acts i client p upd {A} (m : M W A) msg msg' : at_store sv_view main status client i →
  acts sv_view k i (copied p) (same_main p) m → (∀ o, status (upd o) = status p) →
  acts sv_view k i (copied p) (is_copy p) (_ ← m; o ← wrap msg (c_get client k); _ ← wrap msg' (c_status_patch client o (upd o)); mret tt).
Proof.
  intros Hat Hm Hu w. apply (runs_bind _ _ _ _ _ (same_main p)); [apply _|apply Hm|]. intros _ w1 _ (x & Hx & Hmain).
  apply runs_read; [apply _|intros; apply keeps_wrap; by eapply as_get|]. intros o w2 Eg Hw2.
  apply wrap_ok_inv, (as_get_ok _ _ _ _ _ Hat) in Eg as [Ho Hk]. assert (o = x) as -> by congruence.
  rewrite <- (Hw2 i k) in Hx. apply runs_wait; [apply _|intros; apply keeps_ret|]. apply runs_wrap. intros z w' E.
  destruct (as_status_patch _ _ _ _ _ Hat _ _ _ _ _ E) as [He Hcase]; [by rewrite Hk|]. rewrite Hk in He, Hcase. split; [done|]. rewrite Hx.
  destruct Hcase as [[-> Hno]|(y & -> & ? & ? & ? & Hs)]; [split; [done|]; intros a ->; by destruct (Hno a)|]. rewrite Hu in Hs.
  split; [by apply rtc_once, (copying_status _ _ _ y x)|]. intros _ _. exists y. split_and!; congruence.
Qed.

(** ** Deleting *)

Definition dropped (a b : option O) : Prop :=
  b = a ∨ (∃ x, a = Some x ∧ finalizers x = [] ∧ b = None) ∨
  (∃ x y, a = Some x ∧ b = Some y ∧ finalizers y = finalizers x ∧ is_Some (deletion y)).
Definition gone (o : option O) : Prop := ∀ x, o = Some x → is_Some (deletion x).

#[global] Instance dropped_preorder : PreOrder dropped.
Proof.
  split; [by left|]. intros a b c Hab [->|[(y & -> & Hf & ->)|(y & z & -> & -> & Hf & Hd)]]; [done|..].
  - destruct Hab as [<-|[(x & _ & _ & [=])|(x & z & -> & [= <-] & Hf' & _)]]; [by right; left; exists y|].
    right. left. exists x. split; [done|]. by rewrite <- Hf'.
  - destruct Hab as [<-|[(x & _ & _ & [=])|(x & u & -> & [= <-] & Hf' & _)]]; [by right; right; exists y, z|].
    right. right. exists x, z. split_and!; [done..|congruence|done].
Qed.
Lemma gone_dropped a b : dropped a b → gone a → gone b.
Proof. intros [->|[(x & -> & _ & ->)|(x & y & -> & -> & _ & Hd)]] Hg z Hz; [by apply Hg|done|by injection Hz as <-]. Qed.

Lemma delete_acts i client o : at_store sv_view main status client i → object_key o = k →
  acts sv_view k i dropped gone (ignoreNotFound (c_delete client o)).
Proof.
  intros Hat Hk w z w' E. unfold ignoreNotFound, unless in E. unfold mbind, M_MBind, M_bind, try in E.
  destruct (c_delete client o w) as [u w1] eqn:Ed. destruct (as_delete _ _ _ _ _ Hat _ _ _ _ Ed) as (He & Hd & Hg). rewrite Hk in *.
  assert (w' = w1) as -> by (destruct u as [[]|e| |]; [|destruct (IsNotFound e)|..]; by injection E). split; [done|]. split; [exact Hd|].
  intros a -> x. apply Hg. destruct u as [[]|e| |]; try (by injection E); [by left|]. destruct (IsNotFound e) eqn:En; [|by injection E].
  right. by exists e.
Qed.
(** ** The object on the master *)

(** The object of the master after finalizers were added to [x]. *)
Definition marked (x y : O) : Prop :=
  main y = main x ∧ status y = status x ∧ deletion y = deletion x ∧ object_key y = k ∧ ∀ f, f ∈ finalizers x → f ∈ finalizers y.

Lemma marked_trans x y z : marked x y → marked y z → marked x z.
Proof. intros (? & ? & ? & ? & ?) (? & ? & ? & ? & ?). split_and!; try congruence. auto. Qed.

(** One attempt of [TryAddFinalizer]. *)
Definition add_once (x0 : O) (f : string) : M W O :=
  obj ← c_get (sy_master r) (object_key x0);
  match om_deletionTimestamp (obj_meta obj) with
  | Some _ => mret obj
  | None =>
      let previous := NewString (om_finalizers (obj_meta obj)) in
      let obj := set_meta (AddFinalizer [f] (obj_meta obj)) obj in
      if bool_decide (previous = NewString (om_finalizers (obj_meta obj))) then mret obj else c_update (sy_master r) obj
  end.

Lemma add_attempt x0 f w z w' x : object_key x0 = k → object_key x = k → sv_view sv_master k w = Some x → deletion x = None →
  add_once x0 f w = (z, w') →
  elsewhere sv_view sv_master k w w' ∧ ∃ y, sv_view sv_master k w' = Some y ∧ marked x y ∧
    ∀ p, z = Ok p → marked x p ∧ main p = main y ∧ f ∈ finalizers y.
Proof.
  intros Hk0 Hkx Hx Hd E. pose proof sv_at_master as Hat. unfold add_once in E. rewrite Hk0 in E. unfold mbind, M_MBind, M_bind in E.
  assert (Hself : marked x x) by (split_and!; done).
  destruct (c_get (sy_master r) k w) as [o w1] eqn:Eg. assert (Hw1 : ∀ j k', sv_view j k' w1 = sv_view j k' w)
    by (intros j k'; by apply (as_get _ _ _ _ _ Hat k j k') in Eg).
  assert (Hstay : w' = w1 → (∀ p, z ≠ Ok p) → elsewhere sv_view sv_master k w w' ∧ ∃ y, sv_view sv_master k w' = Some y ∧ marked x y ∧
    ∀ p, z = Ok p → marked x p ∧ main p = main y ∧ f ∈ finalizers y).
  { intros -> Hno. split; [intros j k' _; apply Hw1|]. exists x. rewrite Hw1. split_and!; try done. intros p ->. by destruct (Hno p). }
  destruct o as [obj|e|s|]; [|injection E as <- <-; by apply Hstay..].
  apply (as_get_ok _ _ _ _ _ Hat) in Eg as [Ho Hk]. assert (obj = x) as -> by congruence. unfold deletion in Hd. rewrite Hd in E.
  set (obj := set_meta (AddFinalizer [f] (obj_meta x)) x) in E.
  assert (Hfin : finalizers obj = om_finalizers (AddFinalizer [f] (obj_meta x))) by (unfold finalizers, obj; by rewrite obj_meta_set).
  assert (Hobj : marked x obj).
  { split_and!; [by apply sv_main|apply sv_status|unfold deletion, obj; by rewrite obj_meta_set|unfold object_key, obj; by rewrite obj_meta_set|].
    intros g Hg. rewrite Hfin. apply elem_of_AddFinalizer. by left. }
  assert (Hf : f ∈ finalizers obj) by (rewrite Hfin; apply elem_of_AddFinalizer; right; left).
  case_bool_decide as Hsame.
  - injection E as <- <-. split; [intros j k' _; apply Hw1|]. exists x. rewrite Hw1. split_and!; try done. intros p [= <-].
    split; [done|]. split; [by apply sv_main|]. assert (Hin : f ∈ NewString (om_finalizers (obj_meta x)))
      by (rewrite Hsame; unfold NewString; by rewrite elem_of_list_to_set). unfold NewString in Hin. by rewrite elem_of_list_to_set in Hin.
  - destruct Hobj as (Hm & Hs & Hde & Hko & Hfi). destruct (as_update _ _ _ _ _ Hat _ _ _ _ E) as (He & _ & Hcase). rewrite Hko in He, Hcase.
    assert (He' : elsewhere sv_view sv_master k w w') by (intros j k' Hne; rewrite He, Hw1; done). split; [done|].
    destruct Hcase as [[-> Hno]|(old & Hold & [(_ & Hn & _)|(y & -> & Hy & Hfy & Hdy & Hsy & Hky & Hres)])].
    + exists x. rewrite Hw1. split_and!; try done. intros p ->. by destruct (Hno p).
    + rewrite Hn in Hf. by apply elem_of_nil in Hf.
    + rewrite Hw1, Hx in Hold. injection Hold as <-. exists y. split; [done|]. assert (marked x y).
      { split_and!; try congruence. intros g Hg. rewrite Hfy. auto. } split; [done|]. intros p Hp. rewrite (Hres _ Hp), Hfy. done.
Qed.

Lemma add_finalizer_run x0 f w z w' x : object_key x0 = k → object_key x = k → sv_view sv_master k w = Some x → deletion x = None →
  addFinalizer r x0 f w = (z, w') →
  elsewhere sv_view sv_master k w w' ∧ ∃ y, sv_view sv_master k w' = Some y ∧ marked x y ∧
    ∀ p, z = Ok p → marked x p ∧ main p = main y ∧ f ∈ finalizers y.
Proof.
  intros Hk0 Hkx Hx Hd E. apply wrap_run in E as (z1 & E & Hz1). apply wrap_run in E as (z2 & E & Hz2).
  apply retry_last in E as (w0 & E & HP). fold (add_once x0 f) in E, HP.
  set (inv w1 := elsewhere sv_view sv_master k w w1 ∧ ∃ y, sv_view sv_master k w1 = Some y ∧ marked x y) in *.
  assert (Hstep : ∀ w1 z w2, inv w1 → add_once x0 f w1 = (z, w2) → elsewhere sv_view sv_master k w w2 ∧
    ∃ y, sv_view sv_master k w2 = Some y ∧ marked x y ∧ ∀ p, z = Ok p → marked x p ∧ main p = main y ∧ f ∈ finalizers y).
  { intros w1 z3 w2 [He1 (y & Hy & Hxy)] E2. destruct (add_attempt x0 f w1 z3 w2 y) as [He2 (y2 & Hy2 & Hm2 & Hp)]; try done;
      [by apply Hxy|destruct Hxy as (_ & _ & -> & _); done|]. split; [intros j k' Hne; by rewrite He2, He1|]. exists y2.
    split_and!; [done|by eapply marked_trans|]. intros p Hp2. destruct (Hp p Hp2) as (? & ? & ?). split; [by eapply marked_trans|done]. }
  assert (Hw0 : inv w0).
  { apply HP; [|split; [done|by exists x]]. intros w1 e w2 H1 E2 _. destruct (Hstep _ _ _ H1 E2) as [? (y & ? & ? & _)]. split; [done|]. by exists y. }
  destruct (Hstep _ _ _ Hw0 E) as [He (y & Hy & Hm & Hp)]. split; [done|]. exists y. split_and!; [done..|]. intros p Hpz. by apply Hp, Hz2, Hz1.
Qed.

(** Finalizers were taken from an object, or the object is gone. *)
Definition shrinks (a b : option O) : Prop :=
  (gone a → gone b) ∧ ∀ y, b = Some y → ∃ x, a = Some x ∧ ∀ g, g ∈ finalizers y → g ∈ finalizers x.
Lemma shrinks_refl a : shrinks a a.
Proof. split; [done|]. intros y ->. by exists y. Qed.
Lemma shrinks_trans a b c : shrinks a b → shrinks b c → shrinks a c.
Proof.
  intros [H1 H2] [H3 H4]. split; [auto|]. intros z (y & Hy & Hyz)%H4. destruct (H2 y Hy) as (x & Hx & Hxy). exists x. auto.
Qed.

(** One attempt of [TryRemoveFinalizer]. *)
Definition remove_once (x0 : O) (f : string) : M W O :=
  got ← try (c_get (sy_master r) (object_key x0));
  match got with
  | inl e => if IsNotFound e then mret x0 else throw e
  | inr obj =>
      let previous := NewString (om_finalizers (obj_meta obj)) in
      let obj := set_meta (RemoveFinalizer [f] (obj_meta obj)) obj in
      if bool_decide (previous = NewString (om_finalizers (obj_meta obj))) then mret obj else c_update (sy_master r) obj
  end.

Lemma remove_attempt x0 f w z w' : object_key x0 = k → remove_once x0 f w = (z, w') →
  elsewhere sv_view sv_master k w w' ∧ shrinks (sv_view sv_master k w) (sv_view sv_master k w') ∧
  (∀ p, z = Ok p → object_key p = k ∧ ∀ y, sv_view sv_master k w' = Some y → f ∉ finalizers y).
Proof.
  intros Hk0 E. pose proof sv_at_master as Hat. unfold remove_once in E. rewrite Hk0 in E. unfold mbind, M_MBind, M_bind, try in E.
  destruct (c_get (sy_master r) k w) as [o w1] eqn:Eg. assert (Hw1 : ∀ j k', sv_view j k' w1 = sv_view j k' w)
    by (intros j k'; by apply (as_get _ _ _ _ _ Hat k j k') in Eg).
  destruct o as [obj|e|s|]; [|destruct (IsNotFound e) eqn:En|..]; try (injection E as <- <-; by split_and!; [intros j k' _; apply Hw1|rewrite Hw1; apply shrinks_refl|]).
  2: { injection E as <- <-. rewrite Hw1. split; [intros j k' _; apply Hw1|]. split; [apply shrinks_refl|]. intros p [= <-]. split; [done|].
       by rewrite (as_get_missing _ _ _ _ _ Hat _ _ _ _ Eg En). }
  apply (as_get_ok _ _ _ _ _ Hat) in Eg as [Ho Hk].
  set (new := set_meta (RemoveFinalizer [f] (obj_meta obj)) obj) in E.
  assert (Hfin : ∀ g, g ∈ finalizers new ↔ g ∈ finalizers obj ∧ g ∉ [f]).
  { intros g. unfold finalizers, new. rewrite obj_meta_set. apply elem_of_RemoveFinalizer. }
  assert (Hnf : f ∉ finalizers new) by (rewrite Hfin; intros [_ Hn]; apply Hn; left).
  assert (Hkn : object_key new = k) by (unfold object_key, new; by rewrite obj_meta_set).
  case_bool_decide as Hsame.
  - injection E as <- <-. rewrite Hw1. split; [intros j k' _; apply Hw1|]. split; [apply shrinks_refl|]. intros p [= <-]. split; [done|]. intros y. rewrite Ho. intros [= <-] Hin. apply Hnf.
    unfold NewString in Hsame. assert (f ∈@{gset string} list_to_set (finalizers new)) as Hx; [|by rewrite elem_of_list_to_set in Hx].
    unfold finalizers at 1. rewrite <- Hsame. by rewrite elem_of_list_to_set.
  - destruct (as_update _ _ _ _ _ Hat _ _ _ _ E) as (He & Hkr & Hcase). rewrite Hkn in He, Hkr, Hcase.
    split; [intros j k' Hne; by rewrite He, Hw1|]. rewrite Hw1 in Hcase.
    destruct Hcase as [[-> Hno]|(old & Hold & [(-> & _ & _)|(y & -> & Hy & Hfy & Hdy & Hsy & Hky & Hres)])].
    + split; [apply shrinks_refl|]. intros p ->. by destruct (Hno p).
    + split; [done|]. intros p Hp. by split; [apply Hkr|].
    + assert (old = obj) as -> by congruence. split; [|intros p Hp; rewrite (Hres p Hp); split; [done|]; intros u [= <-]; by rewrite Hfy].
      rewrite Hold. split; [intros Hg u [= <-]; rewrite Hdy; by apply Hg|]. intros u [= <-]. exists obj. split; [done|]. intros g. rewrite Hfy.
      by intros [? _]%Hfin.
Qed.

Lemma remove_finalizer_run x0 f w z w' : object_key x0 = k → TryRemoveFinalizer (sy_master r) (sy_retry r) x0 [f] w = (z, w') →
  elsewhere sv_view sv_master k w w' ∧ shrinks (sv_view sv_master k w) (sv_view sv_master k w') ∧
  (∀ p, z = Ok p → object_key p = k ∧ ∀ y, sv_view sv_master k w' = Some y → f ∉ finalizers y).
Proof.
  intros Hk0 E. apply wrap_run in E as (z1 & E & Hz1). apply retry_last in E as (w0 & E & HP). fold (remove_once x0 f) in E, HP.
  assert (elsewhere sv_view sv_master k w w0 ∧ shrinks (sv_view sv_master k w) (sv_view sv_master k w0)) as [Hw0 Hg0].
  { apply (HP (λ w1, elsewhere sv_view sv_master k w w1 ∧ shrinks (sv_view sv_master k w) (sv_view sv_master k w1)));
      [|split; [done|apply shrinks_refl]].
    intros w1 e w2 [H1 H2] E2 _. destruct (remove_attempt _ _ _ _ _ Hk0 E2) as (H3 & H4 & _).
    split; [intros j k' Hne; by rewrite H3, H1|by eapply shrinks_trans]. }
  destruct (remove_attempt _ _ _ _ _ Hk0 E) as (He & Hg & Hp). split; [intros j k' Hne; by rewrite He, Hw0|]. split; [by eapply shrinks_trans|].
  intros p Hz. by apply Hp, Hz1.
Qed.

Lemma drop_finalizer_run x0 f w z w' : object_key x0 = k → dropFinalizer r x0 f w = (z, w') →
  elsewhere sv_view sv_master k w w' ∧ shrinks (sv_view sv_master k w) (sv_view sv_master k w') ∧
  (z = Ok tt → ∀ y, sv_view sv_master k w' = Some y → f ∉ finalizers y).
Proof.
  intros Hk0 E. unfold dropFinalizer, mbind, M_MBind, M_bind in E.
  destruct (TryRemoveFinalizer _ _ _ _ w) as [o w1] eqn:Er. destruct (remove_finalizer_run _ _ _ _ _ Hk0 Er) as (He & Hg & Hp).
  destruct o as [p| | |]; injection E as <- <-; (split; [done|]); (split; [done|]); try done. intros _. by apply (Hp p).
Qed.

(** ** A whole run *)

(** What a run for the object [k] with the finalizer [f] does, whatever its outcome: no
    other object of the kind changes; a live object loses no finalizer, and has [f] if
    anything but the master's object was touched; after a successful run it has [f] and
    a copy in every store of [stores]; a deleted object with [f] loses it only when no
    store has a live copy any more, and after a successful run has lost it. *)
Definition only_this (w w' : W) : Prop := ∀ j k', k' ≠ k → sv_view j k' w' = sv_view j k' w.
Definition guarded (f : string) (w : W) : Prop := ∃ y, sv_view sv_master k w = Some y ∧ f ∈ finalizers y.
Definition copies_kept (w w' : W) : Prop := ∀ j, j ≠ sv_master → sv_view j k w' = sv_view j k w.
Definition synchronizes (ready : O → Prop) (f : string) (stores : list I) (m : M W unit) : Prop :=
  ∀ w z w' x, m w = (z, w') → sv_view sv_master k w = Some x → ready x →
  (deletion x = None → only_this w w' ∧ (∀ g, g ∈ finalizers x → guarded g w') ∧ (guarded f w' ∨ copies_kept w w') ∧
     (z = Ok tt → guarded f w' ∧ is_copy x (sv_view sv_master k w') ∧ ∀ i, i ∈ stores → is_copy x (sv_view i k w'))) ∧
  (is_deleted x = true → f ∈ finalizers x → only_this w w' ∧
     (¬ guarded f w' → ∀ i, i ∈ stores → gone (sv_view i k w')) ∧ (z = Ok tt → ¬ guarded f w')).

(** The part that copies: [body p] copies [p] to the stores. *)
Definition spreads_copies (stores : list I) (p : O) (m : M W unit) : Prop := ∀ w z w', m w = (z, w') →
  spreads sv_view k (copied p) w w' ∧ (z = Ok tt → ∀ i, i ∈ stores → is_copy p (sv_view i k w')).

Lemma live_run x0 f stores body w z w' x : object_key x0 = k → object_key x = k → sv_view sv_master k w = Some x → deletion x = None →
  (∀ p, marked x p → spreads_copies stores p (body p)) →
  (p ← addFinalizer r x0 f; body p) w = (z, w') →
  only_this w w' ∧ (∀ g, g ∈ finalizers x → guarded g w') ∧ (guarded f w' ∨ copies_kept w w') ∧
  (z = Ok tt → guarded f w' ∧ is_copy x (sv_view sv_master k w') ∧ ∀ i, i ∈ stores → is_copy x (sv_view i k w')).
Proof.
  intros Hk0 Hkx Hx Hd Hb E. unfold mbind, M_MBind, M_bind in E. destruct (addFinalizer r x0 f w) as [o w1] eqn:Ea.
  destruct (add_finalizer_run _ _ _ _ _ _ Hk0 Hkx Hx Hd Ea) as [He (y & Hy & Hm & Hp)].
  assert (Hfr : only_this w w1) by (intros j k' Hne; apply He; congruence).
  destruct o as [p| | |]; [|injection E as <- <-; (split; [done|]); (split; [intros g Hg; exists y; split; [done|by apply Hm]|]);
    (split; [right; intros j Hne; apply He; congruence|done])..].
  destruct (Hp p eq_refl) as (Hmp & Hpy & Hf). destruct (Hb p Hmp _ _ _ E) as [[Hs1 Hs2] Hc].
  split; [intros j k' Hne; by rewrite Hs1, Hfr|]. destruct (copied_meta _ _ _ _ (Hs2 sv_master) Hy) as (u & Hu & Hfu & _).
  assert (Hgf : guarded f w') by (exists u; by rewrite Hfu).
  split; [intros g Hg; exists u; rewrite Hfu; split; [done|by apply Hm]|]. split; [by left|]. intros Hz. split; [done|].
  pose proof Hmp as (Hpm & Hps & _). assert (Hto : ∀ o, is_copy p o → is_copy x o).
  { intros o (v & Hv & Hmv & Hsv). exists v. split_and!; congruence. }
  split; [|intros i Hi; by apply Hto, Hc]. apply Hto, (is_copy_copied _ _ _ (Hs2 sv_master)).
  exists y. destruct Hm as (_ & Hsy & _). split_and!; congruence.
Qed.

Lemma spreads_copies_recorded stores p obj msg m : spreads_copies stores p m → spreads_copies stores p (recorded r obj msg m).
Proof.
  intros Hm w z w' E. unfold recorded, mbind, M_MBind, M_bind, try in E. destruct (m w) as [o w1] eqn:Em.
  destruct (Hm _ _ _ Em) as [[H1 H2] H3]. destruct o as [[]|e|s|]; injection E as <- <-; (split; [|try done]); try done.
  unfold emit. split; [intros j k' Hne|intros j]; rewrite sv_event; auto.
Qed.

(** ** Loops over the seeds *)

Definition seed_stores : list I := map (λ p, sv_store p.1) (sy_seeds r).

Lemma seeds_run R G msg action : PreOrder R → (∀ x y, R x y → G x → G y) →
  (∀ n c, (n, c) ∈ sy_seeds r → acts sv_view k (sv_store n) R G (action c)) →
  ∀ w z w', syncSeeds r msg action w = (z, w') →
  spreads sv_view k R w w' ∧ (z = Ok tt → ∀ i, i ∈ seed_stores → G (sv_view i k w')).
Proof.
  intros HR HG Ha w z w' E. unfold syncSeeds in E.
  rewrite (for_range_ext _ (λ _ p, wrap msg (action p.2))) in E by (by intros [] [n c]).
  destruct (acts_loop sv_view k (λ p : string * Client W O, sv_store p.1) R G (λ p, wrap msg (action p.2)) (sy_seeds r) HR HG
    ltac:(intros [n c] Hin w1; by apply runs_wrap, (Ha n c)) _ _ _ E) as [Hs Hok].
  split; [done|]. intros Hz i (p & -> & Hp)%list_elem_of_fmap. by apply Hok.
Qed.

Lemma seeds_copies p msg action : (∀ n c, (n, c) ∈ sy_seeds r → acts sv_view k (sv_store n) (copied p) (is_copy p) (action c)) →
  spreads_copies seed_stores p (syncSeeds r msg action).
Proof. intros Ha w z w'. apply seeds_run; [apply _|apply is_copy_copied|done]. Qed.

(** Without a status subresource the main fields are all there is to copy. *)
Lemma acts_stateless p i {A} (m : M W A) : (∀ a b : Y, a = b) →
  acts sv_view k i (copied p) (same_main p) m → acts sv_view k i (copied p) (is_copy p) m.
Proof.
  intros Hy Hm w z w' E. destruct (Hm _ _ _ E) as (? & ? & Hok). split_and!; [done..|]. intros a Ha.
  destruct (Hok a Ha) as (x & ? & ?). by exists x.
Qed.

(** The parts of a deletion: [loop] deletes the copies, [drop] takes the finalizer. *)
Definition deletes_copies (stores : list I) (loop : M W unit) : Prop := ∀ w z w', loop w = (z, w') →
  spreads sv_view k dropped w w' ∧ (z = Ok tt → ∀ i, i ∈ stores → gone (sv_view i k w')).
Definition drops_finalizer (f : string) (drop : M W unit) : Prop := ∀ w z w', drop w = (z, w') →
  elsewhere sv_view sv_master k w w' ∧ shrinks (sv_view sv_master k w) (sv_view sv_master k w') ∧
  (z = Ok tt → ∀ y, sv_view sv_master k w' = Some y → f ∉ finalizers y).

Lemma seeds_deleted o msg : object_key o = k →
  deletes_copies seed_stores (syncSeeds r msg (λ seed, ignoreNotFound (c_delete seed o))).
Proof.
  intros Hk w z w'. apply seeds_run; [apply _|apply gone_dropped|]. intros n c Hin. apply delete_acts; [by apply sv_at_seed|done].
Qed.

Lemma dead_run f stores loop drop w z w' x : sv_view sv_master k w = Some x → f ∈ finalizers x →
  deletes_copies stores loop → drops_finalizer f drop → (_ ← loop; drop) w = (z, w') →
  only_this w w' ∧ (¬ guarded f w' → ∀ i, i ∈ stores → gone (sv_view i k w')) ∧ (z = Ok tt → ¬ guarded f w').
Proof.
  intros Hx Hf Hloop Hdrop E. unfold mbind, M_MBind, M_bind in E. destruct (loop w) as [u w1] eqn:Es.
  destruct (Hloop _ _ _ Es) as [[Hs1 Hs2] Hok].
  assert (Hmaster : guarded f w1).
  { destruct (Hs2 sv_master) as [Hsame|[(y & Hy & Hn & _)|(y & v & Hy & Hv & Hfv & _)]].
    - exists x. by rewrite Hsame.
    - assert (y = x) as -> by congruence. rewrite Hn in Hf. by apply elem_of_nil in Hf.
    - exists v. rewrite Hfv. assert (y = x) as -> by congruence. done. }
  destruct u as [[]|e|s|]; [|by injection E as <- <-..].
  destruct (Hdrop _ _ _ E) as (He & Hg & Hz). split; [intros j k' Hne; rewrite He by congruence; by apply Hs1|].
  split; [|intros Ez (y & Hy & Hin); by eapply Hz]. intros _ i Hi. specialize (Hok eq_refl i Hi).
  destruct (decide (i = sv_master)) as [->|Hne]; [by apply (proj1 Hg)|]. by rewrite He by congruence.
Qed.

(** [m] is [m'] up to what is reported about errors. *)
Definition reports (m m' : M W unit) : Prop := ∀ w z w', m w = (z, w') →
  ∃ z1 w2, m' w = (z1, w2) ∧ (∀ j k', sv_view j k' w' = sv_view j k' w2) ∧ (z = Ok tt → z1 = Ok tt).
Lemma reports_ext m m' : (∀ w, m w = m' w) → reports m m'.
Proof. intros Hm w z w' E. exists z, w'. by rewrite <- Hm. Qed.
Lemma reports_wrap msg m m' : reports m m' → reports (wrap msg m) m'.
Proof. intros Hm w z w' (z1 & E & Hz)%wrap_run. destruct (Hm _ _ _ E) as (z2 & w2 & ? & ? & ?). exists z2, w2. auto. Qed.
Lemma reports_event obj (g : error → error) m m' : reports m m' → reports (res ← try m;
    match res with inl e => _ ← emit (sy_event r obj (error_string e)); throw (g e) | inr _ => mret tt end) m'.
Proof.
  intros Hm w z w'. unfold mbind, M_MBind, M_bind, try. destruct (m w) as [o w1] eqn:E. destruct (Hm _ _ _ E) as (z1 & w2 & E2 & Hv & Hz).
  destruct o as [[]|e|s|]; intros [= <- <-]; exists z1, w2; split_and!; try done. intros j k'. unfold emit. by rewrite sv_event.
Qed.

(** The first read of a run. *)
Lemma read_run h g w z w' x : (got ← try (sy_read r k); match got with
    | inl e => if IsNotFound e then mret tt else throw (g e) | inr obj => h obj end) w = (z, w') → sv_view sv_master k w = Some x →
  ∃ w1, (∀ j k', sv_view j k' w1 = sv_view j k' w) ∧
    ((object_key x = k ∧ h x w1 = (z, w')) ∨ (w' = w1 ∧ ∀ a : unit, z ≠ Ok a)).
Proof.
  intros E Hx. unfold mbind, M_MBind, M_bind, try in E. destruct (sy_read r k w) as [o w1] eqn:Er. exists w1.
  split; [intros j k'; by apply (sv_read k j k') in Er|]. destruct o as [y|e|s|]; [|destruct (IsNotFound e) eqn:En|..];
    try (right; injection E as <- <-; by split).
  - apply sv_read_ok in Er as [Hy Hk]. assert (y = x) as -> by congruence. by left.
  - apply sv_read_missing in Er; [congruence|done].
Qed.

Lemma synchronizes_intro (ready : O → Prop) f g stores h :
  (∀ x, ready x → object_key x = k → deletion x = None → ∃ body, reports (h x) (p ← addFinalizer r x f; body p) ∧
     ∀ p, marked x p → spreads_copies stores p (body p)) →
  (∀ x, ready x → object_key x = k → is_deleted x = true → f ∈ finalizers x → ∃ loop drop,
     reports (h x) (_ ← loop; drop) ∧ deletes_copies stores loop ∧ drops_finalizer f drop) →
  synchronizes ready f stores (got ← try (sy_read r k); match got with
    | inl e => if IsNotFound e then mret tt else throw (g e) | inr obj => h obj end).
Proof.
  intros Hlive Hdead w z w' x E Hx Hr. destruct (read_run _ _ _ _ _ _ E Hx) as (w1 & Hw1 & Hcase).
  assert (Hx1 : sv_view sv_master k w1 = Some x) by (by rewrite Hw1).
  destruct Hcase as [[Hk Eh]|[-> Hno]].
  - split.
    + intros Hd. destruct (Hlive x Hr Hk Hd) as (body & Hrep & Hb). destruct (Hrep _ _ _ Eh) as (z1 & w2 & E1 & Hv & Hz).
      destruct (live_run _ _ _ _ _ _ _ _ Hk Hk Hx1 Hd Hb E1) as (Ho & Hg & Hk' & Hok). unfold only_this, guarded, copies_kept in *.
      repeat setoid_rewrite Hv. repeat setoid_rewrite Hw1 in Hk'. split_and!; [intros j k' Hne; by rewrite Ho|done|done|auto].
    + intros Hd Hf. destruct (Hdead x Hr Hk Hd Hf) as (loop & drop & Hrep & Hl & Hdr). destruct (Hrep _ _ _ Eh) as (z1 & w2 & E1 & Hv & Hz).
      destruct (dead_run _ _ _ _ _ _ _ _ Hx1 Hf Hl Hdr E1) as (Ho & Hg & Hok). unfold only_this, guarded. repeat setoid_rewrite Hv.
      split_and!; [intros j k' Hne; by rewrite Ho|done|auto].
  - split; intros; (split; [intros j k' _; apply Hw1|]); (split; [|try split; [..|intros ->; by destruct (Hno tt)]]).
    + intros f' Hg. exists x. by rewrite Hw1.
    + right. intros j _. apply Hw1.
    + intros Hng. destruct Hng. exists x. by rewrite Hw1.
Qed.
End copy.

(** ** The controllers *)

Section controllers.
Context `{StringSets} {W I : Type} `{EqDecision I}.

Lemma in_key {O} `{Object O} (x : O) k : object_key x = k → key_namespace k = "" → mkKey "" (om_name (obj_meta x)) = k.
Proof. intros <- Hns. unfold object_key in *. simpl in Hns. by rewrite <- Hns at 1. Qed.
Lemma not_deleted {O} `{Object O} (x : O) : deletion x = None → is_deleted x = false.
Proof. unfold deletion, is_deleted. by intros ->. Qed.
Lemma finalizer_listed {O} `{Object O} (x : O) f : f ∈ finalizers x → HasFinalizer (obj_meta x) [f] = true.
Proof. intros Hf. apply HasFinalizer_spec. by intros n ->%list_elem_of_singleton. Qed.

(** Seeds whose clients ensure the copy of [p] without a status. *)
Lemma seeds_reconciled {O X} `{Object O} (r : Synchronizer W O) (main : O → X) (status : O → unit)
    `{!SyncWorld (I := I) r main status} k msg kind empty create p ns name :
  mkKey ns name = k → copies main p create →
  spreads_copies r main status k (seed_stores r main status) p
    (syncSeeds r msg (ReconcileNamed r kind empty [(name, create)] ns)).
Proof.
  intros Hk Hc. apply seeds_copies. intros n c Hin. apply acts_stateless; [by intros [] []|].
  apply reconcile_acts; [done|by apply sv_at_seed|done].
Qed.
Lemma drops_simply {O X Y} `{Object O} (r : Synchronizer W O) (main : O → X) (status : O → Y)
    `{!SyncWorld (I := I) r main status} k x f : object_key x = k → drops_finalizer r main status k f (dropFinalizer r x f).
Proof. intros Hk w z w'. by apply drop_finalizer_run. Qed.
Lemma drops_wrapped {O X Y} `{Object O} (r : Synchronizer W O) (main : O → X) (status : O → Y)
    `{!SyncWorld (I := I) r main status} k f msg m : drops_finalizer r main status k f m → drops_finalizer r main status k f (wrap msg m).
Proof. intros Hm w z w' (z1 & E & Hz)%wrap_run. destruct (Hm _ _ _ E) as (? & ? & ?). auto. Qed.

Lemma project_synchronizes (r : Synchronizer W Project) `{!SyncWorld (I := I) r pj_name pj_phase} k : key_namespace k = "" →
  synchronizes r pj_name pj_phase k (λ x, pj_phase x ≠ "") SeedProjectCleanupFinalizer (seed_stores r pj_name pj_phase)
    (ProjectSync.Reconcile r k).
Proof.
  intros Hns. apply (synchronizes_intro r pj_name pj_phase k _ _ (λ e, e)).
  - intros x Hr Hk Hd. eexists. rewrite (proj2 (String.eqb_neq _ _) Hr), (not_deleted _ Hd). split; [by apply reports_ext|].
    intros p (_ & _ & _ & Hkp & _). apply spreads_copies_recorded, seeds_copies. intros n c Hin. unfold ProjectSync.syncToSeed.
    apply push_acts; [by apply sv_at_seed| |done]. intros w. apply runs_wrap.
    apply reconcile_acts; [exact (in_key p k Hkp Hns)|by apply sv_at_seed|]. by intros e y [= <-].
  - intros x Hr Hk Hd Hf. rewrite (proj2 (String.eqb_neq _ _) Hr), Hd. do 2 eexists. split; [by apply reports_wrap, reports_ext|].
    split; [by apply seeds_deleted|by apply drops_simply].
Qed.

(** A project without a phase is not initialised yet: the run leaves everything alone. *)
Lemma project_without_phase (r : Synchronizer W Project) `{!SyncWorld (I := I) r pj_name pj_phase} k w z w' x :
  ProjectSync.Reconcile r k w = (z, w') → sv_view sv_master k w = Some x → pj_phase x = "" → ∀ j k', sv_view j k' w' = sv_view j k' w.
Proof.
  intros E Hx Hp. destruct (read_run r pj_name pj_phase k _ (λ e, e) _ _ _ _ E Hx) as (w1 & Hw1 & [[_ Eh]|[-> _]]); [|done].
  rewrite Hp in Eh. injection Eh as _ <-. done.
Qed.

Lemma user_synchronizes (r : Synchronizer W User) `{!SyncWorld (I := I) r u_spec u_status} k : key_namespace k = "" →
  synchronizes r u_spec u_status k (λ _, True) SeedUserCleanupFinalizer (seed_stores r u_spec u_status) (UserSync.Reconcile r k).
Proof.
  intros Hns. apply (synchronizes_intro r u_spec u_status k _ _ (λ e, e)).
  - intros x _ Hk Hd. eexists. rewrite (not_deleted _ Hd). split; [by apply reports_ext|].
    intros p (_ & _ & _ & Hkp & _). apply spreads_copies_recorded, seeds_copies. intros n c Hin. unfold UserSync.syncToSeed.
    apply push_acts; [by apply sv_at_seed| |done]. intros w. apply runs_wrap.
    apply reconcile_acts; [exact (in_key p k Hkp Hns)|by apply sv_at_seed|]. by intros e y [= <-].
  - intros x _ Hk Hd Hf. rewrite Hd. do 2 eexists. split; [by apply reports_wrap, reports_ext|].
    split; [by apply seeds_deleted|by apply drops_simply].
Qed.

(** The fields that are copied; [ClusterLabels] and [UserSSHKeys] of a template are not. *)
Definition binding_main (b : UserProjectBinding) := (om_labels (ub_meta b), ub_spec b).
Definition preset_main {Spec} (o : SpecObject Spec) := (om_labels (so_meta o), so_spec o).
Definition definition_main {Spec} (o : SpecObject Spec) := (om_labels (so_meta o), om_annotations (so_meta o), so_spec o).
Definition template_main (t : ClusterTemplate) :=
  (om_labels (tpl_meta t), om_annotations (tpl_meta t), tpl_inheritedClusterLabels t, tpl_credential t, tpl_spec t).
Definition no_status {O} (_ : O) : unit := tt.

Lemma binding_synchronizes (r : Synchronizer W UserProjectBinding) `{!SyncWorld (I := I) r binding_main no_status} k : key_namespace k = "" →
  synchronizes r binding_main no_status k (λ _, True) SeedUserProjectBindingCleanupFinalizer (seed_stores r binding_main no_status)
    (BindingSync.Reconcile r k).
Proof.
  intros Hns. apply (synchronizes_intro r binding_main no_status k _ _ (λ e, e)).
  - intros x _ Hk Hd. eexists. rewrite (not_deleted _ Hd). split; [by apply reports_ext|].
    intros p (_ & _ & _ & Hkp & _). apply spreads_copies_recorded, seeds_reconciled; [exact (in_key p k Hkp Hns)|]. by intros e y [= <-].
  - intros x _ Hk Hd Hf. rewrite Hd. do 2 eexists. split; [by apply reports_wrap, reports_ext|].
    split; [by apply seeds_deleted|by apply drops_simply].
Qed.

Lemma preset_synchronizes {Spec} `{Inhabited Spec} (r : Synchronizer W (SpecObject Spec)) `{!SyncWorld (I := I) r preset_main no_status}
    k k' : key_namespace k = "" → key_name k' = key_name k →
  synchronizes r preset_main no_status k (λ _, True) PresetSeedCleanupFinalizer (seed_stores r preset_main no_status)
    (PresetSync.Reconcile r k').
Proof.
  intros Hns Hn. unfold PresetSync.Reconcile, PresetSync.reconcile. rewrite Hn. replace (mkKey "" (key_name k)) with k by (destruct k; simpl in *; congruence).
  apply (synchronizes_intro r preset_main no_status k _ _ (λ e, e)).
  - intros x _ Hk Hd. eexists. rewrite (not_deleted _ Hd). split; [by apply reports_ext|].
    intros p (_ & _ & _ & Hkp & _). apply spreads_copies_recorded, seeds_reconciled; [exact (in_key p k Hkp Hns)|]. by intros e y [= <-].
  - intros x _ Hk Hd Hf. rewrite Hd. unfold PresetSync.handleDeletion. assert (HasFinalizer (so_meta x) [PresetSeedCleanupFinalizer] = true) as -> by exact (finalizer_listed x _ Hf). do 2 eexists.
    split; [by apply reports_wrap, reports_ext|]. split; [apply seeds_deleted; exact (in_key x k Hk Hns)|by apply drops_wrapped, drops_simply].
Qed.

Lemma definition_synchronizes {Spec} `{Inhabited Spec} (r : Synchronizer W (SpecObject Spec))
    `{!SyncWorld (I := I) r definition_main no_status} k : key_namespace k = "" →
  synchronizes r definition_main no_status k (λ _, True) ApplicationDefinitionSeedCleanupFinalizer (seed_stores r definition_main no_status)
    (ApplicationDefinitionSync.Reconcile r k).
Proof.
  intros Hns. apply (synchronizes_intro r definition_main no_status k _ _ (λ e, e)).
  - intros x _ Hk Hd. eexists. rewrite (not_deleted _ Hd). split; [by apply reports_ext|].
    intros p (_ & _ & _ & Hkp & _). apply spreads_copies_recorded, seeds_reconciled; [exact (in_key p k Hkp Hns)|]. by intros e y [= <-].
  - intros x _ Hk Hd Hf. rewrite Hd. unfold ApplicationDefinitionSync.handleDeletion. assert (HasFinalizer (so_meta x) [ApplicationDefinitionSeedCleanupFinalizer] = true) as -> by exact (finalizer_listed x _ Hf). do 2 eexists.
    split; [by apply reports_wrap, reports_ext|]. split; [apply seeds_deleted; exact (in_key x k Hk Hns)|by apply drops_wrapped, drops_simply].
Qed.

(** Constraints live in a namespace, the same on the seeds. *)
Lemma constraint_synchronizes {Spec} `{Inhabited Spec} (r : Synchronizer W (SpecObject Spec)) `{!SyncWorld (I := I) r so_spec no_status} k :
  synchronizes r so_spec no_status k (λ _, True) GatekeeperSeedConstraintCleanupFinalizer (seed_stores r so_spec no_status)
    (ConstraintSync.Reconcile r (key_namespace k) k).
Proof.
  apply (synchronizes_intro r so_spec no_status k _ _ (λ e, e)).
  - intros x _ Hk Hd. eexists. rewrite (not_deleted _ Hd). split; [by apply reports_ext|].
    intros p (_ & _ & _ & Hkp & _). apply seeds_reconciled; [by rewrite <- Hkp|]. by intros e y [= <-].
  - intros x _ Hk Hd Hf. rewrite Hd. unfold ConstraintSync.handleDeletion. assert (HasFinalizer (so_meta x) [GatekeeperSeedConstraintCleanupFinalizer] = true) as -> by exact (finalizer_listed x _ Hf). do 2 eexists.
    split; [by apply reports_wrap, reports_ext|]. split; [by apply seeds_deleted; rewrite <- Hk|by apply drops_simply].
Qed.

(** Cluster templates: the credentials go after the copies. *)
Lemma credentials_run (r : Synchronizer W ClusterTemplate) `{!SyncWorld (I := I) r template_main no_status}
    (secrets : list (string * Client W Secret)) k :
  (∀ n c, (n, c) ∈ secrets → ∀ o j k2, keeps (sv_view j k2) (c_delete c o)) → ∀ t w z w', object_key t = k →
  (if HasFinalizer (tpl_meta t) [CredentialsSecretsCleanupFinalizer] then
     _ ← for_range (λ _ '(_, seed), wrap "failed syncing cluster template for seed"
           (ignoreNotFound (c_delete seed (TemplateSync.credential_secret t)))) tt secrets;
     _ ← wrap "failed to remove credential secret finalizer"
           (TryRemoveFinalizer (sy_master r) (sy_retry r) t [CredentialsSecretsCleanupFinalizer]);
     mret tt
   else mret tt) w = (z, w') →
  elsewhere sv_view sv_master k w w' ∧ shrinks (sv_view sv_master k w) (sv_view sv_master k w').
Proof.
  intros Hsec t w z w' Hk E. destruct (HasFinalizer _ _); [|injection E as <- <-; split; [done|apply shrinks_refl]].
  assert (Hloop : ∀ j k2, keeps (sv_view j k2) (for_range (λ _ '(_, seed), wrap "failed syncing cluster template for seed"
    (ignoreNotFound (c_delete seed (TemplateSync.credential_secret t)))) tt secrets)).
  { intros j k2. generalize tt. assert (Hs : ∀ n c, (n, c) ∈ secrets → keeps (sv_view j k2) (c_delete c (TemplateSync.credential_secret t))) by eauto.
    clear -Hs. induction secrets as [|[n c] l IH]; intros u; simpl; [apply keeps_ret|].
    apply keeps_bind; [|intros u'; apply IH; intros n' c' Hin; eapply Hs; by right].
    unfold ignoreNotFound, unless. pose proof (Hs n c ltac:(left)). frame. }
  unfold mbind at 1, M_MBind at 1, M_bind at 1 in E.
  destruct (for_range _ _ _ w) as [o w1] eqn:El. pose proof (λ j k2, Hloop j k2 _ _ _ El) as Hv.
  destruct o as [[]|e|s|]; [|injection E as <- <-; split; [by intros j k2 _|rewrite Hv; apply shrinks_refl]..].
  assert (∃ z1, TryRemoveFinalizer (sy_master r) (sy_retry r) t [CredentialsSecretsCleanupFinalizer] w1 = (z1, w')) as (z1 & Er).
  { apply bind_run in E as [(p & w2 & Ep & [= _ <-])|[(z2 & Ep & _) _]]; apply wrap_run in Ep as (z1 & ? & _); by exists z1. }
  destruct (remove_finalizer_run r template_main no_status k _ _ _ _ _ Hk Er) as (He & Hg & _).
  split; [intros j k2 Hne; by rewrite He|]. by rewrite <- Hv.
Qed.
Lemma template_synchronizes (r : Synchronizer W ClusterTemplate) `{!SyncWorld (I := I) r template_main no_status} secrets emptySpec k k' :
  key_namespace k = "" → key_name k' = key_name k →
  (∀ n c, (n, c) ∈ secrets → ∀ o j k2, keeps (sv_view j k2) (c_delete c o)) →
  synchronizes r template_main no_status k (λ _, True) ClusterTemplateSeedCleanupFinalizer (seed_stores r template_main no_status)
    (TemplateSync.Reconcile r secrets emptySpec k').
Proof.
  intros Hns Hn Hsec. pose proof (credentials_run r secrets k Hsec) as credentials_run.
  unfold TemplateSync.Reconcile, TemplateSync.reconcile. rewrite Hn.
  replace (mkKey "" (key_name k)) with k by (destruct k; simpl in *; congruence).
  apply (synchronizes_intro r template_main no_status k _ _ (λ e, e)).
  - intros x _ Hk Hd. eexists. rewrite (not_deleted _ Hd). split; [by apply reports_ext|].
    intros p (_ & _ & _ & Hkp & _). apply spreads_copies_recorded, seeds_reconciled; [exact (in_key p k Hkp Hns)|]. by intros e y [= <-].
  - intros x _ Hk Hd Hf. rewrite Hd. unfold TemplateSync.handleDeletion. assert (HasFinalizer (tpl_meta x) [ClusterTemplateSeedCleanupFinalizer] = true) as -> by exact (finalizer_listed x _ Hf).
    exists (TemplateSync.syncAllSeeds r (λ seed, ignoreNotFound (c_delete seed (TemplateSync.stub_template emptySpec (om_name (tpl_meta x)))))).
    exists (t ← wrap "failed to remove cluster template finalizer"
           (TryRemoveFinalizer (sy_master r) (sy_retry r) x [ClusterTemplateSeedCleanupFinalizer]);
      if HasFinalizer (tpl_meta t) [CredentialsSecretsCleanupFinalizer] then
        _ ← for_range (λ _ '(_, seed), wrap "failed syncing cluster template for seed"
              (ignoreNotFound (c_delete seed (TemplateSync.credential_secret t)))) tt secrets;
        _ ← wrap "failed to remove credential secret finalizer"
              (TryRemoveFinalizer (sy_master r) (sy_retry r) t [CredentialsSecretsCleanupFinalizer]);
        mret tt
      else mret tt).
    split; [apply reports_wrap, reports_ext; intros w; refine (bind_assoc _ (λ _, _) _ w)|].
    split; [apply seeds_deleted; exact (in_key x k Hk Hns)|].
    intros w z w' E. apply bind_run in E as [(t & w1 & Et & E)|[(z1 & Et & Hno1) Hno]].
    + apply wrap_ok_inv in Et. destruct (remove_finalizer_run r template_main no_status k _ _ _ _ _ Hk Et) as (He & Hg & Hp).
      destruct (Hp t eq_refl) as [Hkt Hfree]. destruct (credentials_run t w1 z w' Hkt E) as [He2 Hg2].
      split; [intros j k2 Hne; by rewrite He2, He|]. split; [by eapply shrinks_trans|].
      intros _ y (x1 & Hx1 & Hsub)%(proj2 Hg2) Hin. by apply (Hfree x1 Hx1), Hsub.
    + apply wrap_run in Et as (z2 & Et & _). destruct (remove_finalizer_run r template_main no_status k _ _ _ _ _ Hk Et) as (He & Hg & _).
      split; [done|]. split; [done|]. intros ->. by destruct (Hno tt).
Qed.

(** Constraint templates: the seeds are looked up in every run. *)
Section constraint_templates.
Context {Spec : Type} `{Inhabited Spec} (r : Synchronizer W (SpecObject Spec)) `{!SyncWorld (I := I) r so_spec no_status}
  (seedsGetter : M W (list string)) (seedClientGetter : string → M W (Client W (SpecObject Spec))) (seeds : list string).
Context (Hseeds : ∀ j k, keeps (sv_view j k) seedsGetter)
  (Hall : ∀ w l w' s, seedsGetter w = (Ok l, w') → s ∈ seeds → s ∈ l)
  (Hclient : ∀ s j k, keeps (sv_view j k) (seedClientGetter s))
  (Hat : ∀ s w c w', seedClientGetter s w = (Ok c, w') → at_store sv_view so_spec no_status c (sv_store s)).

Lemma looked_up_run k R G action : PreOrder R → (∀ x y, R x y → G x → G y) →
  (∀ i c, at_store sv_view so_spec no_status c i → acts sv_view k i R G (action c)) →
  ∀ w z w', ConstraintTemplateSync.syncAllSeeds seedsGetter seedClientGetter action w = (z, w') →
  spreads sv_view k R w w' ∧ (z = Ok tt → ∀ i, i ∈ map sv_store seeds → G (sv_view i k w')).
Proof.
  intros HR HG Ha w z w' E. apply bind_run in E as [(l & w1 & El & E)|[(z1 & El & _) Hno]].
  - apply wrap_ok_inv in El. pose proof (spreads_keeps sv_view k R seedsGetter _ _ _ _ Hseeds El) as Hs1.
    destruct (acts_loop sv_view k sv_store R G (λ seed, seedClient ← wrap "failed getting seed client for seed" (seedClientGetter seed);
      wrap "failed syncing constraint template for seed" (action seedClient)) l HR HG) with (w := w1) (z := z) (w' := w') as [Hs2 Hok]; [|done|].
    { intros s _ w2. apply runs_read; [done|intros; by apply keeps_wrap|]. intros c w3 Ec%wrap_ok_inv _. apply runs_wrap, Ha. by eapply Hat. }
    split; [by eapply spreads_trans; [apply _|..]|]. intros Hz i (s & -> & Hin)%list_elem_of_fmap. apply Hok; [done|]. by eapply Hall.
  - apply wrap_run in El as (z2 & El & _). split; [by eapply spreads_keeps; [apply _|apply Hseeds|]|]. intros ->. by destruct (Hno tt).
Qed.

Lemma constraint_template_synchronizes k : key_namespace k = "" →
  synchronizes r so_spec no_status k (λ _, True) GatekeeperSeedConstraintTemplateCleanupFinalizer (map sv_store seeds)
    (ConstraintTemplateSync.Reconcile r seedsGetter seedClientGetter k).
Proof.
  intros Hns. unfold ConstraintTemplateSync.Reconcile. apply (synchronizes_intro r so_spec no_status k _ _ (ErrWrap _)).
  - intros x _ Hk Hd. eexists. split; [apply (reports_event _ _ _ _ (λ e, e)), reports_ext; intros w; unfold ConstraintTemplateSync.reconcile|].
    { unfold deletion in Hd. simpl in Hd. by rewrite Hd. }
    intros p (_ & _ & _ & Hkp & _) w z w' E.
    refine (looked_up_run k _ _ _ _ _ _ _ _ _ E); [apply is_copy_copied|]. intros i c Hc. apply acts_stateless; [by intros [] []|].
    apply reconcile_acts; [exact (in_key p k Hkp Hns)|done|]. by intros e y [= <-].
  - intros x _ Hk Hd Hf. do 2 eexists. split; [apply (reports_event _ _ _ _ (λ e, e)), reports_ext; intros w; unfold ConstraintTemplateSync.reconcile|].
    { unfold is_deleted in Hd. simpl in Hd. destruct (om_deletionTimestamp (so_meta x)); [|done]. cbn [is_some].
      assert (HasFinalizer (so_meta x) [GatekeeperSeedConstraintTemplateCleanupFinalizer] = true) as -> by exact (finalizer_listed x _ Hf).
      reflexivity. }
    split; [|by apply drops_simply]. intros w z w' E. refine (looked_up_run k _ _ _ _ _ _ _ _ _ E); [apply gone_dropped|].
    intros i c Hc. apply delete_acts; [done|exact (in_key x k Hk Hns)].
Qed.
End constraint_templates.
End controllers.


(** ** Secrets of applications *)

(** Stores of secrets, by the name of the seed.  An API server sets the resource version
    of what it creates, refuses to create an object that has one, and refuses an update
    whose UID is not that of the stored object. *)
Class SecretStores {W} (r : Synchronizer W Secret) := {
  se_view : string → NamespacedName → W → option Secret;
  se_get : ∀ n c k m k', (n, c) ∈ sy_seeds r → keeps (se_view m k') (c_get c k);
  se_get_ok : ∀ n c k w o w', (n, c) ∈ sy_seeds r → c_get c k w = (Ok o, w') → se_view n k w = Some o;
  se_get_missing : ∀ n c k w e w', (n, c) ∈ sy_seeds r → c_get c k w = (Err e, w') → IsNotFound e = true → se_view n k w = None;
  se_create : ∀ n c o w z w' m k, (n, c) ∈ sy_seeds r → c_create c o w = (z, w') → m ≠ n → se_view m k w' = se_view m k w;
  se_created : ∀ n c o w x w', (n, c) ∈ sy_seeds r → c_create c o w = (Ok x, w') →
    om_resourceVersion (do_meta o) = "" ∧ om_resourceVersion (do_meta x) ≠ "" ∧ object_key x = object_key o;
  se_other_uid : ∀ n c o old w z w', (n, c) ∈ sy_seeds r → se_view n (object_key o) w = Some old →
    om_uid (do_meta o) ≠ "" → om_uid (do_meta o) ≠ om_uid (do_meta old) → c_update c o w = (z, w') →
    se_view n (object_key o) w' = Some old ∧ ∀ x, z ≠ Ok x;
  se_equal : ∀ a b, sy_equal r a b = true → om_uid (do_meta a) = om_uid (do_meta b);
  se_read : ∀ k m k', keeps (se_view m k') (sy_read r k);
  se_poll : ∀ A (v : W → A) cond, keeps v cond → keeps v (sy_poll r cond);
  se_event : ∀ o msg m k w, se_view m k (sy_event r o msg w) = se_view m k w;
}.

Section secrets.
Context {W : Type} (r : Synchronizer W Secret) `{!SecretStores r} (namespace : string).
Import ApplicationSecretSync.

(** The object that is sent to a seed. *)
Definition sent (k : NamespacedName) (s : Secret) : Secret :=
  set_meta (set_name (key_name k) (set_namespace (key_namespace k) (obj_meta s))) s.

(** A seed without the secret: the shared object gets the resource version of the
    created one, and an object with a resource version is not created. *)
Lemma ensure_missing n c k s w x w' : (n, c) ∈ sy_seeds r → se_view n k w = None →
  ensureShared c (sy_equal r) (sy_poll r) k s w = (Ok x, w') →
  om_resourceVersion (do_meta s) = "" ∧ om_resourceVersion (do_meta x) ≠ "" ∧ object_key x = k ∧
  ∀ m k', m ≠ n → se_view m k' w' = se_view m k' w.
Proof.
  intros Hin Hn E. apply bind_ok_inv in E as (got & w1 & Eg & E). apply try_ok_inv in Eg as [(o & -> & Eg)|(e & -> & Eg)].
  { apply (se_get_ok _ _ _ _ _ _ Hin) in Eg. congruence. }
  assert (Hw1 : ∀ m k', se_view m k' w1 = se_view m k' w) by (intros m k'; by apply (se_get n c k m k' Hin) in Eg).
  destruct (negb (IsNotFound e)); [done|]. apply bind_ok_inv in E as (y & w2 & Ec%wrap_ok_inv & E).
  apply bind_ok_inv in E as (u & w3 & Ep%wrap_ok_inv & [<- <-]%ret_ok_inv).
  destruct (se_created _ _ _ _ _ _ Hin Ec) as (Hs & Hy & Hk). split; [exact Hs|]. split; [done|].
  split; [rewrite Hk; by destruct k|]. intros m k' Hne.
  assert (se_view m k' w3 = se_view m k' w2) as ->.
  { eapply (se_poll _ (se_view m k')); [|exact Ep]. unfold WaitUntilObjectExistsInCache. pose proof (se_get n c k m k' Hin). frame. }
  by rewrite (se_create _ _ _ _ _ _ _ _ Hin Ec Hne), Hw1.
Qed.

(** A seed with a copy of another UID: the object is not equal, and its update is
    refused. *)
Lemma ensure_foreign n c k s old w z w' : (n, c) ∈ sy_seeds r → se_view n k w = Some old → om_uid (do_meta s) ≠ "" →
  om_uid (do_meta s) ≠ om_uid (do_meta old) → ensureShared c (sy_equal r) (sy_poll r) k s w = (z, w') →
  se_view n k w' = Some old ∧ ∀ x, z ≠ Ok x.
Proof.
  intros Hin Ho Hne Huid E. assert (Hkey : object_key (sent k s) = k) by (by destruct k).
  apply bind_run in E as [(got & w1 & Eg & E)|[(z1 & Eg & Hno1) Hno]].
  - assert (Hw1 : se_view n k w1 = Some old).
    { rewrite <- Ho. by apply (keeps_try _ _ (se_get n c k n k Hin)) in Eg. }
    apply try_ok_inv in Eg as [(o & -> & Eg)|(e & -> & Eg)].
    + apply (se_get_ok _ _ _ _ _ _ Hin) in Eg. assert (o = old) as -> by congruence. destruct (sy_equal _ _ _) eqn:Eq.
      { by apply se_equal in Eq. }
      apply bind_run in E as [(x & w2 & Eu%wrap_ok_inv & _)|[(z1 & Eu & _) Hno]].
      * destruct (se_other_uid n c (sent k s) old w1 _ _ Hin ltac:(by rewrite Hkey) Hne Huid Eu) as [_ Hx]. by destruct (Hx x).
      * apply wrap_run in Eu as (z2 & Eu & _). destruct (se_other_uid n c (sent k s) old w1 _ _ Hin ltac:(by rewrite Hkey) Hne Huid Eu) as [Hv _].
        rewrite Hkey in Hv. by split.
    + destruct (IsNotFound e) eqn:En; [by rewrite (se_get_missing _ _ _ _ _ _ Hin Eg En) in Ho|]. injection E as <- <-. by split.
  - split; [|done]. rewrite <- Ho. by apply (keeps_try _ _ (se_get n c k n k Hin)) in Eg.
Qed.

(** The secrets of applications do not reach the seeds: with two seeds that lack a
    secret no run for it succeeds, because the object that was created on the first
    carries its resource version to the second; and a run never brings a change to a
    seed that has a copy, because the object carries the UID of the master. *)
Theorem application_secrets_stuck request w secret w0 :
  sy_read r request w = (Ok secret, w0) → let k := mkKey namespace (om_name (do_meta secret)) in
  (∀ n1 c1 n2 c2 rest z w', sy_seeds r = (n1, c1) :: (n2, c2) :: rest → n1 ≠ n2 →
     se_view n1 k w = None → se_view n2 k w = None → Reconcile r namespace request w = (z, w') → z ≠ Ok tt) ∧
  (∀ n c old z w', sy_seeds r = [(n, c)] → se_view n k w = Some old → om_uid (do_meta secret) ≠ "" →
     om_uid (do_meta secret) ≠ om_uid (do_meta old) → Reconcile r namespace request w = (z, w') →
     z ≠ Ok tt ∧ se_view n k w' = Some old).
Proof.
  intros Er k. assert (Hw0 : ∀ m k', se_view m k' w0 = se_view m k' w) by (intros m k'; by apply (se_read request m k') in Er).
  set (s := set_meta (set_resourceVersion "" (do_meta secret)) secret).
  assert (Hrun : ∀ w', Reconcile r namespace request w = w' →
    recorded r secret "reconciling secret failed" (_ ← reconcileAllSeeds r (ReconcileSecrets r namespace) s; mret tt) w0 = w').
  { intros w' <-. unfold Reconcile, reconcile, mbind, M_MBind, M_bind, try. by rewrite Er. }
  split.
  - intros n1 c1 n2 c2 rest z w' Hseeds Hne H1 H2 E%Hrun ->. rewrite <- Hw0 in H1, H2.
    apply bind_ok_inv in E as (res & w1 & [(u & -> & E)|(e & -> & E)]%try_ok_inv & E'); [|done]. clear E'.
    apply bind_ok_inv in E as (x & w2 & E & _). unfold reconcileAllSeeds in E. rewrite Hseeds in E. simpl in E.
    apply bind_ok_inv in E as (s1 & w3 & E1%wrap_ok_inv%wrap_ok_inv & E). apply bind_ok_inv in E as (s2 & w4 & E2%wrap_ok_inv%wrap_ok_inv & _).
    assert (Hin1 : (n1, c1) ∈ sy_seeds r) by (rewrite Hseeds; left). assert (Hin2 : (n2, c2) ∈ sy_seeds r) by (rewrite Hseeds; right; left).
    destruct (ensure_missing _ _ _ _ _ _ _ Hin1 H1 E1) as (_ & Hv & Hk & Hfr).
    assert (Hname : mkKey namespace (om_name (do_meta s1)) = k) by (injection Hk as _ ->; done). rewrite Hname in E2.
    destruct (ensure_missing _ _ _ _ _ _ _ Hin2 ltac:(by rewrite Hfr) E2) as (Hv' & _). done.
  - intros n c old z w' Hseeds Ho Hne Huid E%Hrun. rewrite <- Hw0 in Ho. assert (Hin : (n, c) ∈ sy_seeds r) by (rewrite Hseeds; left).
    set (inner := (_ ← reconcileAllSeeds r (ReconcileSecrets r namespace) s; mret tt) : M W unit) in *.
    assert (Hinner : ∀ z1 w1, inner w0 = (z1, w1) →
      se_view n k w1 = Some old ∧ ∀ x, z1 ≠ Ok x).
    { intros z1 w1 E1. unfold inner, reconcileAllSeeds in E1. rewrite Hseeds in E1. simpl in E1.
      apply bind_run in E1 as [(x & w2 & E1 & _)|[(z2 & E1 & _) Hno]].
      { apply bind_ok_inv in E1 as (y & w3 & E1%wrap_ok_inv%wrap_ok_inv & _). by destruct (ensure_foreign n c k s old _ _ _ Hin Ho Hne Huid E1) as [_ []%(λ H, H y)]. }
      apply bind_run in E1 as [(y & w3 & E1 & _)|[(z3 & E1 & _) _]]; apply wrap_run in E1 as (z4 & E1 & Hz4); apply wrap_run in E1 as (z5 & E1 & Hz5);
        destruct (ensure_foreign n c k s old _ _ _ Hin Ho Hne Huid E1) as [Hv Hx]; [by destruct (Hx y); apply Hz5, Hz4|by split]. }
    unfold recorded, mbind, M_MBind, M_bind, try in E. destruct (inner w0) as [z1 w1] eqn:E1. destruct (Hinner _ _ eq_refl) as [Hv Hno].
    destruct z1 as [x|e|p|]; [by destruct (Hno x)|..]; cbn in E; injection E as <- <-; (split; [done|]); rewrite ?se_event; done.
Qed.
End secrets.
