(* ===== verification/SeedSync.v ===== *)
(** * Seeds on the master

    The controllers of the master that look after [Seed] objects: [seed-sync] keeps a
    copy of each seed and of the configuration on the cluster of the seed,
    [seed-status-controller] reports what it finds there; with the getters of
    [pkg/provider/seed.go] and the helpers for the status of seeds of
    [pkg/apis/kubermatic/v1/helper/helper.go]. *)

From S2P Require Import Prelude ResourceNames Kube Semver Net CloudApi ClusterApi Helper Corev1 Field ClusterDefaulting Rbac RbacSync Reconciling ClusterDeletion ClusterHealth MasterApi MasterSync.

(** ** Seeds as objects *)

Record ObjectReference := mkObjectReference { ref_namespace : string; ref_name : string; ref_fieldPath : string }.
Record SeedSpec := mkSeedSpec {
  sds_kubeconfig : ObjectReference;
  sds_etcdBackupRestore : option EtcdBackupRestore;
  sds_datacenters : gmap string Datacenter;
  sds_nodeportProxy : NodeportProxyConfig;
  sds_exposeStrategy : string;
  sds_defaultComponentSettings : ComponentSettings;
  sds_defaultClusterTemplate : string;
  sds_metering : option MeteringConfiguration;
  sds_rest : gmap string string;
}.
Record SeedCondition := mkSeedCondition {
  sdc_status : string;
  sdc_lastHeartbeatTime : Z;
  sdc_lastTransitionTime : Z;
  sdc_reason : string;
  sdc_message : string;
}.
#[global] Instance SeedCondition_eq_dec : EqDecision SeedCondition.
Proof. solve_decision. Defined.
Record SeedVersionsStatus := mkSeedVersionsStatus { sdv_kubermatic : string; sdv_cluster : string }.
#[global] Instance SeedVersionsStatus_eq_dec : EqDecision SeedVersionsStatus.
Proof. solve_decision. Defined.
Record SeedStatus := mkSeedStatus {
  sdt_phase : string;
  sdt_clusters : Z;
  sdt_versions : SeedVersionsStatus;
  sdt_conditions : gmap string SeedCondition;
}.
#[global] Instance SeedStatus_eq_dec : EqDecision SeedStatus.
Proof. solve_decision. Defined.
Record SeedObject := mkSeedObject { sd_meta : ObjectMeta; sd_spec : SeedSpec; sd_status : SeedStatus }.
#[global] Program Instance SeedObject_object : Object SeedObject := {|
  obj_meta := sd_meta;
  set_meta m s := mkSeedObject m (sd_spec s) (sd_status s);
|}.
Next Obligation. done. Qed.

(** What the other components see of a seed. *)
Definition seed_of (s : SeedObject) : Seed :=
  let sp := sd_spec s in
  mkSeed (om_name (sd_meta s)) (om_namespace (sd_meta s)) (sds_etcdBackupRestore sp) (sds_datacenters sp)
    (sds_nodeportProxy sp) (sds_exposeStrategy sp) (sds_defaultComponentSettings sp) (sds_defaultClusterTemplate sp)
    (sds_metering sp) (sds_rest sp).

Definition set_seed_status (t : SeedStatus) (s : SeedObject) : SeedObject := mkSeedObject (sd_meta s) (sd_spec s) t.
Definition set_seed_phase (p : string) (s : SeedObject) : SeedObject :=
  let t := sd_status s in set_seed_status (mkSeedStatus p (sdt_clusters t) (sdt_versions t) (sdt_conditions t)) s.
Definition set_seed_clusters (n : Z) (s : SeedObject) : SeedObject :=
  let t := sd_status s in set_seed_status (mkSeedStatus (sdt_phase t) n (sdt_versions t) (sdt_conditions t)) s.
Definition set_seed_versions (v : SeedVersionsStatus) (s : SeedObject) : SeedObject :=
  let t := sd_status s in set_seed_status (mkSeedStatus (sdt_phase t) (sdt_clusters t) v (sdt_conditions t)) s.
Definition set_seed_condition (conditionType : string) (c : SeedCondition) (s : SeedObject) : SeedObject :=
  let t := sd_status s in
  set_seed_status (mkSeedStatus (sdt_phase t) (sdt_clusters t) (sdt_versions t) (<[conditionType := c]> (sdt_conditions t))) s.

Definition SeedHealthyPhase : string := "Healthy".
Definition SeedUnhealthyPhase : string := "Unhealthy".
Definition SeedInvalidPhase : string := "Invalid".
Definition SeedTerminatingPhase : string := "Terminating".
Definition SeedPausedPhase : string := "Paused".
Definition SeedConditionKubeconfigValid : string := "KubeconfigValid".
Definition SeedConditionResourcesReconciled : string := "ResourcesReconciled".
Definition AllSeedConditionTypes : list string := [SeedConditionResourcesReconciled].
Definition ConditionUnknown : string := "Unknown".

Definition Seed_HasConditionValue (ss : SeedStatus) (conditionType conditionStatus : string) : bool :=
  match sdt_conditions ss !! conditionType with
  | None => false
  | Some condition => String.eqb (sdc_status condition) conditionStatus
  end.

(** The configuration: metadata and spec. *)
Abbreviation ConfigObject := (SpecObject KubermaticConfiguration).

(** What a client of a cluster is used for here; [sn_clusters] lists the metadata of the
    user clusters. *)
Record SeedConn (W : Type) := mkSeedConn {
  sn_seeds : Client W SeedObject;
  sn_configs : Client W ConfigObject;
  sn_namespaces : Client W Namespace;
  sn_clusters : M W (list ObjectMeta);
}.
Arguments mkSeedConn {W}.
Arguments sn_seeds {W}.
Arguments sn_configs {W}.
Arguments sn_namespaces {W}.
Arguments sn_clusters {W}.

(** ** Getters *)

Section getters.
Context {W : Type}.

Definition DefaultKubeconfigFieldPath : string := "kubeconfig".

(** [restConfig] is [clientcmd.RESTConfigFromKubeConfig], a configuration is kept as its
    text. *)
Definition SeedKubeconfigGetterFactory (secrets : Client W Secret) (restConfig : string → outcome string) (seed : SeedObject) : M W string :=
  let ref := sds_kubeconfig (sd_spec seed) in
  let namespace := if String.eqb (ref_namespace ref) "" then om_namespace (sd_meta seed) else ref_namespace ref in
  secret ← wrap "failed to get kubeconfig secret" (c_get secrets (mkKey namespace (ref_name ref)));
  let fieldPath := if String.eqb (ref_fieldPath ref) "" then DefaultKubeconfigFieldPath else ref_fieldPath ref in
  match do_data secret !! fieldPath with
  | None => throw (ErrNew "secret has no such key")
  | Some kubeconfig => wrap "failed to load kubeconfig" (lift (restConfig kubeconfig))
  end.

(** [clientFor] is the client of the cache of REST mappers. *)
Definition SeedClientGetterFactory (kubeconfigGetter : SeedObject → M W string) (clientFor : string → M W (SeedConn W))
    (seed : SeedObject) : M W (SeedConn W) :=
  cfg ← kubeconfigGetter seed; clientFor cfg.
End getters.

(** ** The status of seeds *)

Section status.
Context {W : Type} (client : Client W SeedObject) (retry : Retry W) (now : W → Z * W).

Definition UpdateSeedStatus (seed : SeedObject) (patch : SeedObject → M W SeedObject) : M W SeedObject :=
  RetryOnConflict retry (
    original ← c_get client (object_key seed);
    seed ← patch original;
    if bool_decide (sd_status original = sd_status seed) then mret seed
    else c_status_patch client original seed).

(** The comparison resets the times of the old condition. *)
Definition SetSeedCondition (conditionType status reason message : string) (seed : SeedObject) : M W SeedObject :=
  let oldCondition := sdt_conditions (sd_status seed) !! conditionType in
  let unchanged :=
    match oldCondition with
    | None => false
    | Some old => bool_decide (mkSeedCondition (sdc_status old) 0 0 (sdc_reason old) (sdc_message old) =
                               mkSeedCondition status 0 0 reason message)
    end in
  if unchanged then mret seed else
  now ← read now;
  let lastTransition :=
    match oldCondition with
    | None => 0
    | Some old => if negb (String.eqb (sdc_status old) status) then now else sdc_lastTransitionTime old
    end in
  mret (set_seed_condition conditionType (mkSeedCondition status now lastTransition reason message) seed).
End status.

(** [ss_serverVersion] is the version that a discovery client made from a kubeconfig
    reports. *)
Record SeedEnv (W : Type) := mkSeedEnv {
  ss_master : SeedConn W;
  ss_clientGetter : SeedObject → M W (SeedConn W);
  ss_kubeconfigGetter : SeedObject → M W string;
  ss_serverVersion : string → M W string;
  ss_versions : Versions;
  ss_retry : Retry W;
  ss_now : W → Z * W;
  ss_seedEqual : SeedObject → SeedObject → bool;
  ss_configEqual : ConfigObject → ConfigObject → bool;
  ss_poll : M W bool → M W unit;
  ss_event : ObjectMeta → string → W → W;
}.
Arguments ss_master {W}.
Arguments ss_clientGetter {W}.
Arguments ss_kubeconfigGetter {W}.
Arguments ss_serverVersion {W}.
Arguments ss_versions {W}.
Arguments ss_retry {W}.
Arguments ss_now {W}.
Arguments ss_seedEqual {W}.
Arguments ss_configEqual {W}.
Arguments ss_poll {W}.
Arguments ss_event {W}.

Module SeedStatusController.
Definition SeedKubeconfigUnavailableReason : string := "KubeconfigUnavailable".
Definition SeedClusterUninitializedReason : string := "ClusterUninitialized".
Definition SeedKubeconfigInvalidReason : string := "KubeconfigInvalid".
Definition SeedKubeconfigValidReason : string := "KubeconfigValid".
Definition SkipReconcilingAnnotation : string := "kubermatic.k8c.io/skip-reconciling".

Definition getConditionStatus (seed : SeedObject) (conditionType : string) : string :=
  match sdt_conditions (sd_status seed) !! conditionType with
  | None => ConditionUnknown
  | Some condition => sdc_status condition
  end.

Definition getSeedPhase (seed : SeedObject) : string :=
  if bool_decide (is_Some (om_annotations (sd_meta seed) !! SkipReconcilingAnnotation)) then SeedPausedPhase else
  let kubeconfigValid := getConditionStatus seed SeedConditionKubeconfigValid in
  let resourcesReconciled := getConditionStatus seed SeedConditionResourcesReconciled in
  if String.eqb kubeconfigValid ConditionTrue && String.eqb resourcesReconciled ConditionTrue then SeedHealthyPhase else
  if String.eqb kubeconfigValid ConditionFalse then SeedInvalidPhase else
  if String.eqb resourcesReconciled ConditionFalse then SeedUnhealthyPhase else "".

Section controller.
Context {W : Type} (r : SeedEnv W).

Definition updateKubeconfigValidCondition (seed : SeedObject) : M W SeedObject :=
  let set := SetSeedCondition (ss_now r) SeedConditionKubeconfigValid in
  got ← try (ss_clientGetter r seed);
  match got with
  | inl err => set ConditionFalse SeedKubeconfigUnavailableReason (error_string err) seed
  | inr client =>
      got ← try (c_get (sn_namespaces client) (mkKey "" (om_namespace (sd_meta seed))));
      match got with
      | inl err =>
          if IsNotFound err then
            set ConditionFalse SeedClusterUninitializedReason "namespace does not exist and must be created manually" seed
          else set ConditionFalse SeedKubeconfigInvalidReason (error_string err) seed
      | inr _ => set ConditionTrue SeedKubeconfigValidReason "" seed
      end
  end.

Definition updateVersions (seed : SeedObject) : M W SeedObject :=
  let seed := set_seed_versions (mkSeedVersionsStatus (KubermaticCommit (ss_versions r)) (sdv_cluster (sdt_versions (sd_status seed)))) seed in
  got ← try (ss_kubeconfigGetter r seed);
  match got with
  | inl _ => mret seed
  | inr kubeconfig =>
      got ← try (ss_serverVersion r kubeconfig);
      match got with
      | inl _ => mret seed
      | inr version => mret (set_seed_versions (mkSeedVersionsStatus (sdv_kubermatic (sdt_versions (sd_status seed))) version) seed)
      end
  end.

Definition updateClusters (seed : SeedObject) : M W SeedObject :=
  got ← try (ss_clientGetter r seed);
  match got with
  | inl _ => mret seed
  | inr client =>
      got ← try (sn_clusters client);
      match got with
      | inl _ => mret seed
      | inr clusters => mret (set_seed_clusters (Z.of_nat (length clusters)) seed)
      end
  end.

(** The callback works on the object that the helper has fetched, and the phase comes
    last. *)
Definition observe (s : SeedObject) : M W SeedObject :=
  s ← updateKubeconfigValidCondition s;
  s ← updateVersions s;
  s ← updateClusters s;
  mret (set_seed_phase (getSeedPhase s) s).

Definition reconcile (seed : SeedObject) : M W SeedObject :=
  match om_deletionTimestamp (sd_meta seed) with
  | Some _ => UpdateSeedStatus (sn_seeds (ss_master r)) (ss_retry r) seed (λ s, mret (set_seed_phase SeedTerminatingPhase s))
  | None => UpdateSeedStatus (sn_seeds (ss_master r)) (ss_retry r) seed observe
  end.

Definition Reconcile (request : NamespacedName) : M W Result :=
  got ← try (c_get (sn_seeds (ss_master r)) request);
  match got with
  | inl e => if IsNotFound e then mret emptyResult else throw (ErrWrap "failed to get seed" e)
  | inr seed =>
      got ← try (reconcile seed);
      match got with
      | inl e => _ ← emit (ss_event r (sd_meta seed) (error_string e)); throw (ErrWrap "failed to reconcile seed" e)
      | inr seed =>
          if Seed_HasConditionValue (sd_status seed) SeedConditionKubeconfigValid ConditionFalse
          then mret (mkResult false (5 * Second)) else mret (mkResult false (1 * Minute))
      end
  end.
End controller.
End SeedStatusController.

(** ** Copies of seeds *)

Module SeedCopies.
Definition ControllerName : string := "kkp-seed-sync-controller".
Definition ManagedByLabel : string := "app.kubernetes.io/managed-by".
Definition CleanupFinalizer : string := "kubermatic.k8c.io/cleanup-seed-sync".

Definition managed (m meta : ObjectMeta) : ObjectMeta :=
  set_annotations (om_annotations m) (set_labels (<[ManagedByLabel := ControllerName]> (om_labels m)) meta).
Definition seedCreator (seed s : SeedObject) : outcome SeedObject :=
  Ok (mkSeedObject (managed (sd_meta seed) (sd_meta s)) (sd_spec seed) (sd_status s)).
Definition configCreator (config c : ConfigObject) : outcome ConfigObject :=
  Ok (mkSpecObject (managed (so_meta config) (so_meta c)) (so_spec config)).

Section controller.
Context `{StringSets} {W : Type} (r : SeedEnv W) (emptySeed : SeedObject) (emptyConfig : ConfigObject).

Definition getKubermaticConfiguration (namespace : string) : M W (option ConfigObject) :=
  items ← wrap "failed to find KubermaticConfigurations" (c_list (sn_configs (ss_master r)) (mkListOptions namespace []));
  match items with [config] => mret (Some config) | _ => mret None end.

Definition ReconcileSeeds (creators : list (string * (SeedObject → outcome SeedObject))) (namespace : string) (client : SeedConn W) : M W unit :=
  for_range (λ _ '(name, create), wrap "failed to ensure Seed"
    (EnsureNamedObject (sn_seeds client) (ss_seedEqual r) id (ss_poll r) (mkKey namespace name) create emptySeed false)) tt creators.
Definition ReconcileKubermaticConfigurations (creators : list (string * (ConfigObject → outcome ConfigObject))) (namespace : string)
    (client : SeedConn W) : M W unit :=
  for_range (λ _ '(name, create), wrap "failed to ensure KubermaticConfiguration"
    (EnsureNamedObject (sn_configs client) (ss_configEqual r) id (ss_poll r) (mkKey namespace name) create emptyConfig false)) tt creators.

Definition reconcile (config : ConfigObject) (seed : SeedObject) (client : SeedConn W) : M W unit :=
  seed ← wrap "failed to add finalizer" (TryAddFinalizer (sn_seeds (ss_master r)) (ss_retry r) seed [CleanupFinalizer]);
  let strategy := sds_exposeStrategy (sd_spec seed) in
  if negb (String.eqb strategy "") && negb (ExposeStrategiesSet_Has AllExposeStrategies strategy)
  then throw (ErrNew "failed to validate seed: invalid expose strategy") else
  let namespace := om_namespace (sd_meta seed) in
  _ ← wrap "failed to reconcile seed" (ReconcileSeeds [(om_name (sd_meta seed), seedCreator seed)] namespace client);
  wrap "failed to reconcile seed" (ReconcileKubermaticConfigurations [(om_name (so_meta config), configCreator config)] namespace client).

Definition retry_soon : option Result := Some (mkResult false (3 * Second)).

(** A copy that does not exist is no failure. *)
Definition probe {A} (get : M W A) : M W (option A) :=
  got ← try get;
  match got with
  | inr a => mret (Some a)
  | inl e => if IsNotFound e then mret None else throw (ErrWrap "failed to probe" e)
  end.

(** The configuration goes after the copy of the seed, the finalizer after both. *)
Definition cleanupConfig (configInMaster : ConfigObject) (seedInMaster : SeedObject) (seedClient : SeedConn W) : M W (option Result) :=
  configInSeed ← probe (c_get (sn_configs seedClient) (object_key configInMaster));
  match configInSeed with
  | Some config =>
      _ ← match om_deletionTimestamp (so_meta config) with
          | None => wrap "failed to delete KubermaticConfiguration in seed cluster" (c_delete (sn_configs seedClient) config)
          | Some _ => mret tt
          end;
      mret retry_soon
  | None =>
      _ ← wrap "failed to remove finalizer from Seed in master cluster"
            (TryRemoveFinalizer (sn_seeds (ss_master r)) (ss_retry r) seedInMaster [CleanupFinalizer]);
      mret None
  end.

(** When the seed is the cluster of the master, the copy is the seed itself. *)
Definition cleanupDeletedSeed (configInMaster : ConfigObject) (seedInMaster : SeedObject) (seedClient : SeedConn W) : M W (option Result) :=
  if negb (HasAnyFinalizer (sd_meta seedInMaster) [CleanupFinalizer]) then mret None else
  seedInSeed ← probe (c_get (sn_seeds seedClient) (object_key seedInMaster));
  match seedInSeed with
  | Some copy =>
      if HasOnlyFinalizer (sd_meta copy) CleanupFinalizer then cleanupConfig configInMaster seedInMaster seedClient else
      _ ← match om_deletionTimestamp (sd_meta copy) with
          | None => wrap "failed to delete Seed in seed cluster" (c_delete (sn_seeds seedClient) copy)
          | Some _ => mret tt
          end;
      mret retry_soon
  | None => cleanupConfig configInMaster seedInMaster seedClient
  end.

Definition Reconcile (request : NamespacedName) : M W Result :=
  got ← try (c_get (sn_seeds (ss_master r)) request);
  match got with
  | inl e => if IsNotFound e then mret emptyResult else throw (ErrWrap "failed to get seed" e)
  | inr seed =>
      client ← wrap "failed to create client for seed" (ss_clientGetter r seed);
      config ← wrap "failed to get config" (getKubermaticConfiguration (key_namespace request));
      match config with
      | None => mret emptyResult
      | Some config =>
          match om_deletionTimestamp (sd_meta seed) with
          | Some _ =>
              result ← wrap "failed to cleanup deleted Seed" (cleanupDeletedSeed config seed client);
              mret (default emptyResult result)
          | None =>
              got ← try (reconcile config seed client);
              match got with
              | inl e => _ ← emit (ss_event r (sd_meta seed) (error_string e)); throw (ErrWrap "failed to reconcile" e)
              | inr _ => mret emptyResult
              end
          end
      end
  end.
End controller.
End SeedCopies.
