(* ===== verification/SeedSyncSpec.v ===== *)
(** * Seeds on the master: theorems *)

From S2P Require Import Prelude ResourceNames Kube Semver Net CloudApi ClusterApi Helper Corev1 Field ClusterDefaulting Rbac RbacSync Reconciling ClusterDeletion ClusterHealth MasterApi MasterSync MasterSyncSpec SeedSync.

(** ** Stores *)

(** The fields that main writes store. *)
Definition seed_main (s : SeedObject) := (om_labels (sd_meta s), om_annotations (sd_meta s), sd_spec s).
Definition config_main (c : ConfigObject) := (om_labels (so_meta c), om_annotations (so_meta c), so_spec c).

(** A connection to the cluster [i]: seeds and configurations are stored as [at_store]
    says, and calls about one kind leave the other alone. *)
Record conn_at {W I : Type} (seed : I → NamespacedName → W → option SeedObject) (config : I → NamespacedName → W → option ConfigObject)
    (conn : SeedConn W) (i : I) : Prop := {
  ca_seeds : at_store seed seed_main sd_status (sn_seeds conn) i;
  ca_configs : at_store config config_main no_status (sn_configs conn) i;
  ca_seed_get : ∀ k j k', keeps (config j k') (c_get (sn_seeds conn) k);
  ca_seed_create : ∀ o j k', keeps (config j k') (c_create (sn_seeds conn) o);
  ca_seed_update : ∀ o j k', keeps (config j k') (c_update (sn_seeds conn) o);
  ca_seed_delete : ∀ o j k', keeps (config j k') (c_delete (sn_seeds conn) o);
  ca_config_get : ∀ k j k', keeps (seed j k') (c_get (sn_configs conn) k);
  ca_config_create : ∀ o j k', keeps (seed j k') (c_create (sn_configs conn) o);
  ca_config_update : ∀ o j k', keeps (seed j k') (c_update (sn_configs conn) o);
  ca_config_delete : ∀ o j k', keeps (seed j k') (c_delete (sn_configs conn) o);
}.

(** The clusters of the master and of the seeds, which may be the same; a client for a
    seed is one for its cluster. *)
Class SeedStores {W I : Type} (r : SeedEnv W) := {
  sz_seed : I → NamespacedName → W → option SeedObject;
  sz_config : I → NamespacedName → W → option ConfigObject;
  sz_master : I;
  sz_store : string → I;
  sz_at_master : conn_at sz_seed sz_config (ss_master r) sz_master;
  sz_client : ∀ s w c w', ss_clientGetter r s w = (Ok c, w') → conn_at sz_seed sz_config c (sz_store (om_name (sd_meta s)));
  sz_client_seed : ∀ s j k, keeps (sz_seed j k) (ss_clientGetter r s);
  sz_client_config : ∀ s j k, keeps (sz_config j k) (ss_clientGetter r s);
  sz_list_seed : ∀ o j k, keeps (sz_seed j k) (c_list (sn_configs (ss_master r)) o);
  sz_list_config : ∀ o j k, keeps (sz_config j k) (c_list (sn_configs (ss_master r)) o);
  sz_list : ∀ ns w l w', c_list (sn_configs (ss_master r)) (mkListOptions ns []) w = (Ok l, w') → ∀ k c,
    (object_key c = k ∧ c ∈ l) ↔ (key_namespace k = ns ∧ sz_config sz_master k w = Some c);
  sz_list_distinct : ∀ o w l w', c_list (sn_configs (ss_master r)) o w = (Ok l, w') → NoDup (map object_key l);
  sz_seed_equal : ∀ a b, ss_seedEqual r a b = true → seed_main a = seed_main b;
  sz_config_equal : ∀ a b, ss_configEqual r a b = true → config_main a = config_main b;
  sz_poll : ∀ A (v : W → A) cond, keeps v cond → keeps v (ss_poll r cond);
  sz_event_seed : ∀ m msg j k w, sz_seed j k (ss_event r m msg w) = sz_seed j k w;
  sz_event_config : ∀ m msg j k w, sz_config j k (ss_event r m msg w) = sz_config j k w;
}.
#[export] Hint Resolve sz_client_seed sz_client_config sz_list_seed sz_list_config : kkp_frame.

Section seed_sync.
Context `{StringSets} {W I : Type} `{EqDecision I} (r : SeedEnv W) (emptySeed : SeedObject) (emptyConfig : ConfigObject)
  `{SZ : !SeedStores (I := I) r}.
Import SeedCopies.

(** The lemmas on synchronizers, for seeds and for configurations. *)
Abbreviation seeds_alone := (alone (sn_seeds (ss_master r)) (ss_retry r) (ss_seedEqual r) (ss_poll r)).
Abbreviation configs_alone := (alone (sn_configs (ss_master r)) (ss_retry r) (ss_configEqual r) (ss_poll r)).
Lemma master_seeds : at_store sz_seed seed_main sd_status (sn_seeds (ss_master r)) sz_master.
Proof. apply ca_seeds with (config := sz_config), sz_at_master. Qed.
Lemma master_configs : at_store sz_config config_main no_status (sn_configs (ss_master r)) sz_master.
Proof. apply ca_configs with (seed := sz_seed), sz_at_master. Qed.
#[local] Instance seeds_world : SyncWorld (I := I) seeds_alone seed_main sd_status.
Proof.
  refine (alone_world _ _ _ _ _ _ _ sz_master master_seeds sz_poll sz_seed_equal _ _); [|done].
  intros m o Hl Ha. unfold seed_main. simpl in *. by rewrite Hl, Ha.
Defined.
#[local] Instance configs_world : SyncWorld (I := I) configs_alone config_main no_status.
Proof.
  refine (alone_world _ _ _ _ _ _ _ sz_master master_configs sz_poll sz_config_equal _ _); [|done].
  intros m o Hl Ha. unfold config_main. simpl in *. by rewrite Hl, Ha.
Defined.

Lemma keeps_finalize_seed seed k j f : keeps (sz_config j k) (TryAddFinalizer (sn_seeds (ss_master r)) (ss_retry r) seed f).
Proof.
  destruct sz_at_master. unfold TryAddFinalizer. apply keeps_wrap, keeps_retry. frame.
Qed.
Lemma keeps_release_seed seed k j f : keeps (sz_config j k) (TryRemoveFinalizer (sn_seeds (ss_master r)) (ss_retry r) seed f).
Proof.
  destruct sz_at_master. unfold TryRemoveFinalizer. apply keeps_wrap, keeps_retry. frame.
Qed.

(** The copies that the cluster of a seed should have. *)
Definition seed_copy (s : SeedObject) : SeedObject := mkSeedObject (managed (sd_meta s) (sd_meta s)) (sd_spec s) (sd_status s).
Definition config_copy (c : ConfigObject) : ConfigObject := mkSpecObject (managed (so_meta c) (so_meta c)) (so_spec c).

(** The configuration of the master: the only one in its namespace. *)
Definition only_config (ns : string) (c : ConfigObject) (w : W) : Prop := key_namespace (object_key c) = ns ∧
  ∀ k d, key_namespace k = ns → (sz_config sz_master k w = Some d ↔ d = c ∧ k = object_key c).

Lemma configuration_run ns w z w' : getKubermaticConfiguration r ns w = (z, w') →
  (∀ j k, sz_seed j k w' = sz_seed j k w) ∧ (∀ j k, sz_config j k w' = sz_config j k w) ∧
  (∀ c, z = Ok (Some c) → only_config ns c w) ∧ (z = Ok None → ∀ c, ¬ only_config ns c w).
Proof.
  intros E. assert (Hs : ∀ j k, keeps (sz_seed j k) (getKubermaticConfiguration r ns)) by (unfold getKubermaticConfiguration; frame).
  assert (Hc : ∀ j k, keeps (sz_config j k) (getKubermaticConfiguration r ns)) by (unfold getKubermaticConfiguration; frame).
  split; [intros j k; by apply (Hs j k) in E|]. split; [intros j k; by apply (Hc j k) in E|]. clear Hs Hc.
  apply bind_run in E as [(l & w1 & El%wrap_ok_inv & E)|[_ Hno]]; [|by split; [intros c ->; destruct (Hno (Some c))|intros ->; destruct (Hno None)]].
  pose proof (sz_list _ _ _ _ El) as Hl. pose proof (sz_list_distinct _ _ _ _ El) as Hnd. split.
  - intros c ->. destruct l as [|d [|]]; try done. injection E as -> _. split.
    { by destruct (proj1 (Hl (object_key c) c)) as [? _]; [split; [done|left]|]. }
    intros k d Hk. specialize (Hl k d). rewrite list_elem_of_singleton in Hl. naive_solver.
  - intros -> c [Hns Hc]. assert (Hin : c ∈ l) by (apply (Hl (object_key c) c); split; [done|by apply Hc]).
    assert (Hall : ∀ d, d ∈ l → d = c).
    { intros d Hd. destruct (proj1 (Hl (object_key d) d)) as [Hn Hv]; [done|]. by apply (Hc _ _ Hn) in Hv as [? _]. }
    destruct l as [|d [|d' l]]; [by apply elem_of_nil in Hin|done|]. simpl in Hnd. apply NoDup_cons in Hnd as [Hnd _]. apply Hnd.
    rewrite (Hall d ltac:(left)), (Hall d' ltac:(right; left)). left.
Qed.

(** ** A live seed *)

(** What each of the two parts does. *)
Lemma seed_ensured p conn i : conn_at sz_seed sz_config conn i →
  let m := wrap "failed to reconcile seed" (ReconcileSeeds r emptySeed [(om_name (sd_meta p), seedCreator p)] (om_namespace (sd_meta p)) conn) in
  acts sz_seed (object_key p) i (rtc (copying seed_main sd_status (seed_copy p))) (same_main seed_main (seed_copy p)) m ∧
  ∀ j k, keeps (sz_config j k) m.
Proof.
  intros Hat. split.
  - intros w. apply runs_wrap. assert (Hc : copies seed_main (seed_copy p) (seedCreator p)) by (by intros e u [= <-]).
    refine (reconcile_acts seeds_alone seed_main sd_status _ i _ "Seed" _ _ emptySeed _ _ eq_refl _ Hc w). by destruct Hat.
  - intros j k. destruct Hat. apply keeps_wrap, keeps_for_range. intros _ [n c]. apply keeps_wrap, keeps_ensure; auto. intros. by apply sz_poll.
Qed.
Lemma config_ensured config ns conn i : conn_at sz_seed sz_config conn i → om_namespace (so_meta config) = ns →
  let m := wrap "failed to reconcile seed" (ReconcileKubermaticConfigurations r emptyConfig [(om_name (so_meta config), configCreator config)] ns conn) in
  acts sz_config (object_key config) i (rtc (copying config_main no_status (config_copy config))) (same_main config_main (config_copy config)) m ∧
  ∀ j k, keeps (sz_seed j k) m.
Proof.
  intros Hat <-. split.
  - intros w. apply runs_wrap. assert (Hc : copies config_main (config_copy config) (configCreator config)) by (by intros e u [= <-]).
    refine (reconcile_acts configs_alone config_main no_status _ i _ "KubermaticConfiguration" _ _ emptyConfig _ _ eq_refl _ Hc w). by destruct Hat.
  - intros j k. destruct Hat. apply keeps_wrap, keeps_for_range. intros _ [n c]. apply keeps_wrap, keeps_ensure; auto. intros. by apply sz_poll.
Qed.

(** The world after a live seed was handled, before and after the copies. *)
Definition kept_seed (x : SeedObject) (w w' : W) : Prop :=
  (∀ j k, k ≠ object_key x → sz_seed j k w' = sz_seed j k w) ∧
  (∀ g, g ∈ finalizers x → ∃ y, sz_seed sz_master (object_key x) w' = Some y ∧ g ∈ finalizers y).

Lemma seed_ensured_keeps p y k conn i w z w' : conn_at sz_seed sz_config conn i → object_key p = k → sz_seed sz_master k w = Some y →
  wrap "failed to reconcile seed" (ReconcileSeeds r emptySeed [(om_name (sd_meta p), seedCreator p)] (om_namespace (sd_meta p)) conn) w = (z, w') →
  (∀ j k', k' ≠ k → sz_seed j k' w' = sz_seed j k' w) ∧ (∃ u, sz_seed sz_master k w' = Some u ∧ finalizers u = finalizers y) ∧
  (z = Ok tt → same_main seed_main (seed_copy p) (sz_seed i k w')) ∧ (∀ j k', sz_config j k' w' = sz_config j k' w).
Proof.
  intros Hat <- Hy E. destruct (seed_ensured p conn i Hat) as [Ha Hk]. destruct (Ha _ _ _ E) as (Hs1 & Hs2 & Hs3). split_and!.
  - intros j k' Hne. apply Hs1. congruence.
  - destruct (decide (i = sz_master)) as [->|Hne]; [|exists y; by rewrite Hs1 by congruence].
    destruct (copied_meta _ _ _ _ _ _ Hs2 Hy) as (u & Hu & Hfu & _). by exists u.
  - intros ->. by apply (Hs3 tt).
  - intros j k'. by apply (Hk j k') in E.
Qed.

Lemma live_seed x config conn i w z w' : sz_seed sz_master (object_key x) w = Some x → deletion x = None →
  conn_at sz_seed sz_config conn i → om_namespace (so_meta config) = om_namespace (sd_meta x) →
  reconcile r emptySeed emptyConfig config x conn w = (z, w') → kept_seed x w w' ∧
  (∀ j k, (j, k) ≠ (i, object_key config) → sz_config j k w' = sz_config j k w) ∧
  (z = Ok tt → (∃ y, sz_seed sz_master (object_key x) w' = Some y ∧ CleanupFinalizer ∈ finalizers y) ∧
     same_main seed_main (seed_copy x) (sz_seed i (object_key x) w') ∧
     same_main config_main (config_copy config) (sz_config i (object_key config) w')).
Proof.
  intros Hx Hd Hat Hns E.
  assert (Hadd : ∀ z1 w1, wrap "failed to add finalizer" (TryAddFinalizer (sn_seeds (ss_master r)) (ss_retry r) x [CleanupFinalizer]) w = (z1, w1) →
    elsewhere sz_seed sz_master (object_key x) w w1 ∧ (∀ j k', sz_config j k' w1 = sz_config j k' w) ∧
    ∃ y, sz_seed sz_master (object_key x) w1 = Some y ∧ (∀ g, g ∈ finalizers x → g ∈ finalizers y) ∧
      ∀ p, z1 = Ok p → object_key p = (object_key x) ∧ seed_main p = seed_main x ∧ CleanupFinalizer ∈ finalizers y).
  { intros z1 w1 E1. pose proof (add_finalizer_run seeds_alone seed_main sd_status (object_key x) x CleanupFinalizer w z1 w1 x eq_refl eq_refl) as Hrun.
    destruct (Hrun Hx Hd E1) as [He (y & Hy & (_ & _ & _ & _ & Hfin) & Hp)]. split; [done|]. split.
    { intros j k'. by apply (keeps_wrap _ _ _ (keeps_finalize_seed x k' j [CleanupFinalizer])) in E1. }
    exists y. split_and!; [done..|]. intros p Hz. destruct (Hp p Hz) as ((? & _ & _ & ? & _) & _ & ?). by split_and!. }
  apply bind_run in E as [(p & w1 & Ea & E)|[(z1 & Ea & Hz1) Hno]]; destruct (Hadd _ _ Ea) as (He & Hc1 & y & Hy & Hfin & Hp).
  2: { split_and!; [split; [intros j k' Hne; apply He; congruence|intros g Hg; exists y; auto]|intros; apply Hc1|intros ->; by destruct (Hno tt)]. }
  destruct (Hp p eq_refl) as (Hkp & Hpm & Hf). clear Hp Hadd Ea.
  cbv zeta in E. destruct (_ && _).
  { injection E as <- <-. split_and!; [split; [intros j k' Hne; apply He; congruence|intros g Hg; exists y; auto]|done..]. }
  assert (Hnp : om_namespace (so_meta config) = om_namespace (sd_meta p)) by (rewrite Hns; by injection Hkp).
  assert (Hsame : seed_main (seed_copy p) = seed_main (seed_copy x)).
  { unfold seed_main, seed_copy in *. simpl. by injection Hpm as -> -> ->. }
  destruct (config_ensured config _ conn i Hat Hnp) as [Hca Hck].
  apply bind_run in E as [([] & w2 & E1 & E2)|[(z1 & E1 & Hz1) Hno]];
    destruct (seed_ensured_keeps p y (object_key x) conn i w1 _ _ Hat Hkp Hy E1) as (Hs1 & (u & Hu & Hfu) & Hs3 & Hc2).
  - destruct (Hca _ _ _ E2) as (Hc3 & _ & Hc4). assert (Hw' : ∀ j k', sz_seed j k' w' = sz_seed j k' w2) by (intros j k'; by apply (Hck j k') in E2).
    split_and!.
    + split; [intros j k' Hne; rewrite Hw', Hs1, He; congruence|]. intros g Hg. exists u. rewrite Hw', Hfu. auto.
    + intros j k' Hne. by rewrite Hc3, Hc2, Hc1.
    + intros ->. unfold same_main in *. rewrite !Hw', <- Hsame. split_and!; [exists u; by rewrite Hfu|by apply Hs3|by apply (Hc4 tt)].
  - split_and!; [|intros; by rewrite Hc2, Hc1|intros ->; by destruct (Hno tt)].
    split; [intros j k' Hne; rewrite Hs1, He; congruence|]. intros g Hg. exists u. rewrite Hfu. auto.
Qed.

(** ** A deleted seed *)

Lemma probe_run {O X Y} `{Object O} (view : I → NamespacedName → W → option O) (main : O → X) (status : O → Y) client i k w z w' :
  at_store view main status client i → probe (c_get client k) w = (z, w') →
  ∀ o, z = Ok o → o = view i k w ∧ ∀ x, o = Some x → object_key x = k.
Proof.
  intros Hat E. unfold probe, mbind, M_MBind, M_bind, try in E. destruct (c_get client k w) as [u w1] eqn:Eg.
  destruct u as [x|e|s|]; [|destruct (IsNotFound e) eqn:En|..]; injection E as <- <-; intros o [= <-].
  - destruct (as_get_ok _ _ _ _ _ Hat _ _ _ _ Eg) as [Hv Hk]. by split; [|intros ? [= <-]].
  - by rewrite (as_get_missing _ _ _ _ _ Hat _ _ _ _ Eg En).
Qed.
Lemma keeps_probe {A X} (v : W → X) (m : M W A) : keeps v m → keeps v (probe m).
Proof. intros Hm. unfold probe. frame. Qed.

(** What is left of a configuration or a copy that was told to go. *)
Lemma told_to_go {O X Y} `{Object O} (view : I → NamespacedName → W → option O) (main : O → X) (status : O → Y) client i k c msg w z w' :
  at_store view main status client i → object_key c = k → view i k w = Some c →
  (match om_deletionTimestamp (obj_meta c) with None => wrap msg (c_delete client c) | Some _ => mret tt end) w = (z, w') →
  elsewhere view i k w w' ∧ (is_Some (deletion c) → w' = w) ∧ (z = Ok tt → gone (view i k w')).
Proof.
  intros Hat Hk Hv E. unfold deletion. destruct (om_deletionTimestamp (obj_meta c)) as [t|] eqn:Ed.
  - injection E as <- <-. split_and!; [done..|]. intros _ x. rewrite Hv. intros [= <-]. unfold deletion. rewrite Ed. by eexists.
  - apply wrap_run in E as (z1 & E & Hz). destruct (as_delete _ _ _ _ _ Hat _ _ _ _ E) as (He & _ & Hg). rewrite Hk in *.
    split_and!; [done|by intros [? [=]]|]. intros ->. refine (Hg _). left. by apply Hz.
Qed.

(** The part after the copy of the seed is gone. *)
Lemma cleanup_config_run x config conn i w z w' : conn_at sz_seed sz_config conn i → cleanupConfig r config x conn w = (z, w') →
  elsewhere sz_seed sz_master (object_key x) w w' ∧ elsewhere sz_config i (object_key config) w w' ∧
  (∀ c, sz_config i (object_key config) w = Some c → (∀ j k, sz_seed j k w' = sz_seed j k w) ∧
     (∀ o, z = Ok o → o = retry_soon ∧ gone (sz_config i (object_key config) w'))) ∧
  (sz_config i (object_key config) w = None → (∀ j k, sz_config j k w' = sz_config j k w) ∧
     (∀ o, z = Ok o → ∀ y, sz_seed sz_master (object_key x) w' = Some y → CleanupFinalizer ∉ finalizers y)).
Proof.
  intros Hat E.
  assert (Hp : ∀ z1 w1, probe (c_get (sn_configs conn) (object_key config)) w = (z1, w1) →
    (∀ j k, sz_seed j k w1 = sz_seed j k w) ∧ (∀ j k, sz_config j k w1 = sz_config j k w)).
  { intros z1 w1 E1. split; intros j k.
    - by apply (keeps_probe (sz_seed j k) _ (ca_config_get _ _ _ _ Hat _ j k)) in E1.
    - by apply (keeps_probe (sz_config j k) _ (as_get _ _ _ _ _ (ca_configs _ _ _ _ Hat) _ j k)) in E1. }
  apply bind_run in E as [(o & w1 & E1 & E)|[(z1 & E1 & _) Hno]]; destruct (Hp _ _ E1) as [Hs1 Hc1].
  2: { split_and!; [intros ???; apply Hs1|intros ???; apply Hc1|..]; intros; (split; [done|]); intros a ->; by destruct (Hno a). }
  destruct (probe_run _ _ _ _ _ _ _ _ _ (ca_configs _ _ _ _ Hat) E1 o eq_refl) as [Hv Hk]. clear E1 Hp.
  unfold elsewhere. setoid_rewrite <- Hc1. setoid_rewrite <- Hs1. rewrite <- Hc1 in Hv. destruct o as [c|].
  - assert (Hd : ∀ z1 w2, match om_deletionTimestamp (so_meta c) with None => wrap "failed to delete KubermaticConfiguration in seed cluster"
        (c_delete (sn_configs conn) c) | Some _ => mret tt end w1 = (z1, w2) → (∀ j k, sz_seed j k w2 = sz_seed j k w1)).
    { intros z1 w2 E1 j k. pose proof (ca_config_delete _ _ _ _ Hat c j k). by destruct (om_deletionTimestamp _);
        [injection E1 as _ <-|apply (keeps_wrap (sz_seed j k) _ _ H0) in E1]. }
    apply bind_run in E as [([] & w2 & E1 & E)|[(z1 & E1 & _) Hno]]; pose proof (Hd _ _ E1) as Hs2;
      destruct (told_to_go _ _ _ _ _ _ _ _ _ _ _ (ca_configs _ _ _ _ Hat) (Hk c eq_refl) (eq_sym Hv) E1) as (He & _ & Hg).
    + injection E as <- <-. split_and!; [intros; apply Hs2|done| |congruence]. intros _ _. split; [done|]. intros o [= <-]. by split; [|apply Hg].
    + split_and!; [intros; apply Hs2|done| |congruence]. intros _ _. split; [done|]. intros o ->. by destruct (Hno o).
  - assert (Hrem : ∀ z1 w2, wrap "failed to remove finalizer from Seed in master cluster"
        (TryRemoveFinalizer (sn_seeds (ss_master r)) (ss_retry r) x [CleanupFinalizer]) w1 = (z1, w2) →
      elsewhere sz_seed sz_master (object_key x) w1 w2 ∧ (∀ j k, sz_config j k w2 = sz_config j k w1) ∧
      ∀ p, z1 = Ok p → ∀ y, sz_seed sz_master (object_key x) w2 = Some y → CleanupFinalizer ∉ finalizers y).
    { intros z1 w2 E1. pose proof (λ j k, keeps_wrap (sz_config j k) _ _ (keeps_release_seed x k j [CleanupFinalizer]) _ _ _ E1) as Hc2.
      apply wrap_run in E1 as (z2 & E1 & Hz). pose proof (remove_finalizer_run seeds_alone seed_main sd_status (object_key x) x CleanupFinalizer w1 z2 w2 eq_refl) as Hrun.
      destruct (Hrun E1) as (He & _ & Hp). split_and!; [done..|]. intros p Hp1. by apply (Hp p), Hz. }
    apply bind_run in E as [(p & w2 & E1 & E)|[(z1 & E1 & _) Hno]]; destruct (Hrem _ _ E1) as (He & Hc2 & Hp).
    + injection E as <- <-. split_and!; [done|intros; apply Hc2|congruence|]. intros _. split; [done|]. intros _ _. by apply (Hp p).
    + split_and!; [done|intros; apply Hc2|congruence|]. intros _. split; [done|]. intros o ->. by destruct (Hno o).
Qed.

(** The copy of a seed is gone, or waits for nothing but this controller. *)
Definition away (i : I) (k : NamespacedName) (w : W) : Prop :=
  ∀ c, sz_seed i k w = Some c → HasOnlyFinalizer (sd_meta c) CleanupFinalizer = true.

(** The three phases of a deletion. *)
Definition cleanup_phases (i : I) (x : SeedObject) (config : ConfigObject) (w : W) (z : outcome (option Result)) (w' : W) : Prop :=
  (¬ away i (object_key x) w → (∀ j k, sz_config j k w' = sz_config j k w) ∧ sz_seed sz_master (object_key x) w' = Some x ∧
     (∀ o, z = Ok o → o = retry_soon ∧ gone (sz_seed i (object_key x) w'))) ∧
  (∀ c, away i (object_key x) w → sz_config i (object_key config) w = Some c → (∀ j k, sz_seed j k w' = sz_seed j k w) ∧
     (∀ o, z = Ok o → o = retry_soon ∧ gone (sz_config i (object_key config) w'))) ∧
  (away i (object_key x) w → sz_config i (object_key config) w = None → (∀ j k, sz_config j k w' = sz_config j k w) ∧
     (∀ o, z = Ok o → ∀ y, sz_seed sz_master (object_key x) w' = Some y → CleanupFinalizer ∉ finalizers y)).

Lemma dead_seed x config conn i w z w' : sz_seed sz_master (object_key x) w = Some x → is_Some (deletion x) →
  CleanupFinalizer ∈ finalizers x → conn_at sz_seed sz_config conn i → cleanupDeletedSeed r config x conn w = (z, w') →
  (∀ j k, k ≠ object_key x → sz_seed j k w' = sz_seed j k w) ∧ elsewhere sz_config i (object_key config) w w' ∧
  cleanup_phases i x config w z w'.
Proof.
  intros Hx Hd Hf Hat E. unfold cleanupDeletedSeed in E.
  assert (HasAnyFinalizer (sd_meta x) [CleanupFinalizer] = true) as Hany.
  { apply HasAnyFinalizer_spec. exists CleanupFinalizer. split; [left|done]. }
  rewrite Hany in E. cbv [negb] in E. clear Hany.
  assert (Hp : ∀ z1 w1, probe (c_get (sn_seeds conn) (object_key x)) w = (z1, w1) →
    (∀ j k, sz_seed j k w1 = sz_seed j k w) ∧ (∀ j k, sz_config j k w1 = sz_config j k w)).
  { intros z1 w1 E1. split; intros j k.
    - by apply (keeps_probe (sz_seed j k) _ (as_get _ _ _ _ _ (ca_seeds _ _ _ _ Hat) _ j k)) in E1.
    - by apply (keeps_probe (sz_config j k) _ (ca_seed_get _ _ _ _ Hat _ j k)) in E1. }
  apply bind_run in E as [(o & w1 & E1 & E)|[(z1 & E1 & _) Hno]]; destruct (Hp _ _ E1) as [Hs1 Hc1].
  2: { split_and!; [intros; apply Hs1|intros ???; apply Hc1|]. split_and!; intros; (split; [done|]); rewrite ?Hs1;
       [split; [done|]; intros a ->; by destruct (Hno a)|intros a ->; by destruct (Hno a)..]. }
  destruct (probe_run _ _ _ _ _ _ _ _ _ (ca_seeds _ _ _ _ Hat) E1 o eq_refl) as [Hv Hk]. clear E1 Hp.
  unfold elsewhere, cleanup_phases, away. rewrite <- Hs1 in Hx, Hv. setoid_rewrite <- Hc1. setoid_rewrite <- Hs1.
  assert (Hcfg : cleanupConfig r config x conn w1 = (z, w') → (∀ c, sz_seed i (object_key x) w1 = Some c → HasOnlyFinalizer (sd_meta c) CleanupFinalizer = true) →
    (∀ j k, k ≠ object_key x → sz_seed j k w' = sz_seed j k w1) ∧ elsewhere sz_config i (object_key config) w1 w' ∧ cleanup_phases i x config w1 z w').
  { intros E1 Haway. destruct (cleanup_config_run _ _ _ _ _ _ _ Hat E1) as (He & Hec & Hsome & Hnone).
    split_and!; [intros j k Hne; apply He; congruence|done|]. split_and!; [by intros []|intros c _; apply Hsome|intros _; apply Hnone]. }
  destruct o as [copy|]; [|by apply Hcfg; [|rewrite <- Hv]].
  destruct (HasOnlyFinalizer (sd_meta copy) CleanupFinalizer) eqn:Eo; [apply Hcfg; [done|]; rewrite <- Hv; by intros c [= <-]|].
  assert (Hnot : ∀ P, (∀ c, sz_seed i (object_key x) w1 = Some c → HasOnlyFinalizer (sd_meta c) CleanupFinalizer = true) → P).
  { intros P Ha. rewrite (Ha copy) in Eo; done. }
  assert (Hdel : ∀ z1 w2, match om_deletionTimestamp (sd_meta copy) with None => wrap "failed to delete Seed in seed cluster"
      (c_delete (sn_seeds conn) copy) | Some _ => mret tt end w1 = (z1, w2) →
    (∀ j k, k ≠ object_key x → sz_seed j k w2 = sz_seed j k w1) ∧ sz_seed sz_master (object_key x) w2 = Some x ∧
    (z1 = Ok tt → gone (sz_seed i (object_key x) w2)) ∧ (∀ j k, sz_config j k w2 = sz_config j k w1)).
  { intros z1 w2 E1. destruct (told_to_go _ _ _ _ _ _ _ _ _ _ _ (ca_seeds _ _ _ _ Hat) (Hk copy eq_refl) (eq_sym Hv) E1) as (He & Hst & Hg).
    split_and!; [intros j k Hne; apply He; congruence| |done|].
    - destruct (decide (i = sz_master)) as [->|Hne]; [|by rewrite He by congruence]. rewrite Hst; [done|]. congruence.
    - intros j k. pose proof (ca_seed_delete _ _ _ _ Hat copy j k) as Hkd. destruct (om_deletionTimestamp _); [by injection E1 as _ <-|].
      by apply (keeps_wrap (sz_config j k) _ _ Hkd) in E1. }
  apply bind_run in E as [([] & w2 & E1 & E)|[(z1 & E1 & _) Hno]]; destruct (Hdel _ _ E1) as (He & Hm & Hg & Hc2).
  - injection E as <- <-. split_and!; [done|intros; apply Hc2| |intros c Ha; by apply Hnot|intros Ha; by apply Hnot].
    intros _. split_and!; [done..|]. intros o [= <-]. by split; [|apply Hg].
  - split_and!; [done|intros; apply Hc2| |intros c Ha; by apply Hnot|intros Ha; by apply Hnot].
    intros _. split_and!; [done..|]. intros o ->. by destruct (Hno o).
Qed.

(** ** Whole runs *)

Definition same_stores (w w' : W) : Prop := (∀ j k, sz_seed j k w' = sz_seed j k w) ∧ (∀ j k, sz_config j k w' = sz_config j k w).

(** A run ends early and changes nothing, or comes to the seed with its client and the
    configuration. *)
Lemma seed_request_run request x w z w' : sz_seed sz_master request w = Some x → Reconcile r emptySeed emptyConfig request w = (z, w') →
  (same_stores w w' ∧ ∀ res, z = Ok res → ∀ c, ¬ only_config (key_namespace request) c w) ∨
  ∃ config conn w1, same_stores w w1 ∧ conn_at sz_seed sz_config conn (sz_store (om_name (sd_meta x))) ∧
    only_config (key_namespace request) config w ∧ object_key x = request ∧
    match om_deletionTimestamp (sd_meta x) with
    | Some _ => result ← wrap "failed to cleanup deleted Seed" (cleanupDeletedSeed r config x conn); mret (default emptyResult result)
    | None =>
        got ← try (reconcile r emptySeed emptyConfig config x conn);
        match got with
        | inl e => _ ← emit (ss_event r (sd_meta x) (error_string e)); throw (ErrWrap "failed to reconcile" e)
        | inr _ => mret emptyResult
        end
    end w1 = (z, w').
Proof.
  intros Hx E. unfold Reconcile, mbind at 1, M_MBind at 1, M_bind at 1, try at 1 in E.
  destruct (c_get (sn_seeds (ss_master r)) request w) as [o w1] eqn:Eg.
  assert (Hs1 : same_stores w w1).
  { split; intros j k; [by apply (as_get _ _ _ _ _ master_seeds request j k) in Eg|].
    by apply (ca_seed_get _ _ _ _ sz_at_master request j k) in Eg. }
  destruct o as [y|e|s|]; [|left; destruct (IsNotFound e) eqn:En; [by rewrite (as_get_missing _ _ _ _ _ master_seeds _ _ _ _ Eg En) in Hx|];
    by injection E as <- <-|left; by injection E as <- <-..].
  apply (as_get_ok _ _ _ _ _ master_seeds) in Eg as [Hy Hk]. assert (y = x) as -> by congruence. clear Hy.
  apply bind_run in E as [(conn & w2 & Ec%wrap_ok_inv & E)|[(z1 & Ec & _) Hno]].
  2: { left. split; [|intros res ->; by destruct (Hno res)]. apply wrap_run in Ec as (z2 & Ec & _). destruct Hs1 as [Ha Hb].
       split; intros j k; [apply (sz_client_seed _ j k) in Ec|apply (sz_client_config _ j k) in Ec]; by rewrite Ec. }
  assert (Hs2 : same_stores w w2).
  { destruct Hs1 as [Ha Hb]. pose proof Ec as Ec'. split; intros j k; [apply (sz_client_seed _ j k) in Ec'|apply (sz_client_config _ j k) in Ec']; by rewrite Ec'. }
  apply sz_client in Ec. clear Hs1. destruct Hs2 as [Hsa Hsb].
  assert (Hoc : ∀ c, only_config (key_namespace request) c w2 ↔ only_config (key_namespace request) c w)
    by (intros c; unfold only_config; by setoid_rewrite Hsb).
  apply bind_run in E as [(config & w3 & Ef%wrap_ok_inv & E)|[(z1 & Ef & _) Hno]].
  - destruct (configuration_run _ _ _ _ Ef) as (Hse & Hco & Hsome & Hnone).
    assert (same_stores w w3) by (split; intros j k; [by rewrite Hse|by rewrite Hco]). destruct config as [config|].
    + right. exists config, conn, w3. split_and!; try done. by apply Hoc, Hsome.
    + left. injection E as <- <-. split; [done|]. intros _ _ c ?%Hoc. by eapply Hnone.
  - left. split; [|intros res ->; by destruct (Hno res)]. apply wrap_run in Ef as (z2 & Ef & _).
    destruct (configuration_run _ _ _ _ Ef) as (Hse & Hco & _). split; intros j k; [by rewrite Hse|by rewrite Hco].
Qed.

Lemma dead_seed_frame x config conn i w z w' : sz_seed sz_master (object_key x) w = Some x → is_Some (deletion x) →
  conn_at sz_seed sz_config conn i → cleanupDeletedSeed r config x conn w = (z, w') →
  (∀ j k, k ≠ object_key x → sz_seed j k w' = sz_seed j k w) ∧ elsewhere sz_config i (object_key config) w w'.
Proof.
  intros Hx Hd Hat E. destruct (decide (CleanupFinalizer ∈ finalizers x)) as [Hf|Hf].
  { by destruct (dead_seed x config conn i w z w' Hx Hd Hf Hat E) as (? & ? & _). }
  unfold cleanupDeletedSeed in E. destruct (HasAnyFinalizer (sd_meta x) [CleanupFinalizer]) eqn:Ea; [|by injection E as <- <-].
  apply HasAnyFinalizer_spec in Ea as (f & ->%list_elem_of_singleton & Hin). done.
Qed.

Lemma only_config_unique ns c d w : only_config ns c w → only_config ns d w → c = d.
Proof. intros [Hn Hc] [_ Hd]. assert (sz_config sz_master (object_key c) w = Some c) as Hv by (by apply Hc). by apply (Hd _ _ Hn) in Hv as [? _]. Qed.

(** The end of a run for a live seed. *)
Lemma live_seed_run x config conn i w z w' : sz_seed sz_master (object_key x) w = Some x → deletion x = None →
  conn_at sz_seed sz_config conn i → om_namespace (so_meta config) = om_namespace (sd_meta x) →
  (got ← try (reconcile r emptySeed emptyConfig config x conn);
   match got with
   | inl e => _ ← emit (ss_event r (sd_meta x) (error_string e)); throw (ErrWrap "failed to reconcile" e)
   | inr _ => mret emptyResult
   end) w = (z, w') → kept_seed x w w' ∧ elsewhere sz_config i (object_key config) w w' ∧
  (∀ res, z = Ok res → (∃ y, sz_seed sz_master (object_key x) w' = Some y ∧ CleanupFinalizer ∈ finalizers y) ∧
     same_main seed_main (seed_copy x) (sz_seed i (object_key x) w') ∧
     same_main config_main (config_copy config) (sz_config i (object_key config) w')).
Proof.
  intros Hx Hd Hat Hns E. unfold mbind, M_MBind, M_bind, try in E.
  destruct (reconcile r emptySeed emptyConfig config x conn w) as [o w1] eqn:E1.
  destruct (live_seed _ _ _ _ _ _ _ Hx Hd Hat Hns E1) as ([Hs Hf] & Hc & Hok).
  destruct o as [[]|e|s|]; injection E as <- <-; unfold kept_seed, elsewhere, emit; repeat setoid_rewrite sz_event_seed;
    repeat setoid_rewrite sz_event_config; split_and!; try done. intros _ _. by apply Hok.
Qed.

(** C28: seeds on their clusters: whatever the outcome of a run for a seed, other seeds
    and other configurations are left alone; a live seed loses no finalizer, and after a
    successful run has its guard and, on its cluster, a copy of itself and of the
    configuration; a deleted seed loses its guard only when the copy is away and the
    configuration is gone from its cluster, the configuration is touched only when the
    copy is away, and every successful run finishes the next of these steps. *)
Theorem seed_copies request x config w z w' : sz_seed sz_master request w = Some x → only_config (key_namespace request) config w →
  Reconcile r emptySeed emptyConfig request w = (z, w') →
  let i := sz_store (om_name (sd_meta x)) in let kc := object_key config in
  let has f := ∃ y, sz_seed sz_master request w' = Some y ∧ f ∈ finalizers y in
  (∀ j k, k ≠ request → sz_seed j k w' = sz_seed j k w) ∧ elsewhere sz_config i kc w w' ∧
  (deletion x = None → (∀ f, f ∈ finalizers x → has f) ∧
     (∀ res, z = Ok res → has CleanupFinalizer ∧ same_main seed_main (seed_copy x) (sz_seed i request w') ∧
        same_main config_main (config_copy config) (sz_config i kc w'))) ∧
  (is_Some (deletion x) → CleanupFinalizer ∈ finalizers x →
     (¬ has CleanupFinalizer → away i request w ∧ sz_config i kc w = None) ∧
     (sz_config i kc w' ≠ sz_config i kc w → away i request w) ∧
     (∀ res, z = Ok res →
        (¬ away i request w → gone (sz_seed i request w')) ∧
        (∀ c, away i request w → sz_config i kc w = Some c → gone (sz_config i kc w')) ∧
        (away i request w → sz_config i kc w = None → ¬ has CleanupFinalizer))).
Proof.
  intros Hx Honly E i kc has. destruct (seed_request_run _ _ _ _ _ Hx E) as [[[Hs Hc] Hno]|(c & conn & w1 & [Hs Hc] & Hat & Hc' & Hk & E1)].
  { split_and!; [done|by intros ???|..].
    - intros _. split; [intros f Hf; exists x; by rewrite Hs|]. intros res ->. by destruct (Hno res eq_refl config).
    - intros _ Hf. split_and!; [|congruence|intros res ->; by destruct (Hno res eq_refl config)]. intros Hn. destruct Hn. exists x. by rewrite Hs. }
  assert (c = config) as -> by (by eapply only_config_unique). clear Hc'. subst request. rewrite <- Hs in Hx.
  unfold elsewhere, away. setoid_rewrite <- Hs. setoid_rewrite <- Hc. fold (away i (object_key x) w1).
  unfold deletion. simpl. destruct (om_deletionTimestamp (sd_meta x)) as [t|] eqn:Ed.
  - assert (Hdel : is_Some (deletion x)) by (unfold deletion; simpl; by rewrite Ed).
    assert (∃ z1, cleanupDeletedSeed r config x conn w1 = (z1, w') ∧ ∀ res, z = Ok res → ∃ o, z1 = Ok o) as (z1 & Ecl & Hz).
    { apply bind_run in E1 as [(o & w2 & E1 & E2)|[(z1 & E1 & _) Hno]]; apply wrap_run in E1 as (z2 & E1 & Hz2).
      - injection E2 as _ <-. exists z2. split; [done|]. intros _ _. exists o. by apply Hz2.
      - exists z2. split; [done|]. intros res ->. by destruct (Hno res). }
    destruct (dead_seed_frame x config conn i w1 z1 w' Hx Hdel Hat Ecl) as [He Hec]. split_and!; [done..|]. intros _ Hf.
    destruct (dead_seed x config conn i w1 z1 w' Hx Hdel Hf Hat Ecl) as (_ & _ & H1 & H2 & H3). split_and!.
    + intros Hn. destruct (sz_config i kc w1) as [cc|] eqn:Ecc; [exfalso|];
        (assert (Haway : away i (object_key x) w1); [intros cp Hcp; apply dec_stable; intros Hno; apply Hn; exists x; split; [|done];
           apply H1; intros Ha; by apply Hno, Ha|]).
      * apply Hn. exists x. split; [|done]. by rewrite (proj1 (H2 cc Haway Ecc)).
      * done.
    + intros Hne cp Hcp. apply dec_stable. intros Hno. apply Hne, (H1 ltac:(intros Ha; by apply Hno, Ha)).
    + intros res Hres. destruct (Hz res Hres) as [o Ho]. split_and!.
      * intros Hn. by destruct (H1 Hn) as (_ & _ & [_ Hg]%(λ F, F o Ho)).
      * intros cc Ha Hcc. by destruct (H2 cc Ha Hcc) as (_ & [_ Hg]%(λ F, F o Ho)).
      * intros Ha Hcc (y & Hy & Hin). by apply (proj2 (H3 Ha Hcc) o Ho y Hy).
  - destruct Honly as [Hns _]. destruct (live_seed_run x config conn i w1 z w' Hx Ed Hat Hns E1) as ([He Hf] & Hec & Hok).
    split_and!; [done|done|by intros _|by intros [? [=]]].
Qed.

(** ** Seeds on the cluster of the master *)

(** What may happen while a seed waits: runs for it, and whatever leaves it as it is. *)
Definition seed_step (request : NamespacedName) (w w' : W) : Prop :=
  (∃ z, Reconcile r emptySeed emptyConfig request w = (z, w')) ∨ sz_seed sz_master request w' = sz_seed sz_master request w.

Lemma shared_seed_run request x w z w' : sz_store (om_name (sd_meta x)) = sz_master → sz_seed sz_master request w = Some x →
  is_Some (deletion x) → CleanupFinalizer ∈ finalizers x → Reconcile r emptySeed emptyConfig request w = (z, w') →
  sz_seed sz_master request w' = Some x.
Proof.
  intros Hsh Hx Hd Hf E. destruct (seed_request_run _ _ _ _ _ Hx E) as [[[Hs _] _]|(config & conn & w1 & [Hs Hc] & Hat & [Hns Hcf] & Hk & E1)]; [by rewrite Hs|].
  pose proof Hd as [t Ht]. unfold deletion in Ht. simpl in Ht. rewrite Ht in E1. rewrite Hsh in Hat. rewrite <- Hk, <- Hs in Hx. rewrite <- Hk.
  assert (∃ z1, cleanupDeletedSeed r config x conn w1 = (z1, w')) as [z1 Ecl].
  { apply bind_run in E1 as [(o & w2 & E1 & E2)|[(z1 & E1 & _) _]]; apply wrap_run in E1 as (z2 & E1 & _); [injection E2 as _ <-|]; by exists z2. }
  destruct (dead_seed x config conn sz_master w1 z1 w' Hx Hd Hf Hat Ecl) as (_ & _ & H1 & H2 & _).
  assert (Hcfg : sz_config sz_master (object_key config) w1 = Some config) by (rewrite Hc; by apply Hcf).
  destruct (HasOnlyFinalizer (sd_meta x) CleanupFinalizer) eqn:Eo.
  - rewrite (proj1 (H2 config ltac:(intros c Hc'; congruence) Hcfg)). done.
  - apply H1. intros Ha. by rewrite (Ha x Hx) in Eo.
Qed.

Lemma HasOnlyFinalizer_spec m f : HasOnlyFinalizer m f = true ↔ f ∈ om_finalizers m ∧ ∀ g, g ∈ om_finalizers m → g = f.
Proof.
  unfold HasOnlyFinalizer, NewString. rewrite andb_true_iff, !bool_decide_eq_true, elem_of_list_to_set. split.
  - intros [Hin Hsz]. split; [done|]. intros g Hg. apply (size_singleton_inv (C := gset string) _ g f Hsz); by apply elem_of_list_to_set.
  - intros [Hin Hall]. split; [done|]. assert (list_to_set (om_finalizers m) =@{gset string} {[f]}) as ->; [|apply size_singleton].
    apply set_eq. intros g. rewrite elem_of_list_to_set, elem_of_singleton. split; [apply Hall|by intros ->].
Qed.

(** A run for a deleted seed on the cluster of the master, when it gets as far as the
    clean-up. *)
Lemma shared_cleanup request x w z w' : sz_store (om_name (sd_meta x)) = sz_master → sz_seed sz_master request w = Some x →
  is_Some (deletion x) → CleanupFinalizer ∈ finalizers x → Reconcile r emptySeed emptyConfig request w = (z, w') →
  (∀ j k, sz_config j k w' = sz_config j k w) ∧ (∀ res config, z = Ok res → ¬ only_config (key_namespace request) config w) ∨
  ∃ config w1 z1, same_stores w w1 ∧ only_config (key_namespace request) config w ∧ sz_seed sz_master (object_key x) w1 = Some x ∧
    cleanup_phases sz_master x config w1 z1 w' ∧ ∀ res, z = Ok res → ∃ o, z1 = Ok o.
Proof.
  intros Hsh Hx Hd Hf E. destruct (seed_request_run _ _ _ _ _ Hx E) as [[[_ Hc] Hno]|(config & conn & w1 & Hw1 & Hat & Hc & Hk & E1)];
    [left; split; [done|]; intros res config Hz; by apply (Hno res Hz)|right].
  pose proof Hd as [t Ht]. unfold deletion in Ht. simpl in Ht. rewrite Ht in E1. rewrite Hsh in Hat.
  assert (Hx1 : sz_seed sz_master (object_key x) w1 = Some x) by (by rewrite Hk, (proj1 Hw1)).
  apply bind_run in E1 as [(o & w2 & E1 & E2)|[(z1 & E1 & _) Hno]]; apply wrap_run in E1 as (z2 & E1 & Hz2);
    destruct (dead_seed x config conn sz_master w1 _ _ Hx1 Hd Hf Hat E1) as (_ & _ & Hph).
  - injection E2 as <- <-. exists config, w1, z2. split_and!; try done. intros _ _. exists o. by apply Hz2.
  - exists config, w1, z2. split_and!; try done. intros res ->. by destruct (Hno res).
Qed.

(** C39: a seed that runs on the cluster of the master cannot be deleted.  While the
    deleted seed has another finalizer besides that of this controller (the operator's,
    for one), no run touches a configuration; once it is the only one, a successful run
    deletes the configuration of the master, given that there is exactly one; and no
    sequence of runs, successful or not, and of changes by others that leave the seed
    alone ever changes the seed, whether the configuration is there, is being deleted or
    is gone. *)
Theorem shared_seed_stuck request x w : sz_store (om_name (sd_meta x)) = sz_master → sz_seed sz_master request w = Some x →
  is_Some (deletion x) → CleanupFinalizer ∈ finalizers x →
  (∀ f z w', f ∈ finalizers x → f ≠ CleanupFinalizer → Reconcile r emptySeed emptyConfig request w = (z, w') →
     ∀ j k, sz_config j k w' = sz_config j k w) ∧
  (∀ config res w', only_config (key_namespace request) config w → (∀ f, f ∈ finalizers x → f = CleanupFinalizer) →
     Reconcile r emptySeed emptyConfig request w = (Ok res, w') → gone (sz_config sz_master (object_key config) w')) ∧
  (∀ w', rtc (seed_step request) w w' → sz_seed sz_master request w' = Some x).
Proof.
  intros Hsh Hx Hd Hf. split_and!.
  - intros f z w' Hin Hne E j k. destruct (shared_cleanup _ _ _ _ _ Hsh Hx Hd Hf E) as [[? _]|(c & w1 & z1 & [_ Hc] & _ & Hx1 & (H1 & _) & _)]; [done|].
    rewrite <- Hc. apply H1. intros Ha. apply Ha, HasOnlyFinalizer_spec in Hx1 as [_ Hall]. by apply Hne, Hall.
  - intros config res w' Honly Hall E.
    destruct (shared_cleanup _ _ _ _ _ Hsh Hx Hd Hf E) as [[_ Hno]|(c & w1 & z1 & [_ Hc] & Hc' & Hx1 & (_ & H2 & _) & Hz)];
      [by destruct (Hno res config eq_refl)|]. rewrite (only_config_unique _ _ _ _ Honly Hc'). destruct (Hz res eq_refl) as [o Ho], Hc' as [Hns Hcf].
    destruct (H2 c) as (_ & [_ Hg]%(λ F, F o Ho)); [|rewrite Hc; by apply Hcf|done].
    intros y Hy. assert (y = x) as -> by congruence. by apply HasOnlyFinalizer_spec.
  - intros w' Hrun. induction Hrun as [w|w w1 w2 [[z E]|Hst] _ IH]; [done|apply IH; by eapply shared_seed_run|apply IH; by rewrite Hst].
Qed.
End seed_sync.

(** ** The status of seeds *)

(** What there is to find out about a seed: whether its cluster can be used, the version
    of its API server, and how many user clusters it has. *)
Inductive Access := NoKubeconfig | NoNamespace | Unusable | Usable.
#[global] Instance Access_eq_dec : EqDecision Access.
Proof. solve_decision. Defined.
Record Probe := mkProbe { pb_access : Access; pb_version : option string; pb_clusters : option nat }.

Section probes.
Context {W I : Type} (seeds : I → NamespacedName → W → option SeedObject) (probes : NamespacedName → SeedSpec → W → Probe).
Definition quiet (w w' : W) : Prop := (∀ j k, seeds j k w' = seeds j k w) ∧ ∀ k sp, probes k sp w' = probes k sp w.
Definition probe_of (s : SeedObject) (w : W) : Probe := probes (object_key s) (sd_spec s) w.
End probes.

(** What is asked about a seed changes nothing, and the answers are what there is; the
    requests for the status of the seed do not change it. *)
Class SeedProbes {W I : Type} (r : SeedEnv W) `{SZ : !SeedStores (I := I) r} := {
  sq_probes : NamespacedName → SeedSpec → W → Probe;
  sq_client : ∀ s w z w', ss_clientGetter r s w = (z, w') → quiet sz_seed sq_probes w w' ∧
    ∀ e, z = Err e → pb_access (probe_of sq_probes s w) = NoKubeconfig ∧ pb_clusters (probe_of sq_probes s w) = None;
  sq_namespaces : ∀ s w0 c w1 w z w', ss_clientGetter r s w0 = (Ok c, w1) →
    c_get (sn_namespaces c) (mkKey "" (om_namespace (sd_meta s))) w = (z, w') → quiet sz_seed sq_probes w w' ∧
    match z with
    | Ok _ => pb_access (probe_of sq_probes s w) = Usable
    | Err e => pb_access (probe_of sq_probes s w) = if IsNotFound e then NoNamespace else Unusable
    | _ => True
    end;
  sq_clusters : ∀ s w0 c w1 w z w', ss_clientGetter r s w0 = (Ok c, w1) → sn_clusters c w = (z, w') → quiet sz_seed sq_probes w w' ∧
    match z with
    | Ok l => pb_clusters (probe_of sq_probes s w) = Some (length l)
    | Err _ => pb_clusters (probe_of sq_probes s w) = None
    | _ => True
    end;
  sq_kubeconfig : ∀ s w z w', ss_kubeconfigGetter r s w = (z, w') → quiet sz_seed sq_probes w w' ∧
    ∀ e, z = Err e → pb_version (probe_of sq_probes s w) = None;
  sq_version : ∀ s w0 cfg w1 w z w', ss_kubeconfigGetter r s w0 = (Ok cfg, w1) → ss_serverVersion r cfg w = (z, w') →
    quiet sz_seed sq_probes w w' ∧
    match z with
    | Ok v => pb_version (probe_of sq_probes s w) = Some v
    | Err _ => pb_version (probe_of sq_probes s w) = None
    | _ => True
    end;
  sq_now : ∀ w, quiet sz_seed sq_probes w (ss_now r w).2;
  sq_get : ∀ k k' sp, keeps (sq_probes k' sp) (c_get (sn_seeds (ss_master r)) k);
  sq_patch : ∀ old new k' sp, keeps (sq_probes k' sp) (c_status_patch (sn_seeds (ss_master r)) old new);
}.

(** What the status has to say: the condition and its reason, and the phase, by whether
    the seed is paused, its cluster can be used, and its resources are reconciled. *)
Definition verdict (a : Access) : string * string :=
  match a with
  | Usable => ("True", "KubeconfigValid")
  | NoKubeconfig => ("False", "KubeconfigUnavailable")
  | NoNamespace => ("False", "ClusterUninitialized")
  | Unusable => ("False", "KubeconfigInvalid")
  end.
Definition phase_for (paused usable : bool) (resources : option string) : string :=
  match paused, usable, resources with
  | true, _, _ => "Paused"
  | false, false, _ => "Invalid"
  | false, true, Some "True" => "Healthy"
  | false, true, Some "False" => "Unhealthy"
  | false, true, _ => ""
  end.

Section seed_status.
Context {W I : Type} `{EqDecision I} (r : SeedEnv W) `{SZ : !SeedStores (I := I) r} `{SP : !SeedProbes r}.
Import SeedStatusController.

Abbreviation still := (quiet sz_seed sq_probes).
Abbreviation found := (probe_of sq_probes).

#[local] Instance still_preorder : PreOrder still.
Proof. split; [by split|]. intros a b c [H1 H2] [H3 H4]. split; intros; [by rewrite H3, H1|by rewrite H4, H2]. Qed.
Lemma found_same s s' w w' : object_key s' = object_key s → sd_spec s' = sd_spec s → still w w' → found s' w' = found s w.
Proof. intros Hk Hs [_ Hp]. unfold probe_of. by rewrite Hp, Hk, Hs. Qed.

(** Computations that only ask. *)
Definition silent {A} (m : M W A) : Prop := ∀ w z w', m w = (z, w') → still w w'.
Lemma silent_ret {A} (a : A) : silent (mret a).
Proof. by intros w z w' [= _ <-]. Qed.
Lemma silent_try {A} (m : M W A) : silent m → silent (try m).
Proof. intros Hm w z w'. unfold try. destruct (m w) as [o w1] eqn:E. apply Hm in E. destruct o; by intros [= _ <-]. Qed.
Lemma silent_bind {A B} (m : M W A) (f : A → M W B) : silent m → (∀ w a w', m w = (Ok a, w') → silent (f a)) → silent (m ≫= f).
Proof.
  intros Hm Hf w z w' [(a & w1 & E1 & E)|[(z1 & E1 & _) _]]%bind_run; pose proof (Hm _ _ _ E1); [|done].
  transitivity w1; [done|]. by eapply Hf.
Qed.
Lemma silent_client s : silent (ss_clientGetter r s).
Proof. intros w z w' E. by apply sq_client in E as [? _]. Qed.

Lemma condition_silent t st reason msg s : silent (SetSeedCondition (ss_now r) t st reason msg s).
Proof.
  unfold SetSeedCondition. destruct (match sdt_conditions _ !! _ with None => false | Some old => _ end); [apply silent_ret|].
  apply silent_bind; [|intros; apply silent_ret]. intros w z w' E. pose proof (sq_now w) as Hn. unfold read in E.
  destruct (ss_now r w) as [n w1]. by injection E as _ <-.
Qed.
Lemma kubeconfig_silent s : silent (updateKubeconfigValidCondition r s).
Proof.
  apply silent_bind; [apply silent_try, silent_client|]. intros w [e|c] w1 Ec; [apply condition_silent|].
  apply try_ok_inv in Ec as [(? & [= <-] & Ec)|(? & [=] & _)].
  apply silent_bind; [|intros _ [e|n] _ _; [destruct (IsNotFound e)|]; apply condition_silent].
  apply silent_try. intros w2 z w3 En. by apply (sq_namespaces _ _ _ _ _ _ _ Ec) in En as [? _].
Qed.
Lemma versions_silent s : silent (updateVersions r s).
Proof.
  unfold updateVersions. apply silent_bind; [apply silent_try; intros w z w' E; by apply sq_kubeconfig in E as [? _]|].
  intros w [e|c] w1 Ec; [apply silent_ret|]. apply try_ok_inv in Ec as [(? & [= <-] & Ec)|(? & [=] & _)].
  apply silent_bind; [|intros _ [e|v] _ _; apply silent_ret]. apply silent_try. intros w2 z w3 Ev. by apply (sq_version _ _ _ _ _ _ _ Ec) in Ev as [? _].
Qed.
Lemma clusters_silent s : silent (updateClusters r s).
Proof.
  unfold updateClusters. apply silent_bind; [apply silent_try, silent_client|]. intros w [e|c] w1 Ec; [apply silent_ret|].
  apply try_ok_inv in Ec as [(? & [= <-] & Ec)|(? & [=] & _)].
  apply silent_bind; [|intros _ [e|v] _ _; apply silent_ret]. apply silent_try. intros w2 z w3 El. by apply (sq_clusters _ _ _ _ _ _ _ Ec) in El as [? _].
Qed.

(** The same seed with another status. *)
Definition same_seed (s y : SeedObject) : Prop := sd_meta y = sd_meta s ∧ sd_spec y = sd_spec s.
Definition condition_of (y : SeedObject) (t : string) : option (string * string) :=
  (λ c, (sdc_status c, sdc_reason c)) <$> sdt_conditions (sd_status y) !! t.

Lemma condition_set t st reason msg s w y w' : SetSeedCondition (ss_now r) t st reason msg s w = (Ok y, w') →
  same_seed s y ∧ condition_of y t = Some (st, reason) ∧
  (∀ t', t' ≠ t → sdt_conditions (sd_status y) !! t' = sdt_conditions (sd_status s) !! t') ∧
  sdt_versions (sd_status y) = sdt_versions (sd_status s) ∧ sdt_clusters (sd_status y) = sdt_clusters (sd_status s).
Proof.
  unfold SetSeedCondition, condition_of. destruct (match sdt_conditions (sd_status s) !! t with None => false | Some old => _ end) eqn:Eu.
  - intros [<- _]%ret_ok_inv. split_and!; try done. destruct (sdt_conditions (sd_status s) !! t) as [old|]; [|done].
    apply bool_decide_eq_true in Eu. injection Eu as Hst Hre _. simpl. by rewrite Hst, Hre.
  - intros (n & w1 & _ & [<- _]%ret_ok_inv)%bind_ok_inv. simpl. rewrite lookup_insert_eq. split_and!; try done.
    intros t' Hne. by rewrite lookup_insert_ne.
Qed.

Lemma kubeconfig_found s w y w' : updateKubeconfigValidCondition r s w = (Ok y, w') →
  same_seed s y ∧ condition_of y SeedConditionKubeconfigValid = Some (verdict (pb_access (found s w))) ∧
  (∀ t, t ≠ SeedConditionKubeconfigValid → sdt_conditions (sd_status y) !! t = sdt_conditions (sd_status s) !! t) ∧
  sdt_versions (sd_status y) = sdt_versions (sd_status s) ∧ sdt_clusters (sd_status y) = sdt_clusters (sd_status s).
Proof.
  intros (got & w1 & [(c & -> & Ec)|(e & -> & Ec)]%try_ok_inv & E)%bind_ok_inv.
  2: { apply condition_set in E. by rewrite (proj1 (proj2 (sq_client _ _ _ _ Ec) e eq_refl)). }
  pose proof (found_same s s w w1 eq_refl eq_refl (silent_client _ _ _ _ Ec)) as Hp.
  apply bind_ok_inv in E as (got & w2 & [(n & -> & En)|(e & -> & En)]%try_ok_inv & E);
    apply (sq_namespaces _ _ _ _ _ _ _ Ec) in En as [_ Hn]; rewrite Hp in Hn; rewrite Hn; [by apply condition_set in E|].
  destruct (IsNotFound e); by apply condition_set in E.
Qed.

Lemma versions_found s w y w' : updateVersions r s w = (Ok y, w') →
  same_seed s y ∧ sdt_conditions (sd_status y) = sdt_conditions (sd_status s) ∧ sdt_clusters (sd_status y) = sdt_clusters (sd_status s) ∧
  sdt_versions (sd_status y) =
    mkSeedVersionsStatus (KubermaticCommit (ss_versions r)) (default (sdv_cluster (sdt_versions (sd_status s))) (pb_version (found s w))).
Proof.
  unfold updateVersions. set (s1 := set_seed_versions _ s).
  intros (got & w1 & [(c & -> & Ec)|(e & -> & Ec)]%try_ok_inv & E)%bind_ok_inv.
  2: { apply ret_ok_inv in E as [<- _]. destruct (sq_kubeconfig _ _ _ _ Ec) as [_ Hv]. specialize (Hv e eq_refl).
       change (found s1 w) with (found s w) in Hv. rewrite Hv. by split_and!. }
  assert (Hp : found s1 w1 = found s w) by (apply (found_same s s1); try done; by apply sq_kubeconfig in Ec as [? _]).
  apply bind_ok_inv in E as (got & w2 & [(v & -> & Ev)|(e & -> & Ev)]%try_ok_inv & [<- _]%ret_ok_inv);
    apply (sq_version _ _ _ _ _ _ _ Ec) in Ev as [_ Hv]; rewrite Hp in Hv; rewrite Hv; by split_and!.
Qed.

Lemma clusters_found s w y w' : updateClusters r s w = (Ok y, w') →
  same_seed s y ∧ sdt_conditions (sd_status y) = sdt_conditions (sd_status s) ∧ sdt_versions (sd_status y) = sdt_versions (sd_status s) ∧
  sdt_clusters (sd_status y) = default (sdt_clusters (sd_status s)) (Z.of_nat <$> pb_clusters (found s w)).
Proof.
  intros (got & w1 & [(c & -> & Ec)|(e & -> & Ec)]%try_ok_inv & E)%bind_ok_inv.
  2: { apply ret_ok_inv in E as [<- _]. rewrite (proj2 (proj2 (sq_client _ _ _ _ Ec) e eq_refl)). by split_and!. }
  pose proof (found_same s s w w1 eq_refl eq_refl (silent_client _ _ _ _ Ec)) as Hp.
  apply bind_ok_inv in E as (got & w2 & [(l & -> & El)|(e & -> & El)]%try_ok_inv & [<- _]%ret_ok_inv);
    apply (sq_clusters _ _ _ _ _ _ _ Ec) in El as [_ Hl]; rewrite Hp in Hl; rewrite Hl; by split_and!.
Qed.

(** The status that a run leaves, for what was found; what could not be read stays as it
    was. *)
Record reported_status (p : Probe) (x y : SeedObject) : Prop := {
  rp_condition : condition_of y "KubeconfigValid" = Some (verdict (pb_access p));
  rp_others : ∀ t, t ≠ "KubeconfigValid" → sdt_conditions (sd_status y) !! t = sdt_conditions (sd_status x) !! t;
  rp_phase : sdt_phase (sd_status y) =
    phase_for (bool_decide (is_Some (om_annotations (sd_meta y) !! "kubermatic.k8c.io/skip-reconciling"))) (bool_decide (pb_access p = Usable))
      (sdc_status <$> sdt_conditions (sd_status y) !! "ResourcesReconciled");
  rp_kubermatic : sdv_kubermatic (sdt_versions (sd_status y)) = KubermaticCommit (ss_versions r);
  rp_cluster : sdv_cluster (sdt_versions (sd_status y)) = default (sdv_cluster (sdt_versions (sd_status x))) (pb_version p);
  rp_clusters : sdt_clusters (sd_status y) = default (sdt_clusters (sd_status x)) (Z.of_nat <$> pb_clusters p);
}.

Lemma phase_found p y : condition_of y "KubeconfigValid" = Some (verdict p) → getSeedPhase y =
  phase_for (bool_decide (is_Some (om_annotations (sd_meta y) !! "kubermatic.k8c.io/skip-reconciling"))) (bool_decide (p = Usable))
    (sdc_status <$> sdt_conditions (sd_status y) !! "ResourcesReconciled").
Proof.
  intros Hc. unfold getSeedPhase. fold SkipReconcilingAnnotation. destruct (bool_decide (is_Some _)); [done|].
  assert (getConditionStatus y SeedConditionKubeconfigValid = (verdict p).1) as ->.
  { unfold getConditionStatus, condition_of in *. unfold SeedConditionKubeconfigValid. destruct (_ !! "KubeconfigValid"); [|done]. by injection Hc as <-. }
  unfold getConditionStatus. fold SeedConditionResourcesReconciled. destruct (_ !! SeedConditionResourcesReconciled) as [c|]; simpl.
  - destruct p; simpl; try reflexivity. destruct (String.eqb_spec (sdc_status c) ConditionTrue) as [->|H1]; [reflexivity|].
    destruct (String.eqb_spec (sdc_status c) ConditionFalse) as [->|H2]; [reflexivity|]. unfold ConditionTrue, ConditionFalse in *.
    repeat case_match; try done; by subst.
  - by destruct p.
Qed.

(** Another object with the same status, and two attempts in a row. *)
Lemma reported_ext p x n y : reported_status p x n → sd_status y = sd_status n → om_annotations (sd_meta y) = om_annotations (sd_meta n) →
  reported_status p x y.
Proof. intros [H1 H2 H3 H4 H5 H6] Hs Ha. unfold condition_of in *. split; unfold condition_of; rewrite ?Hs, ?Ha; done. Qed.
Lemma reported_trans p x y z : sd_status y = sd_status x ∨ reported_status p x y → reported_status p y z → reported_status p x z.
Proof.
  intros Hxy [H1 H2 H3 H4 H5 H6]. destruct Hxy as [Es|[G1 G2 G3 G4 G5 G6]].
  - rewrite Es in *. by split.
  - split; try done; [intros t Ht; by rewrite H2, G2|rewrite H5, G5; by destruct (pb_version p)|rewrite H6, G6; by destruct (pb_clusters p)].
Qed.

(** A change of the status, for what is found about the seed that it starts from. *)
Definition observes (m : SeedObject → M W SeedObject) (P : Probe → SeedObject → SeedObject → Prop) : Prop := ∀ s w z w', m s w = (z, w') →
  still w w' ∧ ∀ y, z = Ok y → same_seed s y ∧ P (found s w) s y.

Lemma seed_observed : observes (observe r) reported_status.
Proof.
  intros s w z w' E. split.
  { revert E. apply silent_bind; [apply kubeconfig_silent|]. intros _ s1 _ _. apply silent_bind; [apply versions_silent|].
    intros _ s2 _ _. apply silent_bind; [apply clusters_silent|]. intros. apply silent_ret. }
  intros y ->. apply bind_ok_inv in E as (s1 & w1 & E1 & E). pose proof (kubeconfig_silent _ _ _ _ E1) as Hw1.
  apply kubeconfig_found in E1 as ([Hm1 Hs1] & Hc1 & Ho1 & Hv1 & Hn1).
  apply bind_ok_inv in E as (s2 & w2 & E2 & E). pose proof (versions_silent _ _ _ _ E2) as Hw2.
  apply versions_found in E2 as ([Hm2 Hs2] & Hc2 & Hn2 & Hv2).
  apply bind_ok_inv in E as (s3 & w3 & E3 & [<- _]%ret_ok_inv). apply clusters_found in E3 as ([Hm3 Hs3] & Hc3 & Hv3 & Hn3).
  assert (Hk1 : object_key s1 = object_key s) by (unfold object_key; simpl; by rewrite Hm1).
  assert (Hk2 : object_key s2 = object_key s) by (unfold object_key; simpl; by rewrite Hm2, Hm1).
  rewrite (found_same s s1 w w1 Hk1 Hs1 Hw1) in Hv2.
  rewrite (found_same s s2 w w2) in Hn3; [|done|congruence|by transitivity w1].
  assert (Hcond : sdt_conditions (sd_status s3) = sdt_conditions (sd_status s1)) by congruence.
  assert (Hset : condition_of s3 "KubeconfigValid" = Some (verdict (pb_access (found s w)))) by (unfold condition_of in *; by rewrite Hcond).
  simpl. split; [split; simpl; congruence|]. split; simpl.
  - exact Hset.
  - intros t Ht. rewrite Hcond. by apply Ho1.
  - by apply phase_found.
  - by rewrite Hv3, Hv2.
  - by rewrite Hv3, Hv2, Hv1.
  - by rewrite Hn3, Hn2, Hn1.
Qed.

(** A deleted seed. *)
Definition terminating (_ : Probe) (x y : SeedObject) : Prop :=
  sdt_phase (sd_status y) = "Terminating" ∧ sdt_conditions (sd_status y) = sdt_conditions (sd_status x) ∧
  sdt_versions (sd_status y) = sdt_versions (sd_status x) ∧ sdt_clusters (sd_status y) = sdt_clusters (sd_status x).
Lemma terminating_observed : observes (λ s, mret (set_seed_phase SeedTerminatingPhase s)) terminating.
Proof. intros s w z w' [= <- <-]. split; [by split|]. by intros y [= <-]. Qed.
Lemma terminating_ext p x n y : terminating p x n → sd_status y = sd_status n → om_annotations (sd_meta y) = om_annotations (sd_meta n) →
  terminating p x y.
Proof. intros Hn Hs _. unfold terminating. by rewrite Hs. Qed.
Lemma terminating_trans p x y z : sd_status y = sd_status x ∨ terminating p x y → terminating p y z → terminating p x z.
Proof. intros [Hs|(_ & H1 & H2 & H3)] (G0 & G1 & G2 & G3); split_and!; congruence. Qed.

(** Another status of the same seed. *)
Definition restatused (x y : SeedObject) : Prop := seed_main y = seed_main x ∧ finalizers y = finalizers x ∧ deletion y = deletion x.

Section update.
Context (f : SeedObject → M W SeedObject) (P : Probe → SeedObject → SeedObject → Prop).
Hypothesis Hf : observes f P.
(** [P] looks at the annotations and the status of the new seed only, and at the status
    of the old one. *)
Hypothesis Hext : ∀ p x n y, P p x n → sd_status y = sd_status n → om_annotations (sd_meta y) = om_annotations (sd_meta n) → P p x y.
Hypothesis Htrans : ∀ p x y z, sd_status y = sd_status x ∨ P p x y → P p y z → P p x z.

Lemma update_attempt request x0 x w z w' : object_key x0 = request → sz_seed sz_master request w = Some x →
  (original ← c_get (sn_seeds (ss_master r)) (object_key x0);
   seed ← f original;
   if bool_decide (sd_status original = sd_status seed) then mret seed else c_status_patch (sn_seeds (ss_master r)) original seed) w = (z, w') →
  elsewhere sz_seed sz_master request w w' ∧ (∀ k sp, sq_probes k sp w' = sq_probes k sp w) ∧
  ∃ y, sz_seed sz_master request w' = Some y ∧ restatused x y ∧
    (sd_status y = sd_status x ∨ P (sq_probes request (sd_spec x) w) x y) ∧ (∀ v, z = Ok v → P (sq_probes request (sd_spec x) w) x y).
Proof.
  intros Hk Hx E. pose proof (ca_seeds _ _ _ _ sz_at_master) as Hat. rewrite Hk in E.
  assert (Hsame : ∀ w2, still w w2 → (∀ v, z ≠ Ok v) → w' = w2 → elsewhere sz_seed sz_master request w w' ∧
    (∀ k sp, sq_probes k sp w' = sq_probes k sp w) ∧ ∃ y, sz_seed sz_master request w' = Some y ∧ restatused x y ∧
    (sd_status y = sd_status x ∨ P (sq_probes request (sd_spec x) w) x y) ∧ (∀ v, z = Ok v → P (sq_probes request (sd_spec x) w) x y)).
  { intros w2 [Hs Hp] Hno ->. split; [intros ???; apply Hs|]. split; [done|]. exists x. rewrite Hs. split_and!; try done; [by left|].
    intros v ->. by destruct (Hno v). }
  assert (Hget : ∀ o w1, c_get (sn_seeds (ss_master r)) request w = (o, w1) → still w w1).
  { intros o w1 Eg. split; [intros j k; by apply (as_get _ _ _ _ _ Hat request j k) in Eg|intros k sp; by apply (sq_get request k sp) in Eg]. }
  apply bind_run in E as [(o & w1 & Eg & E)|[(z1 & Eg & _) Hno]]; pose proof (Hget _ _ Eg) as Hw1; [|by eapply Hsame].
  apply (as_get_ok _ _ _ _ _ Hat) in Eg as [Ho Hko]. assert (o = x) as -> by congruence.
  apply bind_run in E as [(n & w2 & En & E)|[(z1 & En & _) Hno]]; destruct (Hf _ _ _ _ En) as [Hw2 Hn];
    [|eapply Hsame; [|done|reflexivity]; by transitivity w1].
  destruct (Hn n eq_refl) as [[Hmeta Hspec] HP]. rewrite (found_same x x w w1 eq_refl eq_refl Hw1) in HP. unfold probe_of in HP. rewrite Hko in HP.
  assert (Hw : still w w2) by (by transitivity w1). destruct Hw as [Hv Hpr]. case_bool_decide as Heq.
  - injection E as <- <-. split; [intros ???; apply Hv|]. split; [done|]. exists x. rewrite Hv.
    assert (P (sq_probes request (sd_spec x) w) x x) by (eapply Hext; [exact HP|done|by rewrite Hmeta]). split_and!; try done; by right.
  - assert (Hpw : ∀ k sp, sq_probes k sp w' = sq_probes k sp w) by (intros k sp; apply (sq_patch _ _ k sp) in E; by rewrite E).
    destruct (as_status_patch _ _ _ _ _ Hat _ _ _ _ _ E) as [He Hcase]; [by rewrite Hko, Hv|]. rewrite Hko in He, Hcase.
    split; [intros j k Hne; by rewrite He, Hv|]. split; [done|]. destruct Hcase as [[Hw' Hno]|(y & Hy & Hm & Hfi & Hd & Hs)].
    + exists x. split_and!; try done; [by left|]. intros v ->. by destruct (Hno v).
    + exists y. assert (P (sq_probes request (sd_spec x) w) x y); [|split_and!; try done; by right].
      eapply Hext; [exact HP|done|]. rewrite Hmeta. by injection Hm.
Qed.

Lemma update_run request x w z w' : object_key x = request → sz_seed sz_master request w = Some x →
  UpdateSeedStatus (sn_seeds (ss_master r)) (ss_retry r) x f w = (z, w') →
  elsewhere sz_seed sz_master request w w' ∧ ∃ y, sz_seed sz_master request w' = Some y ∧ restatused x y ∧
    (sd_status y = sd_status x ∨ P (found x w) x y) ∧ (∀ v, z = Ok v → P (found x w) x y).
Proof.
  intros Hk Hx E. unfold probe_of. rewrite Hk. apply retry_last in E as (w0 & E & HP). set (p := sq_probes request (sd_spec x) w).
  set (inv w1 := elsewhere sz_seed sz_master request w w1 ∧ (∀ k sp, sq_probes k sp w1 = sq_probes k sp w) ∧
    ∃ y, sz_seed sz_master request w1 = Some y ∧ restatused x y ∧ (sd_status y = sd_status x ∨ P p x y)).
  match type of E with ?b _ = _ => set (body := b) in * end.
  assert (Hstep : ∀ w1 z w2, inv w1 → body w1 = (z, w2) → inv w2 ∧ ∃ y, sz_seed sz_master request w2 = Some y ∧ ∀ v, z = Ok v → P p x y).
  { intros w1 z1 w2 (He & Hp & y & Hy & (Ha & Hb & Hc) & Hxy) E1.
    destruct (update_attempt _ _ _ _ _ _ Hk Hy E1) as (He2 & Hp2 & y2 & Hy2 & (Ha2 & Hb2 & Hc2) & Hor & Hok).
    assert (Hsp : sd_spec y = sd_spec x) by (by injection Ha). rewrite Hp, Hsp in Hor, Hok. fold p in Hor, Hok.
    assert (Hall : P p y y2 → P p x y2) by (intros; by eapply Htrans). split; [split; [intros j k Hne; by rewrite He2, He|]|].
    - split; [intros k sp; by rewrite Hp2, Hp|]. exists y2. split; [done|]. split; [split_and!; congruence|].
      destruct Hor as [Heq|?]; [|right; auto]. destruct Hxy as [Hxy|Hxy]; [left; congruence|]. right. eapply Hext; [exact Hxy|done|by injection Ha2].
    - exists y2. split; [done|]. intros v Hv. apply Hall. by eapply Hok. }
  assert (Hw0 : inv w0).
  { apply HP; [intros w1 e w2 H1 E1 _; by apply (Hstep _ _ _ H1) in E1 as [? _]|]. split; [done|]. split; [done|]. exists x. split_and!; try done. by left. }
  destruct (Hstep _ _ _ Hw0 E) as [(He & _ & y & Hy & Hxy & Hor) (y' & Hy' & Hok)]. assert (y' = y) as -> by congruence.
  split; [done|]. by exists y.
Qed.
End update.

(** C31: the status of seeds: whatever its outcome, a run changes nothing but the status
    of the seed.  After a successful run the status of a live seed says what was found:
    [KubeconfigValid] is true exactly when the cluster of the seed can be used, with the
    reason why not otherwise; the phase follows from that, the pause annotation and the
    [ResourcesReconciled] condition by the table [phase_for]; the versions are that of
    the controllers and that of the API server, and the number of clusters is the number
    that the seed lists.  What could not be read and all other conditions stay as they
    were.  A deleted seed is reported as terminating and its status stays otherwise as it
    was. *)
Theorem seed_status_coherent request x w z w' : sz_seed sz_master request w = Some x →
  Reconcile r request w = (z, w') → elsewhere sz_seed sz_master request w w' ∧
  ∃ y, sz_seed sz_master request w' = Some y ∧ restatused x y ∧
    ∀ res, z = Ok res →
      (deletion x = None → reported_status (found x w) x y) ∧ (is_Some (deletion x) → terminating (found x w) x y).
Proof.
  intros Hx E. pose proof (ca_seeds _ _ _ _ sz_at_master) as Hat.
  unfold Reconcile, mbind at 1, M_MBind at 1, M_bind at 1, try at 1 in E. destruct (c_get _ request w) as [o w1] eqn:Eg.
  assert (Hw1 : still w w1) by (split; [intros j k; by apply (as_get _ _ _ _ _ Hat request j k) in Eg|intros k sp; by apply (sq_get request k sp) in Eg]).
  destruct Hw1 as [Hv Hp].
  assert (Hstay : w' = w1 → (∀ res, z ≠ Ok res) → elsewhere sz_seed sz_master request w w' ∧
    ∃ y, sz_seed sz_master request w' = Some y ∧ restatused x y ∧ ∀ res, z = Ok res →
      (deletion x = None → reported_status (found x w) x y) ∧ (is_Some (deletion x) → terminating (found x w) x y)).
  { intros -> Hno. split; [intros ???; apply Hv|]. exists x. rewrite Hv. split_and!; try done. intros res ->. by destruct (Hno res). }
  destruct o as [o|e|m|]; [|destruct (IsNotFound e) eqn:En;
    [by rewrite (as_get_missing _ _ _ _ _ Hat _ _ _ _ Eg En) in Hx|injection E as <- <-; by apply Hstay]|injection E as <- <-; by apply Hstay..].
  apply (as_get_ok _ _ _ _ _ Hat) in Eg as [Ho Hk]. assert (o = x) as -> by congruence. clear Hstay Ho. rewrite <- Hv in Hx.
  cbv beta iota in E. unfold mbind at 1, M_MBind at 1, M_bind at 1, try at 1 in E. destruct (reconcile r x w1) as [o w2] eqn:Er.
  assert (Hend : (∀ j k, sz_seed j k w' = sz_seed j k w2) ∧ (∀ res, z = Ok res → ∃ s, o = Ok s)).
  { destruct o as [s|e|m|]; [destruct (Seed_HasConditionValue _ _ _)| | |]; injection E as <- <-; split; try done; try (by exists s);
      intros j k; unfold emit; apply sz_event_seed. }
  destruct Hend as [Hv2 Hok2]. unfold reconcile in Er.
  assert (Hfp : found x w1 = found x w) by (unfold probe_of; apply Hp). unfold elsewhere. setoid_rewrite Hv2.
  destruct (om_deletionTimestamp (sd_meta x)) as [t|] eqn:Ed.
  - assert (Hrun := update_run _ _ terminating_observed terminating_ext terminating_trans _ _ _ _ _ Hk Hx Er).
    rewrite Hfp in Hrun. destruct Hrun as [He (y & Hy & Hxy & _ & Hok)].
    split; [intros j k Hne; by rewrite He, Hv|]. exists y. split_and!; [done..|]. intros res (s & ->)%Hok2.
    split; [unfold deletion; simpl; by rewrite Ed|]. intros _. by eapply Hok.
  - assert (Hrun := update_run _ _ seed_observed reported_ext reported_trans _ _ _ _ _ Hk Hx Er).
    rewrite Hfp in Hrun. destruct Hrun as [He (y & Hy & Hxy & _ & Hok)].
    split; [intros j k Hne; by rewrite He, Hv|]. exists y. split_and!; [done..|]. intros res (s & ->)%Hok2.
    split; [intros _; by eapply Hok|unfold deletion; simpl; rewrite Ed; by intros [? [=]]].
Qed.
End seed_status.
