(* ===== verification/ProjectMembers.v ===== *)
(** * Members, keys and labels of projects

    Controllers of the master that keep the relations between projects and what belongs
    to them: owner references between users, project bindings and projects
    ([user-project-binding], [serviceaccount-projectbinding-controller],
    [usersshkey-project-ownership]), SSH keys on the seeds ([usersshkey-synchronizer])
    and labels that clusters inherit ([project-label-synchronizer]). *)

From S2P Require Import Prelude ResourceNames Kube Semver Net CloudApi ClusterApi Helper Corev1 Field ClusterDefaulting Rbac RbacSync Reconciling ClusterDeletion MasterApi MasterSync.

(** [SortOwnerReferences] of [pkg/kubernetes/helper.go]; [sort.Slice] gives some sorted
    order, here that of an insertion sort. *)
Definition str_less (a b : string) : bool := match String.compare a b with Lt => true | _ => false end.
Definition ownerRef_less (a b : OwnerReference) : bool :=
  if negb (String.eqb (or_apiVersion a) (or_apiVersion b)) then str_less (or_apiVersion a) (or_apiVersion b)
  else if negb (String.eqb (or_kind a) (or_kind b)) then str_less (or_kind a) (or_kind b)
  else str_less (or_name a) (or_name b).
Fixpoint insertRef (r : OwnerReference) (l : list OwnerReference) : list OwnerReference :=
  match l with
  | [] => [r]
  | x :: l' => if ownerRef_less x r then x :: insertRef r l' else r :: l
  end.
Definition SortOwnerReferences (refs : list OwnerReference) : list OwnerReference := foldr insertRef [] refs.

Lemma SortOwnerReferences_perm refs : SortOwnerReferences refs ≡ₚ refs.
Proof.
  assert (Hi : ∀ r l, insertRef r l ≡ₚ r :: l).
  { intros r l. induction l as [|x l IH]; [done|]. simpl. destruct (ownerRef_less x r); [|done]. rewrite IH. apply Permutation_swap. }
  induction refs as [|r refs IH]; [done|]. simpl. by rewrite Hi, IH.
Qed.

Definition with_refs {O} `{Object O} (f : ObjectMeta → ObjectMeta) (o : O) : O := set_meta (f (obj_meta o)) o.
Definition project_ref (project : Project) : OwnerReference :=
  mkOwnerReference GroupVersion ProjectKindName (om_name (pj_meta project)) (om_uid (pj_meta project)).
Definition user_ref (user : User) : OwnerReference :=
  mkOwnerReference GroupVersion UserKindName (om_name (u_meta user)) (om_uid (u_meta user)).

(** [mm_validLabel] tells whether [labels.Parse] accepts a value, [mm_rand] is
    [rand.String]. *)
Record MemberClients (W : Type) := mkMemberClients {
  mm_bindings : Client W UserProjectBinding;
  mm_projects : Client W Project;
  mm_users : Client W User;
  mm_keys : Client W UserSSHKey;
  mm_retry : Retry W;
  mm_validLabel : string → bool;
  mm_rand : Z → W → string * W;
  mm_event : ObjectMeta → string → W → W;
}.
Arguments mm_bindings {W}.
Arguments mm_projects {W}.
Arguments mm_users {W}.
Arguments mm_keys {W}.
Arguments mm_retry {W}.
Arguments mm_validLabel {W}.
Arguments mm_rand {W}.
Arguments mm_event {W}.

(** Failures that are recorded and returned as they are. *)
Definition reporting {W} (r : MemberClients W) (m : ObjectMeta) (body : M W unit) : M W unit :=
  res ← try body;
  match res with
  | inl e => _ ← emit (mm_event r m (error_string e)); throw e
  | inr _ => mret tt
  end.

(** ** Project bindings *)

Module BindingController.
Section controller.
Context `{StringSets} {W : Type} (r : MemberClients W).

Definition addFinalizerToBinding (b : UserProjectBinding) : M W unit :=
  _ ← TryAddFinalizer (mm_bindings r) (mm_retry r) b [CleanupFinalizerName]; mret tt.
Definition removeFinalizerFromBinding (b : UserProjectBinding) : M W unit :=
  _ ← TryRemoveFinalizer (mm_bindings r) (mm_retry r) b [CleanupFinalizerName]; mret tt.

(** The first user with the address of the binding, case folded. *)
Definition getUserForBinding (b : UserProjectBinding) : M W User :=
  users ← c_list (mm_users r) everything;
  match List.find (λ u, strings_EqualFold (us_email (u_spec u)) (ub_userEmail (ub_spec b))) users with
  | Some user => mret user
  | None => throw (ErrNew "cannot find user with e-mail for project binding")
  end.
Definition getProjectForBinding (b : UserProjectBinding) : M W Project :=
  c_get (mm_projects r) (mkKey "" (ub_projectID (ub_spec b))).

Definition ensureBindingIsOwnedByProject (project : Project) (b : UserProjectBinding) : M W UserProjectBinding :=
  c_patch (mm_bindings r) b (with_refs (λ m, EnsureUniqueOwnerReference m (project_ref project)) b).

Definition ensureProjectOwnerForBinding (user : User) (project : Project) (b : UserProjectBinding) : M W unit :=
  _ ← c_patch (mm_projects r) project (with_refs (λ m, EnsureOwnerReference m (user_ref user)) project);
  addFinalizerToBinding b.
Definition ensureNotProjectOwnerForBinding (user : User) (project : Project) (b : UserProjectBinding) : M W unit :=
  _ ← c_patch (mm_projects r) project (with_refs (λ m, RemoveOwnerReferences m [user_ref user]) project);
  removeFinalizerFromBinding b.

Definition reconcile (b : UserProjectBinding) : M W unit :=
  gotProject ← try (getProjectForBinding b);
  match gotProject with
  | inl e => if IsNotFound e then removeFinalizerFromBinding b else throw (ErrWrap "failed to get project" e)
  | inr project =>
      gotUser ← try (getUserForBinding b);
      match gotUser with
      | inl e => if IsNotFound e then removeFinalizerFromBinding b else throw (ErrWrap "failed to get user from binding" e)
      | inr user =>
          if is_some (om_deletionTimestamp (ub_meta b)) then ensureNotProjectOwnerForBinding user project b else
          b ← ensureBindingIsOwnedByProject project b;
          if String.eqb (ExtractGroupPrefix (ub_group (ub_spec b))) OwnerGroupNamePrefix
          then ensureProjectOwnerForBinding user project b
          else ensureNotProjectOwnerForBinding user project b
      end
  end.

Definition Reconcile (request : NamespacedName) : M W unit := with_object (c_get (mm_bindings r) request) reconcile.
End controller.
End BindingController.

(** ** SSH keys of projects *)

Module SSHKeyOwnership.
Section controller.
Context {W : Type} (r : MemberClients W).

Definition reconcile (sshKey : UserSSHKey) : M W unit :=
  if is_some (om_deletionTimestamp (ssh_meta sshKey)) then mret tt else
  if String.eqb (ssh_project (ssh_spec sshKey)) "" then throw (ErrNew "SSH key has no project name specified") else
  got ← try (c_get (mm_projects r) (mkKey "" (ssh_project (ssh_spec sshKey))));
  match got with
  | inl e => if IsNotFound e then mret tt else throw (ErrWrap "failed to get project" e)
  | inr project =>
      let ensured := EnsureUniqueOwnerReference (ssh_meta sshKey) (project_ref project) in
      let owned := set_meta (set_ownerReferences (SortOwnerReferences (om_ownerReferences ensured)) ensured) sshKey in
      _ ← wrap "failed to ensure owner reference" (c_patch (mm_keys r) sshKey owned);
      mret tt
  end.
Definition Reconcile (request : NamespacedName) : M W unit :=
  with_object (c_get (mm_keys r) request) (λ sshKey, reporting r (ssh_meta sshKey) (reconcile sshKey)).
End controller.
End SSHKeyOwnership.

(** ** Service accounts *)

Definition ServiceAccountLabelGroup : string := "initialGroup".

Module ServiceAccountBinding.
Section controller.
Context {W : Type} (r : MemberClients W).

Definition ensureOwnerReference (user : User) : M W User :=
  got ← try (c_get (mm_projects r) (mkKey "" (us_project (u_spec user))));
  match got with
  | inl e => if IsNotFound e then mret user else throw (ErrWrap "failed to get project" e)
  | inr project =>
      let ensured := EnsureUniqueOwnerReference (u_meta user) (project_ref project) in
      let owned := set_meta (set_ownerReferences (SortOwnerReferences (om_ownerReferences ensured)) ensured) user in
      wrap "failed to patch user" (c_patch (mm_users r) user owned)
  end.

Definition createBinding (sa : User) (projectName : string) : M W UserProjectBinding :=
  match om_labels (u_meta sa) !! ServiceAccountLabelGroup with
  | None => throw (ErrNew "label initialGroup not found")
  | Some group =>
      name ← read (mm_rand r 10);
      c_create (mm_bindings r)
        (mkUserProjectBinding (set_labels {[ProjectIDLabelKey := projectName]} (set_name name emptyMeta))
           (mkUserProjectBindingSpec (us_email (u_spec sa)) projectName group))
  end.

Definition bindingOf (projectName : string) (user : User) (b : UserProjectBinding) : bool :=
  String.eqb (ub_projectID (ub_spec b)) projectName && strings_EqualFold (ub_userEmail (ub_spec b)) (us_email (u_spec user)).
Definition with_group (group : option string) (b : UserProjectBinding) : UserProjectBinding :=
  match group with
  | Some g => mkUserProjectBinding (ub_meta b) (mkUserProjectBindingSpec (ub_userEmail (ub_spec b)) (ub_projectID (ub_spec b)) g)
  | None => b
  end.

(** The group label of the user moves to its binding. *)
Definition reconcile (user : User) : M W unit :=
  if is_some (om_deletionTimestamp (u_meta user)) then mret tt else
  let projectName := if String.eqb (us_project (u_spec user)) "" then map_str (om_labels (u_meta user)) ProjectIDLabelKey
                     else us_project (u_spec user) in
  if String.eqb projectName "" then throw (ErrNew "no project name specified") else
  user ← wrap "failed to ensure owner reference to the project" (ensureOwnerReference user);
  if negb (mm_validLabel r projectName) then throw (ErrNew "project name is not a valid label value") else
  bindings ← wrap "failed to list UserProjectBindings for project"
               (c_list (mm_bindings r) (mkListOptions "" [(ProjectIDLabelKey, projectName)]));
  binding ← match List.find (bindingOf projectName user) bindings with
            | Some b => mret b
            | None => wrap "failed to create UserProjectBinding" (createBinding user projectName)
            end;
  let group := om_labels (u_meta user) !! ServiceAccountLabelGroup in
  _ ← wrap "failed to update UserProjectBinding"
        (c_patch (mm_bindings r) binding
           (with_group group (with_refs (λ m, EnsureUniqueOwnerReference m (user_ref user)) binding)));
  match group with
  | Some _ =>
      _ ← wrap "failed to remove label from User"
            (c_update (mm_users r) (with_refs (λ m, set_labels (delete ServiceAccountLabelGroup (om_labels m)) m) user));
      mret tt
  | None => mret tt
  end.

Definition Reconcile (request : NamespacedName) : M W unit :=
  got ← try (c_get (mm_users r) request);
  match got with
  | inl e => if IsNotFound e then mret tt else throw (ErrWrap "failed to get user" e)
  | inr sa => reporting r (u_meta sa) (reconcile sa)
  end.
End controller.
End ServiceAccountBinding.

(** ** SSH keys on the seeds *)

Definition UserSSHKeys : string := "usersshkeys".
Definition UserSSHKeysClusterIDsCleanupFinalizer : string := "kubermatic.k8c.io/cleanup-usersshkeys-cluster-ids".

Definition buildUserSSHKeysForCluster `{StringSets} (clusterName : string) (keys : list UserSSHKey) : list UserSSHKey :=
  List.filter (λ key, IsUsedByCluster key clusterName) keys.
Definition keysData (keys : list UserSSHKey) : gmap string string :=
  foldl (λ data key, <[om_name (ssh_meta key) := ssh_publicKey (ssh_spec key)]> data) ∅ keys.
Definition updateUserSSHKeysSecrets (keys : list UserSSHKey) (existing : Secret) : outcome Secret :=
  Ok (mkDataObject (do_meta existing) (keysData keys)).

Record KeySeed (W : Type) := mkKeySeed { ksd_clusters : Client W Cluster; ksd_secrets : Client W Secret }.
Arguments ksd_clusters {W}.
Arguments ksd_secrets {W}.

Module SSHKeySync.
Section controller.
Context `{StringSets} {W : Type} (masterKeys : Client W UserSSHKey) (seeds : gmap string (KeySeed W)) (workerName : string)
  (retry : Retry W) (secretEqual : Secret → Secret → bool) (poll : M W bool → M W unit).

(** The range copies the key, and the whole list is cleaned whether a key lists the
    cluster or not. *)
Definition cleanupUserSSHKeys (keys : list UserSSHKey) (clusterName : string) : M W unit :=
  for_range (λ _ key, wrap "failed updating UserSSHKey object"
    (_ ← c_patch masterKeys key (RemoveFromCluster key clusterName); mret tt)) tt keys.

Definition reconcile (request : NamespacedName) : M W unit :=
  match seeds !! key_namespace request with
  | None => mret tt
  | Some seed =>
      got ← try (c_get (ksd_clusters seed) (mkKey "" (key_name request)));
      match got with
      | inl e => if IsNotFound e then mret tt else throw (ErrWrap "failed to get cluster" e)
      | inr cluster =>
          if String.eqb (cs_namespaceName (cl_status cluster)) "" then mret tt else
          if negb (String.eqb (map_str (om_labels (cl_meta cluster)) WorkerNameLabelKey) workerName) then mret tt else
          if sp_pause (cl_spec cluster) then mret tt else
          userSSHKeys ← wrap "failed to list UserSSHKeys" (c_list masterKeys everything);
          if is_some (om_deletionTimestamp (cl_meta cluster)) then
            _ ← wrap "failed reconciling keys for a deleted cluster" (cleanupUserSSHKeys userSSHKeys (om_name (cl_meta cluster)));
            _ ← TryRemoveFinalizer (ksd_clusters seed) retry cluster [UserSSHKeysClusterIDsCleanupFinalizer];
            mret tt
          else
          let keys := buildUserSSHKeysForCluster (om_name (cl_meta cluster)) userSSHKeys in
          _ ← wrap "failed to reconcile SSH key secret" (wrap "failed to ensure Secret"
                (EnsureNamedObject (ksd_secrets seed) secretEqual id poll (mkKey (cs_namespaceName (cl_status cluster)) UserSSHKeys)
                   (updateUserSSHKeysSecrets keys) (mkDataObject emptyMeta ∅) false));
          _ ← wrap "failed to add finalizer" (TryAddFinalizer (ksd_clusters seed) retry cluster [UserSSHKeysClusterIDsCleanupFinalizer]);
          mret tt
      end
  end.
Definition Reconcile := reconcile.
End controller.
End SSHKeySync.

(** ** Labels of projects *)

Definition IsCredentialPresetLabelKey : string := "is-credential-preset".
Definition ProtectedClusterLabels : gset string := {[WorkerNameLabelKey; ProjectIDLabelKey; IsCredentialPresetLabelKey]}.
Definition isProtected (key : string) : bool := bool_decide (key ∈ ProtectedClusterLabels).

(** The body of the range over the labels of the project; a label that is missing on the
    cluster reads as the empty string. *)
Definition inheritLabel (acc : bool * gmap string string) (label : string * string) : bool * gmap string string :=
  let '(changed, clusterLabels) := acc in let '(key, value) := label in
  if isProtected key then acc
  else if String.eqb (map_str clusterLabels key) value then acc
  else (true, <[key := value]> clusterLabels).

Definition getLabelsForCluster (clusterLabels : gmap string string) (projectLabels : list (string * string)) : bool * gmap string string :=
  foldl inheritLabel (false, clusterLabels) projectLabels.
Definition getInheritedLabels (projectLabels : gmap string string) : gmap string string :=
  filter (λ kv, isProtected kv.1 = false) projectLabels.

Definition filterClustersByProjectID (projectID : string) (clusters : list Cluster) : list Cluster :=
  List.filter (λ c, String.eqb (map_str (om_labels (cl_meta c)) ProjectIDLabelKey) projectID) clusters.

Definition set_inheritedLabels (l : gmap string string) (s : ClusterStatus) : ClusterStatus :=
  mkClusterStatus (cs_lastUpdated s) (cs_extendedHealth s) (cs_lastProviderReconciliation s) (cs_namespaceName s) (cs_versions s)
    (cs_userName s) (cs_userEmail s) (cs_errorReason s) (cs_errorMessage s) (cs_conditions s) (cs_phase s)
    (cs_cloudMigrationRevision s) l (cs_encryption s) (cs_resourceUsage s).

(** A seed: its client, and the list of clusters that the selector of the worker and the
    label of the project give.  [lb_range] is the order of a range over a map. *)
Record LabelSeed (W : Type) := mkLabelSeed { lsd_clusters : Client W Cluster; lsd_list : string → M W (list Cluster) }.
Arguments lsd_clusters {W}.
Arguments lsd_list {W}.
Record LabelEnv (W : Type) := mkLabelEnv {
  lb_projects : Client W Project;
  lb_seeds : list (string * LabelSeed W);
  lb_retry : Retry W;
  lb_validLabel : string → bool;
  lb_range : gmap string string → list (string * string);
}.
Arguments lb_projects {W}.
Arguments lb_seeds {W}.
Arguments lb_retry {W}.
Arguments lb_validLabel {W}.
Arguments lb_range {W}.

Module LabelSync.
Section controller.
Context `{SemverLib} {W : Type} (r : LabelEnv W).

(** One cluster; errors are gathered, and a failed patch does not keep the status from
    being written. *)
Definition syncCluster (seed : LabelSeed W) (projectLabels : gmap string string) (errs : list error) (cluster : Cluster) :
    M W (list error) :=
  let '(changed, newClusterLabels) := getLabelsForCluster (om_labels (cl_meta cluster)) (lb_range r projectLabels) in
  if negb changed then mret errs else
  patched ← try (c_patch (lsd_clusters seed) cluster (set_meta (set_labels newClusterLabels (cl_meta cluster)) cluster));
  let '(errs, cluster) := match patched with
                          | inl e => (errs ++ [ErrNew "failed to update cluster"], cluster)
                          | inr c => (errs, c)
                          end in
  updated ← try (UpdateClusterStatus (lsd_clusters seed) (lb_retry r) cluster (λ c,
    mret (set_cl_status (set_inheritedLabels (getInheritedLabels projectLabels) (cl_status c)) c)));
  mret (match updated with inl e => errs ++ [ErrWrap "failed to update status on cluster" e] | inr _ => errs end).

Definition syncSeed (project : Project) (errs : list error) (seed : LabelSeed W) : M W (list error) :=
  listed ← try (lsd_list seed (om_name (pj_meta project)));
  match listed with
  | inl e => mret (errs ++ [ErrWrap "failed to list clusters in seed" e])
  | inr clusters => for_range (syncCluster seed (om_labels (pj_meta project))) errs
                      (filterClustersByProjectID (om_name (pj_meta project)) clusters)
  end.

Definition reconcile (request : NamespacedName) : M W unit :=
  got ← try (c_get (lb_projects r) request);
  match got with
  | inl e => if IsNotFound e then mret tt else throw (ErrWrap "failed to get project" e)
  | inr project =>
      if String.eqb (pj_phase project) "" then mret tt else
      if bool_decide (size (om_labels (pj_meta project)) = 0%nat) then mret tt else
      if negb (lb_validLabel r (om_name (pj_meta project)))
      then throw (ErrNew "failed to construct label requirement for project") else
      errs ← for_range (λ errs '(_, seed), syncSeed project errs seed) [] (lb_seeds r);
      match NewAggregate (map Some errs) with
      | Some e => throw e
      | None => mret tt
      end
  end.
Definition Reconcile := reconcile.
End controller.
End LabelSync.
