(* ===== verification/ProjectMembersSpec.v ===== *)
(** * Owners, keys and labels of projects: theorems *)

From S2P Require Import Prelude ResourceNames Kube Semver Net CloudApi ClusterApi Helper Corev1 Field ClusterDefaulting Rbac RbacSync Reconciling ClusterDeletion MasterApi MasterSync ProjectMembers.

(** ** Owners *)

(** The stored projects and users.  Reads return what is stored; a merge patch that is
    computed from the stored object replaces the list of owner references; calls for
    bindings leave projects and users alone. *)
Class MemberWorld {W} (r : MemberClients W) := {
  mw_project : NamespacedName → W → option Project;
  mw_users : W → list User;
  mw_project_get : ∀ k k', keeps (mw_project k') (c_get (mm_projects r) k);
  mw_project_get_users : ∀ k, keeps mw_users (c_get (mm_projects r) k);
  mw_project_ok : ∀ k w p w', c_get (mm_projects r) k w = (Ok p, w') → mw_project k w = Some p ∧ object_key p = k;
  mw_project_missing : ∀ k w e w', c_get (mm_projects r) k w = (Err e, w') → IsNotFound e = true → mw_project k w = None;
  mw_users_list : ∀ o k', keeps (mw_project k') (c_list (mm_users r) o);
  mw_users_ok : ∀ w l w', c_list (mm_users r) everything w = (Ok l, w') → l = mw_users w;
  mw_users_err : ∀ w e w', c_list (mm_users r) everything w = (Err e, w') → IsNotFound e = false;
  mw_patch : ∀ old new w x w', c_patch (mm_projects r) old new w = (Ok x, w') → mw_project (object_key old) w = Some old →
    ∃ p, mw_project (object_key old) w' = Some p ∧ om_ownerReferences (pj_meta p) = om_ownerReferences (pj_meta new);
  mw_bindings_get : ∀ k k', keeps (mw_project k') (c_get (mm_bindings r) k);
  mw_bindings_update : ∀ b k', keeps (mw_project k') (c_update (mm_bindings r) b);
  mw_bindings_patch : ∀ old new k', keeps (mw_project k') (c_patch (mm_bindings r) old new);
  mw_bindings_patch_ok : ∀ old new w x w', c_patch (mm_bindings r) old new w = (Ok x, w') → ub_spec x = ub_spec new;
}.
#[export] Hint Resolve mw_project_get mw_users_list mw_bindings_get mw_bindings_update mw_bindings_patch : kkp_frame.

Section owners.
Context `{StringSets} {W : Type} (r : MemberClients W) `{!MemberWorld r}.
Import BindingController.

Lemma add_keeps b k : keeps (mw_project k) (addFinalizerToBinding r b).
Proof. unfold addFinalizerToBinding, TryAddFinalizer. apply keeps_bind; [apply keeps_wrap, keeps_retry; frame|frame]. Qed.
Lemma remove_keeps b k : keeps (mw_project k) (removeFinalizerFromBinding r b).
Proof. unfold removeFinalizerFromBinding, TryRemoveFinalizer. apply keeps_bind; [apply keeps_wrap, keeps_retry; frame|frame]. Qed.

(** The references of [p'] are those of [p], with the user among them or not. *)
Definition owned_by (user : User) (owner : bool) (p p' : Project) : Prop :=
  List.filter (λ x, equalOwnerRefs x (user_ref user)) (om_ownerReferences (pj_meta p')) = (if owner then [user_ref user] else []) ∧
  List.filter (λ x, negb (equalOwnerRefs x (user_ref user))) (om_ownerReferences (pj_meta p')) =
    List.filter (λ x, negb (equalOwnerRefs x (user_ref user))) (om_ownerReferences (pj_meta p)).

Lemma ensured_owner user p m : om_ownerReferences m = om_ownerReferences (EnsureOwnerReference (pj_meta p) (user_ref user)) →
  ∀ p', pj_meta p' = m → owned_by user true p p'.
Proof.
  intros Hm p' Hp. unfold owned_by. rewrite Hp, Hm. split; [apply (ensure_unique equalOwnerRefs)|apply (ensure_others equalOwnerRefs)]; apply equalOwnerRefs_refl.
Qed.
Lemma removed_owner user p m : om_ownerReferences m = om_ownerReferences (RemoveOwnerReferences (pj_meta p) [user_ref user]) →
  ∀ p', pj_meta p' = m → owned_by user false p p'.
Proof.
  intros Hm p' Hp. unfold owned_by. rewrite Hp, Hm. unfold RemoveOwnerReferences, removeOwnerReference. simpl.
  induction (om_ownerReferences (pj_meta p)) as [|x l [IH1 IH2]]; [done|]. simpl. rewrite orb_false_r.
  destruct (equalOwnerRefs x (user_ref user)) eqn:E; simpl; rewrite ?orb_false_r, ?E; simpl; rewrite ?IH1, ?IH2; done.
Qed.

Definition project_key (b : UserProjectBinding) : NamespacedName := mkKey "" (ub_projectID (ub_spec b)).
Definition user_of (b : UserProjectBinding) (users : list User) : option User :=
  List.find (λ u, strings_EqualFold (us_email (u_spec u)) (ub_userEmail (ub_spec b))) users.

Lemma ensureOwner_run user p b w w' : mw_project (object_key p) w = Some p → ensureProjectOwnerForBinding r user p b w = (Ok tt, w') →
  ∃ p', mw_project (object_key p) w' = Some p' ∧ owned_by user true p p'.
Proof.
  intros Hp E. apply bind_ok_inv in E as (x & w1 & E1 & E2%(add_keeps b (object_key p))).
  destruct (mw_patch _ _ _ _ _ E1 Hp) as (p' & Hp' & Hr). exists p'. rewrite E2. split; [done|].
  eapply (ensured_owner _ _ (pj_meta p')); [|done]. rewrite Hr. done.
Qed.
Lemma ensureNotOwner_run user p b w w' : mw_project (object_key p) w = Some p → ensureNotProjectOwnerForBinding r user p b w = (Ok tt, w') →
  ∃ p', mw_project (object_key p) w' = Some p' ∧ owned_by user false p p'.
Proof.
  intros Hp E. apply bind_ok_inv in E as (x & w1 & E1 & E2%(remove_keeps b (object_key p))).
  destruct (mw_patch _ _ _ _ _ E1 Hp) as (p' & Hp' & Hr). exists p'. rewrite E2. split; [done|].
  eapply (removed_owner _ _ (pj_meta p')); [|done]. rewrite Hr. done.
Qed.

(** After a successful run for a project binding its user is an owner of the
    project exactly if the binding is live and of the group of owners, once and with
    the current UID, whatever references there were; the references of all others are
    kept in their order. *)
Theorem binding_ownership b w w' p u :
  reconcile r b w = (Ok tt, w') → mw_project (project_key b) w = Some p → user_of b (mw_users w) = Some u →
  ∃ p', mw_project (project_key b) w' = Some p' ∧
    owned_by u (negb (is_some (om_deletionTimestamp (ub_meta b))) &&
                String.eqb (ExtractGroupPrefix (ub_group (ub_spec b))) OwnerGroupNamePrefix) p p'.
Proof.
  intros E Hp Hu. apply bind_ok_inv in E as (got & w1 & Eg & E). apply try_ok_inv in Eg as [(p1 & -> & Eg)|(e & -> & Eg)].
  2: { destruct (IsNotFound e) eqn:En; [|done]. by rewrite (mw_project_missing _ _ _ _ Eg En) in Hp. }
  pose proof (mw_project_get_users _ _ _ _ Eg) as Hus. pose proof (mw_project_get _ (project_key b) _ _ _ Eg) as Hw1.
  apply mw_project_ok in Eg as [Hp1 Hk]. fold (project_key b) in Hp1, Hk. assert (p1 = p) as -> by congruence.
  apply bind_ok_inv in E as (gotU & w2 & Eu & E).
  assert (Hfound : gotU = inr u ∧ mw_project (project_key b) w2 = Some p).
  { unfold getUserForBinding in Eu. apply try_ok_inv in Eu as [(x & -> & Eu)|(e & -> & Eu)].
    - apply bind_ok_inv in Eu as (l & w3 & El & Eu). pose proof (mw_users_list _ (project_key b) _ _ _ El) as Hv.
      apply mw_users_ok in El as ->. fold (user_of b (mw_users w1)) in Eu. rewrite Hus, Hu in Eu. apply ret_ok_inv in Eu as [-> <-].
      split; [done|]. by rewrite Hv, Hw1.
    - unfold mbind, M_MBind, M_bind in Eu. destruct (c_list (mm_users r) everything w1) as [[l| | |] w3] eqn:El; try done.
      + apply mw_users_ok in El as ->. fold (user_of b (mw_users w1)) in Eu. by rewrite Hus, Hu in Eu.
      + injection Eu as -> ->. cbn in E. by rewrite (mw_users_err _ _ _ El) in E. }
  destruct Hfound as [-> Hp2]. cbn beta iota in E. rewrite <- Hk in Hp2 |- *.
  destruct (is_some (om_deletionTimestamp (ub_meta b))); cbn [negb andb]; [by eapply ensureNotOwner_run|].
  apply bind_ok_inv in E as (b' & w3 & Eb & E). pose proof (mw_bindings_patch _ _ (object_key p) _ _ _ Eb) as Hv.
  apply mw_bindings_patch_ok in Eb. change (ub_spec (with_refs _ b)) with (ub_spec b) in Eb. rewrite Eb in E. rewrite <- Hv in Hp2.
  destruct (String.eqb _ OwnerGroupNamePrefix); [by eapply ensureOwner_run|by eapply ensureNotOwner_run].
Qed.

(** A binding whose user does not exist any more is stuck: every run for it fails
    and changes nothing, also when the binding is being deleted, since the error about
    the missing user is not the kind of error after which the finalizer is removed. *)
Theorem binding_without_user_stuck {X} (v : W → X) b w p z w' :
  (∀ k, keeps v (c_get (mm_projects r) k)) → (∀ o, keeps v (c_list (mm_users r) o)) →
  mw_project (project_key b) w = Some p → user_of b (mw_users w) = None →
  reconcile r b w = (z, w') → z ≠ Ok tt ∧ v w' = v w.
Proof.
  intros Hv1 Hv2 Hp Hu E. unfold reconcile, mbind at 1, M_MBind at 1, M_bind at 1, try in E.
  unfold getProjectForBinding in E. fold (project_key b) in E.
  destruct (c_get (mm_projects r) (project_key b) w) as [o w1] eqn:Eg. pose proof (Hv1 _ _ _ _ Eg) as Hw1.
  destruct o as [p1|e|s|]; [|destruct (IsNotFound e) eqn:En; [by rewrite (mw_project_missing _ _ _ _ Eg En) in Hp|]|..];
    try (injection E as <- <-; by split).
  pose proof (mw_project_get_users _ _ _ _ Eg) as Hus. unfold getUserForBinding, mbind, M_MBind, M_bind, try in E.
  destruct (c_list (mm_users r) everything w1) as [o w2] eqn:El. pose proof (Hv2 _ _ _ _ El) as Hw2.
  destruct o as [l|e|s|]; [|cbn in E; rewrite (mw_users_err _ _ _ El) in E|..]; try (injection E as <- <-; split; [done|congruence]).
  apply mw_users_ok in El as ->. fold (user_of b (mw_users w1)) in E. rewrite Hus, Hu in E. injection E as <- <-. split; [done|congruence].
Qed.
End owners.

(** ** Labels *)

Lemma inheritLabel_lookup acc key value k :
  (inheritLabel acc (key, value)).2 !! k =
    if decide (k = key ∧ isProtected key = false ∧ map_str acc.2 key ≠ value) then Some value else acc.2 !! k.
Proof.
  destruct acc as [changed labels]. simpl. destruct (isProtected key) eqn:Ep; [by rewrite decide_False by naive_solver|].
  destruct (String.eqb_spec (map_str labels key) value) as [He|He]; [by rewrite decide_False by naive_solver|].
  simpl. destruct (decide (k = key)) as [->|Hne]; [by rewrite lookup_insert_eq, decide_True|].
  rewrite lookup_insert_ne, decide_False by naive_solver. done.
Qed.

(** What a cluster has after it inherited from [labels]: every unprotected label of the
    project with its value, and everything else as before. *)
Definition inherited (labels : list (string * string)) (old new : gmap string string) : Prop :=
  (∀ k v, (k, v) ∈ labels → isProtected k = false → map_str new k = v) ∧
  (∀ k, (∀ v, (k, v) ∈ labels → isProtected k = true) → new !! k = old !! k).

Lemma getLabels_inherits labels : NoDup (map fst labels) → ∀ acc, inherited labels acc.2 (foldl inheritLabel acc labels).2.
Proof.
  induction labels as [|[key value] l IH]; intros Hnd acc; [by split; [intros k v ?%elem_of_nil|]|].
  apply NoDup_cons in Hnd as [Hni Hnd]. simpl foldl. destruct (IH Hnd (inheritLabel acc (key, value))) as [H1 H2].
  assert (Hkey : ∀ v, (key, v) ∈ l → False) by (intros v Hin; apply Hni, list_elem_of_fmap; by exists (key, v)). split.
  - intros k v [[= -> ->]|Hin]%elem_of_cons Hp; [|by apply H1]. unfold map_str at 1. rewrite H2 by (intros v Hin; by destruct (Hkey v)).
    rewrite inheritLabel_lookup. destruct (decide _) as [|Hn]; [done|]. fold (map_str acc.2 key).
    destruct (decide (map_str acc.2 key = value)); naive_solver.
  - intros k Hk. rewrite H2 by (intros v Hin; apply (Hk v); by right). rewrite inheritLabel_lookup, decide_False; [done|].
    intros (-> & Hp & _). rewrite (Hk value ltac:(left)) in Hp. done.
Qed.

Lemma getLabels_unchanged labels : ∀ acc, acc.1 = false → (foldl inheritLabel acc labels).1 = false → foldl inheritLabel acc labels = acc.
Proof.
  assert (Hmono : ∀ l acc, acc.1 = true → (foldl inheritLabel acc l).1 = true).
  { induction l as [|[key value] l IH]; intros [c m] Hc; [done|]. simpl in *. apply IH. subst c.
    destruct (isProtected key); [done|]. by destruct (String.eqb (map_str m key) value). }
  induction labels as [|[key value] l IH]; intros [c m] Hc Hf; [done|]. simpl in *. subst c.
  destruct (isProtected key); [by apply IH|]. destruct (String.eqb _ _); [by apply IH|]. by rewrite Hmono in Hf.
Qed.

Lemma filter_sublist {A} (p : A → bool) l : List.filter p l `sublist_of` l.
Proof. induction l as [|x l IH]; simpl; [constructor|]. destruct (p x); by constructor. Qed.

(** The labels of the clusters on the seeds.  A list gives the clusters that carry the
    label of the project and belong to the worker; a merge patch that is computed from
    the stored object replaces the labels that differ; status and reads leave them. *)
Definition selected (worker project : string) (labels : gmap string string) : Prop :=
  labels !! ProjectIDLabelKey = Some project ∧ labels !! WorkerNameLabelKey = (if String.eqb worker "" then None else Some worker).

Class LabelWorld {W} (r : LabelEnv W) := {
  lw_labels : string → NamespacedName → W → option (gmap string string);
  lw_worker : string;
  lw_names : NoDup (map fst (lb_seeds r));
  lw_range : ∀ m, lb_range r m ≡ₚ map_to_list m;
  lw_projects : ∀ k m k', keeps (lw_labels m k') (c_get (lb_projects r) k);
  lw_list : ∀ n s p m k', (n, s) ∈ lb_seeds r → keeps (lw_labels m k') (lsd_list s p);
  lw_listed : ∀ n s p w l w', (n, s) ∈ lb_seeds r → lsd_list s p w = (Ok l, w') → NoDup (map object_key l) ∧
    (∀ c, c ∈ l → lw_labels n (object_key c) w = Some (om_labels (cl_meta c))) ∧
    (∀ k L, lw_labels n k w = Some L → selected lw_worker p L → ∃ c, c ∈ l ∧ object_key c = k);
  lw_get : ∀ n s k m k', (n, s) ∈ lb_seeds r → keeps (lw_labels m k') (c_get (lsd_clusters s) k);
  lw_status : ∀ n s old new m k', (n, s) ∈ lb_seeds r → keeps (lw_labels m k') (c_status_patch (lsd_clusters s) old new);
  lw_patch : ∀ n s old new w z w', (n, s) ∈ lb_seeds r → c_patch (lsd_clusters s) old new w = (z, w') →
    lw_labels n (object_key old) w = Some (om_labels (cl_meta old)) → object_key new = object_key old →
    (∀ m k, (m, k) ≠ (n, object_key old) → lw_labels m k w' = lw_labels m k w) ∧
    ((lw_labels n (object_key old) w' = lw_labels n (object_key old) w ∧ ∀ x, z ≠ Ok x) ∨
     lw_labels n (object_key old) w' = Some (om_labels (cl_meta new)));
}.

Section labels.
Context `{SemverLib} {W : Type} (r : LabelEnv W) `{!LabelWorld r} (labels : gmap string string).
Import LabelSync.

Definition has_inherited (L : gmap string string) : Prop :=
  ∀ k v, labels !! k = Some v → isProtected k = false → map_str L k = v.
(** What may happen to the labels of a cluster. *)
Definition relabelled (a b : option (gmap string string)) : Prop :=
  b = a ∨ ∃ L L', a = Some L ∧ b = Some L' ∧ has_inherited L' ∧
    ∀ k, isProtected k = true ∨ labels !! k = None → L' !! k = L !! k.
#[local] Instance relabelled_preorder : PreOrder relabelled.
Proof.
  split; [by left|]. intros a b c Hab [->|(L & L' & -> & -> & Hi & Hp)]; [done|].
  destruct Hab as [<-|(L0 & L1 & -> & [= <-] & _ & Hp0)]; right; [by exists L, L'|]. exists L0, L'. split_and!; try done.
  intros k Hk. by rewrite Hp, Hp0.
Qed.
Definition good (o : option (gmap string string)) : Prop := ∀ L, o = Some L → has_inherited L.
Lemma good_relabelled a b : relabelled a b → good a → good b.
Proof. intros [->|(L & L' & -> & -> & Hi & _)] Hg; [done|]. by intros ? [= <-]. Qed.

Lemma range_inherits old : let new := (getLabelsForCluster old (lb_range r labels)).2 in
  has_inherited new ∧ ∀ k, isProtected k = true ∨ labels !! k = None → new !! k = old !! k.
Proof.
  intros new. assert (Hnd : NoDup (map fst (lb_range r labels))) by (rewrite lw_range; apply NoDup_fst_map_to_list).
  destruct (getLabels_inherits _ Hnd (false, old)) as [H1 H2]. split.
  - intros k v Hk Hp. apply H1; [|done]. rewrite lw_range. by apply elem_of_map_to_list.
  - intros k Hp. apply H2. intros v Hin. rewrite lw_range in Hin. apply elem_of_map_to_list in Hin. destruct Hp as [|Hp]; congruence.
Qed.

Lemma status_keeps n s cluster f m k : (n, s) ∈ lb_seeds r →
  keeps (lw_labels m k) (UpdateClusterStatus (lsd_clusters s) (lb_retry r) cluster (λ c, mret (f c))).
Proof.
  intros Hin. apply keeps_retry. pose proof (λ k', lw_get n s k' m k Hin). pose proof (λ a b, lw_status n s a b m k Hin). frame.
Qed.

Lemma syncCluster_run n s errs c w z w' : (n, s) ∈ lb_seeds r → lw_labels n (object_key c) w = Some (om_labels (cl_meta c)) →
  syncCluster r s labels errs c w = (z, w') →
  (∀ m k, (m, k) ≠ (n, object_key c) → lw_labels m k w' = lw_labels m k w) ∧
  relabelled (lw_labels n (object_key c) w) (lw_labels n (object_key c) w') ∧
  (∀ errs', z = Ok errs' → ∃ more, errs' = errs ++ more ∧ (more = [] → good (lw_labels n (object_key c) w'))).
Proof.
  intros Hin Hc E. unfold syncCluster in E. destruct (range_inherits (om_labels (cl_meta c))) as [Hi Hp].
  destruct (getLabelsForCluster _ _) as [changed new] eqn:Eg. simpl in Hi, Hp. destruct changed; cbn [negb] in E.
  2: { injection E as <- <-. split_and!; [done|by left|]. intros errs' [= <-]. exists []. split; [by rewrite app_nil_r|].
       intros _ L. rewrite Hc. intros [= <-]. unfold getLabelsForCluster in Eg.
       rewrite (getLabels_unchanged _ (false, _)) in Eg by (by rewrite ?Eg). by injection Eg as ->. }
  unfold mbind, M_MBind, M_bind, try in E. destruct (c_patch _ _ _ w) as [o w1] eqn:Ep.
  destruct (lw_patch _ _ _ _ _ _ _ Hin Ep Hc eq_refl) as [Hfr Hcase].
  assert (Hrel : relabelled (lw_labels n (object_key c) w) (lw_labels n (object_key c) w1)).
  { rewrite Hc in *. destruct Hcase as [[-> _]| ->]; [by left|]. right. by exists (om_labels (cl_meta c)), new. }
  destruct o as [x|e|p|]; [| |injection E as <- <-; by split_and!..].
  all: destruct (UpdateClusterStatus _ _ _ _ w1) as [u w2] eqn:Eu;
    pose proof (λ m k, status_keeps n s _ _ m k Hin _ _ _ Eu) as Hv;
    assert (w' = w2) as -> by (by destruct u; injection E);
    (split; [intros m k Hne; rewrite Hv; by apply Hfr|]); rewrite Hv; (split; [done|]); intros errs' Hz; subst z.
  - exists (match u with Err e => [ErrWrap "failed to update status on cluster" e] | _ => [] end). split.
    { destruct u; try done; apply ret_ok_inv in E as [E _]; rewrite <- E; by rewrite ?app_nil_r. }
    intros _ L HL. destruct Hcase as [[_ Hno]|Hnew]; [by destruct (Hno x)|]. rewrite Hnew in HL. by injection HL as <-.
  - exists (ErrNew "failed to update cluster" :: match u with Err e => [ErrWrap "failed to update status on cluster" e] | _ => [] end).
    split; [|done]. destruct u; try done; apply ret_ok_inv in E as [E _]; rewrite <- E; by rewrite <- ?app_assoc.
Qed.

(** Distinct clusters of one seed, as the list gave them. *)
Lemma clusters_run n s l : (n, s) ∈ lb_seeds r → NoDup (map object_key l) → ∀ errs w z w',
  (∀ c, c ∈ l → lw_labels n (object_key c) w = Some (om_labels (cl_meta c))) →
  for_range (syncCluster r s labels) errs l w = (z, w') →
  (∀ m k, m ≠ n → lw_labels m k w' = lw_labels m k w) ∧ (∀ k, relabelled (lw_labels n k w) (lw_labels n k w')) ∧
  (∀ errs', z = Ok errs' → ∃ more, errs' = errs ++ more ∧ (more = [] → ∀ c, c ∈ l → good (lw_labels n (object_key c) w'))).
Proof.
  intros Hin. induction l as [|c l IH]; intros Hnd errs w z w' Hl E; simpl in E.
  { injection E as <- <-. split_and!; [done|by left|]. intros errs' [= <-]. exists []. rewrite app_nil_r. split; [done|]. by intros _ c ?%elem_of_nil. }
  apply NoDup_cons in Hnd as [Hni Hnd].
  apply bind_run in E as [(errs1 & w1 & E1 & E)|[(z1 & E1 & _) Hno]];
    destruct (syncCluster_run _ _ _ _ _ _ _ Hin (Hl c ltac:(left)) E1) as (Hfr & Hrel & Hok).
  - assert (Hstep : ∀ k, relabelled (lw_labels n k w) (lw_labels n k w1)).
    { intros k. destruct (decide (k = object_key c)) as [->|Hne]; [done|]. left. apply Hfr. congruence. }
    destruct (IH Hnd errs1 w1 z w') as (Hfr2 & Hrel2 & Hok2); [|done|].
    { intros c' Hc'. rewrite Hfr; [by apply Hl; right|]. intros Heq%(f_equal snd). simpl in Heq. apply Hni. rewrite <- Heq. apply list_elem_of_fmap. by exists c'. }
    split; [intros m k Hne; rewrite Hfr2, Hfr by congruence; done|]. split; [intros k; etrans; [apply Hstep|apply Hrel2]|]. intros errs' Hz.
    destruct (Hok2 _ Hz) as (more2 & -> & Hg2). destruct (Hok _ eq_refl) as (more1 & -> & Hg1). exists (more1 ++ more2).
    split; [by rewrite app_assoc|]. intros [-> ->]%app_eq_nil c' [->|Hc']%elem_of_cons; [|by apply Hg2].
    eapply good_relabelled; [apply Hrel2|by apply Hg1].
  - split; [intros m k Hne; apply Hfr; congruence|]. split; [|intros errs' ->; by destruct (Hno errs')].
    intros k. destruct (decide (k = object_key c)) as [->|Hne]; [done|]. left. apply Hfr. congruence.
Qed.

(** One seed: it lists the clusters and relabels those of the project. *)
Lemma syncSeed_run n s project errs w z w' : (n, s) ∈ lb_seeds r → om_labels (pj_meta project) = labels →
  syncSeed r project errs s w = (z, w') →
  (∀ m k, m ≠ n → lw_labels m k w' = lw_labels m k w) ∧ (∀ k, relabelled (lw_labels n k w) (lw_labels n k w')) ∧
  (∀ errs', z = Ok errs' → ∃ more, errs' = errs ++ more ∧ (more = [] → ∀ k L,
     lw_labels n k w = Some L → selected lw_worker (om_name (pj_meta project)) L → good (lw_labels n k w'))).
Proof.
  intros Hin Hlab E. unfold syncSeed, mbind, M_MBind, M_bind, try in E. rewrite Hlab in E.
  destruct (lsd_list s (om_name (pj_meta project)) w) as [o w1] eqn:El.
  pose proof (λ m k, lw_list n s _ m k Hin _ _ _ El) as Hv.
  destruct o as [l|e|?|]; [|injection E as <- <-; (split; [done|]); (split; [by left|]); try done..].
  2: { intros errs' [= <-]. by exists [ErrWrap "failed to list clusters in seed" e]. }
  apply (lw_listed n) in El as (Hnd & Hst & Hall); [|done]. set (l' := filterClustersByProjectID _ l) in E.
  assert (Hsub : l' `sublist_of` l) by apply filter_sublist.
  destruct (clusters_run n s l' Hin) with (errs := errs) (w := w1) (z := z) (w' := w') as (Hfr & Hrel & Hok); [| |done|].
  { eapply sublist_NoDup; [exact Hnd|]. by apply fmap_sublist. }
  { intros c Hc. rewrite Hv. by eapply Hst, elem_of_sublist. }
  split; [intros m k Hne; by rewrite Hfr, Hv|]. split; [intros k; by rewrite <- Hv|]. intros errs' Hz.
  destruct (Hok _ Hz) as (more & -> & Hg). exists more. split; [done|]. intros Hm k L HL Hsel.
  destruct (Hall _ _ HL Hsel) as (c & Hc & <-). apply (Hg Hm), list_elem_of_In, filter_In. split; [by apply list_elem_of_In|].
  rewrite (Hst _ Hc) in HL. injection HL as ->. apply String.eqb_eq. unfold map_str. by rewrite (proj1 Hsel).
Qed.

(** The loop over the seeds. *)
Lemma label_seeds_run project l : om_labels (pj_meta project) = labels → NoDup (map fst l) → l ⊆ lb_seeds r → ∀ errs w z w',
  for_range (λ errs '(_, seed), syncSeed r project errs seed) errs l w = (z, w') →
  (∀ m k, relabelled (lw_labels m k w) (lw_labels m k w')) ∧ (∀ m k, m ∉ map fst l → lw_labels m k w' = lw_labels m k w) ∧
  (∀ errs', z = Ok errs' → ∃ more, errs' = errs ++ more ∧ (more = [] → ∀ m s k L, (m, s) ∈ l →
     lw_labels m k w = Some L → selected lw_worker (om_name (pj_meta project)) L → good (lw_labels m k w'))).
Proof.
  intros Hlab. induction l as [|[n s] l IH]; intros Hnd Hsub errs w z w' E; simpl in E.
  { injection E as <- <-. split_and!; [by left|done|]. intros errs' [= <-]. exists []. rewrite app_nil_r. split; [done|].
    by intros _ m s k L ?%elem_of_nil. }
  apply NoDup_cons in Hnd as [Hni Hnd]. simpl in Hni.
  apply bind_run in E as [(errs1 & w1 & E1 & E)|[(z1 & E1 & _) Hno]];
    apply (syncSeed_run n) in E1 as (Hfr & Hrel & Hok); try done; try (apply Hsub; left);
    assert (Hstep : ∀ w2, (∀ m k, m ≠ n → lw_labels m k w2 = lw_labels m k w) → (∀ k, relabelled (lw_labels n k w) (lw_labels n k w2)) →
      ∀ m k, relabelled (lw_labels m k w) (lw_labels m k w2))
      by (intros w2 Ho Hn m k; destruct (decide (m = n)) as [->|Hne]; [done|by left; apply Ho]).
  - destruct (IH Hnd) with (errs := errs1) (w := w1) (z := z) (w' := w') as (Hrel2 & Hfr2 & Hok2); [|done|].
    { intros x Hx. apply Hsub. by right. }
    split; [intros m k; etrans; [by apply Hstep|apply Hrel2]|]. split.
    { intros m k [Hm Hm']%not_elem_of_cons. by rewrite Hfr2, Hfr. }
    intros errs' Hz. destruct (Hok2 _ Hz) as (more2 & -> & Hg2). destruct (Hok _ eq_refl) as (more1 & -> & Hg1).
    exists (more1 ++ more2). split; [by rewrite app_assoc|]. intros [-> ->]%app_eq_nil m s' k L [[= -> ->]|Hm]%elem_of_cons HL Hsel.
    + eapply good_relabelled; [apply Hrel2|by eapply Hg1].
    + eapply Hg2; try done. rewrite Hfr; [done|]. intros ->. apply Hni, list_elem_of_fmap. by exists (n, s').
  - split; [by apply Hstep|]. split; [intros m k [? _]%not_elem_of_cons; by apply Hfr|]. intros errs' ->. by destruct (Hno errs').
Qed.
End labels.

(** C37: whatever fails on the way, a run for a project changes no protected label of
    any cluster on any seed (the label that ties it to its project, that of the worker,
    that of a preset) and no label that the project does not have; after a successful
    run for an initialised project every cluster that belonged to it, on every seed, has
    each of the project's unprotected labels with the project's value. *)
Theorem label_inheritance `{SemverLib} {W} (r : LabelEnv W) `{!LabelWorld r} (request : NamespacedName) (p : Project) w w1 z w' :
  c_get (lb_projects r) request w = (Ok p, w1) → LabelSync.Reconcile r request w = (z, w') →
  (∀ seed cluster, relabelled (om_labels (pj_meta p)) (lw_labels seed cluster w) (lw_labels seed cluster w')) ∧
  (z = Ok tt → pj_phase p ≠ "" → ∀ name seed cluster L, (name, seed) ∈ lb_seeds r →
    lw_labels name cluster w = Some L → selected lw_worker (om_name (pj_meta p)) L →
    ∃ L', lw_labels name cluster w' = Some L' ∧
      ∀ k v, om_labels (pj_meta p) !! k = Some v → isProtected k = false → map_str L' k = v).
Proof.
  intros Hget E. unfold LabelSync.Reconcile, LabelSync.reconcile, mbind at 1, M_MBind at 1, M_bind at 1, try in E. rewrite Hget in E.
  pose proof (λ m k, lw_projects _ m k _ _ _ Hget) as Hv.
  destruct (String.eqb_spec (pj_phase p) ""); [injection E as <- <-; split; [by left|done]|].
  case_bool_decide as Hsz.
  { injection E as <- <-. split; [by left|]. intros _ _ name seed cluster L _ HL _. exists L. rewrite Hv. split; [done|].
    apply map_size_empty_inv in Hsz. rewrite Hsz. intros k v. by rewrite lookup_empty. }
  destruct (negb _); [injection E as <- <-; split; [by left|done]|].
  apply bind_run in E as [(errs & w2 & E1 & E)|[(z1 & E1 & _) Hno]];
    apply (label_seeds_run r (om_labels (pj_meta p))) in E1 as (Hrel & _ & Hok); try done; try apply lw_names;
    (split; [intros m k; try (destruct (NewAggregate _); injection E as <- <-); rewrite <- Hv; apply Hrel|]); [|intros ->; by destruct (Hno tt)].
  intros -> _ name seed cluster L Hin HL Hsel. destruct (Hok _ eq_refl) as (more & Hmore & Hg). simpl in Hmore. subst more.
  destruct errs as [|e errs]; [|done]. apply ret_ok_inv in E as [_ ->].
  pose proof (Hg eq_refl name seed cluster L Hin) as HH. rewrite Hv in HH. specialize (HH HL Hsel).
  specialize (Hrel name cluster). rewrite Hv, HL in Hrel.
  destruct Hrel as [Heq|(? & L' & _ & Heq & _)]; (eexists; split; [exact Heq|]); by apply HH.
Qed.
