(* ===== verification/SeedAdmission.v ===== *)
(** * Admission of seeds

    The webhook of [pkg/webhook/seed] that checks every [Seed] before it is stored or
    deleted, and [ValidateMeteringConfiguration] of [pkg/validation/metering.go]. *)

From S2P Require Import Prelude Kube Semver Net CloudApi ClusterApi Helper Corev1 Field ClusterDefaulting ClusterValidation Rbac RbacSync Reconciling ClusterDeletion.

(** ** Names *)

Definition code_in (lo hi : Z) (c : Ascii.ascii) : bool := (lo <=? code c) && (code c <=? hi).
Definition lower_alnum (c : Ascii.ascii) : bool := code_in 97 122 c || code_in 48 57 c.
Definition alnum (c : Ascii.ascii) : bool := code_in 65 90 c || lower_alnum c.

(** [resourceNameValidator].  The expression is a raw string, in which two backslashes
    stand for a literal backslash and the dot after them for any character but a
    newline.  [NameRune] is inside such a character, which may have several bytes. *)
Inductive NameState := NameStart | NameLetter | NameDash | NameAny | NameRune.
Definition name_start (c : Ascii.ascii) : option NameState := if lower_alnum c then Some NameLetter else None.
Definition name_step (s : NameState) (c : Ascii.ascii) : option NameState :=
  match s with
  | NameStart => name_start c
  | NameLetter | NameDash =>
      if lower_alnum c then Some NameLetter
      else if is_char c "-" then Some NameDash
      else match s with NameLetter => if is_char c "\" then Some NameAny else None | _ => None end
  | NameAny => if code c =? 10 then None else Some (if 192 <=? code c then NameRune else NameStart)
  | NameRune => if code_in 128 191 c then Some NameRune else name_start c
  end.
Fixpoint name_run (s : NameState) (l : chars) : bool :=
  match l with
  | [] => match s with NameLetter => true | _ => false end
  | c :: l' => match name_step s c with Some s' => name_run s' l' | None => false end
  end.
Definition resourceNameValidator (name : string) : bool := name_run NameStart (String.list_ascii_of_string name).

Definition MeteringReportNameValidator (name : string) : bool :=
  let l := String.list_ascii_of_string name in
  negb (is_nil l) && forallb (λ c, alnum c || is_char c "-") l.

(** ** The validator *)

Definition DefaultSeedName : string := "kubermatic".

Record SeedClient (W : Type) := mkSeedClient { scl_clusters : Client W Cluster; scl_secrets : Client W Secret }.
Arguments scl_clusters {W}.
Arguments scl_secrets {W}.

(** [vd_range] is the order of a range over a map, [vd_cron] the parser of the cron
    library; the lock serializes the calls. *)
Record SeedValidator (W : Type) := mkSeedValidator {
  vd_seedsGetter : M W (gmap string Seed);
  vd_seedClientGetter : Seed → M W (SeedClient W);
  vd_features : gmap string bool;
  vd_range : ∀ V : Type, gmap string V → list (string * V);
  vd_cron : string → outcome unit;
}.
Arguments vd_seedsGetter {W}.
Arguments vd_seedClientGetter {W}.
Arguments vd_features {W}.
Arguments vd_range {W} _ {V}.
Arguments vd_cron {W}.

Module SeedWebhook.
Section validator.
Context {W : Type} (v : SeedValidator W).

Definition checkReport (report : string * option MeteringReportConfiguration) : outcome unit :=
  let '(reportName, reportConfig) := report in
  if negb (MeteringReportNameValidator reportName)
  then Err (ErrNew "metering report configuration name can contain only alphanumeric characters or '-'") else
  reportConfig ← deref reportConfig;
  match vd_cron v (mr_schedule reportConfig) with
  | Err _ => Err (ErrNew "invalid cron expression format")
  | r => r
  end.
Definition ValidateMeteringConfiguration (configuration : option MeteringConfiguration) : M W unit :=
  match configuration with
  | None => mret tt
  | Some c => for_range (λ _ report, lift (checkReport report)) tt (vd_range v (mt_reportConfigurations c))
  end.

(** One other seed: its datacenters join those that exist, unless the subject
    introduces one of them. *)
Definition otherSeed (subjectDatacenters existingDatacenters : gset string) (existing : string * Seed) : M W (gset string) :=
  let datacenters := dom (seed_datacenters existing.2) in
  if bool_decide (subjectDatacenters ∩ datacenters = ∅) then mret (existingDatacenters ∪ datacenters)
  else throw (ErrNew "Seed redefines existing datacenters; datacenter names must be globally unique").

Definition checkDatacenter (existingSeed : option Seed) (dc : string * Datacenter) : M W unit :=
  providerName ← wrap "datacenter is invalid" (lift (DatacenterCloudProviderName (Some (dc_spec dc.2))));
  if String.eqb providerName "" then throw (ErrNew "datacenter has no provider defined") else
  match existingSeed ≫= (λ s, seed_datacenters s !! dc.1) with
  | None => mret tt
  | Some existingDC =>
      let existingProvider := match DatacenterCloudProviderName (Some (dc_spec existingDC)) with Ok p => p | _ => "" end in
      if negb (String.eqb providerName existingProvider) then throw (ErrNew "cannot change datacenter provider") else mret tt
  end.

Definition checkCluster (finalDatacenters : gset string) (cluster : Cluster) : M W unit :=
  if bool_decide (cd_datacenterName (sp_cloud (cl_spec cluster)) ∈ finalDatacenters) then mret tt
  else throw (ErrNew "datacenter is still in use by cluster, cannot delete it").

Definition checkDestination (seedClient : SeedClient W) (destination : string * option BackupDestination) : M W unit :=
  if negb (resourceNameValidator destination.1) then throw (ErrNew "destination name is invalid") else
  dest ← lift (deref destination.2);
  match bd_credentials dest with
  | None => mret tt
  | Some credentials =>
      _ ← wrap "invalid etcd backup configuration: invalid destination credentials" (c_get (scl_secrets seedClient) credentials);
      mret tt
  end.
Definition checkBackups (seedClient : SeedClient W) (backups : option EtcdBackupRestore) : M W unit :=
  match backups with
  | None => mret tt
  | Some b =>
      if bool_decide (size (ebr_destinations b) = 0%nat)
      then throw (ErrNew "invalid etcd backup configuration: must define at least one backup destination") else
      if String.eqb (ebr_defaultDestination b) ""
      then throw (ErrNew "invalid etcd backup configuration: no default destination specified") else
      if negb (is_some (ebr_destinations b !! ebr_defaultDestination b))
      then throw (ErrNew "invalid etcd backup configuration: default destination does not exist") else
      for_range (λ _ d, checkDestination seedClient d) tt (vd_range v (ebr_destinations b))
  end.

(** A deleted seed introduces no datacenters, but those it has are checked as well. *)
Definition validateSubject (existingSeeds : gmap string Seed) (subject : Seed) (isDelete : bool) : M W unit :=
  seedClient ← wrap "failed to get Seed client" (vd_seedClientGetter v subject);
  if String.eqb (seed_exposeStrategy subject) ExposeStrategyTunneling && negb (FeatureGate_Enabled (vd_features v) TunnelingExposeStrategy)
  then throw (ErrNew "cannot create Seed using Tunneling as a default expose strategy, the TunnelingExposeStrategy feature gate is not enabled") else
  let existingSeed := existingSeeds !! seed_name subject in
  let existingSeeds := delete (seed_name subject) existingSeeds in
  let subjectDatacenters := if isDelete then ∅ else dom (seed_datacenters subject) in
  existingDatacenters ← for_range (otherSeed subjectDatacenters) ∅ (vd_range v existingSeeds);
  _ ← for_range (λ _ dc, checkDatacenter existingSeed dc) tt (vd_range v (seed_datacenters subject));
  clusters ← wrap "failed to list clusters" (c_list (scl_clusters seedClient) everything);
  let finalDatacenters := subjectDatacenters ∪ existingDatacenters in
  _ ← for_range (λ _ c, checkCluster finalDatacenters c) tt clusters;
  _ ← checkBackups seedClient (seed_etcdBackupRestore subject);
  ValidateMeteringConfiguration (seed_metering subject).

Definition validate (obj : Seed) (isDelete : bool) : M W unit :=
  existingSeeds ← wrap "failed to list Seeds" (vd_seedsGetter v);
  if isDelete then
    match existingSeeds !! seed_name obj with
    | None => mret tt
    | Some subject => validateSubject existingSeeds subject true
    end
  else validateSubject existingSeeds obj false.

Definition ValidateCreate (obj : Seed) : M W unit := validate obj false.
Definition ValidateUpdate (oldObj newObj : Seed) : M W unit := validate newObj false.
Definition ValidateDelete (obj : Seed) : M W unit := validate obj true.

(** The community edition accepts one seed only. *)
Definition fixedName_validate (name : string) (obj : Seed) (isDelete : bool) : M W unit :=
  if negb isDelete && negb (String.eqb (seed_name obj) name) then throw (ErrNew "cannot create Seed: it must be named")
  else validate obj isDelete.
End validator.
End SeedWebhook.

(** ** Theorems *)

Import SeedWebhook.

(** A name that is accepted without a backslash in it has no dot either. *)
Lemma resourceName_plain s : resourceNameValidator s = true → Forall (λ c, is_char c "\" = false) (String.list_ascii_of_string s) →
  Forall (λ c, lower_alnum c = true ∨ is_char c "-" = true) (String.list_ascii_of_string s).
Proof.
  unfold resourceNameValidator. intros Hr Hs. set (P := λ st : NameState, match st with NameAny | NameRune => False | _ => True end).
  assert (Hgen : ∀ l st, P st → name_run st l = true → Forall (λ c, is_char c "\" = false) l →
    Forall (λ c, lower_alnum c = true ∨ is_char c "-" = true) l); [|exact (Hgen _ NameStart I Hr Hs)].
  induction l as [|c l IH]; intros st Hst Hrun Hf; [done|]. apply Forall_cons in Hf as [Hc Hf]. simpl in Hrun.
  destruct (name_step st c) as [st'|] eqn:Es; [|done].
  assert (P st' ∧ (lower_alnum c = true ∨ is_char c "-" = true)) as [Hst' Hcc].
  { destruct st; try done; simpl in Es; unfold name_start in Es; rewrite ?Hc in Es;
      destruct (lower_alnum c); try (injection Es as <-; by split; [|left]); destruct (is_char c "-"); try done;
      injection Es as <-; by split; [|right]. }
  constructor; [done|]. by eapply IH.
Qed.

(** ** Histories of seeds *)

(** Getters and clients: what is returned is what is stored, and reading changes
    neither seeds nor clusters. *)
Class SeedWorld {W} (v : SeedValidator W) := {
  vw_seeds : W → gmap string Seed;
  vw_clusters : Seed → W → list Cluster;
  vw_range : ∀ V (m : gmap string V), vd_range v m ≡ₚ map_to_list m;
  vw_seeds_ok : ∀ w m w', vd_seedsGetter v w = (Ok m, w') → m = vw_seeds w;
  vw_seeds_keeps : ∀ s, keeps (vw_clusters s) (vd_seedsGetter v);
  vw_client_keeps : ∀ s s', keeps (vw_clusters s') (vd_seedClientGetter v s);
  vw_list : ∀ s w c w1 w2 l w3, vd_seedClientGetter v s w = (Ok c, w1) →
    c_list (scl_clusters c) everything w2 = (Ok l, w3) → l = vw_clusters s w2;
}.

(** An accepted request, with the clusters that run on the seed in question. *)
Inductive seed_step {W} (clusters : list Cluster) (m m' : gmap string Seed) : Prop :=
| accepted_put v (SW : SeedWorld v) seed (w w' : W) : vw_seeds w = m → validate v seed false w = (Ok tt, w') →
    clusters = vw_clusters seed w → m' = <[seed_name seed := seed]> m → seed_step clusters m m'
| accepted_delete v (SW : SeedWorld v) seed (w w' : W) : vw_seeds w = m → validate v seed true w = (Ok tt, w') →
    clusters = match m !! seed_name seed with Some s => vw_clusters s w | None => [] end →
    m' = delete (seed_name seed) m → seed_step clusters m m'.

Definition provider_of (dc : Datacenter) : outcome string := DatacenterCloudProviderName (Some (dc_spec dc)).
Definition single_provider (dc : Datacenter) : Prop := ∃ p, p ≠ "" ∧ provider_of dc = Ok p.
Definition defined_in (m : gmap string Seed) (d : string) : Prop := ∃ n s, m !! n = Some s ∧ is_Some (seed_datacenters s !! d).

(** Seeds are stored under their names, each datacenter has one provider and belongs to
    one seed. *)
Record seeds_ok (m : gmap string Seed) : Prop := {
  sk_names : ∀ n s, m !! n = Some s → seed_name s = n;
  sk_providers : ∀ n s d dc, m !! n = Some s → seed_datacenters s !! d = Some dc → single_provider dc;
  sk_unique : ∀ n1 s1 n2 s2 d, m !! n1 = Some s1 → m !! n2 = Some s2 →
    is_Some (seed_datacenters s1 !! d) → is_Some (seed_datacenters s2 !! d) → n1 = n2;
}.

Section checks.
Context {W : Type} (v : SeedValidator W) `{SW : !SeedWorld v}.

Lemma elem_of_range {V} (m : gmap string V) k x : (k, x) ∈ vd_range v m ↔ m !! k = Some x.
Proof. rewrite vw_range. apply elem_of_map_to_list. Qed.

(** A loop that only reads and checks. *)
Lemma checks_run {A} (f : A → M W unit) l w w' : (∀ a w z w1, f a w = (z, w1) → w1 = w) →
  for_range (λ _ a, f a) tt l w = (Ok tt, w') → w' = w ∧ ∀ a, a ∈ l → f a w = (Ok tt, w).
Proof.
  intros Hp. revert w. induction l as [|a l IH]; intros w E; simpl in E.
  { injection E as <-. split; [done|]. by intros a ?%elem_of_nil. }
  apply bind_ok_inv in E as ([] & w1 & E1 & E). pose proof (Hp _ _ _ _ E1) as ->. apply IH in E as [-> Hl]. split; [done|].
  intros x [->|Hx]%elem_of_cons; [done|by apply Hl].
Qed.

Lemma others_run mine l : ∀ acc (w : W) D w', for_range (otherSeed mine) acc l w = (Ok D, w') →
  w' = w ∧ D = acc ∪ ⋃ (map (λ p : string * Seed, dom (seed_datacenters p.2)) l) ∧
  ∀ n s, (n, s) ∈ l → mine ## dom (seed_datacenters s).
Proof.
  induction l as [|[n s] l IH]; intros acc w D w' E; simpl in E.
  { injection E as <- <-. split_and!; [done|set_solver|]. by intros n s ?%elem_of_nil. }
  apply bind_ok_inv in E as (acc1 & w1 & E1 & E). unfold otherSeed in E1. simpl in E1. case_bool_decide as Hd; [|done].
  apply ret_ok_inv in E1 as [<- <-]. apply IH in E as (-> & -> & Hl). split; [done|]. split; [set_solver|].
  intros n' s' [[= -> ->]|Hin]%elem_of_cons; [set_solver|by eapply Hl].
Qed.

Lemma datacenter_pure old dc w z w1 : checkDatacenter (W := W) old dc w = (z, w1) → w1 = w.
Proof.
  unfold checkDatacenter, mbind, M_MBind, M_bind, wrap, lift.
  destruct (DatacenterCloudProviderName _) as [p| | |]; try (by intros [= _ <-]).
  destruct (String.eqb p ""); [by intros [= _ <-]|]. destruct (option_bind _ _ _ _); [|by intros [= _ <-]].
  destruct (negb _); by intros [= _ <-].
Qed.
Lemma datacenter_ok old d dc w : checkDatacenter (W := W) old (d, dc) w = (Ok tt, w) → single_provider dc ∧
  ∀ s b, old = Some s → seed_datacenters s !! d = Some b → single_provider b → provider_of b = provider_of dc.
Proof.
  unfold checkDatacenter, single_provider, provider_of. simpl. intros E. apply bind_ok_inv in E as (p & w1 & E1%wrap_ok_inv & E).
  injection E1 as Ep <-. rewrite Ep. destruct (String.eqb_spec p "") as [|Hp]; [done|]. split; [by exists p|].
  intros s b -> Hb (q & Hq & Eq). simpl in E. rewrite Hb, Eq in E. destruct (String.eqb_spec p q) as [->|]; [done|].
  done.
Qed.

Lemma cluster_pure D c w z w1 : checkCluster (W := W) D c w = (z, w1) → w1 = w.
Proof. unfold checkCluster. case_bool_decide; by intros [= _ <-]. Qed.

(** What the checks of a subject establish. *)
Lemma subject_ok m subject isDelete w w' : validateSubject v m subject isDelete w = (Ok tt, w') →
  (∀ d dc, seed_datacenters subject !! d = Some dc → single_provider dc ∧
     ∀ s b, m !! seed_name subject = Some s → seed_datacenters s !! d = Some b → single_provider b → provider_of b = provider_of dc) ∧
  (isDelete = false → ∀ n s, n ≠ seed_name subject → m !! n = Some s →
     dom (seed_datacenters subject) ## dom (seed_datacenters s)) ∧
  (∀ c, c ∈ vw_clusters subject w →
     defined_in (if isDelete then delete (seed_name subject) m else <[seed_name subject := subject]> m)
       (cd_datacenterName (sp_cloud (cl_spec c)))).
Proof.
  intros E. apply bind_ok_inv in E as (client & w1 & Ec%wrap_ok_inv & E). pose proof (vw_client_keeps _ subject _ _ _ Ec) as Hv.
  destruct (_ && _); [done|]. apply bind_ok_inv in E as (D & w2 & E1 & E). apply others_run in E1 as (-> & HD & Hdis).
  apply bind_ok_inv in E as ([] & w2 & E1 & E). apply checks_run in E1 as [-> Hdc]; [|apply datacenter_pure].
  apply bind_ok_inv in E as (l & w2 & El%wrap_ok_inv & E). apply (vw_list _ _ _ _ _ _ _ Ec) in El as ->.
  apply bind_ok_inv in E as ([] & w3 & E1 & _). apply checks_run in E1 as [_ Hcl]; [|apply cluster_pure]. split_and!.
  - intros d dc Hd. by eapply datacenter_ok, Hdc, elem_of_range.
  - intros -> n s Hn Hs. eapply Hdis, elem_of_range. by rewrite lookup_delete_ne.
  - intros c Hc. rewrite <- Hv in Hc. apply Hcl in Hc. unfold checkCluster in Hc. case_bool_decide as Hin; [|done]. clear Hc.
    rewrite HD, (left_id_L ∅ (∪)) in Hin. assert (Hother : ∀ d, d ∈ ⋃ map (λ p : string * Seed, dom (seed_datacenters p.2)) (vd_range v (delete (seed_name subject) m)) →
      defined_in (delete (seed_name subject) m) d).
    { intros d (X & HX & Hd)%elem_of_union_list. apply list_elem_of_fmap in HX as ([n s] & -> & Hns). exists n, s.
      split; [by apply elem_of_range|by apply elem_of_dom]. }
    destruct isDelete; [apply Hother; by rewrite (left_id_L ∅ (∪)) in Hin|]. apply elem_of_union in Hin as [Hin|Hin].
    + exists (seed_name subject), subject. by rewrite lookup_insert_eq, <- elem_of_dom.
    + destruct (Hother _ Hin) as (n & s & Hns & Hd). apply lookup_delete_Some in Hns as [Hne Hns].
      exists n, s. by rewrite lookup_insert_ne.
Qed.
End checks.

Section history.
Context {W : Type}.

Lemma step_effect cs m m' : seed_step (W := W) cs m m' → seeds_ok m →
  seeds_ok m' ∧ (∀ c, c ∈ cs → defined_in m' (cd_datacenterName (sp_cloud (cl_spec c)))) ∧
  (∀ n s s' d dc dc', m !! n = Some s → m' !! n = Some s' → seed_datacenters s !! d = Some dc →
     seed_datacenters s' !! d = Some dc' → provider_of dc = provider_of dc').
Proof.
  intros [v SW seed w w' Hm E -> ->|v SW seed w w' Hm E -> ->] [Hnm Hpr Hun];
    apply bind_ok_inv in E as (got & w1 & Eg%wrap_ok_inv & E); pose proof (vw_seeds_ok _ _ _ Eg) as ->;
    pose proof (λ s, vw_seeds_keeps s _ _ _ Eg) as Hv; rewrite Hm in E.
  - apply (subject_ok v) in E as (Hdc & Hdis & Hcl). specialize (Hdis eq_refl).
    assert (Hone : ∀ n s d, m !! n = Some s → is_Some (seed_datacenters s !! d) → is_Some (seed_datacenters seed !! d) → n = seed_name seed).
    { intros n s d Hs Hd Hd'. destruct (decide (n = seed_name seed)) as [|Hne]; [done|].
      apply elem_of_dom in Hd, Hd'. destruct (Hdis n s Hne Hs d Hd' Hd). }
    split; [split|split].
    + intros n s [[<- <-]|[_ Hs]]%lookup_insert_Some; [done|by apply Hnm].
    + intros n s d dc [[<- <-]|[_ Hs]]%lookup_insert_Some Hd; [by apply (Hdc d)|by eapply Hpr].
    + intros n1 s1 n2 s2 d [[<- <-]|[_ H1]]%lookup_insert_Some [[<- <-]|[_ H2]]%lookup_insert_Some Hd1 Hd2;
        [done|symmetry; by eapply Hone|by eapply Hone|by eapply Hun].
    + intros c Hc. apply Hcl. by rewrite Hv.
    + intros n s s' d dc dc' Hs [[<- <-]|[_ Hs']]%lookup_insert_Some Hd Hd'; [|congruence].
      destruct (Hdc d dc' Hd') as [_ Hp]. eapply Hp; try done. by eapply Hpr.
  - assert (Hsub : ∀ n s, delete (seed_name seed) m !! n = Some s → m !! n = Some s) by (by intros n s [_ ?]%lookup_delete_Some).
    split; [split; [intros n s Hs%Hsub; by apply Hnm|intros n s d dc Hs%Hsub; by eapply Hpr|
      intros n1 s1 n2 s2 d H1%Hsub H2%Hsub; by eapply Hun]|split].
    + intros c Hc. destruct (m !! seed_name seed) as [s|] eqn:Es; [|by apply elem_of_nil in Hc].
      apply (subject_ok v) in E as (_ & _ & Hcl). rewrite (Hnm _ _ Es) in Hcl. apply Hcl. by rewrite Hv.
    + intros n s s' d dc dc' Hs Hs'%Hsub Hd Hd'. congruence.
Qed.

(** C12: over any history of accepted requests for seeds every datacenter has exactly
    one provider and belongs to exactly one seed; an accepted change keeps the provider
    of every datacenter and leaves no cluster of the seed in a datacenter that no seed
    defines. *)
Theorem seed_admission m : rtc (λ a b, ∃ cs, seed_step (W := W) cs a b) ∅ m →
  seeds_ok m ∧ ∀ cs m', seed_step (W := W) cs m m' →
    (∀ c, c ∈ cs → defined_in m' (cd_datacenterName (sp_cloud (cl_spec c)))) ∧
    (∀ n s s' d dc dc', m !! n = Some s → m' !! n = Some s' → seed_datacenters s !! d = Some dc →
       seed_datacenters s' !! d = Some dc' → provider_of dc = provider_of dc').
Proof.
  intros Hh. assert (Hok : seeds_ok m).
  { apply (rtc_ind_r (λ x, seeds_ok x) ∅) in Hh; [done|by split; intros *; rewrite lookup_empty|].
    intros y z _ [cs Hs] Hy. by apply (step_effect cs y z). }
  split; [done|]. intros cs m' Hs. by destruct (step_effect _ _ _ Hs Hok) as (_ & ? & ?).
Qed.
End history.
