(* ===== verification/SeedProjects.v ===== *)
(** * Projects, presets and templates on a seed

    Controllers of the seed-controller-manager for what the master hands on: the clusters
    of a project go before the project does ([project]), clusters learn that their preset
    is gone ([preset-controller]), and instances of cluster templates become clusters
    ([cluster-template-controller]). *)

From S2P Require Import Prelude ResourceNames Kube Semver Net CloudApi ClusterApi Helper Corev1 Field ClusterDefaulting Rbac RbacSync Reconciling ClusterDeletion MasterApi MasterSync ProjectMembers.

(** A failure is recorded at the object and returned as it is. *)
Definition reported {W} (event : ObjectMeta → string → W → W) (m : ObjectMeta) (body : M W unit) : M W unit :=
  res ← try body;
  match res with
  | inl e => _ ← emit (event m (error_string e)); throw e
  | inr _ => mret tt
  end.

(** ** Projects *)

Module ProjectCleanup.
Definition CleanupFinalizer : string := "kubermatic.k8c.io/cleanup-clusters".

Section controller.
Context `{StringSets} {W : Type} (projects : Client W Project) (clusters : Client W Cluster) (retry : Retry W)
  (event : ObjectMeta → string → W → W).

Definition deleteCluster (cluster : Cluster) : M W unit :=
  match om_deletionTimestamp (cl_meta cluster) with
  | None => wrap "failed to delete cluster" (c_delete clusters cluster)
  | Some _ => mret tt
  end.

Definition handleCleanup (project : Project) : M W unit :=
  items ← wrap "failed to list clusters" (c_list clusters (mkListOptions "" [(ProjectIDLabelKey, om_name (pj_meta project))]));
  _ ← for_range (λ _ cluster, deleteCluster cluster) tt items;
  match items with
  | [] => _ ← wrap "failed to remove finalizer" (TryRemoveFinalizer projects retry project [CleanupFinalizer]); mret tt
  | _ => mret tt
  end.

Definition reconcile (project : Project) : M W unit :=
  match om_deletionTimestamp (pj_meta project) with
  | Some _ => handleCleanup project
  | None => _ ← wrap "failed to add finalizer" (TryAddFinalizer projects retry project [CleanupFinalizer]); mret tt
  end.

Definition Reconcile (request : NamespacedName) : M W unit :=
  with_object (c_get projects request) (λ project, reported event (pj_meta project) (reconcile project)).
End controller.
End ProjectCleanup.

(** ** Presets *)

Module PresetInvalidation.
Definition PresetNameAnnotation : string := "presetName".
Definition PresetInvalidatedAnnotation : string := "presetInvalidated".
Definition PresetDeleted : string := "deleted".

Section controller.
Context {W PresetSpec : Type} (presets : Client W (SpecObject PresetSpec)) (clusters : Client W Cluster)
  (listPresetClusters : M W (list Cluster)) (event : ObjectMeta → string → W → W).

(** The clusters that the list gives are those of the worker with the label of presets
    ([listPresetClusters]). *)
Definition invalidateCluster (presetName : string) (cluster : Cluster) : M W unit :=
  if String.eqb (map_str (om_annotations (cl_meta cluster)) PresetNameAnnotation) presetName &&
     negb (bool_decide (om_annotations (cl_meta cluster) = ∅)) then
    _ ← c_update clusters (set_meta (set_annotations (<[PresetInvalidatedAnnotation := PresetDeleted]>
          (om_annotations (cl_meta cluster))) (cl_meta cluster)) cluster);
    mret tt
  else mret tt.

Definition reconcile (preset : SpecObject PresetSpec) : M W unit :=
  if is_deleted preset then
    items ← wrap "failed to get clusters" listPresetClusters;
    for_range (λ _ cluster, invalidateCluster (om_name (so_meta preset)) cluster) tt items
  else mret tt.

Definition Reconcile (request : NamespacedName) : M W unit :=
  got ← try (c_get presets request);
  match got with
  | inl e => if IsNotFound e then mret tt else throw (ErrWrap "failed to get preset" e)
  | inr preset => reported event (so_meta preset) (reconcile preset)
  end.
End controller.
End PresetInvalidation.

(** ** Instances of cluster templates *)

Record ClusterTemplateInstanceSpec := mkInstanceSpec {
  cti_projectID : string;
  cti_clusterTemplateID : string;
  cti_clusterTemplateName : string;
  cti_replicas : Z;
}.
Record ClusterTemplateInstance := mkInstance { cti_meta : ObjectMeta; cti_spec : ClusterTemplateInstanceSpec }.
#[global] Program Instance ClusterTemplateInstance_object : Object ClusterTemplateInstance := {|
  obj_meta := cti_meta;
  set_meta m i := mkInstance m (cti_spec i);
|}.
Next Obligation. done. Qed.
Definition set_replicas (n : Z) (i : ClusterTemplateInstance) : ClusterTemplateInstance :=
  let s := cti_spec i in
  mkInstance (cti_meta i) (mkInstanceSpec (cti_projectID s) (cti_clusterTemplateID s) (cti_clusterTemplateName s) n).

Definition ClusterTemplateInstanceOwnerAnnotationKey : string := "owner".
Definition ClusterTemplateUserAnnotationKey : string := "user".
Definition ClusterTemplateInstanceLabelKey : string := "template-instance-id".

(** [te_credentials] are [CopyCredentials] and [CreateOrUpdateCredentialSecretForCluster],
    which write through the pointers of the cloud settings that a template and a new
    cluster share, and so give both back. *)
Record TemplateEnv (W : Type) := mkTemplateEnv {
  te_instances : Client W ClusterTemplateInstance;
  te_templates : Client W ClusterTemplate;
  te_clusters : Client W Cluster;
  te_keys : Client W UserSSHKey;
  te_workerName : string;
  te_credentials : ClusterTemplate → Cluster → M W (ClusterTemplate * Cluster);
  te_rand : Z → W → string * W;
  te_retry : Retry W;
  te_equal : Cluster → Cluster → bool;
  te_poll : M W bool → M W unit;
  te_event : ObjectMeta → string → W → W;
}.
Arguments te_instances {W}.
Arguments te_templates {W}.
Arguments te_clusters {W}.
Arguments te_keys {W}.
Arguments te_workerName {W}.
Arguments te_credentials {W}.
Arguments te_rand {W}.
Arguments te_retry {W}.
Arguments te_equal {W}.
Arguments te_poll {W}.
Arguments te_event {W}.

Module TemplateInstances.
Definition empty_health : ExtendedClusterHealth :=
  mkExtendedClusterHealth "" "" "" "" "" "" "" "" "" None None None None None None "".
Definition new_status (userEmail : string) : ClusterStatus :=
  mkClusterStatus 0 empty_health 0 "" (mkClusterVersionsStatus "" "" "" "" None) "" userEmail None None ∅ "" 0 ∅ None None.
Definition set_humanReadableName (n : string) (s : ClusterSpec) : ClusterSpec :=
  mkClusterSpec n (sp_version s) (sp_cloud s) (sp_containerRuntime s) (sp_cniPlugin s) (sp_clusterNetwork s)
    (sp_machineNetworks s) (sp_exposeStrategy s) (sp_componentsOverride s) (sp_features s)
    (sp_usePodSecurityPolicyAdmissionPlugin s) (sp_enableUserSSHKeyAgent s) (sp_enableOperatingSystemManager s)
    (sp_auditLogging s) (sp_encryptionConfiguration s) (sp_pause s) (sp_mla s) (sp_rest s).

Definition genNewCluster (template : ClusterTemplate) (instance : ClusterTemplateInstance) (workerName name : string) : Cluster :=
  let labels := tpl_clusterLabels template in
  let labels := if String.eqb workerName "" then labels else <[WorkerNameLabelKey := workerName]> labels in
  let labels := <[ClusterTemplateInstanceLabelKey := om_name (cti_meta instance)]>
                  (<[ProjectIDLabelKey := cti_projectID (cti_spec instance)]> labels) in
  let spec := tpl_spec template in
  mkCluster (set_annotations (om_annotations (tpl_meta template)) (set_labels labels (set_name name emptyMeta)))
    (set_humanReadableName (sp_humanReadableName spec +:+ "-" +:+ name) spec)
    (new_status (map_str (om_annotations (tpl_meta template)) ClusterTemplateUserAnnotationKey))
    (mkClusterAddress "" 0 "" "" "" "") (mkTypeMeta "" "").

Section controller.
Context `{SemverLib, StringSets} {W : Type} (r : TemplateEnv W).

Definition assignSSHKeyToCluster (clusterID : string) (userSSHKeys : list ClusterTemplateSSHKey) : M W unit :=
  for_range (λ _ sshKey,
    userKey ← c_get (te_keys r) (mkKey "" (tsk_id sshKey));
    _ ← c_update (te_keys r) (AddToCluster userKey clusterID);
    mret tt) tt userSSHKeys.

(** The annotation of the owner is written to the template, which later clusters of the
    same run share. *)
Definition ownTemplate (template : ClusterTemplate) (instance : ClusterTemplateInstance) : ClusterTemplate :=
  let owner := map_str (om_annotations (cti_meta instance)) ClusterTemplateInstanceOwnerAnnotationKey in
  if String.eqb owner "" then template
  else set_meta (set_annotations (<[ClusterTemplateUserAnnotationKey := owner]> (om_annotations (tpl_meta template)))
                   (tpl_meta template)) template.

Definition createCluster (template : ClusterTemplate) (instance : ClusterTemplateInstance) : M W ClusterTemplate :=
  let template := ownTemplate template instance in
  name ← read (te_rand r 10);
  let newCluster := genNewCluster template instance (te_workerName r) name in
  let newStatus := cl_status newCluster in
  '(template, newCluster) ← te_credentials r template newCluster;
  let newCluster := set_meta (AddFinalizer [CredentialsSecretsCleanupFinalizer] (cl_meta newCluster)) newCluster in
  newCluster ← wrap "failed to create cluster"
    (ApplicationSecretSync.ensureShared (te_clusters r) (te_equal r) (te_poll r) (mkKey "" (om_name (cl_meta newCluster))) newCluster);
  _ ← wrap "failed to set cluster status"
        (UpdateClusterStatus (te_clusters r) (te_retry r) newCluster (λ c, mret (set_cl_status newStatus c)));
  _ ← try (assignSSHKeyToCluster (om_name (cl_meta newCluster)) (tpl_userSSHKeys template));
  mret template.

Definition patchInstance (instance : ClusterTemplateInstance) (replicas : Z) : M W ClusterTemplateInstance :=
  if replicas =? cti_replicas (cti_spec instance) then mret instance
  else wrap "failed to update cluster template instance" (c_patch (te_instances r) instance (set_replicas replicas instance)).

(** The loop over the replicas that are left, from the [i]th. *)
Fixpoint createReplicas (left : nat) (i : Z) (template : ClusterTemplate) (instance : ClusterTemplateInstance) : M W unit :=
  match left with
  | O => mret tt
  | S left' =>
      got ← try (createCluster template instance);
      match got with
      | inr template => createReplicas left' (i + 1) template instance
      | inl _ =>
          let created := i + 1 in
          let totalReplicas := cti_replicas (cti_spec instance) in
          _ ← patchInstance instance (totalReplicas - created);
          throw (ErrNew "failed to create desired number of clusters")
      end
  end.

Definition createClusters (instance : ClusterTemplateInstance) : M W unit :=
  if 0 <? cti_replicas (cti_spec instance) then
    template ← wrap "failed to get template" (c_get (te_templates r) (mkKey "" (cti_clusterTemplateID (cti_spec instance))));
    createReplicas (Z.to_nat (cti_replicas (cti_spec instance))) 0 template instance
  else mret tt.

Definition reconcile (instance : ClusterTemplateInstance) : M W unit :=
  if is_deleted instance then mret tt else
  _ ← createClusters instance;
  c_delete (te_instances r) instance.

Definition Reconcile (request : NamespacedName) : M W unit :=
  got ← try (c_get (te_instances r) request);
  match got with
  | inl e => if IsNotFound e then mret tt else throw (ErrWrap "failed to get cluster template instance" e)
  | inr instance => reported (te_event r) (cti_meta instance) (reconcile instance)
  end.
End controller.
End TemplateInstances.
