(* ===== verification/SeedProjectsSpec.v ===== *)
(** * Projects, presets and templates on a seed: theorems *)

From S2P Require Import Prelude ResourceNames Kube Semver Net CloudApi ClusterApi Helper Corev1 Field ClusterDefaulting Rbac RbacSync Reconciling ClusterDeletion MasterApi MasterSync MasterSyncSpec ProjectMembers SeedProjects.

(** A report changes nothing but the events. *)
Lemma reported_run {W} event m (body : M W unit) w z w' : reported event m body w = (z, w') →
  ∃ w1, body w = (z, w1) ∧ (w' = w1 ∨ ∃ msg, w' = event m msg w1).
Proof.
  unfold reported, mbind, M_MBind, M_bind, try. destruct (body w) as [[[]|e|p|] w1]; intros E; injection E as <- <-; exists w1; eauto.
Qed.

(** ** Projects *)

(** The stored projects and clusters: a list by label gives what is stored, a deleted
    cluster is gone or marked, and neither kind of calls touches the other kind. *)
Class CleanupWorld {W} (projects : Client W Project) (clusters : Client W Cluster) (event : ObjectMeta → string → W → W) := {
  pw_project : unit → NamespacedName → W → option Project;
  pw_cluster : NamespacedName → W → option Cluster;
  pw_store : at_store pw_project pj_name pj_phase projects tt;
  pw_event_project : ∀ m msg w i k, pw_project i k (event m msg w) = pw_project i k w;
  pw_event_cluster : ∀ m msg w k, pw_cluster k (event m msg w) = pw_cluster k w;
  pw_get_cluster : ∀ k k', keeps (pw_cluster k') (c_get projects k);
  pw_update_cluster : ∀ p k', keeps (pw_cluster k') (c_update projects p);
  pw_list_project : ∀ o i k, keeps (pw_project i k) (c_list clusters o);
  pw_list_cluster : ∀ o k, keeps (pw_cluster k) (c_list clusters o);
  pw_list : ∀ p w l w', c_list clusters (mkListOptions "" [(ProjectIDLabelKey, p)]) w = (Ok l, w') → ∀ k c,
    (object_key c = k ∧ c ∈ l) ↔ (pw_cluster k w = Some c ∧ om_labels (cl_meta c) !! ProjectIDLabelKey = Some p);
  pw_list_distinct : ∀ o w l w', c_list clusters o w = (Ok l, w') → NoDup (map object_key l);
  pw_delete_project : ∀ c i k, keeps (pw_project i k) (c_delete clusters c);
  pw_delete : ∀ c w z w', c_delete clusters c w = (z, w') → (∀ k, k ≠ object_key c → pw_cluster k w' = pw_cluster k w) ∧
    (pw_cluster (object_key c) w' = pw_cluster (object_key c) w ∨ gone (pw_cluster (object_key c) w')) ∧
    (z = Ok tt → gone (pw_cluster (object_key c) w'));
}.
#[export] Hint Resolve pw_get_cluster pw_update_cluster pw_list_project pw_list_cluster pw_delete_project : kkp_frame.

Section cleanup.
Context `{StringSets} {W : Type} (projects : Client W Project) (clusters : Client W Cluster) (retry : Retry W)
  (event : ObjectMeta → string → W → W) `{CW : !CleanupWorld projects clusters event}.
Import ProjectCleanup.

(** The finalizer lemmas of the synchronizers, for the projects. *)
Abbreviation projects_alone := (alone projects retry (λ _ _, false) (λ cond, _ ← cond; mret tt)).
#[local] Instance projects_world : SyncWorld (I := unit) projects_alone pj_name pj_phase.
Proof. refine (alone_world _ _ _ _ _ _ _ tt pw_store _ _ _ _); try done. intros A v cond Hc. frame. Defined.

Lemma keeps_add_project (p : Project) fs k : keeps (pw_cluster k) (TryAddFinalizer projects retry p fs).
Proof. unfold TryAddFinalizer. apply keeps_wrap, keeps_retry. frame. Qed.
Lemma keeps_remove_project (p : Project) fs k : keeps (pw_cluster k) (TryRemoveFinalizer projects retry p fs).
Proof. unfold TryRemoveFinalizer. apply keeps_wrap, keeps_retry. frame. Qed.

Lemma drop_wrapped_run (p : Project) w z w' : pw_project tt (object_key p) w = Some p →
  (_ ← wrap "failed to remove finalizer" (TryRemoveFinalizer projects retry p [CleanupFinalizer]); mret tt) w = (z, w') →
  elsewhere pw_project tt (object_key p) w w' ∧ shrinks (pw_project tt (object_key p) w) (pw_project tt (object_key p) w') ∧
  (z = Ok tt → ∀ y, pw_project tt (object_key p) w' = Some y → CleanupFinalizer ∉ finalizers y).
Proof.
  intros Hp E. apply bind_run in E as [(y & w1 & Er%wrap_ok_inv & E)|[(z1 & Er & _) Hno]].
  - injection E as <- <-. destruct (remove_finalizer_run projects_alone pj_name pj_phase (object_key p) p CleanupFinalizer _ _ _ eq_refl Er) as (He & Hs & Hf).
    split; [exact He|]. split; [exact Hs|]. intros _. by apply (Hf y).
  - apply wrap_run in Er as (z2 & Er & _).
    destruct (remove_finalizer_run projects_alone pj_name pj_phase (object_key p) p CleanupFinalizer _ _ _ eq_refl Er) as (He & Hs & _).
    split; [exact He|]. split; [exact Hs|]. intros ->. by destruct (Hno tt).
Qed.

(** What a run may do to a cluster. *)
Definition goes (a b : option Cluster) : Prop := b = a ∨ gone b.

Lemma delete_loop l : NoDup (map object_key l) → ∀ w z w', for_range (λ _ c, deleteCluster clusters c) tt l w = (z, w') →
  (∀ c, c ∈ l → pw_cluster (object_key c) w = Some c) →
  (∀ k, k ∉ map object_key l → pw_cluster k w' = pw_cluster k w) ∧ (∀ k, goes (pw_cluster k w) (pw_cluster k w')) ∧
  (z = Ok tt → ∀ c, c ∈ l → gone (pw_cluster (object_key c) w')).
Proof.
  induction l as [|c l IH]; intros Hnd w z w' E Hl; simpl in E.
  { injection E as <- <-. split_and!; [done|by left|by intros _ c ?%elem_of_nil]. }
  apply NoDup_cons in Hnd as [Hni Hnd].
  assert (Hone : ∀ z1 w1, deleteCluster clusters c w = (z1, w1) → (∀ k, k ≠ object_key c → pw_cluster k w1 = pw_cluster k w) ∧
    (∀ k, goes (pw_cluster k w) (pw_cluster k w1)) ∧ (z1 = Ok tt → gone (pw_cluster (object_key c) w1))).
  { intros z1 w1 E1. unfold deleteCluster in E1. destruct (om_deletionTimestamp (cl_meta c)) as [t|] eqn:Ed.
    - injection E1 as <- <-. split_and!; [done|by left|]. intros _ x. rewrite (Hl c ltac:(left)). intros [= <-].
      unfold deletion. simpl. rewrite Ed. by eexists.
    - apply wrap_run in E1 as (z2 & E1 & Hz). destruct (pw_delete _ _ _ _ E1) as (Hfr & Hg & Hok). split_and!; [done| |auto].
      intros k. destruct (decide (k = object_key c)) as [->|Hne]; [done|]. left. by apply Hfr. }
  apply bind_run in E as [([] & w1 & E1 & E)|[(z1 & E1 & _) Hno]]; destruct (Hone _ _ E1) as (Hfr & Hg & Hok).
  - destruct (IH Hnd w1 z w' E) as (Hfr2 & Hg2 & Hok2).
    { intros c' Hc'. rewrite Hfr; [apply Hl; by right|]. intros Heq. apply Hni. rewrite <- Heq. apply list_elem_of_fmap. by exists c'. }
    split; [intros k [Hk Hk']%not_elem_of_cons; by rewrite Hfr2, Hfr|]. split.
    { intros k. destruct (Hg2 k) as [->|]; [apply Hg|by right]. }
    intros Hz c' [->|Hc']%elem_of_cons; [|by apply Hok2]. destruct (Hg2 (object_key c)) as [->|]; [by apply Hok|done].
  - split; [intros k [Hk _]%not_elem_of_cons; by apply Hfr|]. split; [done|]. intros ->. by destruct (Hno tt).
Qed.

Definition of_project (name : string) (w : W) (k : NamespacedName) : Prop :=
  ∃ c, pw_cluster k w = Some c ∧ om_labels (cl_meta c) !! ProjectIDLabelKey = Some name.

Lemma cleanup_run p w z w' : pw_project tt (object_key p) w = Some p → handleCleanup projects clusters retry p w = (z, w') →
  (∀ k, ¬ of_project (om_name (pj_meta p)) w k → pw_cluster k w' = pw_cluster k w) ∧
  (∀ k, goes (pw_cluster k w) (pw_cluster k w')) ∧
  (∀ i k, k ≠ object_key p → pw_project i k w' = pw_project i k w) ∧
  ((∃ k, of_project (om_name (pj_meta p)) w k) → pw_project tt (object_key p) w' = Some p) ∧
  (z = Ok tt → (∀ k, of_project (om_name (pj_meta p)) w k → gone (pw_cluster k w')) ∧
     ((∀ k, ¬ of_project (om_name (pj_meta p)) w k) → ∀ y, pw_project tt (object_key p) w' = Some y → CleanupFinalizer ∉ finalizers y)).
Proof.
  intros Hp E. apply bind_run in E as [(l & w1 & El%wrap_ok_inv & E)|[(z1 & El & _) Hno]].
  2: { apply wrap_run in El as (z2 & El & _). assert (Hv : ∀ k, pw_cluster k w' = pw_cluster k w) by (intros k; by apply (pw_list_cluster _ k) in El).
       assert (Hv' : ∀ i k, pw_project i k w' = pw_project i k w) by (intros i k; by apply (pw_list_project _ i k) in El).
       split_and!; [intros; apply Hv|by left|intros; apply Hv'|by rewrite Hv'|intros ->; by destruct (Hno tt)]. }
  assert (Hv : ∀ k, pw_cluster k w1 = pw_cluster k w) by (intros k; by apply (pw_list_cluster _ k) in El).
  assert (Hv' : ∀ i k, pw_project i k w1 = pw_project i k w) by (intros i k; by apply (pw_list_project _ i k) in El).
  pose proof (pw_list _ _ _ _ El) as Hl.
  assert (Hof : ∀ k, of_project (om_name (pj_meta p)) w k ↔ k ∈ map object_key l).
  { intros k. rewrite list_elem_of_fmap. split; [intros (c & ?%Hl); exists c; naive_solver|intros (c & -> & Hc)]. exists c. by apply Hl. }
  apply bind_run in E as [([] & w2 & E1 & E)|[(z1 & E1 & _) Hno]];
    destruct (delete_loop l (pw_list_distinct _ _ _ _ El) _ _ _ E1) as (Hfr & Hg & Hok);
    try (intros c Hc; rewrite Hv; by apply (Hl (object_key c) c));
    assert (Hkp : ∀ i k, keeps (pw_project i k) (for_range (λ _ c, deleteCluster clusters c) tt l))
      by (intros i k; apply keeps_for_range; intros _ c; unfold deleteCluster; frame);
    pose proof (λ i k, Hkp i k _ _ _ E1) as Hv2.
  - assert (Hpr : ∀ k, pw_cluster k w' = pw_cluster k w2 ∧ (l ≠ [] → w' = w2)).
    { intros k. destruct l; [|by injection E as _ <-]. split; [|done].
      eapply (keeps_bind (pw_cluster k)); [|intros a; apply keeps_ret|exact E]. apply keeps_wrap, keeps_remove_project. }
    split_and!.
    + intros k Hk. rewrite (proj1 (Hpr k)), Hfr, Hv by (by rewrite <- Hof). done.
    + intros k. rewrite (proj1 (Hpr k)), <- Hv. apply Hg.
    + intros i k Hne. destruct l as [|c l]; [|injection E as _ <-; by rewrite Hv2, Hv'].
      apply (drop_wrapped_run p) in E as (He & _ & _); [|by rewrite Hv2, Hv'].
      rewrite He by congruence. by rewrite Hv2, Hv'.
    + intros [k Hk%Hof]. destruct l as [|c l]; [by apply elem_of_nil in Hk|]. injection E as _ <-. by rewrite Hv2, Hv'.
    + intros ->. split.
      * intros k Hk%Hof. rewrite (proj1 (Hpr k)). apply list_elem_of_fmap in Hk as (c & -> & Hc). by apply Hok.
      * intros Hnone. destruct l as [|c l]; [|exfalso; apply (Hnone (object_key c)), Hof; left].
        apply (drop_wrapped_run p) in E as (_ & _ & Hd); [by apply Hd|]. by rewrite Hv2, Hv'.
  - split_and!; [intros k Hk; rewrite Hfr, Hv by (by rewrite <- Hof); done|intros k; rewrite <- Hv; apply Hg|
      intros; by rewrite Hv2, Hv'|intros _; by rewrite Hv2, Hv'|intros ->; by destruct (Hno tt)].
Qed.

(** C27: a project leaves a seed after its clusters: a run for a live project touches no
    cluster and leaves the finalizer on it; a run for a deleted project leaves it as it
    is while there are clusters of the project, deletes all of them if it succeeds, and
    takes the finalizer when there are none.  Clusters of other projects are left alone,
    whatever the outcome. *)
Theorem project_cleanup request p w z w' : pw_project tt request w = Some p →
  Reconcile projects clusters retry event request w = (z, w') →
  (∀ k, ¬ of_project (om_name (pj_meta p)) w k → pw_cluster k w' = pw_cluster k w) ∧
  (deletion p = None → (∀ k, pw_cluster k w' = pw_cluster k w) ∧
     (z = Ok tt → ∃ y, pw_project tt request w' = Some y ∧ CleanupFinalizer ∈ finalizers y)) ∧
  (is_Some (deletion p) →
     ((∃ k, of_project (om_name (pj_meta p)) w k) → pw_project tt request w' = Some p) ∧
     (z = Ok tt → (∀ k, of_project (om_name (pj_meta p)) w k → gone (pw_cluster k w')) ∧
        ((∀ k, ¬ of_project (om_name (pj_meta p)) w k) → ∀ y, pw_project tt request w' = Some y → CleanupFinalizer ∉ finalizers y))).
Proof.
  intros Hp E. unfold Reconcile, with_object, mbind at 1, M_MBind at 1, M_bind at 1, try at 1 in E.
  destruct (c_get projects request w) as [o w1] eqn:Eg.
  assert (Hv : ∀ k, pw_cluster k w1 = pw_cluster k w) by (intros k; by apply (pw_get_cluster _ k) in Eg).
  assert (Hv' : ∀ i k, pw_project i k w1 = pw_project i k w) by (intros i k; by apply (as_get _ _ _ _ _ pw_store request i k) in Eg).
  assert (Hof : ∀ k, of_project (om_name (pj_meta p)) w1 k ↔ of_project (om_name (pj_meta p)) w k) by (intros k; unfold of_project; by rewrite Hv).
  destruct o as [p1|e|s|].
  2: { destruct (IsNotFound e) eqn:En; [by rewrite (as_get_missing _ _ _ _ _ pw_store _ _ _ _ Eg En) in Hp|].
       injection E as <- <-. split_and!; [intros; apply Hv|by split|intros _; split; [by rewrite Hv'|done]]. }
  2,3: injection E as <- <-; split_and!; [intros; apply Hv|by split|intros _; split; [by rewrite Hv'|done]].
  apply (as_get_ok _ _ _ _ _ pw_store) in Eg as [Hp1 Hk]. assert (p1 = p) as -> by congruence. clear Hp1. rewrite <- Hk, <- Hv' in Hp.
  apply reported_run in E as (w2 & E & Hw2).
  assert (Hc2 : ∀ k, pw_cluster k w' = pw_cluster k w2) by (intros k; destruct Hw2 as [->|[msg ->]]; [done|apply pw_event_cluster]).
  assert (Hp2 : ∀ i k, pw_project i k w' = pw_project i k w2) by (intros i k; destruct Hw2 as [->|[msg ->]]; [done|apply pw_event_project]).
  clear Hw2. unfold reconcile in E. unfold deletion at 1 2. simpl. destruct (om_deletionTimestamp (pj_meta p)) as [t|] eqn:Ed.
  - destruct (cleanup_run p w1 z w2 Hp E) as (Hfr & _ & _ & Hkeep & Hok). rewrite <- Hk. split_and!; [|done|intros _; split].
    + intros k Hn. rewrite Hc2, Hfr, Hv; [done|by rewrite Hof].
    + intros [k Hk']. rewrite Hp2. apply Hkeep. exists k. by apply Hof.
    + intros Hz. destruct (Hok Hz) as [H1 H2]. split; [intros k Hk'; rewrite Hc2; by apply H1, Hof|].
      intros Hnone y. rewrite Hp2. apply H2. intros k. rewrite Hof. apply Hnone.
  - assert (Hcl : ∀ k, pw_cluster k w' = pw_cluster k w).
    { intros k. rewrite Hc2, <- Hv. eapply (keeps_bind (pw_cluster k)); [|intros a; apply keeps_ret|exact E]. apply keeps_wrap, keeps_add_project. }
    split_and!; [intros; apply Hcl| |by intros [? [=]]]. split; [done|]. intros ->. apply bind_ok_inv in E as (y & w3 & E & [_ <-]%ret_ok_inv).
    pose proof (add_finalizer_run projects_alone pj_name pj_phase (object_key p) p CleanupFinalizer w1 (Ok y) w3 p eq_refl eq_refl) as Hadd.
    destruct (Hadd Hp Ed E) as [_ (x & Hx & _ & Hy)].
    exists x. rewrite <- Hk, Hp2. destruct (Hy y eq_refl) as (_ & _ & Hf). by split.
Qed.
End cleanup.

(** ** Presets *)

(** The annotations of the stored clusters: an update that succeeds stores those it was
    given. *)
Class PresetWorld {W} (clusters : Client W Cluster) (listPresetClusters : M W (list Cluster)) := {
  an_view : NamespacedName → W → option (gmap string string);
  an_listed : ∀ w l w', listPresetClusters w = (Ok l, w') → NoDup (map object_key l) ∧
    ∀ c, c ∈ l → an_view (object_key c) w' = Some (om_annotations (cl_meta c));
  an_update : ∀ c w x w', c_update clusters c w = (Ok x, w') → an_view (object_key c) w' = Some (om_annotations (cl_meta c)) ∧
    ∀ k, k ≠ object_key c → an_view k w' = an_view k w;
}.

Section presets.
Context {W : Type} (clusters : Client W Cluster) (listPresetClusters : M W (list Cluster)) `{PW : !PresetWorld clusters listPresetClusters}.
Import PresetInvalidation.

(** The annotations of a cluster after its preset is gone. *)
Definition invalidated (name : string) (a : gmap string string) : gmap string string :=
  if String.eqb (map_str a PresetNameAnnotation) name && negb (bool_decide (a = ∅))
  then <[PresetInvalidatedAnnotation := PresetDeleted]> a else a.

Lemma invalidate_loop name l : NoDup (map object_key l) → ∀ w w',
  (∀ c, c ∈ l → an_view (object_key c) w = Some (om_annotations (cl_meta c))) →
  for_range (λ _ c, invalidateCluster clusters name c) tt l w = (Ok tt, w') →
  (∀ c, c ∈ l → an_view (object_key c) w' = Some (invalidated name (om_annotations (cl_meta c)))) ∧
  (∀ k, k ∉ map object_key l → an_view k w' = an_view k w).
Proof.
  induction l as [|c l IH]; intros Hnd w w' Hl E; simpl in E.
  { injection E as <-. split; [by intros c ?%elem_of_nil|done]. }
  apply NoDup_cons in Hnd as [Hni Hnd]. apply bind_ok_inv in E as ([] & w1 & E1 & E).
  assert (Hone : an_view (object_key c) w1 = Some (invalidated name (om_annotations (cl_meta c))) ∧
    ∀ k, k ≠ object_key c → an_view k w1 = an_view k w).
  { unfold invalidateCluster, invalidated in *. destruct (_ && _); [|injection E1 as <-; split; [by apply Hl; left|done]].
    apply bind_ok_inv in E1 as (x & w2 & E1 & [_ <-]%ret_ok_inv). by apply an_update in E1. }
  destruct Hone as [Hc Hfr]. destruct (IH Hnd w1 w') as [H1 H2]; [|done|].
  { intros c' Hc'. rewrite Hfr; [by apply Hl; right|]. intros Heq. apply Hni. rewrite <- Heq. apply list_elem_of_fmap. by exists c'. }
  split; [|intros k [Hk Hk']%not_elem_of_cons; by rewrite H2, Hfr].
  intros c' [->|Hc']%elem_of_cons; [by rewrite H2|by apply H1].
Qed.

(** After a successful run for a deleted preset exactly the clusters of that preset
    carry the annotation that it was deleted, with all their other annotations. *)
Theorem preset_invalidation {Spec} (preset : SpecObject Spec) w w' l w1 : is_deleted preset = true →
  listPresetClusters w = (Ok l, w1) → reconcile clusters listPresetClusters preset w = (Ok tt, w') →
  ∀ c, c ∈ l → an_view (object_key c) w' = Some (invalidated (om_name (so_meta preset)) (om_annotations (cl_meta c))).
Proof.
  intros Hd El E. unfold reconcile in E. rewrite Hd in E. apply bind_ok_inv in E as (l' & w2 & El'%wrap_ok_inv & E).
  rewrite El in El'. injection El' as <- <-. destruct (an_listed _ _ _ El) as [Hnd Hl]. by apply (invalidate_loop _ _ Hnd) in E as [? _].
Qed.
End presets.

(** ** Instances of cluster templates *)

(** A server that answers every request about instances and templates, and whose calls
    leave the clusters alone. *)
Class InstanceWorld {W} (r : TemplateEnv W) := {
  iw_instance : NamespacedName → W → option ClusterTemplateInstance;
  iw_clusters : W → gmap NamespacedName Cluster;
  iw_get : ∀ k w, ∃ z w', c_get (te_instances r) k w = (z, w') ∧ iw_clusters w' = iw_clusters w ∧
    iw_instance k w' = iw_instance k w ∧ ∀ i, iw_instance k w = Some i → z = Ok i;
  iw_template : ∀ k k' w, ∃ t w', c_get (te_templates r) k w = (Ok t, w') ∧ iw_clusters w' = iw_clusters w ∧
    iw_instance k' w' = iw_instance k' w;
  iw_rand : ∀ n w, iw_clusters (te_rand r n w).2 = iw_clusters w ∧ ∀ k, iw_instance k (te_rand r n w).2 = iw_instance k w;
  iw_event : ∀ m msg w, iw_clusters (te_event r m msg w) = iw_clusters w ∧ ∀ k, iw_instance k (te_event r m msg w) = iw_instance k w;
  iw_patch : ∀ old new w, object_key new = object_key old → iw_instance (object_key old) w = Some old →
    ∃ x w', c_patch (te_instances r) old new w = (Ok x, w') ∧ iw_clusters w' = iw_clusters w ∧
      ∃ y, iw_instance (object_key old) w' = Some y ∧ cti_spec y = cti_spec new ∧ object_key y = object_key old ∧
        finalizers y = finalizers new ∧ deletion y = deletion new;
  iw_delete : ∀ i w, iw_instance (object_key i) w = Some i → finalizers i = [] →
    ∃ w', c_delete (te_instances r) i w = (Ok tt, w') ∧ iw_clusters w' = iw_clusters w ∧ iw_instance (object_key i) w' = None;
}.

Section instances.
Context `{SemverLib, StringSets} {W : Type} (r : TemplateEnv W) `{IW : !InstanceWorld r}.
Import TemplateInstances.

(** [n] runs for the same request. *)
Fixpoint many (n : nat) (k : NamespacedName) (w : W) : W :=
  match n with O => w | S n => many n k (Reconcile r k w).2 end.

Definition pending (k : NamespacedName) (n : nat) (w : W) : Prop :=
  ∃ i, iw_instance k w = Some i ∧ object_key i = k ∧ deletion i = None ∧ finalizers i = [] ∧ cti_replicas (cti_spec i) = Z.of_nat n.

(** The credentials of the template cannot be copied. *)
Context (k : NamespacedName) (no_credentials : ∀ t c w, ∃ e w', te_credentials r t c w = (Err e, w') ∧
  iw_clusters w' = iw_clusters w ∧ iw_instance k w' = iw_instance k w).

Lemma create_fails t i w : ∃ e w', createCluster r t i w = (Err e, w') ∧ iw_clusters w' = iw_clusters w ∧ iw_instance k w' = iw_instance k w.
Proof.
  unfold createCluster, read, mbind, M_MBind, M_bind. destruct (te_rand r 10 w) as [name w1] eqn:Er.
  pose proof (iw_rand 10 w) as [Hc Hi]. rewrite Er in Hc, Hi. simpl in Hc, Hi.
  destruct (no_credentials (ownTemplate t i) (genNewCluster (ownTemplate t i) i (te_workerName r) name) w1) as (e & w2 & -> & Hc2 & Hi2).
  exists e, w2. split; [done|]. split; congruence.
Qed.

Lemma vanish_step n w : pending k (S n) w → pending k n (Reconcile r k w).2 ∧ iw_clusters (Reconcile r k w).2 = iw_clusters w.
Proof.
  intros (i & Hi & Hk & Hd & Hf & Hn). destruct (iw_get k w) as (z & w1 & Eg & Hc1 & Hi1 & Hz). rewrite (Hz i Hi) in Eg. clear z Hz.
  destruct (iw_template (mkKey "" (cti_clusterTemplateID (cti_spec i))) k w1) as (t & w2 & Et & Hc2 & Hi2).
  destruct (create_fails t i w2) as (e & w3 & Ec & Hc3 & Hi3).
  assert (Hi3' : iw_instance (object_key i) w3 = Some i) by (rewrite Hk; congruence).
  destruct (iw_patch i (set_replicas (Z.of_nat n) i) w3 eq_refl Hi3') as (x & w4 & Ep & Hc4 & y & Hy & Hs & Hky & Hfy & Hdy).
  assert (Ew : reconcile r i w1 = (Err (ErrNew "failed to create desired number of clusters"), w4)).
  { unfold reconcile, is_deleted. simpl. unfold deletion in Hd. simpl in Hd. rewrite Hd. simpl. unfold createClusters.
    rewrite Hn. rewrite (proj2 (Z.ltb_lt 0 (Z.of_nat (S n)))) by lia. rewrite Nat2Z.id.
    unfold mbind, M_MBind, M_bind, wrap. rewrite Et. cbn [createReplicas]. unfold mbind, M_MBind, M_bind, try. rewrite Ec. unfold patchInstance.
    rewrite Hn. replace (Z.of_nat (S n) - (0 + 1)) with (Z.of_nat n) by lia. rewrite (proj2 (Z.eqb_neq (Z.of_nat n) (Z.of_nat (S n)))) by lia.
    unfold wrap. by rewrite Ep. }
  assert (Er : (Reconcile r k w).2 = te_event r (cti_meta i) (error_string (ErrNew "failed to create desired number of clusters")) w4).
  { unfold Reconcile, reported, mbind, M_MBind, M_bind, try. rewrite Eg. by rewrite Ew. }
  rewrite Er. destruct (iw_event (cti_meta i) (error_string (ErrNew "failed to create desired number of clusters")) w4) as [Hce Hie].
  split; [|congruence]. exists y. rewrite Hie, <- Hk. split_and!; try done; [by rewrite Hdy|by rewrite Hfy|by rewrite Hs].
Qed.

Lemma vanish_last w : pending k 0 w → iw_instance k (Reconcile r k w).2 = None ∧ iw_clusters (Reconcile r k w).2 = iw_clusters w.
Proof.
  intros (i & Hi & Hk & Hd & Hf & Hn). destruct (iw_get k w) as (z & w1 & Eg & Hc1 & Hi1 & Hz). rewrite (Hz i Hi) in Eg. clear z Hz.
  destruct (iw_delete i w1) as (w2 & Ed & Hc2 & Hi2); [by rewrite Hk, Hi1|done|].
  assert (Ew : reconcile r i w1 = (Ok tt, w2)).
  { unfold reconcile, is_deleted. simpl. unfold deletion in Hd. simpl in Hd. rewrite Hd. simpl. unfold createClusters. rewrite Hn. exact Ed. }
  assert (Er : (Reconcile r k w).2 = w2) by (unfold Reconcile, reported, mbind, M_MBind, M_bind, try; rewrite Eg, Ew; done).
  rewrite Er, <- Hk. split; [done|congruence].
Qed.

(** Each failed attempt to create a cluster is counted as a created one: when the
    credentials of a template cannot be copied, every run takes one from the number of
    replicas that are left although there is no cluster, and one more run removes the
    instance.  The clusters that were asked for are never created. *)
Theorem template_instances_vanish n w : pending k n w →
  iw_instance k (many (S n) k w) = None ∧ iw_clusters (many (S n) k w) = iw_clusters w.
Proof.
  revert w. induction n as [|n IH]; intros w Hp; [by apply vanish_last|].
  apply vanish_step in Hp as [Hp Hc]. destruct (IH _ Hp) as [H1 H2]. split; [done|]. by rewrite <- Hc.
Qed.
End instances.
