(* ===== verification/Constraints.v ===== *)
(** * Constraints: from the seed to the user clusters

    The controllers that carry Gatekeeper constraints from the seed to the user clusters:
    [constraint-controller] copies a constraint of the seed to the namespaces of the
    clusters, [constraint-template-controller] puts templates into user clusters, and
    [constraint-syncer], which runs beside a user cluster, turns the copies into Gatekeeper
    constraints.  The selection of clusters of the Enterprise Edition is [pkg/ee]. *)

From S2P Require Import Prelude ResourceNames Kube Semver Net CloudApi ClusterApi Helper Corev1 Field ClusterDefaulting Rbac RbacSync Reconciling ClusterDeletion MasterApi MasterSync ProjectMembers SeedProjects.

(** ** JSON

    Values of [map[string]interface{}], with numbers as they are written. *)
#[warnings="-register-all"]
Inductive JSON :=
| JNull
| JBool (b : bool)
| JNumber (literal : string)
| JString (s : string)
| JArray (items : list JSON)
| JObject (fields : list (string * JSON)).

Definition json_get (k : string) (fields : list (string * JSON)) : option JSON :=
  snd <$> List.find (λ f, String.eqb k f.1) fields.
Fixpoint json_put (k : string) (v : JSON) (fields : list (string * JSON)) : list (string * JSON) :=
  match fields with
  | [] => [(k, v)]
  | (k', v') :: rest => if String.eqb k k' then (k, v) :: rest else (k', v') :: json_put k v rest
  end.

Lemma json_get_put k v fields k' : json_get k' (json_put k v fields) = if String.eqb k' k then Some v else json_get k' fields.
Proof.
  unfold json_get. induction fields as [|[a b] l IH]; simpl; [by destruct (String.eqb k' k)|].
  destruct (String.eqb k a) eqn:E; simpl; [apply String.eqb_eq in E as ->; by destruct (String.eqb k' a)|].
  destruct (String.eqb k' a) eqn:E'; [|done]. apply String.eqb_eq in E' as ->. by rewrite String.eqb_sym, E.
Qed.

(** [unstructured.SetNestedField] with a path of two names. *)
Definition SetNestedField (object : list (string * JSON)) (value : JSON) (outer inner : string) : outcome (list (string * JSON)) :=
  match json_get outer object with
  | Some (JObject fields) => Ok (json_put outer (JObject (json_put inner value fields)) object)
  | Some _ => Err (ErrNew "value cannot be set because it is not a map[string]interface{}")
  | None => Ok (json_put outer (JObject [(inner, value)]) object)
  end.

(** ** Objects *)

Record LabelSelectorRequirement := mkRequirement { lr_key : string; lr_operator : string; lr_values : list string }.
Record LabelSelector := mkLabelSelector { ls_matchLabels : list (string * string); ls_matchExpressions : list LabelSelectorRequirement }.
Record ConstraintSelector := mkConstraintSelector { sel_providers : list string; sel_labelSelector : LabelSelector }.
Record ConstraintKindMatch := mkKindMatch { km_kinds : list string; km_apiGroups : list string }.
Record ConstraintMatch := mkMatch {
  ma_kinds : list ConstraintKindMatch;
  ma_scope : string;
  ma_namespaces : list string;
  ma_excludedNamespaces : list string;
  ma_labelSelector : LabelSelector;
  ma_namespaceSelector : LabelSelector;
}.

(** The raw messages of [Parameters] are kept as the values they stand for. *)
Record ConstraintSpec := mkConstraintSpec {
  cts_constraintType : string;
  cts_disabled : bool;
  cts_match : ConstraintMatch;
  cts_parameters : list (string * JSON);
  cts_selector : ConstraintSelector;
}.
Abbreviation Constraint := (SpecObject ConstraintSpec).

Definition emptySelector : LabelSelector := mkLabelSelector [] [].
Definition empty_constraint : Constraint :=
  mkSpecObject emptyMeta (mkConstraintSpec "" false (mkMatch [] "" [] [] emptySelector emptySelector) [] (mkConstraintSelector [] emptySelector)).

(** Fields of JSON that are left out when they are empty. *)
Definition omitempty (k : string) (empty : bool) (v : JSON) : list (string * JSON) := if empty then [] else [(k, v)].
Definition strings_json (l : list string) : JSON := JArray (map JString l).
Definition requirement_json (q : LabelSelectorRequirement) : JSON :=
  JObject ([("key", JString (lr_key q)); ("operator", JString (lr_operator q))] ++
           omitempty "values" (is_nil (lr_values q)) (strings_json (lr_values q))).
Definition selector_json (s : LabelSelector) : JSON :=
  JObject (omitempty "matchLabels" (is_nil (ls_matchLabels s)) (JObject (map (λ f, (f.1, JString f.2)) (ls_matchLabels s))) ++
           omitempty "matchExpressions" (is_nil (ls_matchExpressions s)) (JArray (map requirement_json (ls_matchExpressions s)))).
Definition kind_json (k : ConstraintKindMatch) : JSON :=
  JObject (omitempty "kinds" (is_nil (km_kinds k)) (strings_json (km_kinds k)) ++
           omitempty "apiGroups" (is_nil (km_apiGroups k)) (strings_json (km_apiGroups k))).
(** [unmarshallToJSONMap] at a [Match]: a struct is written even when it is empty. *)
Definition match_json (m : ConstraintMatch) : list (string * JSON) :=
  omitempty "kinds" (is_nil (ma_kinds m)) (JArray (map kind_json (ma_kinds m))) ++
  omitempty "scope" (String.eqb (ma_scope m) "") (JString (ma_scope m)) ++
  omitempty "namespaces" (is_nil (ma_namespaces m)) (strings_json (ma_namespaces m)) ++
  omitempty "excludedNamespaces" (is_nil (ma_excludedNamespaces m)) (strings_json (ma_excludedNamespaces m)) ++
  [("labelSelector", selector_json (ma_labelSelector m)); ("namespaceSelector", selector_json (ma_namespaceSelector m))].

(** [isOPAEnabled]: the integration and its switch. *)
Definition isOPAEnabled (userCluster : Cluster) : bool := bool_decide (sp_rest (cl_spec userCluster) !! "opaIntegration.enabled" = Some "true").

(** [metav1.LabelSelectorAsSelector]. *)
Abbreviation SelectorOf := (LabelSelector → outcome (gmap string string → bool)).

(** ** Constraints of the seed *)

Record ConstraintEnv (W : Type) := mkConstraintEnv {
  ce_constraints : Client W Constraint;
  ce_listClusters : M W (list Cluster);
  ce_selector : SelectorOf;
  ce_ee : bool;
  ce_equal : Constraint → Constraint → bool;
  ce_poll : M W bool → M W unit;
  ce_event : ObjectMeta → string → W → W;
}.
Arguments ce_constraints {W}.
Arguments ce_listClusters {W}.
Arguments ce_selector {W}.
Arguments ce_ee {W}.
Arguments ce_equal {W}.
Arguments ce_poll {W}.
Arguments ce_event {W}.

Module SeedConstraints.
Definition finalizer : string := "kubermatic.k8c.io/cleanup-kubermatic-usercluster-ns-default-constraints".
Definition Key : string := "default".
Inductive Action := AddAction | RemoveAction.

Definition opaPredicate (cluster : Cluster) : bool := isOPAEnabled cluster.
Definition ByLabel (key : string) (o : ObjectMeta) : bool :=
  match om_labels o !! key with Some existingValue => String.eqb existingValue (om_name o) | None => false end.

Definition addLabel (constraint : Constraint) : Constraint :=
  set_meta (set_labels (<[Key := om_name (so_meta constraint)]> (om_labels (so_meta constraint))) (so_meta constraint)) constraint.
Definition constraintCreatorGetter (constraint c : Constraint) : outcome Constraint :=
  Ok (addLabel (mkSpecObject (set_name (om_name (so_meta constraint)) (so_meta c)) (so_spec constraint))).

(** One cluster of [FilterClustersForConstraint], with the desired and the unwanted ones
    so far. *)
Definition filterCluster (selector : gmap string string → bool) (providers : gset string)
    (acc : list Cluster * list Cluster) (cluster : Cluster) : outcome (list Cluster * list Cluster) :=
  let '(desired, unwanted) := acc in
  if negb (selector (om_labels (cl_meta cluster))) then Ok (desired, unwanted ++ [cluster]) else
  name ← ClusterCloudProviderName (sp_cloud (cl_spec cluster));
  if negb (bool_decide (size providers = 0%nat)) && negb (bool_decide (name ∈ providers))
  then Ok (desired, unwanted ++ [cluster]) else Ok (desired ++ [cluster], unwanted).
Fixpoint filterClusters (selector : gmap string string → bool) (providers : gset string)
    (acc : list Cluster * list Cluster) (clusters : list Cluster) : outcome (list Cluster * list Cluster) :=
  match clusters with
  | [] => Ok acc
  | c :: l => acc ← filterCluster selector providers acc c; filterClusters selector providers acc l
  end.

Section controller.
Context `{StringSets} {W : Type} (r : ConstraintEnv W).

Definition FilterClustersForConstraint (constraint : Constraint) (clusters : list Cluster) : outcome (list Cluster * list Cluster) :=
  let sel := cts_selector (so_spec constraint) in
  selector ← outcome_wrap "error converting Constraint label selector to a kubernetes selector" (ce_selector r (sel_labelSelector sel));
  filterClusters selector (NewString (sel_providers sel)) ([], []) clusters.

(** [wrappers_ce.go] and [wrappers_ee.go]. *)
Definition filterClustersForConstraint (constraint : Constraint) (clusters : list Cluster) : outcome (list Cluster * list Cluster) :=
  if ce_ee r then FilterClustersForConstraint constraint clusters else Ok (clusters, []).

Definition patchFinalizer (constraint : Constraint) (action : Action) : M W Constraint :=
  let m := so_meta constraint in
  let m := match action with AddAction => AddFinalizer [finalizer] m | RemoveAction => RemoveFinalizer [finalizer] m end in
  wrap "failed to change constraint finalizer" (c_patch (ce_constraints r) constraint (mkSpecObject m (so_spec constraint))).

(** The clusters that are served. *)
Definition served (userCluster : Cluster) : bool :=
  negb (sp_pause (cl_spec userCluster)) && negb (String.eqb (cs_namespaceName (cl_status userCluster)) "") &&
  negb (is_deleted userCluster) && isOPAEnabled userCluster.
Definition syncAllClustersNS (clusters : list Cluster) (actionFunc : string → M W unit) : M W unit :=
  for_range (λ _ userCluster,
    if sp_pause (cl_spec userCluster) then mret tt else
    if String.eqb (cs_namespaceName (cl_status userCluster)) "" then mret tt else
    if is_deleted userCluster then mret tt else
    if isOPAEnabled userCluster
    then wrap "failed syncing constraint for cluster namespace" (actionFunc (cs_namespaceName (cl_status userCluster)))
    else mret tt) tt clusters.

Definition ReconcileKubermaticV1Constraints (creators : list (string * (Constraint → outcome Constraint))) (namespace : string) : M W unit :=
  for_range (λ _ '(name, create), wrap "failed to ensure Constraint"
    (EnsureNamedObject (ce_constraints r) (ce_equal r) id (ce_poll r) (mkKey namespace name) create empty_constraint false)) tt creators.

Definition ensureConstraint (constraint : Constraint) (clusters : list Cluster) : M W unit :=
  syncAllClustersNS clusters
    (ReconcileKubermaticV1Constraints [(om_name (so_meta constraint), constraintCreatorGetter constraint)]).

Definition cleanupOne (constraint : Constraint) (namespace : string) : M W unit :=
  got ← try (c_get (ce_constraints r) (mkKey namespace (om_name (so_meta constraint))));
  match got with
  | inl e => if IsNotFound e then mret tt else throw e
  | inr c => ignoreNotFound (c_delete (ce_constraints r) c)
  end.
Definition cleanupConstraint (constraint : Constraint) (clusters : list Cluster) : M W unit :=
  syncAllClustersNS clusters (cleanupOne constraint).

Definition reconcile (constraint : Constraint) : M W unit :=
  clusterList ← wrap "failed listing clusters" (ce_listClusters r);
  '(desiredClusters, unwantedClusters) ← wrap "failed listing clusters" (lift (filterClustersForConstraint constraint clusterList));
  if is_deleted constraint then
    if negb (HasFinalizer (so_meta constraint) [finalizer]) then mret tt else
    _ ← cleanupConstraint constraint desiredClusters;
    _ ← patchFinalizer constraint RemoveAction;
    mret tt
  else
    constraint ← (if negb (HasFinalizer (so_meta constraint) [finalizer]) then patchFinalizer constraint AddAction else mret constraint);
    _ ← cleanupConstraint constraint unwantedClusters;
    ensureConstraint constraint desiredClusters.

(** The error of a constraint that is gone is wrapped although it is ignored: what comes
    back is an error with a nil cause. *)
Definition Reconcile (request : NamespacedName) : M W unit :=
  got ← try (c_get (ce_constraints r) request);
  match got with
  | inl e => throw (if IsNotFound e then ErrNew "failed to get constraint : %!w(<nil>)" else ErrWrap "failed to get constraint" e)
  | inr constraint => reported (ce_event r) (so_meta constraint) (reconcile constraint)
  end.

(** [enqueueConstraints]: the requests of a change of a cluster; without a list there are
    none. *)
Definition enqueueConstraints (namespace : string) : M W (list NamespacedName) :=
  got ← try (c_list (ce_constraints r) (mkListOptions namespace []));
  match got with
  | inl _ => mret []
  | inr items => mret (map object_key items)
  end.
End controller.
End SeedConstraints.

(** ** Constraint templates *)

Record ConstraintTemplateSpec (CRD Targets : Type) := mkTemplateSpec { tsp_crd : CRD; tsp_targets : Targets; tsp_selector : ConstraintSelector }.
Arguments mkTemplateSpec {CRD Targets}.
Arguments tsp_crd {CRD Targets}.
Arguments tsp_targets {CRD Targets}.
Arguments tsp_selector {CRD Targets}.

(** Clients of user clusters are kept by the name of the cluster: [tc_cached] and
    [tc_remember] are the map [userClusterClients] of the reconciler, [tc_connect] makes
    a new client.  [tc_list] lists the clusters of the worker, in the Enterprise Edition
    those that the selector matches as well. *)
Record TemplateSyncEnv (W Conn CRD Targets : Type) := mkTemplateSyncEnv {
  tc_templates : Client W (SpecObject (ConstraintTemplateSpec CRD Targets));
  tc_list : option (gmap string string → bool) → M W (list Cluster);
  tc_selector : SelectorOf;
  tc_ee : bool;
  tc_cached : W → string → option Conn;
  tc_remember : string → Conn → W → W;
  tc_connect : Cluster → M W Conn;
  tc_user : Conn → Client W (SpecObject (CRD * Targets));
  tc_empty : CRD * Targets;
  tc_retry : Retry W;
  tc_equal : SpecObject (CRD * Targets) → SpecObject (CRD * Targets) → bool;
  tc_poll : M W bool → M W unit;
  tc_event : ObjectMeta → string → W → W;
}.
Arguments tc_templates {W Conn CRD Targets}.
Arguments tc_list {W Conn CRD Targets}.
Arguments tc_selector {W Conn CRD Targets}.
Arguments tc_ee {W Conn CRD Targets}.
Arguments tc_cached {W Conn CRD Targets}.
Arguments tc_remember {W Conn CRD Targets}.
Arguments tc_connect {W Conn CRD Targets}.
Arguments tc_user {W Conn CRD Targets}.
Arguments tc_empty {W Conn CRD Targets}.
Arguments tc_retry {W Conn CRD Targets}.
Arguments tc_equal {W Conn CRD Targets}.
Arguments tc_poll {W Conn CRD Targets}.
Arguments tc_event {W Conn CRD Targets}.

Module UserClusterTemplates.
Definition GatekeeperConstraintTemplateCleanupFinalizer : string := "kubermatic.k8c.io/cleanup-gatekeeper-constraint-templates".

Section controller.
Context `{StringSets} {W Conn CRD Targets : Type} (r : TemplateSyncEnv W Conn CRD Targets).
Abbreviation Template := (SpecObject (ConstraintTemplateSpec CRD Targets)).

(** [filterProvider]: a cluster without a provider name is left out. *)
Definition filterProvider (ct : Template) (clusters : list Cluster) : list Cluster :=
  let providers := sel_providers (tsp_selector (so_spec ct)) in
  if is_nil providers then clusters else
  List.filter (λ cluster, match ClusterCloudProviderName (sp_cloud (cl_spec cluster)) with
                          | Ok name => bool_decide (name ∈ NewString providers)
                          | _ => false
                          end) clusters.
Definition GetClustersForConstraintTemplate (ct : Template) : M W (list Cluster) :=
  selector ← wrap "error converting Constraint Template label selector to a kubernetes selector"
               (lift (tc_selector r (sel_labelSelector (tsp_selector (so_spec ct)))));
  clusters ← wrap "failed listing clusters" (tc_list r (Some selector));
  mret (filterProvider ct clusters).
Definition getClustersForConstraintTemplate (ct : Template) : M W (list Cluster) :=
  if tc_ee r then GetClustersForConstraintTemplate ct else wrap "failed listing clusters" (tc_list r None).

Definition userClusterClient (userCluster : Cluster) : M W Conn :=
  cached ← read (λ w, (tc_cached r w (om_name (cl_meta userCluster)), w));
  match cached with
  | Some h => mret h
  | None =>
      h ← wrap "error getting client for cluster" (tc_connect r userCluster);
      _ ← emit (tc_remember r (om_name (cl_meta userCluster)) h);
      mret h
  end.

Definition syncAllClusters (constraintTemplate : Template) (action : Client W (SpecObject (CRD * Targets)) → M W unit) : M W unit :=
  clusterList ← wrap "failed listing clusters" (getClustersForConstraintTemplate constraintTemplate);
  for_range (λ _ userCluster,
    if sp_pause (cl_spec userCluster) then mret tt else
    if negb (ControlPlaneHealthy (cs_extendedHealth (cl_status userCluster))) then mret tt else
    if negb (isOPAEnabled userCluster) then mret tt else
    h ← userClusterClient userCluster;
    wrap "failed syncing constraint template for cluster" (action (tc_user r h))) tt clusterList.

Definition constraintTemplateCreatorGetter (kubeCT : Template) (ct : SpecObject (CRD * Targets)) : outcome (SpecObject (CRD * Targets)) :=
  Ok (mkSpecObject (set_name (om_name (so_meta kubeCT)) (so_meta ct)) (tsp_crd (so_spec kubeCT), tsp_targets (so_spec kubeCT))).
Definition ReconcileConstraintTemplates (creators : list (string * (SpecObject (CRD * Targets) → outcome (SpecObject (CRD * Targets)))))
    (namespace : string) (client : Client W (SpecObject (CRD * Targets))) : M W unit :=
  for_range (λ _ '(name, create), wrap "failed to ensure ConstraintTemplate"
    (EnsureNamedObject client (tc_equal r) id (tc_poll r) (mkKey namespace name) create (mkSpecObject emptyMeta (tc_empty r)) false)) tt creators.

Definition reconcile (constraintTemplate : Template) : M W unit :=
  match om_deletionTimestamp (so_meta constraintTemplate) with
  | Some _ =>
      if negb (HasFinalizer (so_meta constraintTemplate) [GatekeeperConstraintTemplateCleanupFinalizer]) then mret tt else
      _ ← syncAllClusters constraintTemplate (λ client, ignoreNotFound
            (c_delete client (mkSpecObject (set_name (om_name (so_meta constraintTemplate)) emptyMeta) (tc_empty r))));
      _ ← TryRemoveFinalizer (tc_templates r) (tc_retry r) constraintTemplate [GatekeeperConstraintTemplateCleanupFinalizer];
      mret tt
  | None =>
      constraintTemplate ← wrap "failed to add finalizer"
        (TryAddFinalizer (tc_templates r) (tc_retry r) constraintTemplate [GatekeeperConstraintTemplateCleanupFinalizer]);
      syncAllClusters constraintTemplate
        (ReconcileConstraintTemplates [(om_name (so_meta constraintTemplate), constraintTemplateCreatorGetter constraintTemplate)] "")
  end.

Definition Reconcile (request : NamespacedName) : M W unit :=
  got ← try (c_get (tc_templates r) request);
  match got with
  | inl e => if IsNotFound e then mret tt else throw (ErrWrap "failed to get constraint template" e)
  | inr constraintTemplate => reported (tc_event r) (so_meta constraintTemplate) (reconcile constraintTemplate)
  end.

(** [enqueueAllConstraintTemplates]: the requests of a change of a cluster. *)
Definition enqueueAllConstraintTemplates (cluster : Cluster) : M W (list NamespacedName) :=
  if negb (isOPAEnabled cluster) then mret [] else
  got ← try (c_list (tc_templates r) (mkListOptions "" []));
  match got with
  | inl _ => mret []
  | inr items => mret (map (λ ct, mkKey "" (om_name (so_meta ct))) items)
  end.
End controller.
End UserClusterTemplates.

(** ** Constraints of a user cluster *)

Record Unstructured := mkUnstructured { un_meta : ObjectMeta; un_object : list (string * JSON) }.
#[global] Program Instance Unstructured_object : Object Unstructured := {|
  obj_meta := un_meta;
  set_meta m u := mkUnstructured m (un_object u);
|}.
Next Obligation. done. Qed.

(** [cy_user] is the client of the user cluster at one kind of Gatekeeper constraints;
    [cy_decode] is [json.Unmarshal] into a map. *)
Record ConstraintSyncEnv (W : Type) := mkConstraintSyncEnv {
  cy_seed : Client W Constraint;
  cy_user : string → Client W Unstructured;
  cy_paused : M W bool;
  cy_ee : bool;
  cy_decode : string → outcome JSON;
  cy_retry : Retry W;
  cy_equal : Unstructured → Unstructured → bool;
  cy_poll : M W bool → M W unit;
  cy_event : ObjectMeta → string → W → W;
}.
Arguments cy_seed {W}.
Arguments cy_user {W}.
Arguments cy_paused {W}.
Arguments cy_ee {W}.
Arguments cy_decode {W}.
Arguments cy_retry {W}.
Arguments cy_equal {W}.
Arguments cy_poll {W}.
Arguments cy_event {W}.

Module ConstraintSyncer.
Definition constraintAPIVersion : string := "constraints.gatekeeper.sh/v1beta1".
Definition spec : string := "spec".
Definition parametersField : string := "parameters".
Definition matchField : string := "match".
Definition rawJsonField : string := "rawJSON".

Section controller.
Context `{StringSets} {W : Type} (r : ConstraintSyncEnv W).

(** The parameters that a constraint gets, when it has any. *)
Definition parameters (params : list (string * JSON)) : outcome JSON :=
  match json_get rawJsonField params with
  | None => Ok (JObject params)
  | Some (JString rawJson) => outcome_wrap "error unmarshalling raw json parameters" (cy_decode r rawJson)
  | Some _ => Err (ErrNew "error converting raw json parameters")
  end.

Definition constraintCreatorGetter (constraint : Constraint) (u : Unstructured) : outcome Unstructured :=
  let s := so_spec constraint in
  object ← (if is_nil (cts_parameters s) then Ok (un_object u) else
              params ← parameters (cts_parameters s);
              outcome_wrap "error setting constraint nested parameters" (SetNestedField (un_object u) params spec parametersField));
  object ← outcome_wrap "error setting constraint nested spec" (SetNestedField object (JObject (match_json (cts_match s))) spec matchField);
  Ok (mkUnstructured (un_meta u) object).

(** The empty object has its kind and API version. *)
Definition empty_unstructured (kind : string) : Unstructured :=
  mkUnstructured emptyMeta [("kind", JString kind); ("apiVersion", JString constraintAPIVersion)].
Definition ReconcileUnstructureds (creators : list (string * string * (Unstructured → outcome Unstructured))) (namespace : string) : M W unit :=
  for_range (λ _ '(name, kind, create),
    if String.eqb kind "" then throw (ErrNew "both Kind and apiVersion must be set") else
    wrap "failed to ensure Unstructured"
      (EnsureNamedObject (cy_user r kind) (cy_equal r) id (cy_poll r) (mkKey namespace name) create (empty_unstructured kind) false)) tt creators.

Definition createConstraint (constraint : Constraint) : M W unit :=
  wrap "failed to reconcile constraint" (ReconcileUnstructureds
    [(om_name (so_meta constraint), cts_constraintType (so_spec constraint), constraintCreatorGetter constraint)] "").
Definition cleanupConstraint (constraint : Constraint) : M W unit :=
  let kind := cts_constraintType (so_spec constraint) in
  wrap "failed to delete constraint" (ignoreNotFound
    (c_delete (cy_user r kind) (set_meta (set_name (om_name (so_meta constraint)) emptyMeta) (empty_unstructured kind)))).

Definition handleDeletion (constraint : Constraint) : M W unit :=
  _ ← (if HasFinalizer (so_meta constraint) [GatekeeperConstraintCleanupFinalizer] then cleanupConstraint constraint else mret tt);
  _ ← TryRemoveFinalizer (cy_seed r) (cy_retry r) constraint [GatekeeperConstraintCleanupFinalizer];
  mret tt.
Definition install (constraint : Constraint) : M W unit :=
  constraint ← wrap "failed to add finalizer" (TryAddFinalizer (cy_seed r) (cy_retry r) constraint [GatekeeperConstraintCleanupFinalizer]);
  createConstraint constraint.

Definition reconcile_ce (constraint : Constraint) : M W unit :=
  match om_deletionTimestamp (so_meta constraint) with
  | Some _ => handleDeletion constraint
  | None => install constraint
  end.
Definition reconcile_ee (constraint : Constraint) : M W unit :=
  let disabled := cts_disabled (so_spec constraint) in
  _ ← (if disabled then cleanupConstraint constraint else mret tt);
  match om_deletionTimestamp (so_meta constraint) with
  | Some _ => handleDeletion constraint
  | None => if negb disabled then install constraint else mret tt
  end.

Definition reconcile (constraint : Constraint) : M W unit :=
  if cy_ee r then reconcile_ee constraint else reconcile_ce constraint.

Definition Reconcile (request : NamespacedName) : M W unit :=
  paused ← wrap "failed to check cluster pause status" (cy_paused r);
  if (paused : bool) then mret tt else
  got ← try (c_get (cy_seed r) request);
  match got with
  | inl e => if IsNotFound e then mret tt else throw (ErrWrap "failed to get constraint" e)
  | inr constraint => reported (cy_event r) (so_meta constraint) (reconcile constraint)
  end.
End controller.
End ConstraintSyncer.
