(* ===== verification/ConstraintsSpec.v ===== *)
(** * Constraints: theorems *)

From S2P Require Import Prelude ResourceNames Kube Semver Net CloudApi ClusterApi Helper Corev1 Field ClusterDefaulting Rbac RbacSync Reconciling ClusterDeletion MasterApi MasterSync MasterSyncSpec ProjectMembers SeedProjects SeedProjectsSpec Constraints.

(** ** Constraints of the seed *)

(** What is copied: the spec, and the label that marks a copy. *)
Definition constraint_main (c : Constraint) := (so_spec c, om_labels (so_meta c) !! SeedConstraints.Key).
Definition cluster_ns (c : Cluster) : string := cs_namespaceName (cl_status c).
Definition has_namespace (c : Cluster) : bool := negb (String.eqb (cluster_ns c) "").

(** The clusters that take constraints: not paused, with a namespace, not being deleted,
    and with the OPA integration switched on. *)
Definition takes_constraints (c : Cluster) : Prop :=
  sp_pause (cl_spec c) = false ∧ cluster_ns c ≠ "" ∧ PTime_IsZero (om_deletionTimestamp (cl_meta c)) = true ∧
  sp_rest (cl_spec c) !! "opaIntegration.enabled" = Some "true".

(** The clusters that a constraint selects: all of them in the Community Edition; in the
    Enterprise Edition those whose labels match its label selector and whose cloud
    provider is one of its providers, if it names any. *)
Definition selects {W} (r : ConstraintEnv W) (x : Constraint) (c : Cluster) : Prop :=
  ce_ee r = true →
  let sel := cts_selector (so_spec x) in
  (∃ matches, ce_selector r (sel_labelSelector sel) = Ok matches ∧ matches (om_labels (cl_meta c)) = true) ∧
  ∃ provider, ClusterCloudProviderName (sp_cloud (cl_spec c)) = Ok provider ∧ (sel_providers sel = [] ∨ provider ∈ sel_providers sel).

(** The constraints of a seed and its clusters, whose namespaces are their own.  A merge
    patch of the finalizers stores the new list; the object goes when it is deleted and
    the list is empty. *)
Class ConstraintWorld {W} (r : ConstraintEnv W) := {
  kw_view : unit → NamespacedName → W → option Constraint;
  kw_clusters : W → list Cluster;
  kw_namespace : string;
  kw_store : at_store kw_view constraint_main no_status (ce_constraints r) tt;
  kw_patch : ∀ old new w z w', c_patch (ce_constraints r) old new w = (z, w') → kw_view tt (object_key old) w = Some old →
    object_key new = object_key old → so_spec new = so_spec old → elsewhere kw_view tt (object_key old) w w' ∧
    ((kw_view tt (object_key old) w' = Some old ∧ ∀ x, z ≠ Ok x) ∨
     (kw_view tt (object_key old) w' = None ∧ finalizers new = [] ∧ is_Some (deletion old)) ∨
     ∃ y, kw_view tt (object_key old) w' = Some y ∧ so_spec y = so_spec old ∧ finalizers y = finalizers new ∧
       deletion y = deletion old ∧ object_key y = object_key old ∧ ∀ v, z = Ok v → v = y);
  kw_list : ∀ i k, keeps (kw_view i k) (ce_listClusters r);
  kw_listed : ∀ w l w', ce_listClusters r w = (Ok l, w') → l = kw_clusters w;
  kw_get_clusters : ∀ k, keeps kw_clusters (c_get (ce_constraints r) k);
  kw_distinct : ∀ w, NoDup (map cluster_ns (List.filter has_namespace (kw_clusters w)));
  kw_apart : ∀ w c, c ∈ kw_clusters w → cluster_ns c ≠ kw_namespace;
  kw_equal : ∀ a b, ce_equal r a b = true → constraint_main a = constraint_main b;
  kw_poll : ∀ A (v : W → A) cond, keeps v cond → keeps v (ce_poll r cond);
  kw_event : ∀ m msg i k w, kw_view i k (ce_event r m msg w) = kw_view i k w;
}.

#[program] Definition single_attempt {W} : Retry W := {| RetryOnConflict A f := f |}.
Next Obligation. done. Qed.
Next Obligation. intros W A f w z w' E. exists w. by split; [|intros P _ HP]. Qed.

Lemma for_range_filter {W A} (p : A → bool) (f : A → M W unit) l : ∀ w,
  for_range (λ _ a, if p a then f a else mret tt) tt l w = for_range (λ _ a, f a) tt (List.filter p l) w.
Proof.
  induction l as [|a l IH]; intros w; [done|]. simpl. destruct (p a); simpl; unfold mbind, M_MBind, M_bind; [|apply IH].
  destruct (f a w) as [[[]| | |] w1]; [apply IH|done..].
Qed.

Section seed_constraints.
Context `{StringSets} {W : Type} (r : ConstraintEnv W) `{KW : !ConstraintWorld r}.
Import SeedConstraints.

(** The lemmas on synchronizers, for the constraints; the controller does not retry. *)
Abbreviation constraints_alone := (alone (ce_constraints r) single_attempt (ce_equal r) (ce_poll r)).
#[local] Instance constraints_world : SyncWorld (I := unit) constraints_alone constraint_main no_status.
Proof.
  refine (alone_world _ _ _ _ _ _ _ tt kw_store kw_poll kw_equal _ _); [|done].
  intros m o Hl _. unfold constraint_main. simpl in *. by rewrite Hl.
Defined.

(** *** The selection of clusters *)

Lemma filterClusters_spec sel prov l : ∀ acc d u, filterClusters sel prov acc l = Ok (d, u) →
  ∃ d' u', d = acc.1 ++ d' ∧ u = acc.2 ++ u' ∧ l ≡ₚ d' ++ u' ∧
    ∀ c, c ∈ d' ↔ c ∈ l ∧ sel (om_labels (cl_meta c)) = true ∧
      ∃ n, ClusterCloudProviderName (sp_cloud (cl_spec c)) = Ok n ∧ (prov = ∅ ∨ n ∈ prov).
Proof.
  induction l as [|c l IH]; intros [d0 u0] d u E; cbn [filterClusters] in E.
  { injection E as <- <-. exists [], []. rewrite !app_nil_r. split_and!; [done..|]. intros c. set_solver. }
  unfold filterCluster in E. destruct (sel (om_labels (cl_meta c))) eqn:Es.
  2: { cbn in E. destruct (IH _ _ _ E) as (d' & u' & -> & -> & Hp & Hd). exists d', (c :: u'). simpl. rewrite <- app_assoc. split_and!; [done..|by rewrite Hp, Permutation_middle|].
       intros c'. rewrite Hd, elem_of_cons. split; [naive_solver|]. intros ([->|?] & ? & ?); [congruence|done]. }
  cbn in E. destruct (ClusterCloudProviderName _) as [n| | |] eqn:En; try done. cbn in E.
  destruct (negb (bool_decide (size prov = 0%nat)) && negb (bool_decide (n ∈ prov))) eqn:Ep;
    destruct (IH _ _ _ E) as (d' & u' & -> & -> & Hp & Hd).
  - exists d', (c :: u'). simpl. rewrite <- app_assoc. split_and!; [done..|by rewrite Hp, Permutation_middle|].
    intros c'. rewrite Hd, elem_of_cons. split; [naive_solver|]. intros ([->|?] & ? & m & Hm & Hmp); [|by split_and!; [..|exists m]].
    apply andb_true_iff in Ep as [H1 H2]. apply negb_true_iff, bool_decide_eq_false in H1, H2. assert (m = n) as -> by congruence.
    destruct Hmp as [->|?]; [|done]. by rewrite size_empty in H1.
  - exists (c :: d'), u'. simpl. rewrite <- app_assoc. split_and!; [done..|by rewrite Hp|].
    intros c'. rewrite !elem_of_cons, Hd. split; [|naive_solver]. intros [->|?]; [|naive_solver]. split_and!; [by left|done|].
    exists n. split; [done|]. apply andb_false_iff in Ep as [H1|H2]; [left; apply negb_false_iff, bool_decide_eq_true in H1; by apply size_empty_inv, leibniz_equiv in H1|].
    right. by apply negb_false_iff, bool_decide_eq_true in H2.
Qed.

(** Every cluster is desired or unwanted, and the desired ones are those that the
    constraint selects. *)
Lemma filter_partition x l d u : filterClustersForConstraint r x l = Ok (d, u) →
  l ≡ₚ d ++ u ∧ ∀ c, c ∈ d ↔ c ∈ l ∧ selects r x c.
Proof.
  unfold filterClustersForConstraint, selects. destruct (ce_ee r); [|intros [= <- <-]; rewrite app_nil_r; naive_solver].
  unfold FilterClustersForConstraint. destruct (ce_selector r _) as [sel| | |]; try done. cbn.
  intros (d' & u' & -> & -> & Hp & Hd)%filterClusters_spec. split; [done|]. intros c. simpl. rewrite Hd.
  assert (Hprov : ∀ n, (NewString (sel_providers (cts_selector (so_spec x))) = ∅ ∨ n ∈ NewString (sel_providers (cts_selector (so_spec x)))) ↔
    (sel_providers (cts_selector (so_spec x)) = [] ∨ n ∈ sel_providers (cts_selector (so_spec x)))).
  { intros n. unfold NewString. rewrite elem_of_list_to_set. destruct (sel_providers _) as [|a l']; [naive_solver|].
    split; [|naive_solver]. intros [He|?]; [|by right]. simpl in He. set_solver. }
  setoid_rewrite Hprov. naive_solver.
Qed.
Lemma served_takes c : served c = true ↔ takes_constraints c.
Proof.
  unfold served, takes_constraints, is_deleted, isOPAEnabled, cluster_ns.
  rewrite !andb_true_iff, bool_decide_eq_true, negb_involutive, !negb_true_iff, String.eqb_neq. simpl. tauto.
Qed.

(** *** Loops over clusters *)

Definition copy_key (name : string) (c : Cluster) : NamespacedName := mkKey (cluster_ns c) name.
Definition untouched (name : string) (l : list Cluster) (k : NamespacedName) : Prop :=
  ∀ c, c ∈ l → served c = true → k ≠ copy_key name c.

Lemma served_loop R G name action l : PreOrder R → (∀ x y, R x y → G x → G y) →
  (∀ c, c ∈ l → served c = true → acts kw_view (copy_key name c) tt R G (action (cluster_ns c))) →
  ∀ w z w', syncAllClustersNS l action w = (z, w') →
  (∀ k, untouched name l k → kw_view tt k w' = kw_view tt k w) ∧ (∀ k, R (kw_view tt k w) (kw_view tt k w')) ∧
  (z = Ok tt → ∀ c, c ∈ l → served c = true → G (kw_view tt (copy_key name c) w')).
Proof.
  intros HR HG Ha w z w' E. set (body c := wrap "failed syncing constraint for cluster namespace" (action (cluster_ns c))).
  assert (Hloop : for_range (λ _ c, body c) tt (List.filter served l) w = (z, w')).
  { rewrite <- E, <- for_range_filter. apply for_range_ext. intros [] c. unfold served, body, cluster_ns.
    by destruct (sp_pause _), (String.eqb _ _), (is_deleted c), (isOPAEnabled c). }
  assert (Hin : ∀ c, c ∈ List.filter served l ↔ c ∈ l ∧ served c = true) by (intros c; by rewrite !list_elem_of_In, List.filter_In).
  destruct (keys_loop kw_view tt (copy_key name) R G body (List.filter served l) HR HG) with (w := w) (z := z) (w' := w')
    as (H1 & H2 & H3); [|done|].
  { intros c [Hc Hs]%Hin w1. apply runs_wrap. by apply Ha. }
  split_and!; [|done|intros Hz c Hc Hs; by apply H3, Hin].
  intros k Hk. apply H1. intros c [Hc Hs]%Hin [= ->]. by apply (Hk c).
Qed.

Lemma cleanup_acts x ns : acts kw_view (mkKey ns (om_name (so_meta x))) tt dropped gone (cleanupOne r x ns).
Proof.
  intros w. unfold cleanupOne. apply runs_read; [apply _|intros j k'; apply keeps_try, (as_get _ _ _ _ _ kw_store)|].
  intros got w1 Eg Hw1. apply try_ok_inv in Eg as [(o & -> & Eg)|(e & -> & Eg)].
  - apply (as_get_ok _ _ _ _ _ kw_store) in Eg as [_ Hk].
    exact (delete_acts constraints_alone constraint_main no_status _ tt _ o kw_store Hk w1).
  - destruct (IsNotFound e) eqn:En; apply runs_keeps; [apply _|intros; frame| |apply _|intros; frame|done].
    intros _ _ _ y. by rewrite Hw1, (as_get_missing _ _ _ _ _ kw_store _ _ _ _ Eg En).
Qed.

(** The copy that a cluster gets. *)
Definition labelled (x : Constraint) : Constraint := addLabel x.

Lemma ensure_constraint_acts x ns : acts kw_view (mkKey ns (om_name (so_meta x))) tt (rtc (copying constraint_main no_status (labelled x)))
  (same_main constraint_main (labelled x)) (ReconcileKubermaticV1Constraints r [(om_name (so_meta x), constraintCreatorGetter x)] ns).
Proof.
  assert (Hc : copies constraint_main (labelled x) (constraintCreatorGetter x)).
  { intros e y [= <-]. split; [|done]. unfold constraint_main, labelled, addLabel. simpl. by rewrite !lookup_insert_eq. }
  exact (reconcile_acts constraints_alone constraint_main no_status _ tt _ "Constraint" _ _ empty_constraint _ _ eq_refl kw_store Hc).
Qed.

(** *** The finalizer *)

Lemma add_patch_run x w z w' : kw_view tt (object_key x) w = Some x → patchFinalizer r x AddAction w = (z, w') →
  elsewhere kw_view tt (object_key x) w w' ∧ ∃ y, kw_view tt (object_key x) w' = Some y ∧ so_spec y = so_spec x ∧
    (∀ g, g ∈ finalizers x → g ∈ finalizers y) ∧ ∀ v, z = Ok v → v = y ∧ object_key v = object_key x ∧ finalizer ∈ finalizers y.
Proof.
  intros Hx (z1 & E & Hz)%wrap_run.
  destruct (kw_patch _ _ _ _ _ E Hx eq_refl eq_refl) as [He Hcase]. split; [done|]. destruct Hcase as [[Hv Hno]|[(_ & Hnil & _)|(y & Hv & Hs & Hf & _ & Hk & Hy)]].
  - exists x. split_and!; [done..|]. intros v Hv'. by destruct (Hno v (Hz v ltac:(done))).
  - assert (Hin : finalizer ∈ finalizers (mkSpecObject (AddFinalizer [finalizer] (so_meta x)) (so_spec x))) by (apply elem_of_AddFinalizer; right; left).
    rewrite Hnil in Hin. by apply elem_of_nil in Hin.
  - exists y. split_and!; [done..| |].
    + intros g Hg. rewrite Hf. apply elem_of_AddFinalizer. by left.
    + intros v Hv'. assert (v = y) as -> by (by apply Hy, Hz). split_and!; [done..|]. rewrite Hf. apply elem_of_AddFinalizer. right. left.
Qed.

Lemma remove_patch_run x w z w' : kw_view tt (object_key x) w = Some x → patchFinalizer r x RemoveAction w = (z, w') →
  elsewhere kw_view tt (object_key x) w w' ∧
  (∀ v, z = Ok v → ∀ y, kw_view tt (object_key x) w' = Some y → finalizer ∉ finalizers y).
Proof.
  intros Hx (z1 & E & Hz)%wrap_run. destruct (kw_patch _ _ _ _ _ E Hx eq_refl eq_refl) as [He Hcase]. split; [done|]. intros v Hv y Hy.
  destruct Hcase as [[_ Hno]|[(Hn & _)|(y' & Hv' & _ & Hf & _)]]; [by destruct (Hno v (Hz v ltac:(done)))|congruence|].
  assert (y' = y) as -> by congruence. rewrite Hf. unfold finalizers. simpl. rewrite elem_of_set_List. unfold NewString. set_solver.
Qed.

(** *** Whole runs *)

Definition has (request : NamespacedName) (f : string) (w : W) : Prop := ∃ y, kw_view tt request w = Some y ∧ f ∈ finalizers y.

(** No cluster of one part shares its namespace with one of the other. *)
Lemma parts_apart name (d u : list Cluster) w l : l ≡ₚ d ++ u → l = kw_clusters w → ∀ c, c ∈ u → served c = true → untouched name d (copy_key name c).
Proof.
  intros Hp -> c Hc Hs e He Hse [= Hns]. pose proof (kw_distinct w) as Hnd. unfold untouched in *.
  assert (Hperm : List.filter has_namespace (kw_clusters w) ≡ₚ List.filter has_namespace d ++ List.filter has_namespace u).
  { rewrite <- List.filter_app. clear -Hp. induction Hp as [|a l1 l2 _ IH|a b l1|]; simpl; [done|by destruct (has_namespace a); rewrite ?IH| |by etrans].
    destruct (has_namespace a), (has_namespace b); try done. apply Permutation_swap. }
  apply (fmap_Permutation cluster_ns) in Hperm. change (NoDup (cluster_ns <$> List.filter has_namespace (kw_clusters w))) in Hnd.
  rewrite Hperm, fmap_app in Hnd. apply NoDup_app in Hnd as (_ & Hnd & _).
  assert (Hin : ∀ (a : Cluster) v, a ∈ v → served a = true → cluster_ns a ∈ cluster_ns <$> List.filter has_namespace v).
  { intros a v Ha (_ & Hsa & _)%served_takes. apply list_elem_of_fmap. exists a. split; [done|]. apply list_elem_of_In, List.filter_In.
    split; [by apply list_elem_of_In|]. unfold has_namespace. by apply negb_true_iff, String.eqb_neq. }
  apply (Hnd (cluster_ns e)); [by apply Hin|]. rewrite <- Hns. by apply Hin.
Qed.
Lemma request_apart (x : Constraint) w l : (∀ c, c ∈ l → c ∈ kw_clusters w) → om_namespace (so_meta x) = kw_namespace → untouched (om_name (so_meta x)) l (object_key x).
Proof. intros Hl Hns c Hc _ [= Heq]. apply (kw_apart w c); [by apply Hl|]. by rewrite <- Heq. Qed.

Definition distributed (x : Constraint) (d u : list Cluster) (w : W) : Prop :=
  (∀ c, c ∈ d → served c = true → same_main constraint_main (labelled x) (kw_view tt (copy_key (om_name (so_meta x)) c) w)) ∧
  (∀ c, c ∈ u → served c = true → gone (kw_view tt (copy_key (om_name (so_meta x)) c) w)).

(** The loops of a run for a live constraint. *)
Lemma live_loops x w0 l d u w z w' : l ≡ₚ d ++ u → l = kw_clusters w0 → om_namespace (so_meta x) = kw_namespace →
  (_ ← cleanupConstraint r x u; ensureConstraint r x d) w = (z, w') →
  kw_view tt (object_key x) w' = kw_view tt (object_key x) w ∧
  (∀ k, untouched (om_name (so_meta x)) l k → kw_view tt k w' = kw_view tt k w) ∧ (z = Ok tt → distributed x d u w').
Proof.
  intros Hp Hl Hns E. assert (Hd : ∀ c, c ∈ d → c ∈ l) by (intros c Hc; rewrite Hp; by apply elem_of_app; left).
  assert (Hu : ∀ c, c ∈ u → c ∈ l) by (intros c Hc; rewrite Hp; by apply elem_of_app; right).
  assert (Hun : ∀ k, untouched (om_name (so_meta x)) l k → untouched (om_name (so_meta x)) d k ∧ untouched (om_name (so_meta x)) u k).
  { intros k Hk. split; intros c Hc; apply Hk; auto. }
  assert (Hreq : untouched (om_name (so_meta x)) l (object_key x)) by (apply (request_apart x w0); [by rewrite Hl|done]).
  assert (Hclean : ∀ z1 w1, cleanupConstraint r x u w = (z1, w1) → (∀ k, untouched (om_name (so_meta x)) u k → kw_view tt k w1 = kw_view tt k w) ∧
    (z1 = Ok tt → ∀ c, c ∈ u → served c = true → gone (kw_view tt (copy_key (om_name (so_meta x)) c) w1))).
  { intros z1 w1 E1. destruct (served_loop dropped gone (om_name (so_meta x)) (cleanupOne r x) u _ gone_dropped
      ltac:(intros; apply cleanup_acts) _ _ _ E1) as (? & _ & ?). done. }
  apply bind_run in E as [([] & w1 & E1 & E)|[(z1 & E1 & _) Hno]]; destruct (Hclean _ _ E1) as [Hf1 Hg1].
  2: { split_and!; [by apply Hf1, Hun|intros k [_ ?]%Hun; by apply Hf1|intros ->; by destruct (Hno tt)]. }
  destruct (served_loop _ _ (om_name (so_meta x)) _ d _ (same_main_copied constraint_main no_status (labelled x))
      ltac:(intros; apply ensure_constraint_acts) _ _ _ E) as (Hf2 & _ & Hg2).
  split_and!.
  - rewrite Hf2, Hf1; [done|by apply Hun..].
  - intros k [? ?]%Hun. by rewrite Hf2, Hf1.
  - intros Hz. split; [by apply Hg2|]. intros c Hc Hs. rewrite Hf2; [by apply Hg1|]. by eapply parts_apart.
Qed.

Lemma distributed_same x y d u w : object_key y = object_key x → so_spec y = so_spec x → distributed y d u w → distributed x d u w.
Proof.
  intros [= _ Hn] Hs [H1 H2]. unfold distributed, same_main, constraint_main, labelled, addLabel in *. simpl in *. rewrite Hn, Hs in *.
  split; [|done]. intros c Hc Hsc. destruct (H1 c Hc Hsc) as (y' & Hy & Hm). exists y'. split; [done|]. rewrite Hm, !lookup_insert_eq. done.
Qed.

Lemma live_constraint x w0 l d u w z w' : l ≡ₚ d ++ u → l = kw_clusters w0 → om_namespace (so_meta x) = kw_namespace →
  kw_view tt (object_key x) w = Some x →
  (constraint ← (if negb (HasFinalizer (so_meta x) [finalizer]) then patchFinalizer r x AddAction else mret x);
   _ ← cleanupConstraint r constraint u; ensureConstraint r constraint d) w = (z, w') →
  (∀ k, k ≠ object_key x → untouched (om_name (so_meta x)) l k → kw_view tt k w' = kw_view tt k w) ∧
  (∀ g, g ∈ finalizers x → has (object_key x) g w') ∧ (z = Ok tt → has (object_key x) finalizer w' ∧ distributed x d u w').
Proof.
  intros Hp Hl Hns Hx E.
  assert (Hpatch : ∀ z1 w1, (if negb (HasFinalizer (so_meta x) [finalizer]) then patchFinalizer r x AddAction else mret x) w = (z1, w1) →
    elsewhere kw_view tt (object_key x) w w1 ∧ ∃ y, kw_view tt (object_key x) w1 = Some y ∧ so_spec y = so_spec x ∧
      (∀ g, g ∈ finalizers x → g ∈ finalizers y) ∧ ∀ v, z1 = Ok v → v = y ∧ object_key v = object_key x ∧ finalizer ∈ finalizers y).
  { intros z1 w1 E1. destruct (HasFinalizer (so_meta x) [finalizer]) eqn:Eh; [|by apply add_patch_run].
    injection E1 as <- <-. split; [done|]. exists x. split_and!; [done..|]. intros v [= <-]. split_and!; [done..|].
    apply (proj1 (HasFinalizer_spec _ _) Eh). left. }
  apply bind_run in E as [(y & w1 & E1 & E)|[(z1 & E1 & _) Hno]]; destruct (Hpatch _ _ E1) as [He (y' & Hy & Hs & Hf & Hv)].
  2: { split_and!; [intros k Hne _; apply He; congruence|intros g Hg; exists y'; auto|intros ->; by destruct (Hno tt)]. }
  destruct (Hv y eq_refl) as (-> & Hk & Hfin). assert (Hn : om_name (so_meta y') = om_name (so_meta x)) by (by injection Hk).
  destruct (live_loops y' w0 l d u w1 z w' Hp Hl) as (Hreq & Hfr & Hok); [rewrite <- Hns; by injection Hk|exact E|].
  rewrite Hk in Hreq. rewrite Hn in Hfr. split_and!.
  - intros k Hne Hun. rewrite Hfr by done. apply He. congruence.
  - intros g Hg. exists y'. rewrite Hreq. auto.
  - intros Hz. split; [exists y'; rewrite Hreq; auto|]. by eapply distributed_same, Hok.
Qed.

Lemma dead_constraint x w0 l d u w z w' : l ≡ₚ d ++ u → l = kw_clusters w0 → om_namespace (so_meta x) = kw_namespace →
  kw_view tt (object_key x) w = Some x → finalizer ∈ finalizers x →
  (_ ← cleanupConstraint r x d; _ ← patchFinalizer r x RemoveAction; mret tt) w = (z, w') →
  (∀ k, k ≠ object_key x → untouched (om_name (so_meta x)) l k → kw_view tt k w' = kw_view tt k w) ∧
  (¬ has (object_key x) finalizer w' → ∀ c, c ∈ d → served c = true → gone (kw_view tt (copy_key (om_name (so_meta x)) c) w')) ∧
  (z = Ok tt → ¬ has (object_key x) finalizer w').
Proof.
  intros Hp Hl Hns Hx Hf E. assert (Hd : ∀ c, c ∈ d → c ∈ l) by (intros c Hc; rewrite Hp; by apply elem_of_app; left).
  assert (Hreq : untouched (om_name (so_meta x)) d (object_key x)) by (apply (request_apart x w0); [intros; rewrite <- Hl; auto|done]).
  assert (Hclean : ∀ z1 w1, cleanupConstraint r x d w = (z1, w1) → (∀ k, untouched (om_name (so_meta x)) l k → kw_view tt k w1 = kw_view tt k w) ∧
    kw_view tt (object_key x) w1 = Some x ∧
    (z1 = Ok tt → ∀ c, c ∈ d → served c = true → gone (kw_view tt (copy_key (om_name (so_meta x)) c) w1))).
  { intros z1 w1 E1. destruct (served_loop dropped gone (om_name (so_meta x)) (cleanupOne r x) d _ gone_dropped
      ltac:(intros; apply cleanup_acts) _ _ _ E1) as (Hfr & _ & ?). split_and!; [|by rewrite Hfr|done]. intros k Hk. apply Hfr. intros c Hc. apply Hk. auto. }
  apply bind_run in E as [([] & w1 & E1 & E)|[(z1 & E1 & _) Hno]]; destruct (Hclean _ _ E1) as (Hf1 & Hx1 & Hg1).
  2: { split_and!; [by intros k _; apply Hf1|intros []; by exists x|intros ->; by destruct (Hno tt)]. }
  assert (Hrem : ∀ z2, patchFinalizer r x RemoveAction w1 = (z2, w') → (∀ k, k ≠ object_key x → untouched (om_name (so_meta x)) l k → kw_view tt k w' = kw_view tt k w) ∧
    (∀ c, c ∈ d → served c = true → gone (kw_view tt (copy_key (om_name (so_meta x)) c) w')) ∧
    (∀ v, z2 = Ok v → ¬ has (object_key x) finalizer w')).
  { intros z2 E2. destruct (remove_patch_run _ _ _ _ Hx1 E2) as [He Hr]. split_and!.
    - intros k Hne Hun. rewrite He by congruence. by apply Hf1.
    - intros c Hc Hs. rewrite He; [by apply Hg1|]. intros Heq. apply (Hreq c Hc Hs). congruence.
    - intros v Hv (y & Hy & Hin). by apply (Hr v Hv y). }
  apply bind_run in E as [(v & w2 & E2 & E)|[(z2 & E2 & _) Hno]].
  - injection E as <- <-. destruct (Hrem _ E2) as (H1 & H2 & H3). split_and!; [done|by intros _|intros _; by apply (H3 v)].
  - destruct (Hrem _ E2) as (H1 & H2 & _). split_and!; [done|by intros _|intros ->; by destruct (Hno tt)].
Qed.

(** The copies of a constraint in the clusters of a seed. *)
Definition placed (x : Constraint) (clusters : list Cluster) (w : W) : Prop := ∀ c, c ∈ clusters → takes_constraints c →
  (selects r x c → same_main constraint_main (labelled x) (kw_view tt (copy_key (om_name (so_meta x)) c) w)) ∧
  (¬ selects r x c → gone (kw_view tt (copy_key (om_name (so_meta x)) c) w)).
Definition withdrawn (x : Constraint) (clusters : list Cluster) (w : W) : Prop := ∀ c, c ∈ clusters → takes_constraints c →
  selects r x c → gone (kw_view tt (copy_key (om_name (so_meta x)) c) w).

Lemma distributed_placed x l d u w : filterClustersForConstraint r x l = Ok (d, u) → distributed x d u w → placed x l w.
Proof.
  intros [Hp Hd]%filter_partition [H1 H2] c Hc Hs%served_takes. split; intros Hsel; [apply H1; [by apply Hd|done]|].
  rewrite Hp in Hc. apply elem_of_app in Hc as [[_ ?]%Hd|?]; [done|by apply H2].
Qed.
Lemma untouched_takes name l k : (∀ c, c ∈ l → takes_constraints c → k ≠ copy_key name c) → untouched name l k.
Proof. intros Hk c Hc Hs%served_takes. by apply Hk. Qed.

(** C29: constraints of a seed reach the namespaces of their clusters: whatever the
    outcome, a run touches nothing but the constraint and its copies in clusters that
    take constraints (not paused, with a namespace, not being deleted, with the OPA
    integration on); a live constraint loses no finalizer, and after a successful run has
    its guard, a copy with its spec in every such cluster that it selects, and no live
    copy in such a cluster that it does not; a deleted constraint loses its guard only
    when no such cluster that it selects has a live copy, and after a successful run has
    lost it.  It selects all clusters in the Community Edition, and those of its label
    selector and its providers in the Enterprise Edition.  Copies in other clusters stay
    as they are. *)
Theorem constraint_distribution request x w z w' : key_namespace request = kw_namespace → kw_view tt request w = Some x →
  Reconcile r request w = (z, w') →
  (∀ k, k ≠ request → (∀ c, c ∈ kw_clusters w → takes_constraints c → k ≠ copy_key (om_name (so_meta x)) c) → kw_view tt k w' = kw_view tt k w) ∧
  (is_deleted x = false → (∀ f, f ∈ finalizers x → has request f w') ∧
     (z = Ok tt → has request finalizer w' ∧ placed x (kw_clusters w) w')) ∧
  (is_deleted x = true → finalizer ∈ finalizers x →
     (¬ has request finalizer w' → withdrawn x (kw_clusters w) w') ∧ (z = Ok tt → ¬ has request finalizer w')).
Proof.
  intros Hns Hx E.
  assert (Hstay : (∀ i k, kw_view i k w' = kw_view i k w) → z ≠ Ok tt →
    (∀ k, k ≠ request → (∀ c, c ∈ kw_clusters w → takes_constraints c → k ≠ copy_key (om_name (so_meta x)) c) → kw_view tt k w' = kw_view tt k w) ∧
    (is_deleted x = false → (∀ f, f ∈ finalizers x → has request f w') ∧ (z = Ok tt → has request finalizer w' ∧ placed x (kw_clusters w) w')) ∧
    (is_deleted x = true → finalizer ∈ finalizers x →
      (¬ has request finalizer w' → withdrawn x (kw_clusters w) w') ∧ (z = Ok tt → ¬ has request finalizer w'))).
  { intros Hv Hz. split_and!; [done|intros _; split; [intros f Hf; exists x; by rewrite Hv|done]|].
    intros _ Hf. split; [|done]. intros []. exists x. by rewrite Hv. }
  unfold Reconcile, mbind at 1, M_MBind at 1, M_bind at 1, try at 1 in E. destruct (c_get (ce_constraints r) request w) as [o w1] eqn:Eg.
  assert (Hv1 : ∀ i k, kw_view i k w1 = kw_view i k w) by (intros i k; by apply (as_get _ _ _ _ _ kw_store request i k) in Eg).
  pose proof (kw_get_clusters request _ _ _ Eg) as Hc1.
  destruct o as [y|e|s|]; [|injection E as <- <-; by apply Hstay..].
  apply (as_get_ok _ _ _ _ _ kw_store) in Eg as [Hy Hk]. assert (y = x) as -> by congruence. clear Hy.
  apply reported_run in E as (w2 & E & Hw2). assert (Hv2 : ∀ i k, kw_view i k w' = kw_view i k w2).
  { intros i k. destruct Hw2 as [->|[msg ->]]; [done|apply kw_event]. } clear Hw2.
  apply bind_run in E as [(l & w3 & El%wrap_ok_inv & E)|[(z1 & El & _) Hno]].
  2: { apply Hstay; [|done]. intros i k. apply wrap_run in El as (z2 & El & _). apply (kw_list i k) in El. by rewrite Hv2, El. }
  assert (l = kw_clusters w) as -> by (apply kw_listed in El; congruence).
  assert (Hv3 : ∀ i k, kw_view i k w3 = kw_view i k w) by (intros i k; apply (kw_list i k) in El; by rewrite El).
  unfold wrap at 1, lift, mbind at 1, M_MBind, M_bind at 1 in E.
  destruct (filterClustersForConstraint r x (kw_clusters w)) as [[d u]|e|s|] eqn:Hfil;
    [|injection E as <- <-; apply Hstay; [intros i k; by rewrite Hv2|done]..]. destruct (filter_partition _ _ _ _ Hfil) as [Hp Hsel]. clear El Hstay.
  unfold has, placed, withdrawn. repeat setoid_rewrite Hv2.
  fold (placed x (kw_clusters w) w2) (withdrawn x (kw_clusters w) w2) (has request finalizer w2). subst request.
  rewrite <- Hv3 in Hx. setoid_rewrite <- (Hv3 tt). destruct (is_deleted x) eqn:Ed.
  - split_and!; [|done|].
    + intros k Hk Hun%untouched_takes. destruct (HasFinalizer (so_meta x) [finalizer]) eqn:Eh; [|by injection E as <- <-].
      assert (Hf : finalizer ∈ finalizers x) by (apply (proj1 (HasFinalizer_spec _ _) Eh); left).
      destruct (dead_constraint x w (kw_clusters w) d u w3 z w2 Hp eq_refl Hns Hx Hf E) as (Hfr & _). by apply Hfr.
    + intros _ Hf. change (HasFinalizer (so_meta x)) with (HasFinalizer (obj_meta x)) in E. rewrite (finalizer_listed x finalizer Hf) in E.
      destruct (dead_constraint x w (kw_clusters w) d u w3 z w2 Hp eq_refl Hns Hx Hf E) as (_ & Hg & Hz). split; [|done].
      intros Hn c Hc Hs%served_takes Hsc. apply Hg; [done| |done]. by apply Hsel.
  - destruct (live_constraint x w (kw_clusters w) d u w3 z w2 Hp eq_refl Hns Hx E) as (Hfr & Hg & Hz). split_and!; [| |done].
    + intros k Hk Hun%untouched_takes. by apply Hfr.
    + intros _. split; [done|]. intros [Hg' Hd]%Hz. split; [done|]. by eapply distributed_placed.
Qed.
End seed_constraints.

(** A request for a constraint that is gone never succeeds: the queue tries it again and
    again. *)
Theorem missing_constraint_fails `{StringSets} {W} (r : ConstraintEnv W) `{KW : !ConstraintWorld r} request w z w' :
  kw_view tt request w = None → SeedConstraints.Reconcile r request w = (z, w') → z ≠ Ok tt.
Proof.
  intros Hn E ->. apply bind_ok_inv in E as (got & w1 & [(o & -> & Eg)|(e & -> & Eg)]%try_ok_inv & E); [|done].
  apply (as_get_ok _ _ _ _ _ kw_store) in Eg as [Hv _]. congruence.
Qed.

(** ** Constraints of a user cluster *)

(** *** Rendering *)

Section rendering.
Context {W : Type} (r : ConstraintSyncEnv W).
Import ConstraintSyncer.

(** A field of the spec of a Gatekeeper constraint. *)
Definition spec_field (k : string) (u : Unstructured) : option JSON :=
  match json_get spec (un_object u) with Some (JObject fields) => json_get k fields | _ => None end.

Lemma SetNestedField_spec object v outer inner object' : SetNestedField object v outer inner = Ok object' →
  (∀ k, k ≠ outer → json_get k object' = json_get k object) ∧
  ∃ fields, json_get outer object' = Some (JObject fields) ∧
    ∀ k, json_get k fields = if String.eqb k inner then Some v else match json_get outer object with Some (JObject old) => json_get k old | _ => None end.
Proof.
  unfold SetNestedField. intros E. assert (Hput : ∀ fields, object' = json_put outer (JObject fields) object →
    (∀ k, k ≠ outer → json_get k object' = json_get k object) ∧ json_get outer object' = Some (JObject fields)).
  { intros fields ->. split; [intros k Hk; rewrite json_get_put; by apply String.eqb_neq in Hk as ->|by rewrite json_get_put, String.eqb_refl]. }
  destruct (json_get outer object) as [[]|] eqn:Eo; try done; injection E as <-; destruct (Hput _ eq_refl) as [H1 H2]; (split; [done|]);
    eexists; (split; [done|]); intros k; [apply json_get_put|]. unfold json_get. simpl. by destruct (String.eqb k inner).
Qed.

(** What the user cluster gets: a rendered constraint has the match of the
    constraint; its parameters are those of the constraint or, with [rawJSON], what that
    text stands for, and nothing else of the object changes.  Without parameters the
    object keeps those it had, so taking all parameters from a constraint leaves the old
    ones in force. *)
Theorem constraint_rendering constraint u u' : constraintCreatorGetter r constraint u = Ok u' →
  let s := so_spec constraint in
  un_meta u' = un_meta u ∧
  (∀ k, k ≠ spec → json_get k (un_object u') = json_get k (un_object u)) ∧
  spec_field matchField u' = Some (JObject (match_json (cts_match s))) ∧
  (∀ k, k ≠ matchField → k ≠ parametersField → spec_field k u' = spec_field k u) ∧
  (cts_parameters s = [] → spec_field parametersField u' = spec_field parametersField u) ∧
  (cts_parameters s ≠ [] → json_get rawJsonField (cts_parameters s) = None →
     spec_field parametersField u' = Some (JObject (cts_parameters s))) ∧
  (∀ v, json_get rawJsonField (cts_parameters s) = Some v →
     ∃ text value, v = JString text ∧ cy_decode r text = Ok value ∧ spec_field parametersField u' = Some value).
Proof.
  intros E s. unfold constraintCreatorGetter in E. fold s in E.
  set (first := if is_nil (cts_parameters s) then Ok (un_object u) else _) in E.
  destruct first as [object| | |] eqn:E1; try done. cbn in E.
  destruct (SetNestedField object (JObject (match_json (cts_match s))) spec matchField) as [object'| | |] eqn:E2; try done. injection E as <-.
  destruct (SetNestedField_spec _ _ _ _ _ E2) as (Hk2 & fields & Hf2 & Hg2). unfold spec_field. simpl. rewrite Hf2. setoid_rewrite Hg2.
  split; [done|]. unfold first in E1. clear first. destruct (is_nil (cts_parameters s)) eqn:Enil.
  - injection E1 as <-. assert (cts_parameters s = []) as -> by (by destruct (cts_parameters s)). split_and!; [done|by rewrite String.eqb_refl| |done|done|done]. intros k Hk _. by apply String.eqb_neq in Hk as ->.
  - assert (Hne : cts_parameters s ≠ []) by (by intros Hn; rewrite Hn in Enil). destruct (parameters r (cts_parameters s)) as [value| | |] eqn:Ev; try done. cbn in E1.
    destruct (SetNestedField (un_object u) value spec parametersField) as [o| | |] eqn:E3; try done. injection E1 as ->.
    destruct (SetNestedField_spec _ _ _ _ _ E3) as (Hk3 & fields3 & Hf3 & Hg3). rewrite Hf3. setoid_rewrite Hg3. split_and!.
    + intros k Hk. by rewrite Hk2, Hk3.
    + by rewrite String.eqb_refl.
    + intros k H1 H2. apply String.eqb_neq in H1 as ->, H2 as ->. done.
    + done.
    + intros _ Hr. unfold parameters in Ev. rewrite Hr in Ev. by injection Ev as <-.
    + intros v Hr. unfold parameters in Ev. rewrite Hr in Ev. destruct v; try done. unfold outcome_wrap in Ev.
      destruct (cy_decode r s0) as [value'| | |] eqn:Ed; try done. injection Ev as <-. by exists s0, value'.
Qed.
End rendering.

(** *** The guard of a constraint *)

(** The constraints in the namespace of a cluster on the seed, and the Gatekeeper
    constraints of each kind in the user cluster. *)
Class SyncerWorld {W} (r : ConstraintSyncEnv W) := {
  yw_seed : unit → NamespacedName → W → option Constraint;
  yw_user : string → NamespacedName → W → option Unstructured;
  yw_store : at_store yw_seed so_spec no_status (cy_seed r) tt;
  yw_kind : ∀ kind, at_store yw_user un_object no_status (cy_user r kind) kind;
  yw_get_user : ∀ k kind k', keeps (yw_user kind k') (c_get (cy_seed r) k);
  yw_update_user : ∀ c kind k', keeps (yw_user kind k') (c_update (cy_seed r) c);
  yw_get_seed : ∀ kind k i k', keeps (yw_seed i k') (c_get (cy_user r kind) k);
  yw_create_seed : ∀ kind u i k', keeps (yw_seed i k') (c_create (cy_user r kind) u);
  yw_update_seed : ∀ kind u i k', keeps (yw_seed i k') (c_update (cy_user r kind) u);
  yw_delete_seed : ∀ kind u i k', keeps (yw_seed i k') (c_delete (cy_user r kind) u);
  yw_equal : ∀ a b, cy_equal r a b = true → un_object a = un_object b;
  yw_poll : ∀ A (v : W → A) cond, keeps v cond → keeps v (cy_poll r cond);
  yw_event_seed : ∀ m msg i k w, yw_seed i k (cy_event r m msg w) = yw_seed i k w;
  yw_event_user : ∀ m msg i k w, yw_user i k (cy_event r m msg w) = yw_user i k w;
}.
#[export] Hint Resolve yw_get_user yw_update_user yw_get_seed yw_create_seed yw_update_seed yw_delete_seed : kkp_frame.

Section syncer.
Context `{StringSets} {W : Type} (r : ConstraintSyncEnv W) `{YW : !SyncerWorld r}.
Import ConstraintSyncer.

Abbreviation syncer_alone := (alone (cy_seed r) (cy_retry r) (λ _ _, false) (cy_poll r)).
#[local] Instance syncer_world : SyncWorld (I := unit) syncer_alone so_spec no_status.
Proof. by refine (alone_world _ _ _ _ _ _ _ tt yw_store yw_poll _ _ _). Defined.

(** The rendered fields of a constraint, as far as the constraint determines them. *)
Definition rendered (x : Constraint) (object : list (string * JSON)) : option JSON * option JSON :=
  let u := mkUnstructured emptyMeta object in
  (spec_field matchField u, if is_nil (cts_parameters (so_spec x)) then None else spec_field parametersField u).
Definition applied (x : Constraint) (u : Unstructured) : Prop :=
  spec_field matchField u = Some (JObject (match_json (cts_match (so_spec x)))) ∧
  (cts_parameters (so_spec x) ≠ [] → ∀ value, parameters r (cts_parameters (so_spec x)) = Ok value → spec_field parametersField u = Some value).
(** An object with these fields. *)
Definition wanted (x : Constraint) : Unstructured :=
  mkUnstructured emptyMeta [(spec, JObject [(matchField, JObject (match_json (cts_match (so_spec x))));
    (parametersField, match parameters r (cts_parameters (so_spec x)) with Ok value => value | _ => JNull end)])].

Definition user_key (x : Constraint) : NamespacedName := mkKey "" (om_name (so_meta x)).
Definition user_kind (x : Constraint) : string := cts_constraintType (so_spec x).

#[local] Instance kind_world (x : Constraint) : SyncWorld (I := string)
  (alone (cy_user r (user_kind x)) (cy_retry r) (cy_equal r) (cy_poll r)) (λ u, rendered x (un_object u)) no_status.
Proof.
  refine (alone_world _ _ _ _ _ _ _ (user_kind x) (at_store_weaken _ un_object (rendered x) _ _ _ (yw_kind _)) yw_poll _ _ _); try done.
  intros a b Heq. by rewrite (yw_equal a b Heq).
Defined.

Lemma rendering_wanted x : copies (λ u, rendered x (un_object u)) (wanted x) (constraintCreatorGetter r x).
Proof.
  intros u u'. unfold constraintCreatorGetter. set (first := if is_nil _ then Ok (un_object u) else _). destruct first as [object| | |] eqn:E1; try done. cbn.
  destruct (SetNestedField object _ spec matchField) as [object'| | |] eqn:E2; try done. intros [= <-]. split; [|done].
  destruct (SetNestedField_spec _ _ _ _ _ E2) as (_ & fields & Hf & Hg). unfold rendered, spec_field. simpl. rewrite Hf, !Hg. f_equal.
  unfold first in E1. clear first. destruct (is_nil (cts_parameters (so_spec x))); [done|].
  destruct (parameters r _) as [value| | |]; try done. cbn in E1. destruct (SetNestedField (un_object u) value spec parametersField) as [o| | |] eqn:E3; try done.
  injection E1 as ->. destruct (SetNestedField_spec _ _ _ _ _ E3) as (_ & fields3 & Hf3 & Hg3). by rewrite Hf3, Hg3.
Qed.
Lemma wanted_applied x u : rendered x (un_object u) = rendered x (un_object (wanted x)) → applied x u.
Proof.
  intros [= Hm Hp]. split; [exact Hm|]. intros Hne value Hv. assert (is_nil (cts_parameters (so_spec x)) = false) as Hn by (by destruct (cts_parameters _)).
  rewrite Hn in Hp. unfold wanted, spec_field in Hp. cbn in Hp. by rewrite Hv in Hp.
Qed.

(** Creating: the user cluster gets the rendered constraint. *)
Lemma create_run x w z w' : createConstraint r x w = (z, w') →
  elsewhere yw_user (user_kind x) (user_key x) w w' ∧ (∀ i k, yw_seed i k w' = yw_seed i k w) ∧
  (z = Ok tt → ∃ u, yw_user (user_kind x) (user_key x) w' = Some u ∧ applied x u).
Proof.
  intros (z1 & E & Hz)%wrap_run.
  set (ensure := wrap "failed to ensure Unstructured" (EnsureNamedObject (cy_user r (user_kind x)) (cy_equal r) id (cy_poll r) (user_key x)
    (constraintCreatorGetter r x) (empty_unstructured (user_kind x)) false)).
  assert (∃ z2, (if String.eqb (user_kind x) "" then throw (ErrNew "both Kind and apiVersion must be set") else ensure) w = (z2, w') ∧ (z1 = Ok tt → z2 = Ok tt))
    as (z2 & E2 & Hz2).
  { apply bind_run in E as [([] & w1 & E & E')|[(z2 & E & _) Hno]]; [injection E' as <- <-; by exists (Ok tt)|exists z2].
    split; [done|]. intros ->. by destruct (Hno tt). }
  destruct (String.eqb (user_kind x) "").
  { injection E2 as <- <-. split_and!; [done..|]. intros ->. by specialize (Hz2 (Hz tt eq_refl)). }
  assert (Hks : ∀ i k, keeps (yw_seed i k) ensure) by (intros; apply keeps_wrap, keeps_ensure; auto with kkp_frame; intros; by apply yw_poll).
  assert (Ha : acts yw_user (user_key x) (user_kind x) (rtc (copying (λ u, rendered x (un_object u)) no_status (wanted x)))
    (same_main (λ u, rendered x (un_object u)) (wanted x)) ensure).
  { intros w0. apply runs_wrap. pose proof (ensure_acts _ (λ u, rendered x (un_object u)) no_status (user_key x) (user_kind x) (cy_user r (user_kind x))
      (wanted x) (constraintCreatorGetter r x) (empty_unstructured (user_kind x))
      (at_store_weaken _ un_object (rendered x) _ _ _ (yw_kind _)) (rendering_wanted x) w0) as Hrun. exact Hrun. }
  destruct (Ha _ _ _ E2) as (He & _ & Hok). split_and!; [done|intros i k; by apply (Hks i k) in E2|].
  intros ->. destruct (Hok tt) as (u & Hu & Hr); [by apply Hz2, Hz|]. exists u. split; [done|]. by apply wanted_applied.
Qed.

Lemma cleanup_user_run x w z w' : cleanupConstraint r x w = (z, w') →
  elsewhere yw_user (user_kind x) (user_key x) w w' ∧ (∀ i k, yw_seed i k w' = yw_seed i k w) ∧
  dropped (yw_user (user_kind x) (user_key x) w) (yw_user (user_kind x) (user_key x) w') ∧
  (z = Ok tt → gone (yw_user (user_kind x) (user_key x) w')).
Proof.
  intros E. set (stub := set_meta (set_name (om_name (so_meta x)) emptyMeta) (empty_unstructured (user_kind x))).
  assert (Hk : ∀ i k, keeps (yw_seed i k) (cleanupConstraint r x)).
  { intros i k. apply keeps_wrap. unfold ignoreNotFound, unless. frame. }
  pose proof (λ w, runs_wrap _ _ w _ _ _ "failed to delete constraint" _ (delete_acts _ (λ u, rendered x (un_object u)) no_status (user_key x) (user_kind x)
    (cy_user r (user_kind x)) stub (at_store_weaken _ un_object (rendered x) _ _ _ (yw_kind _)) eq_refl w)) as Hrun.
  destruct (Hrun w z w' E) as (He & Hd & Hg). split_and!; [done|intros i k; by apply (Hk i k) in E|done|]. intros ->. by apply (Hg tt).
Qed.

Definition seed_has (request : NamespacedName) (f : string) (w : W) : Prop := ∃ y, yw_seed tt request w = Some y ∧ f ∈ finalizers y.
Abbreviation guard := GatekeeperConstraintCleanupFinalizer.

Lemma release_run x w z w' : yw_seed tt (object_key x) w = Some x →
  (_ ← TryRemoveFinalizer (cy_seed r) (cy_retry r) x [guard]; mret tt) w = (z, w') →
  elsewhere yw_seed tt (object_key x) w w' ∧ (∀ kind k, yw_user kind k w' = yw_user kind k w) ∧ (z = Ok tt → ¬ seed_has (object_key x) guard w').
Proof.
  intros Hx E. assert (Hk : ∀ kind k, keeps (yw_user kind k) (_ ← TryRemoveFinalizer (cy_seed r) (cy_retry r) x [guard]; mret tt)).
  { intros kind k. apply keeps_bind; [|intros; apply keeps_ret]. unfold TryRemoveFinalizer. apply keeps_wrap, keeps_retry. frame. }
  pose proof (drop_finalizer_run syncer_alone so_spec no_status (object_key x) x guard w z w' eq_refl) as Hrun. destruct (Hrun E) as (He & _ & Hz).
  split_and!; [done|intros kind k; by apply (Hk kind k) in E|]. intros Hz' (y & Hy & Hin). by apply (Hz Hz' y).
Qed.

(** What every part of a run leaves alone. *)
Definition confined (x : Constraint) (w w' : W) : Prop :=
  elsewhere yw_user (user_kind x) (user_key x) w w' ∧ elsewhere yw_seed tt (object_key x) w w'.

Lemma deletion_run x w z w' : yw_seed tt (object_key x) w = Some x → guard ∈ finalizers x → handleDeletion r x w = (z, w') →
  confined x w w' ∧ (¬ seed_has (object_key x) guard w' → gone (yw_user (user_kind x) (user_key x) w')) ∧
  (z = Ok tt → ¬ seed_has (object_key x) guard w').
Proof.
  intros Hx Hf E. unfold handleDeletion in E. change (so_meta x) with (obj_meta x) in E. rewrite (finalizer_listed x guard Hf) in E.
  apply bind_run in E as [([] & w1 & E1 & E)|[(z1 & E1 & _) Hno]]; destruct (cleanup_user_run _ _ _ _ E1) as (He & Hs & _ & Hg).
  - destruct (release_run x w1 z w' ltac:(by rewrite Hs) E) as (Hes & Hu & Hz). split_and!; [split|intros _; rewrite Hu; by apply Hg|done].
    + intros i k Hne. by rewrite Hu, He.
    + intros i k Hne. by rewrite Hes, Hs.
  - split_and!; [split; [done|intros i k _; apply Hs]|intros []; exists x; by rewrite Hs|intros ->; by destruct (Hno tt)].
Qed.

Lemma install_run x w z w' : yw_seed tt (object_key x) w = Some x → deletion x = None → install r x w = (z, w') →
  confined x w w' ∧ (∀ f, f ∈ finalizers x → seed_has (object_key x) f w') ∧
  (yw_user (user_kind x) (user_key x) w' = yw_user (user_kind x) (user_key x) w ∨ seed_has (object_key x) guard w') ∧
  (z = Ok tt → seed_has (object_key x) guard w' ∧ ∃ u, yw_user (user_kind x) (user_key x) w' = Some u ∧ applied x u).
Proof.
  intros Hx Hd E. assert (Hk : ∀ kind k, keeps (yw_user kind k) (wrap "failed to add finalizer" (TryAddFinalizer (cy_seed r) (cy_retry r) x [guard]))).
  { intros kind k. unfold TryAddFinalizer. apply keeps_wrap, keeps_wrap, keeps_retry. frame. }
  assert (Hadd : ∀ z1 w1, wrap "failed to add finalizer" (TryAddFinalizer (cy_seed r) (cy_retry r) x [guard]) w = (z1, w1) →
    elsewhere yw_seed tt (object_key x) w w1 ∧ (∀ kind k, yw_user kind k w1 = yw_user kind k w) ∧ ∃ y, yw_seed tt (object_key x) w1 = Some y ∧
      (∀ f, f ∈ finalizers x → f ∈ finalizers y) ∧ ∀ p, z1 = Ok p → so_spec p = so_spec x ∧ object_key p = object_key x ∧ guard ∈ finalizers y).
  { intros z1 w1 E1. pose proof (add_finalizer_run syncer_alone so_spec no_status (object_key x) x guard w z1 w1 x eq_refl eq_refl) as Hrun.
    destruct (Hrun Hx Hd E1) as [He (y & Hy & (_ & _ & _ & _ & Hfi) & Hp)]. split_and!; [done|intros kind k; by apply (Hk kind k) in E1|].
    exists y. split_and!; [done..|]. intros p Hz. by destruct (Hp p Hz) as ((? & _ & _ & ? & _) & _ & ?). }
  apply bind_run in E as [(p & w1 & E1 & E)|[(z1 & E1 & _) Hno]]; destruct (Hadd _ _ E1) as (He & Hu & y & Hy & Hf & Hp).
  - destruct (Hp p eq_refl) as (Hs & Hkey & Hg). destruct (create_run _ _ _ _ E) as (Hcu & Hcs & Hok).
    assert (user_kind p = user_kind x) as Hki by (unfold user_kind; by rewrite Hs).
    assert (user_key p = user_key x) as Hke by (unfold user_key; by injection Hkey as _ ->).
    rewrite Hki, Hke in Hcu, Hok. assert (Hgs : seed_has (object_key x) guard w') by (exists y; by rewrite Hcs). split_and!; [split| |by right|].
    + intros i k Hne. by rewrite Hcu, Hu.
    + intros i k Hne. by rewrite Hcs, He.
    + intros f Hin. exists y. rewrite Hcs. auto.
    + intros Hz. split; [done|]. destruct (Hok Hz) as (u & Hv & Ha). exists u. split; [done|]. unfold applied in *. by rewrite Hs in Ha.
  - split_and!; [split; [intros i k _; apply Hu|done]|intros f Hin; exists y; auto|left; apply Hu|intros ->; by destruct (Hno tt)].
Qed.

(** The constraint as the edition sees it: only the Enterprise Edition knows disabled
    ones. *)
Definition switched_off (x : Constraint) : bool := cy_ee r && cts_disabled (so_spec x).

Lemma reconcile_shape x w : reconcile r x w =
  (_ ← (if switched_off x then cleanupConstraint r x else mret tt);
   match om_deletionTimestamp (so_meta x) with
   | Some _ => handleDeletion r x
   | None => if negb (switched_off x) then install r x else mret tt
   end) w.
Proof. unfold reconcile, reconcile_ee, reconcile_ce, switched_off. by destruct (cy_ee r). Qed.

(** What a run for the constraint [x] does, see below. *)
Definition guards (x : Constraint) (w : W) (z : outcome unit) (w' : W) : Prop :=
  confined x w w' ∧
  (deletion x = None → (∀ f, f ∈ finalizers x → seed_has (object_key x) f w') ∧
     (if switched_off x then dropped (yw_user (user_kind x) (user_key x) w) (yw_user (user_kind x) (user_key x) w')
      else yw_user (user_kind x) (user_key x) w' = yw_user (user_kind x) (user_key x) w ∨ seed_has (object_key x) guard w') ∧
     (z = Ok tt → if switched_off x then gone (yw_user (user_kind x) (user_key x) w')
                  else seed_has (object_key x) guard w' ∧ ∃ u, yw_user (user_kind x) (user_key x) w' = Some u ∧ applied x u)) ∧
  (is_Some (deletion x) → guard ∈ finalizers x →
     (¬ seed_has (object_key x) guard w' → gone (yw_user (user_kind x) (user_key x) w')) ∧ (z = Ok tt → ¬ seed_has (object_key x) guard w')).

Lemma guards_same x w1 z w' w2 w3 : (∀ i k, yw_seed i k w1 = yw_seed i k w2) → (∀ i k, yw_user i k w1 = yw_user i k w2) →
  (∀ i k, yw_seed i k w' = yw_seed i k w3) → (∀ i k, yw_user i k w' = yw_user i k w3) → guards x w1 z w3 → guards x w2 z w'.
Proof.
  intros H1 H2 H3 H4 ([Hc1 Hc2] & Hlive & Hdead). unfold guards, seed_has in *. rewrite !H3, !H4, <- !H2. split_and!; [|done..].
  split; intros i k Hne; [by rewrite H4, Hc1|by rewrite H3, Hc2].
Qed.
Lemma guards_nothing x w z : yw_seed tt (object_key x) w = Some x → z ≠ Ok tt → guards x w z w.
Proof. intros Hx Hz. split_and!; [by split|intros _; split_and!; [intros f Hf; by exists x|destruct (switched_off x); by left|done]|]. intros _ Hf. split; [|done]. intros []. by exists x. Qed.

Lemma reconcile_guards x w z w' : yw_seed tt (object_key x) w = Some x → reconcile r x w = (z, w') → guards x w z w'.
Proof.
  intros Hx E. rewrite reconcile_shape in E. apply bind_run in E as [([] & w1 & E1 & E)|[(z1 & E1 & Hn1) Hno]].
  - assert (confined x w w1 ∧ (∀ i k, yw_seed i k w1 = yw_seed i k w) ∧ (if switched_off x then gone (yw_user (user_kind x) (user_key x) w1) ∧
      dropped (yw_user (user_kind x) (user_key x) w) (yw_user (user_kind x) (user_key x) w1) else w1 = w)) as (Hc & Hs & Hg).
    { destruct (switched_off x); [|by injection E1 as <-]. destruct (cleanup_user_run _ _ _ _ E1) as (He & Hs & Hd & Hg).
      split_and!; [split; [done|intros i k _; apply Hs]|done|by apply Hg|done]. }
    assert (Hx1 : yw_seed tt (object_key x) w1 = Some x) by (by rewrite Hs).
    assert (Hcc : ∀ w2, confined x w1 w2 → confined x w w2) by (intros w2 [Ha Hb]; destruct Hc as [Hc Hd]; split; intros i k Hne; [by rewrite Ha, Hc|by rewrite Hb, Hd]).
    unfold guards, deletion. simpl. destruct (om_deletionTimestamp (so_meta x)) as [t|] eqn:Ed.
    + assert (Hconf : confined x w1 w').
      { destruct (decide (guard ∈ finalizers x)) as [Hf|Hf]; [by destruct (deletion_run x w1 z w' Hx1 Hf E)|]. unfold handleDeletion in E.
        destruct (HasFinalizer (so_meta x) [guard]) eqn:Eh; [destruct Hf; apply (proj1 (HasFinalizer_spec _ _) Eh); left|].
        destruct (release_run x w1 z w' Hx1 E) as (? & Hu & _). split; [intros i k _; apply Hu|done]. }
      split_and!; [auto|done|]. intros _ Hf. by destruct (deletion_run x w1 z w' Hx1 Hf E) as (_ & ? & ?).
    + destruct (switched_off x); cbn [negb] in E.
      * injection E as <- <-. split_and!; [done| |by intros [? [=]]]. intros _. split; [intros f Hf; by exists x|]. split; [apply Hg|]. intros _. apply Hg.
      * subst w1. destruct (install_run x w z w' Hx1 Ed E) as (? & ? & ? & ?). split_and!; [auto|intros _; by split_and!|by intros [? [=]]].
  - unfold guards. destruct (switched_off x); [|injection E1 as <- <-; by destruct (Hn1 tt)]. destruct (cleanup_user_run _ _ _ _ E1) as (He & Hs & Hd & _).
    split_and!; [split; [done|intros i k _; apply Hs]|intros _; split_and!; [intros f Hf; exists x; by rewrite Hs|done|intros ->; by destruct (Hno tt)]|].
    intros _ Hf. split; [intros []; exists x; by rewrite Hs|intros ->; by destruct (Hno tt)].
Qed.

(** C30: a Gatekeeper constraint and its guard: while the cluster is paused a run does
    nothing.  Otherwise, whatever its outcome, it touches nothing but the constraint and
    its counterpart of the same kind and name in the user cluster; a live constraint
    loses no finalizer, and its counterpart is created or changed only when the
    constraint is guarded (when it is switched off, the counterpart is only deleted);
    after a successful run the constraint is guarded and applied to the user cluster, or,
    when it is switched off, has no live counterpart; a deleted constraint loses its
    guard only when its counterpart is gone, and loses it in every successful run. *)
Theorem constraint_guard request x paused w z w' : cy_paused r w = (Ok paused, w) → yw_seed tt request w = Some x →
  object_key x = request → Reconcile r request w = (z, w') → if paused then z = Ok tt ∧ w' = w else guards x w z w'.
Proof.
  intros Hpause Hx Hk E. unfold Reconcile in E. erewrite bind_ok in E by (apply wrap_ok, Hpause). cbv beta iota in E.
  destruct paused; [by injection E as <- <-|].
  unfold mbind at 1, M_MBind at 1, M_bind at 1, try at 1 in E. destruct (c_get (cy_seed r) request w) as [o w1] eqn:Eg.
  assert (Hs1 : ∀ i k, yw_seed i k w1 = yw_seed i k w) by (intros i k; by apply (as_get _ _ _ _ _ yw_store request i k) in Eg).
  assert (Hu1 : ∀ i k, yw_user i k w1 = yw_user i k w) by (intros i k; by apply (yw_get_user request i k) in Eg).
  assert (Hx1 : yw_seed tt (object_key x) w1 = Some x) by (by rewrite Hs1, Hk).
  destruct o as [y|e|s|].
  - apply (as_get_ok _ _ _ _ _ yw_store) in Eg as [Hy _]. assert (y = x) as -> by congruence. apply reported_run in E as (w2 & E & Hw2).
    apply (guards_same x w1 z w' w w2); try done; [..|by apply reconcile_guards]; intros i k; destruct Hw2 as [->|[msg ->]]; try done;
      [apply yw_event_seed|apply yw_event_user].
  - destruct (IsNotFound e) eqn:En; [by rewrite (as_get_missing _ _ _ _ _ yw_store _ _ _ _ Eg En) in Hx|]. injection E as <- <-.
    by apply (guards_same x w1 _ w1 w w1), guards_nothing.
  - injection E as <- <-. by apply (guards_same x w1 _ w1 w w1), guards_nothing.
  - injection E as <- <-. by apply (guards_same x w1 _ w1 w w1), guards_nothing.
Qed.
End syncer.

(** ** Constraint templates *)

(** Templates on the seed, and in the user clusters by their names; a client that is kept
    for a name is one of the cluster with that name. *)
Class TemplateWorld {W Conn CRD Targets} (r : TemplateSyncEnv W Conn CRD Targets) := {
  tw_seed : unit → NamespacedName → W → option (SpecObject (ConstraintTemplateSpec CRD Targets));
  tw_user : string → NamespacedName → W → option (SpecObject (CRD * Targets));
  tw_store : at_store tw_seed so_spec no_status (tc_templates r) tt;
  tw_cached : ∀ w n h, tc_cached r w n = Some h → at_store tw_user so_spec no_status (tc_user r h) n;
  tw_connect : ∀ c w h w', tc_connect r c w = (Ok h, w') → at_store tw_user so_spec no_status (tc_user r h) (om_name (cl_meta c));
  tw_connect_seed : ∀ c i k, keeps (tw_seed i k) (tc_connect r c);
  tw_connect_user : ∀ c i k, keeps (tw_user i k) (tc_connect r c);
  tw_remember_seed : ∀ n h i k w, tw_seed i k (tc_remember r n h w) = tw_seed i k w;
  tw_remember_user : ∀ n h i k w, tw_user i k (tc_remember r n h w) = tw_user i k w;
  tw_list_seed : ∀ s i k, keeps (tw_seed i k) (tc_list r s);
  tw_list_user : ∀ s i k, keeps (tw_user i k) (tc_list r s);
  tw_get_user : ∀ k i k', keeps (tw_user i k') (c_get (tc_templates r) k);
  tw_update_user : ∀ o i k', keeps (tw_user i k') (c_update (tc_templates r) o);
  tw_get_seed : ∀ h k i k', keeps (tw_seed i k') (c_get (tc_user r h) k);
  tw_create_seed : ∀ h o i k', keeps (tw_seed i k') (c_create (tc_user r h) o);
  tw_update_seed : ∀ h o i k', keeps (tw_seed i k') (c_update (tc_user r h) o);
  tw_delete_seed : ∀ h o i k', keeps (tw_seed i k') (c_delete (tc_user r h) o);
  tw_equal : ∀ a b, tc_equal r a b = true → so_spec a = so_spec b;
  tw_poll : ∀ A (v : W → A) cond, keeps v cond → keeps v (tc_poll r cond);
  tw_event_seed : ∀ m msg i k w, tw_seed i k (tc_event r m msg w) = tw_seed i k w;
  tw_event_user : ∀ m msg i k w, tw_user i k (tc_event r m msg w) = tw_user i k w;
}.
#[export] Hint Resolve tw_connect_seed tw_connect_user tw_list_seed tw_list_user tw_get_user tw_update_user tw_get_seed
  tw_create_seed tw_update_seed tw_delete_seed : kkp_frame.

Section templates.
Context `{StringSets} {W Conn CRD Targets : Type} (r : TemplateSyncEnv W Conn CRD Targets) `{TW : !TemplateWorld r}.
Import UserClusterTemplates.
Abbreviation Template := (SpecObject (ConstraintTemplateSpec CRD Targets)).
Abbreviation template_guard := GatekeeperConstraintTemplateCleanupFinalizer.

Abbreviation templates_alone := (alone (tc_templates r) (tc_retry r) (λ _ _, false) (tc_poll r)).
#[local] Instance templates_world : SyncWorld (I := unit) templates_alone so_spec no_status.
Proof. by refine (alone_world _ _ _ _ _ _ _ tt tw_store tw_poll _ _ _). Defined.

(** The lemmas on copies need a client, which one does not matter. *)
Lemma copy_lemma_world h n : at_store tw_user so_spec no_status (tc_user r h) n →
  SyncWorld (I := string) (alone (tc_user r h) (tc_retry r) (tc_equal r) (tc_poll r)) so_spec no_status.
Proof. intros Hat. by refine (alone_world _ _ _ _ _ _ _ n Hat tw_poll tw_equal _ _). Defined.

(** A cluster that templates are put into. *)
Definition ready (c : Cluster) : bool :=
  negb (sp_pause (cl_spec c)) && ControlPlaneHealthy (cs_extendedHealth (cl_status c)) && isOPAEnabled c.

Lemma client_run c w z w' : userClusterClient r c w = (z, w') →
  (∀ i k, tw_seed i k w' = tw_seed i k w) ∧ (∀ i k, tw_user i k w' = tw_user i k w) ∧
  ∀ h, z = Ok h → at_store tw_user so_spec no_status (tc_user r h) (om_name (cl_meta c)).
Proof.
  unfold userClusterClient, mbind, M_MBind, M_bind, read. destruct (tc_cached r w (om_name (cl_meta c))) as [h|] eqn:Ec.
  { intros [= <- <-]. split_and!; [done..|]. intros h' [= <-]. by eapply tw_cached. }
  unfold wrap, emit. destruct (tc_connect r c w) as [o w1] eqn:E.
  assert (Hs : ∀ i k, tw_seed i k w1 = tw_seed i k w) by (intros i k; by apply (tw_connect_seed c i k) in E).
  assert (Hu : ∀ i k, tw_user i k w1 = tw_user i k w) by (intros i k; by apply (tw_connect_user c i k) in E).
  destruct o as [h|e|s|]; intros [= <- <-]; [|by split_and!..]. split_and!.
  - intros i k. by rewrite tw_remember_seed.
  - intros i k. by rewrite tw_remember_user.
  - intros h' [= <-]. by eapply tw_connect.
Qed.

(** A loop over the selected clusters: [action] works at the object [k] of each. *)
Lemma rollout_run (k : NamespacedName) R G x action (cs : list Cluster) : PreOrder R → (∀ a b, R a b → G a → G b) →
  (∀ h n, at_store tw_user so_spec no_status (tc_user r h) n → acts tw_user k n R G (action (tc_user r h))) →
  (∀ h i k', keeps (tw_seed i k') (action (tc_user r h))) →
  (∀ w l w', getClustersForConstraintTemplate r x w = (Ok l, w') → ∀ c, c ∈ cs → c ∈ l) →
  ∀ w z w', syncAllClusters r x action w = (z, w') →
  (∀ i k', tw_seed i k' w' = tw_seed i k' w) ∧ (∀ n k', k' ≠ k → tw_user n k' w' = tw_user n k' w) ∧
  (z = Ok tt → ∀ c, c ∈ cs → ready c = true → G (tw_user (om_name (cl_meta c)) k w')).
Proof.
  intros HR HG Ha Hk Hcs w z w' E. assert (Hget : ∀ X (v : W → X), (∀ s, keeps v (tc_list r s)) → keeps v (getClustersForConstraintTemplate r x)).
  { intros X v Hl. unfold getClustersForConstraintTemplate, GetClustersForConstraintTemplate. frame; apply Hl. }
  apply bind_run in E as [(l & w1 & El%wrap_ok_inv & E)|[(z1 & El & _) Hno]].
  2: { apply wrap_run in El as (z2 & El & _). split_and!; [..|intros ->; by destruct (Hno tt)].
       - intros i k'. by apply (Hget _ (tw_seed i k') (λ s, tw_list_seed s i k')) in El.
       - intros n k' _. by apply (Hget _ (tw_user n k') (λ s, tw_list_user s n k')) in El. }
  assert (Hs1 : ∀ i k', tw_seed i k' w1 = tw_seed i k' w) by (intros i k'; by apply (Hget _ (tw_seed i k') (λ s, tw_list_seed s i k')) in El).
  assert (Hu1 : ∀ n k', tw_user n k' w1 = tw_user n k' w) by (intros n k'; by apply (Hget _ (tw_user n k') (λ s, tw_list_user s n k')) in El).
  set (body c := h ← userClusterClient r c; wrap "failed syncing constraint template for cluster" (action (tc_user r h))).
  assert (Hloop : for_range (λ _ c, body c) tt (List.filter ready l) w1 = (z, w')).
  { rewrite <- E, <- for_range_filter. apply for_range_ext. intros [] c. unfold ready. by destruct (sp_pause _), (ControlPlaneHealthy _), (isOPAEnabled c). }
  assert (Hbody : ∀ c, acts tw_user k (om_name (cl_meta c)) R G (body c)).
  { intros c w2. apply runs_read; [done|intros j k' w3 z3 w4 E3; by apply client_run in E3 as (_ & -> & _)|].
    intros h w3 (_ & _ & Hat)%client_run _. apply runs_wrap. apply Ha. by apply Hat. }
  assert (Hkb : ∀ c i k', keeps (tw_seed i k') (body c)).
  { intros c i k'. apply keeps_bind; [intros w2 z2 w3 E2; by apply client_run in E2 as (-> & _)|]. intros h. apply keeps_wrap, Hk. }
  destruct (acts_loop tw_user k (λ c, om_name (cl_meta c)) R G body _ HR HG ltac:(intros c _; apply Hbody) _ _ _ Hloop) as [[Hs2 _] Hok].
  split_and!.
  - intros i k'. rewrite <- Hs1. by apply (keeps_for_range (tw_seed i k') (λ _ c, body c)) in Hloop; [|intros _ c; apply Hkb].
  - intros n k' Hne. by rewrite Hs2, Hu1.
  - intros Hz c Hc Hr. apply Hok; [done|]. apply list_elem_of_In, List.filter_In. split; [apply list_elem_of_In; by eapply Hcs|done].
Qed.

Definition template_has (request : NamespacedName) (f : string) (w : W) : Prop := ∃ y, tw_seed tt request w = Some y ∧ f ∈ finalizers y.
Definition user_template (x : Template) : SpecObject (CRD * Targets) := mkSpecObject (so_meta x) (tsp_crd (so_spec x), tsp_targets (so_spec x)).

(** Deleting in, and putting into, one user cluster. *)
Lemma delete_template_acts k h n (o : SpecObject (CRD * Targets)) : at_store tw_user so_spec no_status (tc_user r h) n → object_key o = k →
  acts tw_user k n dropped gone (ignoreNotFound (c_delete (tc_user r h) o)).
Proof. intros Hat Hk. exact (@delete_acts _ _ _ _ _ _ _ _ _ (copy_lemma_world h n Hat) k n _ o Hat Hk). Qed.
Lemma put_template_acts (x : Template) h n : at_store tw_user so_spec no_status (tc_user r h) n →
  acts tw_user (mkKey "" (om_name (so_meta x))) n (rtc (copying so_spec no_status (user_template x))) (same_main so_spec (user_template x))
    (ReconcileConstraintTemplates r [(om_name (so_meta x), constraintTemplateCreatorGetter x)] "" (tc_user r h)).
Proof.
  intros Hat. assert (Hc : copies so_spec (user_template x) (constraintTemplateCreatorGetter x)) by (by intros e y [= <-]).
  exact (@reconcile_acts _ _ _ _ _ _ _ _ _ (copy_lemma_world h n Hat) _ n _ "ConstraintTemplate" _ _ _ _ _ eq_refl Hat Hc).
Qed.

Lemma template_added x w z w' : tw_seed tt (object_key x) w = Some x → deletion x = None →
  wrap "failed to add finalizer" (TryAddFinalizer (tc_templates r) (tc_retry r) x [template_guard]) w = (z, w') →
  (∀ n k, tw_user n k w' = tw_user n k w) ∧ ∃ y, tw_seed tt (object_key x) w' = Some y ∧ (∀ f, f ∈ finalizers x → f ∈ finalizers y) ∧
    ∀ p, z = Ok p → so_spec p = so_spec x ∧ object_key p = object_key x ∧ template_guard ∈ finalizers y.
Proof.
  intros Hx Hd E. split.
  - intros n k. eapply (keeps_wrap (tw_user n k)); [|exact E]. unfold TryAddFinalizer. apply keeps_wrap, keeps_retry. frame.
  - pose proof (add_finalizer_run templates_alone so_spec no_status (object_key x) x template_guard w z w' x eq_refl eq_refl) as Hrun.
    destruct (Hrun Hx Hd E) as [_ (y & Hy & (_ & _ & _ & _ & Hfi) & Hp)]. exists y. split_and!; [done..|]. intros p Hz.
    by destruct (Hp p Hz) as ((? & _ & _ & ? & _) & _ & ?).
Qed.
Lemma template_released x w z w' : (_ ← TryRemoveFinalizer (tc_templates r) (tc_retry r) x [template_guard]; mret tt) w = (z, w') →
  (∀ n k, tw_user n k w' = tw_user n k w) ∧ (z = Ok tt → ¬ template_has (object_key x) template_guard w').
Proof.
  intros E. split.
  - intros n k. eapply (keeps_bind (tw_user n k)); [|intros; apply keeps_ret|exact E]. unfold TryRemoveFinalizer. apply keeps_wrap, keeps_retry. frame.
  - pose proof (drop_finalizer_run templates_alone so_spec no_status (object_key x) x template_guard w z w' eq_refl) as Hrun.
    destruct (Hrun E) as (_ & _ & Hz). intros Hz' (y & Hy & Hin). by apply (Hz Hz' y).
Qed.

(** What a run for the template [x] does, see below. *)
Definition rolls_out (x : Template) (cs : list Cluster) (w : W) (z : outcome unit) (w' : W) : Prop :=
  let k := object_key x in
  (∀ n k', k' ≠ k → tw_user n k' w' = tw_user n k' w) ∧
  (deletion x = None → (∀ f, f ∈ finalizers x → template_has k f w') ∧
     (z = Ok tt → template_has k template_guard w' ∧
        ∀ c, c ∈ cs → ready c = true → same_main so_spec (user_template x) (tw_user (om_name (cl_meta c)) k w'))) ∧
  (is_Some (deletion x) → template_guard ∈ finalizers x →
     (¬ template_has k template_guard w' → ∀ c, c ∈ cs → ready c = true → gone (tw_user (om_name (cl_meta c)) k w')) ∧
     (z = Ok tt → ¬ template_has k template_guard w')).

Definition selected (x : Template) (cs : list Cluster) : Prop :=
  ∀ y w l w', so_spec y = so_spec x → getClustersForConstraintTemplate r y w = (Ok l, w') → ∀ c, c ∈ cs → c ∈ l.

Lemma live_template x cs w z w' : selected x cs → tw_seed tt (object_key x) w = Some x → om_namespace (so_meta x) = "" → deletion x = None →
  reconcile r x w = (z, w') → rolls_out x cs w z w'.
Proof.
  intros Hsel Hx Hns Hd E. unfold reconcile in E. unfold rolls_out. rewrite Hd. unfold deletion in Hd. simpl in Hd. rewrite Hd in E.
  apply bind_run in E as [(p & w1 & E1 & E)|[(z1 & E1 & _) Hno]]; destruct (template_added x w _ _ Hx Hd E1) as (Hu & y & Hy & Hf & Hp).
  2: { split_and!; [intros; apply Hu|intros _; split; [intros f Hin; exists y; auto|intros ->; by destruct (Hno tt)]|by intros [? [=]]]. }
  destruct (Hp p eq_refl) as (Hs & Hk & Hg). assert (Hkey : mkKey "" (om_name (so_meta p)) = object_key x) by (rewrite <- Hns; injection Hk as _ ->; done).
  assert (Hsame : so_spec (user_template p) = so_spec (user_template x)) by (unfold user_template; simpl; by rewrite Hs).
  destruct (rollout_run (object_key x) (rtc (copying so_spec no_status (user_template p))) (same_main so_spec (user_template p)) p
    (ReconcileConstraintTemplates r [(om_name (so_meta p), constraintTemplateCreatorGetter p)] "") cs _ (same_main_copied so_spec no_status _)
    ltac:(intros h n Hat; rewrite <- Hkey; by apply put_template_acts)
    ltac:(intros h i k'; apply keeps_for_range; intros _ [? ?]; apply keeps_wrap, keeps_ensure; auto with kkp_frame; intros; by apply tw_poll)
    ltac:(intros w2 l w3; by apply Hsel) _ _ _ E) as (Hs2 & Hu2 & Hok).
  split_and!; [intros n k' Hne; by rewrite Hu2, Hu| |by intros [? [=]]]. intros _. unfold template_has. rewrite Hs2.
  split; [intros f Hin; exists y; auto|]. intros Hz. split; [by exists y|]. intros c Hc Hr. destruct (Hok Hz c Hc Hr) as (v & Hv & Hm). exists v. by rewrite <- Hsame.
Qed.

Lemma dead_template x cs w z w' : selected x cs → tw_seed tt (object_key x) w = Some x → om_namespace (so_meta x) = "" → is_Some (deletion x) →
  reconcile r x w = (z, w') → rolls_out x cs w z w'.
Proof.
  intros Hsel Hx Hns [t Hd] E. unfold reconcile in E. unfold rolls_out. rewrite Hd. unfold deletion in Hd. simpl in Hd. rewrite Hd in E.
  destruct (HasFinalizer (so_meta x) [template_guard]) eqn:Eh; cbn [negb] in E.
  2: { injection E as <- <-. split_and!; [done..|]. intros _ Hf. by rewrite (finalizer_listed x template_guard Hf : HasFinalizer (so_meta x) _ = _) in Eh. }
  set (stub := mkSpecObject (set_name (om_name (so_meta x)) emptyMeta) (tc_empty r)) in E.
  assert (Hkey : object_key stub = object_key x) by (unfold object_key; simpl; by rewrite Hns).
  pose proof (rollout_run (object_key x) dropped gone x (λ client, ignoreNotFound (c_delete client stub)) cs _ gone_dropped
    ltac:(intros h n Hat; by apply delete_template_acts) ltac:(intros h i k'; unfold ignoreNotFound, unless; frame) ltac:(intros w2 l w3; by apply Hsel)) as Hroll.
  assert (Hin : template_guard ∈ finalizers x) by (apply (proj1 (HasFinalizer_spec _ _) Eh); left).
  apply bind_run in E as [([] & w1 & E1 & E)|[(z1 & E1 & _) Hno]]; destruct (Hroll _ _ _ E1) as (Hs & Hu & Hok).
  - destruct (template_released x w1 z w' E) as [Hu2 Hz]. split_and!; [intros n k' Hne; by rewrite Hu2, Hu|done|]. intros _ _. split; [|done].
    intros _ c Hc Hr. rewrite Hu2. by apply Hok.
  - split_and!; [done..|]. intros _ _. split; [|intros ->; by destruct (Hno tt)]. intros []. exists x. by rewrite Hs.
Qed.

(** Constraint templates in user clusters: a live template loses no finalizer, and after
    a successful run is guarded and in every ready cluster that it selects; a deleted one
    loses its guard only when no such cluster has it any more.  Other templates are left
    alone. *)
Theorem template_rollout request x w z w' (cs : list Cluster) : tw_seed tt request w = Some x → object_key x = request →
  key_namespace request = "" → selected x cs → Reconcile r request w = (z, w') → rolls_out x cs w z w'.
Proof.
  intros Hx Hk Hns Hsel E. subst request. unfold Reconcile, mbind at 1, M_MBind at 1, M_bind at 1, try at 1 in E.
  destruct (c_get (tc_templates r) (object_key x) w) as [o w1] eqn:Eg.
  assert (Hs1 : ∀ i k, tw_seed i k w1 = tw_seed i k w) by (intros i k; by apply (as_get _ _ _ _ _ tw_store (object_key x) i k) in Eg).
  assert (Hu1 : ∀ i k, tw_user i k w1 = tw_user i k w) by (intros i k; by apply (tw_get_user (object_key x) i k) in Eg).
  assert (Hstay : w' = w1 → z ≠ Ok tt → rolls_out x cs w z w').
  { intros -> Hz. unfold rolls_out, template_has. rewrite Hs1. split_and!; [intros; apply Hu1|intros _; split; [intros f Hf; by exists x|done]|].
    intros _ Hf. split; [|done]. intros []. by exists x. }
  destruct o as [y|e|s|]; [|destruct (IsNotFound e) eqn:En; [by rewrite (as_get_missing _ _ _ _ _ tw_store _ _ _ _ Eg En) in Hx|]; injection E as <- <-; by apply Hstay|
    injection E as <- <-; by apply Hstay..].
  apply (as_get_ok _ _ _ _ _ tw_store) in Eg as [Hy _]. assert (y = x) as -> by congruence. rewrite <- Hs1 in Hx.
  apply reported_run in E as (w2 & E & Hw2). assert (Hro : rolls_out x cs w1 z w2).
  { destruct (deletion x) eqn:Ed; [eapply dead_template; eauto|by apply live_template]. }
  destruct Hro as (H1 & H2 & H3). assert (Hw' : (∀ i k, tw_seed i k w' = tw_seed i k w2) ∧ ∀ i k, tw_user i k w' = tw_user i k w2).
  { destruct Hw2 as [->|[msg ->]]; [done|]. split; intros i k; [apply tw_event_seed|apply tw_event_user]. }
  destruct Hw' as [Ha Hb]. unfold rolls_out, template_has in *. rewrite !Ha. setoid_rewrite Hb. split_and!; [|done..]. intros n k' Hne. by rewrite H1, Hu1.
Qed.
End templates.
