(* ===== verification/UserCluster.v ===== *)
(** * Controllers beside a user cluster

    [pkg/controller/user-cluster-controller-manager]: access to the user cluster ([rbac],
    [role-cloner-controller], [owner-binding-creator], [cluster-role-labeler]), labels of
    nodes ([node-labeler]), and what is reported to the seed ([node-version-controller],
    [ccm-csi-migrator]). *)

From S2P Require Import Prelude ResourceNames Kube Semver Net CloudApi ClusterApi Helper Corev1 Field ClusterDefaulting Rbac RbacSync Reconciling ClusterDeletion ClusterHealth MasterApi MasterSync ProjectMembers SeedProjects UpdateController.

Record Node := mkNode { nd_meta : ObjectMeta; nd_osImage : string; nd_kubeletVersion : string }.
#[global] Program Instance Node_object : Object Node := {|
  obj_meta := nd_meta;
  set_meta m n := mkNode m (nd_osImage n) (nd_kubeletVersion n);
|}.
Next Obligation. done. Qed.

(** [uz_machines] lists the annotations of the machines, [uz_kubeletFlag] is the flag
    that [common.GetKubeletFlags] of the machine-controller finds in annotations,
    [uz_order] is the order in which a map is iterated, [uz_reconciled] notes the first
    successful run of the RBAC controller. *)
Record UserEnv (W : Type) := mkUserEnv {
  uz_paused : M W bool;
  uz_clusterRoles : Client W Role;
  uz_clusterRoleBindings : Client W RoleBinding;
  uz_roles : Client W Role;
  uz_namespaces : M W (list Namespace);
  uz_nodes : Client W Node;
  uz_machines : M W (list (gmap string string));
  uz_clusters : Client W Cluster;
  uz_clusterName : string;
  uz_ownerEmail : string;
  uz_labels : gmap string string;
  uz_order : gmap string string → list (string * string);
  uz_kubeletFlag : gmap string string → string;
  uz_versions : Versions;
  uz_retry : Retry W;
  uz_now : W → Z * W;
  uz_rand : W → string * W;
  uz_roleEqual : Role → Role → bool;
  uz_bindingEqual : RoleBinding → RoleBinding → bool;
  uz_poll : M W bool → M W unit;
  uz_reconciled : W → W;
  uz_event : ObjectMeta → string → W → W;
}.
Arguments uz_paused {W}.
Arguments uz_clusterRoles {W}.
Arguments uz_clusterRoleBindings {W}.
Arguments uz_roles {W}.
Arguments uz_namespaces {W}.
Arguments uz_nodes {W}.
Arguments uz_machines {W}.
Arguments uz_clusters {W}.
Arguments uz_clusterName {W}.
Arguments uz_ownerEmail {W}.
Arguments uz_labels {W}.
Arguments uz_order {W}.
Arguments uz_kubeletFlag {W}.
Arguments uz_versions {W}.
Arguments uz_retry {W}.
Arguments uz_now {W}.
Arguments uz_rand {W}.
Arguments uz_roleEqual {W}.
Arguments uz_bindingEqual {W}.
Arguments uz_poll {W}.
Arguments uz_reconciled {W}.
Arguments uz_event {W}.

(** [NewClusterPausedChecker]: a cluster that is gone is not paused, one without a
    namespace is. *)
Definition NewClusterPausedChecker {W} (clusters : Client W Cluster) (clusterName : string) : M W bool :=
  got ← try (c_get clusters (mkKey "" clusterName));
  match got with
  | inl e => if IsNotFound e then mret false else throw (ErrWrap "failed to get cluster" e)
  | inr cluster => mret (sp_pause (cl_spec cluster) || String.eqb (cs_namespaceName (cl_status cluster)) "")
  end.

Definition UserClusterComponentKey : string := "component".
Definition UserClusterRoleComponentValue : string := "userClusterRole".
Definition UserClusterBindingComponentValue : string := "userClusterBinding".
Definition UserClusterRoleCleanupFinalizer : string := "kubermatic.k8c.io/user-cluster-role".

Section shared.
Context {W : Type} (r : UserEnv W).
Definition unless_paused (m : M W unit) : M W unit :=
  paused ← wrap "failed to check cluster pause status" (uz_paused r);
  if (paused : bool) then mret tt else m.
(** The generated reconcilers of roles and bindings. *)
Definition reconcileRoles (client : Client W Role) (msg : string) (creators : list (string * (Role → outcome Role))) (namespace : string) : M W unit :=
  for_range (λ _ '(name, create), wrap msg
    (EnsureNamedObject client (uz_roleEqual r) id (uz_poll r) (mkKey namespace name) create (mkRole emptyMeta []) false)) tt creators.
Definition reconcileBindings (creators : list (string * (RoleBinding → outcome RoleBinding))) (namespace : string) : M W unit :=
  for_range (λ _ '(name, create), wrap "failed to ensure ClusterRoleBinding"
    (EnsureNamedObject (uz_clusterRoleBindings r) (uz_bindingEqual r) id (uz_poll r) (mkKey namespace name) create
       (mkRoleBinding emptyMeta [] (mkRoleRef "" "" "")) false)) tt creators.
End shared.

(** ** Access of the groups *)

Module UserRbac.
Definition ResourceOwnerName : string := "system:kubermatic:owners".
Definition ResourceEditorName : string := "system:kubermatic:editors".
Definition ResourceViewerName : string := "system:kubermatic:viewers".
Definition clusterPolicyAPIGroup : string := "cluster.k8s.io".

(** Every change asks for all three roles. *)
Definition mapFn : list NamespacedName := map (mkKey "") [ResourceOwnerName; ResourceEditorName; ResourceViewerName].

Definition generateVerbsForGroup (groupName : string) : outcome (list string) :=
  if String.eqb groupName OwnerGroupNamePrefix || String.eqb groupName EditorGroupNamePrefix then Ok ["*"] else
  if String.eqb groupName ViewerGroupNamePrefix then Ok ["list"; "get"; "watch"] else
  Err (ErrNew "unable to generate verbs, unknown group name").

(** [groupNameRegex] is not anchored: the leftmost match counts, wherever it is. *)
Definition groupHere (s : string) : option string :=
  List.find (λ g, String.prefix ("system:" +:+ RBACResourcesNamePrefix +:+ ":" +:+ g) s)
    [OwnerGroupNamePrefix; EditorGroupNamePrefix; ViewerGroupNamePrefix].
Fixpoint findGroup (s : string) : option string :=
  match groupHere s, s with
  | Some g, _ => Some g
  | None, "" => None
  | None, String _ rest => findGroup rest
  end.
Definition getGroupName (resourceName : string) : outcome string :=
  match findGroup resourceName with
  | Some g => Ok g
  | None => Err (ErrNew "can't get group name from resource name")
  end.

Definition rule (group : string) (resources verbs : list string) : PolicyRule := mkPolicyRule [group] resources [] verbs.
Definition viewerRules (verbs : list string) : list PolicyRule :=
  [rule clusterPolicyAPIGroup ["machinedeployments"; "machinesets"; "machines"] verbs;
   rule "" ["configmaps"; "endpoints"; "persistentvolumeclaims"; "pods"; "replicationcontrollers"; "replicationcontrollers/scale";
            "serviceaccounts"; "services"; "nodes"; "namespaces"] verbs;
   rule "" ["bindings"; "events"; "limitranges"; "namespaces/status"; "pods/log"; "pods/status"; "replicationcontrollers/status";
            "resourcequotas"; "resourcequotas/status"] verbs;
   rule "apps" ["controllerrevisions"; "daemonsets"; "deployments"; "deployments/scale"; "replicasets"; "replicasets/scale";
                "statefulsets"; "statefulsets/scale"] verbs;
   rule "autoscaling" ["horizontalpodautoscalers"] verbs;
   rule "batch" ["cronjobs"; "jobs"] verbs;
   rule "networking.k8s.io" ["ingresses"; "networkpolicies"] verbs;
   rule "templates.gatekeeper.sh" ["constrainttemplates"] verbs;
   rule "constraints.gatekeeper.sh" ["*"] verbs;
   rule "config.gatekeeper.sh" ["configs"] verbs].

Definition CreateClusterRole (resourceName : string) (cr : Role) : outcome Role :=
  groupName ← getGroupName resourceName;
  verbs ← generateVerbsForGroup groupName;
  let rules :=
    if String.eqb groupName OwnerGroupNamePrefix || String.eqb groupName EditorGroupNamePrefix
    then [rule "*" ["*"] verbs] else viewerRules verbs in
  Ok (mkRole (set_name resourceName (ro_meta cr)) rules).
Definition CreateClusterRoleBinding (resourceName : string) (crb : RoleBinding) : outcome RoleBinding :=
  groupName ← getGroupName resourceName;
  Ok (mkRoleBinding (set_name resourceName (rb_meta crb)) [mkSubject rbacGroupName "Group" groupName ""]
        (mkRoleRef rbacGroupName "ClusterRole" resourceName)).

Section controller.
Context {W : Type} (r : UserEnv W).

Definition ensureRBACClusterRole (resourceName : string) : M W unit :=
  wrap "failed to reconcile ClusterRoles"
    (reconcileRoles r (uz_clusterRoles r) "failed to ensure ClusterRole" [(resourceName, CreateClusterRole resourceName)] "").
Definition ensureRBACClusterRoleBinding (resourceName : string) : M W unit :=
  wrap "failed to reconcile ClusterRoleBindings" (reconcileBindings r [(resourceName, CreateClusterRoleBinding resourceName)] "").
Definition reconcile (request : NamespacedName) : M W unit :=
  unless_paused r (
    _ ← ensureRBACClusterRole (key_name request);
    _ ← ensureRBACClusterRoleBinding (key_name request);
    emit (uz_reconciled r)).
Definition Reconcile (request : NamespacedName) : M W unit := reconcile request.
End controller.
End UserRbac.

(** ** Roles of all namespaces *)

Module RoleCloner.
Section controller.
Context `{StringSets} {W : Type} (r : UserEnv W).

Definition cloneCreator (oldRole role : Role) : outcome Role :=
  Ok (mkRole (set_labels (om_labels (ro_meta oldRole)) (ro_meta role)) (ro_rules oldRole)).
(** A namespace that gets roles: not the one they come from, and not one that is being
    deleted. *)
Definition cloneTarget (n : Namespace) : bool :=
  negb (String.eqb (om_name (ns_meta n)) NamespaceSystem) && bool_decide (om_deletionTimestamp (ns_meta n) = None).
Definition deleteClone (oldRole : Role) (namespace : string) : M W unit :=
  got ← try (c_delete (uz_roles r) (mkRole (set_name (om_name (ro_meta oldRole)) (set_namespace namespace emptyMeta)) []));
  match got with
  | inl e => if IsNotFound e then mret tt else throw (ErrWrap "failed to delete Role in namespace" e)
  | inr _ => mret tt
  end.
Definition reconcileClones (oldRole : Role) (namespaces : list string) : M W unit :=
  match om_deletionTimestamp (ro_meta oldRole) with
  | Some _ =>
      _ ← (if HasFinalizer (ro_meta oldRole) [UserClusterRoleCleanupFinalizer]
           then for_range (λ _ namespace, deleteClone oldRole namespace) tt namespaces else mret tt);
      _ ← TryRemoveFinalizer (uz_roles r) (uz_retry r) oldRole [UserClusterRoleCleanupFinalizer];
      mret tt
  | None =>
      oldRole ← wrap "failed to add finalizer" (TryAddFinalizer (uz_roles r) (uz_retry r) oldRole [UserClusterRoleCleanupFinalizer]);
      for_range (λ _ namespace, wrap "failed to reconcile Role in namespace"
        (reconcileRoles r (uz_roles r) "failed to ensure Role" [(om_name (ro_meta oldRole), cloneCreator oldRole)] namespace)) tt namespaces
  end.
Definition reconcile (role : Role) : M W unit :=
  namespaceList ← wrap "failed to get namespaces" (uz_namespaces r);
  reconcileClones role (map (λ n, om_name (ns_meta n)) (List.filter cloneTarget namespaceList)).
Definition Reconcile (request : NamespacedName) : M W unit :=
  unless_paused r (
    got ← try (c_get (uz_roles r) request);
    match got with
    | inl e => if IsNotFound e then mret tt else throw (ErrWrap "failed to get role" e)
    | inr role => reported (uz_event r) (ro_meta role) (reconcile role)
    end).

(** The requests of a change of a role or a namespace. *)
Definition eventHandler : M W (list NamespacedName) :=
  got ← try (c_list (uz_roles r) (mkListOptions NamespaceSystem [(UserClusterComponentKey, UserClusterRoleComponentValue)]));
  match got with inl _ => mret [] | inr items => mret (map object_key items) end.
End controller.
End RoleCloner.

(** ** Bindings of the API *)

Module OwnerBinding.
Definition bindingLabels : list (string * string) := [(UserClusterComponentKey, UserClusterBindingComponentValue)].
Section controller.
Context {W : Type} (r : UserEnv W).

Definition newBinding (name clusterRoleName : string) : RoleBinding :=
  mkRoleBinding (set_name name (set_labels (list_to_map bindingLabels) emptyMeta))
    (if String.eqb clusterRoleName "cluster-admin" then [mkSubject rbacGroupName "User" (uz_ownerEmail r) ""] else [])
    (mkRoleRef rbacGroupName "ClusterRole" clusterRoleName).
Definition reconcile (clusterRoleName : string) : M W unit :=
  items ← wrap "failed to list ClusterRoleBindings" (c_list (uz_clusterRoleBindings r) (mkListOptions "" bindingLabels));
  match List.find (λ b, String.eqb (rf_name (rb_roleRef b)) clusterRoleName) items with
  | Some _ => mret tt
  | None =>
      suffix ← read (uz_rand r);
      _ ← wrap "failed to create ClusterRoleBinding"
            (c_create (uz_clusterRoleBindings r) (newBinding (suffix +:+ ":" +:+ clusterRoleName) clusterRoleName));
      mret tt
  end.
Definition Reconcile (request : NamespacedName) : M W unit :=
  unless_paused r (reported (uz_event r) (set_name (key_name request) emptyMeta) (reconcile (key_name request))).

(** The requests of a change of a binding. *)
Definition enqueueAPIBindings : M W (list NamespacedName) :=
  got ← try (c_list (uz_clusterRoles r) (mkListOptions "" [(UserClusterComponentKey, UserClusterRoleComponentValue)]));
  match got with inl _ => mret [] | inr items => mret (map (λ c, mkKey "" (om_name (ro_meta c))) items) end.
End controller.
End OwnerBinding.

Module ClusterRoleLabeler.
Definition builtinRoles : list string := ["cluster-admin"; "view"; "edit"].
Section controller.
Context {W : Type} (r : UserEnv W).

Definition reconcile (clusterRole : Role) : M W unit :=
  if bool_decide (om_labels (ro_meta clusterRole) !! UserClusterComponentKey = Some UserClusterRoleComponentValue) then mret tt else
  let m := set_labels (<[UserClusterComponentKey := UserClusterRoleComponentValue]> (om_labels (ro_meta clusterRole))) (ro_meta clusterRole) in
  _ ← wrap "failed to update cluster role" (c_patch (uz_clusterRoles r) clusterRole (mkRole m (ro_rules clusterRole)));
  mret tt.
Definition Reconcile (request : NamespacedName) : M W unit :=
  unless_paused r (
    got ← try (c_get (uz_clusterRoles r) request);
    match got with
    | inl e => if IsNotFound e then mret tt else throw (ErrWrap "failed to get cluster role" e)
    | inr clusterRole => reported (uz_event r) (ro_meta clusterRole) (reconcile clusterRole)
    end).
End controller.
End ClusterRoleLabeler.

(** ** Labels of nodes *)

Module NodeLabeler.
Definition DistributionLabelKey : string := "x-kubernetes.io/distribution".
Definition FlatcarLabelValue : string := "flatcar".
Definition OSLabelMatchValues : gmap string string :=
  list_to_map [("centos", "centos"); ("ubuntu", "ubuntu"); ("sles", "sles"); ("rhel", "rhel");
               (FlatcarLabelValue, "flatcar container linux"); ("rockylinux", "rockylinux")].

(** The longest match so far: its label and its value. *)
Definition betterMatch (osImage : string) (acc : string * string) (e : string * string) : string * string :=
  if strings_Contains osImage e.2 && (String.length acc.2 <? String.length e.2)%nat then e else acc.

Section controller.
Context {W : Type} (r : UserEnv W).

Definition findDistributionLabel (osImage : string) : string :=
  (fold_left (betterMatch (ToLower osImage)) (uz_order r OSLabelMatchValues) ("", "")).1.
(** The labels and whether one has changed. *)
Definition applyDistributionLabel (osImage : string) (labels : gmap string string) : outcome (gmap string string * bool) :=
  let wantedLabel := findDistributionLabel osImage in
  if String.eqb wantedLabel "" then Err (ErrNew "could not detect distribution from image name") else
  if String.eqb (map_str labels DistributionLabelKey) wantedLabel then Ok (labels, false)
  else Ok (<[DistributionLabelKey := wantedLabel]> labels, true).
Definition applyLabel (acc : gmap string string * bool) (e : string * string) : gmap string string * bool :=
  if negb (String.eqb (map_str acc.1 e.1) e.2) then (<[e.1 := e.2]> acc.1, true) else acc.

Definition reconcile (node : Node) : M W unit :=
  let '(labels, labelsChanged) := fold_left applyLabel (uz_order r (uz_labels r)) (om_labels (nd_meta node), false) in
  '(labels, distributionLabelChanged) ← wrap "failed to apply distribution label" (lift (applyDistributionLabel (nd_osImage node) labels));
  if negb (labelsChanged || distributionLabelChanged) then mret tt else
  _ ← wrap "failed to update node"
        (c_patch (uz_nodes r) node (mkNode (set_labels labels (nd_meta node)) (nd_osImage node) (nd_kubeletVersion node)));
  mret tt.
(** Nodes of paused clusters are labelled, too. *)
Definition Reconcile (request : NamespacedName) : M W unit :=
  got ← try (c_get (uz_nodes r) request);
  match got with
  | inl e => if IsNotFound e then mret tt else throw (ErrWrap "failed to get node" e)
  | inr node => reported (uz_event r) (nd_meta node) (reconcile node)
  end.
End controller.
End NodeLabeler.

(** ** Reports to the seed *)

Module NodeVersion.
Section controller.
Context `{SemverLib} {W : Type} (r : UserEnv W).

(** The loop over the nodes. *)
Fixpoint oldest (oldestVersion : option Semver) (nodes : list Node) : outcome (option Semver) :=
  match nodes with
  | [] => Ok oldestVersion
  | node :: rest =>
      match NewSemver (nd_kubeletVersion node) with
      | inl e => Err (ErrWrap "failed to get nodes" e)
      | inr parsed =>
          if bool_decide (oldestVersion = None) || Semver_LessThan (Some parsed) oldestVersion
          then oldest (Some parsed) rest else oldest oldestVersion rest
      end
  end.
(** Parsed again, for a version without a leading v. *)
Definition reparse (oldestVersion : option Semver) : outcome (option Semver) :=
  match oldestVersion with
  | None => Ok None
  | Some _ => match NewSemver (Semver_String oldestVersion) with
              | inl e => Err (ErrWrap "failed to parse version" e)
              | inr parsed => Ok (Some parsed)
              end
  end.
Definition set_oldestNodeVersion (v : option Semver) (s : ClusterVersionsStatus) : ClusterVersionsStatus :=
  mkClusterVersionsStatus (cv_controlPlane s) (cv_apiserver s) (cv_controllerManager s) (cv_scheduler s) v.
Definition reconcile : M W unit :=
  nodes ← wrap "failed to get nodes" (c_list (uz_nodes r) (mkListOptions "" []));
  oldestVersion ← lift (oldest None nodes);
  oldestVersion ← lift (reparse oldestVersion);
  got ← try (c_get (uz_clusters r) (mkKey "" (uz_clusterName r)));
  match got with
  | inl e => if IsNotFound e then mret tt else throw (ErrWrap "failed to get cluster" e)
  | inr cluster =>
      _ ← UpdateClusterStatus (uz_clusters r) (uz_retry r) cluster (λ c, mret (with_versions (set_oldestNodeVersion oldestVersion) c));
      mret tt
  end.
Definition Reconcile (request : NamespacedName) : M W unit := reconcile.
End controller.
End NodeVersion.

Module CCMMigrator.
Definition ReasonClusterCSIKubeletMigrationCompleted : string := "CSIKubeletMigrationSuccess".
Definition ReasonClusterCCMMigrationInProgress : string := "CSIKubeletMigrationInProgress".
(** [strconv.ParseBool], with false for an error. *)
Definition parsesTrue (flag : string) : bool := bool_decide (flag ∈ ["1"; "t"; "T"; "TRUE"; "true"; "True"]).

Section controller.
Context `{SemverLib} {W : Type} (r : UserEnv W).

Definition allMigrated (machines : list (gmap string string)) : bool := forallb (λ annotations, parsesTrue (uz_kubeletFlag r annotations)) machines.
Definition reconcile (cluster : Cluster) : M W unit :=
  machines ← wrap "failed to list machines in user cluster" (uz_machines r);
  let '(newStatus, reason, message) :=
    if allMigrated machines
    then (ConditionTrue, ReasonClusterCSIKubeletMigrationCompleted, "external CCM/CSI migration completed")
    else (ConditionFalse, ReasonClusterCCMMigrationInProgress, "migrating to external CCM") in
  _ ← wrap "failed to update cluster" (UpdateClusterStatus (uz_clusters r) (uz_retry r) cluster
        (SetClusterCondition (uz_now r) (uz_versions r) ClusterConditionCSIKubeletMigrationCompleted newStatus reason message));
  mret tt.
Definition Reconcile (request : NamespacedName) : M W unit :=
  unless_paused r (
    got ← try (c_get (uz_clusters r) request);
    match got with
    | inl e => if IsNotFound e then mret tt else throw (ErrWrap "failed to get cluster" e)
    | inr cluster => reported (uz_event r) (cl_meta cluster) (reconcile cluster)
    end).
End controller.
End CCMMigrator.
