(* ===== verification/UserClusterSpec.v ===== *)
(** * Controllers beside a user cluster: theorems *)

From S2P Require Import Prelude ResourceNames Kube Semver Net CloudApi ClusterApi Helper HelperSpec Corev1 Field ClusterDefaulting Rbac RbacSync Reconciling ClusterDeletion ClusterHealth MasterApi MasterSync MasterSyncSpec ProjectMembers SeedProjects SeedProjectsSpec UpdateController UpdateControllerSpec UserCluster.

(** ** Roles and bindings *)

Definition role_main (x : Role) := (om_labels (ro_meta x), ro_rules x).
Definition grant_main (x : RoleBinding) := (rb_subjects x, rb_roleRef x).

(** The roles of a user cluster, [false] for cluster roles and [true] for those in a
    namespace, its cluster role bindings and its namespaces. *)
Class AccessWorld {W} (r : UserEnv W) := {
  xw_role : bool → NamespacedName → W → option Role;
  xw_binding : unit → NamespacedName → W → option RoleBinding;
  xw_spaces : W → list Namespace;
  xw_paused : W → bool;
  xw_clusterRoles : at_store xw_role role_main no_status (uz_clusterRoles r) false;
  xw_roles : at_store xw_role role_main no_status (uz_roles r) true;
  xw_bindings : at_store xw_binding grant_main no_status (uz_clusterRoleBindings r) tt;
  xw_pause : ∀ w z w', uz_paused r w = (z, w') → w' = w ∧ ∀ b, z = Ok b → b = xw_paused w;
  xw_get_spaces : ∀ k, keeps xw_spaces (c_get (uz_roles r) k);
  xw_list_role : ∀ i k, keeps (xw_role i k) (uz_namespaces r);
  xw_listed : ∀ w l w', uz_namespaces r w = (Ok l, w') → l = xw_spaces w;
  xw_role_get : ∀ k i k', keeps (xw_binding i k') (c_get (uz_clusterRoles r) k);
  xw_role_create : ∀ o i k', keeps (xw_binding i k') (c_create (uz_clusterRoles r) o);
  xw_role_update : ∀ o i k', keeps (xw_binding i k') (c_update (uz_clusterRoles r) o);
  xw_binding_get : ∀ k i k', keeps (xw_role i k') (c_get (uz_clusterRoleBindings r) k);
  xw_binding_create : ∀ o i k', keeps (xw_role i k') (c_create (uz_clusterRoleBindings r) o);
  xw_binding_update : ∀ o i k', keeps (xw_role i k') (c_update (uz_clusterRoleBindings r) o);
  xw_roleEqual : ∀ a b, uz_roleEqual r a b = true → role_main a = role_main b;
  xw_bindingEqual : ∀ a b, uz_bindingEqual r a b = true → grant_main a = grant_main b;
  xw_poll : ∀ A (v : W → A) cond, keeps v cond → keeps v (uz_poll r cond);
  xw_reconciled : ∀ w, (∀ i k, xw_role i k (uz_reconciled r w) = xw_role i k w) ∧ (∀ i k, xw_binding i k (uz_reconciled r w) = xw_binding i k w);
  xw_event : ∀ m msg i k w, xw_role i k (uz_event r m msg w) = xw_role i k w;
}.
#[export] Hint Resolve xw_role_get xw_role_create xw_role_update xw_binding_get xw_binding_create xw_binding_update : kkp_frame.

(** How an API server uses a rule; a star stands for everything. *)
Definition covers (l : list string) (s : string) : Prop := "*" ∈ l ∨ s ∈ l.
Definition rule_covers (rule : PolicyRule) (apiGroup resource verb : string) : Prop :=
  covers (pr_apiGroups rule) apiGroup ∧ covers (pr_resources rule) resource ∧ covers (pr_verbs rule) verb ∧ pr_resourceNames rule = [].

Section access.
Context {W : Type} (r : UserEnv W) `{XW : !AccessWorld r}.
Import UserRbac.

(** What a subject can do through the cluster role binding [k]. *)
Definition can (w : W) (k : NamespacedName) (subject : Subject) (apiGroup resource verb : string) : Prop :=
  ∃ b role rule, xw_binding tt k w = Some b ∧ subject ∈ rb_subjects b ∧ rf_kind (rb_roleRef b) = "ClusterRole" ∧
    xw_role false (mkKey "" (rf_name (rb_roleRef b))) w = Some role ∧ rule ∈ ro_rules role ∧ rule_covers rule apiGroup resource verb.

Lemma unless_paused_run m w z w' : unless_paused r m w = (z, w') →
  (xw_paused w = true → w' = w) ∧ (xw_paused w = false → (w' = w ∧ z ≠ Ok tt) ∨ m w = (z, w')).
Proof.
  intros [(b & w1 & Ep%wrap_ok_inv & E)|[(z1 & (z2 & Ep & _)%wrap_run & _) Hno]]%bind_run; apply xw_pause in Ep as [-> Hb].
  - rewrite <- (Hb b eq_refl). destruct b; [injection E as <- <-|]; split; try done. intros _. by right.
  - split; [done|]. intros _. left. by split.
Qed.

(** *** The groups *)

Abbreviation cluster_roles := (alone (uz_clusterRoles r) (uz_retry r) (uz_roleEqual r) (uz_poll r)).
#[local] Instance cluster_roles_world : SyncWorld (I := bool) cluster_roles (λ x, (role_main x).2) no_status.
Proof.
  refine (alone_world _ _ _ _ _ _ _ false (at_store_weaken _ role_main snd _ _ _ xw_clusterRoles) xw_poll _ _ _); [|done..].
  intros a b Heq. by rewrite (xw_roleEqual a b Heq).
Defined.
Abbreviation bindings := (alone (uz_clusterRoleBindings r) (uz_retry r) (uz_bindingEqual r) (uz_poll r)).
#[local] Instance bindings_world : SyncWorld (I := unit) bindings grant_main no_status.
Proof. by refine (alone_world _ _ _ _ _ _ _ tt xw_bindings xw_poll xw_bindingEqual _ _). Defined.

Definition group_rules (g : string) : list PolicyRule :=
  if String.eqb g OwnerGroupNamePrefix || String.eqb g EditorGroupNamePrefix then [rule "*" ["*"] ["*"]] else viewerRules ["list"; "get"; "watch"].

Lemma CreateClusterRole_rules n cr cr' : CreateClusterRole n cr = Ok cr' → ∃ g, getGroupName n = Ok g ∧ ro_rules cr' = group_rules g ∧ finalizers cr' = finalizers cr.
Proof.
  unfold CreateClusterRole. destruct (getGroupName n) as [g| | |]; try done. cbn. unfold generateVerbsForGroup, group_rules.
  destruct (String.eqb g OwnerGroupNamePrefix || String.eqb g EditorGroupNamePrefix) eqn:Eo; cbn [mbind outcome_bind];
    [|destruct (String.eqb g ViewerGroupNamePrefix); [|done]]; intros E; injection E as <-; exists g; by rewrite Eo.
Qed.
Lemma CreateClusterRoleBinding_main n b b' : CreateClusterRoleBinding n b = Ok b' → ∃ g, getGroupName n = Ok g ∧
  grant_main b' = ([mkSubject rbacGroupName "Group" g ""], mkRoleRef rbacGroupName "ClusterRole" n) ∧ finalizers b' = finalizers b.
Proof. unfold CreateClusterRoleBinding. destruct (getGroupName n) as [g| | |]; try done. cbn. intros [= <-]. by exists g. Qed.

Lemma role_run n g w z w' : getGroupName n = Ok g → ensureRBACClusterRole r n w = (z, w') →
  elsewhere xw_role false (mkKey "" n) w w' ∧ (∀ i k, xw_binding i k w' = xw_binding i k w) ∧
  (z = Ok tt → ∃ x, xw_role false (mkKey "" n) w' = Some x ∧ ro_rules x = group_rules g).
Proof.
  intros Hg (z1 & E & Hz)%wrap_run. set (p := mkRole emptyMeta (group_rules g)).
  assert (Hc : copies (λ x, (role_main x).2) p (CreateClusterRole n)).
  { intros e y (g' & Hg' & Hr & Hf)%CreateClusterRole_rules. split; [|done]. simpl. congruence. }
  pose proof (reconcile_acts cluster_roles _ no_status (mkKey "" n) false (uz_clusterRoles r) "ClusterRole" p _ (mkRole emptyMeta []) "" n eq_refl
    (at_store_weaken _ role_main snd _ _ _ xw_clusterRoles) Hc w z1 w' E) as (He & _ & Hok).
  assert (Hk : ∀ i k, keeps (xw_binding i k) (reconcileRoles r (uz_clusterRoles r) "failed to ensure ClusterRole" [(n, CreateClusterRole n)] "")).
  { intros i k. apply keeps_for_range. intros _ [m c]. apply keeps_wrap, keeps_ensure; auto with kkp_frame. intros. by apply xw_poll. }
  split_and!; [done|intros i k; by apply (Hk i k) in E|]. intros ->. exact (Hok tt (Hz tt eq_refl)).
Qed.
Lemma binding_run n g w z w' : getGroupName n = Ok g → ensureRBACClusterRoleBinding r n w = (z, w') →
  elsewhere xw_binding tt (mkKey "" n) w w' ∧ (∀ i k, xw_role i k w' = xw_role i k w) ∧
  (z = Ok tt → ∃ b, xw_binding tt (mkKey "" n) w' = Some b ∧
     grant_main b = ([mkSubject rbacGroupName "Group" g ""], mkRoleRef rbacGroupName "ClusterRole" n)).
Proof.
  intros Hg (z1 & E & Hz)%wrap_run. set (p := mkRoleBinding emptyMeta [mkSubject rbacGroupName "Group" g ""] (mkRoleRef rbacGroupName "ClusterRole" n)).
  assert (Hc : copies grant_main p (CreateClusterRoleBinding n)).
  { intros e y (g' & Hg' & Hr & Hf)%CreateClusterRoleBinding_main. split; [|done]. rewrite Hr. unfold grant_main. simpl. congruence. }
  pose proof (reconcile_acts bindings _ no_status (mkKey "" n) tt (uz_clusterRoleBindings r) "ClusterRoleBinding" p _
    (mkRoleBinding emptyMeta [] (mkRoleRef "" "" "")) "" n eq_refl xw_bindings Hc w z1 w' E) as (He & _ & Hok).
  assert (Hk : ∀ i k, keeps (xw_role i k) (reconcileBindings r [(n, CreateClusterRoleBinding n)] "")).
  { intros i k. apply keeps_for_range. intros _ [m c]. apply keeps_wrap, keeps_ensure; auto with kkp_frame. intros. by apply xw_poll. }
  split_and!; [done|intros i k; by apply (Hk i k) in E|]. intros ->. exact (Hok tt (Hz tt eq_refl)).
Qed.

Lemma covers_singleton (a s : string) : a ≠ "*" → covers [a] s → s = a.
Proof. intros Ha [H%list_elem_of_singleton|H%list_elem_of_singleton]; congruence. Qed.

(** Viewers read, and never secrets or access rights. *)
Lemma viewer_rules_covers rule apiGroup resource verb : rule ∈ group_rules ViewerGroupNamePrefix → rule_covers rule apiGroup resource verb →
  verb ∈ ["list"; "get"; "watch"] ∧ apiGroup ≠ rbacGroupName ∧ (apiGroup = "" → resource ≠ "secrets").
Proof.
  intros Hin (Hg & Hr & Hv & _). change (group_rules _) with (viewerRules ["list"; "get"; "watch"]) in Hin. unfold viewerRules in Hin.
  assert (Hverbs : covers ["list"; "get"; "watch"] verb → verb ∈ ["list"; "get"; "watch"]).
  { intros [H|H]; [|done]. repeat (apply elem_of_cons in H as [H|H]; [done|]). by apply elem_of_nil in H. }
  repeat (apply elem_of_cons in Hin as [-> |Hin]; [simpl in Hg, Hr, Hv; apply covers_singleton in Hg as ->; [|done]; split; [by apply Hverbs|]; split; [done|];
    first [done | intros _ ->; revert Hr; clear; intros [H|H]; repeat (apply elem_of_cons in H as [H|H]; [done|]); by apply elem_of_nil in H]|]).
  by apply elem_of_nil in Hin.
Qed.

Lemma group_of_request request : request ∈ mapFn → ∃ n g, request = mkKey "" n ∧ getGroupName n = Ok g ∧ g ∈ [OwnerGroupNamePrefix; EditorGroupNamePrefix; ViewerGroupNamePrefix].
Proof.
  intros [n [-> Hn]]%list_elem_of_fmap. exists n.
  repeat (apply elem_of_cons in Hn as [-> |Hn]; [eexists; split; [done|]; split; [by vm_compute|]; set_solver|]). by apply elem_of_nil in Hn.
Qed.

(** C33: the access of the groups of a project to a user cluster: a paused cluster is
    left alone; otherwise a run for one of the three roles touches, whatever its outcome,
    only that role and its binding.  After a successful run exactly the group of the role
    has access through the binding; owners and editors can do everything, viewers only
    list, get and watch, and neither secrets nor access rights. *)
Theorem user_cluster_access request w z w' : request ∈ mapFn → Reconcile r request w = (z, w') →
  elsewhere xw_role false request w w' ∧ elsewhere xw_binding tt request w w' ∧
  (xw_paused w = true → w' = w) ∧
  (xw_paused w = false → z = Ok tt → ∃ g, getGroupName (key_name request) = Ok g ∧
     (∀ subject apiGroup resource verb, can w' request subject apiGroup resource verb → subject = mkSubject rbacGroupName "Group" g "" ∧
        (g = ViewerGroupNamePrefix → verb ∈ ["list"; "get"; "watch"] ∧ apiGroup ≠ rbacGroupName ∧ (apiGroup = "" → resource ≠ "secrets"))) ∧
     (g ≠ ViewerGroupNamePrefix → ∀ apiGroup resource verb, can w' request (mkSubject rbacGroupName "Group" g "") apiGroup resource verb)).
Proof.
  intros (n & g & -> & Hg & Hin)%group_of_request [Hp Hn]%unless_paused_run. destruct (xw_paused w); [by rewrite (Hp eq_refl)|].
  destruct (Hn eq_refl) as [[-> Hz]|E]; [done|]. clear Hp Hn. simpl in E.
  apply bind_run in E as [([] & w1 & E1 & E)|[(z1 & E1 & _) Hno]]; destruct (role_run n g _ _ _ Hg E1) as (Hr1 & Hb1 & Hok1).
  2: { split_and!; [done|intros i k _; apply Hb1|done|]. intros _ ->. by destruct (Hno tt). }
  apply bind_run in E as [([] & w2 & E2 & E)|[(z2 & E2 & _) Hno]]; destruct (binding_run n g _ _ _ Hg E2) as (Hb2 & Hr2 & Hok2).
  2: { split_and!; [intros i k Hne; by rewrite Hr2, Hr1|intros i k Hne; by rewrite Hb2, Hb1|done|]. intros _ ->. by destruct (Hno tt). }
  injection E as <- <-. destruct (xw_reconciled w2) as [Hr3 Hb3].
  split_and!; [intros i k Hne; by rewrite Hr3, Hr2, Hr1|intros i k Hne; by rewrite Hb3, Hb2, Hb1|done|].
  intros _ _. destruct (Hok1 eq_refl) as (x & Hx & Hrules). destruct (Hok2 eq_refl) as (b & Hb & [= Hsub Href]). exists g. split; [done|]. split.
  - intros subject a res v (b' & role & rule & Hb' & Hs & _ & Hrole & Hin' & Hc). rewrite Hb3, Hb in Hb'. injection Hb' as <-.
    rewrite Hsub in Hs. apply list_elem_of_singleton in Hs as ->. split; [done|]. intros ->. rewrite Href, Hr3, Hr2 in Hrole. simpl in Hrole. rewrite Hx in Hrole. injection Hrole as <-.
    rewrite Hrules in Hin'. by eapply viewer_rules_covers.
  - intros Hne a res v. assert (Hall : ∀ s, covers ["*"] s) by (intros s; left; left).
    exists b, x, (rule "*" ["*"] ["*"]). rewrite Hb3, Hr3, Hr2, Href, Hsub, Hrules. do 2 (split; [first [done|left]|]). split; [done|].
    split; [done|]. split; [|unfold rule_covers; by split_and!].
    apply elem_of_cons in Hin as [->|[->|[->|Hin%elem_of_nil]%elem_of_cons]%elem_of_cons]; [left|left|done..].
Qed.
End access.

(** ** Copies of roles in all namespaces *)

Section clones.
Context `{StringSets} {W : Type} (r : UserEnv W) `{XW : !AccessWorld r}.
Import RoleCloner.

Abbreviation roles_alone := (alone (uz_roles r) (uz_retry r) (uz_roleEqual r) (uz_poll r)).
#[local] Instance roles_world : SyncWorld (I := bool) roles_alone role_main no_status.
Proof.
  refine (alone_world _ _ _ _ _ _ _ true xw_roles xw_poll xw_roleEqual _ _); [|done].
  intros m o Hl _. unfold role_main. simpl in *. by rewrite Hl.
Defined.

Definition clone_key (x : Role) (n : Namespace) : NamespacedName := mkKey (om_name (ns_meta n)) (om_name (ro_meta x)).
(** The namespaces that get roles: those of the user cluster that are neither the one
    the roles come from nor being deleted. *)
Record takes_clones (w : W) (n : Namespace) : Prop := {
  tc_stored : n ∈ xw_spaces w;
  tc_other : om_name (ns_meta n) ≠ "kube-system";
  tc_live : om_deletionTimestamp (ns_meta n) = None;
}.
Definition role_has (request : NamespacedName) (f : string) (w : W) : Prop := ∃ y, xw_role true request w = Some y ∧ f ∈ finalizers y.
Abbreviation guard := UserClusterRoleCleanupFinalizer.

(** What a run may touch. *)
Definition clones_only (x : Role) (T : Namespace → Prop) (w w' : W) : Prop :=
  ∀ i k, (i, k) ≠ (true, object_key x) → (∀ n, T n → (i, k) ≠ (true, clone_key x n)) → xw_role i k w' = xw_role i k w.

Lemma targets_spec w n : n ∈ List.filter cloneTarget (xw_spaces w) ↔ takes_clones w n.
Proof.
  rewrite list_elem_of_In, List.filter_In, <- list_elem_of_In. unfold cloneTarget. rewrite andb_true_iff, negb_true_iff, String.eqb_neq, bool_decide_eq_true.
  split; [by intros (? & ? & ?)|by intros [? ? ?]].
Qed.

Lemma clone_acts x n : acts xw_role (clone_key x n) true (rtc (copying role_main no_status x)) (same_main role_main x)
  (wrap "failed to reconcile Role in namespace" (reconcileRoles r (uz_roles r) "failed to ensure Role" [(om_name (ro_meta x), cloneCreator x)] (om_name (ns_meta n)))).
Proof.
  assert (Hc : copies role_main x (cloneCreator x)) by (by intros e y [= <-]).
  intros w. apply runs_wrap.
  exact (reconcile_acts roles_alone role_main no_status (clone_key x n) true (uz_roles r) "Role" x _ (mkRole emptyMeta []) _ _ eq_refl xw_roles Hc w).
Qed.
Lemma delete_clone_acts x n : acts xw_role (clone_key x n) true dropped gone (deleteClone r x (om_name (ns_meta n))).
Proof.
  intros w z w' E. unfold deleteClone, mbind, M_MBind, M_bind, try in E. set (stub := mkRole _ _) in E.
  destruct (c_delete (uz_roles r) stub w) as [u w1] eqn:Ed. destruct (as_delete _ _ _ _ _ xw_roles _ _ _ _ Ed) as (He & Hd & Hg).
  change (object_key stub) with (clone_key x n) in *.
  assert (w' = w1) as -> by (destruct u as [[]|e| |]; [|destruct (IsNotFound e)|..]; by injection E). split; [done|]. split; [exact Hd|].
  intros a -> y. apply Hg. destruct u as [[]|e| |]; try (by injection E); [by left|]. destruct (IsNotFound e) eqn:En; [|by injection E].
  right. by exists e.
Qed.

Lemma target_apart x n : om_namespace (ro_meta x) = NamespaceSystem → cloneTarget n = true → clone_key x n ≠ object_key x.
Proof. intros Hs [Hn%negb_true_iff%String.eqb_neq _]%andb_true_iff [= Heq]. congruence. Qed.

Lemma for_range_map {A B} (g : A → B) (f : B → M W unit) l : ∀ w, for_range (λ _ b, f b) tt (map g l) w = for_range (λ _ a, f (g a)) tt l w.
Proof.
  induction l as [|a l IH]; intros w; [done|]. simpl. unfold mbind, M_MBind, M_bind. destruct (f (g a) w) as [[[]| | |] w1]; [apply IH|done..].
Qed.

(** The loops of a run. *)
Lemma clone_loop (body : string → M W unit) x l R (G : option Role → Prop) w z w' : PreOrder R → (∀ a b, R a b → G a → G b) →
  om_namespace (ro_meta x) = NamespaceSystem → (∀ n, n ∈ l → cloneTarget n = true) →
  (∀ n, acts xw_role (clone_key x n) true R G (body (om_name (ns_meta n)))) →
  for_range (λ _ n, body n) tt (map (λ n, om_name (ns_meta n)) l) w = (z, w') →
  (∀ i k, (∀ n, n ∈ l → (i, k) ≠ (true, clone_key x n)) → xw_role i k w' = xw_role i k w) ∧
  xw_role true (object_key x) w' = xw_role true (object_key x) w ∧
  (z = Ok tt → ∀ n, n ∈ l → G (xw_role true (clone_key x n) w')).
Proof.
  intros HR HG Hs Ht Ha E. rewrite for_range_map in E.
  destruct (keys_loop xw_role true (clone_key x) R G (λ n, body (om_name (ns_meta n))) l HR HG ltac:(intros; apply Ha) _ _ _ E) as (H1 & _ & H3).
  split_and!; [exact H1|apply H1; intros n Hn Heq%(f_equal snd); by apply (target_apart x n Hs (Ht n Hn))|exact H3].
Qed.

Lemma live_clones x l w z w' : om_namespace (ro_meta x) = NamespaceSystem → (∀ n, n ∈ l → cloneTarget n = true) →
  xw_role true (object_key x) w = Some x → deletion x = None → reconcileClones r x (map (λ n, om_name (ns_meta n)) l) w = (z, w') →
  clones_only x (.∈ l) w w' ∧ (∀ g, g ∈ finalizers x → role_has (object_key x) g w') ∧
  (z = Ok tt → role_has (object_key x) guard w' ∧ ∀ n, n ∈ l → same_main role_main x (xw_role true (clone_key x n) w')).
Proof.
  intros Hs Ht Hx Hd E. unfold reconcileClones in E. unfold deletion in Hd. simpl in Hd. rewrite Hd in E.
  assert (Hadd : ∀ z1 w1, wrap "failed to add finalizer" (TryAddFinalizer (uz_roles r) (uz_retry r) x [guard]) w = (z1, w1) →
    elsewhere xw_role true (object_key x) w w1 ∧ ∃ y, xw_role true (object_key x) w1 = Some y ∧ marked role_main no_status (object_key x) x y ∧
    ∀ p, z1 = Ok p → marked role_main no_status (object_key x) x p ∧ role_main p = role_main y ∧ guard ∈ finalizers y).
  { intros z1 w1 E1. exact (add_finalizer_run roles_alone role_main no_status (object_key x) x guard w z1 w1 x eq_refl eq_refl Hx Hd E1). }
  apply bind_run in E as [(p & w1 & E1 & E)|[(z1 & E1 & _) Hno]]; destruct (Hadd _ _ E1) as (He & y & Hy & (_ & _ & _ & _ & Hfin) & Hp).
  2: { split_and!; [intros i k Hne _; by apply He|intros g Hg; exists y; auto|intros ->; by destruct (Hno tt)]. }
  destruct (Hp p eq_refl) as ((Hpm & _ & _ & Hpk & _) & _ & Hg). assert (Hpn : om_name (ro_meta p) = om_name (ro_meta x)) by (by injection Hpk).
  assert (Hps : om_namespace (ro_meta p) = om_namespace (ro_meta x)) by (by injection Hpk).
  assert (Hck : ∀ n, clone_key p n = clone_key x n) by (intros n; unfold clone_key; by rewrite Hpn).
  destruct (clone_loop _ p l _ _ w1 z w' _ (same_main_copied role_main no_status p) ltac:(congruence) Ht (clone_acts p) E) as (Hf & Hreq & Hok).
  rewrite Hpk in Hreq. setoid_rewrite Hck in Hf. setoid_rewrite Hck in Hok.
  split_and!.
  - intros i k Hne Hcl. rewrite Hf by done. by apply He.
  - intros g Hin. exists y. rewrite Hreq. auto.
  - intros Hz. split; [exists y; by rewrite Hreq|]. intros n Hn. destruct (Hok Hz n Hn) as (u & Hu & Hm). exists u. split; [done|congruence].
Qed.

Lemma dead_clones x l w z w' : om_namespace (ro_meta x) = NamespaceSystem → (∀ n, n ∈ l → cloneTarget n = true) →
  xw_role true (object_key x) w = Some x → is_Some (deletion x) → guard ∈ finalizers x →
  reconcileClones r x (map (λ n, om_name (ns_meta n)) l) w = (z, w') →
  clones_only x (.∈ l) w w' ∧ (¬ role_has (object_key x) guard w' → ∀ n, n ∈ l → gone (xw_role true (clone_key x n) w')) ∧
  (z = Ok tt → ¬ role_has (object_key x) guard w').
Proof.
  intros Hs Ht Hx [t Hd] Hf E. unfold reconcileClones in E. unfold deletion in Hd. simpl in Hd. rewrite Hd in E.
  change (ro_meta x) with (obj_meta x) in E. rewrite (finalizer_listed x guard Hf) in E.
  apply bind_run in E as [([] & w1 & E1 & E)|[(z1 & E1 & _) Hno]];
    destruct (clone_loop _ x l _ _ w _ _ _ gone_dropped Hs Ht (delete_clone_acts x) E1) as (Hfr & Hreq & Hok).
  2: { split_and!; [intros i k _; apply Hfr|intros []; exists x; by rewrite Hreq|intros ->; by destruct (Hno tt)]. }
  destruct (drop_finalizer_run roles_alone role_main no_status (object_key x) x guard w1 z w' eq_refl E) as (He & _ & Hz). split_and!.
  - intros i k Hne Hcl. etrans; [exact (He i k Hne)|]. by apply Hfr.
  - intros _ n Hn y Hy. assert (xw_role true (clone_key x n) w' = xw_role true (clone_key x n) w1) as Heq.
    { apply (He true (clone_key x n)). intros Heq%(f_equal snd). by apply (target_apart x n Hs (Ht n Hn)). }
    rewrite Heq in Hy. by apply (Hok eq_refl n Hn y).
  - intros Hz' (y & Hy & Hin). by apply (Hz Hz' y).
Qed.

(** C36: roles of the system namespace reach all namespaces: a paused cluster is left
    alone; otherwise a run touches, whatever its outcome, nothing but the role and its
    copies in namespaces other than kube-system that are not being deleted; a live role loses no finalizer, and
    after a successful run has its guard and a copy with its rules and labels in each of
    these namespaces; a deleted role loses its guard only when none of them has a live
    copy, and after a successful run has lost it. *)
Theorem role_clones request x w z w' : key_namespace request = NamespaceSystem → xw_role true request w = Some x →
  Reconcile r request w = (z, w') →
  clones_only x (takes_clones w) w w' ∧ (xw_paused w = true → w' = w) ∧
  (xw_paused w = false →
     (deletion x = None → (∀ g, g ∈ finalizers x → role_has request g w') ∧
        (z = Ok tt → role_has request guard w' ∧ ∀ n, takes_clones w n → same_main role_main x (xw_role true (clone_key x n) w'))) ∧
     (is_Some (deletion x) → guard ∈ finalizers x →
        (¬ role_has request guard w' → ∀ n, takes_clones w n → gone (xw_role true (clone_key x n) w')) ∧ (z = Ok tt → ¬ role_has request guard w'))).
Proof.
  intros Hns Hx E. apply (unless_paused_run r) in E as [Hp Hn]. destruct (xw_paused w); [by rewrite (Hp eq_refl)|].
  assert (Hstay : (∀ i k, xw_role i k w' = xw_role i k w) → z ≠ Ok tt → clones_only x (takes_clones w) w w' ∧ (false = true → w' = w) ∧ (false = false →
     (deletion x = None → (∀ g, g ∈ finalizers x → role_has request g w') ∧
        (z = Ok tt → role_has request guard w' ∧ ∀ n, takes_clones w n → same_main role_main x (xw_role true (clone_key x n) w'))) ∧
     (is_Some (deletion x) → guard ∈ finalizers x →
        (¬ role_has request guard w' → ∀ n, takes_clones w n → gone (xw_role true (clone_key x n) w')) ∧ (z = Ok tt → ¬ role_has request guard w')))).
  { intros Hv Hz. split_and!; [by intros i k _ _|done|]. intros _. split; [intros _; split; [|done]; intros g Hg; exists x; by rewrite Hv|].
    intros _ Hf. split; [|done]. intros []. exists x. by rewrite Hv. }
  destruct (Hn eq_refl) as [[-> Hz]|E]; [by apply Hstay|]. clear Hp Hn. unfold mbind, M_MBind, M_bind, try in E.
  destruct (c_get (uz_roles r) request w) as [o w1] eqn:Eg. pose proof (xw_get_spaces _ _ _ _ Eg) as Hsp.
  assert (Hv1 : ∀ i k, xw_role i k w1 = xw_role i k w) by (intros i k; by apply (as_get _ _ _ _ _ xw_roles request i k) in Eg).
  destruct o as [y|e| |]; [|destruct (IsNotFound e) eqn:En|..]; try (injection E as <- <-; by apply Hstay).
  2: { by rewrite (as_get_missing _ _ _ _ _ xw_roles _ _ _ _ Eg En) in Hx. }
  apply (as_get_ok _ _ _ _ _ xw_roles) in Eg as [Hy Hk]. assert (y = x) as -> by congruence. clear Hy. subst request.
  apply reported_run in E as (w2 & E & Hw2). assert (Hv2 : ∀ i k, xw_role i k w' = xw_role i k w2).
  { intros i k. destruct Hw2 as [->|[msg ->]]; [done|apply xw_event]. } clear Hw2.
  apply bind_run in E as [(l & w3 & El%wrap_ok_inv & E)|[(z1 & (z2 & El & _)%wrap_run & _) Hno]].
  2: { apply Hstay; [|done]. intros i k. by rewrite Hv2, (xw_list_role i k _ _ _ El). }
  assert (Hv3 : ∀ i k, xw_role i k w3 = xw_role i k w) by (intros i k; by rewrite (xw_list_role i k _ _ _ El)).
  apply xw_listed in El as ->. rewrite Hsp in E. clear Hstay Hsp.
  pose proof (targets_spec w) as Hin. set (l := List.filter cloneTarget (xw_spaces w)) in *.
  assert (Ht : ∀ n, n ∈ l → cloneTarget n = true) by (intros n [_ ?]%list_elem_of_In%List.filter_In; done).
  rewrite <- Hv3 in Hx. unfold clones_only, role_has. repeat setoid_rewrite Hv2. setoid_rewrite <- Hv3. setoid_rewrite <- Hin.
  assert (Hcases : clones_only x (.∈ l) w3 w2).
  { destruct (deletion x) as [t|] eqn:Ed; [|by apply (live_clones x l w3 z w2 Hns Ht Hx Ed E)].
    unfold reconcileClones in E. unfold deletion in Ed. simpl in Ed. rewrite Ed in E.
    destruct (HasFinalizer (ro_meta x) [guard]) eqn:Eh.
    - assert (Hf : guard ∈ finalizers x) by (apply (proj1 (HasFinalizer_spec _ _) Eh); left).
      apply (dead_clones x l w3 z w2 Hns Ht Hx); [by exists t|done|]. unfold reconcileClones. by rewrite Ed, Eh.
    - destruct (drop_finalizer_run roles_alone role_main no_status (object_key x) x guard w3 z w2 eq_refl E) as (He & _). by intros i k Hne _; apply (He i k Hne). }
  split; [exact Hcases|]. split; [done|]. intros _. split.
  - intros Hd. by destruct (live_clones x l w3 z w2 Hns Ht Hx Hd E).
  - intros Hd Hf. by destruct (dead_clones x l w3 z w2 Hns Ht Hx Hd Hf E).
Qed.
End clones.

(** ** The oldest node *)

(** The nodes of a user cluster, and the clusters of the seed. *)
Class NodeWorld {W} `{SemverLib, WireTime} (r : UserEnv W) := {
  nw_clusters :: ClusterWorld (uz_clusters r);
  nw_nodes : W → list Node;
  nw_list : ∀ k o, keeps (cview k) (c_list (uz_nodes r) o);
  nw_listed : ∀ w l w', c_list (uz_nodes r) (mkListOptions "" []) w = (Ok l, w') → l = nw_nodes w;
}.
#[export] Hint Resolve nw_list : kkp_frame.

Section oldest.
Context `{L : SemverLib, !SemverLaws L, WireTime} {W : Type} (r : UserEnv W) `{NW : !NodeWorld r}.
Import NodeVersion.

(** A version that is at most that of every node, and that of one of them. *)
Definition least (o : option Semver) (nodes : list Node) : Prop :=
  match o with
  | None => nodes = []
  | Some s => ∃ v, Semver_Semver (Some s) = Some v ∧ (∀ n, n ∈ nodes → ∃ u, NewVersion (nd_kubeletVersion n) = inr u ∧ ver_le v u) ∧
      ∃ n u, n ∈ nodes ∧ NewVersion (nd_kubeletVersion n) = inr u ∧ ver_Compare v u = Eq
  end.

Lemma le_equal a b c : ver_Compare a b = Eq → ver_le a c → ver_le b c.
Proof. intros Hab. apply transitivity. unfold ver_le. by rewrite (Compare_Eq_sym _ _ Hab). Qed.

Lemma oldest_spec rest : ∀ acc seen o, least acc seen → oldest acc rest = Ok o → least o (seen ++ rest).
Proof.
  induction rest as [|node rest IH]; intros acc seen o Hl E; cbn [oldest] in E; [injection E as <-; by rewrite app_nil_r|].
  unfold NewSemver, Semver_Set in E. destruct (NewVersion (nd_kubeletVersion node)) as [e|u] eqn:Eu; [done|].
  rewrite cons_middle, app_assoc.
  assert (Hnew : (∀ n, n ∈ seen → ∃ v, NewVersion (nd_kubeletVersion n) = inr v ∧ ver_le u v) → least (Some (nd_kubeletVersion node)) (seen ++ [node])).
  { intros Hs. exists u. simpl. rewrite Eu. split_and!; [done| |exists node, u; split_and!; [set_solver|done|apply Compare_refl]].
    intros n [Hn| ->%list_elem_of_singleton]%elem_of_app; [by apply Hs|]. exists u. by split; [|reflexivity]. }
  destruct acc as [a|].
  2: { simpl in Hl, E. subst seen. apply (IH _ _ _ (Hnew ltac:(set_solver)) E). }
  destruct Hl as (v & Hv & Hall & n & u' & Hn & Hu' & Hc). rewrite bool_decide_eq_false_2 in E by done. cbn [orb] in E.
  assert (Hlt : Semver_LessThan (Some (nd_kubeletVersion node)) (Some a) = ver_LessThan u v).
  { unfold Semver_LessThan, Semver_cmp. simpl in *. by rewrite Eu, Hv. }
  rewrite Hlt in E. destruct (ver_LessThan u v) eqn:Elt.
  - apply (IH _ _ _ (Hnew ltac:(intros m Hm; destruct (Hall m Hm) as (x & Hx & Hle); exists x; split; [done|]; transitivity v; [|done];
      apply ver_LessThan_spec in Elt; unfold ver_le; by rewrite Elt)) E).
  - refine (IH (Some a) _ _ _ E). exists v. split; [done|]. split.
    + intros m [Hm| ->%list_elem_of_singleton]%elem_of_app; [by apply Hall|]. exists u. split; [done|]. by apply ver_LessThan_false.
    + exists n, u'. split_and!; [set_solver|done..].
Qed.

(** Another spelling. *)
Lemma least_equal a b v u nodes : Semver_Semver (Some a) = Some v → Semver_Semver (Some b) = Some u → ver_Compare v u = Eq →
  least (Some a) nodes → least (Some b) nodes.
Proof.
  intros Ha Hb Hc (v' & Hv' & Hall & n & x & Hn & Hx & Hcx). assert (v' = v) as -> by congruence. exists u. split; [done|]. split.
  - intros m Hm. destruct (Hall m Hm) as (y & Hy & Hle). exists y. split; [done|]. by eapply le_equal.
  - exists n, x. split_and!; [done..|]. eapply Compare_Eq_trans; [|done]. by apply Compare_Eq_sym.
Qed.
Lemma reparse_least o o' nodes : least o nodes → reparse o = Ok o' → least o' nodes ∧ o' ≠ Some "".
Proof.
  destruct o as [s|]; [|by intros Hl [= <-]]. intros Hl E. pose proof Hl as (v & Hv & _). unfold reparse, Semver_String in E. rewrite Hv in E.
  destruct (NewSemverOrDie_String v) as (b & Hb & Hs & Hc). unfold NewSemver, Semver_Set in E. destruct (NewVersion (ver_String v)) eqn:Ev; [done|].
  injection E as <-. split; [by apply (least_equal s _ v b)|]. intros [= Hn]. by apply (String_nonempty v).
Qed.

(** What a merge patch keeps is another spelling of what it should write. *)
Lemma copied_least s old nodes : Versions_DeepCopy s = Ok old → cv_oldestNodeVersion old ≠ Some "" → least (cv_oldestNodeVersion old) nodes → least (cv_oldestNodeVersion s) nodes.
Proof.
  intros Hd Hne. assert (Ho : match cv_oldestNodeVersion s with None => cv_oldestNodeVersion old = None
    | Some a => ∃ b, cv_oldestNodeVersion old = Some b ∧ Semver_DeepCopy a = Ok b end).
  { unfold Versions_DeepCopy in Hd. destruct s as [cp api cm sched [a|]]; simpl in *.
    - destruct (Semver_DeepCopy cp), (Semver_DeepCopy api), (Semver_DeepCopy cm), (Semver_DeepCopy sched); try done. cbn in Hd.
      destruct (Semver_DeepCopy a) as [b| | |]; try done. injection Hd as <-. by exists b.
    - destruct (Semver_DeepCopy cp), (Semver_DeepCopy api), (Semver_DeepCopy cm), (Semver_DeepCopy sched); try done. by injection Hd as <-. }
  destruct (cv_oldestNodeVersion s) as [a|]; [|by rewrite Ho]. destruct Ho as (b & Hob & Hb). rewrite Hob in *. intros Hl. pose proof Hl as (u & Hu & _).
  unfold Semver_DeepCopy in Hb. destruct (Semver_Semver (Some a)) as [v|] eqn:Ev.
  - destruct (NewSemverOrDie_String v) as (x & Hx & Hs & Hc). unfold Semver_String in Hb. rewrite Ev, Hx in Hb. injection Hb as <-.
    assert (x = u) as -> by congruence. by eapply least_equal; [| |apply Compare_Eq_sym|].
  - by injection Hb as <-.
Qed.

(** The skew check of the update controller looks at one version and covers all nodes. *)
Definition not_behind (c : Version) (n : Node) (v : Version) : Prop :=
  ∃ u, NewVersion (nd_kubeletVersion n) = inr u ∧ (ver_Major v < ver_Major u ∨ ver_Minor c ≤ ver_Minor u + 1).
Lemma skew_covers s v nodes cp c d : least (Some s) nodes → Semver_Semver (Some s) = Some v → Semver_Semver (Some cp) = Some c →
  ver_Minor v < 2 ^ 63 → ver_Minor c < 2 ^ 63 → nodeDistance (Some s) (Some cp) = Ok d → d < 2 → ∀ n, n ∈ nodes → not_behind c n v.
Proof.
  intros (v' & Hv' & Hall & _) Hv Hc Hvb Hcb E Hd n Hn. assert (v' = v) as -> by congruence. destruct (Hall n Hn) as (u & Hu & Hle).
  exists u. split; [done|]. unfold nodeDistance in E. rewrite Hv, Hc in E. cbn [deref mbind outcome_MBind outcome_bind] in E.
  pose proof (Minor_range v). pose proof (Minor_range c). rewrite !(wrap64_small (ver_Minor _)) in E by (unfold int64_min, int64_max; lia).
  rewrite (wrap64_small (ver_Minor v - ver_Minor c)) in E by (unfold int64_min, int64_max; lia).
  destruct (Compare_major_minor v u Hle) as [?|[? ?]]; [by left|right]. destruct (Z.ltb_spec (ver_Minor v - ver_Minor c) 0); injection E as <-; [|lia].
  rewrite wrap64_small in Hd by (unfold int64_min, int64_max; lia). lia.
Qed.

(** The status of a cluster, less its versions and conditions. *)
Definition status_rest (s : ClusterStatus) :=
  (cs_lastUpdated s, cs_extendedHealth s, cs_lastProviderReconciliation s, cs_namespaceName s, cs_userName s, cs_userEmail s, cs_errorReason s,
   cs_errorMessage s, cs_phase s, cs_cloudMigrationRevision s, cs_inheritedLabels s, cs_encryption s, cs_resourceUsage s).

(** What a run may leave of the cluster [v]: everything but the oldest node version and
    the resource version.  A condition that travelled has times in whole seconds. *)
Record reported_versions (v v' : Cluster) : Prop := {
  rv_meta : ∃ rv, cl_meta v' = mkObjectMeta (om_name (cl_meta v)) (om_namespace (cl_meta v)) (om_uid (cl_meta v)) (om_labels (cl_meta v))
    (om_annotations (cl_meta v)) (om_finalizers (cl_meta v)) (om_ownerReferences (cl_meta v)) (om_creationTimestamp (cl_meta v))
    (om_deletionTimestamp (cl_meta v)) rv;
  rv_spec : cl_spec v' = cl_spec v;
  rv_address : cl_address v' = cl_address v;
  rv_typeMeta : cl_typeMeta v' = cl_typeMeta v;
  rv_rest : status_rest (cl_status v') = status_rest (cl_status v);
  rv_conditions : cs_conditions (cl_status v') = cs_conditions (cl_status v) ∨
    cs_conditions (cl_status v') = wire_cluster_condition <$> cs_conditions (cl_status v);
  rv_controlPlane : cv_controlPlane (versions_of v') = cv_controlPlane (versions_of v);
  rv_apiserver : cv_apiserver (versions_of v') = cv_apiserver (versions_of v);
  rv_controllerManager : cv_controllerManager (versions_of v') = cv_controllerManager (versions_of v);
  rv_scheduler : cv_scheduler (versions_of v') = cv_scheduler (versions_of v);
}.

Lemma reported_same v : reported_versions v v.
Proof. split; try done; [|by left]. exists (om_resourceVersion (cl_meta v)). by destruct (cl_meta v). Qed.
Lemma reported_stored rv old o v : reported_versions v (stored_cluster rv old (with_versions (set_oldestNodeVersion o) v) v).
Proof. split; try done; [by exists rv|by right|simpl; by rewrite merge1_same..]. Qed.

Lemma report_run o nodes c v k w z w' : object_key c = k → cview k w = Some v → least o nodes → o ≠ Some "" →
  UpdateClusterStatus (uz_clusters r) (uz_retry r) c (λ c, mret (with_versions (set_oldestNodeVersion o) c)) w = (z, w') →
  ∃ v', cview k w' = Some v' ∧ reported_versions v v' ∧
    (cv_oldestNodeVersion (versions_of v') = cv_oldestNodeVersion (versions_of v) ∨ least (cv_oldestNodeVersion (versions_of v')) nodes) ∧
    (∀ x, z = Ok x → least (cv_oldestNodeVersion (versions_of v')) nodes).
Proof.
  intros Hk Hv Hl Hne E. apply (UpdateClusterStatus_inv _ _ k _ c v) in E as [Hu _]; [|intros; frame| |done|done].
  2: { intros c1 w1 o1 w2 [= <- _]. split; [done|]. by intros ? [= <-]. }
  assert (Hcopy : ∀ old, Cluster_DeepCopy v = Ok old → Versions_DeepCopy (versions_of v) = Ok (versions_of old)).
  { intros old Hd. unfold Cluster_DeepCopy in Hd. destruct (Semver_DeepCopy (sp_version (cl_spec v))); try done. cbn in Hd. unfold versions_of.
    destruct (Versions_DeepCopy (cs_versions (cl_status v))) as [vs| | |]; try done. by injection Hd as <-. }
  assert (Hsame : ∀ old, Cluster_DeepCopy v = Ok old → cv_oldestNodeVersion (versions_of old) = o → least (cv_oldestNodeVersion (versions_of v)) nodes).
  { intros old Hd%Hcopy Ho. eapply copied_least; [exact Hd|by rewrite Ho..]. }
  destruct Hu as [Hw Hx|rv old c1 w1 w2 Hd [= <- _] _ Hw Hx].
  - exists v. split_and!; [done|apply reported_same|by left|]. intros x Hz. destruct (Hx x Hz) as (old & w1 & w2 & Hd & [= <- _] & Hst).
    apply (Hsame old Hd). unfold versions_of. by rewrite Hst.
  - assert (Hm : least (cv_oldestNodeVersion (versions_of (stored_cluster rv old (with_versions (set_oldestNodeVersion o) v) v))) nodes).
    { simpl. unfold merge1. destruct (decide _) as [Ho|_]; [|done]. by apply (Hsame old Hd). }
    eexists. split_and!; [exact Hw|apply reported_stored|by right|by intros _ _].
Qed.

(** C34: the oldest node: whatever its outcome, a run keeps of the stored cluster the
    metadata but its resource version, the spec, the address, the four other versions,
    the conditions (whose times travel in whole seconds) and all else of the status; it
    changes at most the oldest node version, and to one that is at most that of every node and that
    of one of them; after a successful run it is.  The skew check of the update
    controller, which looks at this version alone, then holds for all nodes: if it
    passes, no node of the same major is more than one minor behind. *)
Theorem oldest_node_reported request v w z w' : let k := mkKey "" (uz_clusterName r) in
  cview k w = Some v → Reconcile r request w = (z, w') →
  ∃ v', cview k w' = Some v' ∧ reported_versions v v' ∧
    (cv_oldestNodeVersion (versions_of v') = cv_oldestNodeVersion (versions_of v) ∨ least (cv_oldestNodeVersion (versions_of v')) (nw_nodes w)) ∧
    (z = Ok tt → least (cv_oldestNodeVersion (versions_of v')) (nw_nodes w) ∧
       ∀ s o cp c d, cv_oldestNodeVersion (versions_of v') = Some s → Semver_Semver (Some s) = Some o → Semver_Semver (Some cp) = Some c →
         ver_Minor o < 2 ^ 63 → ver_Minor c < 2 ^ 63 → nodeDistance (Some s) (Some cp) = Ok d → d < 2 →
         ∀ n, n ∈ nw_nodes w → not_behind c n o).
Proof.
  intros k Hv E. enough (∃ v', cview k w' = Some v' ∧ reported_versions v v' ∧
    (cv_oldestNodeVersion (versions_of v') = cv_oldestNodeVersion (versions_of v) ∨ least (cv_oldestNodeVersion (versions_of v')) (nw_nodes w)) ∧
    (z = Ok tt → least (cv_oldestNodeVersion (versions_of v')) (nw_nodes w))) as (v' & H1 & H2 & H3 & H4).
  { exists v'. split_and!; [done..|]. intros Hz. split; [by apply H4|]. intros s o cp c d Hs Ho Hc Hob Hcb Hdist Hd.
    specialize (H4 Hz). rewrite Hs in H4. by eapply skew_covers. }
  unfold Reconcile, reconcile in E.
  assert (Hstay : cview k w' = Some v → z ≠ Ok tt → ∃ v', cview k w' = Some v' ∧ reported_versions v v' ∧
    (cv_oldestNodeVersion (versions_of v') = cv_oldestNodeVersion (versions_of v) ∨ least (cv_oldestNodeVersion (versions_of v')) (nw_nodes w)) ∧
    (z = Ok tt → least (cv_oldestNodeVersion (versions_of v')) (nw_nodes w))) by (intros ? ?; exists v; split_and!; [done|apply reported_same|by left|done]).
  apply bind_run in E as [(l & w1 & El%wrap_ok_inv & E)|[(z1 & (z2 & El & _)%wrap_run & _) Hno]]; pose proof (nw_list k _ _ _ _ El) as Hw1; rewrite Hv in Hw1.
  2: { by apply Hstay. }
  apply nw_listed in El as ->. apply bind_run in E as [(o & w2 & [Eo <-]%lift_ok_inv & E)|[(z1 & [= _ ->] & _) Hno]]; [|by apply Hstay].
  apply bind_run in E as [(o' & w2 & [Eo' <-]%lift_ok_inv & E)|[(z1 & [= _ ->] & _) Hno]]; [|by apply Hstay].
  destruct (reparse_least o o' (nw_nodes w) (oldest_spec (nw_nodes w) None [] o eq_refl Eo) Eo') as [Hl Hne]. clear Eo Eo'.
  unfold mbind at 1, M_MBind at 1, M_bind at 1, try in E. destruct (c_get (uz_clusters r) _ w1) as [got w2] eqn:Eg. pose proof (cview_get k _ _ _ _ Eg) as Hw2.
  rewrite Hw1 in Hw2. destruct got as [c|e| |]; [|destruct (IsNotFound e) eqn:En|..]; try (injection E as <- <-; by apply Hstay).
  2: { by rewrite (cview_found _ _ _ _ _ Hw1 Eg) in En. }
  apply cview_get_ok in Eg. fold k in Eg. assert (Hk : object_key c = k) by (by eapply cview_key).
  apply bind_run in E as [(x & w3 & E & Er)|[(z1 & E & _) Hno]]; destruct (report_run o' _ c v k _ _ _ Hk Hw2 Hl Hne E) as (v' & Hv' & Hr & Hc & Hok).
  - injection Er as <- <-. exists v'. split_and!; [done..|]. intros _. by apply (Hok x).
  - exists v'. split_and!; [done..|]. intros ->. by destruct (Hno tt).
Qed.
End oldest.

(** ** Labels of nodes *)

(** A merge patch of labels that was computed from the stored node stores the new ones. *)
Class LabelledNodes {W} (r : UserEnv W) := {
  ln_node : NamespacedName → W → option Node;
  ln_order : ∀ m, uz_order r m ≡ₚ map_to_list m;
  ln_get : ∀ k k', keeps (ln_node k') (c_get (uz_nodes r) k);
  ln_get_ok : ∀ k w o w', c_get (uz_nodes r) k w = (Ok o, w') → ln_node k w = Some o ∧ object_key o = k;
  ln_get_missing : ∀ k w e w', c_get (uz_nodes r) k w = (Err e, w') → IsNotFound e = true → ln_node k w = None;
  ln_patch : ∀ old new w z w', c_patch (uz_nodes r) old new w = (z, w') → ln_node (object_key old) w = Some old → object_key new = object_key old →
    (∀ k, k ≠ object_key old → ln_node k w' = ln_node k w) ∧
    ((ln_node (object_key old) w' = Some old ∧ ∀ x, z ≠ Ok x) ∨
     ∃ y, ln_node (object_key old) w' = Some y ∧ om_labels (nd_meta y) = om_labels (nd_meta new));
  ln_event : ∀ m msg k w, ln_node k (uz_event r m msg w) = ln_node k w;
}.

Section labels.
Context {W : Type} (r : UserEnv W) `{LN : !LabelledNodes r}.
Import NodeLabeler.

(** *** The distribution *)

Definition matches (image : string) (e : string * string) : Prop := strings_Contains (ToLower image) e.2 = true.
Definition longest (image label : string) : Prop :=
  ∃ value, OSLabelMatchValues !! label = Some value ∧ matches image (label, value) ∧
    ∀ label' value', OSLabelMatchValues !! label' = Some value' → matches image (label', value') → (String.length value' ≤ String.length value)%nat.

Lemma best_match image l : ∀ acc, let best := fold_left (betterMatch (ToLower image)) l acc in
  (best = acc ∨ (best ∈ l ∧ matches image best ∧ (String.length acc.2 < String.length best.2)%nat)) ∧
  (String.length acc.2 ≤ String.length best.2)%nat ∧ ∀ e, e ∈ l → matches image e → (String.length e.2 ≤ String.length best.2)%nat.
Proof.
  induction l as [|e l IH]; intros acc; simpl; [split_and!; [by left|done|by intros e ?%elem_of_nil]|].
  destruct (IH (betterMatch (ToLower image) acc e)) as (Hb & Hle & Hall). set (best := fold_left _ l _) in *.
  unfold betterMatch in *. destruct (strings_Contains (ToLower image) e.2) eqn:Ec; simpl in *.
  - destruct (Nat.ltb_spec (String.length acc.2) (String.length e.2)).
    + split_and!; [right|lia|].
      * destruct Hb as [->|(? & ? & ?)]; (split; [try (left; fail); set_solver|]); (split; [done|lia]).
      * intros e' [->|He]%elem_of_cons Hm; [lia|by apply Hall].
    + split_and!; [destruct Hb as [->|(? & ? & ?)]; [by left|right; set_solver]|lia|]. intros e' [->|He]%elem_of_cons Hm; [lia|by apply Hall].
  - split_and!; [destruct Hb as [->|(? & ? & ?)]; [by left|right; set_solver]|lia|].
    intros e' [->|He]%elem_of_cons Hm; [unfold matches in Hm; congruence|by apply Hall].
Qed.

Lemma values_nonempty : map_Forall (λ label value, label ≠ "" ∧ value ≠ "") OSLabelMatchValues.
Proof.
  intros label value Hl%elem_of_list_to_map_2. repeat (apply elem_of_cons in Hl as [[= -> ->]|Hl]; [done|]). by apply elem_of_nil in Hl.
Qed.

Lemma findDistributionLabel_spec image : (findDistributionLabel r image = "" ∧ ∀ label value, OSLabelMatchValues !! label = Some value → ¬ matches image (label, value)) ∨
  (findDistributionLabel r image ≠ "" ∧ longest image (findDistributionLabel r image)).
Proof.
  unfold findDistributionLabel. set (l := uz_order r OSLabelMatchValues).
  assert (Hin : ∀ e, e ∈ l ↔ OSLabelMatchValues !! e.1 = Some e.2).
  { intros [a b]. unfold l. rewrite (ln_order OSLabelMatchValues). apply elem_of_map_to_list. }
  destruct (best_match image l ("", "")) as (Hb & _ & Hall). set (best := fold_left _ l _) in *.
  assert (Hlen : ∀ label value, OSLabelMatchValues !! label = Some value → (0 < String.length value)%nat).
  { intros label value [_ Hv]%values_nonempty. destruct value; [done|simpl; lia]. }
  destruct Hb as [->|(Hbin & Hm & _)].
  - left. split; [done|]. intros label value Hl Hm. specialize (Hall (label, value) (proj2 (Hin (label, value)) Hl) Hm). simpl in Hall. specialize (Hlen _ _ Hl). lia.
  - right. apply Hin in Hbin. split; [by apply values_nonempty in Hbin as [? _]|]. exists best.2. split_and!; [done|by destruct best|].
    intros label' value' Hl' Hm'. by apply (Hall (label', value')), Hm'; apply Hin.
Qed.

(** *** The labels *)

Lemma applyLabel_fold l : ∀ acc, NoDup l.*1 → let res := fold_left applyLabel l acc in
  (∀ k v, (k, v) ∈ l → map_str res.1 k = v) ∧ (∀ k, k ∉ l.*1 → res.1 !! k = acc.1 !! k) ∧ (res.2 = false → res = acc).
Proof.
  induction l as [|[a b] l IH]; intros acc Hnd; simpl; [split_and!; [by intros k v ?%elem_of_nil|done..]|].
  apply NoDup_cons in Hnd as [Hn Hnd]. destruct (IH (applyLabel acc (a, b)) Hnd) as (H1 & H2 & H3). set (res := fold_left _ l _) in *.
  assert (Ha : map_str (applyLabel acc (a, b)).1 a = b ∧ (∀ k, k ≠ a → (applyLabel acc (a, b)).1 !! k = acc.1 !! k) ∧
    ((applyLabel acc (a, b)).2 = false → applyLabel acc (a, b) = acc)).
  { unfold applyLabel. simpl. destruct (String.eqb_spec (map_str acc.1 a) b); simpl; [done|]. split_and!; [|by intros k ?; rewrite lookup_insert_ne|done].
    unfold map_str. by rewrite lookup_insert_eq. }
  destruct Ha as (Ha1 & Ha2 & Ha3). split_and!.
  - intros k v [[= -> ->]|Hin]%elem_of_cons; [|by apply H1]. unfold map_str in *. by rewrite H2.
  - intros k [Hk1 Hk2]%not_elem_of_cons. rewrite H2 by done. by apply Ha2.
  - intros Hr. pose proof (H3 Hr) as Heq. rewrite Heq. apply Ha3. by rewrite <- Heq.
Qed.

(** The labels that a node should have. *)
Record wanted_labels (image : string) (before after : gmap string string) : Prop := {
  wl_distribution : ∃ label, longest image label ∧ after !! DistributionLabelKey = Some label;
  wl_configured : ∀ k v, uz_labels r !! k = Some v → k ≠ DistributionLabelKey → map_str after k = v;
  wl_others : ∀ k, uz_labels r !! k = None → k ≠ DistributionLabelKey → after !! k = before !! k;
}.

Lemma labels_wanted node labels changed after changed' : fold_left applyLabel (uz_order r (uz_labels r)) (om_labels (nd_meta node), false) = (labels, changed) →
  applyDistributionLabel r (nd_osImage node) labels = Ok (after, changed') →
  wanted_labels (nd_osImage node) (om_labels (nd_meta node)) after ∧ (changed || changed' = false → after = om_labels (nd_meta node)).
Proof.
  intros E1 E2. set (l := uz_order r (uz_labels r)) in *.
  assert (Hin : ∀ k v, (k, v) ∈ l ↔ uz_labels r !! k = Some v) by (intros k v; unfold l; rewrite (ln_order (uz_labels r)); apply elem_of_map_to_list).
  assert (Hnd : NoDup l.*1) by (unfold l; rewrite (ln_order (uz_labels r)); apply NoDup_fst_map_to_list).
  destruct (applyLabel_fold l (om_labels (nd_meta node), false) Hnd) as (H1 & H2 & H3). rewrite E1 in *. simpl in *.
  assert (Hnone : ∀ k, uz_labels r !! k = None → k ∉ l.*1).
  { intros k Hk ([k' v] & -> & Hkv)%list_elem_of_fmap. apply Hin in Hkv. simpl in Hk. congruence. }
  unfold applyDistributionLabel in E2. destruct (findDistributionLabel_spec (nd_osImage node)) as [[He _]|[Hne Hl]]; [by rewrite He in E2|].
  apply String.eqb_neq in Hne as Hne'. rewrite Hne' in E2. destruct (String.eqb_spec (map_str labels DistributionLabelKey) (findDistributionLabel r (nd_osImage node))) as [Hd|Hd];
    injection E2 as <- <-.
  - split; [split|].
    + exists (findDistributionLabel r (nd_osImage node)). split; [done|]. unfold map_str in Hd. destruct (labels !! DistributionLabelKey); simpl in Hd; congruence.
    + intros k v Hk _. by apply H1, Hin.
    + intros k Hk _. by apply H2, Hnone.
    + intros [Hc _]%orb_false_iff. by injection (H3 Hc).
  - split; [split|].
    + exists (findDistributionLabel r (nd_osImage node)). split; [done|]. by rewrite lookup_insert_eq.
    + intros k v Hk Hkd. unfold map_str. rewrite lookup_insert_ne by done. by apply H1, Hin.
    + intros k Hk Hkd. rewrite lookup_insert_ne by done. by apply H2, Hnone.
    + by intros [_ ?]%orb_false_iff.
Qed.

(** Labels of nodes: whatever its outcome, a run touches no other node, and leaves
    the labels or sets them to the wanted ones: the distribution with the longest name in
    the image, the configured labels, and the others as they were.  After a successful
    run they are the wanted ones.  A node with an unknown image gets none of its labels,
    and its runs fail. *)
Theorem node_labels request x w z w' : ln_node request w = Some x → Reconcile r request w = (z, w') →
  (∀ k, k ≠ request → ln_node k w' = ln_node k w) ∧
  (∃ y, ln_node request w' = Some y ∧ (y = x ∨ wanted_labels (nd_osImage x) (om_labels (nd_meta x)) (om_labels (nd_meta y))) ∧
     (z = Ok tt → wanted_labels (nd_osImage x) (om_labels (nd_meta x)) (om_labels (nd_meta y)))) ∧
  ((∀ label value, OSLabelMatchValues !! label = Some value → ¬ matches (nd_osImage x) (label, value)) → ln_node request w' = Some x ∧ z ≠ Ok tt).
Proof.
  intros Hx E. unfold Reconcile, mbind, M_MBind, M_bind, try in E.
  assert (Hstay : (∀ k, ln_node k w' = ln_node k w) → z ≠ Ok tt →
    (∀ k, k ≠ request → ln_node k w' = ln_node k w) ∧
    (∃ y, ln_node request w' = Some y ∧ (y = x ∨ wanted_labels (nd_osImage x) (om_labels (nd_meta x)) (om_labels (nd_meta y))) ∧
       (z = Ok tt → wanted_labels (nd_osImage x) (om_labels (nd_meta x)) (om_labels (nd_meta y)))) ∧
    ((∀ label value, OSLabelMatchValues !! label = Some value → ¬ matches (nd_osImage x) (label, value)) → ln_node request w' = Some x ∧ z ≠ Ok tt)).
  { intros Hv Hz. split_and!; [done|exists x; rewrite Hv; by split_and!; [|left|]|intros _; by rewrite Hv]. }
  destruct (c_get (uz_nodes r) request w) as [o w1] eqn:Eg. assert (Hv1 : ∀ k, ln_node k w1 = ln_node k w) by (intros k; by apply (ln_get _ k) in Eg).
  destruct o as [y|e| |]; [|destruct (IsNotFound e) eqn:En|..]; try (injection E as <- <-; by apply Hstay).
  2: { by rewrite (ln_get_missing _ _ _ _ Eg En) in Hx. }
  apply ln_get_ok in Eg as [Hy Hk]. assert (y = x) as -> by congruence. clear Hy. subst request.
  apply reported_run in E as (w2 & E & Hw2). assert (Hv2 : ∀ k, ln_node k w' = ln_node k w2).
  { intros k. destruct Hw2 as [->|[msg ->]]; [done|apply ln_event]. } clear Hw2.
  unfold reconcile in E. destruct (fold_left applyLabel _ _) as [labels changed] eqn:Ef.
  apply bind_run in E as [([after changed'] & w3 & [Ed <-]%wrap_ok_inv%lift_ok_inv & E)|[(z1 & (z2 & [= _ ->] & _)%wrap_run & _) Hno]].
  2: { apply Hstay; [|done]. intros k. by rewrite Hv2, Hv1. }
  destruct (labels_wanted _ _ _ _ _ Ef Ed) as [Hwant Hsame].
  assert (Hmatch : (∀ label value, OSLabelMatchValues !! label = Some value → ¬ matches (nd_osImage x) (label, value)) → False).
  { intros Hno. destruct (wl_distribution _ _ _ Hwant) as (label & (value & Hl & Hm & _) & _). by apply (Hno label value). }
  destruct (changed || changed') eqn:Ech; simpl in E.
  2: { injection E as <- <-. rewrite (Hsame eq_refl) in Hwant. split_and!; [intros k _; by rewrite Hv2, Hv1| |by intros ?%Hmatch].
       exists x. rewrite Hv2, Hv1. split_and!; [done|by left|done]. }
  set (new := mkNode _ _ _) in E. rewrite <- Hv1 in Hx.
  assert (Hpatch : ∃ z2, c_patch (uz_nodes r) x new w1 = (z2, w2) ∧ (z = Ok tt → ∃ a, z2 = Ok a)).
  { apply bind_run in E as [(a & w4 & (z2 & E & Hz)%wrap_run & E')|[(z1 & (z2 & E & _)%wrap_run & _) Hno]]; [injection E' as <- <-|]; exists z2.
    - split; [done|]. intros _. exists a. by apply Hz.
    - split; [done|]. intros ->. by destruct (Hno tt). }
  destruct Hpatch as (z2 & Ep & Hz). destruct (ln_patch _ _ _ _ _ Ep Hx eq_refl) as [He Hcase].
  split_and!; [intros k Hk; by rewrite Hv2, He, Hv1| |by intros ?%Hmatch]. rewrite Hv2.
  destruct Hcase as [[Hn Hno]|(y & Hy & Hl)]; [exists x|exists y; rewrite Hl]; split_and!; try done; [by left| |by right].
  intros [a Ha]%Hz. by destruct (Hno a).
Qed.
End labels.

(** ** Bindings of the API *)

Section owner.
Context {W : Type} (r : UserEnv W) `{XW : !AccessWorld r}.
Import OwnerBinding.
Context (Hlisted : ∀ w l w', c_list (uz_clusterRoleBindings r) (mkListOptions "" bindingLabels) w = (Ok l, w') →
  (∀ i k, xw_binding i k w' = xw_binding i k w) ∧
  ∀ b, b ∈ l ↔ xw_binding tt (object_key b) w = Some b ∧ om_labels (rb_meta b) !! UserClusterComponentKey = Some UserClusterBindingComponentValue).

(** A binding of the API for the cluster role [n]. *)
Definition bound (n : string) (w : W) : Prop := ∃ b, xw_binding tt (object_key b) w = Some b ∧
  om_labels (rb_meta b) !! UserClusterComponentKey = Some UserClusterBindingComponentValue ∧ rf_name (rb_roleRef b) = n.

(** The owner of a cluster is bound once, to the cluster-admin role only: while there is
    a binding of the API for a role, no run changes any binding, so subjects that users
    remove stay removed; otherwise a successful run creates one that has no subject but,
    for cluster-admin, the owner. *)
Theorem owner_bound_once n w w' : reconcile r n w = (Ok tt, w') → (∀ w s w', uz_rand r w = (s, w') → ∀ i k, xw_binding i k w' = xw_binding i k w) →
  (bound n w → ∀ i k, xw_binding i k w' = xw_binding i k w) ∧
  (¬ bound n w → ∃ suffix, let k := mkKey "" (suffix +:+ ":" +:+ n) in elsewhere xw_binding tt k w w' ∧ xw_binding tt k w = None ∧
     ∃ b, xw_binding tt k w' = Some b ∧ rf_name (rb_roleRef b) = n ∧
       rb_subjects b = if String.eqb n "cluster-admin" then [mkSubject rbacGroupName "User" (uz_ownerEmail r) ""] else []).
Proof.
  intros E Hrand. apply bind_ok_inv in E as (l & w1 & [Hv1 Hl]%wrap_ok_inv%Hlisted & E).
  destruct (List.find _ l) as [b|] eqn:Ef.
  - injection E as <-. split; [done|]. intros []. apply List.find_some in Ef as [Hb%list_elem_of_In Hn%String.eqb_eq]. exists b. by apply Hl in Hb as [? ?].
  - apply bind_ok_inv in E as (suffix & w2 & Er & E). unfold read in Er. destruct (uz_rand r w1) as [s w3] eqn:Es. injection Er as <- <-.
    pose proof (Hrand _ _ _ Es) as Hv2. apply bind_ok_inv in E as (x & w4 & Ec%wrap_ok_inv & E). injection E as <-.
    split; [intros (b & Hb & Hlab & Hn); destruct (proj1 (String.eqb_neq _ _) (List.find_none _ _ Ef b (proj1 (list_elem_of_In _ _) (proj2 (Hl b) (conj Hb Hlab)))) Hn)|].
    intros _. exists s. intros k. destruct (as_create _ _ _ _ _ xw_bindings _ _ _ _ Ec) as [He [[_ Hno]|(Hn & b & Hb & Hm)]]; [by destruct (Hno x)|].
    change (object_key (newBinding r (s +:+ ":" +:+ n) n)) with k in *. split_and!; [intros i k' Hne; by rewrite He, Hv2, Hv1|by rewrite <- Hv1, <- Hv2|].
    exists b. split; [done|]. injection Hm as H1 H2. by rewrite H1, H2.
Qed.
End owner.

(** ** The migration to external cloud controllers *)

Section migration.
Context `{SemverLib, WireTime} {W : Type} (r : UserEnv W) `{CW : !ClusterWorld (uz_clusters r)}.
Import CCMMigrator.
Context (Hnow : ∀ k, keeps (cview k) (read (uz_now r))).
#[local] Hint Resolve Hnow : kkp_frame.

(** The condition that ends the migration, after a successful run: it is true exactly if
    the kubelets of all machines use the external cloud provider. *)
Theorem migration_condition c v w w' machines : let k := object_key c in
  (∀ k, keeps (cview k) (uz_machines r)) → (∀ l w1, uz_machines r w = (Ok l, w1) → l = machines) →
  cview k w = Some v → reconcile r c w = (Ok tt, w') →
  ∃ v' cond, cview k w' = Some v' ∧ cl_spec v' = cl_spec v ∧ cs_conditions (cl_status v') !! ClusterConditionCSIKubeletMigrationCompleted = Some cond ∧
    cc_status cond = if forallb (λ annotations, parsesTrue (uz_kubeletFlag r annotations)) machines then ConditionTrue else ConditionFalse.
Proof.
  intros k Hkeep Hmach Hv E. apply bind_ok_inv in E as (l & w1 & El%wrap_ok_inv & E). pose proof (Hkeep k _ _ _ El) as Hw1. rewrite Hv in Hw1.
  apply Hmach in El as ->. fold (allMigrated r machines).
  assert (Hstep : ∀ s reason m, (_ ← wrap "failed to update cluster" (UpdateClusterStatus (uz_clusters r) (uz_retry r) c
        (SetClusterCondition (uz_now r) (uz_versions r) ClusterConditionCSIKubeletMigrationCompleted s reason m)); mret tt) w1 = (Ok tt, w') →
    ∃ v' cond, cview k w' = Some v' ∧ cl_spec v' = cl_spec v ∧ cs_conditions (cl_status v') !! ClusterConditionCSIKubeletMigrationCompleted = Some cond ∧ cc_status cond = s).
  { intros s reason m Es. apply bind_ok_inv in Es as (x & w2 & Ex%wrap_ok_inv & Es). injection Es as <-.
    apply (UpdateClusterStatus_inv _ _ k _ c v) in Ex as [Hu _]; [|intros; unfold SetClusterCondition; frame|apply SetClusterCondition_status_only|done|done].
    destruct Hu as [Hw Hsame|rv old c1 w3 w4 Hd Hc1 _ Hw _].
    - destruct (Hsame x eq_refl) as (old & w3 & w4 & Hd & Hx & Hst). exists v.
      destruct (SetClusterCondition_set _ _ _ _ _ _ _ _ _ _ Hx) as (cond & Hl & Hs & _). exists cond. split_and!; [done..| |done].
      unfold Cluster_DeepCopy in Hd. o_inv. apply (f_equal cs_conditions) in Hst. simpl in Hst. by rewrite Hst.
    - destruct (SetClusterCondition_set _ _ _ _ _ _ _ _ _ _ Hc1) as (cond & Hl & Hs & _).
      eexists _, (wire_cluster_condition cond). split_and!; [exact Hw|done| |done]. simpl. by rewrite lookup_fmap, Hl. }
  destruct (allMigrated r machines); by apply Hstep in E.
Qed.
End migration.
