(* ===== verification/Applications.v ===== *)
(** * Applications in user clusters

    The types of [pkg/apis/apps.kubermatic/v1], the checks of [pkg/validation] and
    [pkg/webhook/application] for them, [pkg/applications/installer.go] and the
    [application-installation-controller] of the user-cluster-controller-manager. *)

From S2P Require Import Prelude ResourceNames Kube Semver Net CloudApi ClusterApi Helper Corev1 Field ClusterDefaulting ClusterValidation Rbac RbacSync Reconciling ClusterDeletion ClusterHealth MasterApi MasterSync ProjectMembers SeedProjects.

(** ** Definitions *)

(** [corev1.SecretKeySelector]. *)
Record KeySelector := mkKeySelector { ks_name : string; ks_key : string }.
Record HelmCredentials := mkHelmCredentials { hc_username : KeySelector; hc_password : KeySelector }.
Record HelmSource := mkHelmSource { hs_url : string; hs_chartName : string; hs_chartVersion : string; hs_credentials : option HelmCredentials }.
Record GitCredentials := mkGitCredentials {
  gc_method : string;
  gc_username : option KeySelector;
  gc_password : option KeySelector;
  gc_token : option KeySelector;
  gc_sshKey : option KeySelector;
}.
Record GitReference := mkGitReference { gr_branch : string; gr_commit : string; gr_tag : string }.
Record GitSource := mkGitSource { gs_remote : string; gs_ref : GitReference; gs_path : string; gs_credentials : option GitCredentials }.
Record ApplicationSource := mkApplicationSource { src_helm : option HelmSource; src_git : option GitSource }.
Record FormField := mkFormField { ff_type : string; ff_displayName : string; ff_internalName : string; ff_helpText : string; ff_required : bool }.
Record ApplicationTemplate := mkApplicationTemplate { apt_source : ApplicationSource; apt_method : string; apt_formSpec : list FormField }.
Record ApplicationConstraints := mkApplicationConstraints { apc_k8sVersion : string; apc_kkpVersion : string }.
Record ApplicationVersion := mkApplicationVersion {
  av_version : string;
  av_constraints : ApplicationConstraints;
  av_template : ApplicationTemplate;
}.
Record ApplicationDefinition := mkApplicationDefinition { adf_meta : ObjectMeta; adf_description : string; adf_versions : list ApplicationVersion }.
#[global] Program Instance ApplicationDefinition_object : Object ApplicationDefinition := {|
  obj_meta := adf_meta;
  set_meta m d := mkApplicationDefinition m (adf_description d) (adf_versions d);
|}.
Next Obligation. done. Qed.

Definition GitAuthMethodPassword : string := "password".
Definition GitAuthMethodToken : string := "token".
Definition GitAuthMethodSSHKey : string := "ssh-key".
Definition ApplicationInstallationCleanupFinalizer : string := "kubermatic.k8c.io/cleanup-application-installation".

(** ** Installations

    [ai_applicationVersion] is the part of the status that controllers use. *)

Record NamespaceSpec := mkNamespaceSpec {
  nsp_name : string;
  nsp_create : bool;
  nsp_labels : gmap string string;
  nsp_annotations : gmap string string;
}.

Section installations.
Context `{SemverLib}.
Record ApplicationRef := mkApplicationRef { ar_name : string; ar_version : Version }.
Record ApplicationInstallationSpec := mkInstallationSpec { ais_namespace : NamespaceSpec; ais_applicationRef : ApplicationRef; ais_values : string }.
Record ApplicationInstallation := mkInstallation {
  ai_meta : ObjectMeta;
  ai_spec : ApplicationInstallationSpec;
  ai_applicationVersion : option ApplicationVersion;
}.
#[global] Program Instance ApplicationInstallation_object : Object ApplicationInstallation := {|
  obj_meta := ai_meta;
  set_meta m a := mkInstallation m (ai_spec a) (ai_applicationVersion a);
|}.
Next Obligation. done. Qed.
End installations.

(** ** Validation *)

Module ApplicationValidation.
Section validation.
Context `{SemverLib}.

Definition validateSemverRange (v : string) (f : Path) : option FieldError :=
  match NewConstraint v with inl _ => Some (Invalid f "is not a valid semVer range") | inr _ => None end.
Definition validateGitRef (ref : GitReference) (f : Path) : option FieldError :=
  let empty s := String.eqb s "" in
  if empty (gr_tag ref) && empty (gr_branch ref) && empty (gr_commit ref)
  then Some (Required f "at least a branch, a commit or tag must be defined") else
  if negb (empty (gr_tag ref)) && (negb (empty (gr_branch ref)) || negb (empty (gr_commit ref)))
  then Some (Forbidden (child f ["tag"]) "tag can not be used in conjunction with branch or commit") else None.
Definition validateGitCredentials (credentials : option GitCredentials) (f : Path) : list FieldError :=
  match credentials with
  | None => []
  | Some c =>
      let missing (o : option KeySelector) := match o with None => true | Some _ => false end in
      if String.eqb (gc_method c) GitAuthMethodPassword then
        err_if (missing (gc_username c)) (Required (child f ["username"]) "username is required") ++
        err_if (missing (gc_password c)) (Required (child f ["password"]) "password is required")
      else if String.eqb (gc_method c) GitAuthMethodToken then
        err_if (missing (gc_token c)) (Required (child f ["token"]) "token is required")
      else if String.eqb (gc_method c) GitAuthMethodSSHKey then
        err_if (missing (gc_sshKey c)) (Required (child f ["sshKey"]) "sshKey is required")
      else [Invalid (child f ["method"]) "unknown method"]
  end.
Definition validateGitSource (gitSource : GitSource) (f : Path) : list FieldError :=
  err_opt (validateGitRef (gs_ref gitSource) (child f ["ref"])) ++
  validateGitCredentials (gs_credentials gitSource) (child f ["credentials"]).
Definition validateSource (source : ApplicationSource) (f : Path) : list FieldError :=
  match src_helm source, src_git source with
  | Some _, Some _ => [Forbidden f "only source type can be provided"]
  | None, Some git => validateGitSource git (child f ["git"])
  | Some _, None => []
  | None, None => [Required f "no source provided"]
  end.

(** The loop over the versions, with its index and the texts that were seen. *)
Fixpoint validateVersions (i : nat) (lookup : gset string) (vs : list ApplicationVersion) (parent : Path) : list FieldError :=
  match vs with
  | [] => []
  | v :: rest =>
      let curVField := "versions[" +:+ pretty (N.of_nat i) +:+ "]" in
      err_opt (validateSemverRange (apc_k8sVersion (av_constraints v)) (child parent [curVField +:+ ".constraints.k8sVersion"])) ++
      err_opt (validateSemverRange (apc_kkpVersion (av_constraints v)) (child parent [curVField +:+ ".constraints.kkpVersion"])) ++
      validateSource (apt_source (av_template v)) (child parent [curVField +:+ ".template.source"]) ++
      err_if (bool_decide (av_version v ∈ lookup)) (Duplicate (child parent [curVField +:+ ".Version"]) (av_version v)) ++
      validateVersions (S i) ({[av_version v]} ∪ lookup) rest parent
  end.
Definition ValidateApplicationVersions (vs : list ApplicationVersion) (parent : Path) : list FieldError := validateVersions 0 ∅ vs parent.
(** [openapi] are the errors that the schema of the CRD gives. *)
Definition ValidateApplicationDefinition (openapi : ApplicationDefinition → list FieldError) (ad : ApplicationDefinition) : list FieldError :=
  openapi ad ++ ValidateApplicationVersions (adf_versions ad) "spec".

Section requests.
Context {W : Type} (definitions : Client W ApplicationDefinition).

Definition ValidateApplicationInstallationSpec (spec : ApplicationInstallationSpec) : M W (list FieldError) :=
  let ref := ais_applicationRef spec in
  got ← try (c_get definitions (mkKey "" (ar_name ref)));
  match got with
  | inl e =>
      mret [if IsNotFound e then NotFound (child "spec" ["applicationRef"; "name"]) (ar_name ref)
            else InternalError (child "spec" ["applicationRef"; "name"]) e]
  | inr ad =>
      let desiredVersion := ver_String (ar_version ref) in
      mret (err_if (negb (existsb (λ v, String.eqb (av_version v) desiredVersion) (adf_versions ad)))
              (NotFound (child "spec" ["applicationRef"; "version"]) desiredVersion))
  end.
Definition ValidateApplicationInstallationUpdate (newAI oldAI : ApplicationInstallation) : M W (list FieldError) :=
  errs ← ValidateApplicationInstallationSpec (ai_spec newAI);
  let new := ai_spec newAI in
  let old := ai_spec oldAI in
  mret (errs ++
    ValidateImmutableField (nsp_create (ais_namespace new)) (nsp_create (ais_namespace old)) (child "spec" ["namespace"; "create"]) ++
    ValidateImmutableField (nsp_name (ais_namespace new)) (nsp_name (ais_namespace old)) (child "spec" ["namespace"; "name"]) ++
    ValidateImmutableField (ver_String (ar_version (ais_applicationRef new))) (ver_String (ar_version (ais_applicationRef old)))
      (child "spec" ["applicationRef"; "version"]) ++
    ValidateImmutableField (ar_name (ais_applicationRef new)) (ar_name (ais_applicationRef old)) (child "spec" ["applicationRef"; "name"])).

(** The webhook for installations, after decoding: the objects of a request. *)
Inductive Operation := Create (ad : ApplicationInstallation) | Update (ad oldAD : ApplicationInstallation) | Delete.
Definition Handle (req : Operation) : M W bool :=
  allErrs ← match req with
            | Create ad => ValidateApplicationInstallationSpec (ai_spec ad)
            | Update ad oldAD => ValidateApplicationInstallationUpdate ad oldAD
            | Delete => mret []
            end;
  mret (bool_decide (allErrs = [])).
End requests.
End validation.
End ApplicationValidation.

(** ** Installing *)

Record ApplicationEnv `{SemverLib} (W : Type) := mkApplicationEnv {
  pe_definitions : Client W ApplicationDefinition;
  pe_installations : Client W ApplicationInstallation;
  pe_namespaces : Client W Namespace;
  pe_paused : M W bool;
  pe_retry : Retry W;
  pe_equal : Namespace → Namespace → bool;
  pe_poll : M W bool → M W unit;
  pe_event : ObjectMeta → string → W → W;
}.
Arguments mkApplicationEnv {_ W}.
Arguments pe_definitions {_ W}.
Arguments pe_installations {_ W}.
Arguments pe_namespaces {_ W}.
Arguments pe_paused {_ W}.
Arguments pe_retry {_ W}.
Arguments pe_equal {_ W}.
Arguments pe_poll {_ W}.
Arguments pe_event {_ W}.

Module ApplicationManager.
Section manager.
Context `{SemverLib} {W : Type} (r : ApplicationEnv W).

(** Labels and annotations are added to those of the namespace. *)
Definition namespaceCreator (desiredNs : NamespaceSpec) (ns : Namespace) : outcome Namespace :=
  let m := ns_meta ns in
  Ok (mkNamespace (set_annotations (nsp_annotations desiredNs ∪ om_annotations m) (set_labels (nsp_labels desiredNs ∪ om_labels m) m))
        (ns_typeMeta ns)).
Definition emptyNamespace : Namespace := mkNamespace emptyMeta (mkTypeMeta "" "").
Definition ReconcileNamespaces (creators : list (string * (Namespace → outcome Namespace))) : M W unit :=
  for_range (λ _ '(name, create), wrap "failed to ensure Namespace"
    (EnsureNamedObject (pe_namespaces r) (pe_equal r) id (pe_poll r) (mkKey "" name) create emptyNamespace false)) tt creators.

Definition reconcileNamespace (applicationInstallation : ApplicationInstallation) : M W unit :=
  let desiredNs := ais_namespace (ai_spec applicationInstallation) in
  if nsp_create desiredNs
  then wrap "failed to reconcile namespace" (ReconcileNamespaces [(nsp_name desiredNs, namespaceCreator desiredNs)]) else mret tt.
Definition deleteNamespace (applicationInstallation : ApplicationInstallation) : M W unit :=
  let desiredNs := ais_namespace (ai_spec applicationInstallation) in
  if nsp_create desiredNs
  then wrap "failed to delete namespace" (ignoreNotFound
         (c_delete (pe_namespaces r) (mkNamespace (set_name (nsp_name desiredNs) emptyMeta) (mkTypeMeta "" ""))))
  else mret tt.
Definition Apply (applicationInstallation : ApplicationInstallation) : M W unit := reconcileNamespace applicationInstallation.
Definition Delete (applicationInstallation : ApplicationInstallation) : M W unit := deleteNamespace applicationInstallation.
End manager.
End ApplicationManager.

Module InstallationController.
Definition applicationDefinitionRemovedEvent : string := "ApplicationDefinitionRemoved".
Definition applicationVersionRemovedEvent : string := "ApplicationVersionRemoved".
Definition applicationDefinitionDeletingEvent : string := "ApplicationDefinitionDeleting".
Definition applicationInstallationReconcileFailedEvent : string := "ApplicationInstallationReconcileFailed".

Section controller.
Context `{SemverLib, StringSets} {W : Type} (r : ApplicationEnv W).

Definition traceWarning (appInstallation : ApplicationInstallation) (eventReason : string) : M W unit :=
  emit (pe_event r (ai_meta appInstallation) eventReason).
Definition getApplicationVersion (appInstallation : ApplicationInstallation) (applicationDef : ApplicationDefinition) : outcome ApplicationVersion :=
  match List.find (λ v, String.eqb (av_version v) (ver_String (ar_version (ais_applicationRef (ai_spec appInstallation)))))
          (adf_versions applicationDef) with
  | Some v => Ok v
  | None => Err (ErrNew "application version does not exist in applicationDefinition")
  end.
Definition handleInstallation (appInstallation : ApplicationInstallation) : M W unit := ApplicationManager.Apply r appInstallation.
Definition handleDeletion (appInstallation : ApplicationInstallation) : M W unit :=
  if HasFinalizer (ai_meta appInstallation) [ApplicationInstallationCleanupFinalizer] then
    _ ← wrap "failed to uninstall application" (ApplicationManager.Delete r appInstallation);
    _ ← wrap "failed to remove application installation finalizer"
          (TryRemoveFinalizer (pe_installations r) (pe_retry r) appInstallation [ApplicationInstallationCleanupFinalizer]);
    mret tt
  else mret tt.

(** An installation that was installed goes when what it was installed from is gone. *)
Definition removed (appInstallation : ApplicationInstallation) (eventReason : string) : M W unit :=
  _ ← traceWarning appInstallation eventReason;
  c_delete (pe_installations r) appInstallation.
Definition is_installed (appInstallation : ApplicationInstallation) : bool :=
  match ai_applicationVersion appInstallation with Some _ => true | None => false end.
Definition installVersion (appInstallation : ApplicationInstallation) (appVersion : ApplicationVersion) : M W unit :=
  appInstallation ← wrap "failed to update status with applicationVersion"
    (c_status_patch (pe_installations r) appInstallation (mkInstallation (ai_meta appInstallation) (ai_spec appInstallation) (Some appVersion)));
  wrap "handling installation of application installation" (handleInstallation appInstallation).

Definition reconcile (appInstallation : ApplicationInstallation) : M W unit :=
  if is_deleted appInstallation
  then wrap "handling deletion of application installation" (handleDeletion appInstallation) else
  appInstallation ← wrap "failed to add finalizer"
    (TryAddFinalizer (pe_installations r) (pe_retry r) appInstallation [ApplicationInstallationCleanupFinalizer]);
  let appHasBeenInstalled := is_installed appInstallation in
  got ← try (c_get (pe_definitions r) (mkKey "" (ar_name (ais_applicationRef (ai_spec appInstallation)))));
  match got with
  | inl e =>
      if negb (IsNotFound e) then throw e else
      if appHasBeenInstalled then removed appInstallation applicationDefinitionRemovedEvent
      else throw (ErrNew "ApplicationDefinition does not exist. can not install application")
  | inr applicationDef =>
      if is_deleted applicationDef then removed appInstallation applicationDefinitionDeletingEvent else
      match getApplicationVersion appInstallation applicationDef with
      | Ok appVersion => installVersion appInstallation appVersion
      | _ =>
          if appHasBeenInstalled then removed appInstallation applicationVersionRemovedEvent
          else throw (ErrNew "applicationVersion does not exist. can not install application")
      end
  end.
Definition Reconcile (request : NamespacedName) : M W unit :=
  paused ← wrap "failed to check cluster pause status" (pe_paused r);
  if (paused : bool) then mret tt else
  got ← try (c_get (pe_installations r) request);
  match got with
  | inl e => if IsNotFound e then mret tt else throw (ErrWrap "failed to get applicationInstallation" e)
  | inr appInstallation => reported (pe_event r) (ai_meta appInstallation) (reconcile appInstallation)
  end.

(** The requests of a change of a definition. *)
Definition enqueueAppInstallationForAppDef (applicationDefinition : ObjectMeta) : M W (list NamespacedName) :=
  got ← try (c_list (pe_installations r) (mkListOptions "" []));
  match got with
  | inl _ => mret []
  | inr items => mret (map object_key (List.filter
      (λ i, String.eqb (ar_name (ais_applicationRef (ai_spec i))) (om_name applicationDefinition)) items))
  end.
End controller.
End InstallationController.
