(* ===== verification/ApplicationsSpec.v ===== *)
(** * Applications in user clusters: theorems *)

From S2P Require Import Prelude ResourceNames Kube Semver Net CloudApi ClusterApi Helper Corev1 Field ClusterDefaulting ClusterValidation ClusterValidationSpec Rbac RbacSync Reconciling ClusterDeletion ClusterHealth MasterApi MasterSync MasterSyncSpec ProjectMembers SeedProjects SeedProjectsSpec Applications.

(** ** Definitions *)

Section definitions.
Context `{SemverLib}.
Import ApplicationValidation.

(** What a definition should be, without paths and messages. *)
Definition ref_ok (ref : GitReference) : Prop :=
  (gr_tag ref ≠ "" ∨ gr_branch ref ≠ "" ∨ gr_commit ref ≠ "") ∧ (gr_tag ref ≠ "" → gr_branch ref = "" ∧ gr_commit ref = "").
Definition credentials_ok (c : GitCredentials) : Prop :=
  (gc_method c = GitAuthMethodPassword ∧ is_Some (gc_username c) ∧ is_Some (gc_password c)) ∨
  (gc_method c = GitAuthMethodToken ∧ is_Some (gc_token c)) ∨ (gc_method c = GitAuthMethodSSHKey ∧ is_Some (gc_sshKey c)).
Definition source_ok (s : ApplicationSource) : Prop :=
  (is_Some (src_helm s) ∧ src_git s = None) ∨
  (src_helm s = None ∧ ∃ g, src_git s = Some g ∧ ref_ok (gs_ref g) ∧ ∀ c, gs_credentials g = Some c → credentials_ok c).
Definition range_ok (v : string) : Prop := ∃ c, NewConstraint v = inr c.
Definition version_ok (v : ApplicationVersion) : Prop :=
  range_ok (apc_k8sVersion (av_constraints v)) ∧ range_ok (apc_kkpVersion (av_constraints v)) ∧ source_ok (apt_source (av_template v)).

Lemma validateSemverRange_nil v f : err_opt (validateSemverRange v f) = [] ↔ range_ok v.
Proof. rewrite err_opt_nil. unfold validateSemverRange, range_ok. destruct (NewConstraint v); naive_solver. Qed.

Lemma validateGitRef_nil ref f : err_opt (validateGitRef ref f) = [] ↔ ref_ok ref.
Proof.
  rewrite err_opt_nil. unfold validateGitRef, ref_ok.
  destruct (String.eqb_spec (gr_tag ref) ""), (String.eqb_spec (gr_branch ref) ""), (String.eqb_spec (gr_commit ref) ""); simpl; intuition congruence.
Qed.

Lemma err_missing {A} (o : option A) e : err_if (match o with None => true | Some _ => false end) e = [] ↔ is_Some o.
Proof. rewrite err_if_nil. destruct o; [by split; [eexists|]|]. split; [done|by intros [? [=]]]. Qed.

Lemma validateGitCredentials_nil credentials f :
  validateGitCredentials credentials f = [] ↔ ∀ c, credentials = Some c → credentials_ok c.
Proof.
  destruct credentials as [c|]; [|done]. transitivity (credentials_ok c); [|split; [by intros ? ? [= <-]|by intros Hc; apply Hc]].
  unfold validateGitCredentials, credentials_ok. cbv zeta.
  destruct (String.eqb_spec (gc_method c) GitAuthMethodPassword) as [->|H1].
  { rewrite app_nil, !err_missing. split; [by left|]. by intros [[_ ?]|[[? _]|[? _]]]. }
  destruct (String.eqb_spec (gc_method c) GitAuthMethodToken) as [->|H2].
  { rewrite err_missing. split; [by right; left|]. by intros [[? _]|[[_ ?]|[? _]]]. }
  destruct (String.eqb_spec (gc_method c) GitAuthMethodSSHKey) as [->|H3].
  { rewrite err_missing. split; [by right; right|]. by intros [[? _]|[[? _]|[_ ?]]]. }
  split; [done|]. by intros [[? _]|[[? _]|[? _]]].
Qed.

Lemma validateSource_nil s f : validateSource s f = [] ↔ source_ok s.
Proof.
  unfold validateSource, source_ok, validateGitSource. destruct (src_helm s) as [h|], (src_git s) as [g|].
  - split; [done|]. intros [[_ [=]]|[[=] _]].
  - split; [intros _; left; split; [by eexists|done]|done].
  - rewrite app_nil, validateGitRef_nil, validateGitCredentials_nil. split; [intros [? ?]; right; eauto|].
    intros [[[? [=]] _]|(_ & g' & [= <-] & ? & ?)]. done.
  - split; [done|]. intros [[[? [=]] _]|(_ & g' & [=] & _)].
Qed.

Lemma NoDup_map_same {A B} (f : A → B) l x y : NoDup (map f l) → x ∈ l → y ∈ l → f x = f y → x = y.
Proof.
  intros Hnd [i Hi]%list_elem_of_lookup_1 [j Hj]%list_elem_of_lookup_1 Hf. assert (i = j) as <-; [|congruence].
  assert (Hl : ∀ k a, l !! k = Some a → map f l !! k = Some (f a)) by (intros k a Hk; change (map f l) with (f <$> l); by rewrite list_lookup_fmap, Hk).
  apply (NoDup_lookup _ _ _ (f x) Hnd); [|rewrite Hf]; by apply Hl.
Qed.

Lemma validateVersions_nil vs : ∀ i lookup parent, validateVersions i lookup vs parent = [] ↔
  Forall version_ok vs ∧ NoDup (map av_version vs) ∧ ∀ v, v ∈ vs → av_version v ∉ lookup.
Proof.
  induction vs as [|v vs IH]; intros i lookup parent.
  { simpl. split; [intros _; split_and!; [constructor..|by intros v ?%elem_of_nil]|done]. }
  cbn [validateVersions]. rewrite !app_nil, !validateSemverRange_nil, validateSource_nil, err_if_nil, bool_decide_eq_false, IH, Forall_cons.
  simpl. rewrite NoDup_cons. unfold version_ok. split.
  - intros (? & ? & ? & ? & ? & ? & Hl). split_and!; try done.
    + intros (u & Hu & Hin)%list_elem_of_fmap. apply (Hl u Hin). set_solver.
    + intros u [-> |Hu]%elem_of_cons; [done|]. pose proof (Hl u Hu). set_solver.
  - intros (((? & ? & ?) & ?) & [Hn ?] & Hl). split_and!; try done; [apply Hl; left|]. intros u Hu [Heq%elem_of_singleton|Hin]%elem_of_union.
    + apply Hn. rewrite <- Heq. by apply (list_elem_of_fmap_2 av_version).
    + apply (Hl u); [by right|done].
Qed.

(** The checks of application definitions, without the schema: a list of versions is
    accepted exactly if every version has valid ranges and one source, with a reference
    and credentials that fit together, and no two versions have the same text; an
    installation then finds its version unambiguously. *)
Theorem definition_checks_exact vs parent : (ValidateApplicationVersions vs parent = [] ↔ Forall version_ok vs ∧ NoDup (map av_version vs)) ∧
  (ValidateApplicationVersions vs parent = [] → ∀ x ad v, adf_versions ad = vs →
     (InstallationController.getApplicationVersion x ad = Ok v ↔
      v ∈ vs ∧ av_version v = ver_String (ar_version (ais_applicationRef (ai_spec x))))).
Proof.
  unfold ValidateApplicationVersions. rewrite validateVersions_nil. split; [split; [naive_solver|intros [? ?]; by split_and!]|].
  intros (_ & Hnd & _) x ad v <-. unfold InstallationController.getApplicationVersion. set (t := ver_String _). split.
  - destruct (List.find _ _) as [u|] eqn:Ef; [|done]. intros [= <-]. apply List.find_some in Ef as [Hin Ht]. apply String.eqb_eq in Ht.
    by split; [apply list_elem_of_In|].
  - intros [Hin Ht]. destruct (List.find _ _) as [u|] eqn:Ef.
    + apply List.find_some in Ef as [Hu Htu%String.eqb_eq]. apply list_elem_of_In in Hu. f_equal.
      by apply (NoDup_map_same av_version (adf_versions ad)); [..|congruence].
    + apply list_elem_of_In in Hin. apply (List.find_none _ _ Ef) in Hin. by apply String.eqb_neq in Hin.
Qed.
End definitions.

(** ** Admission of installations *)

Section admission.
Context `{SemverLib} {W : Type} (definitions : Client W ApplicationDefinition).
Import ApplicationValidation.

(** What the webhook keeps of an installation. *)
Definition identity_of (x : ApplicationInstallation) : string * bool * string * string :=
  let s := ai_spec x in
  (nsp_name (ais_namespace s), nsp_create (ais_namespace s), ar_name (ais_applicationRef s), ver_String (ar_version (ais_applicationRef s))).
Inductive accepted_update (x y : ApplicationInstallation) : Prop :=
| accepted_update_intro w w' : Handle definitions (Update y x) w = (Ok true, w') → accepted_update x y.

(** The definition and the version of a spec exist. *)
Definition offered (s : ApplicationInstallationSpec) (w w' : W) : Prop :=
  ∃ ad v, c_get definitions (mkKey "" (ar_name (ais_applicationRef s))) w = (Ok ad, w') ∧ v ∈ adf_versions ad ∧
    av_version v = ver_String (ar_version (ais_applicationRef s)).

Lemma spec_accepted s w w' : ValidateApplicationInstallationSpec definitions s w = (Ok [], w') ↔ offered s w w'.
Proof.
  unfold ValidateApplicationInstallationSpec, offered. cbv zeta. unfold mbind, M_MBind, M_bind, try. set (t := ver_String _).
  destruct (c_get definitions _ w) as [[ad|e| |] w1]; [|split; [done|by intros (? & ? & [=] & _)]..].
  split.
  - intros [= E <-]. apply err_if_nil, negb_false_iff, List.existsb_exists in E as (v & Hv & Ht%String.eqb_eq).
    exists ad, v. split_and!; [done|by apply list_elem_of_In|done].
  - intros (ad' & v & [= <- <-] & Hv & Ht). unfold mret, M_MRet, M_ret. do 2 f_equal. apply err_if_nil, negb_false_iff, List.existsb_exists.
    exists v. split; [by apply list_elem_of_In|by apply String.eqb_eq].
Qed.

Lemma update_accepted x y w w' : ValidateApplicationInstallationUpdate definitions y x w = (Ok [], w') ↔
  offered (ai_spec y) w w' ∧ identity_of y = identity_of x.
Proof.
  unfold ValidateApplicationInstallationUpdate. rewrite <- spec_accepted.
  unfold mbind, M_MBind, M_bind. destruct (ValidateApplicationInstallationSpec _ _ w) as [[errs|e| |] w1]; [|naive_solver..].
  unfold identity_of. split.
  - intros [= E <-]. rewrite !app_nil, !immutable_nil in E. destruct E as (-> & -> & -> & -> & ->). done.
  - intros [[= -> ->] [= -> -> -> ->]]. unfold mret, M_MRet, M_ret. do 2 f_equal. rewrite !app_nil, !immutable_nil. done.
Qed.

Lemma accepted_run {A} (m : M W (list A)) (dec : ∀ l : list A, Decision (l = [])) w w' :
  (allErrs ← m; mret (@bool_decide (allErrs = []) (dec allErrs))) w = (Ok true, w') ↔ m w = (Ok [], w').
Proof.
  unfold mbind, M_MBind, M_bind. destruct (m w) as [[l|e| |] w1]; [|naive_solver..]. unfold mret, M_MRet, M_ret. split.
  - intros [= Hl <-]. apply bool_decide_eq_true in Hl as ->. done.
  - intros [= -> ->]. by rewrite bool_decide_eq_true_2.
Qed.

(** C35: what the webhook keeps of an installation: an installation is accepted exactly
    if its definition exists and has the version, and an update only if in addition the
    application, its version, and the name and the creation of the namespace stay; along
    any sequence of accepted updates they are those of the first installation. *)
Theorem installation_identity x y : 
  (∀ w w', Handle definitions (Create x) w = (Ok true, w') ↔ offered (ai_spec x) w w') ∧
  (∀ w w', Handle definitions (Update y x) w = (Ok true, w') ↔ offered (ai_spec y) w w' ∧ identity_of y = identity_of x) ∧
  (rtc accepted_update x y → identity_of y = identity_of x).
Proof.
  unfold Handle. split_and!.
  - intros w w'. etrans; [apply accepted_run|apply spec_accepted].
  - intros w w'. etrans; [apply accepted_run|apply update_accepted].
  - induction 1 as [x|x y z [w w' E] _ IH]; [done|]. apply accepted_run, update_accepted in E as [_ Hi]. congruence.
Qed.
End admission.

(** ** The lifecycle of an installation *)

(** The labels and annotations that an installation asks for, in those of a namespace. *)
Definition namespace_main (ns : Namespace) := (om_labels (ns_meta ns), om_annotations (ns_meta ns)).
Definition named_in {A} (wanted : gmap string A) (m : gmap string A) : gmap string A := filter (λ e, is_Some (wanted !! e.1)) m.
Definition asked (s : NamespaceSpec) (m : gmap string string * gmap string string) :=
  (named_in (nsp_labels s) m.1, named_in (nsp_annotations s) m.2).

(** The definitions of the seed, and the installations and namespaces of a user cluster.
    A merge patch of the status changes the status only, and stores the new one if it was
    computed from the stored one. *)
Class ApplicationWorld `{SemverLib} {W} (r : ApplicationEnv W) := {
  aw_definition : NamespacedName → W → option ApplicationDefinition;
  aw_installation : unit → NamespacedName → W → option ApplicationInstallation;
  aw_namespace : unit → NamespacedName → W → option Namespace;
  aw_paused : W → bool;
  aw_installations : at_store aw_installation ai_spec ai_applicationVersion (pe_installations r) tt;
  aw_namespaces : at_store aw_namespace namespace_main no_status (pe_namespaces r) tt;
  aw_pause : ∀ w z w', pe_paused r w = (z, w') → w' = w ∧ ∀ b, z = Ok b → b = aw_paused w;
  aw_get_ok : ∀ k w d w', c_get (pe_definitions r) k w = (Ok d, w') → aw_definition k w = Some d;
  aw_get_missing : ∀ k w e w', c_get (pe_definitions r) k w = (Err e, w') → IsNotFound e = true → aw_definition k w = None;
  aw_get_installation : ∀ k i k', keeps (aw_installation i k') (c_get (pe_definitions r) k);
  aw_get_namespace : ∀ k i k', keeps (aw_namespace i k') (c_get (pe_definitions r) k);
  aw_status_patch : ∀ old new w z w' x, c_status_patch (pe_installations r) old new w = (z, w') →
    aw_installation tt (object_key old) w = Some x → ai_applicationVersion old = ai_applicationVersion x →
    elsewhere aw_installation tt (object_key old) w w' ∧
    ((aw_installation tt (object_key old) w' = Some x ∧ ∀ y, z ≠ Ok y) ∨
     ∃ y, aw_installation tt (object_key old) w' = Some y ∧ ai_spec y = ai_spec x ∧ finalizers y = finalizers x ∧
       deletion y = deletion x ∧ ai_applicationVersion y = ai_applicationVersion new ∧ ∀ v, z = Ok v → v = y);
  aw_get_frame : ∀ k i k', keeps (λ w, (aw_namespace i k' w, aw_definition k' w)) (c_get (pe_installations r) k);
  aw_update_frame : ∀ o i k', keeps (λ w, (aw_namespace i k' w, aw_definition k' w)) (c_update (pe_installations r) o);
  aw_patch_frame : ∀ old new i k', keeps (λ w, (aw_namespace i k' w, aw_definition k' w)) (c_status_patch (pe_installations r) old new);
  aw_delete_frame : ∀ o i k', keeps (λ w, (aw_namespace i k' w, aw_definition k' w)) (c_delete (pe_installations r) o);
  aw_namespace_get : ∀ k i k', keeps (aw_installation i k') (c_get (pe_namespaces r) k);
  aw_namespace_create : ∀ o i k', keeps (aw_installation i k') (c_create (pe_namespaces r) o);
  aw_namespace_update : ∀ o i k', keeps (aw_installation i k') (c_update (pe_namespaces r) o);
  aw_namespace_delete : ∀ o i k', keeps (aw_installation i k') (c_delete (pe_namespaces r) o);
  aw_equal : ∀ a b, pe_equal r a b = true → namespace_main a = namespace_main b;
  aw_poll : ∀ A (v : W → A) cond, keeps v cond → keeps v (pe_poll r cond);
  aw_event_installation : ∀ m msg i k w, aw_installation i k (pe_event r m msg w) = aw_installation i k w;
  aw_event_namespace : ∀ m msg i k w, aw_namespace i k (pe_event r m msg w) = aw_namespace i k w;
}.
#[export] Hint Resolve aw_get_frame aw_update_frame aw_patch_frame aw_delete_frame aw_namespace_get aw_namespace_create
  aw_namespace_update aw_namespace_delete : kkp_frame.

Section lifecycle.
Context `{SemverLib, StringSets} {W : Type} (r : ApplicationEnv W) `{AW : !ApplicationWorld r}.
Import InstallationController.

Abbreviation installs_alone := (alone (pe_installations r) (pe_retry r) (λ _ _, false) (pe_poll r)).
#[local] Instance installs_world : SyncWorld (I := unit) installs_alone ai_spec ai_applicationVersion.
Proof. by refine (alone_world _ _ _ _ _ _ _ tt aw_installations aw_poll _ _ _). Defined.
Abbreviation spaces_alone := (alone (pe_namespaces r) (pe_retry r) (pe_equal r) (pe_poll r)).
#[local] Instance spaces_world (s : NamespaceSpec) : SyncWorld (I := unit) spaces_alone (λ n, asked s (namespace_main n)) no_status.
Proof.
  refine (alone_world _ _ _ _ _ _ _ tt (at_store_weaken _ namespace_main (asked s) _ _ _ aw_namespaces) aw_poll _ _ _); [| |done].
  - intros a b Heq. by rewrite (aw_equal a b Heq).
  - intros m o Hl Ha. unfold asked, namespace_main. simpl in *. by rewrite Hl, Ha.
Defined.

Abbreviation space x := (ais_namespace (ai_spec x)).
Definition space_key (x : ApplicationInstallation) : NamespacedName := mkKey "" (nsp_name (space x)).
Definition has_asked (s : NamespaceSpec) (o : option Namespace) : Prop :=
  ∃ n, o = Some n ∧ nsp_labels s ⊆ om_labels (ns_meta n) ∧ nsp_annotations s ⊆ om_annotations (ns_meta n).

(** *** The namespace *)

Lemma named_in_union (d m : gmap string string) : named_in d (d ∪ m) = d.
Proof.
  apply map_eq. intros k. unfold named_in. destruct (d !! k) as [v|] eqn:Ed.
  - apply map_lookup_filter_Some. split; [by apply lookup_union_Some_l|simpl; by rewrite Ed].
  - apply map_lookup_filter_None. right. intros v _ Hs. simpl in Hs. rewrite Ed in Hs. by destruct Hs.
Qed.
Lemma named_in_subseteq (d m : gmap string string) : named_in d m = d → d ⊆ m.
Proof. intros <-. apply map_filter_subseteq. Qed.

(** A namespace with what is asked, and nothing else. *)
Definition asked_namespace (s : NamespaceSpec) : Namespace :=
  mkNamespace (set_annotations (nsp_annotations s) (set_labels (nsp_labels s) emptyMeta)) (mkTypeMeta "" "").
Lemma named_in_self (d : gmap string string) : named_in d d = d.
Proof. rewrite <- (right_id_L ∅ (∪) d) at 2. apply named_in_union. Qed.
Lemma asked_copies s : copies (λ n, asked s (namespace_main n)) (asked_namespace s) (ApplicationManager.namespaceCreator s).
Proof. intros e y [= <-]. split; [|done]. unfold asked, namespace_main. simpl. by rewrite !named_in_union, !named_in_self. Qed.

Lemma apply_run x w z w' : ApplicationManager.Apply r x w = (z, w') →
  (∀ i k, aw_installation i k w' = aw_installation i k w) ∧
  (∀ k, (nsp_create (space x) = true → k ≠ space_key x) → aw_namespace tt k w' = aw_namespace tt k w) ∧
  (z = Ok tt → nsp_create (space x) = true → has_asked (space x) (aw_namespace tt (space_key x) w')).
Proof.
  unfold ApplicationManager.Apply, ApplicationManager.reconcileNamespace. destruct (nsp_create (space x)); [|by intros [= <- <-]].
  intros E. assert (Hk : ∀ i k, keeps (aw_installation i k) (ApplicationManager.ReconcileNamespaces r [(nsp_name (space x), ApplicationManager.namespaceCreator (space x))])).
  { intros i k. apply keeps_for_range. intros _ [n c]. apply keeps_wrap, keeps_ensure; auto with kkp_frame. intros. by apply aw_poll. }
  assert (Hrun : acts aw_namespace (space_key x) tt (rtc (copying (λ n, asked (space x) (namespace_main n)) no_status (asked_namespace (space x))))
    (same_main (λ n, asked (space x) (namespace_main n)) (asked_namespace (space x)))
    (ApplicationManager.ReconcileNamespaces r [(nsp_name (space x), ApplicationManager.namespaceCreator (space x))])).
  { exact (reconcile_acts spaces_alone _ no_status (space_key x) tt (pe_namespaces r) "Namespace" (asked_namespace (space x)) _ ApplicationManager.emptyNamespace
      "" (nsp_name (space x)) eq_refl (at_store_weaken _ namespace_main (asked (space x)) _ _ _ aw_namespaces) (asked_copies (space x))). }
  destruct (runs_wrap _ _ _ _ _ _ _ _ (Hrun w) _ _ E) as (He & _ & Hg). apply wrap_run in E as (z1 & E & _).
  split_and!; [intros i k; by apply (Hk i k) in E|intros k Hne; apply He; by injection 1 as ->; apply Hne|].
  intros -> _. destruct (Hg tt eq_refl) as (n & Hn & Hm). exists n. split; [done|]. unfold asked, namespace_main in Hm. simpl in Hm.
  rewrite !named_in_self in Hm. injection Hm as H1 H2. by split; apply named_in_subseteq.
Qed.

Lemma delete_run x w z w' : ApplicationManager.Delete r x w = (z, w') →
  (∀ i k, aw_installation i k w' = aw_installation i k w) ∧
  (∀ k, (nsp_create (space x) = true → k ≠ space_key x) → aw_namespace tt k w' = aw_namespace tt k w) ∧
  (z = Ok tt → nsp_create (space x) = true → gone (aw_namespace tt (space_key x) w')).
Proof.
  unfold ApplicationManager.Delete, ApplicationManager.deleteNamespace. destruct (nsp_create (space x)); [|by intros [= <- <-]].
  set (stub := mkNamespace _ _). intros E. assert (Hk : ∀ i k, keeps (aw_installation i k) (ignoreNotFound (c_delete (pe_namespaces r) stub))).
  { intros i k. unfold ignoreNotFound, unless. frame. }
  pose proof (delete_acts spaces_alone _ no_status (space_key x) tt (pe_namespaces r) stub
    (at_store_weaken _ namespace_main (asked (space x)) _ _ _ aw_namespaces) eq_refl w) as Hrun.
  destruct (runs_wrap _ _ _ _ _ _ _ _ Hrun _ _ E) as (He & _ & Hg). apply wrap_run in E as (z1 & E & _).
  split_and!; [intros i k; by apply (Hk i k) in E|intros k Hne; apply He; by injection 1 as ->; apply Hne|]. intros -> _. by apply (Hg tt).
Qed.

(** *** Whole runs *)

Abbreviation cleanup := ApplicationInstallationCleanupFinalizer.
Definition protected (request : NamespacedName) (f : string) (w : W) : Prop := ∃ y, aw_installation tt request w = Some y ∧ f ∈ finalizers y.

(** The version that an installation asks for, if it is still offered. *)
Definition wanted_version (x : ApplicationInstallation) (w : W) : option ApplicationVersion :=
  match aw_definition (mkKey "" (ar_name (ais_applicationRef (ai_spec x)))) w with
  | Some d => if is_deleted d then None else match getApplicationVersion x d with Ok v => Some v | _ => None end
  | None => None
  end.

(** What a run may touch. *)
Definition only_own (request : NamespacedName) (x : ApplicationInstallation) (w w' : W) : Prop :=
  (∀ k, k ≠ request → aw_installation tt k w' = aw_installation tt k w) ∧
  (∀ k, (nsp_create (space x) = true → k ≠ space_key x) → aw_namespace tt k w' = aw_namespace tt k w).

(** What a run leaves of a live installation [x]. *)
Record run_live (request : NamespacedName) (x : ApplicationInstallation) (w : W) (z : outcome unit) (w' : W) : Prop := {
  rl_protected : ∀ g, g ∈ finalizers x → protected request g w';
  rl_guard_first : (∃ k, aw_namespace tt k w' ≠ aw_namespace tt k w) → protected request cleanup w';
  rl_kept : is_Some (wanted_version x w) → ∃ y, aw_installation tt request w' = Some y ∧ ai_spec y = ai_spec x ∧ deletion y = None;
  rl_done : z = Ok tt → protected request cleanup w' ∧
    match wanted_version x w with
    | Some v => (∃ y, aw_installation tt request w' = Some y ∧ ai_applicationVersion y = Some v) ∧
        (nsp_create (space x) = true → has_asked (space x) (aw_namespace tt (space_key x) w'))
    | None => gone (aw_installation tt request w')
    end;
}.
(** What it leaves of a deleted one. *)
Record run_dead (request : NamespacedName) (x : ApplicationInstallation) (z : outcome unit) (w' : W) : Prop := {
  rd_released : ¬ protected request cleanup w' → nsp_create (space x) = true → gone (aw_namespace tt (space_key x) w');
  rd_done : z = Ok tt → ¬ protected request cleanup w';
}.

Lemma install_version_run p v w z w' y : aw_installation tt (object_key p) w = Some y → ai_applicationVersion p = ai_applicationVersion y →
  deletion y = None → installVersion r p v w = (z, w') →
  only_own (object_key p) y w w' ∧
  (∃ u, aw_installation tt (object_key p) w' = Some u ∧ ai_spec u = ai_spec y ∧ finalizers u = finalizers y ∧ deletion u = None ∧
     (z = Ok tt → ai_applicationVersion u = Some v)) ∧
  (z = Ok tt → nsp_create (space y) = true → has_asked (space y) (aw_namespace tt (space_key y) w')).
Proof.
  intros Hy Hs Hd E. unfold installVersion in E. unfold only_own.
  assert (Hpatch : ∀ z1 w1 m, wrap m (c_status_patch (pe_installations r) p (mkInstallation (ai_meta p) (ai_spec p) (Some v))) w = (z1, w1) →
    elsewhere aw_installation tt (object_key p) w w1 ∧ (∀ k, aw_namespace tt k w1 = aw_namespace tt k w) ∧
    ∃ u, aw_installation tt (object_key p) w1 = Some u ∧ ai_spec u = ai_spec y ∧ finalizers u = finalizers y ∧ deletion u = None ∧
      ∀ a, z1 = Ok a → a = u ∧ ai_applicationVersion u = Some v).
  { intros z1 w1 m E1. pose proof E1 as Ek. apply wrap_run in E1 as (z2 & E1 & Hz). split_and!; [by eapply aw_status_patch| |].
    - intros k. apply (aw_patch_frame _ _ tt k) in E1. by injection E1.
    - destruct (aw_status_patch _ _ _ _ _ _ E1 Hy Hs) as [_ [[Hv Hno]|(u & Hu & Hsp & Hf & Hdu & Hst & Hres)]].
      + exists y. split_and!; [done..|]. intros a Ha. by destruct (Hno a (Hz a Ha)).
      + exists u. split_and!; [done..|congruence|]. intros a Ha. split; [by apply Hres, Hz|done]. }
  apply bind_run in E as [(a & w1 & E1 & E)|[(z1 & E1 & _) Hno]]; destruct (Hpatch _ _ _ E1) as (He & Hn & u & Hu & Hsp & Hf & Hdu & Ha).
  - destruct (Ha a eq_refl) as [-> Hv]. apply wrap_run in E as (z2 & E & Hz). destruct (apply_run _ _ _ _ E) as (Hi & Hsk & Hok).
    unfold space_key in *. rewrite Hsp in *. split_and!.
    + intros k Hne. rewrite Hi. apply He. congruence.
    + intros k Hne. by rewrite Hsk, Hn.
    + exists u. rewrite Hi. split_and!; try done.
    + intros ->. by apply Hok, Hz.
  - split_and!; [intros k Hne; apply He; congruence|intros k _; apply Hn| |intros ->; by destruct (Hno tt)].
    exists u. split_and!; try done. intros ->. by destruct (Hno tt).
Qed.

Lemma wanted_same x y w w' : ai_spec y = ai_spec x → (∀ k, aw_definition k w' = aw_definition k w) → wanted_version y w' = wanted_version x w.
Proof. intros Hs Hd. unfold wanted_version, getApplicationVersion. by rewrite Hs, Hd. Qed.

(** An installation whose guard is in place. *)
Lemma removed_run p reason w z w' y : aw_installation tt (object_key p) w = Some y → cleanup ∈ finalizers y → removed r p reason w = (z, w') →
  elsewhere aw_installation tt (object_key p) w w' ∧ (∀ k, aw_namespace tt k w' = aw_namespace tt k w) ∧
  (∃ u, aw_installation tt (object_key p) w' = Some u ∧ finalizers u = finalizers y) ∧
  (z = Ok tt → gone (aw_installation tt (object_key p) w')).
Proof.
  intros Hy Hc E. unfold removed, traceWarning, emit, mbind, M_MBind, M_bind in E. set (w1 := pe_event r _ _ w) in E.
  assert (Hw1 : ∀ i k, aw_installation i k w1 = aw_installation i k w) by (intros; apply aw_event_installation).
  destruct (as_delete _ _ _ _ _ aw_installations _ _ _ _ E) as (He & Hcase & Hg). rewrite Hw1 in Hcase. split_and!.
  - intros i k Hne. by rewrite He, Hw1.
  - intros k. apply (aw_delete_frame _ tt k) in E. injection E as E _. rewrite E. apply aw_event_namespace.
  - destruct Hcase as [->|[(old & Ho & Hn & _)|(old & u & Ho & -> & Hf & _)]]; [by exists y| |].
    + assert (old = y) as -> by congruence. rewrite Hn in Hc. by apply elem_of_nil in Hc.
    + exists u. split; [done|]. congruence.
  - intros Hz x Hx. apply Hg; [by left|done].
Qed.

(** The part of a run that serves the installation, or removes it. *)
Definition serve (appInstallation : ApplicationInstallation) : M W unit :=
  let appHasBeenInstalled := is_installed appInstallation in
  got ← try (c_get (pe_definitions r) (mkKey "" (ar_name (ais_applicationRef (ai_spec appInstallation)))));
  match got with
  | inl e =>
      if negb (IsNotFound e) then throw e else
      if appHasBeenInstalled then removed r appInstallation applicationDefinitionRemovedEvent
      else throw (ErrNew "ApplicationDefinition does not exist. can not install application")
  | inr applicationDef =>
      if is_deleted applicationDef then removed r appInstallation applicationDefinitionDeletingEvent else
      match getApplicationVersion appInstallation applicationDef with
      | Ok appVersion => installVersion r appInstallation appVersion
      | _ =>
          if appHasBeenInstalled then removed r appInstallation applicationVersionRemovedEvent
          else throw (ErrNew "applicationVersion does not exist. can not install application")
      end
  end.

Lemma serve_run p w z w' y : aw_installation tt (object_key p) w = Some y → ai_applicationVersion p = ai_applicationVersion y → ai_spec p = ai_spec y →
  deletion y = None → cleanup ∈ finalizers y → serve p w = (z, w') →
  only_own (object_key p) y w w' ∧ run_live (object_key p) y w z w'.
Proof.
  intros Hy Hv Hs Hd Hc E. unfold serve, mbind at 1, M_MBind at 1, M_bind at 1, try at 1 in E.
  destruct (c_get (pe_definitions r) _ w) as [o w1] eqn:Eg.
  assert (Hi1 : ∀ k, aw_installation tt k w1 = aw_installation tt k w) by (intros k; by apply (aw_get_installation _ tt k) in Eg).
  assert (Hn1 : ∀ k, aw_namespace tt k w1 = aw_namespace tt k w) by (intros k; by apply (aw_get_namespace _ tt k) in Eg).
  assert (Hwp : wanted_version y w = wanted_version p w) by (by apply wanted_same).
  assert (Hstay : w' = w1 → z ≠ Ok tt → only_own (object_key p) y w w' ∧ run_live (object_key p) y w z w').
  { intros -> Hz. split; [by split|]. split; [intros g Hg; exists y; by rewrite Hi1|intros [k Hk]; by destruct (Hk (Hn1 k))|intros _; exists y; by rewrite Hi1|done]. }
  assert (Hgone : ∀ reason, removed r p reason w1 = (z, w') → wanted_version y w = None →
    only_own (object_key p) y w w' ∧ run_live (object_key p) y w z w').
  { intros reason Er Hw. rewrite <- Hi1 in Hy. destruct (removed_run _ _ _ _ _ _ Hy Hc Er) as (He & Hn & (u & Hu & Hf) & Hg). split.
    { split; [intros k Hne; rewrite He, Hi1; congruence|intros k _; by rewrite Hn, Hn1]. }
    assert (Hpr : ∀ g, g ∈ finalizers y → protected (object_key p) g w') by (intros g Hin; exists u; by rewrite Hf).
    split; [done|intros _; by apply Hpr|by rewrite Hw; intros [? [=]]|]. intros Hz. rewrite Hw. split; [by apply Hpr|by apply Hg]. }
  destruct o as [ad|e| |]; [|destruct (IsNotFound e) eqn:En; simpl in E|..]; try (injection E as <- <-; by apply Hstay).
  - apply aw_get_ok in Eg. destruct (is_deleted ad) eqn:Ed; [apply (Hgone _ E); rewrite Hwp; unfold wanted_version; by rewrite Eg, Ed|].
    assert (Hw : wanted_version p w = match getApplicationVersion p ad with Ok v => Some v | _ => None end) by (unfold wanted_version; by rewrite Eg, Ed).
    destruct (getApplicationVersion p ad) as [v|e| |].
    2-4: destruct (is_installed p); [apply (Hgone _ E); congruence|injection E as <- <-; by apply Hstay].
    rewrite <- Hi1 in Hy. destruct (install_version_run _ _ _ _ _ _ Hy Hv Hd E) as ([Ho1 Ho2] & (u & Hu & Hsu & Hfu & Hdu & Hvu) & Hok).
    assert (Hpr : ∀ g, g ∈ finalizers y → protected (object_key p) g w') by (intros g Hin; exists u; by rewrite Hfu). split.
    { split; [intros k Hne; by rewrite Ho1, Hi1|intros k Hne; by rewrite Ho2, Hn1]. }
    split; [done|intros _; by apply Hpr|intros _; by exists u|]. intros Hz. split; [by apply Hpr|]. rewrite Hwp, Hw. split; [exists u; auto|auto].
  - destruct (is_installed p); [|injection E as <- <-; by apply Hstay]. apply (Hgone _ E). rewrite Hwp. unfold wanted_version.
    by rewrite (aw_get_missing _ _ _ _ Eg En).
Qed.

Lemma live_step x w z w' : aw_installation tt (object_key x) w = Some x → deletion x = None → reconcile r x w = (z, w') →
  only_own (object_key x) x w w' ∧ run_live (object_key x) x w z w'.
Proof.
  intros Hx Hdel E. unfold reconcile in E. rewrite (not_deleted _ Hdel) in E.
  assert (Hadd : ∀ z1 w1, wrap "failed to add finalizer" (TryAddFinalizer (pe_installations r) (pe_retry r) x [cleanup]) w = (z1, w1) →
    elsewhere aw_installation tt (object_key x) w w1 ∧ (∀ k, aw_namespace tt k w1 = aw_namespace tt k w) ∧ (∀ k, aw_definition k w1 = aw_definition k w) ∧
    ∃ y, aw_installation tt (object_key x) w1 = Some y ∧ marked ai_spec ai_applicationVersion (object_key x) x y ∧
      ∀ p, z1 = Ok p → marked ai_spec ai_applicationVersion (object_key x) x p ∧ cleanup ∈ finalizers y).
  { intros z1 w1 E1. pose proof (add_finalizer_run installs_alone ai_spec ai_applicationVersion (object_key x) x cleanup w z1 w1 x eq_refl eq_refl Hx Hdel) as Hrun.
    assert (Hk : ∀ k, keeps (λ w, (aw_namespace tt k w, aw_definition k w)) (wrap "failed to add finalizer"
        (TryAddFinalizer (pe_installations r) (pe_retry r) x [cleanup]))) by (intros k; unfold TryAddFinalizer; apply keeps_wrap, keeps_wrap, keeps_retry; frame).
    destruct (Hrun E1) as [He (y & Hy & Hm & Hp)].
    split_and!; [done|intros k; apply (Hk k) in E1; by injection E1|intros k; apply (Hk k) in E1; by injection E1|].
    exists y. split_and!; [done..|]. intros p Hpz. by destruct (Hp p Hpz) as (? & _ & ?). }
  apply bind_run in E as [(p & w1 & E1 & E)|[(z1 & E1 & _) Hno]]; destruct (Hadd _ _ E1) as (He & Hn & Hdf & y & Hy & Hm & Hp).
  2: { destruct Hm as (Hs & _ & Hde & _ & Hfin). split; [split; [intros k Hne; apply He; congruence|intros k _; apply Hn]|]. split.
       - intros g Hg. exists y. auto.
       - intros [k Hk]. by destruct (Hk (Hn k)).
       - intros _. exists y. split_and!; [done..|congruence].
       - intros ->. by destruct (Hno tt). }
  destruct (Hp p eq_refl) as [(Hps & Hpv & _ & Hpk & _) Hc]. clear Hp Hadd E1. destruct Hm as (Hs & Hsv & Hde & _ & Hfin). fold (serve p) in E.
  rewrite <- Hpk in Hy, He. destruct (serve_run p w1 z w' y Hy ltac:(congruence) ltac:(congruence) ltac:(congruence) Hc E) as ([Ho1 Ho2] & [Hr1 Hr2 Hr3 Hr4]).
  assert (Hw : wanted_version y w1 = wanted_version x w) by (by apply wanted_same). unfold space_key in *. rewrite Hpk, Hw, Hs in *. split; [split|split].
  - intros k Hne. rewrite Ho1 by done. apply He. congruence.
  - intros k Hne. by rewrite Ho2.
  - auto.
  - intros [k Hk]. apply Hr2. exists k. by rewrite Hn.
  - done.
  - done.
Qed.

Lemma dead_step x w z w' : aw_installation tt (object_key x) w = Some x → is_deleted x = true → reconcile r x w = (z, w') →
  only_own (object_key x) x w w' ∧ (cleanup ∈ finalizers x → run_dead (object_key x) x z w').
Proof.
  intros Hx Hd E. unfold reconcile in E. rewrite Hd in E. apply wrap_run in E as (z1 & E & Hz). unfold handleDeletion in E.
  destruct (HasFinalizer (ai_meta x) [cleanup]) eqn:Eh.
  2: { injection E as <- <-. split; [done|]. intros Hf%(finalizer_listed x). unfold obj_meta in Hf. simpl in Hf. congruence. }
  assert (Hf : cleanup ∈ finalizers x) by (apply (proj1 (HasFinalizer_spec _ _) Eh); left).
  assert (Hrel : ∀ w1 z2 w2 m, wrap m (TryRemoveFinalizer (pe_installations r) (pe_retry r) x [cleanup]) w1 = (z2, w2) →
    elsewhere aw_installation tt (object_key x) w1 w2 ∧ (∀ k, aw_namespace tt k w2 = aw_namespace tt k w1) ∧
    (∀ a, z2 = Ok a → ¬ protected (object_key x) cleanup w2)).
  { intros w1 z2 w2 m (z3 & E1 & Hz3)%wrap_run. pose proof (remove_finalizer_run installs_alone ai_spec ai_applicationVersion (object_key x) x cleanup w1 z3 w2 eq_refl) as Hrun.
    destruct (Hrun E1) as (He & _ & Hp). split_and!; [done| |].
    - intros k. assert (Hk : keeps (λ w, (aw_namespace tt k w, aw_definition k w)) (TryRemoveFinalizer (pe_installations r) (pe_retry r) x [cleanup]))
        by (unfold TryRemoveFinalizer; apply keeps_wrap, keeps_retry; frame). apply Hk in E1. by injection E1.
    - intros a Ha (y & Hy & Hin). destruct (Hp a (Hz3 a Ha)) as [_ Hq]. by apply (Hq y). }
  apply bind_run in E as [([] & w1 & (z2 & E1 & Hz2)%wrap_run & E)|[(z2 & (z3 & E1 & Hz3)%wrap_run & _) Hno]]; destruct (delete_run _ _ _ _ E1) as (Hi & Hn & Hg).
  2: { split; [split; [intros; apply Hi|done]|]. intros _. split; [intros []; exists x; by rewrite Hi|]. intros ->. by destruct (Hno tt (Hz tt eq_refl)). }
  assert (Hcase : ∃ z2, wrap "failed to remove application installation finalizer" (TryRemoveFinalizer (pe_installations r) (pe_retry r) x [cleanup]) w1 = (z2, w')
    ∧ (z1 = Ok tt → ∃ a, z2 = Ok a)).
  { apply bind_run in E as [(a & w2 & E2 & E)|[(z4 & E2 & _) Hno]]; [injection E as <- <-; by eauto|]. exists z4. split; [done|]. intros ->. by destruct (Hno tt). }
  destruct Hcase as (z4 & E2 & Hz4). destruct (Hrel _ _ _ _ E2) as (He & Hn2 & Hp). split.
  { split; [intros k Hne; rewrite He, Hi; congruence|intros k Hne; by rewrite Hn2, Hn]. }
  intros _. split; [intros _ Hcr; rewrite Hn2; by apply Hg; [apply Hz2|]|]. intros ->. destruct (Hz4 (Hz tt eq_refl)) as [a Ha]. by apply (Hp a).
Qed.

(** C32: installations of applications: a paused cluster is left alone.  Otherwise a run
    touches, whatever its outcome, nothing but the installation and the namespace it
    creates.  A live installation keeps its finalizers, has its guard before a namespace
    is touched, and stays as long as its version is offered; after a successful run it
    has its guard and either its version in the status, with a namespace that has the
    labels and annotations it asks for, or, if the definition or the version is gone, it
    is deleted.  A deleted installation loses its guard only when the namespace it created
    is deleted, and after a successful run has lost it. *)
Theorem application_lifecycle request x w z w' : aw_installation tt request w = Some x → Reconcile r request w = (z, w') →
  (aw_paused w = true → ∀ k, aw_installation tt k w' = aw_installation tt k w ∧ aw_namespace tt k w' = aw_namespace tt k w) ∧
  (aw_paused w = false → (deletion x = None → only_own request x w w' ∧ run_live request x w z w') ∧
     (is_deleted x = true → only_own request x w w' ∧ (cleanup ∈ finalizers x → run_dead request x z w'))).
Proof.
  intros Hx E. assert (Hstay : (∀ k, aw_installation tt k w' = aw_installation tt k w) → (∀ k, aw_namespace tt k w' = aw_namespace tt k w) → z ≠ Ok tt →
    (deletion x = None → only_own request x w w' ∧ run_live request x w z w') ∧
    (is_deleted x = true → only_own request x w w' ∧ (cleanup ∈ finalizers x → run_dead request x z w'))).
  { intros Hi Hn Hz. split; (intros Hd; split; [by split|]).
    - split; [intros g Hg; exists x; by rewrite Hi|intros [k Hk]; by destruct (Hk (Hn k))|intros _; exists x; by rewrite Hi|done].
    - intros Hf. split; [intros []; exists x; by rewrite Hi|done]. }
  unfold Reconcile in E. apply bind_run in E as [(b & w1 & Ep%wrap_ok_inv & E)|[(z1 & (z2 & Ep & _)%wrap_run & _) Hno]].
  2: { apply aw_pause in Ep as [-> _]. split; [done|]. intros _. by apply Hstay. }
  apply aw_pause in Ep as [-> Hb]. rewrite (Hb b eq_refl) in E. clear b Hb. destruct (aw_paused w) eqn:Ep; [by injection E as <- <-|].
  split; [done|]. intros _. unfold mbind, M_MBind, M_bind, try in E.
  destruct (c_get (pe_installations r) request w) as [o w1] eqn:Eg.
  assert (Hi1 : ∀ k, aw_installation tt k w1 = aw_installation tt k w) by (intros k; by apply (as_get _ _ _ _ _ aw_installations _ tt k) in Eg).
  assert (Hf1 : ∀ k, aw_namespace tt k w1 = aw_namespace tt k w ∧ aw_definition k w1 = aw_definition k w)
    by (intros k; apply (aw_get_frame _ tt k) in Eg; by injection Eg).
  destruct o as [y|e| |]; [|destruct (IsNotFound e) eqn:En|..]; try (injection E as <- <-; by apply Hstay; [..|intros k; apply Hf1|]).
  2: { rewrite (as_get_missing _ _ _ _ _ aw_installations _ _ _ _ Eg En) in Hx. done. }
  apply (as_get_ok _ _ _ _ _ aw_installations) in Eg as [Hy <-]. assert (y = x) as -> by congruence. clear Hy Hstay.
  apply reported_run in E as (w2 & E & Hw2). assert (Hi2 : ∀ k, aw_installation tt k w' = aw_installation tt k w2 ∧ aw_namespace tt k w' = aw_namespace tt k w2).
  { intros k. destruct Hw2 as [->|[msg ->]]; [done|]. by rewrite aw_event_installation, aw_event_namespace. }
  rewrite <- Hi1 in Hx. assert (Hown : only_own (object_key x) x w1 w2 → only_own (object_key x) x w w').
  { intros [H1 H2]. split; intros k Hk; [by rewrite (proj1 (Hi2 k)), H1|]. by rewrite (proj2 (Hi2 k)), H2, (proj1 (Hf1 k)). }
  assert (Hprot : ∀ g, protected (object_key x) g w2 ↔ protected (object_key x) g w') by (intros g; unfold protected; by rewrite (proj1 (Hi2 _))).
  split; intros Hd.
  - destruct (live_step x w1 z w2 Hx Hd E) as [Ho [Hr1 Hr2 Hr3 Hr4]]. split; [by apply Hown|].
    rewrite (wanted_same x x w w1 eq_refl) in Hr3, Hr4 by (intros k; apply Hf1). split.
    + intros g Hg. by apply Hprot, Hr1.
    + intros [k Hk]. apply Hprot, Hr2. exists k. by rewrite <- (proj2 (Hi2 k)), (proj1 (Hf1 k)).
    + by rewrite (proj1 (Hi2 _)).
    + intros Hz. rewrite <- Hprot, (proj1 (Hi2 _)), (proj2 (Hi2 _)). by apply Hr4.
  - destruct (dead_step x w1 z w2 Hx Hd E) as [Ho Hr]. split; [by apply Hown|]. intros Hf. destruct (Hr Hf) as [Hr1 Hr2].
    split; [by rewrite <- Hprot, (proj2 (Hi2 _))|]. intros Hz. rewrite <- Hprot. by apply Hr2.
Qed.
End lifecycle.
