(* ===== verification/Addons.v ===== *)
(** * Addons of clusters

    The addon installer of the seed-controller-manager ([addoninstaller]): it installs the
    addons of the platform configuration as [Addon] objects in the namespace of each
    cluster and removes default addons that are no longer wanted. *)

From S2P Require Import Prelude ResourceNames Kube Semver Net CloudApi ClusterApi Helper Corev1 Field ClusterDefaulting Rbac RbacSync Reconciling ClusterDeletion MasterSyncSpec Workloads ControlPlane.

(** ** Types *)

Record ObjectReference := mkObjectReference {
  oref_kind : string;
  oref_namespace : string;
  oref_name : string;
  oref_uid : string;
  oref_apiVersion : string;
}.
(** Variables are raw JSON. *)
Record AddonSpec := mkAddonSpec {
  ad_name : string;
  ad_cluster : ObjectReference;
  ad_variables : option string;
  ad_requiredResourceTypes : list GroupVersionKind;
  ad_isDefault : bool;
}.
Record AddonCondition := mkAddonCondition { adc_status : string; adc_lastHeartbeatTime : Z; adc_lastTransitionTime : Z }.
Record AddonStatus := mkAddonStatus { ads_conditions : gmap string AddonCondition }.
Record Addon := mkAddon { ad_meta : ObjectMeta; ad_spec : AddonSpec; ad_status : AddonStatus }.
#[global] Program Instance Addon_object : Object Addon := {|
  obj_meta := ad_meta;
  set_meta m a := mkAddon m (ad_spec a) (ad_status a);
|}.
Next Obligation. done. Qed.
Definition empty_addon_spec : AddonSpec := mkAddonSpec "" (mkObjectReference "" "" "" "" "") None [] false.

Record KubermaticAddonsConfiguration := mkAddonsConfiguration {
  ac_default : list string;
  ac_defaultManifests : string;
  ac_dockerRepository : string;
  ac_dockerTagSuffix : string;
}.

Definition DefaultKubernetesAddons : string := "
apiVersion: v1
kind: List
items:
- apiVersion: kubermatic.k8c.io/v1
  kind: Addon
  metadata:
    name: canal
    labels:
      addons.kubermatic.io/ensure: true
- apiVersion: kubermatic.k8c.io/v1
  kind: Addon
  metadata:
    name: cilium
    labels:
      addons.kubermatic.io/ensure: true
- apiVersion: kubermatic.k8c.io/v1
  kind: Addon
  metadata:
    name: csi
    labels:
      addons.kubermatic.io/ensure: true
- apiVersion: kubermatic.k8c.io/v1
  kind: Addon
  metadata:
    name: kube-proxy
    labels:
      addons.kubermatic.io/ensure: true
- apiVersion: kubermatic.k8c.io/v1
  kind: Addon
  metadata:
    name: openvpn
    labels:
      addons.kubermatic.io/ensure: true
- apiVersion: kubermatic.k8c.io/v1
  kind: Addon
  metadata:
    name: rbac
    labels:
      addons.kubermatic.io/ensure: true
- apiVersion: kubermatic.k8c.io/v1
  kind: Addon
  metadata:
    name: kubeadm-configmap
    labels:
      addons.kubermatic.io/ensure: true
- apiVersion: kubermatic.k8c.io/v1
  kind: Addon
  metadata:
    name: kubelet-configmap
    labels:
      addons.kubermatic.io/ensure: true
- apiVersion: kubermatic.k8c.io/v1
  kind: Addon
  metadata:
    name: default-storage-class
- apiVersion: kubermatic.k8c.io/v1
  kind: Addon
  metadata:
    name: pod-security-policy
    labels:
      addons.kubermatic.io/ensure: true
- apiVersion: kubermatic.k8c.io/v1
  kind: Addon
  metadata:
    name: aws-node-termination-handler
    labels:
      addons.kubermatic.io/ensure: true
".
Definition kubeProxyAddonName : string := "kube-proxy".
Definition openVPNAddonName : string := "openvpn".

(** [ai_yaml] is [yaml.UnmarshalStrict] into a list of addons, [ai_listDefault] the list of
    the default addons in a namespace by the field index.  [ai_equal] is the comparison by
    [reflect.DeepEqual] of labels, annotations, variables and resource types, which also
    tells nil from empty maps. *)
Record AddonEnv (W : Type) := mkAddonEnv {
  ai_clusters : Client W Cluster;
  ai_addons : Client W Addon;
  ai_listDefault : string → M W (list Addon);
  ai_configGetter : M W KubermaticAddonsConfiguration;
  ai_yaml : string → outcome (list Addon);
  ai_equal : Addon → Addon → bool;
  ai_poll : M W bool → M W unit;
  ai_retry : Retry W;
  ai_now : W → Z * W;
  ai_event : string → string → string → W → W;
  ai_workerName : string;
  ai_versions : Versions;
}.
Arguments ai_clusters {W}.
Arguments ai_addons {W}.
Arguments ai_listDefault {W}.
Arguments ai_configGetter {W}.
Arguments ai_yaml {W}.
Arguments ai_equal {W}.
Arguments ai_poll {W}.
Arguments ai_retry {W}.
Arguments ai_now {W}.
Arguments ai_event {W}.
Arguments ai_workerName {W}.
Arguments ai_versions {W}.

Definition skipAddonInstallation (addon : Addon) (cluster : Cluster) : bool :=
  let name := om_name (ad_meta addon) in
  let cni := match sp_cniPlugin (cl_spec cluster) with
             | Some p => (String.eqb name CNIPluginTypeCanal && String.eqb (cni_type p) CNIPluginTypeCilium) ||
                         (String.eqb name CNIPluginTypeCilium && String.eqb (cni_type p) CNIPluginTypeCanal)
             | None => false
             end in
  cni ||
  (String.eqb name kubeProxyAddonName && String.eqb (cn_proxyMode (sp_clusterNetwork (cl_spec cluster))) EBPFProxyMode) ||
  (String.eqb name openVPNAddonName &&
   match cn_konnectivityEnabled (sp_clusterNetwork (cl_spec cluster)) with Some b => b | None => false end).

Section installer.
Context `{L : SemverLib} {W : Type} (r : AddonEnv W).

Definition getDefaultAddonManifests : outcome (list Addon) :=
  match ai_yaml r DefaultKubernetesAddons with
  | Err e => Err (ErrWrap "failed to unmarshal default addon list" e)
  | x => x
  end.

(** An addon that is configured by its name takes the labels of the default manifest. *)
Definition namedAddon (manifests : list Addon) (addonName : string) : Addon :=
  let labels := match List.find (λ a, String.eqb (om_name (ad_meta a)) addonName) manifests with
                | Some a => om_labels (ad_meta a)
                | None => ∅
                end in
  mkAddon (mkObjectMeta addonName "" "" labels ∅ [] [] 0 None "") empty_addon_spec (mkAddonStatus ∅).

Definition getAddons : M W (list Addon) :=
  c ← wrap "failed to get KubermaticConfiguration" (ai_configGetter r);
  if negb (is_nil (ac_default c)) && negb (String.eqb (ac_defaultManifests c) "")
  then throw (ErrNew "default addons are configured both as a list and a default manifest, which are mutually exclusive") else
  result ← (if negb (is_nil (ac_default c)) then
              manifests ← wrap "failed to get default addon manifests" (lift getDefaultAddonManifests);
              mret (map (namedAddon manifests) (ac_default c))
            else mret []);
  result ← (if negb (String.eqb (ac_defaultManifests c) "")
            then wrap "failed to unmarshal default addon list" (lift (ai_yaml r (ac_defaultManifests c)))
            else mret result);
  if existsb (λ a, String.eqb (om_name (ad_meta a)) "metrics-server") result
  then throw (ErrNew "the metrics-server addon must be disabled, it is now deployed inside the seed cluster")
  else mret result.

Definition addon_key (cluster : Cluster) (addon : Addon) : NamespacedName :=
  mkKey (cs_namespaceName (cl_status cluster)) (om_name (ad_meta addon)).

Definition newAddon (addon : Addon) (cluster : Cluster) : Addon :=
  mkAddon (set_namespace (cs_namespaceName (cl_status cluster)) (ad_meta addon))
    (mkAddonSpec (om_name (ad_meta addon))
       (mkObjectReference "Cluster" "" (om_name (cl_meta cluster)) (om_uid (cl_meta cluster)) (tm_apiVersion (cl_typeMeta cluster)))
       (ad_variables (ad_spec addon)) (ad_requiredResourceTypes (ad_spec addon)) true)
    (ad_status addon).

Definition addonExists (key : NamespacedName) : M W bool :=
  got ← try (c_get (ai_addons r) key);
  match got with
  | inl e => if IsNotFound e then mret false else throw e
  | inr _ => mret true
  end.

(** An addon that exists already is fine: the cache may lag behind. *)
Definition createAddon (addon : Addon) (cluster : Cluster) : M W unit :=
  created ← try (c_create (ai_addons r) (newAddon addon cluster));
  _ ← match created with
      | inl e => if IsAlreadyExists e then mret tt else throw (ErrWrap "failed to create addon" e)
      | inr _ => mret tt
      end;
  waited ← try (ai_poll r (addonExists (addon_key cluster addon)));
  match waited with
  | inl _ => throw (ErrNew "failed waiting for addon to exist in the lister")
  | inr _ => mret tt
  end.

Definition deleteAddon (addon : Addon) : M W unit :=
  deleted ← try (c_delete (ai_addons r) addon);
  match deleted with
  | inl e => if IsNotFound e then mret tt else throw (ErrWrap "failed to delete addon from cluster" e)
  | inr _ => mret tt
  end.

Definition updatedAddon (addon existingAddon : Addon) : Addon :=
  mkAddon (set_annotations (om_annotations (ad_meta addon))
             (mkObjectMeta (om_name (ad_meta existingAddon)) (om_namespace (ad_meta existingAddon)) (om_uid (ad_meta existingAddon))
                (om_labels (ad_meta addon)) (om_annotations (ad_meta existingAddon)) (om_finalizers (ad_meta existingAddon))
                (om_ownerReferences (ad_meta existingAddon)) (om_creationTimestamp (ad_meta existingAddon))
                (om_deletionTimestamp (ad_meta existingAddon)) (om_resourceVersion (ad_meta existingAddon))))
    (mkAddonSpec (om_name (ad_meta addon)) (ad_cluster (ad_spec existingAddon)) (ad_variables (ad_spec addon))
       (ad_requiredResourceTypes (ad_spec addon)) true)
    (ad_status existingAddon).

Definition ensureAddon (cluster : Cluster) (ensured : gset string) (addon : Addon) : M W (gset string) :=
  if skipAddonInstallation addon cluster then mret ensured else
  let ensured := ensured ∪ {[om_name (ad_meta addon)]} in
  got ← try (c_get (ai_addons r) (addon_key cluster addon));
  match got with
  | inl e =>
      if negb (IsNotFound e) then throw (ErrWrap "failed to get addon" e) else
      _ ← wrap "failed to create addon" (createAddon addon cluster);
      mret ensured
  | inr existingAddon =>
      if ai_equal r addon existingAddon then mret ensured else
      _ ← wrap "failed to update addon" (c_patch (ai_addons r) existingAddon (updatedAddon addon existingAddon));
      mret ensured
  end.

Definition ensureAddons (cluster : Cluster) (addons : list Addon) : M W unit :=
  ensuredAddonsMap ← for_range (ensureAddon cluster) ∅ addons;
  currentAddons ← wrap "failed to list cluster addons" (ai_listDefault r (cs_namespaceName (cl_status cluster)));
  for_range (λ _ currentAddon,
    if bool_decide (om_name (ad_meta currentAddon) ∈ ensuredAddonsMap) then mret tt
    else wrap "failed to delete cluster addon" (deleteAddon currentAddon)) tt currentAddons.

Definition addon_reconcile (cluster : Cluster) : M W (option Result) :=
  if negb (String.eqb (eh_apiserver (cs_extendedHealth (cl_status cluster))) HealthStatusUp)
  then mret (Some (mkResult false (1 * Second))) else
  addons ← wrap "failed to determine addons to install" getAddons;
  _ ← ensureAddons cluster addons;
  mret None.

Definition addon_Reconcile (request : NamespacedName) : M W (Result * option error) :=
  got ← try (c_get (ai_clusters r) request);
  match got with
  | inl e => if IsNotFound e then mret (emptyResult, None) else mret (emptyResult, Some e)
  | inr cluster =>
      '(result, err) ← ClusterReconcileWrapper (ai_clusters r) (ai_retry r) (ai_now r) (ai_workerName r) cluster
         (ai_versions r) ClusterConditionAddonInstallerControllerReconcilingSuccess (reconciled (addon_reconcile cluster));
      _ ← match (err : option error) with
          | Some e => emit (ai_event r "Warning" "ReconcilingError" (error_string e))
          | None => mret tt
          end;
      mret (default emptyResult result, err)
  end.
End installer.

(** ** Theorems *)

(** The stored addons.  A create, patch or delete that fails may have been applied; waiting
    succeeds only after its condition held, and changes nothing. *)
Class AddonWorld {W} (r : AddonEnv W) := {
  xw_view : NamespacedName → W → option Addon;
  xw_get : ∀ k k', keeps (xw_view k') (c_get (ai_addons r) k);
  xw_get_ok : ∀ k w a w', c_get (ai_addons r) k w = (Ok a, w') → xw_view k w = Some a ∧ object_key a = k;
  xw_get_missing : ∀ k w e w', c_get (ai_addons r) k w = (Err e, w') → IsNotFound e = true → xw_view k w = None;
  xw_config : ∀ k, keeps (xw_view k) (ai_configGetter r);
  xw_create : ∀ a w z w', c_create (ai_addons r) a w = (z, w') → (∀ k, k ≠ object_key a → xw_view k w' = xw_view k w) ∧
    (xw_view (object_key a) w' = xw_view (object_key a) w ∨
     ∃ x, xw_view (object_key a) w' = Some x ∧ om_labels (ad_meta x) = om_labels (ad_meta a) ∧
       om_annotations (ad_meta x) = om_annotations (ad_meta a) ∧ ad_spec x = ad_spec a) ;
  xw_poll : ∀ cond w z w', (∀ k, keeps (xw_view k) cond) → ai_poll r cond w = (z, w') → (∀ k, xw_view k w' = xw_view k w) ∧
    (z = Ok tt → ∃ w0 w1, cond w0 = (Ok true, w1) ∧ ∀ k, xw_view k w0 = xw_view k w);
  xw_patch : ∀ old new w z w', c_patch (ai_addons r) old new w = (z, w') → object_key new = object_key old →
    xw_view (object_key old) w = Some old → (∀ k, k ≠ object_key old → xw_view k w' = xw_view k w) ∧
    ((xw_view (object_key old) w' = Some old ∧ ∀ x, z ≠ Ok x) ∨
     ∃ x, xw_view (object_key old) w' = Some x ∧ om_labels (ad_meta x) = om_labels (ad_meta new) ∧
       om_annotations (ad_meta x) = om_annotations (ad_meta new) ∧ ad_spec x = ad_spec new);
  xw_list : ∀ ns k, keeps (xw_view k) (ai_listDefault r ns);
  xw_listed : ∀ ns w l w', ai_listDefault r ns w = (Ok l, w') → ∀ k a,
    (object_key a = k ∧ a ∈ l) ↔ (xw_view k w = Some a ∧ key_namespace k = ns ∧ ad_isDefault (ad_spec a) = true);
  xw_distinct : ∀ ns w l w', ai_listDefault r ns w = (Ok l, w') → NoDup (map object_key l);
  xw_delete : ∀ a w z w', c_delete (ai_addons r) a w = (z, w') → (∀ k, k ≠ object_key a → xw_view k w' = xw_view k w) ∧
    (z = Ok tt ∨ (∃ e, z = Err e ∧ IsNotFound e = true) → gone (xw_view (object_key a) w'));
  xw_equal : ∀ a b, ai_equal r a b = true → om_labels (ad_meta a) = om_labels (ad_meta b) ∧
    om_annotations (ad_meta a) = om_annotations (ad_meta b) ∧ ad_variables (ad_spec a) = ad_variables (ad_spec b) ∧
    ad_requiredResourceTypes (ad_spec a) = ad_requiredResourceTypes (ad_spec b);
}.
#[export] Hint Resolve xw_get xw_config xw_list : kkp_frame.

(** The stored addon is as it is configured. *)
Definition as_configured (a : Addon) (o : option Addon) : Prop :=
  ∃ x, o = Some x ∧ om_labels (ad_meta x) = om_labels (ad_meta a) ∧ om_annotations (ad_meta x) = om_annotations (ad_meta a) ∧
    ad_variables (ad_spec x) = ad_variables (ad_spec a) ∧ ad_requiredResourceTypes (ad_spec x) = ad_requiredResourceTypes (ad_spec a).

Section installer.
Context `{L : SemverLib} {W : Type} (r : AddonEnv W) `{XW : !AddonWorld r} (cluster : Cluster).
Abbreviation ns := (cs_namespaceName (cl_status cluster)).

Definition wanted (l : list Addon) : list Addon := List.filter (λ a, negb (skipAddonInstallation a cluster)) l.

Lemma exists_keeps k k' : keeps (xw_view k') (addonExists r k).
Proof. unfold addonExists. frame. Qed.
Lemma exists_true k w w' : addonExists r k w = (Ok true, w') → is_Some (xw_view k w).
Proof.
  intros E. apply bind_ok_inv in E as (got & w1 & Eg & E). apply try_ok_inv in Eg as [(a & -> & Eg)|(e & -> & Eg)].
  - apply xw_get_ok in Eg as [-> _]. by eexists.
  - by destruct (IsNotFound e).
Qed.

Lemma createAddon_run a w z w' : xw_view (addon_key cluster a) w = None → createAddon r a cluster w = (z, w') →
  (∀ k, k ≠ addon_key cluster a → xw_view k w' = xw_view k w) ∧ (z = Ok tt → as_configured a (xw_view (addon_key cluster a) w')).
Proof.
  intros Hn E. unfold createAddon in E. set (k := addon_key cluster a) in *.
  assert (Hk : object_key (newAddon a cluster) = k) by done.
  apply bind_run in E as [(created & w1 & Ec & E)|[(z1 & Ec & _) Hno]].
  2: { unfold try in Ec. destruct (c_create _ _ w) as [[| | |] w2] eqn:E2; try (injection Ec as <- <-); apply xw_create in E2 as [Hfr _];
       rewrite Hk in Hfr; (split; [done|intros ->; by destruct (Hno tt)]) || done. }
  assert (∃ z1, c_create (ai_addons r) (newAddon a cluster) w = (z1, w1)) as [z1 E1].
  { unfold try in Ec. destruct (c_create _ _ w) as [[| | |] w2]; try done; injection Ec as _ <-; by eexists. }
  apply xw_create in E1 as [Hfr Hcase]. rewrite Hk in Hfr, Hcase.
  apply bind_run in E as [([] & w2 & E1 & E)|[(z2 & E1 & _) Hno]].
  2: { assert (w' = w1) as -> by (destruct created as [e|]; [destruct (IsAlreadyExists e)|]; by injection E1).
       split; [done|]. intros ->. by destruct (Hno tt). }
  assert (w2 = w1) as -> by (destruct created as [e|]; [destruct (IsAlreadyExists e)|]; by injection E1).
  unfold mbind, M_MBind, M_bind, try in E. destruct (ai_poll r _ w1) as [p w3] eqn:Ep.
  destruct (xw_poll _ _ _ _ (exists_keeps k) Ep) as [Hv Hok].
  assert (w' = w3) as -> by (destruct p as [[]| | |]; by injection E). split; [intros k' Hne; by rewrite Hv, Hfr|].
  intros ->. destruct p as [[]| | |]; try done. destruct (Hok eq_refl) as (w0 & w4 & Ex & Hv0). apply exists_true in Ex. rewrite Hv0 in Ex.
  rewrite Hv. destruct Hcase as [Heq|(x & Hx & Hl & Ha & Hs)]; [rewrite Heq, Hn in Ex; by destruct Ex|].
  exists x. by rewrite Hl, Ha, Hs.
Qed.

Lemma ensureAddon_run ensured a w z w' : ensureAddon r cluster ensured a w = (z, w') →
  (∀ k, skipAddonInstallation a cluster = true ∨ k ≠ addon_key cluster a → xw_view k w' = xw_view k w) ∧
  (∀ e', z = Ok e' → e' = ensured ∪ list_to_set (map (λ a, om_name (ad_meta a)) (wanted [a])) ∧
     ∀ b, b ∈ wanted [a] → as_configured b (xw_view (addon_key cluster b) w')).
Proof.
  unfold ensureAddon, wanted. simpl. destruct (skipAddonInstallation a cluster) eqn:Es; simpl; intros E.
  { injection E as <- <-. split; [done|]. intros e' [= <-]. split; [set_solver|]. by intros b ?%elem_of_nil. }
  set (k := addon_key cluster a) in *.
  assert (Hgoal : (∀ k', k' ≠ k → xw_view k' w' = xw_view k' w) ∧ (∀ e', z = Ok e' → e' = ensured ∪ {[om_name (ad_meta a)]} ∧
    as_configured a (xw_view k w')) → (∀ k', false = true ∨ k' ≠ k → xw_view k' w' = xw_view k' w) ∧
    (∀ e', z = Ok e' → e' = ensured ∪ ({[om_name (ad_meta a)]} ∪ ∅) ∧ ∀ b, b ∈ [a] → as_configured b (xw_view (addon_key cluster b) w'))).
  { intros [H1 H2]. split; [intros k' [?|?]; auto; done|]. intros e' He. destruct (H2 e' He) as [-> Hc]. split; [set_solver|].
    by intros b ->%list_elem_of_singleton. }
  apply Hgoal. clear Hgoal. unfold mbind at 1, M_MBind at 1, M_bind at 1, try in E.
  destruct (c_get (ai_addons r) k w) as [o w1] eqn:Eg. pose proof (λ k', xw_get k k' _ _ _ Eg) as Hv.
  destruct o as [x|e|s|]; [| |injection E as <- <-; by split..].
  - apply xw_get_ok in Eg as [Hx Hk]. destruct (ai_equal r a x) eqn:Eq.
    { injection E as <- <-. split; [done|]. intros e' [= <-]. split; [done|]. apply xw_equal in Eq as (? & ? & ? & ?).
      exists x. rewrite Hv, Hx. by split_and!. }
    apply bind_run in E as [(y & w2 & Ep%wrap_ok_inv & E)|[(z1 & Ep & _) Hno]].
    + injection E as <- <-. destruct (xw_patch _ _ _ _ _ Ep) as [Hfr Hcase]; [done|by rewrite Hk, Hv|]. rewrite Hk in Hfr, Hcase.
      split; [intros k' Hne; by rewrite Hfr, Hv|]. intros e' [= <-]. split; [done|].
      destruct Hcase as [[_ Hno]|(u & Hu & Hl & Ha & Hs)]; [by destruct (Hno y)|]. exists u. by rewrite Hl, Ha, Hs.
    + apply wrap_run in Ep as (z2 & Ep & _). destruct (xw_patch _ _ _ _ _ Ep) as [Hfr _]; [done|by rewrite Hk, Hv|].
      rewrite Hk in Hfr. split; [intros k' Hne; by rewrite Hfr, Hv|]. intros e' ->. by destruct (Hno e').
  - destruct (IsNotFound e) eqn:En; cbn [negb] in E; [|injection E as <- <-; by split].
    pose proof (xw_get_missing _ _ _ _ Eg En) as Hn. rewrite <- Hv in Hn.
    apply bind_run in E as [([] & w2 & Ec & E)|[(z1 & Ec & _) Hno]]; apply wrap_run in Ec as (z2 & Ec & Hz2);
      destruct (createAddon_run a w1 _ _ Hn Ec) as [Hfr Hok].
    + injection E as <- <-. split; [intros k' Hne; by rewrite Hfr, Hv|]. intros e' [= <-]. split; [done|]. apply Hok, Hz2. done.
    + split; [intros k' Hne; by rewrite Hfr, Hv|]. intros e' ->. by destruct (Hno e').
Qed.

Lemma wanted_cons a l : wanted (a :: l) = wanted [a] ++ wanted l.
Proof. unfold wanted. simpl. by destruct (skipAddonInstallation a cluster). Qed.
Lemma wanted_names a l : NoDup (map (λ a, om_name (ad_meta a)) (a :: l)) → ∀ b, b ∈ wanted l → addon_key cluster b ≠ addon_key cluster a.
Proof.
  intros [Hni _]%NoDup_cons b Hb [= Heq]. apply Hni. rewrite <- Heq. apply list_elem_of_fmap. exists b. split; [done|].
  apply list_elem_of_In in Hb. apply filter_In in Hb as [Hb _]. by apply list_elem_of_In.
Qed.

Lemma ensure_loop l : NoDup (map (λ a, om_name (ad_meta a)) l) → ∀ ensured w z w', for_range (ensureAddon r cluster) ensured l w = (z, w') →
  (∀ k, (∀ a, a ∈ wanted l → k ≠ addon_key cluster a) → xw_view k w' = xw_view k w) ∧
  (∀ e', z = Ok e' → e' = ensured ∪ list_to_set (map (λ a, om_name (ad_meta a)) (wanted l)) ∧
     ∀ a, a ∈ wanted l → as_configured a (xw_view (addon_key cluster a) w')).
Proof.
  induction l as [|a l IH]; intros Hnd ensured w z w' E; simpl in E.
  { injection E as <- <-. split; [done|]. intros e' [= <-]. split; [set_solver|]. by intros b ?%elem_of_nil. }
  assert (Hself : ∀ k, (∀ b, b ∈ wanted (a :: l) → k ≠ addon_key cluster b) → skipAddonInstallation a cluster = true ∨ k ≠ addon_key cluster a).
  { intros k Hk. destruct (skipAddonInstallation a cluster) eqn:Es; [by left|right]. apply Hk. unfold wanted. simpl. rewrite Es. left. }
  pose proof (wanted_names _ _ Hnd) as Hne. apply NoDup_cons in Hnd as [_ Hnd].
  apply bind_run in E as [(e1 & w1 & E1 & E)|[(z1 & E1 & _) Hno]]; destruct (ensureAddon_run _ _ _ _ _ E1) as [Hfr Hok].
  - destruct (IH Hnd _ _ _ _ E) as [Hfr2 Hok2]. split.
    + intros k Hk. rewrite Hfr2, Hfr; [done|by apply Hself|]. intros b Hb. apply Hk. rewrite wanted_cons. apply elem_of_app. by right.
    + intros e' He. destruct (Hok2 e' He) as [-> Hc2]. destruct (Hok e1 eq_refl) as [-> Hc1].
      rewrite (wanted_cons a l), map_app, list_to_set_app_L. split; [by rewrite (assoc_L (∪))|].
      intros b [Hb|Hb]%elem_of_app; [|by apply Hc2]. rewrite Hfr2; [by apply Hc1|]. intros b' Hb'.
      unfold wanted in Hb. simpl in Hb. destruct (skipAddonInstallation a cluster); simpl in Hb; [by apply elem_of_nil in Hb|].
      apply list_elem_of_singleton in Hb as ->. intros Heq. by apply (Hne b' Hb').
  - split; [intros k Hk; by apply Hfr, Hself|]. intros e' ->. by destruct (Hno e').
Qed.

Lemma deleteAddon_run a w z w' : deleteAddon r a w = (z, w') → (∀ k, k ≠ object_key a → xw_view k w' = xw_view k w) ∧
  (z = Ok tt → gone (xw_view (object_key a) w')).
Proof.
  unfold deleteAddon, mbind, M_MBind, M_bind, try. destruct (c_delete (ai_addons r) a w) as [o w1] eqn:Ed.
  destruct (xw_delete _ _ _ _ Ed) as [Hfr Hg]. intros E.
  assert (w' = w1) as -> by (destruct o as [[]|e| |]; [|destruct (IsNotFound e)|..]; by injection E). split; [done|].
  intros ->. apply Hg. destruct o as [[]|e| |]; try done; [by left|]. destruct (IsNotFound e) eqn:En; [|done]. right. by exists e.
Qed.

Lemma remove_loop (ensured : gset string) l : ∀ w z w', for_range (λ _ a, if bool_decide (om_name (ad_meta a) ∈ ensured) then mret tt
    else wrap "failed to delete cluster addon" (deleteAddon r a)) tt l w = (z, w') →
  (∀ k, (∀ a, a ∈ l → om_name (ad_meta a) ∉ ensured → k ≠ object_key a) → xw_view k w' = xw_view k w) ∧
  (NoDup (map object_key l) → z = Ok tt → ∀ a, a ∈ l → om_name (ad_meta a) ∉ ensured → gone (xw_view (object_key a) w')).
Proof.
  induction l as [|a l IH]; intros w z w' E; simpl in E.
  { injection E as <- <-. split; [done|]. by intros _ _ a ?%elem_of_nil. }
  assert (Hone : ∀ z1 w1, (if bool_decide (om_name (ad_meta a) ∈ ensured) then mret tt
      else wrap "failed to delete cluster addon" (deleteAddon r a)) w = (z1, w1) →
    (∀ k, (om_name (ad_meta a) ∉ ensured → k ≠ object_key a) → xw_view k w1 = xw_view k w) ∧
    (z1 = Ok tt → om_name (ad_meta a) ∉ ensured → gone (xw_view (object_key a) w1))).
  { intros z1 w1 E1. case_bool_decide as Hin; [injection E1 as <- <-; by split|]. apply wrap_run in E1 as (z2 & E1 & Hz).
    destruct (deleteAddon_run _ _ _ _ E1) as [Hfr Hg]. split; [intros k Hk; apply Hfr; auto|]. intros Hz1 _. by apply Hg, Hz. }
  apply bind_run in E as [([] & w1 & E1 & E)|[(z1 & E1 & _) Hno]]; destruct (Hone _ _ E1) as [Hfr Hg].
  - destruct (IH _ _ _ E) as [Hfr2 Hg2]. split.
    + intros k Hk. rewrite Hfr2, Hfr; [done|intros Hn; apply Hk; [left|done]|]. intros b Hb. apply Hk. by right.
    + intros [Hni Hnd]%NoDup_cons Hz b [->|Hb]%elem_of_cons Hn; [|by apply Hg2]. rewrite Hfr2; [by apply Hg|].
      intros b' Hb' _ Heq. apply Hni. rewrite Heq. apply list_elem_of_fmap. by exists b'.
  - split; [intros k Hk; apply Hfr; intros Hn; apply Hk; [left|done]|]. intros _ ->. by destruct (Hno tt).
Qed.

Lemma getAddons_keeps k : keeps (xw_view k) (getAddons r).
Proof. unfold getAddons. frame; apply keeps_lift. Qed.

(** Addons that no run touches: those of other clusters, and those that users installed
    under other names than the configured ones. *)
Definition foreign (l : list Addon) (w : W) (k : NamespacedName) : Prop :=
  key_namespace k ≠ ns ∨
  (∃ x, xw_view k w = Some x ∧ ad_isDefault (ad_spec x) = false) ∧ ∀ a, a ∈ wanted l → k ≠ addon_key cluster a.

Lemma ensureAddons_run l w z w' : NoDup (map (λ a, om_name (ad_meta a)) l) → ensureAddons r cluster l w = (z, w') →
  (∀ k, foreign l w k → xw_view k w' = xw_view k w) ∧
  (z = Ok tt → (∀ a, a ∈ wanted l → as_configured a (xw_view (addon_key cluster a) w')) ∧
     ∀ k x, key_namespace k = ns → xw_view k w' = Some x → ad_isDefault (ad_spec x) = true →
       (∃ a, a ∈ wanted l ∧ k = addon_key cluster a) ∨ is_Some (deletion x)).
Proof.
  intros Hnd E. assert (Hfar : ∀ k, foreign l w k → ∀ a, a ∈ wanted l → k ≠ addon_key cluster a).
  { intros k [Hns|[_ Hk]] a Ha; [|by apply Hk]. intros ->. by apply Hns. }
  apply bind_run in E as [(ensured & w1 & E1 & E)|[(z1 & E1 & _) Hno]]; destruct (ensure_loop l Hnd _ _ _ _ E1) as [Hfr Hok].
  2: { split; [intros k Hk; apply Hfr; by apply Hfar|]. intros ->. by destruct (Hno tt). }
  destruct (Hok _ eq_refl) as [Hens Hconf]. rewrite (left_id_L ∅ (∪)) in Hens.
  assert (Hmem : ∀ name, name ∈ ensured ↔ ∃ a, a ∈ wanted l ∧ name = om_name (ad_meta a)).
  { intros name. rewrite Hens, elem_of_list_to_set, list_elem_of_fmap. naive_solver. }
  apply bind_run in E as [(cur & w2 & El%wrap_ok_inv & E)|[(z1 & El & _) Hno]].
  2: { apply wrap_run in El as (z2 & El & _). split; [|intros ->; by destruct (Hno tt)]. intros k Hk.
       pose proof (xw_list ns k _ _ _ El) as ->. apply Hfr. by apply Hfar. }
  pose proof (λ k, xw_list ns k _ _ _ El) as Hv. pose proof (xw_listed _ _ _ _ El) as Hl.
  destruct (remove_loop ensured cur _ _ _ E) as [Hfr2 Hg]. split.
  - intros k Hk. assert (H1 : xw_view k w1 = xw_view k w) by (apply Hfr; by apply Hfar).
    rewrite Hfr2, Hv; [done|]. intros a Ha _ ->.
    destruct (proj1 (Hl (object_key a) a) (conj eq_refl Ha)) as (Hva & Hns & Hd). destruct Hk as [Hk|[(x & Hx & Hf) _]]; [done|].
    rewrite H1, Hx in Hva. injection Hva as ->. congruence.
  - intros ->. split.
    + intros a Ha. rewrite Hfr2, Hv; [by apply Hconf|]. intros b Hb Hnb Heq. apply Hnb, Hmem. exists a. split; [done|].
      by injection Heq.
    + intros k x Hns Hx Hd. destruct (decide (key_name k ∈ ensured)) as [Hin|Hn].
      { left. apply Hmem in Hin as (a & Ha & Hname). exists a. split; [done|]. destruct k; simpl in *. unfold addon_key. congruence. }
      assert (Hlk : ∀ a, a ∈ cur → k = object_key a → is_Some (deletion x)).
      { intros a Ha ->. apply (Hg (xw_distinct _ _ _ _ El) eq_refl a Ha); [done|exact Hx]. }
      destruct (decide (k ∈ map object_key cur)) as [Hin|Hout].
      { apply list_elem_of_fmap in Hin as (a & Hka & Ha). right. by eapply Hlk. }
      exfalso. rewrite Hfr2, Hv in Hx.
      * destruct (proj2 (Hl k x)) as [Hkx Hin]; [done|]. apply Hout. rewrite <- Hkx. apply list_elem_of_fmap. by exists x.
      * intros a Ha _ ->. apply Hout, list_elem_of_fmap. by exists a.
Qed.

(** Whatever the outcome of a run, addons of other clusters and addons that users
    added under names of their own are left alone, and nothing happens before the API
    server of the cluster is up; after a successful run every addon of the configuration
    that fits the cluster is installed as it is configured, and every other default addon
    is being deleted. *)
Theorem addons_installed l w w0 z w' : getAddons r w = (Ok l, w0) → NoDup (map (λ a, om_name (ad_meta a)) l) →
  addon_reconcile r cluster w = (z, w') →
  (∀ k, foreign l w k → xw_view k w' = xw_view k w) ∧
  (eh_apiserver (cs_extendedHealth (cl_status cluster)) ≠ HealthStatusUp → w' = w ∧ z = Ok (Some (mkResult false Second))) ∧
  (z = Ok None → (∀ a, a ∈ wanted l → as_configured a (xw_view (addon_key cluster a) w')) ∧
     ∀ k x, key_namespace k = ns → xw_view k w' = Some x → ad_isDefault (ad_spec x) = true →
       (∃ a, a ∈ wanted l ∧ k = addon_key cluster a) ∨ is_Some (deletion x)).
Proof.
  intros Eg Hnd E. unfold addon_reconcile in E. destruct (String.eqb_spec (eh_apiserver (cs_extendedHealth (cl_status cluster))) HealthStatusUp);
    cbn [negb] in E; [|injection E as <- <-; by split_and!].
  unfold mbind at 1, M_MBind at 1, M_bind at 1, wrap in E. rewrite Eg in E. pose proof (λ k, getAddons_keeps k _ _ _ Eg) as Hv.
  assert (Hfor : ∀ k, foreign l w k → foreign l w0 k) by (intros k; unfold foreign; by rewrite Hv).
  apply bind_run in E as [([] & w1 & E1 & E)|[(z1 & E1 & _) Hno]]; destruct (ensureAddons_run l _ _ _ Hnd E1) as [Hfr Hok].
  - injection E as <- <-. split_and!; [intros k Hk; by rewrite Hfr, Hv by auto|done|]. intros _. by apply Hok.
  - split_and!; [intros k Hk; by rewrite Hfr, Hv by auto|done|]. intros ->. by destruct (Hno None).
Qed.
End installer.

(** ** OpenVPN and Konnectivity *)

(** The control plane runs an OpenVPN server unless the platform has the feature
    Konnectivity and the cluster asks for it; the addon with the client is skipped
    whenever the cluster asks for it. *)
Theorem openvpn_without_client f (c : Cluster) (a : Addon) : om_name (ad_meta a) = openVPNAddonName →
  default false (cn_konnectivityEnabled (sp_clusterNetwork (cl_spec c))) = true →
  skipAddonInstallation a c = true ∧ (konnectivity f c = ft_Konnectivity f).
Proof.
  intros Hn Hk. unfold skipAddonInstallation, konnectivity. rewrite Hn, Hk, andb_true_r. split; [|done].
  destruct (cn_konnectivityEnabled _) as [b|]; simpl in Hk; subst; by rewrite ?orb_true_r.
Qed.
