(* ===== verification/Memory.v ===== *)
(** * An API server in memory

    A concrete world for the controllers: versions from a small release table, a
    clock with whole seconds, five attempts on conflicts, and a store with resource
    versions, conflict detection, finalizers and status subresources.  It satisfies
    the interfaces that the theorems about the controllers assume. *)

From S2P Require Import Prelude ResourceNames Kube Semver CloudApi ClusterApi Helper HelperSpec Corev1 EtcdBackup EtcdBackupFacts EtcdBackupInv VersionManager UpdateController UpdateControllerSpec AutoUpdate Reconciling EtcdRestore Encryption EncryptionSpec ClusterPhase.

(** ** A release table *)

Inductive Release := r1_0_3 | r1_20_13 | r1_21_8 | r1_22_0 | r1_22_5 | r1_23_6 | r3_20_0 | r3_22_0.

Definition release_numbers (r : Release) : Z * Z * Z :=
  match r with
  | r1_0_3 => (1, 0, 3) | r1_20_13 => (1, 20, 13) | r1_21_8 => (1, 21, 8)
  | r1_22_0 => (1, 22, 0) | r1_22_5 => (1, 22, 5) | r1_23_6 => (1, 23, 6)
  | r3_20_0 => (3, 20, 0) | r3_22_0 => (3, 22, 0)
  end.
Definition release_string (r : Release) : string :=
  match r with
  | r1_0_3 => "1.0.3" | r1_20_13 => "1.20.13" | r1_21_8 => "1.21.8"
  | r1_22_0 => "1.22.0" | r1_22_5 => "1.22.5" | r1_23_6 => "1.23.6"
  | r3_20_0 => "3.20.0" | r3_22_0 => "3.22.0"
  end.
Definition releases : list Release := [r1_0_3; r1_20_13; r1_21_8; r1_22_0; r1_22_5; r1_23_6; r3_20_0; r3_22_0].

(** A release is spelled with or without a leading v, a first patch also without it. *)
Definition release_short (s : string) : string :=
  if String.eqb s "v3.20" then "3.20.0" else if String.eqb s "v3.22" then "3.22.0" else s.
Definition release_parse (s : string) : error + Release :=
  let s := release_short s in
  match List.find (λ r, String.eqb s (release_string r) || String.eqb s ("v" +:+ release_string r)) releases with
  | Some r => inr r
  | None => inl (ErrNew "Invalid Semantic Version")
  end.

Definition release_compare (a b : Release) : comparison :=
  let '(a1, a2, a3) := release_numbers a in
  let '(b1, b2, b3) := release_numbers b in
  match a1 ?= b1 with
  | Eq => match a2 ?= b2 with Eq => a3 ?= b3 | c => c end
  | c => c
  end.

(** Constraints: everything, one minor, a bound, or one release. *)
Inductive ReleaseRange :=
| AnyRelease | MinorRelease (minor : Z) | LowerThan (major minor : Z) | AtLeast (major minor : Z) | OneRelease (r : Release).
Definition lower (r : Release) (major minor : Z) : bool :=
  let '(a, b, _) := release_numbers r in (a <? major) || ((a =? major) && (b <? minor)).
Definition range_parse (s : string) : error + ReleaseRange :=
  if String.eqb s "*" then inr AnyRelease
  else if String.eqb s "1.20.*" then inr (MinorRelease 20)
  else if String.eqb s "1.21.*" then inr (MinorRelease 21)
  else if String.eqb s "1.22.*" then inr (MinorRelease 22)
  else if String.eqb s "1.23.*" then inr (MinorRelease 23)
  else if String.eqb s "< 3.22" then inr (LowerThan 3 22)
  else if String.eqb s ">= 3.22" then inr (AtLeast 3 22)
  else if String.eqb s ">= 1.22" then inr (AtLeast 1 22)
  else if String.eqb s ">= 1.23" then inr (AtLeast 1 23)
  else if String.eqb s ">= 1.24" then inr (AtLeast 1 24)
  else match release_parse s with
       | inr r => inr (OneRelease r)
       | inl _ => inl (ErrNew "improper constraint")
       end.
Definition range_check (c : ReleaseRange) (r : Release) : bool :=
  match c with
  | AnyRelease => true
  | MinorRelease m => ((release_numbers r).1.1 =? 1) && ((release_numbers r).1.2 =? m)
  | LowerThan major minor => lower r major minor
  | AtLeast major minor => negb (lower r major minor)
  | OneRelease r' => match release_compare r r' with Eq => true | _ => false end
  end.

#[export] Instance mem_semver : SemverLib := {|
  Version := Release;
  NewVersion := release_parse;
  ver_String := release_string;
  ver_Major r := (release_numbers r).1.1;
  ver_Minor r := (release_numbers r).1.2;
  ver_Compare := release_compare;
  Constraints := ReleaseRange;
  NewConstraint := range_parse;
  Constraints_Check := range_check;
|}.

#[export] Instance mem_semver_laws : SemverLaws mem_semver.
Proof.
  split.
  - by intros [].
  - by intros [] [].
  - by intros [] [] [].
  - intros [] [] H; vm_compute in H; try done; vm_compute; intuition (congruence || discriminate).
  - intros []; vm_compute; split; congruence.
  - intros []; vm_compute; split; congruence.
  - intros []; eexists; (split_and!; [vm_compute; reflexivity|done..]).
  - by intros [].
Qed.

(** ** Clock, retries, sets *)

#[export] Program Instance mem_time : WireTime := {| wire_time t := t - t `mod` Second |}.
Next Obligation. intros t. unfold Second. pose proof (Z.mod_pos_bound t 1000000000). lia. Qed.
Next Obligation.
  intros t. unfold Second. rewrite Zminus_mod, Zmod_mod, Z.sub_diag. done.
Qed.

#[export] Program Instance mem_sets : StringSets := {| set_List := elements |}.
Next Obligation. intros s x. apply elem_of_elements. Qed.
Next Obligation. intros s. apply NoDup_elements. Qed.

Fixpoint attempts {W A} (n : nat) (f : M W A) (w : W) : outcome A * W :=
  match f w, n with
  | (Err e, w'), S n => if IsConflict e then attempts n f w' else (Err e, w')
  | r, _ => r
  end.

Lemma attempts_last {W A} (f : M W A) n : ∀ w r w',
  attempts n f w = (r, w') →
  ∃ w0, f w0 = (r, w') ∧
    ∀ P : W → Prop, (∀ w1 e w2, P w1 → f w1 = (Err e, w2) → IsConflict e = true → P w2) → P w → P w0.
Proof.
  induction n as [|n IH]; intros w r w' E; simpl in E; destruct (f w) as [o w1] eqn:Ef.
  { exists w. rewrite Ef. split; [by destruct o|done]. }
  assert (Hone : (o, w1) = (r, w') → ∃ w0, f w0 = (r, w') ∧ ∀ P : W → Prop,
    (∀ w1 e w2, P w1 → f w1 = (Err e, w2) → IsConflict e = true → P w2) → P w → P w0).
  { intros <-. by exists w. }
  destruct o as [a|e|p|]; auto. destruct (IsConflict e) eqn:Ec; auto.
  destruct (IH _ _ _ E) as (w0 & E0 & HP). exists w0. split; [done|].
  intros P Hstep Hw. apply (HP P Hstep). by eapply Hstep.
Qed.

(** [retry.DefaultRetry] makes five attempts. *)
Program Definition mem_retry (W : Type) : Retry W := mkRetry W (λ A f, attempts 4 f) _ _.
Next Obligation.
  intros W A f w r w' E Hr. simpl. rewrite E. destruct r; [done| |done|done]. by rewrite (Hr e).
Qed.
Next Obligation. intros W A f. apply attempts_last. Qed.

(** ** The store *)

Abbreviation table O := (gmap NamespacedName O).

Record Mem := mkMem {
  mem_clock : Z;
  mem_seq : N;
  mem_events : list (string * string * string);
  mem_clusters : table Cluster;
  mem_configs : table EtcdBackupConfig;
  mem_jobs : table Job;
  mem_secrets : table Secret;
  mem_pods : table MetaObject;
  mem_replicaSets : table ReplicaSet;
  mem_restores : table EtcdRestore;
  mem_machineDeployments : table MachineDeployment;
}.

Definition next_seq (w : Mem) : Mem :=
  mkMem (mem_clock w) (mem_seq w + 1) (mem_events w) (mem_clusters w) (mem_configs w) (mem_jobs w)
    (mem_secrets w) (mem_pods w) (mem_replicaSets w) (mem_restores w) (mem_machineDeployments w).
Definition mem_now (w : Mem) : Z * Mem := (mem_clock w, w).
Definition mem_rand (w : Mem) : string * Mem := (pretty (mem_seq w), next_seq w).
Definition mem_event (t r m : string) (w : Mem) : Mem :=
  mkMem (mem_clock w) (mem_seq w) (mem_events w ++ [(t, r, m)]) (mem_clusters w) (mem_configs w) (mem_jobs w)
    (mem_secrets w) (mem_pods w) (mem_replicaSets w) (mem_restores w) (mem_machineDeployments w).

(** The table of a type, and how the server merges what it is sent into what it
    has: [st_main old new stored] for the main resource, [st_status] for the
    status subresource. *)
Class Stored (O : Type) `{Object O} := {
  st_get : Mem → table O;
  st_set : table O → Mem → Mem;
  st_main : O → O → O → O;
  st_status : O → O → O → O;
}.

#[export] Instance stored_cluster_table : Stored Cluster := {|
  st_get := mem_clusters;
  st_set t w := mkMem (mem_clock w) (mem_seq w) (mem_events w) t (mem_configs w) (mem_jobs w)
    (mem_secrets w) (mem_pods w) (mem_replicaSets w) (mem_restores w) (mem_machineDeployments w);
  st_main old new stored := mkCluster (cl_meta new)
    (set_spec_version (merge1 (sp_version (cl_spec old)) (sp_version (cl_spec new)) (sp_version (cl_spec stored)))
       (cl_spec new)) (cl_status stored) (cl_address new) (cl_typeMeta stored);
  st_status old new stored := mkCluster (cl_meta stored) (cl_spec stored) (patched_status old new stored)
    (cl_address stored) (cl_typeMeta stored);
|}.
#[export] Instance stored_config_table : Stored EtcdBackupConfig := {|
  st_get := mem_configs;
  st_set t w := mkMem (mem_clock w) (mem_seq w) (mem_events w) (mem_clusters w) t (mem_jobs w)
    (mem_secrets w) (mem_pods w) (mem_replicaSets w) (mem_restores w) (mem_machineDeployments w);
  st_main old new stored := mkBackupConfig (bc_meta new) (bc_spec new) (bc_status stored);
  st_status old new stored := mkBackupConfig (bc_meta stored) (bc_spec stored)
    (mkBackupConfigStatus (wire_backup <$> bc_backups new) (bst_conditions (bc_status new))
       (bst_cleanupRunning (bc_status new)));
|}.
#[export] Instance stored_job_table : Stored Job := {|
  st_get := mem_jobs;
  st_set t w := mkMem (mem_clock w) (mem_seq w) (mem_events w) (mem_clusters w) (mem_configs w) t
    (mem_secrets w) (mem_pods w) (mem_replicaSets w) (mem_restores w) (mem_machineDeployments w);
  st_main old new stored := new;
  st_status old new stored := stored;
|}.
#[export] Instance stored_secret_table : Stored Secret := {|
  st_get := mem_secrets;
  st_set t w := mkMem (mem_clock w) (mem_seq w) (mem_events w) (mem_clusters w) (mem_configs w) (mem_jobs w)
    t (mem_pods w) (mem_replicaSets w) (mem_restores w) (mem_machineDeployments w);
  st_main old new stored := new;
  st_status old new stored := stored;
|}.
#[export] Instance stored_pod_table : Stored MetaObject := {|
  st_get := mem_pods;
  st_set t w := mkMem (mem_clock w) (mem_seq w) (mem_events w) (mem_clusters w) (mem_configs w) (mem_jobs w)
    (mem_secrets w) t (mem_replicaSets w) (mem_restores w) (mem_machineDeployments w);
  st_main old new stored := new;
  st_status old new stored := stored;
|}.
#[export] Instance stored_rs_table : Stored ReplicaSet := {|
  st_get := mem_replicaSets;
  st_set t w := mkMem (mem_clock w) (mem_seq w) (mem_events w) (mem_clusters w) (mem_configs w) (mem_jobs w)
    (mem_secrets w) (mem_pods w) t (mem_restores w) (mem_machineDeployments w);
  st_main old new stored := new;
  st_status old new stored := stored;
|}.
#[export] Instance stored_restore_table : Stored EtcdRestore := {|
  st_get := mem_restores;
  st_set t w := mkMem (mem_clock w) (mem_seq w) (mem_events w) (mem_clusters w) (mem_configs w) (mem_jobs w)
    (mem_secrets w) (mem_pods w) (mem_replicaSets w) t (mem_machineDeployments w);
  st_main old new stored := mkEtcdRestore (er_meta new) (er_spec new) (er_status stored);
  st_status old new stored := mkEtcdRestore (er_meta stored) (er_spec stored) (er_status new);
|}.
#[export] Instance stored_md_table : Stored MachineDeployment := {|
  st_get := mem_machineDeployments;
  st_set t w := mkMem (mem_clock w) (mem_seq w) (mem_events w) (mem_clusters w) (mem_configs w) (mem_jobs w)
    (mem_secrets w) (mem_pods w) (mem_replicaSets w) (mem_restores w) t;
  st_main old new stored := new;
  st_status old new stored := stored;
|}.

(** ** The client *)
Section client.
Context {O : Type} `{Stored O}.

Definition mem_lookup (k : NamespacedName) (w : Mem) : option O :=
  o ← st_get w !! k; if decide (object_key o = k) then Some o else None.

Definition notFound : error := ErrAPI ReasonNotFound "not found".

(** A new resource version for an object that is written. *)
Definition stamp (w : Mem) (o : O) : O := set_meta (set_resourceVersion (pretty (mem_seq w)) (obj_meta o)) o.
Definition mem_put (k : NamespacedName) (o : O) (w : Mem) : Mem :=
  next_seq (st_set (<[k := o]> (st_get w)) w).

Definition mem_get (k : NamespacedName) : M Mem O := λ w,
  (match mem_lookup k w with Some o => Ok o | None => Err notFound end, w).

Definition label_matches (m : ObjectMeta) (l : string * string) : bool := bool_decide (om_labels m !! l.1 = Some l.2).
Definition list_matches (opts : ListOptions) (o : O) : bool :=
  (String.eqb (lo_namespace opts) "" || String.eqb (lo_namespace opts) (om_namespace (obj_meta o))) &&
  forallb (label_matches (obj_meta o)) (lo_labels opts).
Definition mem_select (t : table O) (opts : ListOptions) : list O :=
  List.filter (list_matches opts) (map snd (map_to_list t)).
Definition mem_list (opts : ListOptions) : M Mem (list O) := λ w, (Ok (mem_select (st_get w) opts), w).

Definition mem_create (o : O) : M Mem O := λ w,
  let m := obj_meta o in
  let o := stamp w (set_meta (if String.eqb (om_name m) "" then set_name (pretty (mem_seq w)) m else m) o) in
  match st_get w !! object_key o with
  | Some _ => (Err (ErrAPI ReasonAlreadyExists "already exists"), w)
  | None => (Ok o, mem_put (object_key o) o w)
  end.

(** An update must name the stored resource version; a deleted object without
    finalizers goes away. *)
Definition mem_update (new : O) : M Mem O := λ w,
  match mem_lookup (object_key new) w with
  | None => (Err notFound, w)
  | Some stored =>
      if negb (String.eqb (om_resourceVersion (obj_meta new)) (om_resourceVersion (obj_meta stored)))
      then (Err (ErrAPI ReasonConflict "the object has been modified"), w) else
      let o := stamp w (st_main stored new stored) in
      match om_deletionTimestamp (obj_meta new), om_finalizers (obj_meta new) with
      | Some _, [] => (Ok o, next_seq (st_set (delete (object_key new) (st_get w)) w))
      | _, _ => (Ok o, mem_put (object_key new) o w)
      end
  end.

Definition mem_merge (merge : O → O → O → O) (old new : O) : M Mem O := λ w,
  match mem_lookup (object_key new) w with
  | None => (Err notFound, w)
  | Some stored => let o := stamp w (merge old new stored) in (Ok o, mem_put (object_key new) o w)
  end.

Definition mem_delete (o : O) : M Mem unit := λ w,
  match mem_lookup (object_key o) w with
  | None => (Err notFound, w)
  | Some _ => (Ok tt, next_seq (st_set (delete (object_key o) (st_get w)) w))
  end.

Definition mem_client : Client Mem O :=
  mkClient mem_get mem_list mem_create mem_update (mem_merge st_main) (mem_merge st_status) mem_delete.

Lemma mem_get_keeps {X} (v : Mem → X) k : keeps v (c_get mem_client k).
Proof. by intros w r w' [= _ <-]. Qed.

Lemma mem_list_keeps {X} (v : Mem → X) o : keeps v (c_list mem_client o).
Proof. by intros w r w' [= _ <-]. Qed.

Lemma mem_get_ok k w o w' : c_get mem_client k w = (Ok o, w') → mem_lookup k w = Some o.
Proof. simpl. unfold mem_get. destruct (mem_lookup k w); [|done]. by intros [= <- _]. Qed.

Lemma mem_lookup_key k w o : mem_lookup k w = Some o → object_key o = k.
Proof.
  unfold mem_lookup. destruct (st_get w !! k) as [x|]; [|done]. simpl. case_decide; [|done]. by intros [= <-].
Qed.

(** What create, update and delete change is the table of their own type. *)
Lemma mem_create_keeps {X} (v : Mem → X) o :
  (∀ t w, v (st_set t w) = v w) → (∀ w, v (next_seq w) = v w) → keeps v (c_create mem_client o).
Proof.
  intros Hset Hseq w r w'. simpl. unfold mem_create, mem_put. destruct (_ !! _); intros [= _ <-]; [done|].
  by rewrite Hseq, Hset.
Qed.

Lemma mem_delete_keeps {X} (v : Mem → X) o :
  (∀ t w, v (st_set t w) = v w) → (∀ w, v (next_seq w) = v w) → keeps v (c_delete mem_client o).
Proof.
  intros Hset Hseq w r w'. simpl. unfold mem_delete. destruct (mem_lookup _ _); intros [= _ <-]; [|done].
  by rewrite Hseq, Hset.
Qed.
End client.
Arguments mem_client O {_ _}.

Definition mem_cview (k : NamespacedName) (w : Mem) : option Cluster := mem_lookup k w.

#[export] Program Instance mem_cluster_world : ClusterWorld (mem_client Cluster) := {| cview := mem_cview |}.
Next Obligation. intros. apply mem_get_keeps. Qed.
Next Obligation. intros k w o w' E. by apply mem_get_ok in E. Qed.
Next Obligation. intros k w o E. by apply mem_lookup_key in E. Qed.
Next Obligation.
  intros k w o e w' Hv E. unfold c_get, mem_client, mem_get, mem_cview in *. rewrite Hv in E. done.
Qed.
Next Obligation.
  intros old new stored w r w' Hv Hd E. unfold c_status_patch, mem_client, mem_merge, mem_cview in *.
  rewrite Hv in E. injection E as <- <-. split; [done|]. right. exists (pretty (mem_seq w)).
  assert (Hk : object_key (stamp w (st_status old new stored)) = object_key new).
  { rewrite <- (mem_lookup_key _ _ _ Hv). done. }
  split_and!; [|by intros x [= <-]|done].
  unfold mem_lookup, mem_put. simpl. rewrite lookup_insert_eq. simpl. by rewrite decide_True.
Qed.
