(* ===== verification/Samples.v ===== *)
(** * Sample environments and objects

    The environments of the controllers over the store in memory, with the proofs
    that they satisfy the interfaces, and the objects that the concrete runs use. *)

From S2P Require Import Prelude ResourceNames Kube Semver CloudApi ClusterApi Helper HelperSpec Corev1 EtcdBackup EtcdBackupFacts EtcdBackupInv EtcdBackupSchedule VersionManager UpdateController UpdateControllerSpec AutoUpdate Reconciling EtcdRestore Encryption EncryptionSpec ClusterPhase Memory.

(** ** Running *)

Definition succeeds {W A} (r : outcome A * W) : bool := match r.1 with Ok _ => true | _ => false end.

Lemma run_ok {W A} (m : M W A) w : succeeds (m w) = true → ∃ a w', m w = (Ok a, w').
Proof. unfold succeeds. destruct (m w) as [[a|e|p|] w']; simpl; [eauto|done..]. Qed.

Lemma run_ok2 {W A B} (m : M W (A * B)) w : succeeds (m w) = true → ∃ a b w', m w = (Ok (a, b), w').
Proof. intros H. destruct (run_ok m w H) as ([a b] & w' & E). eauto. Qed.

Lemma run_any {W A} (m : M W A) w : ∃ r w', m w = (r, w').
Proof. destruct (m w) as [r w'] eqn:E. eauto. Qed.

(** ** Cron *)

Definition Hour : Z := 60 * Minute.
Definition hourly (t : Z) : Prop := t `mod` Hour = 0.
Definition hourly_Next (t : Z) : Z := (t / Hour + 1) * Hour.

Lemma hourly_schedule : CronSchedule hourly hourly_Next.
Proof.
  unfold hourly, hourly_Next. change Hour with 3600000000000. split.
  - intros t. apply Z_mod_mult.
  - intros t. pose proof (Z.div_mod t 3600000000000 ltac:(lia)).
    pose proof (Z.mod_pos_bound t 3600000000000 ltac:(lia)). lia.
  - intros t u Hu Ht. pose proof (Z.div_mod t 3600000000000 ltac:(lia)).
    pose proof (Z.mod_pos_bound t 3600000000000 ltac:(lia)).
    pose proof (Z.div_mod u 3600000000000 ltac:(lia)). nia.
  - intros t Ht. pose proof (Z.div_mod t 3600000000000 ltac:(lia)) as Hd. rewrite Ht in Hd.
    change Second with 1000000000. rewrite Hd, Z.add_0_r.
    replace (3600000000000 * (t / 3600000000000)) with (3600 * (t / 3600000000000) * 1000000000) by lia.
    apply Z_mod_mult.
Qed.

(** Two schedules: every hour, and the 30th of February. *)
Definition sample_cron (s : string) : outcome (Z → Z) :=
  if String.eqb s "0 * * * *" then Ok hourly_Next
  else if String.eqb s "0 0 30 2 *" then Ok (λ _, 0)
  else Err (ErrNew "expected exactly 5 fields").

(** ** Environments *)

Definition sample_versions : Versions := mkVersions "8d2a9f1" "v2.21.0" "v2.21.0" "0.10" "v1.17" "CE".
Definition sample_credentials : NamespacedName := mkKey "kube-system" "s3".
Definition sample_destination : BackupDestination := mkDestination "s3.local" "backups" (Some sample_credentials).
Definition no_resources : ResourceRequirements := mkResourceRequirements None None.
Definition no_deployment : DeploymentSettings := mkDeploymentSettings None None [].
Definition no_election : LeaderElectionSettings := mkLeaderElectionSettings None None None.
Definition no_proxy : NodeportProxyComponent := mkNodeportProxyComponent "" no_resources.
Definition empty_components (nodePortRange : string) : ComponentSettings :=
  mkComponentSettings (mkAPIServerSettings no_deployment None nodePortRange)
    (mkControllerSettings no_deployment no_election) (mkControllerSettings no_deployment no_election)
    (mkEtcdStatefulSetSettings None "" None None []) None no_proxy None.
Definition empty_proxy : NodeportProxyConfig :=
  mkNodeportProxyConfig false ∅ no_proxy (mkEnvoyLoadBalancerService ∅ []) no_proxy no_proxy.
Definition sample_datacenter (aws hetzner : option (gmap string string)) (audit : bool) : Datacenter :=
  mkDatacenter "DE" "Hamburg" None
    (mkDatacenterSpec None None aws None None None hetzner None None None None None None None None [] audit false None).
Definition aws_datacenter : Datacenter := sample_datacenter (Some ∅) None false.
Definition hetzner_datacenter : Datacenter := sample_datacenter None (Some ∅) true.
Definition sample_seed : Seed :=
  mkSeed "seed" "kubermatic" (Some (mkEtcdBackupRestore (list_to_map [("minio", Some sample_destination)]) "minio"))
    (list_to_map [("dc-1", aws_datacenter); ("dc-2", hetzner_datacenter)]) empty_proxy ExposeStrategyNodePort
    (empty_components "") "" None ∅.
Definition sample_container : Container := mkContainer "store" "s3cmd" [] [] [] [] ∅.
Definition sample_hash (e : option EncryptionConfiguration) : outcome string :=
  match e with None => Ok "null" | Some e => Ok (if ec_enabled e then "on" else "off") end.
Definition sample_decode (s : string) : outcome (list ResourceConfiguration) :=
  if String.eqb s "secrets by key-1" then
    Ok [mkResourceConfiguration ["secrets"] [mkProviderConfiguration (Some ["key-1"]) false;
                                             mkProviderConfiguration None true]]
  else Err (ErrNew "yaml").

Definition mem_poll (m : M Mem bool) : M Mem unit := b ← m; if (b : bool) then mret tt else throw (ErrNew "timed out").

Definition sample_updates : KubermaticVersioningConfiguration :=
  mkVersioning ["1.21.8"; "1.22.5"; "1.23.6"] (Some "1.22.5")
    [mkUpdateConfig "1.21.*" "1.21.*" (Some false) None;
     mkUpdateConfig "1.21.*" "1.22.*" (Some false) None;
     mkUpdateConfig "1.20.*" "1.21.8" (Some true) (Some true);
     mkUpdateConfig "1.22.0" "1.22.5" None (Some true)]
    [mkIncompatibility "aws" "1.23.*" "always" "CREATE"].

Definition backup_env : BackupEnv Mem :=
  mkBackupEnv Mem (mem_client EtcdBackupConfig) (mem_client Cluster) (mem_client Job) (mem_retry Mem)
    mem_now mem_rand mem_event (λ _, mret tt) (λ _, mret tt) (mret sample_seed)
    (mret (mkSeedControllerConfiguration "" "")) (λ _, inr sample_container) sample_cron
    "etcd" "" sample_versions 4000.
Definition update_env : UpdateEnv Mem :=
  mkUpdateEnv Mem (mem_client Cluster) (mem_client ReplicaSet) (mem_retry Mem) mem_now mem_event
    (mret sample_updates) "" sample_versions.
Definition phase_env : PhaseEnv Mem := mkPhaseEnv Mem (mem_client Cluster) (mem_retry Mem) mem_event sample_versions.
Definition auto_env : AutoUpdateEnv Mem :=
  mkAutoUpdateEnv Mem (mem_client Cluster) (λ _, mret (mem_client MachineDeployment)) (mem_retry Mem) mem_now
    mem_event (mret sample_updates) "" sample_versions.
Definition restore_env : RestoreEnv Mem :=
  mkRestoreEnv Mem (mem_client EtcdRestore) (mem_client Cluster) (mem_client Secret) (mem_client ConfigMap)
    (mem_client StatefulSet) (mem_client PersistentVolumeClaim) (mem_retry Mem) mem_now mem_rand mem_event
    (mret sample_seed) (λ a b, bool_decide (do_data a = do_data b)) mem_poll (λ _, true) (λ _, mret tt)
    (λ _ _ _, mret tt) "" sample_versions.
Definition encryption_env : EncryptionEnv Mem :=
  mkEncryptionEnv Mem (mem_client Cluster) (mem_client Secret) (mem_client MetaObject) (mem_client Job)
    (mem_retry Mem) mem_now mem_event (mret sample_seed) (mret tt) mem_poll sample_hash sample_decode ""
    "" sample_versions.

(** ** The interfaces hold *)

Lemma mem_poll_keeps {X} (v : Mem → X) m : keeps v m → keeps v (mem_poll m).
Proof. intros Hm. unfold mem_poll. frame. Qed.

Definition mem_view (k : NamespacedName) (w : Mem) : option EtcdBackupConfig := mem_lookup k w.

Lemma mem_put_lookup {O : Type} `{Stored O} k (o : O) w :
  (∀ t w, st_get (st_set t w) = t) → (∀ w, st_get (next_seq w) = st_get w) → object_key o = k →
  mem_lookup k (mem_put k o w) = Some o.
Proof.
  intros Hset Hseq Hk. unfold mem_lookup, mem_put. rewrite Hseq, Hset, lookup_insert_eq. simpl.
  by rewrite decide_True.
Qed.

Lemma config_update_law o w r w' :
  c_update (mem_client EtcdBackupConfig) o w = (r, w') →
  (mem_view (object_key o) w' = mem_view (object_key o) w ∧ ∀ x, r ≠ Ok x) ∨
  ∃ v rv, mem_view (object_key o) w = Some v ∧
    let o' := mkBackupConfig (set_resourceVersion rv (bc_meta o)) (bc_spec o) (bc_status v) in
    (mem_view (object_key o) w' = Some o' ∨ mem_view (object_key o) w' = None ∧ om_finalizers (bc_meta o) = []) ∧
    (∀ x, r = Ok x → x = o').
Proof.
  unfold c_update, mem_client, mem_update, mem_view. intros E.
  destruct (mem_lookup (object_key o) w) as [v|] eqn:Hv; [|injection E as <- <-; left; split; [done|by intros]].
  destruct (negb _); [injection E as <- <-; left; split; [by rewrite Hv|by intros]|]. right.
  exists v, (pretty (mem_seq w)). split; [done|].
  assert (Hput : mem_lookup (object_key o) (mem_put (object_key o) (stamp w (st_main v o v)) w)
    = Some (stamp w (st_main v o v))) by by apply mem_put_lookup.
  destruct (om_deletionTimestamp (obj_meta o)); [destruct (om_finalizers (obj_meta o)) eqn:Ef|];
    injection E as <- <-; (split; [|by intros x [= <-]]).
  - right. split; [|done]. unfold mem_lookup. simpl. by rewrite lookup_delete_eq.
  - left. etransitivity; [exact Hput|done].
  - left. etransitivity; [exact Hput|done].
Qed.

#[export] Program Instance backup_world : BackupWorld backup_env := {| view := mem_view |}.
Next Obligation. by intros k w r w' [= _ <-]. Qed.
Next Obligation. by intros k w r w' [= _ <-]. Qed.
Next Obligation. by intros k t r m w o w' [= _ <-]. Qed.
Next Obligation. intros. apply mem_get_keeps. Qed.
Next Obligation. intros. by apply mem_create_keeps. Qed.
Next Obligation. intros. by apply mem_delete_keeps. Qed.
Next Obligation. intros. apply keeps_ret. Qed.
Next Obligation. intros. apply keeps_ret. Qed.
Next Obligation. intros. apply keeps_ret. Qed.
Next Obligation. intros. apply keeps_ret. Qed.
Next Obligation. intros. apply mem_get_keeps. Qed.
Next Obligation. intros. apply mem_get_keeps. Qed.
Next Obligation. intros k w o w' E. by apply mem_get_ok in E. Qed.
Next Obligation. intros k w o E. by apply mem_lookup_key in E. Qed.
Next Obligation. intros o w r w' E. by apply config_update_law. Qed.
Next Obligation.
  intros old new w r w' E. unfold be_configs, backup_env, c_status_patch, mem_client, mem_merge, mem_view in *.
  destruct (mem_lookup (object_key new) w) as [v|] eqn:Hv; [|injection E as <- <-; left; split; [done|by intros]].
  injection E as <- <-. right. exists v, (pretty (mem_seq w)). eexists. split; [done|].
  split_and!; [|rewrite mem_put_lookup; [reflexivity|done..|]|by intros x [= <-]].
  - done.
  - rewrite <- (mem_lookup_key _ _ _ Hv). done.
Qed.

#[export] Program Instance update_world : UpdateWorld update_env :=
  {| uw_clusters := mem_cluster_world;
     usite w := mkUpdateSite (Some sample_updates) (λ ns, mem_select (mem_replicaSets w) (mkListOptions ns [])) |}.
Next Obligation. by intros w config w' [= <- _]. Qed.
Next Obligation. by intros ns w l w' [= <- _]. Qed.
Next Obligation. intros. apply mem_get_keeps. Qed.
Next Obligation.
  intros old new w r w'. unfold ue_clusters, update_env, c_status_patch, mem_client, mem_merge.
  destruct (mem_lookup _ _); by intros [= _ <-].
Qed.
Next Obligation. by intros w r w' [= _ <-]. Qed.
Next Obligation. by intros t r m w o w' [= _ <-]. Qed.
Next Obligation. intros. apply mem_list_keeps. Qed.
Next Obligation. intros. apply keeps_ret. Qed.
Next Obligation. by intros k w r w' [= _ <-]. Qed.
Next Obligation. by intros k t r m w o w' [= _ <-]. Qed.
Next Obligation. intros. apply mem_list_keeps. Qed.
Next Obligation. intros. apply keeps_ret. Qed.

#[export] Program Instance auto_world : AutoUpdateWorld auto_env := {| aw_clusters := mem_cluster_world |}.
Next Obligation. by intros k t r m w o w' [= _ <-]. Qed.
Next Obligation.
  intros old new stored w x w' Hv Hd E. unfold ae_clusters, auto_env, c_patch, mem_client, mem_merge in E.
  unfold cview, mem_cluster_world, mem_cview in *. rewrite Hv in E. injection E as <- <-.
  split_and!; [done| |done]. apply mem_put_lookup; done.
Qed.

#[export] Program Instance restore_world : RestoreWorld restore_env := {| rw_clusters := mem_cluster_world |}.
Next Obligation. by intros k w r w' [= _ <-]. Qed.
Next Obligation.
  intros old new w y w' v Hv E. unfold re_clusters, restore_env, c_patch, mem_client, mem_merge in E.
  unfold cview, mem_cluster_world, mem_cview in *. rewrite Hv in E. by injection E as <- <-.
Qed.

#[export] Program Instance encryption_world : EncryptionWorld encryption_env := {|
  ew_clusters := mem_cluster_world;
  ew_store w := (filter (λ p, object_key p.2 = p.1) (mem_secrets w), mem_select (mem_pods w), mem_select (mem_jobs w));
|}.
Next Obligation. by intros k w r w' [= _ <-]. Qed.
Next Obligation. intros. apply mem_get_keeps. Qed.
Next Obligation.
  intros key w s w' E. apply mem_get_ok in E. simpl. apply map_lookup_filter_Some. unfold mem_lookup in E. simpl in E.
  destruct (mem_secrets w !! key) as [x|]; [|done]. simpl in E. case_decide; [|done]. by injection E as <-.
Qed.
Next Obligation. intros. apply mem_list_keeps. Qed.
Next Obligation. by intros o w l w' [= <- _]. Qed.
Next Obligation. intros. apply mem_list_keeps. Qed.
Next Obligation. by intros o w l w' [= <- _]. Qed.
Next Obligation. intros. apply mem_get_keeps. Qed.
Next Obligation. intros. by apply mem_create_keeps. Qed.
Next Obligation. intros. apply keeps_ret. Qed.
Next Obligation. intros. apply keeps_ret. Qed.
Next Obligation. intros k m. apply mem_poll_keeps. Qed.

(** ** Objects *)

Definition up : ExtendedClusterHealth :=
  mkExtendedClusterHealth HealthStatusUp HealthStatusUp HealthStatusUp HealthStatusUp HealthStatusUp HealthStatusUp
    HealthStatusUp HealthStatusUp HealthStatusUp None None None None None None HealthStatusUp.

Definition sample_meta (namespace name : string) : ObjectMeta :=
  mkObjectMeta name namespace "uid" ∅ ∅ [] [] (100 * Hour) None "1".

Definition sample_aws : AWSCloudSpec := mkAWSCloudSpec None "AKIA" "secret" "" "" "" "" "" "" "" "" None.
Definition sample_cloud (dc provider : string) : CloudSpec :=
  mkCloudSpec dc provider None None None (Some sample_aws) None None None None None None None None None None None.
Definition sample_network_config : ClusterNetworkingConfig :=
  mkClusterNetworkingConfig IPFamilyIPv4 (mkNetworkRanges ["10.240.16.0/20"]) (mkNetworkRanges ["172.25.0.0/16"])
    (Some 24) None "cluster.local" "ipvs" (Some (mkIPVSConfiguration (Some true))) (Some true) None (Some true).

(** A cluster whose spec asks for [version] and whose control plane runs [running]. *)
Definition sample_cluster (version running : Semver) (encryption : option ClusterEncryptionStatus)
    (conditions : gmap string ClusterCondition) : Cluster :=
  mkCluster (sample_meta "" "abc")
    (mkClusterSpec "sample" version (sample_cloud "dc-1" "aws") "containerd"
       (Some (mkCNIPluginSettings CNIPluginTypeCanal "v3.22")) sample_network_config [] ExposeStrategyNodePort
       (empty_components "30000-32767") {[ClusterFeatureEncryptionAtRest := true]} false (Some true) false None
       (Some (mkEncryptionConfiguration true ["secrets"] (Some (mkSecretbox [mkSecretboxKey "key-1" "c2VjcmV0" None]))))
       false None ∅)
    (mkClusterStatus 0 up 0 "cluster-abc" (mkClusterVersionsStatus running running running running (Some running))
       "" "" None None conditions "" 0 ∅ encryption None)
    (mkClusterAddress "" 0 "" "" "" "") (mkTypeMeta "Cluster" "kubermatic.k8c.io/v1").

Definition abc : NamespacedName := mkKey "" "abc".
Definition plain_cluster : Cluster := sample_cluster "1.22.5" "1.22.5" None ∅.

Definition backup (scheduled : Z) (name phase deletePhase : string) (finished : Z) : BackupStatus :=
  mkBackupStatus scheduled name (name +:+ "-create") scheduled finished phase "" (name +:+ "-delete") 0 0 deletePhase "".

Definition sample_config (schedule : string) (keep : option Z) (finalizers : list string)
    (backups : list BackupStatus) : EtcdBackupConfig :=
  mkBackupConfig (set_finalizers finalizers (sample_meta "cluster-abc" "daily"))
    (mkBackupConfigSpec "daily" "abc" schedule keep "minio") (mkBackupConfigStatus backups ∅ false).

Definition daily : NamespacedName := mkKey "cluster-abc" "daily".

Definition empty_mem (clock : Z) : Mem := mkMem clock 2 [] ∅ ∅ ∅ ∅ ∅ ∅ ∅ ∅.
Definition with_cluster (c : Cluster) (w : Mem) : Mem := st_set (<[object_key c := c]> (mem_clusters w)) w.
Definition with_config (c : EtcdBackupConfig) (w : Mem) : Mem := st_set (<[object_key c := c]> (mem_configs w)) w.
Definition with_job (j : Job) (w : Mem) : Mem := st_set (<[object_key j := j]> (mem_jobs w)) w.
Definition with_secret (s : Secret) (w : Mem) : Mem := st_set (<[object_key s := s]> (mem_secrets w)) w.
Definition with_pod (p : MetaObject) (w : Mem) : Mem := st_set (<[object_key p := p]> (mem_pods w)) w.
Definition with_replicaSet (r : ReplicaSet) (w : Mem) : Mem := st_set (<[object_key r := r]> (mem_replicaSets w)) w.
Definition with_restore (r : EtcdRestore) (w : Mem) : Mem := st_set (<[object_key r := r]> (mem_restores w)) w.
