(* ===== verification/WitnessBackup.v ===== *)
(** * Concrete runs of the etcd backup controller

    The theorems about backups at work on a store in memory: a configuration with
    an hourly schedule, with surplus and finished backups. *)

From S2P Require Import Prelude ResourceNames Kube Semver CloudApi ClusterApi Helper HelperSpec Corev1 TimeFormat EtcdBackup EtcdBackupFacts EtcdBackupInv EtcdBackupSpec EtcdBackupSchedule Memory Samples.

(** 100 hours after the epoch of the calendar the configuration was created, and
    four hours later, at 20 past, the controller runs. *)
Definition clock : Z := 104 * Hour + 20 * Minute.
Definition new_config : EtcdBackupConfig := sample_config "0 * * * *" (Some 2) [] [].
Definition new_world : Mem := with_config new_config (with_cluster plain_cluster (empty_mem clock)).

(** The stored configuration after two runs. *)
Definition after_runs : Mem := (Reconcile backup_env daily (Reconcile backup_env daily new_world).2).2.

Lemma stored_backups_invariant_witness :
  ∃ cfg, view daily after_runs = Some cfg ∧ bc_backups cfg ≠ [] ∧ backup_inv cfg.
Proof.
  destruct (view daily after_runs) as [cfg|] eqn:E; [|by vm_compute in E].
  exists cfg. split; [done|]. split.
  - assert (Hl : (bc_backups <$> view daily after_runs) ≠ Some []) by by vm_compute.
    intros Hb. apply Hl. rewrite E. simpl. by rewrite Hb.
  - eapply (stored_backups_invariant backup_env daily after_runs); [|exact E].
    eapply reach_reconcile; [|apply surjective_pairing].
    eapply reach_reconcile; [|apply surjective_pairing].
    by apply (reach_created backup_env daily new_world new_config).
Defined.

(** A configuration that keeps two backups and has three completed ones, a failed
    one, and one whose backup and deletion are both finished. *)
Definition forgotten : BackupStatus :=
  mkBackupStatus (99 * Hour) "gone" "gone-create" (99 * Hour) (99 * Hour) "Completed" "" "gone-delete"
    (100 * Hour) (100 * Hour) "Completed" "".
Definition full_config : EtcdBackupConfig := sample_config "0 * * * *" (Some 2) [DeleteAllBackupsFinalizer]
  [forgotten;
   backup (100 * Hour) "b100" "Completed" "" (100 * Hour);
   backup (101 * Hour) "b101" "Failed" "" (101 * Hour);
   backup (102 * Hour) "b102" "Completed" "" (102 * Hour);
   backup (103 * Hour + 30 * Minute) "b103" "Completed" "" (104 * Hour)].
Definition full_world : Mem := with_config full_config (with_cluster plain_cluster (empty_mem clock)).

Lemma wf_sample s n p d f :
  (p = "Completed" ∨ p = "Failed") → wf_backup (backup s n p d f).
Proof. by intros Hp; split; simpl. Qed.

Lemma full_config_inv : backup_inv full_config.
Proof.
  split; [|vm_compute; lia|by intros _; left].
  repeat apply Forall_cons_2; try apply Forall_nil_2; try (apply wf_sample; auto).
  split; simpl; [by left|by left|done].
Qed.

Lemma step_lifecycle_witness :
  ∃ cfg' res w', startPendingBackupDeleteJobs backup_env full_config plain_cluster (Some sample_destination)
      (Some sample_container) full_world = (Ok (cfg', res), w') ∧ evolves full_config cfg'.
Proof.
  destruct (run_ok2 (startPendingBackupDeleteJobs backup_env full_config plain_cluster (Some sample_destination)
      (Some sample_container)) full_world) as (cfg' & res & w' & E); [vm_compute; reflexivity|].
  exists cfg', res, w'. split; [exact E|].
  eapply (step_lifecycle backup_env daily plain_cluster (Some sample_destination) (Some sample_container)
    (Some sample_container) 2 _ _ full_config full_world); [reflexivity|lia|reflexivity|exact full_config_inv|exact E].
Defined.

Lemma nextBackup_schedule_witness :
  ∃ next, hourly next ∧ clock ≤ next ∧ (∃ pending, hourly pending ∧ 103 * Hour + 30 * Minute < pending < clock ∧
    nextBackup backup_env full_config full_world =
      (Ok (inr (pending, "daily" +:+ "-" +:+ format_time pending, Time_Sub next clock)), full_world)).
Proof.
  destruct (nextBackup_schedule backup_env full_config hourly hourly_Next clock full_world full_world)
    as (next & Hf & Hle & _ & Hcase).
  - done.
  - reflexivity.
  - exact hourly_schedule.
  - reflexivity.
  - vm_compute. congruence.
  - vm_compute. congruence.
  - exists next. split; [exact Hf|]. split; [exact Hle|].
    destruct Hcase as [[Hno _]|(p & Hp & Hr & _ & E)].
    + exfalso. assert (Hc : clock ≤ 104 * Hour) by (apply Hno; [vm_compute; reflexivity|vm_compute; reflexivity]).
      vm_compute in Hc. by apply Hc.
    + exists p. split; [exact Hp|]. split; [exact Hr|exact E].
Defined.

Lemma nextBackup_diverges_witness :
  nextBackup backup_env (sample_config "0 0 30 2 *" None [] []) new_world = (OutOfFuel, new_world).
Proof.
  apply (nextBackup_diverges backup_env _ clock new_world new_world); [done|reflexivity|reflexivity|].
  vm_compute. reflexivity.
Defined.

Definition long_name : string := "abcdefghij-backup-a-configuration-with-a-very-long-name-indeed-create-xyz".

Lemma limitNameLength_witness :
  ∃ s w', limitNameLength backup_env long_name new_world = (Ok s, w') ∧ String.length s = 63%nat.
Proof.
  destruct (limitNameLength_spec backup_env long_name new_world "2" (next_seq new_world)) as (s & w' & E & _ & Hs).
  - reflexivity.
  - simpl. lia.
  - exists s, w'. split; [exact E|]. vm_compute in Hs. by destruct Hs.
Defined.

Lemma backup_jobs_witness :
  ∃ job store, backupJob "etcd" full_config plain_cluster forgotten (Some sample_destination) (Some sample_container)
      = Ok job ∧ job_containers job = [store] ∧ ct_image store = "s3cmd".
Proof.
  destruct (@backup_jobs_ok mem_semver "etcd" full_config plain_cluster forgotten sample_destination sample_credentials
    sample_container r1_22_0) as [(job & store & E & _ & _ & Hc & Hi & _) _]; [reflexivity|reflexivity|].
  exists job, store. split; [exact E|]. split; [exact Hc|exact Hi].
Defined.

Lemma blank_store_container_witness :
  ∃ store msg, getBackupStoreContainer backup_env (mkSeedControllerConfiguration "  " "") = Ok store ∧
    backupJob "etcd" full_config plain_cluster forgotten (Some sample_destination) store = Panic msg.
Proof.
  apply (blank_store_container_panics backup_env (mkSeedControllerConfiguration "  " "")); [done|].
  vm_compute. reflexivity.
Defined.

(** Two delete jobs start: for the failed backup and for the oldest completed one. *)
Lemma retention_witness :
  ∃ cfg' res w', startPendingBackupDeleteJobs backup_env full_config plain_cluster (Some sample_destination)
      (Some sample_container) full_world = (Ok (cfg', res), w') ∧
    (count isRunningDelete (bc_backups cfg') ≤ 3)%nat ∧ res = Some (mkResult false assumedJobRuntime).
Proof.
  destruct (run_ok2 (startPendingBackupDeleteJobs backup_env full_config plain_cluster (Some sample_destination)
      (Some sample_container)) full_world) as (cfg' & res & w' & E); [vm_compute; reflexivity|].
  exists cfg', res, w'. split; [exact E|].
  destruct (retention backup_env daily plain_cluster (Some sample_destination) (Some sample_container)
    full_config full_world cfg' res w') as (_ & _ & Hc & Hr); [reflexivity|exact full_config_inv|exact E|].
  split; [exact Hc|]. apply Hr; [by left| |vm_compute; lia].
  exists 2%nat. eexists. split; [reflexivity|]. split; [done|]. by left.
Defined.

Lemma forgotten_entries_witness :
  ∃ cfg' res w' kept, deleteFinishedBackupJobs backup_env full_config full_world = (Ok (cfg', res), w') ∧
    (bc_backups cfg' = kept ∨ bc_backups cfg' = wire_backup <$> kept) ∧ sublist kept (bc_backups full_config).
Proof.
  destruct (run_ok2 (deleteFinishedBackupJobs backup_env full_config) full_world)
    as (cfg' & res & w' & E); [vm_compute; reflexivity|].
  destruct (forgotten_entries backup_env daily full_config full_world cfg' res w')
    as (kept & Hk & Hs & _); [reflexivity|exact full_config_inv|exact E|].
  exists cfg', res, w', kept. split; [exact E|]. split; [exact Hk|exact Hs].
Defined.

Lemma tracked_bound_witness :
  ∃ cfg' res w', ensurePendingBackupIsScheduled backup_env full_config plain_cluster full_world
      = (Ok (cfg', res), w') ∧ Z.of_nat (length (bc_backups cfg')) ≤ 5.
Proof.
  destruct (run_ok2 (ensurePendingBackupIsScheduled backup_env full_config plain_cluster) full_world)
    as (cfg' & res & w' & E); [vm_compute; reflexivity|].
  exists cfg', res, w'. split; [exact E|].
  destruct (tracked_bound backup_env daily plain_cluster full_config full_world cfg' res w')
    as (_ & Hb & _); [reflexivity|exact full_config_inv|exact E|].
  exact Hb.
Defined.

Lemma format_time_witness :
  format_time clock = format_time (clock + 5) ∧ clock / Second = (clock + 5) / Second.
Proof.
  split; [vm_compute; reflexivity|]. apply format_time_injective.
  - vm_compute. split; congruence.
  - vm_compute. split; congruence.
  - vm_compute. reflexivity.
Defined.
