(* ===== verification/WitnessCluster.v ===== *)
(** * Concrete runs of the cluster controllers

    The theorems about versions, conditions, updates, restores and encryption at
    work on a store in memory. *)

From S2P Require Import Prelude ResourceNames Kube Semver CloudApi ClusterApi Helper HelperSpec Corev1 EtcdBackup VersionManager UpdateController UpdateControllerSpec ClusterPhase AutoUpdate Reconciling EtcdRestore Encryption EncryptionSpec Memory Samples.

(** ** Versions *)

Lemma EnsureVersionCompatible_wraps_witness :
  EnsureVersionCompatible (Some r1_0_3) (Some r1_0_3) ≠ Ok tt.
Proof. apply EnsureVersionCompatible_wraps. vm_compute. reflexivity. Defined.

Definition manager : Manager := NewFromConfiguration sample_updates.

Lemma AutomaticNodeUpdate_skew_witness :
  ∃ v ver, AutomaticNodeUpdate manager "1.20.13" "1.22.5" = Ok (Some v) ∧ mv_version v = Some ver ∧
    20 ≤ ver_Minor ver ≤ 22.
Proof.
  destruct (AutomaticNodeUpdate manager "1.20.13" "1.22.5") as [[v|]|e|p|] eqn:E; try (by vm_compute in E).
  destruct (AutomaticNodeUpdate_skew manager "1.20.13" "1.22.5" r1_22_5 v) as (ver & Hv & _ & Hr);
    [reflexivity|vm_compute; congruence|exact E|].
  exists v, ver. split; [done|]. split; [exact Hv|exact Hr].
Defined.

Lemma manager_constraints :
  ∀ pi, pi ∈ m_providerIncompatibilities manager → ∃ c, NewConstraint (pi_version pi) = inr c.
Proof. intros pi Hpi. apply list_elem_of_singleton in Hpi as ->. eexists. vm_compute. reflexivity. Qed.

Lemma GetPossibleUpdates_witness :
  ∃ vs, GetPossibleUpdates manager "1.21.8" "aws" [] = Ok vs ∧
    ∀ v, v ∈ vs → ∃ ver, mv_version v = Some ver ∧ ver_Compare r1_21_8 ver ≠ Eq.
Proof.
  destruct (GetPossibleUpdates manager "1.21.8" "aws" []) as [vs|e|p|] eqn:E; try (by vm_compute in E).
  exists vs. split; [done|]. intros v Hv.
  apply (GetPossibleUpdates_spec manager "1.21.8" "aws" [] r1_21_8 vs) in Hv as (_ & ver & H1 & H2 & _);
    [|reflexivity|exact manager_constraints|exact E].
  exists ver. split; [exact H1|exact H2].
Defined.

Lemma GetVersionsForProvider_witness :
  ∃ vs, GetVersionsForProvider manager "aws" [] = Ok vs ∧
    ∀ v, v ∈ vs → ∃ ver, mv_version v = Some ver ∧ AutomaticControlplaneUpdate manager (ver_String ver) = Ok None.
Proof.
  destruct (GetVersionsForProvider manager "aws" []) as [vs|e|p|] eqn:E; try (by vm_compute in E).
  exists vs. split; [done|]. intros v Hv.
  apply (GetVersionsForProvider_spec manager "aws" [] vs) in Hv as (_ & ver & H1 & H2 & _);
    [|exact manager_constraints|exact E].
  exists ver. split; [exact H1|exact H2].
Defined.

(** A rule with automatic node updates only. *)
Definition node_only : KubermaticVersioningConfiguration :=
  mkVersioning ["1.22.5"] None [mkUpdateConfig "1.22.0" "1.22.5" None (Some true)] [].

Lemma node_update_witness : AutomaticControlplaneUpdate (NewFromConfiguration node_only) "1.22.0" = Ok None.
Proof.
  apply (node_update_does_not_imply_automatic (L := mem_semver) node_only "1.22.0" r1_22_0); [reflexivity|].
  intros u Hu. apply list_elem_of_singleton in Hu as ->. reflexivity.
Defined.

(** ** Conditions and the wrapper *)

Definition world (c : Cluster) : Mem := with_cluster c (empty_mem (104 * Hour)).

Lemma SetClusterCondition_witness :
  ∃ c' w', SetClusterCondition mem_now sample_versions "A" ConditionTrue "" "" plain_cluster (world plain_cluster)
      = (Ok c', w') ∧
    SetClusterCondition mem_now sample_versions "A" ConditionTrue "" "" c' w' = (Ok c', w').
Proof.
  destruct (run_ok (SetClusterCondition mem_now sample_versions "A" ConditionTrue "" "" plain_cluster)
    (world plain_cluster)) as (c' & w' & E); [vm_compute; reflexivity|].
  exists c', w'. split; [exact E|].
  apply (SetClusterCondition_spec mem_now sample_versions "A" ConditionTrue "" "" plain_cluster
    (world plain_cluster) c' w' E).
Defined.

Definition paused_cluster : Cluster := set_cl_spec (set_pause true (cl_spec plain_cluster)) plain_cluster.

Lemma wrapper_skips_witness :
  ClusterReconcileWrapper (mem_client Cluster) (mem_retry Mem) mem_now "" paused_cluster sample_versions "A"
    (panic "never run") (world paused_cluster) = (Ok (None, None), world paused_cluster).
Proof.
  apply (wrapper_skips (mem_client Cluster) (mem_retry Mem) mem_now). left. reflexivity.
Defined.

(** A controller that has nothing to do. *)
Definition quiet : M Mem Reconciled := mret (None, None).

Lemma wrapper_condition_witness :
  ∃ w' v' cond,
    ClusterReconcileWrapper (mem_client Cluster) (mem_retry Mem) mem_now "" plain_cluster sample_versions "A"
      quiet (world plain_cluster) = (Ok (None, None), w') ∧
    cview abc w' = Some v' ∧ cs_conditions (cl_status v') !! "A" = Some cond ∧ cc_status cond = ConditionTrue.
Proof.
  destruct (ClusterReconcileWrapper (mem_client Cluster) (mem_retry Mem) mem_now "" plain_cluster sample_versions "A"
      quiet (world plain_cluster)) as [r w'] eqn:E.
  assert (Hr : r = Ok (None, None)) by (apply (f_equal fst) in E; simpl in E; rewrite <- E; vm_compute; reflexivity).
  rewrite Hr in E. exists w'.
  destruct (wrapper_condition (mem_client Cluster) (mem_retry Mem) mem_now "" plain_cluster sample_versions "A"
    quiet (world plain_cluster) None None (world plain_cluster) None w' plain_cluster abc)
    as (_ & _ & v' & cond & H1 & H2 & H3 & _).
  - by intros j w o w1 [= _ <-].
  - reflexivity.
  - reflexivity.
  - reflexivity.
  - done.
  - reflexivity.
  - vm_compute. reflexivity.
  - exact E.
  - exists v', cond. split; [by rewrite Hr|]. split; [exact H1|]. split; [exact H2|exact H3].
Defined.

(** ** Updates *)

Definition behind : Cluster := sample_cluster "1.22.5" "1.21.8" None ∅.

Lemma getNextApiserverVersion_witness :
  ∃ s v, getNextApiserverVersion sample_updates behind = Ok s ∧ denotes s v ∧ ver_le r1_21_8 v ∧ ver_le v r1_22_5.
Proof.
  destruct (getNextApiserverVersion sample_updates behind) as [s|e|p|] eqn:E; try (by vm_compute in E).
  destruct (getNextApiserverVersion_spec (L := mem_semver) sample_updates behind s r1_21_8 r1_22_5)
    as (vs & v & _ & _ & Hd & H1 & H2 & _); [reflexivity|reflexivity|exact E|].
  exists s, v. split; [done|]. split; [exact Hd|]. split; [exact H1|exact H2].
Defined.

(** Replica sets of two generations of the API server. *)
Definition replicaSet (name version : string) : ReplicaSet :=
  mkReplicaSet (mkObjectMeta name "cluster-abc" "uid"
    (list_to_map [(VersionLabel, version); (AppLabelKey, "apiserver")]) ∅ [] [] 0 None "1") 1.

Lemma getOldestAvailableVersion_witness :
  ∃ s, getOldestAvailableVersion [replicaSet "a" "1.22.5"; replicaSet "b" "1.21.8"] = Ok (Some s) ∧
    ∃ v, denotes s v ∧ ver_le v r1_21_8.
Proof.
  destruct (getOldestAvailableVersion_spec [replicaSet "a" "1.22.5"; replicaSet "b" "1.21.8"])
    as (o & E & Ho).
  destruct o as [s|].
  - exists s. split; [exact E|]. destruct Ho as (v & rs & Hd & _ & _ & Hmin). exists v. split; [exact Hd|].
    apply (Hmin (replicaSet "b" "1.21.8")); [right; left|vm_compute; reflexivity].
  - exfalso. assert (Hn : running_version (replicaSet "b" "1.21.8") = None) by (apply Ho; right; left).
    by vm_compute in Hn.
Defined.

(** The three deployments run 1.21.8. *)
Definition owned (deployment : string) : ReplicaSet :=
  mkReplicaSet (mkObjectMeta (deployment +:+ "-1") "cluster-abc" "uid" (list_to_map [(VersionLabel, "1.21.8")]) ∅ []
    [mkOwnerReference "apps/v1" "Deployment" deployment "uid"] 0 None "1") 2.
Definition behind_world : Mem :=
  with_replicaSet (owned "apiserver") (with_replicaSet (owned "controller-manager")
    (with_replicaSet (owned "scheduler") (world behind))).

Lemma apiserver_bump_safe_witness :
  ∃ r w' c', UpdateController.reconcile update_env behind behind_world = (r, w') ∧ cview abc w' = Some c' ∧
    cv_apiserver (versions_of c') = "1.22.5" ∧
    may_bump (usite behind_world) behind "1.22.5".
Proof.
  destruct (run_any (UpdateController.reconcile update_env behind) behind_world) as (r & w' & E).
  assert (Hn : (cv_apiserver ∘ versions_of <$>
      mem_cview abc (UpdateController.reconcile update_env behind behind_world).2) = Some "1.22.5")
    by (vm_compute; reflexivity).
  rewrite E in Hn. simpl snd in Hn.
  destruct (mem_cview abc w') as [c'|] eqn:Hc; [|done]. injection Hn as Hn.
  exists r, w', c'. split; [exact E|]. split; [exact Hc|]. split; [exact Hn|].
  destruct (apiserver_bump_safe update_env abc behind behind_world r w' c') as [_ [Hf|(_ & _ & Hb)]];
    [vm_compute; reflexivity|vm_compute; reflexivity|exact E|exact Hc| |].
  - exfalso. apply fo_apiserver in Hf. rewrite Hn in Hf. by vm_compute in Hf.
  - rewrite Hn in Hb. exact Hb.
Defined.

Definition fresh : Cluster := sample_cluster "1.22.5" "" None ∅.

Lemma initialVersions_witness :
  ∃ c', initialVersions fresh = Ok c' ∧ cv_apiserver (cs_versions (cl_status c')) = "1.22.5" ∧
    cv_controlPlane (cs_versions (cl_status c')) = "1.22.5".
Proof.
  destruct (initialVersions_spec (L := mem_semver) fresh r1_22_5) as (c' & E & H1 & _ & _ & H4 & _); [reflexivity|].
  exists c'. split; [exact E|]. split; [exact H1|]. etransitivity; [exact H4|exact H1].
Defined.

Lemma phase_stored_witness :
  ∃ w' c', phase_reconcile phase_env plain_cluster (world plain_cluster) = (Ok tt, w') ∧
    cview abc w' = Some c' ∧ phase_spec phase_env plain_cluster (cs_phase (cl_status c')).
Proof.
  destruct (run_ok (phase_reconcile phase_env plain_cluster) (world plain_cluster)) as ([] & w' & E);
    [vm_compute; reflexivity|].
  destruct (phase_stored (H := mem_time) phase_env abc plain_cluster (world plain_cluster) w')
    as (c' & H1 & _ & H2); [vm_compute; reflexivity|exact E|].
  exists w', c'. split; [exact E|]. split; [exact H1|exact H2].
Defined.

Definition old_cluster : Cluster := sample_cluster "1.20.13" "1.20.13" None ∅.

Lemma automatic_update_witness :
  ∃ x w' v', controlPlaneUpgrade auto_env old_cluster manager (world old_cluster) = (Ok x, w') ∧
    cview abc w' = Some v' ∧ ∀ w1, auto_reconcile auto_env v' w1 = (Ok None, w1).
Proof.
  destruct (run_ok (controlPlaneUpgrade auto_env old_cluster manager) (world old_cluster)) as (x & w' & E);
    [vm_compute; reflexivity|].
  destruct (automatic_update_once (L := mem_semver) auto_env abc old_cluster manager (world old_cluster) x w' r1_20_13
    (mkUpdate "1.20.*" "1.21.8" true true)) as (v' & target & Hv & _ & _ & Hw);
    [reflexivity|vm_compute; reflexivity|vm_compute; reflexivity|exact E|].
  exists x, w', v'. split; [exact E|]. split; [exact Hv|exact Hw].
Defined.

(** ** Ensuring objects *)

Definition sample_secret : Secret := mkDataObject (sample_meta "cluster-abc" "s") (list_to_map [("a", "b")]).
Definition equal_data (a b : Secret) : bool := bool_decide (do_data a = do_data b).

Lemma EnsureNamedObject_witness :
  EnsureNamedObject (mem_client Secret) equal_data id mem_poll (mkKey "cluster-abc" "s") Ok
    (mkDataObject emptyMeta ∅) false (with_secret sample_secret (empty_mem 0))
  = (Ok tt, with_secret sample_secret (empty_mem 0)).
Proof.
  destruct (EnsureNamedObject_spec (mem_client Secret) equal_data id mem_poll (λ w, w) (mkKey "cluster-abc" "s") Ok
    (mkDataObject emptyMeta ∅) false (with_secret sample_secret (empty_mem 0))) as [Hsame _];
    [intros k; apply mem_get_keeps|].
  apply (Hsame sample_secret); [vm_compute; reflexivity|].
  eexists. split; [reflexivity|vm_compute; reflexivity].
Defined.

(** ** Restores *)

Definition sample_restore (destination secret phase : string) : EtcdRestore :=
  mkEtcdRestore (sample_meta "cluster-abc" "restore-1")
    (mkEtcdRestoreSpec "restore-1" "abc" "b102" secret destination) (mkEtcdRestoreStatus phase 0).

Lemma restore_without_destination_witness :
  ∃ destination msg, restoreDestination (sample_restore "" "" "") sample_seed = Ok destination ∧
    GetEtcdRestoreS3Client restore_env (sample_restore "" "" "") true plain_cluster destination (empty_mem 0)
      = (Panic msg, empty_mem 0).
Proof. apply (restore_without_destination_panics restore_env); reflexivity. Defined.

(** A cluster that another restore has claimed, with everything a restore needs. *)
Definition claimed_cluster : Cluster :=
  set_cl_spec (set_features (list_to_map [(ClusterFeatureEtcdLauncher, true)])
      (set_encryptionConfiguration None (cl_spec plain_cluster)))
    (set_meta (set_annotations (list_to_map [(ActiveRestoreAnnotationName, "cluster-abc/restore-0")])
       (cl_meta plain_cluster)) plain_cluster).
Definition ca_bundle : ConfigMap :=
  mkDataObject (sample_meta "kube-system" "cluster-abc-ca-bundle") (list_to_map [("ca-bundle.pem", "CA")]).
Definition s3_credentials : Secret :=
  mkDataObject (sample_meta "kube-system" "s3") (list_to_map [("ACCESS_KEY_ID", "id")]).
Definition restore_mem : Mem :=
  with_restore (sample_restore "minio" "" "") (with_secret s3_credentials (with_secret ca_bundle
    (with_cluster claimed_cluster (empty_mem (104 * Hour))))).

Definition protected (w : Mem) : table Cluster * table MetaObject := (mem_clusters w, mem_pods w).

Lemma restore_harmless : harmless restore_env protected.
Proof.
  split; try (by intros; apply mem_get_keeps); try (by intros; apply mem_create_keeps); try (by intros; apply keeps_ret).
  - intros r w o w'. unfold c_update, restore_env, re_restores, mem_client, mem_update.
    destruct (mem_lookup _ _); [|by intros [= _ <-]]. destruct (negb _); [by intros [= _ <-]|].
    destruct (om_deletionTimestamp _); [destruct (om_finalizers _)|]; by intros [= _ <-].
  - intros a b w o w'. unfold c_patch, restore_env, re_restores, mem_client, mem_merge.
    destruct (mem_lookup _ _); by intros [= _ <-].
  - intros r w o w'. unfold c_update, restore_env, re_secrets, mem_client, mem_update.
    destruct (mem_lookup _ _); [|by intros [= _ <-]]. destruct (negb _); [by intros [= _ <-]|].
    destruct (om_deletionTimestamp _); [destruct (om_finalizers _)|]; by intros [= _ <-].
  - by intros w o w' [= _ <-].
  - intros m. apply mem_poll_keeps.
Qed.

Lemma restore_keyed : keyed restore_env.
Proof.
  split.
  - intros k w o w' E. apply mem_get_ok in E. by apply mem_lookup_key in E.
  - intros r w o w'. unfold c_update, restore_env, re_restores, mem_client, mem_update.
    destruct (mem_lookup _ _); [|done]. destruct (negb _); [done|].
    destruct (om_deletionTimestamp _); [destruct (om_finalizers _)|]; by intros [= <- _].
  - intros a b w o w'. unfold c_patch, restore_env, re_restores, mem_client, mem_merge.
    destruct (mem_lookup _ _); [|done]. by intros [= <- _].
Qed.

Lemma restore_mutual_exclusion_witness :
  ∃ w', restore_reconcile restore_env (sample_restore "minio" "" "") claimed_cluster sample_seed restore_mem
      = (Ok (requeue (1 * Minute)), w') ∧ protected w' = protected restore_mem.
Proof.
  destruct (restore_reconcile restore_env (sample_restore "minio" "" "") claimed_cluster sample_seed restore_mem)
    as [r w'] eqn:E.
  assert (Hr : r = Ok (requeue (1 * Minute)))
    by (apply (f_equal fst) in E; simpl in E; rewrite <- E; vm_compute; reflexivity).
  exists w'. split; [by rewrite Hr|].
  eapply (restore_mutual_exclusion restore_env protected (sample_restore "minio" "" "") claimed_cluster sample_seed
    restore_harmless restore_keyed); [by vm_compute|by vm_compute|exact E].
Defined.

Lemma rebuild_waits_witness :
  ∃ res w', rebuildEtcdStatefulset restore_env (sample_restore "minio" "" "StsRebuilding") paused_cluster
      (world paused_cluster) = (Ok res, w') ∧ res = Some (mkResult false (30 * Second)).
Proof.
  destruct (run_ok (rebuildEtcdStatefulset restore_env (sample_restore "minio" "" "StsRebuilding") paused_cluster)
    (world paused_cluster)) as (res & w' & E); [vm_compute; reflexivity|].
  exists res, w'. split; [exact E|].
  apply (rebuild_waits restore_env abc (sample_restore "minio" "" "StsRebuilding") paused_cluster paused_cluster
    (world paused_cluster) res w'); [reflexivity|vm_compute; reflexivity|reflexivity|exact E].
Defined.

(** ** Encryption *)

Definition initialized : gmap string ClusterCondition :=
  list_to_map [(ClusterConditionEncryptionInitialized, mkClusterCondition ConditionTrue "8d2a9f1" 0 0 "" "")].
Definition needs_encryption : Cluster := sample_cluster "1.22.5" "1.22.5"
  (Some (mkClusterEncryptionStatus "" [] ClusterEncryptionPhaseEncryptionNeeded)) initialized.
Definition encrypted : Cluster := sample_cluster "1.22.5" "1.22.5"
  (Some (mkClusterEncryptionStatus "secretbox/key-1" ["secrets"] ClusterEncryptionPhaseActive)) initialized.

Definition encryption_secret : Secret :=
  mkDataObject (sample_meta "cluster-abc" EncryptionConfigurationSecretName)
    (list_to_map [(EncryptionConfigurationKeyName, "secrets by key-1")]).
Definition finished_job : Job :=
  let j := EncryptionJobCreator "" needs_encryption encryption_secret ["secrets"] "secretbox/key-1" in
  mkJob (set_name "job-1" (job_meta j)) (job_generateName j) (job_backoffLimit j) (job_completions j)
    (job_parallelism j) (job_activeDeadlineSeconds j) (job_ttlSecondsAfterFinished j) (job_restartPolicy j)
    (job_seccompRuntimeDefault j) (job_initContainers j) (job_containers j) (job_volumes j) [] 1 0.
Definition encryption_mem : Mem := with_job finished_job (with_secret encryption_secret (world needs_encryption)).

Lemma encryption_phases_witness :
  ∃ r w' v', enc_reconcile encryption_env needs_encryption encryption_mem = (r, w') ∧ cview abc w' = Some v' ∧
    cs_encryption (cl_status v') =
      Some (mkClusterEncryptionStatus "secretbox/key-1" ["secrets"] ClusterEncryptionPhaseActive) ∧
    enc_step encryption_env (ew_store encryption_mem) needs_encryption
      (cs_encryption (cl_status needs_encryption)) (cs_encryption (cl_status v')).
Proof.
  destruct (run_any (enc_reconcile encryption_env needs_encryption) encryption_mem) as (r & w' & E).
  destruct (encryption_phases encryption_env abc needs_encryption encryption_mem r w') as (v' & Hv & Hs);
    [vm_compute; reflexivity|exact E|].
  exists r, w', v'. split; [exact E|]. split; [exact Hv|]. split; [|exact Hs].
  assert (Hc : (cs_encryption ∘ cl_status <$> mem_cview abc (enc_reconcile encryption_env needs_encryption encryption_mem).2) =
    Some (Some (mkClusterEncryptionStatus "secretbox/key-1" ["secrets"] ClusterEncryptionPhaseActive)))
    by (vm_compute; reflexivity).
  rewrite E in Hc. change (mem_cview abc w' = Some v') in Hv. simpl snd in Hc. rewrite Hv in Hc. by injection Hc.
Defined.

Lemma resources_change_witness :
  enc_reconcile encryption_env (with_resources ["secrets"; "configmaps"] encrypted) encryption_mem
    = (Ok (Some emptyResult), encryption_mem).
Proof.
  apply (resources_change_ignored encryption_env encrypted
    (mkClusterEncryptionStatus "secretbox/key-1" ["secrets"] ClusterEncryptionPhaseActive) encryption_mem);
    vm_compute; reflexivity.
Defined.
