(* ===== verification/WitnessIpam.v ===== *)
(** * Machines in memory

    A server with a lister that lags behind it until the controller waits, and the
    address allocation run in it. *)

From S2P Require Import Prelude ResourceNames Kube Helper Corev1 Net NetSpec Ipam IpamSpec Memory Samples.

(** ** Configurations as text *)

Fixpoint bits (p : positive) : string :=
  match p with xH => "" | xO p => String (Ascii.ascii_of_nat 48) (bits p) | xI p => String (Ascii.ascii_of_nat 49) (bits p) end.
Fixpoint unbits (s : string) : positive :=
  match s with
  | EmptyString => xH
  | String c s => if Ascii.eqb c (Ascii.ascii_of_nat 48) then xO (unbits s) else xI (unbits s)
  end.
Lemma unbits_bits p : unbits (bits p) = p.
Proof. induction p as [p IH|p IH|]; simpl; [by rewrite IH..|done]. Qed.

Definition config_text (cfg : ProviderConfig) : outcome string :=
  Ok (bits (encode ((λ n, (nc_cidr n, nc_gateway n, nc_dns n)) <$> pcf_network cfg, pcf_rest cfg))).
Definition text_config (s : string) : outcome ProviderConfig :=
  match decode (unbits s) with
  | Some (n, rest) => Ok (mkProviderConfig ((λ '(c, g, d), mkNetworkConfig c g d) <$> n) rest)
  | None => Err (ErrNew "invalid configuration")
  end.
Lemma text_config_text cfg s : config_text cfg = Ok s → text_config s = Ok cfg.
Proof.
  intros [= <-]. unfold text_config. rewrite unbits_bits, decode_encode. by destruct cfg as [[[]|] r].
Qed.

(** ** The server *)

Record Machines := mkMachines {
  ms_server : gmap NamespacedName Machine;
  ms_lister : gmap NamespacedName Machine;
  ms_seq : N;
}.

Definition ms_get (k : NamespacedName) : M Machines Machine := λ w,
  match ms_lister w !! k with
  | Some m => if decide (object_key m = k) then (Ok m, w) else (Err notFound, w)
  | None => (Err notFound, w)
  end.
Definition ms_list (_ : ListOptions) : M Machines (list Machine) := λ w, (Ok (map snd (map_to_list (ms_lister w))), w).
Definition ms_meta (new old : ObjectMeta) (rv : string) : ObjectMeta :=
  mkObjectMeta (om_name new) (om_namespace new) (om_uid old) (om_labels new) (om_annotations new)
    (om_finalizers new) (om_ownerReferences new) (om_creationTimestamp old) (om_deletionTimestamp old) rv.
Definition ms_update (o : Machine) : M Machines Machine := λ w,
  match ms_server w !! object_key o with
  | None => (Err notFound, w)
  | Some old =>
      if negb (String.eqb (om_resourceVersion (mc_meta o)) (om_resourceVersion (mc_meta old)))
      then (Err (ErrAPI ReasonConflict "the object has been modified"), w) else
      let o' := mkMachine (ms_meta (mc_meta o) (mc_meta old) (pretty (ms_seq w))) (mc_providerSpec o) in
      (Ok o', mkMachines (<[object_key o := o']> (ms_server w)) (ms_lister w) (ms_seq w + 1))
  end.
Definition ms_client : Client Machines Machine :=
  mkClient ms_get ms_list mret ms_update (λ _, mret) (λ _, mret) (λ _, mret tt).

(** The lister catches up between two polls; sixty of them are made. *)
Definition ms_sync (w : Machines) : Machines := mkMachines (ms_server w) (ms_server w) (ms_seq w).
Fixpoint ms_poll (n : nat) (cond : M Machines bool) (w : Machines) : outcome unit * Machines :=
  match n, cond w with
  | _, (Ok true, w') => (Ok tt, w')
  | O, (Ok false, w') => (Err (ErrNew "timed out waiting for the condition"), w')
  | S n, (Ok false, w') => ms_poll n cond (ms_sync w')
  | _, (Err e, w') => (Err e, w')
  | _, (Panic s, w') => (Panic s, w')
  | _, (OutOfFuel, w') => (OutOfFuel, w')
  end.

(** 192.168.1.4/30 and 10.0.0.0/24, with the first host as gateway. *)
Definition sample_network (a gateway : IP) (p : Z) : Network :=
  mkNetwork (v4InV6Prefix ++ a) (mkIPNet (and_bytes a (CIDRMask 4 p)) (CIDRMask 4 p)) gateway [[8; 8; 8; 8]].
Definition small_network : Network := sample_network [192; 168; 1; 4] [192; 168; 1; 5] 30.
Definition large_network : Network := sample_network [10; 0; 0; 0] [10; 0; 0; 1] 24.

(** The environment for a number of polls. *)
Definition ipam_env_for (tries : nat) : IpamEnv Machines :=
  mkIpamEnv Machines ms_client (λ _ _ _ w, w) text_config config_text (ms_poll tries)
    [small_network; large_network] 300.
Definition ipam_env : IpamEnv Machines := ipam_env_for 60.

#[export] Program Instance ipam_world tries : IpamWorld (ipam_env_for tries) := {| server := ms_server; lister := ms_lister |}.
Next Obligation.
  intros tries k w r w' E. simpl in E. unfold ms_get in E. destruct (ms_lister w !! k) as [m|] eqn:Em; [case_decide|];
    injection E as <- <-; (split; [done|]); (split; [by left|]); try done. by intros m' [= <-].
Qed.
Next Obligation.
  intros tries w r w' [= <- <-]. split; [done|]. split; [by left|]. intros l [= <-] k m Hk.
  apply list_elem_of_fmap. exists (k, m). split; [done|]. by apply elem_of_map_to_list.
Qed.
Next Obligation.
  intros tries o w r w' E. simpl in E. unfold ms_update in E. destruct (ms_server w !! object_key o) as [old|] eqn:Eo.
  - destruct (negb _); injection E as <- <-; (split; [by left|]); [left; done|]. right.
    exists old, (ms_meta (mc_meta o) (mc_meta old) (pretty (ms_seq w))). split_and!; [done..|]. by intros x [= <-].
  - injection E as <- <-. split; [by left|]. by left.
Qed.
Next Obligation. intros tries t r m w. split; [done|by left]. Qed.
Next Obligation.
  intros tries cond w r w' E P Hw Hcond Hsync. cbn [ie_poll ipam_env_for] in E. revert w E Hw.
  induction tries as [|n IH]; intros w E Hw; simpl in E; destruct (cond w) as [[[]|e|s|] w1] eqn:Ec;
    pose proof (Hcond _ _ _ Hw Ec) as H1; try (injection E as <- <-; split; [done|]; intros Hr; try done; by exists w).
  apply IH in E; [done|]. eapply Hsync; [exact H1|done|]. by right.
Qed.
Next Obligation. intros tries cfg s E%text_config_text. by exists cfg. Qed.

Lemma sample_v4 a g p : bytes a → length a = 4%nat → 0 < p ≤ 32 → v4_range (sample_network a g p) a p.
Proof. intros Hb Hl Hp. split; [done..|by right|done]. Qed.

Lemma small_v4 : v4_range small_network [192; 168; 1; 4] 30.
Proof. apply sample_v4; [repeat constructor; lia|done|lia]. Qed.
Lemma large_v4 : v4_range large_network [10; 0; 0; 0] 24.
Proof. apply sample_v4; [repeat constructor; lia|done|lia]. Qed.

(** Two new machines, then a third once the first has its address. *)
Definition new_machine (name : string) : Machine :=
  mkMachine (set_annotations {[annotationMachineUninitialized := annotationValue]} (sample_meta "kube-system" name))
    (bits (encode (@None (string * string * list string), (∅ : gmap string string)))).
Definition machine_key (name : string) : NamespacedName := mkKey "kube-system" name.
Definition new_machines : Machines :=
  let t := <[machine_key "a" := new_machine "a"]> {[machine_key "b" := new_machine "b"]} in mkMachines t t 7.
Definition first_run : Machines := (ipam_Reconcile ipam_env (machine_key "a") new_machines).2.
Definition second_run : Machines := (ipam_Reconcile ipam_env (machine_key "b") first_run).2.

Definition stored_ip (w : Machines) (name : string) : option (outcome (option IP)) :=
  machineIP ipam_env <$> ms_server w !! machine_key name.

Lemma new_machines_ok : distinct ipam_env new_machines ∧ covered ipam_env new_machines.
Proof.
  assert (Hno : ∀ k m ip, ms_server new_machines !! k = Some m → machineIP ipam_env m ≠ Ok (Some ip)).
  { intros k m ip Hk. unfold new_machines in Hk. cbn [ms_server] in Hk.
    apply lookup_insert_Some in Hk as [[_ <-]|[_ [_ <-]%lookup_singleton_Some]]; vm_compute; done. }
  split; [intros k1 k2 m1 m2 ip1 ip2 _ E1 _ A1 _|intros k m ip E1 A1]; by apply (Hno _ _ _ E1) in A1.
Qed.

Lemma getNextFreeIPForCIDR_witness :
  getNextFreeIPForCIDR 300 small_network [[192; 168; 1; 9]] = Ok [192; 168; 1; 4] ∧
  usable small_network [[192; 168; 1; 9]] [192; 168; 1; 4].
Proof.
  pose proof (getNextFreeIPForCIDR_spec small_network _ _ 300 [[192; 168; 1; 9]] small_v4 ltac:(lia)) as H.
  assert (E : getNextFreeIPForCIDR 300 small_network [[192; 168; 1; 9]] = Ok [192; 168; 1; 4]) by (vm_compute; reflexivity).
  rewrite E in H. split; [exact E|apply H].
Defined.

Lemma firstFree_witness :
  firstFree 300 [small_network; large_network] [[192; 168; 1; 4]; [192; 168; 1; 6]; [192; 168; 1; 7]]
    = Ok ([10; 0; 0; 2], large_network) ∧
  ∀ y, in_range small_network y → ¬ usable small_network [[192; 168; 1; 4]; [192; 168; 1; 6]; [192; 168; 1; 7]] y.
Proof.
  set (used := [[192; 168; 1; 4]; [192; 168; 1; 6]; [192; 168; 1; 7]]).
  assert (E : firstFree 300 [small_network; large_network] used = Ok ([10; 0; 0; 2], large_network))
    by (vm_compute; reflexivity).
  pose proof (firstFree_spec 300 [small_network; large_network] used) as H. rewrite E in H. split; [exact E|].
  destruct H as (before & after & Hsplit & _ & _ & Hno).
  { intros n [->|[->|Hn%elem_of_nil]%elem_of_cons]%elem_of_cons; [|..|done];
      eexists _, _; (split; [first [apply small_v4 | apply large_v4]|lia]). }
  intros y. apply Hno. destruct before as [|n before]; [discriminate Hsplit|].
  injection Hsplit as <- _. by left.
Defined.

Lemma cidr_roundtrip_witness :
  cidrOf [192; 168; 1; 6] small_network = "192.168.1.6/30" ∧
  ∃ ip', ParseCIDR (cidrOf [192; 168; 1; 6] small_network) = Ok ip' ∧ IP_Equal ip' [192; 168; 1; 6] = true ∧
    ipsContains [ip'] [192; 168; 1; 6] = true.
Proof.
  split; [vm_compute; reflexivity|].
  apply (cidr_roundtrip 300 small_network _ _ [[192; 168; 1; 4]] [192; 168; 1; 6] small_v4). vm_compute. reflexivity.
Defined.

(** A run by its outcome. *)
Lemma clean_step w1 name :
  (ipam_Reconcile ipam_env (machine_key name) w1).1 = Ok (emptyResult, None) →
  history ipam_env new_machines false w1 → history ipam_env new_machines false (ipam_Reconcile ipam_env (machine_key name) w1).2.
Proof.
  intros E Hh. destruct (ipam_Reconcile ipam_env (machine_key name) w1) as [r w2] eqn:Er. simpl in E. rewrite E in Er.
  change false with (negb (clean_run (Ok (emptyResult, None)))) at 1. by eapply history_run.
Qed.
Lemma second_history : history ipam_env new_machines false second_run.
Proof.
  apply clean_step; [vm_compute; reflexivity|]. apply clean_step; [vm_compute; reflexivity|]. constructor.
Qed.


(** Why the lister has to be waited for: when the wait for the first machine's
    address times out, its address is stored, but the next run, which reads a lister
    that still lags behind, gives the second machine the same one. *)
Definition timed_out : Machines := (ipam_Reconcile (ipam_env_for 0) (machine_key "a") new_machines).2.
Definition after_timeout : Machines := (ipam_Reconcile (ipam_env_for 0) (machine_key "b") timed_out).2.

Lemma timeout_duplicates :
  (∃ e, (ipam_Reconcile (ipam_env_for 0) (machine_key "a") new_machines).1 = Ok (emptyResult, Some e)) ∧
  ¬ distinct (ipam_env_for 0) after_timeout.
Proof.
  split; [eexists; vm_compute; reflexivity|]. intros Hd.
  destruct (ms_server after_timeout !! machine_key "a") as [ma|] eqn:Ea; [|by vm_compute in Ea].
  destruct (ms_server after_timeout !! machine_key "b") as [mb|] eqn:Eb; [|by vm_compute in Eb].
  assert (Ia : machineIP (ipam_env_for 0) ma = Ok (Some (v4InV6Prefix ++ [192; 168; 1; 4])))
    by (vm_compute in Ea; injection Ea as <-; vm_compute; reflexivity).
  assert (Ib : machineIP (ipam_env_for 0) mb = Ok (Some (v4InV6Prefix ++ [192; 168; 1; 4])))
    by (vm_compute in Eb; injection Eb as <-; vm_compute; reflexivity).
  pose proof (Hd (machine_key "a") (machine_key "b") ma mb _ _ ltac:(vm_compute; discriminate) Ea Eb Ia Ib) as Hne.
  by vm_compute in Hne.
Qed.
