(* ===== verification/WitnessAdmission.v ===== *)
(** * Concrete admissions

    The two webhooks at work: a configuration, a seed with two datacenters, and
    requests to create and change a cluster. *)

From S2P Require Import Prelude ResourceNames Kube Semver Net NetSpec CloudApi ClusterApi Helper HelperSpec Corev1 Field VersionManager ClusterDefaulting ClusterValidation ClusterValidationSpec ClusterDefaultingSpec ClusterAdmission ClusterAdmissionSpec Memory Samples.

(** ** Libraries *)

(** Port ranges of the form "a-b" with five digits each. *)
Definition port_range (s : string) : error + Z * Z :=
  let s := String.list_ascii_of_string s in
  match dtoi (take 5 s), dtoi (drop 6 s) with
  | (a, 5%nat, true), (b, 5%nat, true) => inr (a, b - a + 1)
  | _, _ => inl (ErrNew "not a valid port range")
  end.

Definition cidr_family (s : string) : option bool :=
  match ParseCIDR s with Ok ip => Some (bool_decide (is_Some (To4 ip))) | _ => None end.
Lemma cidr_family_parse s ip : ParseCIDR s = Ok ip → cidr_family s = Some (bool_decide (is_Some (To4 ip))).
Proof. unfold cidr_family. by intros ->. Qed.

#[export] Instance sample_kubenet : KubeNet.
Proof.
  refine {| IsIPv4CIDRString s := default false (cidr_family s);
            IsIPv6CIDRString s := default false (negb <$> cidr_family s);
            ParsePortRange := port_range |}; intros s ip E; by rewrite (cidr_family_parse s ip E).
Defined.

(** Merging: a value of the destination wins. *)
Definition merge_deployment (a b : DeploymentSettings) : DeploymentSettings :=
  mkDeploymentSettings (or_default (dp_replicas a) (dp_replicas b)) (or_default (dp_resources a) (dp_resources b))
    (if is_nil (dp_tolerations a) then dp_tolerations b else dp_tolerations a).
Definition merge_components (a b : ComponentSettings) : ComponentSettings :=
  let x := cmp_apiserver a in
  let y := cmp_apiserver b in
  mkComponentSettings
    (mkAPIServerSettings (merge_deployment (as_deployment x) (as_deployment y))
       (or_default (as_endpointReconcilingDisabled x) (as_endpointReconcilingDisabled y))
       (or_string (as_nodePortRange x) (as_nodePortRange y)))
    (mkControllerSettings (merge_deployment (ct_deployment (cmp_controllerManager a)) (ct_deployment (cmp_controllerManager b)))
       (ct_leaderElection (cmp_controllerManager a)))
    (mkControllerSettings (merge_deployment (ct_deployment (cmp_scheduler a)) (ct_deployment (cmp_scheduler b)))
       (ct_leaderElection (cmp_scheduler a)))
    (cmp_etcd a) (cmp_prometheus a) (cmp_nodePortProxyEnvoy a) (cmp_konnectivityProxy a).

#[export] Instance sample_defaulting : DefaultingLibs := {|
  mergeSpec a b := Ok (set_componentsOverride (merge_components (sp_componentsOverride a) (sp_componentsOverride b)) a);
  mergeComponents a b := Ok (merge_components a b);
  quantity_IsZero q := String.eqb q "0";
  ParseQuantity q := Ok q;
  reference_Parse s := Ok false;
|}.

(** ** The webhooks' environment *)

Definition sample_configuration : KubermaticConfiguration :=
  mkKubermaticConfiguration ExposeStrategyNodePort
    (mkUserClusterConfiguration "30000-32767" false "5Gi" (Some 2)) sample_updates.
Definition no_templates : Client Mem ClusterTemplate :=
  mkClient (λ _, throw notFound) (λ _, mret []) mret mret (λ _, mret) (λ _, mret) (λ _, mret tt).
Definition sample_provider : CloudProvider Mem :=
  mkCloudProvider Mem mret (λ _, mret tt) (λ _ _, mret tt).
Definition sample_env : AdmissionEnv Mem :=
  mkAdmissionEnv Mem (mret (Some sample_seed)) (mret sample_configuration) no_templates (mem_client MetaObject)
    (λ _, mret sample_provider) false ∅.

Definition project : MetaObject := mkMetaObject (sample_meta "" "my-project").
Definition with_project : Mem := with_pod project (empty_mem 0).
Definition in_project (c : Cluster) : Cluster :=
  set_meta (mkObjectMeta (om_name (cl_meta c)) "" "uid" {[ProjectIDLabelKey := "my-project"]} ∅ [] [] 0 None "1") c.

(** A request that leaves open what can be left open. *)
Definition open_network : ClusterNetworkingConfig :=
  mkClusterNetworkingConfig "" (mkNetworkRanges []) (mkNetworkRanges []) None None "" "" None None None (Some true).
Definition request : Cluster :=
  in_project (set_cl_spec (set_clusterNetwork open_network (set_cniPlugin None (set_exposeStrategy ""
    (set_componentsOverride (empty_components "") (cl_spec plain_cluster))))) plain_cluster).

Definition outcome_or {A} (d : A) (r : outcome A * Mem) : A := match r.1 with Ok a => a | _ => d end.
Definition created : Cluster := outcome_or request (admitCreate sample_env request with_project).
Definition renamed : Cluster :=
  set_cl_spec (mkClusterSpec "new name" (sp_version (cl_spec created)) (sp_cloud (cl_spec created)) "containerd"
    (sp_cniPlugin (cl_spec created)) (sp_clusterNetwork (cl_spec created)) [] (sp_exposeStrategy (cl_spec created))
    (sp_componentsOverride (cl_spec created)) (<[ClusterFeatureEtcdLauncher := true]> (sp_features (cl_spec created))) false
    (Some true) false None None false None ∅) created.
Definition updated : Cluster := outcome_or renamed (admitUpdate sample_env created renamed with_project).

(** ** Runs *)

Lemma created_run : admitCreate sample_env request with_project = (Ok created, with_project).
Proof. vm_compute. reflexivity. Qed.
Lemma updated_run : admitUpdate sample_env created renamed with_project = (Ok updated, with_project).
Proof. vm_compute. reflexivity. Qed.

Lemma cluster_identity_witness :
  sp_humanReadableName (cl_spec updated) = "new name" ∧ identity updated = identity created ∧ sticky created updated.
Proof.
  split; [vm_compute; reflexivity|].
  apply (cluster_identity sample_env request with_project created with_project updated); [exact created_run|].
  apply rtc_once. exact (write_update sample_env created renamed with_project updated with_project updated_run).
Defined.

#[export] Program Instance sample_admission : AdmissionWorld sample_env := {|
  asite w := mkAdmissionSite (Some sample_seed) (Some sample_configuration) (λ name, mem_lookup (mkKey "" name) w);
|}.
Next Obligation.
  split; try (by intros; apply keeps_ret); try (by intros; apply keeps_throw); try (by intros; apply mem_get_keeps).
  intros dc w p w' [= <- <-]. split_and!; intros; apply keeps_ret.
Qed.
Next Obligation. by intros w seed w' [= <- _]. Qed.
Next Obligation. by intros w config w' [= <- _]. Qed.
Next Obligation. intros name w p w' E. by apply mem_get_ok in E. Qed.


Lemma update_checks_witness : validateChange updated created = [] ∧ allowed_change updated created ∧ encryption_rule created updated.
Proof.
  assert (Hn : validateChange updated created = []) by (vm_compute; reflexivity).
  destruct (update_checks_exact (H := mem_semver) updated created) as [Hsame _]; [vm_compute; reflexivity|].
  split; [exact Hn|]. apply Hsame; [vm_compute; reflexivity|exact Hn].
Defined.

Definition with_canal (v : string) (running : Semver) : Cluster :=
  in_project (set_canal v (sample_cluster running running None ∅)).

Lemma canal_upgrade_stuck_witness :
  ∃ c, mutateUpdate (with_canal "v3.20" "1.23.6") (with_canal "v3.20" "1.23.6") = Ok c ∧
    ∀ w u w', ValidateUpdate sample_env (with_canal "v3.20" "1.23.6") c w ≠ (Ok u, w').
Proof.
  destruct (canal_upgrade_stuck sample_env (with_canal "v3.20" "1.23.6") (with_canal "v3.20" "1.23.6") "v3.20"
    (r3_20_0 : @Version mem_semver) (r3_22_0 : @Version mem_semver)
    (LowerThan 3 22 : @Constraints mem_semver) (AtLeast 1 23 : @Constraints mem_semver)) as (c & E & _ & Hc); try reflexivity; [right; reflexivity..|].
  exists c. split; [exact E|exact Hc].
Defined.

(** A cluster with encrypted data, and the same without feature and configuration. *)
Definition encrypted : Cluster :=
  sample_cluster "1.22.5" "1.22.5" (Some (mkClusterEncryptionStatus "secretbox/key-1" ["secrets"] ClusterEncryptionPhaseActive))
    {[ClusterConditionEncryptionInitialized := mkClusterCondition ConditionTrue "" 0 0 "" ""]}.
Definition flagless : Cluster := set_cl_spec (set_encryptionConfiguration None (set_features ∅ (cl_spec encrypted))) encrypted.

Lemma encryption_flag_witness : validateEncryptionUpdate flagless encrypted = [] ∧ validateChange flagless flagless ≠ [].
Proof.
  destruct (encryption_flag_unprotected encrypted flagless flagless) as (H1 & _ & H2); [vm_compute; reflexivity..|].
  split; [exact H1|exact H2].
Defined.

Definition open_spec : ClusterSpec := cl_spec request.
Lemma defaulting_stable_witness :
  ∃ s, defaultSpecFields open_spec sample_seed = Ok s ∧ defaultSpecFields s sample_seed = Ok s.
Proof.
  destruct (defaultSpecFields open_spec sample_seed) as [s| | |] eqn:E; try (by vm_compute in E).
  exists s. split; [reflexivity|]. apply (defaulting_stable open_spec sample_seed s). exact E.
Defined.

Lemma default_network_witness :
  ValidateClusterNetworkConfig (DefaultClusterNetwork open_network "aws") None "spec" = [].
Proof. apply default_network_accepted. split; try reflexivity. left. Defined.

Lemma GenerateToken_witness : ValidateKubernetesToken (GenerateToken "bcdfgh" "bcdfghjklmnpqrst") = Ok tt.
Proof.
  apply GenerateToken_valid; try reflexivity; unfold token_chars; apply (bool_decide_unpack _); vm_compute; reflexivity.
Defined.
