(* ===== verification/WitnessRbac.v ===== *)
(** * Concrete runs of the RBAC controllers

    A store of roles and bindings in memory that satisfies the interface, and the
    theorems at work on it. *)

From S2P Require Import Prelude ResourceNames Kube Semver Net CloudApi ClusterApi Rbac RbacSync RbacSpec RbacGrants.

(** ** A store in memory *)

Definition clean {O} `{Object O} (t : store O) : store O := filter (λ p, object_key p.2 = p.1) t.
Definition notFoundErr : error := ErrAPI ReasonNotFound "not found".
Definition existsErr : error := ErrAPI ReasonAlreadyExists "already exists".

Section table.
Context {O : Type} `{Object O} (get : RbacState → store O) (set : store O → RbacState → RbacState).

Definition table_client : Client RbacState O :=
  mkClient
    (λ k w, (match clean (get w) !! k with Some o => Ok o | None => Err notFoundErr end, w))
    (λ _ w, (Ok (map snd (map_to_list (get w))), w))
    (λ o w, match clean (get w) !! object_key o with
            | Some _ => (Err existsErr, w)
            | None => (Ok o, set (<[object_key o := o]> (get w)) w)
            end)
    (λ o w, match clean (get w) !! object_key o with
            | Some _ => (Ok o, set (<[object_key o := o]> (get w)) w)
            | None => (Err notFoundErr, w)
            end)
    (λ _ _, throw notFoundErr) (λ _ _, throw notFoundErr) (λ _, throw notFoundErr).

Lemma clean_insert o (t : store O) : clean (<[object_key o := o]> t) = <[object_key o := o]> (clean t).
Proof. unfold clean. by rewrite map_filter_insert_True. Qed.

Lemma clean_key (t : store O) k o : clean t !! k = Some o → object_key o = k.
Proof. unfold clean. by intros [_ Hk]%map_lookup_filter_Some. Qed.

Lemma table_laws {X} (content : O → X) (state : RbacState → RbacState) :
  (∀ t s, get (set t s) = t) → (∀ s, set (get s) s = s) → (∀ t u s, set t (set u s) = set t s) →
  (∀ w, get (state w) = clean (get w)) → (∀ t w, state (set t w) = set (clean t) (state w)) →
  StoreLaws table_client state get set content.
Proof.
  intros Hgs Hsg Hss Hget Hset. split; try done.
  - intros w k o. rewrite Hget. apply clean_key.
  - intros k w r w' [= <- <-]. rewrite Hget. split; [done|]. destruct (clean (get w) !! k); naive_solver.
  - by intros opts w r w' [= _ <-].
  - intros o w r w'. simpl. rewrite Hget. destruct (clean (get w) !! object_key o) eqn:E; intros [= <- <-]; [by left|].
    right. split; [done|]. exists o. split; [done|]. by rewrite Hset, clean_insert.
  - intros o w r w'. simpl. rewrite Hget. destruct (clean (get w) !! object_key o) eqn:E; intros [= <- <-]; [|by left].
    right. exists o. split; [done|]. by rewrite Hset, clean_insert.
Qed.
End table.

Definition rbac_clients : RbacClients RbacState :=
  mkRbacClients _ (table_client st_roles with_roles) (table_client st_bindings with_bindings)
    (table_client st_clusterRoles with_clusterRoles) (table_client st_clusterBindings with_clusterBindings).
Definition clean_state (s : RbacState) : RbacState :=
  mkRbacState (clean (st_roles s)) (clean (st_bindings s)) (clean (st_clusterRoles s)) (clean (st_clusterBindings s)).

#[export] Instance rbac_world : RbacWorld rbac_clients.
Proof.
  refine {| rw_state := clean_state |}; apply table_laws; try done; by intros [].
Defined.

(** ** Runs *)

Lemma run_pair {A B} (r : A * B) a : r.1 = a → r = (a, r.2).
Proof. destruct r. by intros <-. Qed.

Definition mapping (g : GroupVersionKind) : M RbacState GroupVersionResource :=
  mret (mkGVR (gvk_group g) (gvk_version g) (ToLower (gvk_kind g) +:+ "s")).
Lemma mapping_keeps g : keeps rw_state (mapping g).
Proof. apply keeps_ret. Qed.

Definition no_state : RbacState := mkRbacState ∅ ∅ ∅ ∅.
Definition key_meta (namespace name : string) : ObjectMeta :=
  mkObjectMeta name namespace "uid" {[ProjectIDLabelKey := "p1"]} ∅ [] [] 0 None "1".
Definition ssh_key : ResourceObject := mkResourceObject (kubermaticKind SSHKeyKind) (key_meta "" "key-1") None.

(** The state before: the role of another project on an object of the same name. *)
Definition other_role : Role :=
  mkRole (generated_meta (object_role SSHKeyKind "key-1" (group_of "viewers" "p2")) "" []) [object_rule "usersshkeys" "key-1" ["get"]].
Definition before_state : RbacState := mkRbacState ∅ ∅ {[object_key other_role := other_role]} ∅.
Definition synced : RbacState := (resource_reconcile rbac_clients mapping ssh_key before_state).2.
Lemma synced_ok : (resource_reconcile rbac_clients mapping ssh_key before_state).1 = Ok tt.
Proof. vm_compute. reflexivity. Qed.
Lemma synced_run : resource_reconcile rbac_clients mapping ssh_key before_state = (Ok tt, synced).
Proof. exact (run_pair (resource_reconcile rbac_clients mapping ssh_key before_state) (Ok tt) synced_ok). Qed.

Definition viewer_may (verb : string) : Prop :=
  allowed (rw_state synced) (mkKey "" "kubermatic:usersshkey-key-1:viewers-p1")
    (group_subject "viewers-p1") "kubermatic.k8c.io" "usersshkeys" "key-1" verb.

Lemma sync_grants_witness : viewer_may "get" ∧ ¬ viewer_may "delete".
Proof.
  destruct (sync_grants rbac_clients mapping mapping_keeps ssh_key "p1" (mkGVR GroupName "v1" "usersshkeys") before_state
    before_state tt synced) with (g := "viewers") as [Hg _].
  - reflexivity.
  - reflexivity.
  - done.
  - reflexivity.
  - intros g b _ Hb. by vm_compute in Hb.
  - exact synced_run.
  - right; right; left.
  - specialize (Hg ltac:(vm_compute; discriminate)). split.
    + apply Hg. split_and!; try reflexivity. vm_compute. left.
    + intros (_ & _ & _ & _ & Hd)%Hg. change (object_verbs "viewers" (gvk_kind (rso_gvk ssh_key))) with ["get"] in Hd.
      by apply list_elem_of_singleton in Hd.
Defined.

Lemma sync_isolated_witness : st_clusterRoles (rw_state synced) !! object_key other_role = Some other_role.
Proof.
  destruct (sync_isolated rbac_clients mapping mapping_keeps ssh_key before_state (Ok tt) synced synced_run) as [_ Hi].
  destruct Hi as [Ho _]; [reflexivity|reflexivity|reflexivity|done|].
  specialize (Ho TClusterRole SSHKeyKind "key-1" "p2" "viewers" eq_refl eq_refl ltac:(right; right; left) ltac:(left; reflexivity)
    ltac:(left; vm_compute; discriminate)). cbv zeta in Ho.
  change (mkKey "" (object_role SSHKeyKind "key-1" (group_of "viewers" "p2"))) with (object_key other_role) in Ho.
  unfold entry in Ho. destruct (st_clusterRoles (rw_state synced) !! object_key other_role) as [x|] eqn:E.
  - assert (Hb : st_clusterRoles (rw_state before_state) !! object_key other_role = Some other_role) by (vm_compute; reflexivity).
    rewrite Hb in Ho. by injection Ho as ->.
  - exfalso. by vm_compute in Ho.
Defined.

Definition joined : RbacState := (ensureClusterRBACRoleBindingForResource rbac_clients "owners-p1" "usersshkeys" no_state).2.
Definition left_again : RbacState := (cleanUpClusterRBACRoleBindingFor rbac_clients "owners-p1" "usersshkeys" joined).2.
Lemma joined_ok : (ensureClusterRBACRoleBindingForResource rbac_clients "owners-p1" "usersshkeys" no_state).1 = Ok tt.
Proof. vm_compute. reflexivity. Qed.
Lemma left_ok : (cleanUpClusterRBACRoleBindingFor rbac_clients "owners-p1" "usersshkeys" joined).1 = Ok tt.
Proof. vm_compute. reflexivity. Qed.
Lemma shared_binding_witness : subjects_at (rw_state left_again) (mkKey "" "kubermatic:usersshkeys:owners") = [].
Proof.
  destruct (shared_binding_roundtrip rbac_clients "owners-p1" "usersshkeys" no_state tt joined tt left_again) as (_ & _ & Hs & _);
    
    [exact (run_pair (ensureClusterRBACRoleBindingForResource rbac_clients "owners-p1" "usersshkeys" no_state) (Ok tt) joined_ok)
    |exact (run_pair (cleanUpClusterRBACRoleBindingFor rbac_clients "owners-p1" "usersshkeys" joined) (Ok tt) left_ok)|exact Hs].
Defined.

(** A secret whose role for the owners exists, with wrong rules. *)
Definition secret_gvk : GroupVersionKind := mkGVK "" "v1" "Secret".
Definition wrong_role : Role :=
  mkRole (generated_meta (role_name secretV1Kind "sa-token-x" "p1" OwnerGroupNamePrefix) "kubermatic" []) [].
Definition with_wrong_role : RbacState := mkRbacState {[object_key wrong_role := wrong_role]} ∅ ∅ ∅.
Definition stuck_run : outcome unit * RbacState :=
  ensureRBACRoleForNamedResource rbac_clients "p1" "secrets" secret_gvk "kubermatic" (key_meta "kubermatic" "sa-token-x")
    with_wrong_role.
Lemma stuck_ok : stuck_run.1 = Ok tt.
Proof. vm_compute. reflexivity. Qed.
Lemma namespaced_roles_witness :
  ∃ w', ensureRBACRoleForNamedResource rbac_clients "p1" "secrets" secret_gvk "kubermatic" (key_meta "kubermatic" "sa-token-x")
          with_wrong_role = (Ok tt, w') ∧ rw_state w' = rw_state with_wrong_role.
Proof.
  exists stuck_run.2. split; [exact (run_pair stuck_run (Ok tt) stuck_ok)|].
  apply (namespaced_roles_stuck rbac_clients "p1" "secrets" secret_gvk "kubermatic" (key_meta "kubermatic" "sa-token-x")
    wrong_role with_wrong_role (Ok tt) stuck_run.2); [vm_compute; reflexivity..|exact (run_pair stuck_run (Ok tt) stuck_ok)].
Defined.

Lemma role_names_witness : role_name "Cluster" "a" "p1" "owners" ≠ role_name "Cluster" "b" "p1" "owners".
Proof.
  intros E. destruct (role_names_unique "Cluster" "a" "p1" "owners" "Cluster" "b" "p1" "owners") as [_ Hu];
    [reflexivity..|by left|by left|]. destruct (Hu E) as (_ & Hn & _). discriminate Hn.
Defined.
