(* ===== verification/WitnessDeletion.v ===== *)
(** * Concrete runs of the deletion of clusters

    A seed with one cluster, whose resources are counted: the interface of the API
    servers holds there, and the theorems about deletion are at work on it. *)

From S2P Require Import Prelude ResourceNames Kube Semver Net CloudApi ClusterApi Corev1 Reconciling EtcdBackup ClusterDeletion ClusterDeletionSpec Memory Samples.

(** ** A seed with one cluster *)

(** How many objects of each kind there are; constraints are counted while they are
    not being deleted. *)
Record DelWorld := mkDelWorld {
  del_cluster : option Cluster;
  del_tables : Tables nat;
}.
Definition del_stored (w : DelWorld) : gmap NamespacedName Cluster :=
  match del_cluster w with Some c => {[object_key c := c]} | None => ∅ end.
Definition del_site (reported : list string) : Site := mkSite (λ uid, existsb (String.eqb uid) reported) (200 * Hour).
Definition del_with_cluster (c : option Cluster) (w : DelWorld) : DelWorld :=
  mkDelWorld c (del_tables w).

Definition tab_set (k : kind) (n : nat) (t : Tables nat) : Tables nat :=
  let field j := if decide (j = k) then n else tab j t in
  mkTables (field KServices) (field KClaims) (field KVolumes) (field KDeployments) (field KSets) (field KMachines)
    (field KConfigs) (field KSecrets) (field KConstraints) (tb_site t).

Lemma tab_set_other k j n t : j ≠ k → tab j (tab_set k n t) = tab j t.
Proof. by destruct k, j. Qed.

Definition del_notFound : error := ErrAPI ReasonNotFound "not found".

(** One object, which no request changes. *)
Definition quiet {O} (o : O) : Client DelWorld O :=
  mkClient (λ _, mret o) (λ _, mret []) (λ o, mret o) (λ o, mret o) (λ _ o, mret o) (λ _ o, mret o) (λ _, mret tt).

(** Copies of one object of a kind; each deletion removes one of them. *)
Definition counted {O} (k : kind) (o : O) : Client DelWorld O :=
  mkClient (λ _ w, (match tab k (del_tables w) with O => Err del_notFound | _ => Ok o end, w)) (λ _ w, (Ok (replicate (tab k (del_tables w)) o), w))
    (λ o, mret o) (λ o, mret o) (λ _ o, mret o) (λ _ o, mret o)
    (λ _ w, (Ok tt, mkDelWorld (del_cluster w) (tab_set k (pred (tab k (del_tables w))) (del_tables w)))).

Lemma quiet_laws {O} (o : O) : quiet_client del_stored del_tables (quiet o).
Proof. split; intros; apply keeps_ret. Qed.

Definition none (k : kind) (ns : string) (n : nat) : bool := Nat.eqb n 0.

Lemma counted_lists {O} noMatch k (o : O) ns counts : counts o = true →
  lists del_stored del_tables none noMatch k (counted k o) ns counts.
Proof.
  intros Ho w r w' [= <- <-]. split_and!; [done| |done]. intros l [= <-]. unfold none. destruct (tab k (del_tables w)); [done|]. simpl. by rewrite Ho.
Qed.

Lemma counted_delete {O} k (o : O) x : only del_stored del_tables k (c_delete (counted k o) x).
Proof. intros w r w' [= <- <-]. split_and!; [done..|]. intros j Hj. by apply tab_set_other. Qed.

(** The server of the cluster object: it keeps the status and the time of deletion on
    updates and removes a cluster without finalizers; patches concern annotations only. *)
Definition del_update (s c : Cluster) : Cluster :=
  let m := cl_meta c in
  set_cl_status (cl_status s) (set_meta (mkObjectMeta (om_name m) (om_namespace m) (om_uid m) (om_labels m) (om_annotations m)
    (om_finalizers m) (om_ownerReferences m) (om_creationTimestamp m) (om_deletionTimestamp (cl_meta s)) (om_resourceVersion m)) c).
Definition del_clusters : Client DelWorld Cluster :=
  mkClient
    (λ k w, (match del_stored w !! k with Some c => Ok c | None => Err del_notFound end, w))
    (λ _ w, (Ok (map snd (map_to_list (del_stored w))), w))
    (λ _, throw del_notFound)
    (λ c w, match del_stored w !! object_key c with
            | None => (Err del_notFound, w)
            | Some s =>
                let c' := del_update s c in
                (Ok c', del_with_cluster (match om_finalizers (cl_meta c) with [] => None | _ => Some c' end) w)
            end)
    (λ _ c w, match del_stored w !! object_key c with
              | None => (Err del_notFound, w)
              | Some s =>
                  let c' := set_meta (set_annotations (om_annotations (cl_meta c)) (cl_meta s)) s in
                  (Ok c', del_with_cluster (Some c') w)
              end)
    (λ _ _, throw del_notFound) (λ _, throw del_notFound).

Definition lb_service : Service := mkService (set_finalizers [] (sample_meta "default" "web")) ServiceTypeLoadBalancer.
Definition dynamic_pv : PersistentVolume :=
  mkPersistentVolume (set_annotations {[AnnDynamicallyProvisioned := "ebs.csi.aws.com"]} (sample_meta "" "pv")) PersistentVolumeReclaimDelete.
Definition named_object (name : string) : MetaObject := mkMetaObject (sample_meta NamespaceSystem name).

Definition del_user : UserClient DelWorld :=
  mkUserClient _ (counted KServices lb_service) (quiet (named_object "node")) (counted KDeployments (named_object "workers"))
    (counted KSets (named_object "workers-1")) (counted KMachines (named_object "worker")) (counted KClaims (named_object "claim"))
    (counted KVolumes dynamic_pv) (quiet (mkUserPod (sample_meta "default" "web") [Some "claim"]))
    (quiet (mkValidatingWebhookConfiguration emptyMeta []))
    (λ uid w, (Ok (if si_reported (tb_site (del_tables w)) uid then [mkEvent uid eventReasonDeletedLoadBalancer] else []), w)).

Definition del_once (cond : M DelWorld bool) : M DelWorld unit :=
  b ← cond; if (b : bool) then mret tt else throw (ErrNew "timed out waiting for the condition").

Definition del_constraints (_ : string) : M DelWorld unit :=
  λ w, (Ok tt, mkDelWorld (del_cluster w) (tab_set KConstraints 0 (del_tables w))).

Definition del_env : Deletion DelWorld :=
  mkDeletion _ del_clusters (quiet (named_object "constraint")) del_constraints (counted KConfigs (sample_config "@hourly" None [] []))
    (counted KSecrets (mkDataObject (sample_meta KubermaticNamespace "credential-aws-abc") ∅)) (mret del_user) (mem_retry DelWorld)
    (λ w, (Ok (si_clock (tb_site (del_tables w))), w)) del_once del_once (λ _, false) (λ _ _, true) elements.

Lemma del_user_laws : UserLaws del_stored del_tables none (dn_isNoMatchError del_env) del_user.
Proof.
  split; try (apply quiet_laws); try (intros; apply counted_delete); try (by apply counted_lists).
  - by intros uid w r w' [= <- <-].
  - intros uid w l w' [= <- <-]. by destruct (si_reported _ uid).
Qed.

Lemma del_once_keeps {X} (v : DelWorld → X) cond : keeps v cond → keeps v (del_once cond).
Proof. intros Hc. apply keeps_bind; [done|]. intros []; frame. Qed.

Lemma del_stored_inv w k s : del_stored w !! k = Some s → del_cluster w = Some s ∧ k = object_key s.
Proof. unfold del_stored. destruct (del_cluster w); [|done]. intros [<- <-]%lookup_singleton_Some. done. Qed.

#[export] Program Instance del_world : DeletionWorld del_env := {|
  dw_T := nat; dw_stored := del_stored; dw_tables := del_tables; dw_empty := none;
|}.
Next Obligation. by intros w r w' [= <- <-]. Qed.
Next Obligation. intros w u w' [= <- <-]. apply del_user_laws. Qed.
Next Obligation. by intros w r w' [= <- <-]. Qed.
Next Obligation. intros. by apply del_once_keeps. Qed.
Next Obligation. intros. by apply del_once_keeps. Qed.
Next Obligation. intros. apply keeps_ret. Qed.
Next Obligation. intros. apply keeps_ret. Qed.
Next Obligation. by intros o w r w' [= <- <-]. Qed.
Next Obligation. by intros o ns w r w' [= <- <-]. Qed.
Next Obligation. intros ns w r w' [= <- <-]. split_and!; [done..|]. intros j Hj. by apply tab_set_other. Qed.
Next Obligation. by intros ns w u w' [= <- <-]. Qed.
Next Obligation. intros. by apply counted_lists. Qed.
Next Obligation. intros. apply counted_delete. Qed.
Next Obligation. by intros k w r w' [= <- <-]. Qed.
Next Obligation. intros. apply counted_delete. Qed.
Next Obligation. by intros w k c [_ ->]%del_stored_inv. Qed.
Next Obligation. intros k w r w' [= <- <-]. destruct (del_stored w !! k); naive_solver. Qed.
Next Obligation.
  intros c w r w'. simpl. destruct (del_stored w !! object_key c) as [s|] eqn:Es; intros [= <- <-]; [|by split; [|left]].
  split; [done|]. right. split; [done|]. exists s, (del_update s c). destruct (del_stored_inv _ _ _ Es) as [Ec Ek].
  split_and!; [done|by split|by intros x [= <-]|]. unfold del_stored. rewrite Ec, Ek. simpl.
  destruct (om_finalizers (cl_meta c)) as [|f l]; [right; split; [done|]; by rewrite delete_singleton_eq|left].
  rewrite insert_singleton_eq. by rewrite <- Ek.
Qed.
Next Obligation.
  intros old c w r w'. simpl. destruct (del_stored w !! object_key c) as [s|] eqn:Es; intros [= <- <-] _; [|by split; [|left]].
  split; [done|]. right. exists s, (set_meta (set_annotations (om_annotations (cl_meta c)) (cl_meta s)) s). destruct (del_stored_inv _ _ _ Es) as [Ec Ek].
  split_and!; [done|by split|by intros x [= <-]|]. unfold del_stored. rewrite Ec, Ek. simpl. by rewrite insert_singleton_eq.
Qed.
Next Obligation. intros s x. apply elem_of_elements. Qed.

(** ** A cluster that is being deleted *)

Definition dying (finalizers : list string) (annotations : gmap string string) : Cluster :=
  let c := plain_cluster in
  set_meta (mkObjectMeta "abc" "" "uid" ∅ annotations finalizers [] (100 * Hour) (Some (200 * Hour)) "1") c.
Definition del_start (c : Cluster) (tables : Tables nat) : DelWorld := mkDelWorld (Some c) tables.

(** With two machine deployments, their sets and machines, a credential and four
    constraints. *)
Definition with_machines : DelWorld := del_start (dying kkpFinalizers ∅) (mkTables 0 0 0 2 2 3 0 1 4 (del_site []))%nat.
Definition empty_tables (reported : list string) : Tables nat := (mkTables 0 0 0 0 0 0 0 1 4 (del_site reported))%nat.
Definition all_gone : DelWorld := del_start (dying kkpFinalizers ∅) (empty_tables []).

Example machines_run : let run := CleanupCluster del_env (dying kkpFinalizers ∅) with_machines in
  tab KDeployments (del_tables run.2) = 0%nat ∧ tab KConstraints (del_tables run.2) = 0%nat ∧ tab KMachines (del_tables run.2) = 3%nat ∧ tab KSecrets (del_tables run.2) = 1%nat ∧
  om_finalizers <$> (cl_meta <$> del_cluster run.2) = Some [CredentialsSecretsCleanupFinalizer; NodeDeletionFinalizer].
Proof. by vm_compute. Qed.

Lemma deletion_order_witness : let run := CleanupCluster del_env (dying kkpFinalizers ∅) with_machines in
  succeeds run = true ∧ (∀ k, tab k (del_tables run.2) = tab k (del_tables with_machines) ∨ may_touch del_env with_machines (dying kkpFinalizers ∅) k) ∧
  constraints_doomed del_env (dying kkpFinalizers ∅) run.2.
Proof.
  intros run. split; [vm_compute; reflexivity|].
  destruct (deletion_order del_env (dying kkpFinalizers ∅) with_machines run.1 run.2) as (_ & _ & _ & Ht & Hc);
    [vm_compute; reflexivity|apply surjective_pairing|]. split; [exact Ht|]. apply Hc; [left|].
  intros (s & Hs & Hf). vm_compute in Hs. injection Hs as <-. cbn in Hf. set_solver.
Defined.

Lemma all_gone_finished : finished del_env all_gone (dying kkpFinalizers ∅).
Proof.
  split.
  - by vm_compute.
  - intros []; intros Hk Hk'; try reflexivity; [by destruct Hk|by destruct Hk'].
  - right. by vm_compute.
  - intros f Hf. exact Hf.
Qed.

Lemma deletion_finishes_witness : ∃ x, CleanupCluster del_env (dying kkpFinalizers ∅) all_gone = (Ok x, mkDelWorld None (mkTables 0 0 0 0 0 0 0 0 0 (del_site []))%nat) ∧
  om_finalizers (cl_meta x) = [].
Proof.
  eexists. split; [vm_compute; reflexivity|].
  refine (proj1 (deletion_finishes del_env (dying kkpFinalizers ∅) all_gone _ _ _ all_gone_finished _)); vm_compute; reflexivity.
Defined.

(** Two load balancers were deleted; the first is reported gone, so the check already
    succeeds, and when both are it fails. *)
Definition two_lbs : Cluster := dying kkpFinalizers {[deletedLBAnnotationName := "lb-1,lb-2"]}.
Definition lbs_run (reported : list string) : outcome (bool * Cluster) * DelWorld :=
  checkIfAllLoadbalancersAreGone del_env two_lbs (del_start two_lbs (empty_tables reported)).

Example lbs_both_reported : fst <$> match (lbs_run ["lb-1"; "lb-2"]).1 with Ok p => Some p | _ => None end = Some false.
Proof. by vm_compute. Qed.

Lemma loadbalancers_gone_witness : ∃ x w', lbs_run ["lb-1"] = (Ok (true, x), w') ∧
  (no_awaited_lbs two_lbs ∨ 200 * Hour + 7200 * Second < 200 * Hour ∨
   ∃ uid, uid ∈ parseStringSet (deletedLBs two_lbs) ∧ existsb (String.eqb uid) ["lb-1"] = false).
Proof.
  eexists _, _. split; [vm_compute; reflexivity|].
  eapply (proj1 (loadbalancers_gone_spec del_env two_lbs (200 * Hour) (del_start two_lbs (empty_tables ["lb-1"])) true _ _
    ltac:(reflexivity) ltac:(vm_compute; reflexivity)) eq_refl).
Defined.
