(* ===== verification/WitnessController.v ===== *)
(** * Concrete runs of the cluster controller

    A seed with one cluster and the objects of its control plane: the interfaces of
    the cluster controller hold there, and its theorems are at work on it. *)

From S2P Require Import Prelude ResourceNames Kube Semver Net CloudApi ClusterApi Helper Corev1 EtcdBackup VersionManager Field ClusterDefaulting Reconciling ClusterDeletion Workloads ControlPlane ControlPlaneSpec ClusterAddressing ClusterHealth ClusterResources ClusterResourcesSpec ClusterController ClusterControllerSpec Memory Samples.

(** ** A seed with one cluster *)

Record SeedWorld := mkSeedWorld { sw_cluster : Cluster; sw_objects : Resource → option DataObject }.
Definition put_object (x : Resource) (o : option DataObject) (w : SeedWorld) : SeedWorld :=
  mkSeedWorld (sw_cluster w) (λ y, if decide (y = x) then o else sw_objects w y).
Definition sw_notFound : error := ErrAPI ReasonNotFound "not found".

Definition seed_objects (k : ResourceKind) : Client SeedWorld DataObject :=
  mkClient
    (λ n w, (match sw_objects w (mkResource k n) with
             | Some o => Ok (set_meta (set_namespace (key_namespace n) (set_name (key_name n) (do_meta o))) o)
             | None => Err sw_notFound end, w))
    (λ _, mret [])
    (λ o w, (Ok o, put_object (mkResource k (object_key o)) (Some o) w))
    (λ o w, (Ok o, put_object (mkResource k (object_key o)) (Some o) w))
    (λ _ o, mret o) (λ _ o, mret o)
    (λ o w, match sw_objects w (mkResource k (object_key o)) with
            | Some _ => (Ok tt, put_object (mkResource k (object_key o)) None w)
            | None => (Err sw_notFound, w)
            end).

(** One object, which no request changes. *)
Definition fixed {O} (o : O) : Client SeedWorld O :=
  mkClient (λ _, mret o) (λ _, mret []) (λ o, mret o) (λ o, mret o) (λ _ o, mret o) (λ _ o, mret o) (λ _, mret tt).

(** Workloads are healthy as soon as they exist. *)
Definition seed_deployments : Client SeedWorld Deployment :=
  mkClient
    (λ n w, (match sw_objects w (mkResource RDeployment n) with
             | Some _ => Ok (mkDeployment (do_meta (stub n)) 1 (Some 1) [] 1 1 1 1 1 [])
             | None => Err sw_notFound end, w))
    (λ _, mret []) (λ o, mret o) (λ o, mret o) (λ _ o, mret o) (λ _ o, mret o) (λ _, mret tt).
Definition seed_etcdSets : Client SeedWorld EtcdSet :=
  mkClient
    (λ n w, (match sw_objects w (mkResource RStatefulSet n) with
             | Some _ => Ok (mkEtcdSet (do_meta (stub n)) (Some 3) [] 3 3 3)
             | None => Err sw_notFound end, w))
    (λ _, mret []) (λ o, mret o) (λ o, mret o) (λ _ o, mret o) (λ _ o, mret o) (λ _, mret tt).

(** Patches of the cluster do not concern its finalizers. *)
Definition with_stored (c : Cluster) (w : SeedWorld) : SeedWorld := mkSeedWorld c (sw_objects w).
Definition seed_clusters : Client SeedWorld Cluster :=
  mkClient
    (λ k w, (if decide (k = object_key (sw_cluster w)) then Ok (sw_cluster w) else Err sw_notFound, w))
    (λ _ w, (Ok [sw_cluster w], w))
    (λ _, throw sw_notFound)
    (λ c w, if decide (object_key c = object_key (sw_cluster w)) then (Ok c, with_stored c w) else (Err sw_notFound, w))
    (λ _ c w, if decide (object_key c = object_key (sw_cluster w)) then
                let c' := set_meta (set_finalizers (om_finalizers (cl_meta (sw_cluster w))) (cl_meta c)) c in
                (Ok c', with_stored c' w)
              else (Err sw_notFound, w))
    (λ _ c w, if decide (object_key c = object_key (sw_cluster w)) then (Ok c, with_stored c w) else (Err sw_notFound, w))
    (λ _, throw sw_notFound).

Definition seed_user : UserAccess SeedWorld :=
  mkUserAccess _
    (mkUserClient _ (fixed (mkService emptyMeta "")) (fixed (mkMetaObject emptyMeta)) (fixed (mkMetaObject emptyMeta))
       (fixed (mkMetaObject emptyMeta)) (fixed (mkMetaObject emptyMeta)) (fixed (mkMetaObject emptyMeta))
       (fixed (mkPersistentVolume emptyMeta "")) (fixed (mkUserPod emptyMeta []))
       (fixed (mkValidatingWebhookConfiguration emptyMeta [])) (λ _, mret []))
    (fixed (mkMetaObject emptyMeta)) (fixed (mkMetaObject emptyMeta)).

Definition sw_once (cond : M SeedWorld bool) : M SeedWorld unit :=
  b ← cond; if (b : bool) then mret tt else throw (ErrNew "timed out waiting for the condition").

Definition sample_settings : Settings :=
  mkSettings "" "10.254.0.0/16" "5Gi" false "kubermatic" "etcd-launcher" "dnat" "" "" 60 "https://dex.local/dex" "kubermatic" "".
Definition sample_features : Features := mkFeatures true false false true true.
Definition sample_configuration : KubermaticConfiguration :=
  mkKubermaticConfiguration "NodePort" (mkUserClusterConfiguration "30000-32767" false "5Gi" None) sample_updates.

Definition seed_reconciler : ClusterReconciler SeedWorld :=
  mkClusterReconciler _ seed_clusters (fixed (mkNamespace (sample_meta "" "cluster-abc") (mkTypeMeta "Namespace" "v1")))
    seed_deployments seed_etcdSets (fixed (mkMetaObject emptyMeta))
    (fixed (mkSeedService emptyMeta [mkServicePort 6443 30123] "" [])) (mret [])
    seed_objects
    (λ _ _ _ o, Ok (mkDataObject (do_meta o) {["spec" := "template"]}))
    (λ a b, bool_decide (do_data a = do_data b)) id sw_once (mem_retry SeedWorld)
    (λ w, (100 * Hour, w)) (λ n w, ("token", w)) (λ _ _ _ w, w) (λ _, mret seed_user) (mret (Some sample_seed))
    (mret (Some sample_configuration))
    (λ getter, mkDeletion _ seed_clusters (fixed (mkMetaObject emptyMeta)) (λ _, mret tt)
       (fixed (sample_config "@hourly" None [] [])) (fixed (mkDataObject emptyMeta ∅)) getter (mem_retry SeedWorld)
       (mret 0) sw_once sw_once (λ _, false) (λ _ _, true) elements)
    (λ _, mret [[203; 0; 113; 5]]) (λ _, mret [[203; 0; 113; 5]]) (λ _, Ok "dex.local") (λ _, None) (@rev _)
    "" "kubermatic.local" "10.1.1.1" 10 sample_settings sample_features sample_versions.

Lemma sw_once_keeps {X} (v : SeedWorld → X) cond : keeps v cond → keeps v (sw_once cond).
Proof. intros Hc. apply keeps_bind; [done|]. intros []; frame. Qed.
Lemma put_same x o w : sw_objects (put_object x o w) x = o.
Proof. simpl. by rewrite decide_True. Qed.
Lemma put_other x y o w : y ≠ x → sw_objects (put_object x o w) y = sw_objects w y.
Proof. intros ?. simpl. by rewrite decide_False. Qed.

(** What is read, with the name under which it is stored. *)
Definition sw_lookup (x : Resource) (w : SeedWorld) : option DataObject :=
  (λ o, set_meta (set_namespace (key_namespace (rs_key x)) (set_name (key_name (rs_key x)) (do_meta o))) o) <$> sw_objects w x.

#[export] Program Instance seed_control_plane : ControlPlaneWorld seed_reconciler := {| cp_lookup := sw_lookup |}.
Next Obligation. by intros x k n w z w' [= _ <-]. Qed.
Next Obligation.
  intros k n w o w'. simpl. unfold sw_lookup. destruct (sw_objects w (mkResource k n)) as [o'|]; [|done]. intros [= <- _].
  split; [done|]. by destruct n.
Qed.
Next Obligation. intros k n w e w'. simpl. unfold sw_lookup. by destruct (sw_objects w (mkResource k n)). Qed.
Next Obligation.
  intros k o w z w' [= <- <-]. unfold sw_lookup. split; [intros x Hx; by rewrite put_other|].
  intros y [= <-]. rewrite put_same. eauto.
Qed.
Next Obligation.
  intros k o w z w' [= <- <-]. unfold sw_lookup. split; [intros x Hx; by rewrite put_other|].
  intros y [= <-]. rewrite put_same. eauto.
Qed.
Next Obligation.
  intros k o w z w'. simpl. destruct (sw_objects w (mkResource k (object_key o))) eqn:Eo; intros [= <- <-].
  - unfold sw_lookup. split; [intros x Hx; by rewrite put_other|]. intros _ y. by rewrite put_same.
  - split; [done|]. intros _ y. unfold sw_lookup. by rewrite Eo.
Qed.
Next Obligation. intros. by apply sw_once_keeps. Qed.
Next Obligation. done. Qed.
Next Obligation. by intros x n w z w' [= _ <-]. Qed.
Next Obligation. intros n w o w'. simpl. destruct (sw_objects w _); [|done]. by intros [= <- _]. Qed.
Next Obligation. by intros x n w z w' [= _ <-]. Qed.
Next Obligation.
  intros n w o w'. simpl. unfold sw_lookup. destruct (sw_objects w _); [|done]. intros [= <- _]. split; [done|]. eauto.
Qed.
Next Obligation. intros. apply keeps_ret. Qed.
Next Obligation. intros. apply keeps_ret. Qed.
Next Obligation. intros. apply keeps_ret. Qed.
Next Obligation. intros. apply keeps_ret. Qed.
Next Obligation. intros. apply keeps_ret. Qed.
Next Obligation. intros. apply keeps_ret. Qed.
Next Obligation. intros. apply keeps_ret. Qed.
Next Obligation. by intros x n w z w' [= _ <-]. Qed.
Next Obligation. intros x old new w z w'. simpl. by destruct (decide _); intros [= _ <-]. Qed.
Next Obligation. intros old new w c w'. simpl. destruct (decide _); [|done]. by intros [= <- _]. Qed.

#[export] Program Instance seed_health : HealthWorld seed_reconciler := {|
  hw_deployment n w := match sw_objects w (mkResource RDeployment n) with
                       | Some _ => Some (mkDeployment (do_meta (stub n)) 1 (Some 1) [] 1 1 1 1 1 []) | None => None end;
  hw_etcdSet n w := match sw_objects w (mkResource RStatefulSet n) with
                    | Some _ => Some (mkEtcdSet (do_meta (stub n)) (Some 3) [] 3 3 3) | None => None end;
|}.
Next Obligation. intros n w o w' [= <- <-]. destruct (sw_objects w _); split_and!; naive_solver. Qed.
Next Obligation. intros n w o w' [= <- <-]. destruct (sw_objects w _); split_and!; naive_solver. Qed.
Next Obligation. intros l. simpl. by rewrite <- Permutation_rev. Qed.

Definition sw_finalizers (k : NamespacedName) (w : SeedWorld) : option (list string) :=
  if decide (k = object_key (sw_cluster w)) then Some (om_finalizers (cl_meta (sw_cluster w))) else None.
Lemma sw_with_stored k c w : object_key c = object_key (sw_cluster w) → om_finalizers (cl_meta c) = om_finalizers (cl_meta (sw_cluster w)) →
  sw_finalizers k (with_stored c w) = sw_finalizers k w.
Proof. intros Hk Hf. unfold sw_finalizers. simpl. by rewrite Hk, Hf. Qed.

Lemma seed_quiet k : quiet seed_reconciler (sw_finalizers k).
Proof.
  split; try (intros; apply keeps_ret); try (by intros ? w z w' [= _ <-]); try (by intros ? ? w z w' [= _ <-]).
  - intros old new _ w z w'. simpl. destruct (decide _) as [Hk|]; intros [= _ <-]; [|done]. by apply sw_with_stored.
  - intros j o w z w'. simpl. by destruct (sw_objects w _); intros [= _ <-].
  - intros. by apply sw_once_keeps.
  - intros c w a w' [= <- _]. apply keeps_ret.
Qed.

#[export] Program Instance seed_finalizers : FinalizerWorld seed_reconciler := {| fz := sw_finalizers; fz_quiet := seed_quiet |}.
Next Obligation.
  intros k w c w'. simpl. unfold sw_finalizers. destruct (decide _) as [->|]; [|done]. by intros [= <- _].
Qed.
Next Obligation. intros old new w x w'. simpl. destruct (decide _); [|done]. by intros [= <- _]. Qed.
Next Obligation.
  intros c w o w'. simpl. destruct (decide _) as [Hk|]; intros [= <- <-]; [|by split; [|left]]. split; [by intros x [= <-]|]. right.
  split; [|done]. unfold sw_finalizers. simpl. by rewrite decide_True.
Qed.

(** ** Runs *)

(** A cluster with Konnectivity whose dashboard is switched off, in a seed where the
    dashboard and OpenVPN are still deployed. *)
Definition left_over (x : Resource) : bool :=
  bool_decide (x ∈ kubernetesdashboard_ResourcesForDeletion "cluster-abc" ++ openVPNSetup "cluster-abc").
Definition seed_before : SeedWorld :=
  mkSeedWorld plain_cluster (λ x, if left_over x then Some (stub (rs_key x)) else None).
Definition abc_namespace : Namespace := mkNamespace (sample_meta "" "cluster-abc") (mkTypeMeta "Namespace" "v1").

Definition is_complete (res : outcome (Cluster * option Result) * SeedWorld) : bool :=
  match res.1 with Ok (_, Some x) => bool_decide (x = emptyResult) | _ => false end.
Lemma complete_inv m w : is_complete (m w) = true → ∃ c' w', (m : M SeedWorld _) w = (Ok (c', Some emptyResult), w').
Proof.
  unfold is_complete. destruct (m w) as [[[c' [x|]]| | |] w']; try done. simpl. intros ->%bool_decide_eq_true. eauto.
Qed.
Lemma seed_run : is_complete (ensureResourcesAreDeployed seed_reconciler plain_cluster abc_namespace seed_before) = true.
Proof. vm_compute. reflexivity. Qed.

Lemma control_plane_deployed_witness : ∃ c' w',
  ensureResourcesAreDeployed seed_reconciler plain_cluster abc_namespace seed_before = (Ok (c', Some emptyResult), w') ∧
  cp_present (in_ns "cluster-abc" RDeployment ApiserverDeploymentName) w' ∧
  cp_removed (in_ns "cluster-abc" RSecret KubernetesDashboardKubeconfigSecretName) w' ∧
  cp_lookup (in_ns "cluster-abc" RNetworkPolicy NetworkPolicyDNSAllow) w' =
  cp_lookup (in_ns "cluster-abc" RNetworkPolicy NetworkPolicyDNSAllow) seed_before.
Proof.
  destruct (complete_inv _ _ seed_run) as (c' & w' & E). exists c', w'. split; [exact E|].
  pose proof (control_plane_deployed seed_reconciler plain_cluster abc_namespace sample_seed seed_before seed_before c' (Some emptyResult) w' eq_refl
    (or_intror eq_refl) E) as (Hup & Hp & _ & Hr & Hk).
  assert (infrastructure_up plain_cluster) as Hu by (apply Hup; reflexivity).
  split; [|split].
  - apply (Hp CBase); [reflexivity| |right; exact Hu]. exists RDeployment, ApiserverDeploymentName. split; [reflexivity|]. left.
  - apply (Hr CDashboard); [reflexivity| |right; exact Hu]. exists RSecret, KubernetesDashboardKubeconfigSecretName. split; [reflexivity|]. left.
  - apply (Hk CPolicies); [reflexivity|reflexivity|]. exists RNetworkPolicy, NetworkPolicyDNSAllow. split; [reflexivity|]. right. left.
Defined.

Definition other_cluster : Cluster :=
  mkCluster (sample_meta "" "xyz") (cl_spec plain_cluster) (set_namespaceName "cluster-xyz" (cl_status plain_cluster))
    (cl_address plain_cluster) (cl_typeMeta plain_cluster).
Lemma control_planes_isolated_witness :
  cp_lookup (r := seed_reconciler) (in_ns "cluster-xyz" RSecret AdminKubeconfigSecretName)
    (ensureResourcesAreDeployed seed_reconciler plain_cluster abc_namespace seed_before).2 =
  cp_lookup (r := seed_reconciler) (in_ns "cluster-xyz" RSecret AdminKubeconfigSecretName) seed_before.
Proof.
  refine (control_planes_isolated seed_reconciler plain_cluster other_cluster abc_namespace
    (in_ns "cluster-xyz" RSecret AdminKubeconfigSecretName) _ _ _ _ _ seed_before _ _ (surjective_pairing _)).
  - discriminate.
  - discriminate.
  - discriminate.
  - reflexivity.
  - left. reflexivity.
Defined.

(** Encryption was switched off, the secret is still there. *)
Definition unencrypted_cluster : Cluster :=
  set_cl_spec (set_encryptionConfiguration None (cl_spec plain_cluster)) plain_cluster.
Definition encryption_secret : Resource := in_ns "cluster-abc" RSecret EncryptionConfigurationSecretName.
Definition seed_unencrypted : SeedWorld :=
  mkSeedWorld unencrypted_cluster (λ x, if decide (x = encryption_secret) then Some (stub (rs_key x)) else None).
Lemma encryption_secret_survives_witness :
  is_complete (ensureResourcesAreDeployed seed_reconciler unencrypted_cluster abc_namespace seed_unencrypted) = true ∧
  cp_lookup (r := seed_reconciler) encryption_secret (ensureResourcesAreDeployed seed_reconciler unencrypted_cluster abc_namespace seed_unencrypted).2 =
  Some (stub (rs_key encryption_secret)).
Proof.
  split; [vm_compute; reflexivity|].
  refine (eq_trans (encryption_secret_survives seed_reconciler unencrypted_cluster abc_namespace eq_refl eq_refl seed_unencrypted _ _ (surjective_pairing _)) _).
  vm_compute. reflexivity.
Defined.

(** The infrastructure is not ready, or the address is not known. *)
Definition waiting_cluster : Cluster :=
  set_cl_status (set_health (mkExtendedClusterHealth HealthStatusUp HealthStatusUp HealthStatusUp HealthStatusUp HealthStatusUp HealthStatusUp
    HealthStatusUp HealthStatusDown HealthStatusUp None None None None None None HealthStatusUp) (cl_status plain_cluster)) plain_cluster.
Definition unaddressed_cluster : Cluster := set_cl_spec (set_exposeStrategy ExposeStrategyLoadBalancer (cl_spec plain_cluster)) plain_cluster.
Definition asks_again (res : outcome (Cluster * option Result) * SeedWorld) : bool :=
  match res.1 with Ok (_, Some x) => negb (RequeueAfter x =? 0) | _ => false end.
Lemma asks_again_inv m w : asks_again (m w) = true → ∃ c' x w', (m : M SeedWorld _) w = (Ok (c', Some x), w') ∧ RequeueAfter x ≠ 0.
Proof.
  unfold asks_again. destruct (m w) as [[[c' [x|]]| | |] w']; try done. simpl. intros Hx%negb_true_iff%Z.eqb_neq. eauto 10.
Qed.
Definition apiserver_deployment : Resource := in_ns "cluster-abc" RDeployment ApiserverDeploymentName.
Lemma unaddressed_run : asks_again (ensureResourcesAreDeployed seed_reconciler unaddressed_cluster abc_namespace seed_before) = true.
Proof. vm_compute. reflexivity. Qed.
Lemma deployment_gates_witness :
  cp_lookup (r := seed_reconciler) apiserver_deployment (ensureResourcesAreDeployed seed_reconciler waiting_cluster abc_namespace seed_before).2 =
    cp_lookup (r := seed_reconciler) apiserver_deployment seed_before ∧
  ∃ c' x w', ensureResourcesAreDeployed seed_reconciler unaddressed_cluster abc_namespace seed_before = (Ok (c', Some x), w') ∧
    cp_lookup (r := seed_reconciler) apiserver_deployment w' = cp_lookup (r := seed_reconciler) apiserver_deployment seed_before.
Proof.
  split.
  - refine (proj1 (deployment_gates seed_reconciler waiting_cluster abc_namespace) apiserver_deployment eq_refl _ _ seed_before _ _ (surjective_pairing _)).
    + discriminate.
    + discriminate.
  - destruct (asks_again_inv _ _ unaddressed_run) as (c' & x & w' & E & Hx). exists c', x, w'. split; [exact E|].
    refine (proj1 (proj2 (deployment_gates seed_reconciler unaddressed_cluster abc_namespace) apiserver_deployment _ _ _ _ _ (or_intror Hx) E)).
    discriminate.
Defined.

(** A seed in which every deployment and stateful set exists. *)
Definition running_seed : SeedWorld :=
  mkSeedWorld plain_cluster (λ x, match rs_kind x with RDeployment | RStatefulSet => Some (stub (rs_key x)) | _ => None end).
Lemma health_run : succeeds (clusterHealth seed_reconciler plain_cluster running_seed) = true.
Proof. vm_compute. reflexivity. Qed.
Lemma clusterHealth_spec_witness : ∃ h w', clusterHealth seed_reconciler plain_cluster running_seed = (Ok h, w') ∧
  eh_apiserver h = HealthStatusUp ∧ eh_etcd h = HealthStatusUp.
Proof.
  destruct (run_ok _ _ health_run) as (h & w' & E). exists h, w'. split; [exact E|].
  pose proof (clusterHealth_spec seed_reconciler plain_cluster running_seed h w' E) as (Ha & _ & _ & _ & _ & _ & He & _).
  split; [refine (eq_trans Ha _)|refine (eq_trans He _)]; vm_compute; reflexivity.
Defined.

(** With a limit of ten updates, and one cluster that is being updated. *)
Lemma concurrency_limit_witness :
  limited_reconcile seed_reconciler plain_cluster running_seed = cluster_reconcile seed_reconciler plain_cluster running_seed.
Proof.
  pose proof (concurrency_limit seed_reconciler plain_cluster running_seed [plain_cluster] running_seed eq_refl) as Hl.
  assert (Hu : is_upToDate plain_cluster = false) by (vm_compute; reflexivity).
  cbv zeta in Hl. rewrite Hu in Hl. cbn [negb] in Hl. exact Hl.
Defined.

Lemma reconcile_finalizers_witness : ∃ fs',
  fz (object_key plain_cluster) (reconcileCluster seed_reconciler plain_cluster seed_before).2 = Some fs' ∧
  ∀ f, f ∈ fs' → may_add seed_reconciler (object_key plain_cluster) f.
Proof.
  assert (Hf : fz (object_key plain_cluster) seed_before = Some []) by (vm_compute; reflexivity).
  destruct (reconcile_finalizers seed_reconciler plain_cluster seed_before _ _ [] (surjective_pairing _) Hf)
    as (fs' & Hfs & _ & Hnew).
  exists fs'. split; [exact Hfs|]. intros f Hin. destruct (Hnew f Hin) as [Hnil|Hm]; [exfalso; exact (proj1 (elem_of_nil f) Hnil)|exact Hm].
Defined.

Definition sample_build := Build (k8_services seed_reconciler) (k8_lookupIP seed_reconciler) "kubermatic.local" "" plain_cluster sample_seed.
Lemma build_run : succeeds (sample_build seed_before) = true.
Proof. vm_compute. reflexivity. Qed.
Lemma address_converges_witness : ∃ l w1 x, sample_build seed_before = (Ok l, w1) ∧
  fold_left (λ a f, f a) l (cl_address plain_cluster) = address_of x "" ∧ ad_externalName x = "abc.seed.kubermatic.local".
Proof.
  destruct (run_ok _ _ build_run) as (l & w1 & E).
  destruct (address_converges (k8_services seed_reconciler) (k8_lookupIP seed_reconciler) "kubermatic.local" "" plain_cluster sample_seed
    seed_before l w1 E) as (x & Hx & Ha & _).
  exists l, w1, x. split; [exact E|]. split; [exact Ha|]. vm_compute in Hx. by injection Hx as <- _.
Defined.

Definition sample_data : TemplateData :=
  mkTemplateData plain_cluster aws_datacenter sample_seed sample_configuration "" "30000-32767" "" "5Gi" "" "" "" "" "" "" "" 60
    sample_versions "" false false true.
Lemma creators_well_formed_witness : NoDup (creatorNames sample_data true true [] None "cluster-abc" RSecret).
Proof. exact (creators_well_formed sample_data true true [] None "cluster-abc" RSecret eq_refl). Defined.
