(* ===== verification/WitnessMaster.v ===== *)
(** * Concrete runs of the controllers of the master

    Stores in memory, by the name of their cluster, that satisfy the interfaces of the
    controllers, and the theorems at work on them. *)

From S2P Require Import Prelude ResourceNames Kube Semver Net CloudApi ClusterApi Helper Corev1 Field ClusterDefaulting Rbac RbacSync Reconciling ClusterDeletion MasterApi MasterSync MasterSyncSpec ProjectMembers ProjectMembersSpec Memory Samples.

(** ** Stores in memory *)

Abbreviation cells O := (gmap (string * NamespacedName) O).

Section cells.
Context {W O : Type} `{Object O} (get : W → cells O) (set : cells O → W → W) (with_status : O → O → O).

Definition cell_view (i : string) (k : NamespacedName) (w : W) : option O :=
  o ← get w !! (i, k); if decide (object_key o = k) then Some o else None.
Definition cell_put (i : string) (o : O) (w : W) : W := set (<[(i, object_key o) := o]> (get w)) w.
Definition cell_drop (i : string) (k : NamespacedName) (w : W) : W := set (delete (i, k) (get w)) w.
Definition set_deletion (t : option Z) (m : ObjectMeta) : ObjectMeta :=
  mkObjectMeta (om_name m) (om_namespace m) (om_uid m) (om_labels m) (om_annotations m) (om_finalizers m)
    (om_ownerReferences m) (om_creationTimestamp m) t (om_resourceVersion m).
Definition missing : error := ErrAPI ReasonNotFound "not found".

(** [with_status o s] is [o] with the status of [s]. *)
Definition cell_update (i : string) (o : O) : M W O := λ w,
  match cell_view i (object_key o) w with
  | None => (Err missing, w)
  | Some old =>
      let x := with_status (set_meta (set_deletion (om_deletionTimestamp (obj_meta old)) (obj_meta o)) o) old in
      match om_finalizers (obj_meta o), om_finalizers (obj_meta old), om_deletionTimestamp (obj_meta old) with
      | [], _ :: _, Some _ => (Ok x, cell_drop i (object_key o) w)
      | _, _, _ => (Ok x, cell_put i x w)
      end
  end.
Definition cell_delete (i : string) (o : O) : M W unit := λ w,
  match cell_view i (object_key o) w with
  | None => (Err missing, w)
  | Some old =>
      match om_finalizers (obj_meta old) with
      | [] => (Ok tt, cell_drop i (object_key o) w)
      | _ => (Ok tt, cell_put i (set_meta (set_deletion (Some 1) (obj_meta old)) old) w)
      end
  end.
Definition cell_client (i : string) : Client W O :=
  mkClient
    (λ k w, (match cell_view i k w with Some o => Ok o | None => Err missing end, w))
    (λ _ w, (Ok (map snd (map_to_list (get w))), w))
    (λ o w, match cell_view i (object_key o) w with
            | Some _ => (Err (ErrAPI ReasonAlreadyExists "already exists"), w)
            | None => (Ok o, cell_put i o w)
            end)
    (cell_update i)
    (λ old new w, match cell_view i (object_key old) w with
                  | Some x => let o := set_meta (set_name (om_name (obj_meta old)) (set_namespace (om_namespace (obj_meta old)) (obj_meta new))) new in
                              (Ok o, cell_put i o w)
                  | None => (Err missing, w)
                  end)
    (λ old new w, match cell_view i (object_key old) w with
                  | Some x => (Ok (with_status x new), cell_put i (with_status x new) w)
                  | None => (Err missing, w)
                  end)
    (cell_delete i).

Context (get_set : ∀ t w, get (set t w) = t).

Lemma cell_view_put i o w j k : cell_view j k (cell_put i o w) = if decide ((j, k) = (i, object_key o)) then Some o else cell_view j k w.
Proof.
  unfold cell_view, cell_put. rewrite get_set. destruct (decide _) as [[= -> ->]|Hne].
  - rewrite lookup_insert_eq. simpl. by rewrite decide_True.
  - by rewrite lookup_insert_ne.
Qed.
Lemma cell_view_drop i k0 w j k : cell_view j k (cell_drop i k0 w) = if decide ((j, k) = (i, k0)) then None else cell_view j k w.
Proof.
  unfold cell_view, cell_drop. rewrite get_set. destruct (decide _) as [[= -> ->]|Hne].
  - by rewrite lookup_delete_eq.
  - by rewrite lookup_delete_ne.
Qed.
Lemma cell_view_key i k w o : cell_view i k w = Some o → object_key o = k.
Proof. unfold cell_view. destruct (_ !! _) as [x|]; [|done]. simpl. case_decide; [|done]. by intros [= <-]. Qed.
Lemma cell_get_keeps {A} (v : W → A) i k : keeps v (c_get (cell_client i) k).
Proof. by intros w z w' [= _ <-]. Qed.
Lemma cell_get_ok i k w o w' : c_get (cell_client i) k w = (Ok o, w') → cell_view i k w = Some o ∧ object_key o = k.
Proof. simpl. destruct (cell_view i k w) eqn:E; [|done]. intros [= <- _]. split; [done|by eapply cell_view_key]. Qed.
Lemma cell_get_run i k w o : cell_view i k w = Some o → c_get (cell_client i) k w = (Ok o, w).
Proof. simpl. by intros ->. Qed.
Lemma cell_get_missing i k w e w' : c_get (cell_client i) k w = (Err e, w') → cell_view i k w = None.
Proof. simpl. by destruct (cell_view i k w). Qed.

(** The objects of one cluster. *)
Definition in_cell (i : string) (P : O → Prop) (e : string * NamespacedName * O) : Prop := e.1.1 = i ∧ object_key e.2 = e.1.2 ∧ P e.2.
#[global] Instance in_cell_dec i P `{∀ o, Decision (P o)} e : Decision (in_cell i P e).
Proof. unfold in_cell. apply _. Defined.
Definition cell_list (i : string) (P : O → Prop) `{∀ o, Decision (P o)} (w : W) : list O := map snd (map_to_list (filter (in_cell i P) (get w))).
Lemma cell_list_elem i P `{∀ o, Decision (P o)} w o : o ∈ cell_list i P w ↔ cell_view i (object_key o) w = Some o ∧ P o.
Proof.
  unfold cell_list, cell_view. rewrite list_elem_of_fmap. split.
  - intros ([[j k] x] & -> & (Hl & Hi & Hk & Hb)%elem_of_map_to_list%map_lookup_filter_Some). simpl in *. subst j k. rewrite Hl. simpl.
    by rewrite decide_True.
  - intros [Hv Hb]. exists (i, object_key o, o). split; [done|]. apply elem_of_map_to_list, map_lookup_filter_Some. split; [|done].
    destruct (get w !! _) as [x|] eqn:El; [|done]. simpl in Hv. case_decide; [|done]. by injection Hv as ->.
Qed.
Lemma cell_list_keys i P `{∀ o, Decision (P o)} w : NoDup (map object_key (cell_list i P w)).
Proof.
  apply (NoDup_fmap_1 (pair i)). unfold cell_list.
  rewrite <- !list_fmap_compose. erewrite list_fmap_ext; [apply (NoDup_fst_map_to_list (filter (in_cell i P) (get w)))|].
  intros j [[n k] x] Hj. apply list_elem_of_lookup_2, elem_of_map_to_list, map_lookup_filter_Some in Hj as (_ & Hi & Hk & _). simpl in *. by rewrite Hi, Hk.
Qed.

(** What is not in these cells stays. *)
Lemma cell_frame {A} (v : W → A) i : (∀ t w, v (set t w) = v w) →
  (∀ k, keeps v (c_get (cell_client i) k)) ∧ (∀ o, keeps v (c_create (cell_client i) o)) ∧
  (∀ o, keeps v (c_update (cell_client i) o)) ∧ (∀ o, keeps v (c_delete (cell_client i) o)).
Proof.
  intros Hv. split_and!.
  - by intros k w z w' [= _ <-].
  - intros o w z w'. simpl. destruct (cell_view i _ w); intros [= _ <-]; [done|apply Hv].
  - intros o w z w'. simpl. unfold cell_update. destruct (cell_view i _ w); [|by intros [= _ <-]]. repeat case_match; intros [= _ <-]; apply Hv.
  - intros o w z w'. simpl. unfold cell_delete. destruct (cell_view i _ w); [|by intros [= _ <-]]. case_match; intros [= _ <-]; apply Hv.
Qed.

Context {X Y : Type} (main : O → X) (status : O → Y)
  (status_meta : ∀ o s, obj_meta (with_status o s) = obj_meta o) (status_main : ∀ o s, main (with_status o s) = main o)
  (status_status : ∀ o s, status (with_status o s) = status s) (meta_main : ∀ o t, main (set_meta (set_deletion t (obj_meta o)) o) = main o)
  (meta_status : ∀ o m, status (set_meta m o) = status o).

Lemma cell_laws i : at_store cell_view main status (cell_client i) i.
Proof.
  split.
  - intros. apply cell_get_keeps.
  - apply cell_get_ok.
  - intros k w e w' E _. by eapply cell_get_missing.
  - intros o w z w'. simpl. destruct (cell_view i (object_key o) w) eqn:Ev; intros [= <- <-]; [by split; [|left]|]. split.
    + intros j k' Hne. by rewrite cell_view_put, decide_False.
    + right. split; [done|]. exists o. by rewrite cell_view_put, decide_True.
  - intros o w z w'. simpl. unfold cell_update. destruct (cell_view i (object_key o) w) as [old|] eqn:Ev; [|intros [= <- <-]; by split_and!; [| |left]].
    set (x := with_status _ old). assert (Hm : obj_meta x = set_deletion (om_deletionTimestamp (obj_meta old)) (obj_meta o)) by (unfold x; by rewrite status_meta, obj_meta_set).
    assert (Hk : object_key x = object_key o) by (unfold object_key; by rewrite Hm). intros E.
    assert (Hz : z = Ok x) by (repeat case_match; by injection E). subst z.
    assert (Hw : w' = cell_put i x w ∨ (w' = cell_drop i (object_key o) w ∧ finalizers o = [] ∧ finalizers old ≠ [])).
    { unfold finalizers. destruct (om_finalizers (obj_meta o)), (om_finalizers (obj_meta old)), (om_deletionTimestamp (obj_meta old)); injection E as <-; naive_solver. }
    split; [intros j k' Hne; destruct Hw as [->|[-> _]]; rewrite ?cell_view_put, ?cell_view_drop, ?Hk, decide_False; done|].
    split; [by intros y [= <-]|]. right. exists old. split; [done|]. destruct Hw as [->|(-> & Ho & Hold)].
    + right. exists x. rewrite cell_view_put, Hk, decide_True by done. unfold finalizers, deletion. rewrite Hm.
      split_and!; try done; [|unfold x; by rewrite status_status|by intros y [= <-]].
      unfold x. by rewrite status_main, meta_main.
    + left. by rewrite cell_view_drop, decide_True.
  - intros old new w z w' E Hv. simpl in E. rewrite Hv in E. injection E as <- <-.
    assert (Hk : object_key (with_status old new) = object_key old) by (unfold object_key; by rewrite status_meta). split.
    + intros j k' Hne. by rewrite cell_view_put, Hk, decide_False.
    + right. exists (with_status old new). rewrite cell_view_put, Hk, decide_True by done. unfold finalizers, deletion.
      rewrite status_meta. by split_and!.
  - intros o w z w'. simpl. unfold cell_delete. destruct (cell_view i (object_key o) w) as [old|] eqn:Ev.
    2: { intros [= <- <-]. split_and!; [done|by left|]. intros _ x. congruence. }
    pose proof (cell_view_key _ _ _ _ Ev) as Hko.
    destruct (om_finalizers (obj_meta old)) as [|f fs] eqn:Ef; intros [= <- <-].
    + split; [intros j k' Hne; by rewrite cell_view_drop, decide_False|]. rewrite cell_view_drop, decide_True by done.
      split; [|done]. right. left. by exists old.
    + set (x := set_meta _ old). assert (Hm : obj_meta x = set_deletion (Some 1) (obj_meta old)) by apply obj_meta_set.
      assert (Hk : object_key x = object_key o) by (rewrite <- Hko; unfold object_key; by rewrite Hm).
      split; [intros j k' Hne; by rewrite cell_view_put, Hk, decide_False|]. rewrite cell_view_put, Hk, decide_True by done.
      assert (Hd : is_Some (deletion x)) by (unfold deletion; rewrite Hm; by eexists).
      split; [|by intros _ y [= <-]]. right. right. exists old, x. unfold finalizers. by rewrite Hm.
Qed.
End cells.

(** One store, seen without the name of its cluster. *)
Lemma at_store_unit {W O X Y} `{Object O} (view : string → NamespacedName → W → option O) (main : O → X) (status : O → Y) client i :
  at_store view main status client i → at_store (λ _ : unit, view i) main status client tt.
Proof.
  intros [H1 H2 H3 H4 H5 H6 H7].
  assert (He : ∀ k w w', elsewhere view i k w w' → elsewhere (λ _ : unit, view i) tt k w w').
  { intros k w w' He j k' Hne. apply He. intros [= ->]. apply Hne. by destruct j. }
  split.
  - intros k j k'. apply (H1 k i k').
  - exact H2.
  - exact H3.
  - intros o w z w' E. destruct (H4 o w z w' E) as [? ?]. eauto.
  - intros o w z w' E. destruct (H5 o w z w' E) as (? & ? & ?). eauto.
  - intros old new w z w' E Hv. destruct (H6 old new w z w' E Hv) as [? ?]. eauto.
  - intros o w z w' E. destruct (H7 o w z w' E) as (? & ? & ?). eauto.
Qed.

Definition once {W} (cond : M W bool) : M W unit := _ ← cond; mret tt.
Lemma once_keeps {W A} (v : W → A) cond : keeps v cond → keeps v (once cond).
Proof. intros Hc. unfold once. frame. Qed.

(** ** A synchronizer *)

Definition whole {O} (t w : cells O) : cells O := t.
Definition project_status (p s : Project) : Project := mkProject (pj_meta p) (pj_name p) (pj_phase s).
Definition project_store (name : string) : Client (cells Project) Project := cell_client id whole project_status name.
Definition project_sync : Synchronizer (cells Project) Project :=
  mkSynchronizer _ _ (project_store "master") (c_get (project_store "master"))
    [("europe", project_store "europe"); ("us", project_store "us")] (mem_retry _)
    (λ a b, String.eqb (pj_name a) (pj_name b)) once (λ _ _ w, w).

Lemma project_store_laws name : at_store (cell_view id) pj_name pj_phase (project_store name) name.
Proof. by apply cell_laws. Qed.
#[export] Program Instance project_world : SyncWorld (I := string) project_sync pj_name pj_phase :=
  {| sv_view := cell_view id; sv_master := "master"; sv_store := id |}.
Next Obligation. apply project_store_laws. Qed.
Next Obligation. intros n c [[= -> ->]|[[= -> ->]|[]%elem_of_nil]%elem_of_cons]%elem_of_cons; apply project_store_laws. Qed.
Next Obligation. intros. apply (cell_get_keeps id whole project_status). Qed.
Next Obligation. intros k w o w'. apply (cell_get_ok id whole project_status). Qed.
Next Obligation. intros k w e w' E _. exact (cell_get_missing id whole project_status _ _ _ _ _ E). Qed.
Next Obligation. intros. by apply once_keeps. Qed.
Next Obligation. done. Qed.
Next Obligation. intros a b. apply String.eqb_eq. Qed.
Next Obligation. done. Qed.
Next Obligation. done. Qed.

Definition meta_of (name uid : string) (labels : gmap string string) (refs : list OwnerReference) : ObjectMeta :=
  mkObjectMeta name "" uid labels ∅ [] refs 0 None "1".
Definition web : Project := mkProject (meta_of "p1" "uid-1" ∅ []) "web" ProjectActive.
Definition web_key : NamespacedName := mkKey "" "p1".
Definition master_only : cells Project := {[("master", web_key) := web]}.
Definition after {W A} (m : M W A) (w : W) : W := (m w).2.
Lemma ran {W A} (m : M W A) w z : (m w).1 = z → m w = (z, after m w).
Proof. unfold after. destruct (m w). by intros <-. Qed.

Definition replicated : cells Project := after (ProjectSync.Reconcile project_sync web_key) master_only.
Lemma replicated_ok : ProjectSync.Reconcile project_sync web_key master_only = (Ok tt, replicated).
Proof. apply ran. vm_compute. reflexivity. Qed.


(** ** Secrets of applications *)

(** A server that assigns resource versions and knows UIDs. *)
Definition secret_create (i : string) (o : Secret) : M (cells Secret) Secret := λ w,
  match cell_view id i (object_key o) w with
  | Some _ => (Err (ErrAPI ReasonAlreadyExists "already exists"), w)
  | None => if String.eqb (om_resourceVersion (do_meta o)) ""
            then let x := set_meta (set_resourceVersion "1" (do_meta o)) o in (Ok x, cell_put id whole i x w)
            else (Err (ErrNew "resourceVersion should not be set on objects to be created"), w)
  end.
Definition secret_update (i : string) (o : Secret) : M (cells Secret) Secret := λ w,
  match cell_view id i (object_key o) w with
  | None => (Err missing, w)
  | Some old => if String.eqb (om_uid (do_meta o)) "" || String.eqb (om_uid (do_meta o)) (om_uid (do_meta old))
                then (Ok o, cell_put id whole i o w)
                else (Err (ErrAPI ReasonConflict "Precondition failed: UID in precondition"), w)
  end.
Definition secret_base (i : string) : Client (cells Secret) Secret := cell_client id whole (λ o _, o) i.
Definition secret_store (i : string) : Client (cells Secret) Secret :=
  mkClient (c_get (secret_base i)) (c_list (secret_base i)) (secret_create i) (secret_update i) (c_patch (secret_base i))
    (c_status_patch (secret_base i)) (c_delete (secret_base i)).
Definition secret_sync (names : list string) : Synchronizer (cells Secret) Secret :=
  mkSynchronizer _ _ (secret_store "master") (c_get (secret_store "master")) (map (λ n, (n, secret_store n)) names) (mem_retry _)
    (λ a b, bool_decide (om_uid (do_meta a) = om_uid (do_meta b)) && bool_decide (do_data a = do_data b)) once (λ _ _ w, w).

Lemma secret_seed names n c : (n, c) ∈ sy_seeds (secret_sync names) → c = secret_store n.
Proof. intros (m & [= -> ->] & _)%list_elem_of_fmap. done. Qed.
#[export] Program Instance secret_world names : SecretStores (secret_sync names) := {| se_view := cell_view id |}.
Next Obligation. intros names n c k m k' ->%secret_seed. apply (cell_get_keeps id whole (λ o _, o)). Qed.
Next Obligation. intros names n c k w o w' ->%secret_seed E. by apply (cell_get_ok id whole (λ o _, o)) in E as [? _]. Qed.
Next Obligation. intros names n c k w e w' ->%secret_seed E _. exact (cell_get_missing id whole (λ o _, o) _ _ _ _ _ E). Qed.
Next Obligation.
  intros names n c o w z w' m k ->%secret_seed. simpl. unfold secret_create. destruct (cell_view _ _ _ _); [by intros [= _ <-]|].
  destruct (String.eqb _ ""); [|by intros [= _ <-]]. intros [= _ <-] Hne. rewrite cell_view_put, decide_False; [done|congruence|done].
Qed.
Next Obligation.
  intros names n c o w x w' ->%secret_seed. simpl. unfold secret_create. destruct (cell_view _ _ _ _); [done|].
  destruct (String.eqb_spec (om_resourceVersion (do_meta o)) ""); [|done]. by intros [= <- _].
Qed.
Next Obligation.
  intros names n c o old w z w' ->%secret_seed Hv Hne Huid. simpl. unfold secret_update. rewrite Hv.
  rewrite (proj2 (String.eqb_neq _ _) Hne), (proj2 (String.eqb_neq _ _) Huid). simpl. by intros [= <- <-].
Qed.
Next Obligation. simpl. intros names a b [Hu _]%andb_true_iff. by apply bool_decide_eq_true in Hu. Qed.
Next Obligation. intros. apply (cell_get_keeps id whole (λ o _, o)). Qed.
Next Obligation. intros. by apply once_keeps. Qed.
Next Obligation. done. Qed.

Definition credentials (uid password : string) : Secret :=
  mkDataObject (mkObjectMeta "helm" "kubermatic" uid ∅ ∅ [] [] 0 None "7") {["password" := password]}.
Definition helm : NamespacedName := mkKey "kubermatic" "helm".
Definition secret_on_master : cells Secret := {[("master", helm) := credentials "uid-m" "new"]}.
Definition secret_on_both : cells Secret := <[("europe", helm) := credentials "uid-e" "old"]> secret_on_master.

Lemma seen_on_master : cell_view id "master" helm secret_on_master = Some (credentials "uid-m" "new").
Proof. vm_compute. reflexivity. Qed.
Lemma seen_on_both : cell_view id "master" helm secret_on_both = Some (credentials "uid-m" "new").
Proof. vm_compute. reflexivity. Qed.
Lemma seen_on_seed : cell_view id "europe" helm secret_on_both = Some (credentials "uid-e" "old").
Proof. vm_compute. reflexivity. Qed.
Lemma unseen_on_seeds : cell_view id "europe" helm secret_on_master = None ∧ cell_view id "us" helm secret_on_master = None.
Proof. split; vm_compute; reflexivity. Qed.

(** No run for a secret that two seeds lack succeeds; a change of the password does not
    reach a seed. *)
Lemma application_secrets_stuck_witness :
  (ApplicationSecretSync.Reconcile (secret_sync ["europe"; "us"]) "kubermatic" helm secret_on_master).1 ≠ Ok tt ∧
  cell_view id "europe" helm (after (ApplicationSecretSync.Reconcile (secret_sync ["europe"]) "kubermatic" helm) secret_on_both) =
    Some (credentials "uid-e" "old").
Proof.
  split.
  - destruct (application_secrets_stuck (secret_sync ["europe"; "us"]) "kubermatic" helm secret_on_master
      (credentials "uid-m" "new") secret_on_master (cell_get_run id whole _ _ _ _ _ seen_on_master)) as [H _].
    destruct unseen_on_seeds as [H1 H2]. exact (H _ _ _ _ _ _ _ eq_refl ltac:(done) H1 H2 (ran _ _ _ eq_refl)).
  - destruct (application_secrets_stuck (secret_sync ["europe"]) "kubermatic" helm secret_on_both
      (credentials "uid-m" "new") secret_on_both (cell_get_run id whole _ _ _ _ _ seen_on_both)) as [_ H].
    exact (proj2 (H _ _ (credentials "uid-e" "old") _ _ eq_refl seen_on_seed ltac:(done) ltac:(done) (ran _ _ _ eq_refl))).
Defined.

(** ** Members of projects *)

Record MemberState := mkMemberState { ms_projects : cells Project; ms_users : list User; ms_bindings : cells UserProjectBinding }.
Definition set_projects (t : cells Project) (w : MemberState) : MemberState := mkMemberState t (ms_users w) (ms_bindings w).
Definition set_bindings (t : cells UserProjectBinding) (w : MemberState) : MemberState := mkMemberState (ms_projects w) (ms_users w) t.
Definition user_store : Client MemberState User :=
  mkClient (λ _, throw missing) (λ _ w, (Ok (ms_users w), w)) (λ _, throw missing) (λ _, throw missing) (λ _ _, throw missing)
    (λ _ _, throw missing) (λ _, throw missing).
Definition key_store : Client MemberState UserSSHKey :=
  mkClient (λ _, throw missing) (λ _ w, (Ok [], w)) (λ _, throw missing) (λ _, throw missing) (λ _ _, throw missing)
    (λ _ _, throw missing) (λ _, throw missing).
Definition projects_of : Client MemberState Project := cell_client ms_projects set_projects project_status "".
Definition bindings_of : Client MemberState UserProjectBinding := cell_client ms_bindings set_bindings (λ o _, o) "".
Definition member_clients : MemberClients MemberState :=
  mkMemberClients _ bindings_of projects_of user_store key_store (mem_retry _) (λ _, true) (λ _ w, ("x", w)) (λ _ _ w, w).

#[export] Program Instance member_world : MemberWorld member_clients :=
  {| mw_project := cell_view ms_projects ""; mw_users := ms_users |}.
Next Obligation. intros. by intros w z w' [= _ <-]. Qed.
Next Obligation. intros. by intros w z w' [= _ <-]. Qed.
Next Obligation. intros k w p w'. apply (cell_get_ok ms_projects set_projects project_status). Qed.
Next Obligation. intros k w e w' E _. exact (cell_get_missing ms_projects set_projects project_status _ _ _ _ _ E). Qed.
Next Obligation. intros. by intros w z w' [= _ <-]. Qed.
Next Obligation. by intros w l w' [= <- _]. Qed.
Next Obligation. done. Qed.
Next Obligation.
  intros old new w x w' E Hv. simpl in E. rewrite Hv in E. injection E as <- <-. eexists. rewrite cell_view_put by done.
  rewrite decide_True by done. by split.
Qed.
Next Obligation. intros. by intros w z w' [= _ <-]. Qed.
Next Obligation. intros b k'. by apply (cell_frame ms_bindings set_bindings (λ o _, o)). Qed.
Next Obligation. intros old new k' w z w'. simpl. destruct (cell_view _ _ _ _); by intros [= _ <-]. Qed.
Next Obligation. intros old new w x w'. simpl. destruct (cell_view _ _ _ _); [|done]. by intros [= <- _]. Qed.

Definition alice : User := mkUser (meta_of "u1" "uid-a" ∅ []) (mkUserSpec "1" "Alice" "Alice@example.com" false "" None None) (mkUserStatus 0).
Definition owner_binding : UserProjectBinding :=
  mkUserProjectBinding (meta_of "b1" "uid-b" ∅ []) (mkUserProjectBindingSpec "alice@example.com" "p1" "owners-p1").
Definition stale : OwnerReference := mkOwnerReference GroupVersion UserKindName "u1" "uid-before".
Definition bob : OwnerReference := mkOwnerReference GroupVersion UserKindName "u2" "uid-2".
Definition owned_web : Project := mkProject (meta_of "p1" "uid-1" ∅ [stale; bob]) "web" ProjectActive.
Definition members : MemberState := mkMemberState {[("", web_key) := owned_web]} [alice] {[("", mkKey "" "b1") := owner_binding]}.
Lemma owned_web_stored : cell_view ms_projects "" web_key members = Some owned_web.
Proof. vm_compute. reflexivity. Qed.

Lemma owner_ran : (BindingController.reconcile member_clients owner_binding members).1 = Ok tt.
Proof. vm_compute. reflexivity. Qed.
Lemma alice_bound : user_of owner_binding (ms_users members) = Some alice.
Proof. vm_compute. reflexivity. Qed.

(** A binding of the owners: the stale reference is replaced, the other owner stays. *)
Lemma binding_ownership_witness : ∃ p',
  cell_view ms_projects "" web_key (after (BindingController.reconcile member_clients owner_binding) members) = Some p' ∧
  owned_by alice true owned_web p'.
Proof.
  exact (binding_ownership member_clients owner_binding members _ owned_web alice
    (ran _ _ _ owner_ran) owned_web_stored alice_bound).
Defined.

Definition departed : UserProjectBinding :=
  set_meta (set_deletion (Some 5) (ub_meta owner_binding)) (mkUserProjectBinding (ub_meta owner_binding) (mkUserProjectBindingSpec "carol@example.com" "p1" "owners-p1")).

(** A deleted binding of a user that is gone keeps its finalizer. *)
Lemma binding_without_user_stuck_witness :
  (BindingController.reconcile member_clients departed members).1 ≠ Ok tt ∧
  ms_bindings (after (BindingController.reconcile member_clients departed) members) = ms_bindings members.
Proof.
  apply (binding_without_user_stuck member_clients ms_bindings departed members owned_web
    (BindingController.reconcile member_clients departed members).1
    (after (BindingController.reconcile member_clients departed) members)).
  - by intros k w z w' [= _ <-].
  - by intros o w z w' [= _ <-].
  - exact owned_web_stored.
  - vm_compute. reflexivity.
  - exact (ran _ _ _ eq_refl).
Defined.

(** ** Labels of projects *)

Definition cluster_status (c s : Cluster) : Cluster := set_cl_status (cl_status s) c.
Definition cluster_store (n : string) : Client (cells Cluster) Cluster := cell_client id whole cluster_status n.
Definition belongs (project : string) (c : Cluster) : Prop :=
  om_labels (cl_meta c) !! ProjectIDLabelKey = Some project ∧ om_labels (cl_meta c) !! WorkerNameLabelKey = None.
#[local] Instance belongs_dec project c : Decision (belongs project c).
Proof. unfold belongs. apply _. Defined.
Definition label_seed (n : string) : LabelSeed (cells Cluster) :=
  mkLabelSeed _ (cluster_store n) (λ project w, (Ok (cell_list id n (belongs project) w), w)).
Definition labelled_web : Project := mkProject (meta_of "p1" "uid-1" {["tier" := "gold"; WorkerNameLabelKey := "mine"]} []) "web" ProjectActive.
Definition one_project : Client (cells Cluster) Project :=
  mkClient (λ _ w, (Ok labelled_web, w)) (λ _ w, (Ok [labelled_web], w)) (λ _, throw missing) (λ _, throw missing) (λ _ _, throw missing)
    (λ _ _, throw missing) (λ _, throw missing).
Definition label_env : LabelEnv (cells Cluster) :=
  mkLabelEnv _ one_project [("europe", label_seed "europe"); ("us", label_seed "us")] (mem_retry _) (λ _, true) map_to_list.
Definition labels_of (n : string) (k : NamespacedName) (w : cells Cluster) : option (gmap string string) :=
  om_labels ∘ cl_meta <$> cell_view id n k w.

Lemma label_seed_in n s : (n, s) ∈ lb_seeds label_env → s = label_seed n.
Proof. by intros [[= -> ->]|[[= -> ->]|[]%elem_of_nil]%elem_of_cons]%elem_of_cons. Qed.

#[export] Program Instance label_world : LabelWorld label_env := {| lw_labels := labels_of; lw_worker := "" |}.
Next Obligation. repeat constructor; set_solver. Qed.
Next Obligation. done. Qed.
Next Obligation. intros. by intros w z w' [= _ <-]. Qed.
Next Obligation. intros n s p m k' ->%label_seed_in. by intros w z w' [= _ <-]. Qed.
Next Obligation.
  intros n s p w l w' ->%label_seed_in [= <- _]. split; [apply cell_list_keys|]. split.
  - intros c [Hv _]%cell_list_elem. unfold labels_of. by rewrite Hv.
  - intros k L HL [Hp Hw]. unfold labels_of in HL. destruct (cell_view id n k w) as [c|] eqn:Ev; [|done]. injection HL as <-.
    pose proof (cell_view_key _ _ _ _ _ Ev) as <-. exists c. split; [|done]. by apply cell_list_elem.
Qed.
Next Obligation. intros n s k m k' ->%label_seed_in. apply (cell_get_keeps id whole cluster_status). Qed.
Next Obligation.
  intros n s old new m k' ->%label_seed_in w z w'. simpl. destruct (cell_view id n (object_key old) w) as [x|] eqn:Ev; intros [= _ <-]; [|done].
  unfold labels_of. rewrite cell_view_put by done. pose proof (cell_view_key _ _ _ _ _ Ev) as Hk.
  change (object_key (cluster_status x new)) with (object_key x). destruct (decide _) as [Heq|]; [|done].
  rewrite Hk in Heq. apply pair_eq in Heq as [-> ->]. by rewrite Ev.
Qed.
Next Obligation.
  intros n s old new w z w' ->%label_seed_in. simpl. unfold labels_of at 1. destruct (cell_view id n (object_key old) w) as [x|] eqn:Ev; [|done].
  intros [= <- <-] Hl Hk. unfold labels_of. split.
  - intros m k Hne. rewrite cell_view_put by done. by rewrite decide_False.
  - right. rewrite cell_view_put by done. by rewrite decide_True.
Qed.

Definition prod_labels : gmap string string := {[ProjectIDLabelKey := "p1"; "tier" := "bronze"; "team" := "a"]}.
Definition prod : Cluster := set_meta (set_name "prod" (set_labels prod_labels (cl_meta plain_cluster))) plain_cluster.
Definition seeds_before : cells Cluster := {[("europe", object_key prod) := prod]}.
Definition seeds_after : cells Cluster := after (LabelSync.Reconcile label_env web_key) seeds_before.
Lemma prod_stored : labels_of "europe" (object_key prod) seeds_before = Some prod_labels.
Proof. vm_compute. reflexivity. Qed.
Lemma labels_ran : (LabelSync.Reconcile label_env web_key seeds_before).1 = Ok tt.
Proof. vm_compute. reflexivity. Qed.

(** The cluster takes the tier of the project and keeps its own team; the label of the
    worker stays away. *)
Lemma label_inheritance_witness : ∃ L, labels_of "europe" (object_key prod) seeds_after = Some L ∧ map_str L "tier" = "gold" ∧
  relabelled (om_labels (pj_meta labelled_web)) (Some prod_labels) (Some L).
Proof.
  destruct (label_inheritance label_env web_key labelled_web seeds_before seeds_before (Ok tt) seeds_after eq_refl (ran _ _ _ labels_ran))
    as [Hrel Hok].
  destruct (Hok eq_refl ltac:(done) "europe" (label_seed "europe") (object_key prod) prod_labels ltac:(left) prod_stored ltac:(by split))
    as (L & HL & Hi).
  exists L. split; [exact HL|]. split; [apply Hi; vm_compute; reflexivity|].
  specialize (Hrel "europe" (object_key prod)). change (lw_labels (LabelWorld := label_world)) with labels_of in *.
  rewrite prod_stored, HL in Hrel. exact Hrel.
Defined.
