(* ===== verification/WitnessSeed.v ===== *)
(** * Concrete runs of the seed controllers

    Stores in memory for seeds, projects, instances of templates and addons, and the
    theorems at work on them. *)

From S2P Require Import Prelude ResourceNames Kube Semver Net CloudApi ClusterApi Helper Corev1 Field ClusterDefaulting ClusterValidation Rbac RbacSync Reconciling ClusterDeletion MasterApi MasterSync MasterSyncSpec ProjectMembers SeedAdmission SeedProjects SeedProjectsSpec Addons Memory Samples WitnessMaster.

(** ** Seeds *)

Record Platform := mkPlatform { pf_seeds : gmap string Seed; pf_clusters : list Cluster }.
Definition no_client {W O} : Client W O :=
  mkClient (λ _, throw missing) (λ _, mret []) (λ _, throw missing) (λ _, throw missing) (λ _ _, throw missing)
    (λ _ _, throw missing) (λ _, throw missing).
Definition platform_clusters : Client Platform Cluster :=
  mkClient (λ _, throw missing) (λ _ w, (Ok (pf_clusters w), w)) (λ _, throw missing) (λ _, throw missing) (λ _ _, throw missing)
    (λ _ _, throw missing) (λ _, throw missing).
Definition seed_validator : SeedValidator Platform :=
  mkSeedValidator _ (λ w, (Ok (pf_seeds w), w)) (λ _, mret (mkSeedClient _ platform_clusters no_client)) ∅
    (λ V m, map_to_list m) (λ _, Ok tt).
#[export] Program Instance platform_world : SeedWorld seed_validator := {| vw_seeds := pf_seeds; vw_clusters _ := pf_clusters |}.
Next Obligation. done. Qed.
Next Obligation. by intros w m w' [= <- _]. Qed.
Next Obligation. by intros s w z w' [= _ <-]. Qed.
Next Obligation. by intros s s' w z w' [= _ <-]. Qed.
Next Obligation. intros s w c w1 w2 l w3 [= <- _] [= <- _]. done. Qed.

Definition plain_seed (name : string) (dcs : gmap string Datacenter) : Seed :=
  mkSeed name "kubermatic" None dcs empty_proxy ExposeStrategyNodePort (empty_components "") "" None ∅.
Definition europe : Seed := plain_seed "europe" {["dc-1" := aws_datacenter]}.
Definition america : Seed := plain_seed "america" {["dc-2" := hetzner_datacenter]}.
Definition one_seed : gmap string Seed := <["europe" := europe]> ∅.
Definition two_seeds : gmap string Seed := <["america" := america]> one_seed.

Lemma accepted m seed cs : (SeedWebhook.validate seed_validator seed false (mkPlatform m cs)).1 = Ok tt →
  seed_step (W := Platform) cs m (<[seed_name seed := seed]> m).
Proof.
  intros E. exact (accepted_put cs m _ seed_validator _ seed (mkPlatform m cs) _ eq_refl (ran _ _ _ E) eq_refl eq_refl).
Qed.
Lemma europe_accepted : (SeedWebhook.validate seed_validator europe false (mkPlatform ∅ [])).1 = Ok tt.
Proof. vm_compute. reflexivity. Qed.
Lemma america_accepted : (SeedWebhook.validate seed_validator america false (mkPlatform one_seed [])).1 = Ok tt.
Proof. vm_compute. reflexivity. Qed.

(** A seed with a datacenter of another one is refused. *)
Lemma copy_refused : (SeedWebhook.validate seed_validator (plain_seed "asia" {["dc-1" := aws_datacenter]}) false (mkPlatform two_seeds [])).1 ≠ Ok tt.
Proof. vm_compute. discriminate. Qed.

Lemma seed_admission_witness : seeds_ok two_seeds.
Proof.
  refine (proj1 (seed_admission (W := Platform) two_seeds _)).
  eapply rtc_l; [exists []; exact (accepted ∅ europe [] europe_accepted)|].
  apply rtc_once. exists []. exact (accepted one_seed america [] america_accepted).
Defined.

(** ** Projects *)

Record SeedState := mkSeedState { ss_projects : cells Project; ss_clusters : cells Cluster }.
Definition with_projects (t : cells Project) (w : SeedState) : SeedState := mkSeedState t (ss_clusters w).
Definition with_clusters (t : cells Cluster) (w : SeedState) : SeedState := mkSeedState (ss_projects w) t.
Definition seed_projects : Client SeedState Project := cell_client ss_projects with_projects project_status "".
Definition labelled (opts : ListOptions) (c : Cluster) : Prop := forallb (label_matches (cl_meta c)) (lo_labels opts) = true.
#[local] Instance labelled_dec opts c : Decision (labelled opts c).
Proof. unfold labelled. apply _. Defined.
Definition cluster_base : Client SeedState Cluster := cell_client ss_clusters with_clusters cluster_status "".
Definition seed_clusters : Client SeedState Cluster :=
  mkClient (c_get cluster_base) (λ opts w, (Ok (cell_list ss_clusters "" (labelled opts) w), w)) (c_create cluster_base) (c_update cluster_base)
    (c_patch cluster_base) (c_status_patch cluster_base) (c_delete cluster_base).

#[export] Program Instance cleanup_world : CleanupWorld seed_projects seed_clusters (λ _ _ w, w) :=
  {| pw_project _ := cell_view ss_projects ""; pw_cluster := cell_view ss_clusters "" |}.
Next Obligation. by apply (at_store_unit (cell_view ss_projects)), cell_laws. Qed.
Next Obligation. done. Qed.
Next Obligation. done. Qed.
Next Obligation. by intros k k' w z w' [= _ <-]. Qed.
Next Obligation.
  intros p k' w z w'. simpl. unfold cell_update. destruct (cell_view ss_projects _ _ _); [|by intros [= _ <-]].
  repeat case_match; by intros [= _ <-].
Qed.
Next Obligation. by intros o i k w z w' [= _ <-]. Qed.
Next Obligation. by intros o k w z w' [= _ <-]. Qed.
Next Obligation.
  intros p w l w' [= <- _] k c. rewrite cell_list_elem. unfold labelled, label_matches. simpl. rewrite andb_true_r, bool_decide_eq_true. split.
  - intros (<- & Hv & Hl). by split.
  - intros [Hv Hl]. pose proof (cell_view_key _ _ _ _ _ Hv) as <-. by split_and!.
Qed.
Next Obligation. intros o w l w' [= <- _]. apply cell_list_keys. Qed.
Next Obligation.
  intros c i k w z w'. simpl. unfold cell_delete. destruct (cell_view ss_clusters _ _ _); [|by intros [= _ <-]].
  destruct (om_finalizers _); by intros [= _ <-].
Qed.
Next Obligation.
  intros c w z w' E.
  assert (at_store (cell_view ss_clusters) cl_spec cl_status cluster_base "") as [_ _ _ _ _ _ H7] by (by apply cell_laws). destruct (H7 c w z w' E) as (He & Hd & Hg).
  split; [intros k Hne; apply He; congruence|]. split.
  - destruct Hd as [?|[(old & _ & _ & Hn)|(old & x & _ & Hx & _ & Hdx)]]; [by left|right..].
    + intros y. by rewrite Hn.
    + intros y. rewrite Hx. by intros [= <-].
  - intros ->. intros y. apply Hg. by left.
Qed.

Definition dying_web : Project :=
  mkProject (mkObjectMeta "p1" "" "uid-1" ∅ ∅ [ProjectCleanup.CleanupFinalizer] [] 0 (Some 5) "1") "web" ProjectActive.
Definition with_cluster : SeedState := mkSeedState {[("", web_key) := dying_web]} {[("", object_key prod) := prod]}.
Definition cleanup_run_of : M SeedState unit := ProjectCleanup.Reconcile seed_projects seed_clusters (mem_retry _) (λ _ _ w, w) web_key.
Lemma dying_stored : cell_view ss_projects "" web_key with_cluster = Some dying_web.
Proof. vm_compute. reflexivity. Qed.
Lemma prod_of_project : of_project seed_projects seed_clusters (λ _ _ w, w) "p1" with_cluster (object_key prod).
Proof. exists prod. split; vm_compute; reflexivity. Qed.
Lemma cleanup_ran : (cleanup_run_of with_cluster).1 = Ok tt.
Proof. vm_compute. reflexivity. Qed.

(** The cluster of the deleted project goes first, the project stays. *)
Lemma project_cleanup_witness : gone (cell_view ss_clusters "" (object_key prod) (after cleanup_run_of with_cluster)) ∧
  cell_view ss_projects "" web_key (after cleanup_run_of with_cluster) = Some dying_web.
Proof.
  pose proof (project_cleanup seed_projects seed_clusters (mem_retry _) (λ _ _ w, w) web_key dying_web with_cluster (Ok tt)
    (after cleanup_run_of with_cluster)) as Hrun. destruct (Hrun dying_stored (ran _ _ _ cleanup_ran)) as (_ & _ & Hdel).
  destruct (Hdel ltac:(by eexists)) as [Hkeep Hok]. split.
  - exact (proj1 (Hok eq_refl) _ prod_of_project).
  - apply Hkeep. exists (object_key prod). exact prod_of_project.
Defined.

(** ** Instances of templates *)

Record TemplateState := mkTemplateState { ts_instances : cells ClusterTemplateInstance; ts_clusters : gmap NamespacedName Cluster }.
Definition with_instances (t : cells ClusterTemplateInstance) (w : TemplateState) : TemplateState := mkTemplateState t (ts_clusters w).
Definition instance_store : Client TemplateState ClusterTemplateInstance := cell_client ts_instances with_instances (λ o _, o) "".
Definition some_template : ClusterTemplate :=
  mkClusterTemplate (meta_of "t1" "uid-t" ∅ []) ∅ ∅ "" [] (cl_spec plain_cluster).
Definition template_store : Client TemplateState ClusterTemplate :=
  mkClient (λ _, mret some_template) (λ _, mret []) (λ _, throw missing) (λ _, throw missing) (λ _ _, throw missing)
    (λ _ _, throw missing) (λ _, throw missing).
Definition template_env : TemplateEnv TemplateState :=
  mkTemplateEnv _ instance_store template_store no_client no_client "" (λ _ _, throw (ErrNew "secret not found"))
    (λ _ w, ("x", w)) (mem_retry _) (λ _ _, false) once (λ _ _ w, w).
#[export] Program Instance template_world : InstanceWorld template_env :=
  {| iw_instance := cell_view ts_instances ""; iw_clusters := ts_clusters |}.
Next Obligation. intros k w. do 2 eexists. split; [reflexivity|]. split_and!; [done..|]. by intros i ->. Qed.
Next Obligation. intros k k' w. by exists some_template, w. Qed.
Next Obligation. done. Qed.
Next Obligation. done. Qed.
Next Obligation.
  intros old new w Hk Hv. simpl. rewrite Hv. do 2 eexists. split; [reflexivity|]. split; [done|]. rewrite cell_view_put by done.
  rewrite decide_True by done. eexists. by split_and!.
Qed.
Next Obligation.
  intros i w Hv Hf. simpl. unfold cell_delete. rewrite Hv. unfold finalizers in Hf. simpl in Hf. simpl. rewrite Hf.
  eexists. split; [reflexivity|]. split; [done|]. rewrite cell_view_drop by done. by rewrite decide_True.
Qed.

Definition asked : ClusterTemplateInstance :=
  mkInstance (meta_of "i1" "uid-i" ∅ []) (mkInstanceSpec "p1" "t1" "template" 2).
Definition before : TemplateState := mkTemplateState {[("", mkKey "" "i1") := asked]} ∅.
Lemma asked_stored : cell_view ts_instances "" (mkKey "" "i1") before = Some asked.
Proof. vm_compute. reflexivity. Qed.

Lemma no_secret t c w : ∃ e w', te_credentials template_env t c w = (Err e, w') ∧ iw_clusters w' = iw_clusters w ∧
  iw_instance (mkKey "" "i1") w' = iw_instance (mkKey "" "i1") w.
Proof. by exists (ErrNew "secret not found"), w. Qed.

(** Two clusters were asked for; three failing runs later the instance is gone. *)
Lemma template_instances_vanish_witness :
  cell_view ts_instances "" (mkKey "" "i1") (many template_env 3 (mkKey "" "i1") before) = None ∧
  ts_clusters (many template_env 3 (mkKey "" "i1") before) = ∅.
Proof.
  pose proof (template_instances_vanish template_env (mkKey "" "i1")) as Hrun. specialize (Hrun no_secret 2%nat before).
  apply Hrun. exists asked. split; [exact asked_stored|]. by split_and!.
Defined.

(** ** Addons *)

Definition addon_status (a s : Addon) : Addon := mkAddon (ad_meta a) (ad_spec a) (ad_status s).
Definition addon_store : Client (cells Addon) Addon := cell_client id whole addon_status "".
Definition default_in (ns : string) (a : Addon) : Prop := om_namespace (ad_meta a) = ns ∧ ad_isDefault (ad_spec a) = true.
#[local] Instance default_in_dec ns a : Decision (default_in ns a).
Proof. unfold default_in. apply _. Defined.
Definition until {W} (cond : M W bool) : M W unit := b ← cond; if (b : bool) then mret tt else throw (ErrNew "timed out").
#[local] Instance GroupVersionKind_eq_dec : EqDecision GroupVersionKind.
Proof. solve_decision. Defined.
Definition addon_equal (a b : Addon) : bool :=
  bool_decide (om_labels (ad_meta a) = om_labels (ad_meta b)) && bool_decide (om_annotations (ad_meta a) = om_annotations (ad_meta b)) &&
  bool_decide (ad_variables (ad_spec a) = ad_variables (ad_spec b)) &&
  bool_decide (ad_requiredResourceTypes (ad_spec a) = ad_requiredResourceTypes (ad_spec b)).
Definition addon_env : AddonEnv (cells Addon) :=
  mkAddonEnv _ no_client addon_store (λ ns w, (Ok (cell_list id "" (default_in ns) w), w))
    (mret (mkAddonsConfiguration ["canal"; "rbac"] "" "" "")) (λ _, Ok []) addon_equal until (mem_retry _) (λ w, (0, w)) (λ _ _ _ w, w) ""
    sample_versions.

#[export] Program Instance addon_world : AddonWorld addon_env := {| xw_view := cell_view id "" |}.
Next Obligation. intros. apply (cell_get_keeps id whole addon_status). Qed.
Next Obligation. intros k w a w'. apply (cell_get_ok id whole addon_status). Qed.
Next Obligation. intros k w e w' E _. exact (cell_get_missing id whole addon_status _ _ _ _ _ E). Qed.
Next Obligation. by intros k w z w' [= _ <-]. Qed.
Next Obligation.
  intros a w z w'. simpl. destruct (cell_view id "" (object_key a) w) eqn:Ev; intros [= <- <-]; [split; [done|by left]|]. split.
  - intros k Hne. rewrite cell_view_put by done. rewrite decide_False; [done|congruence].
  - right. exists a. rewrite cell_view_put by done. by rewrite decide_True.
Qed.
Next Obligation.
  intros cond w z w' Hc E. simpl in E. apply bind_run in E as [(b & w1 & E1 & E)|[(z1 & E1 & _) Hno]].
  - assert (w' = w1) as -> by (destruct b; by injection E). split; [intros k; by apply (Hc k) in E1|].
    intros ->. destruct b; [|done]. by exists w, w1.
  - split; [intros k; by apply (Hc k) in E1|]. intros ->. by destruct (Hno tt).
Qed.
Next Obligation.
  intros old new w z w'. simpl. intros E Hk Hv. rewrite Hv in E. injection E as <- <-. split.
  - intros k Hne. rewrite cell_view_put by done. rewrite decide_False; [done|]. intros Heq%(f_equal snd). by apply Hne.
  - right. rewrite cell_view_put by done. rewrite decide_True by done. eexists. by split_and!.
Qed.
Next Obligation. by intros ns k w z w' [= _ <-]. Qed.
Next Obligation.
  intros ns w l w' [= <- _] k a. rewrite cell_list_elem. unfold default_in. simpl. split.
  - by intros (<- & Hv & Hl).
  - intros (Hv & Hn & Hd). pose proof (cell_view_key _ _ _ _ _ Hv) as <-. by split_and!.
Qed.
Next Obligation. intros ns w l w' [= <- _]. apply cell_list_keys. Qed.
Next Obligation.
  intros a w z w' E. assert (at_store (cell_view id) ad_spec ad_status addon_store "") as [_ _ _ _ _ _ H7] by (by apply cell_laws).
  destruct (H7 a w z w' E) as (He & _ & Hg). split; [intros k Hne; apply He; congruence|]. intros Hz y. by apply Hg.
Qed.
Next Obligation.
  intros a b [[[H1 H2]%andb_true_iff H3]%andb_true_iff H4]%andb_true_iff.
  apply bool_decide_eq_true in H1, H2, H3, H4. by split_and!.
Qed.

Definition retired : Addon :=
  mkAddon (mkObjectMeta "logrotate" "cluster-abc" "u" ∅ ∅ [] [] 0 None "1")
    (mkAddonSpec "logrotate" (mkObjectReference "Cluster" "" "abc" "u" "") None [] true) (mkAddonStatus ∅).
Definition addons_before : cells Addon := {[("", mkKey "cluster-abc" "logrotate") := retired]}.
Definition configured : list Addon := map (namedAddon []) ["canal"; "rbac"].
Lemma config_read : getAddons addon_env addons_before = (Ok configured, addons_before).
Proof. reflexivity. Qed.
Lemma configured_distinct : NoDup (map (λ a, om_name (ad_meta a)) configured).
Proof. repeat constructor; set_solver. Qed.
Lemma addons_ran : (addon_reconcile addon_env plain_cluster addons_before).1 = Ok None.
Proof. vm_compute. reflexivity. Qed.

(** Both configured addons are there, and the addon that is not configured any more is
    not, unless it is being deleted. *)
Lemma addons_installed_witness : (∀ a, a ∈ wanted plain_cluster configured →
    as_configured a (cell_view id "" (addon_key plain_cluster a) (after (addon_reconcile addon_env plain_cluster) addons_before))) ∧
  ∀ x, cell_view id "" (mkKey "cluster-abc" "logrotate") (after (addon_reconcile addon_env plain_cluster) addons_before) = Some x →
    ad_isDefault (ad_spec x) = true → is_Some (deletion x).
Proof.
  pose proof (addons_installed addon_env plain_cluster configured addons_before addons_before (Ok None)
    (after (addon_reconcile addon_env plain_cluster) addons_before)) as Hrun.
  destruct (Hrun config_read configured_distinct (ran _ _ _ addons_ran)) as (_ & _ & Hok).
  destruct (Hok eq_refl) as [H1 H2]. split; [exact H1|]. intros x Hx Hd.
  destruct (H2 (mkKey "cluster-abc" "logrotate") x eq_refl Hx Hd) as [(a & Ha & Hk)|]; [|done].
  exfalso. apply list_elem_of_In in Ha. simpl in Ha. destruct Ha as [<-|[<-|[]]]; discriminate Hk.
Defined.
