(* ===== verification/WitnessSync.v ===== *)
(** * Concrete runs of the controllers of seeds and constraints

    Stores in memory for seeds, configurations and constraints, and the theorems at work
    on them. *)

From S2P Require Import Prelude ResourceNames Kube Semver Net CloudApi ClusterApi Helper Corev1 Field ClusterDefaulting Rbac RbacSync Reconciling ClusterDeletion ClusterHealth MasterApi MasterSync MasterSyncSpec SeedSync SeedSyncSpec ProjectMembers SeedProjects SeedProjectsSpec Constraints ConstraintsSpec Memory Samples WitnessMaster.

(** ** Seeds *)

Record SeedsState := mkSeedsState { sst_seeds : cells SeedObject; sst_configs : cells ConfigObject }.
Definition put_seeds (t : cells SeedObject) (w : SeedsState) : SeedsState := mkSeedsState t (sst_configs w).
Definition put_configs (t : cells ConfigObject) (w : SeedsState) : SeedsState := mkSeedsState (sst_seeds w) t.
Definition seed_status (o s : SeedObject) : SeedObject := set_seed_status (sd_status s) o.
Definition same_object {O} (o _ : O) : O := o.

Definition in_namespace (ns : string) (c : ConfigObject) : Prop := om_namespace (so_meta c) = ns.
#[local] Instance in_namespace_dec ns c : Decision (in_namespace ns c).
Proof. unfold in_namespace. apply _. Defined.
Definition config_base (i : string) : Client SeedsState ConfigObject := cell_client sst_configs put_configs same_object i.
Definition seed_conn (i : string) : SeedConn SeedsState :=
  mkSeedConn (cell_client sst_seeds put_seeds seed_status i)
    (mkClient (c_get (config_base i)) (λ o w, (Ok (cell_list sst_configs i (in_namespace (lo_namespace o)) w), w)) (c_create (config_base i))
       (c_update (config_base i)) (c_patch (config_base i)) (c_status_patch (config_base i)) (c_delete (config_base i)))
    (mkClient (λ _, throw missing) (λ _, mret []) (λ _, throw missing) (λ _, throw missing) (λ _ _, throw missing) (λ _ _, throw missing)
       (λ _, throw missing))
    (mret [emptyMeta; emptyMeta]).

(** The seed of Europe has a cluster of its own, others share that of the master. *)
Definition cluster_of (name : string) : string := if String.eqb name "europe" then "europe" else "master".
Definition seed_env : SeedEnv SeedsState :=
  mkSeedEnv _ (seed_conn "master") (λ s, mret (seed_conn (cluster_of (om_name (sd_meta s))))) (λ _, mret "kubeconfig") (λ _, mret "v1.22.5")
    sample_versions (mem_retry _) (λ w, (7, w)) (λ _ _, false) (λ _ _, false) once (λ _ _ w, w).

Lemma seed_conn_laws i : conn_at (cell_view sst_seeds) (cell_view sst_configs) (seed_conn i) i.
Proof.
  assert (Hc : at_store (cell_view sst_configs) config_main no_status (config_base i) i) by (by apply cell_laws).
  destruct Hc as [C1 C2 C3 C4 C5 C6 C7].
  split; [by apply cell_laws|by split|..].
  1-4: intros x j k; by apply (cell_frame sst_seeds put_seeds seed_status).
  all: intros x j k; by apply (cell_frame sst_configs put_configs same_object).
Qed.
#[export] Program Instance seed_stores : SeedStores (I := string) seed_env :=
  {| sz_seed := cell_view sst_seeds; sz_config := cell_view sst_configs; sz_master := "master"; sz_store := cluster_of |}.
Next Obligation. apply seed_conn_laws. Qed.
Next Obligation. intros s w c w' [= <- _]. apply seed_conn_laws. Qed.
Next Obligation. by intros s j k w z w' [= _ <-]. Qed.
Next Obligation. by intros s j k w z w' [= _ <-]. Qed.
Next Obligation. by intros s j k w z w' [= _ <-]. Qed.
Next Obligation. by intros s j k w z w' [= _ <-]. Qed.
Next Obligation.
  intros ns w l w' [= <- _] k c. rewrite cell_list_elem. unfold in_namespace. simpl. split.
  - by intros (<- & Hv & <-).
  - intros [Hn Hv]. pose proof (cell_view_key _ _ _ _ _ Hv) as <-. by split_and!.
Qed.
Next Obligation. intros o w l w' [= <- _]. apply cell_list_keys. Qed.
Next Obligation. done. Qed.
Next Obligation. done. Qed.
Next Obligation. intros. by apply once_keeps. Qed.
Next Obligation. done. Qed.
Next Obligation. done. Qed.
#[export] Program Instance seed_probes : SeedProbes seed_env :=
  {| sq_probes _ _ _ := mkProbe NoNamespace (Some "v1.22.5") (Some 2%nat) |}.
Next Obligation. by intros s w z w' [= <- <-]. Qed.
Next Obligation. by intros s w0 c w1 w z w' [= <- _] [= <- <-]. Qed.
Next Obligation. by intros s w0 c w1 w z w' [= <- _] [= <- <-]. Qed.
Next Obligation. by intros s w z w' [= <- <-]. Qed.
Next Obligation. by intros s w0 c w1 w z w' [= <- _] [= <- <-]. Qed.
Next Obligation. done. Qed.
Next Obligation. done. Qed.
Next Obligation. done. Qed.

Definition some_seed_spec : SeedSpec :=
  mkSeedSpec (mkObjectReference "" "kubeconfig-europe" "") None ∅ empty_proxy ExposeStrategyNodePort (empty_components "") "" None ∅.
Definition no_seed_status : SeedStatus := mkSeedStatus "" 0 (mkSeedVersionsStatus "" "") ∅.
Definition seed_named (name : string) (finalizers : list string) (deleted : option Z) : SeedObject :=
  mkSeedObject (mkObjectMeta name "kubermatic" "uid-s" ∅ ∅ finalizers [] 0 deleted "1") some_seed_spec no_seed_status.
Definition the_config : ConfigObject :=
  mkSpecObject (mkObjectMeta "kubermatic" "kubermatic" "uid-c" ∅ ∅ [] [] 0 None "1")
    (mkKubermaticConfiguration "NodePort" (mkUserClusterConfiguration "30000-32767" false "5Gi" None) sample_updates).
Definition seed_key (name : string) : NamespacedName := mkKey "kubermatic" name.
Definition seeds_with (s : SeedObject) : SeedsState :=
  mkSeedsState {[("master", object_key s) := s]} {[("master", object_key the_config) := the_config]}.
Definition sync_run (name : string) : M SeedsState Result :=
  SeedCopies.Reconcile seed_env (seed_named "" [] None) the_config (seed_key name).

Lemma the_only_config s : only_config seed_env "kubermatic" the_config (seeds_with s).
Proof.
  split; [done|]. intros k d _. unfold sz_config, seed_stores, cell_view. simpl. split.
  - destruct (decide (("master", object_key the_config) = ("master", k))) as [Heq|Hne].
    + injection Heq as <-. rewrite lookup_singleton_eq. by intros [= <-].
    + by rewrite lookup_singleton_ne.
  - intros [-> ->]. by rewrite lookup_singleton_eq.
Qed.
Lemma seed_stored s : cell_view sst_seeds "master" (object_key s) (seeds_with s) = Some s.
Proof. unfold cell_view. simpl. rewrite lookup_singleton_eq. simpl. by rewrite decide_True. Qed.

Definition europe : SeedObject := seed_named "europe" ["other"] None.
Definition shared : SeedObject := seed_named "shared" [SeedCopies.CleanupFinalizer] (Some 5).
Lemma europe_ran : (sync_run "europe" (seeds_with europe)).1 = Ok emptyResult.
Proof. vm_compute. reflexivity. Qed.
Lemma shared_ran : (sync_run "shared" (seeds_with shared)).1 = Ok (mkResult false (3 * Second)).
Proof. vm_compute. reflexivity. Qed.

(** The seed and the configuration are copied to the cluster of the seed, and the seed
    has its guard. *)
Lemma seed_copies_witness : let w' := after (sync_run "europe") (seeds_with europe) in
  same_main seed_main (seed_copy europe) (cell_view sst_seeds "europe" (seed_key "europe") w') ∧
  same_main config_main (config_copy the_config) (cell_view sst_configs "europe" (object_key the_config) w') ∧
  ∃ y, cell_view sst_seeds "master" (seed_key "europe") w' = Some y ∧ SeedCopies.CleanupFinalizer ∈ finalizers y.
Proof.
  pose proof (seed_copies seed_env (seed_named "" [] None) the_config (seed_key "europe") europe the_config (seeds_with europe)
    (Ok emptyResult) (after (sync_run "europe") (seeds_with europe))) as Hrun.
  destruct (Hrun (seed_stored europe) (the_only_config europe) (ran _ _ _ europe_ran)) as (_ & _ & Hlive & _).
  destruct (Hlive eq_refl) as [_ Hok]. destruct (Hok _ eq_refl) as (H1 & H2 & H3). by split_and!.
Defined.

(** One run takes the configuration of the master, and the seed is still there after the
    next. *)
Lemma shared_seed_stuck_witness : let w' := after (sync_run "shared") (seeds_with shared) in
  gone (cell_view sst_configs "master" (object_key the_config) w') ∧
  cell_view sst_seeds "master" (seed_key "shared") (after (sync_run "shared") w') = Some shared.
Proof.
  pose proof (shared_seed_stuck seed_env (seed_named "" [] None) the_config (seed_key "shared") shared (seeds_with shared)) as Hrun.
  destruct (Hrun eq_refl (seed_stored shared) ltac:(by eexists) ltac:(left)) as (_ & Hgo & Hstay). split.
  - exact (Hgo _ _ _ (the_only_config shared) ltac:(by intros f ?%list_elem_of_singleton) (ran _ _ _ shared_ran)).
  - apply Hstay. eapply rtc_l; [left; eexists; exact (ran _ _ _ shared_ran)|]. apply rtc_once. left. eexists. exact (ran _ _ _ eq_refl).
Defined.

(** The namespace of the seed is not there yet: the seed is invalid; its two clusters are
    counted. *)
Lemma seed_status_coherent_witness :
  let w' := after (SeedStatusController.Reconcile seed_env (seed_key "europe")) (seeds_with europe) in
  ∃ y, cell_view sst_seeds "master" (seed_key "europe") w' = Some y ∧ sdt_phase (sd_status y) = "Invalid" ∧
    condition_of y "KubeconfigValid" = Some ("False", "ClusterUninitialized") ∧ sdt_clusters (sd_status y) = 2.
Proof.
  pose proof (seed_status_coherent seed_env (seed_key "europe") europe (seeds_with europe) (Ok (mkResult false (5 * Second)))
    (after (SeedStatusController.Reconcile seed_env (seed_key "europe")) (seeds_with europe))) as Hrun.
  destruct (Hrun (seed_stored europe) (ran _ _ _ ltac:(vm_compute; reflexivity))) as [_ (y & Hy & (Hm & _) & Hok)].
  destruct (Hok _ eq_refl) as [Hrep _]. destruct (Hrep eq_refl) as [H1 _ H3 _ _ H6].
  exists y. split; [exact Hy|]. split; [|split; [exact H1|exact H6]]. rewrite H3. injection Hm as _ Ha _. rewrite Ha. reflexivity.
Defined.

(** ** Constraints of a seed *)

Definition no_selector : LabelSelector := emptySelector.
Definition some_match : ConstraintMatch := mkMatch [mkKindMatch ["Namespace"] [""]] "" [] [] no_selector no_selector.
Definition need_labels : ConstraintSpec :=
  mkConstraintSpec "K8sRequiredLabels" false some_match [("labels", JArray [JString "gatekeeper"])] (mkConstraintSelector [] no_selector).
Definition constraint_in (ns : string) (finalizers : list string) (deleted : option Z) : Constraint :=
  mkSpecObject (mkObjectMeta "need-labels" ns "uid-n" ∅ ∅ finalizers [] 0 deleted "1") need_labels.
Definition opa_cluster (name env : string) (paused : bool) : Cluster :=
  let c := plain_cluster in
  let s := cl_spec c in
  let t := cl_status c in
  mkCluster (mkObjectMeta name "" name {["env" := env]} ∅ [] [] 0 None "1")
    (mkClusterSpec (sp_humanReadableName s) (sp_version s) (sp_cloud s) (sp_containerRuntime s) (sp_cniPlugin s) (sp_clusterNetwork s)
       (sp_machineNetworks s) (sp_exposeStrategy s) (sp_componentsOverride s) (sp_features s) false (sp_enableUserSSHKeyAgent s) false None None
       paused None {["opaIntegration.enabled" := "true"]})
    (mkClusterStatus 0 up 0 ("cluster-" +:+ name) (cs_versions t) "" "" None None ∅ "" 0 ∅ None None) (cl_address c) (cl_typeMeta c).
Definition fleet : list Cluster := [opa_cluster "a" "prod" false; opa_cluster "b" "dev" false; opa_cluster "c" "prod" true].
Definition prod_only (s : LabelSelector) : outcome (gmap string string → bool) := Ok (λ m, bool_decide (m !! "env" = Some "prod")).

(** A patch keeps the deletion timestamp; the last finalizer of a deleted object takes
    the object with it. *)
Definition constraint_patch (old new : Constraint) : M (cells Constraint) Constraint := λ w,
  match cell_view id "" (object_key old) w with
  | None => (Err missing, w)
  | Some x =>
      let o := mkSpecObject (set_deletion (om_deletionTimestamp (so_meta x)) (so_meta new)) (so_spec new) in
      match om_finalizers (so_meta new), om_deletionTimestamp (so_meta x) with
      | [], Some _ => (Ok o, cell_drop id whole "" (object_key old) w)
      | _, _ => (Ok o, cell_put id whole "" o w)
      end
  end.
Definition constraint_base : Client (cells Constraint) Constraint := cell_client id whole same_object "".
Definition constraint_env : ConstraintEnv (cells Constraint) :=
  mkConstraintEnv _ (mkClient (c_get constraint_base) (c_list constraint_base) (c_create constraint_base) (c_update constraint_base)
    constraint_patch (c_status_patch constraint_base) (c_delete constraint_base)) (mret fleet) prod_only true (λ _ _, false) once (λ _ _ w, w).
Lemma constraint_laws : at_store (λ _ : unit, cell_view id "") constraint_main no_status (ce_constraints constraint_env) tt.
Proof.
  assert (Hc : at_store (cell_view id) constraint_main no_status constraint_base "") by (by apply cell_laws).
  apply at_store_unit in Hc as [C1 C2 C3 C4 C5 C6 C7]. by split.
Qed.
#[export] Program Instance constraint_world : ConstraintWorld constraint_env :=
  {| kw_view _ := cell_view id ""; kw_clusters _ := fleet; kw_namespace := "kubermatic" |}.
Next Obligation. exact constraint_laws. Qed.
Next Obligation.
  intros old new w z w' E Hv Hk Hs. simpl in E. unfold constraint_patch in E. rewrite Hv in E. set (o := mkSpecObject _ _) in E.
  assert (Ho : object_key o = object_key old) by (by rewrite <- Hk). assert (Hz : z = Ok o) by (repeat case_match; by injection E). subst z.
  assert (w' = cell_put id whole "" o w ∨ (w' = cell_drop id whole "" (object_key old) w ∧ finalizers new = [] ∧ is_Some (deletion old))) as [-> | (-> & Hf & Hd)].
  { unfold finalizers, deletion. simpl. destruct (om_finalizers (so_meta new)), (om_deletionTimestamp (so_meta old)) eqn:Ed; injection E as <-; naive_solver. }
  - split; [intros [] k Hne; rewrite cell_view_put, Ho, decide_False; [done|congruence|done]|]. right. right. exists o.
    rewrite cell_view_put, Ho, decide_True by done. split_and!; try done. by intros v [= <-].
  - split; [intros [] k Hne; rewrite cell_view_drop, decide_False; [done|congruence|done]|]. right. left.
    by rewrite cell_view_drop, decide_True.
Qed.
Next Obligation. by intros i k w z w' [= _ <-]. Qed.
Next Obligation. by intros w l w' [= <- _]. Qed.
Next Obligation. done. Qed.
Next Obligation. intros w. vm_compute. repeat constructor; set_solver. Qed.
Next Obligation. intros w c Hc. apply list_elem_of_In in Hc. simpl in Hc. by destruct Hc as [<-|[<-|[<-|[]]]]. Qed.
Next Obligation. done. Qed.
Next Obligation. intros. by apply once_keeps. Qed.
Next Obligation. done. Qed.

Definition in_seed : NamespacedName := mkKey "kubermatic" "need-labels".
Definition everywhere : Constraint := constraint_in "kubermatic" [] None.
Definition constraints_before : cells Constraint :=
  <[("", mkKey "cluster-b" "need-labels") := constraint_in "cluster-b" [] None]>
  (<[("", mkKey "cluster-c" "need-labels") := constraint_in "cluster-c" [] None]> {[("", in_seed) := everywhere]}).
Definition distribute : M (cells Constraint) unit := SeedConstraints.Reconcile constraint_env in_seed.
Lemma everywhere_stored : cell_view id "" in_seed constraints_before = Some everywhere.
Proof. vm_compute. reflexivity. Qed.
Lemma distribute_ran : (distribute constraints_before).1 = Ok tt.
Proof. vm_compute. reflexivity. Qed.
Lemma takes_ab : takes_constraints (opa_cluster "a" "prod" false) ∧ takes_constraints (opa_cluster "b" "dev" false).
Proof. split; vm_compute; split_and!; done. Qed.
Lemma selects_a : selects constraint_env everywhere (opa_cluster "a" "prod" false).
Proof. intros _. split; [eexists; split; reflexivity|]. eexists. split; [reflexivity|by left]. Qed.
Lemma unselected_b : ¬ selects constraint_env everywhere (opa_cluster "b" "dev" false).
Proof. intros H. destruct (H eq_refl) as [(matches & [= <-] & Hm) _]. by apply bool_decide_eq_true in Hm. Qed.

(** The selected cluster gets a copy, the other one loses its copy, and the copy of the
    paused cluster stays. *)
Lemma constraint_distribution_witness : let w' := after distribute constraints_before in
  same_main constraint_main (SeedConstraints.addLabel everywhere) (cell_view id "" (mkKey "cluster-a" "need-labels") w') ∧
  gone (cell_view id "" (mkKey "cluster-b" "need-labels") w') ∧
  cell_view id "" (mkKey "cluster-c" "need-labels") w' = cell_view id "" (mkKey "cluster-c" "need-labels") constraints_before.
Proof.
  pose proof (constraint_distribution constraint_env in_seed everywhere constraints_before (Ok tt) (after distribute constraints_before)
    eq_refl everywhere_stored (ran _ _ _ distribute_ran)) as (Hframe & Hlive & _).
  destruct (Hlive eq_refl) as [_ Hok]. destruct (Hok eq_refl) as (_ & Hp). split_and!.
  - apply (Hp (opa_cluster "a" "prod" false)); [left|apply takes_ab|apply selects_a].
  - apply (Hp (opa_cluster "b" "dev" false)); [right; left|apply takes_ab|apply unselected_b].
  - apply (Hframe (mkKey "cluster-c" "need-labels")); [done|]. intros c Hc (Hpause & _). apply list_elem_of_In in Hc.
    destruct Hc as [<-|[<-|[<-|[]]]]; done.
Defined.

Definition no_constraints : cells Constraint := ∅.
(** A request for a constraint that is gone. *)
Lemma missing_constraint_fails_witness : (distribute no_constraints).1 ≠ Ok tt.
Proof. exact (missing_constraint_fails constraint_env in_seed no_constraints _ _ eq_refl (ran _ _ _ eq_refl)). Defined.

(** ** Constraints of a user cluster *)

Record SyncerState := mkSyncerState { sn_copies : cells Constraint; sn_objects : cells Unstructured }.
Definition put_copies (t : cells Constraint) (w : SyncerState) : SyncerState := mkSyncerState t (sn_objects w).
Definition put_objects (t : cells Unstructured) (w : SyncerState) : SyncerState := mkSyncerState (sn_copies w) t.
Definition raw (text : string) : outcome JSON := if String.eqb text "{}" then Ok (JObject []) else Err (ErrNew "invalid character").
Definition syncer_env : ConstraintSyncEnv SyncerState :=
  mkConstraintSyncEnv _ (cell_client sn_copies put_copies same_object "") (λ kind, cell_client sn_objects put_objects same_object kind)
    (mret false) false raw (mem_retry _) (λ _ _, false) once (λ _ _ w, w).
#[export] Program Instance syncer_stores : SyncerWorld syncer_env := {| yw_seed _ := cell_view sn_copies ""; yw_user := cell_view sn_objects |}.
Next Obligation. by apply (at_store_unit (cell_view sn_copies)), cell_laws. Qed.
Next Obligation. intros kind. by apply cell_laws. Qed.
Next Obligation. intros k kind k'. by apply (cell_frame sn_copies put_copies same_object). Qed.
Next Obligation. intros k kind k'. by apply (cell_frame sn_copies put_copies same_object). Qed.
Next Obligation. intros kind k i k'. by apply (cell_frame sn_objects put_objects same_object). Qed.
Next Obligation. intros kind k i k'. by apply (cell_frame sn_objects put_objects same_object). Qed.
Next Obligation. intros kind k i k'. by apply (cell_frame sn_objects put_objects same_object). Qed.
Next Obligation. intros kind k i k'. by apply (cell_frame sn_objects put_objects same_object). Qed.
Next Obligation. done. Qed.
Next Obligation. intros. by apply once_keeps. Qed.
Next Obligation. done. Qed.
Next Obligation. done. Qed.

Definition copy_in_a : Constraint := constraint_in "cluster-a" [] None.
Definition gatekeeper_key : NamespacedName := mkKey "" "need-labels".
Definition synced_before : SyncerState := mkSyncerState {[("", mkKey "cluster-a" "need-labels") := copy_in_a]} ∅.
Definition sync_constraint : M SyncerState unit := ConstraintSyncer.Reconcile syncer_env (mkKey "cluster-a" "need-labels").
Lemma copy_stored : cell_view sn_copies "" (mkKey "cluster-a" "need-labels") synced_before = Some copy_in_a.
Proof. vm_compute. reflexivity. Qed.
Lemma sync_ran : (sync_constraint synced_before).1 = Ok tt.
Proof. vm_compute. reflexivity. Qed.

(** The copy is applied to the user cluster and guarded. *)
Lemma constraint_guard_witness : let w' := after sync_constraint synced_before in
  (∃ u, cell_view sn_objects "K8sRequiredLabels" gatekeeper_key w' = Some u ∧ applied syncer_env copy_in_a u) ∧
  ∃ y, cell_view sn_copies "" (mkKey "cluster-a" "need-labels") w' = Some y ∧ GatekeeperConstraintCleanupFinalizer ∈ finalizers y.
Proof.
  pose proof (constraint_guard syncer_env (mkKey "cluster-a" "need-labels") copy_in_a false synced_before (Ok tt) (after sync_constraint synced_before)
    eq_refl copy_stored eq_refl (ran _ _ _ sync_ran)) as (_ & Hlive & _).
  destruct (Hlive eq_refl) as (_ & _ & Hok). destruct (Hok eq_refl) as [H1 H2]. by split.
Defined.

(** Without parameters, those that the object has stay in force. *)
Definition without_parameters : Constraint :=
  mkSpecObject (so_meta copy_in_a) (mkConstraintSpec "K8sRequiredLabels" false some_match [] (mkConstraintSelector [] no_selector)).
Definition enforced : Unstructured :=
  mkUnstructured emptyMeta [("spec", JObject [("parameters", JObject [("labels", JArray [JString "gatekeeper"])])])].
Lemma constraint_rendering_witness : ∃ u', ConstraintSyncer.constraintCreatorGetter syncer_env without_parameters enforced = Ok u' ∧
  spec_field ConstraintSyncer.parametersField u' = Some (JObject [("labels", JArray [JString "gatekeeper"])]).
Proof.
  eexists. split; [reflexivity|].
  pose proof (constraint_rendering syncer_env without_parameters enforced _ eq_refl) as (_ & _ & _ & _ & Hempty & _).
  exact (Hempty eq_refl).
Defined.

(** ** Constraint templates *)

Record RolloutState := mkRolloutState {
  ro_templates : cells (SpecObject (ConstraintTemplateSpec string string));
  ro_users : cells (SpecObject (string * string));
  ro_clients : gmap string string;
}.
Definition put_templates (t : cells (SpecObject (ConstraintTemplateSpec string string))) (w : RolloutState) : RolloutState :=
  mkRolloutState t (ro_users w) (ro_clients w).
Definition put_users (t : cells (SpecObject (string * string))) (w : RolloutState) : RolloutState :=
  mkRolloutState (ro_templates w) t (ro_clients w).
Definition opa_fleet (s : option (gmap string string → bool)) : list Cluster :=
  match s with None => fleet | Some matches => List.filter (λ c, matches (om_labels (cl_meta c))) fleet end.

(** The world of clients that belong to their clusters. *)
Definition cached_client (w : RolloutState) (n : string) : option string :=
  match ro_clients w !! n with Some h => if String.eqb h n then Some h else None | None => None end.
Definition rollout_env : TemplateSyncEnv RolloutState string string string :=
  mkTemplateSyncEnv _ _ _ _ (cell_client ro_templates put_templates same_object "") (λ s, mret (opa_fleet s)) prod_only true cached_client
    (λ n h w, mkRolloutState (ro_templates w) (ro_users w) (<[n := h]> (ro_clients w))) (λ c, mret (om_name (cl_meta c)))
    (λ h, cell_client ro_users put_users same_object h) ("", "") (mem_retry _) (λ _ _, false) once (λ _ _ w, w).
#[export] Program Instance rollout_world : TemplateWorld rollout_env := {| tw_seed _ := cell_view ro_templates ""; tw_user := cell_view ro_users |}.
Next Obligation. by apply (at_store_unit (cell_view ro_templates)), cell_laws. Qed.
Next Obligation.
  intros w n h. simpl. unfold cached_client. destruct (ro_clients w !! n) as [x|]; [|done].
  destruct (String.eqb_spec x n) as [->|]; [|done]. intros [= <-]. by apply cell_laws.
Qed.
Next Obligation. intros c w h w' [= <- _]. by apply cell_laws. Qed.
Next Obligation. by intros c i k w z w' [= _ <-]. Qed.
Next Obligation. by intros c i k w z w' [= _ <-]. Qed.
Next Obligation. done. Qed.
Next Obligation. done. Qed.
Next Obligation. by intros s i k w z w' [= _ <-]. Qed.
Next Obligation. by intros s i k w z w' [= _ <-]. Qed.
Next Obligation. intros k i k'. by apply (cell_frame ro_templates put_templates same_object). Qed.
Next Obligation. intros o i k'. by apply (cell_frame ro_templates put_templates same_object). Qed.
Next Obligation. intros h k i k'. by apply (cell_frame ro_users put_users same_object). Qed.
Next Obligation. intros h k i k'. by apply (cell_frame ro_users put_users same_object). Qed.
Next Obligation. intros h k i k'. by apply (cell_frame ro_users put_users same_object). Qed.
Next Obligation. intros h k i k'. by apply (cell_frame ro_users put_users same_object). Qed.
Next Obligation. done. Qed.
Next Obligation. intros. by apply once_keeps. Qed.
Next Obligation. done. Qed.
Next Obligation. done. Qed.

Definition required_labels : SpecObject (ConstraintTemplateSpec string string) :=
  mkSpecObject (mkObjectMeta "required-labels" "" "uid-r" ∅ ∅ [] [] 0 None "1") (mkTemplateSpec "crd" "rego" (mkConstraintSelector [] no_selector)).
Definition rollout_key : NamespacedName := mkKey "" "required-labels".
Definition rollout_before : RolloutState := mkRolloutState {[("", rollout_key) := required_labels]} ∅ ∅.
Definition roll_out : M RolloutState unit := UserClusterTemplates.Reconcile rollout_env rollout_key.
Lemma roll_out_ran : (roll_out rollout_before).1 = Ok tt.
Proof. vm_compute. reflexivity. Qed.
Lemma template_stored : cell_view ro_templates "" rollout_key rollout_before = Some required_labels.
Proof. vm_compute. reflexivity. Qed.
Definition prod_cluster : Cluster := opa_cluster "a" "prod" false.
Lemma prod_selected : selected rollout_env required_labels [prod_cluster].
Proof.
  intros y w l w' Hs E c [-> |[]%elem_of_nil]%elem_of_cons. cbn in E. injection E as <- _.
  unfold UserClusterTemplates.filterProvider. rewrite Hs. left.
Qed.

Lemma template_rollout_witness : let w' := after roll_out rollout_before in
  same_main so_spec (user_template required_labels) (cell_view ro_users "a" rollout_key w').
Proof.
  pose proof (template_rollout rollout_env rollout_key required_labels rollout_before (Ok tt) (after roll_out rollout_before) [prod_cluster]
    template_stored eq_refl eq_refl prod_selected (ran _ _ _ roll_out_ran)) as (_ & Hlive & _).
  destruct (Hlive eq_refl) as [_ Hok]. destruct (Hok eq_refl) as [_ H]. apply (H prod_cluster); [left|reflexivity].
Defined.
