(* ===== verification/WitnessUser.v ===== *)
(** * Concrete runs beside a user cluster

    Stores in memory for roles, bindings, nodes and applications, and the theorems at work
    on them. *)

From S2P Require Import Prelude ResourceNames Kube Semver Net CloudApi ClusterApi Helper HelperSpec Corev1 Field ClusterDefaulting ClusterValidation Rbac RbacSync Reconciling ClusterDeletion ClusterHealth MasterApi MasterSync MasterSyncSpec ProjectMembers SeedProjects SeedProjectsSpec UpdateController UpdateControllerSpec UserCluster UserClusterSpec Applications ApplicationsSpec Memory Samples WitnessMaster.

(** Some of the stores, under other names. *)
Lemma at_store_named {W O I J X Y} `{Object O} (f : J → I) (view : I → NamespacedName → W → option O) (main : O → X) (status : O → Y) client j :
  Inj (=) (=) f → at_store view main status client (f j) → at_store (λ j, view (f j)) main status client j.
Proof.
  intros Hf [H1 H2 H3 H4 H5 H6 H7].
  assert (He : ∀ k w w', elsewhere view (f j) k w w' → elsewhere (λ j, view (f j)) j k w w').
  { intros k w w' He j' k' Hne. apply He. intros [= ->%Hf ->]. by apply Hne. }
  split.
  - intros k j' k'. apply (H1 k (f j') k').
  - exact H2.
  - exact H3.
  - intros o w z w' E. destruct (H4 o w z w' E) as [? ?]. eauto.
  - intros o w z w' E. destruct (H5 o w z w' E) as (? & ? & ?). eauto.
  - intros old new w z w' E Hv. destruct (H6 old new w z w' E Hv) as [? ?]. eauto.
  - intros o w z w' E. destruct (H7 o w z w' E) as (? & ? & ?). eauto.
Qed.

Definition no_client {W O} : Client W O :=
  mkClient (λ _, throw missing) (λ _, mret []) (λ _, throw missing) (λ _, throw missing) (λ _ _, throw missing) (λ _ _, throw missing)
    (λ _, throw missing).
Definition keep_first {O} (o _ : O) : O := o.

(** ** Access and nodes *)

Record UserState := mkUserState { us_roles : cells Role; us_bindings : cells RoleBinding; us_nodes : cells Node }.
Definition put_roles (t : cells Role) (w : UserState) : UserState := mkUserState t (us_bindings w) (us_nodes w).
Definition put_bindings (t : cells RoleBinding) (w : UserState) : UserState := mkUserState (us_roles w) t (us_nodes w).
Definition put_nodes (t : cells Node) (w : UserState) : UserState := mkUserState (us_roles w) (us_bindings w) t.
Definition kind_name (namespaced : bool) : string := if namespaced then "roles" else "clusterRoles".
#[local] Instance kind_name_inj : Inj (=) (=) kind_name.
Proof. by intros [] []. Qed.

Definition space (name : string) (deleted : option Z) : Namespace :=
  mkNamespace (mkObjectMeta name "" "uid" ∅ ∅ [] [] 0 deleted "1") (mkTypeMeta "Namespace" "v1").
Definition spaces : list Namespace := [space "kube-system" None; space "default" None; space "going" (Some 4)].
Definition user_env : UserEnv UserState :=
  mkUserEnv _ (mret false) (cell_client us_roles put_roles keep_first "clusterRoles") (cell_client us_bindings put_bindings keep_first "")
    (cell_client us_roles put_roles keep_first "roles") (mret spaces) (cell_client us_nodes put_nodes keep_first "") (mret []) no_client "abc"
    "owner@example.com" {["team" := "blue"]} map_to_list (λ _, "") sample_versions (mem_retry _) (λ w, (7, w)) (λ w, ("x", w)) (λ _ _, false) (λ _ _, false) once id
    (λ _ _ w, w).

#[export] Program Instance user_access : AccessWorld user_env :=
  {| xw_role namespaced := cell_view us_roles (kind_name namespaced); xw_binding _ := cell_view us_bindings ""; xw_spaces _ := spaces; xw_paused _ := false |}.
Next Obligation. by apply (at_store_named kind_name (cell_view us_roles) _ _ _ false _), cell_laws. Qed.
Next Obligation. by apply (at_store_named kind_name (cell_view us_roles) _ _ _ true _), cell_laws. Qed.
Next Obligation. by apply (at_store_unit (cell_view us_bindings)), cell_laws. Qed.
Next Obligation. intros w z w' [= <- <-]. split; [done|]. by intros b [= <-]. Qed.
Next Obligation. done. Qed.
Next Obligation. by intros i k w z w' [= _ <-]. Qed.
Next Obligation. by intros w l w' [= <- _]. Qed.
Next Obligation. intros k i k'. by apply (cell_frame us_roles put_roles keep_first). Qed.
Next Obligation. intros k i k'. by apply (cell_frame us_roles put_roles keep_first). Qed.
Next Obligation. intros k i k'. by apply (cell_frame us_roles put_roles keep_first). Qed.
Next Obligation. intros k i k'. by apply (cell_frame us_bindings put_bindings keep_first). Qed.
Next Obligation. intros k i k'. by apply (cell_frame us_bindings put_bindings keep_first). Qed.
Next Obligation. intros k i k'. by apply (cell_frame us_bindings put_bindings keep_first). Qed.
Next Obligation. done. Qed.
Next Obligation. done. Qed.
Next Obligation. intros. by apply once_keeps. Qed.
Next Obligation. done. Qed.
Next Obligation. done. Qed.

Definition nothing_yet : UserState := mkUserState ∅ ∅ ∅.
Definition viewer_key : NamespacedName := mkKey "" UserRbac.ResourceViewerName.
Definition viewers : Subject := mkSubject rbacGroupName "Group" ViewerGroupNamePrefix "".
Definition give_access : M UserState unit := UserRbac.Reconcile user_env viewer_key.
Lemma give_access_ran : (give_access nothing_yet).1 = Ok tt.
Proof. vm_compute. reflexivity. Qed.

(** Viewers cannot read secrets. *)
Lemma user_cluster_access_witness : let w' := after give_access nothing_yet in
  can user_env w' viewer_key viewers "" "secrets" "get" ↔ False.
Proof.
  intros w'. split; [intros Hc|done].
  pose proof (user_cluster_access user_env viewer_key nothing_yet (Ok tt) w') as Hrun.
  destruct (Hrun ltac:(apply (bool_decide_unpack _); vm_compute; reflexivity) (ran _ _ _ give_access_ran)) as (_ & _ & _ & Hok).
  destruct (Hok eq_refl eq_refl) as (g & [= <-] & Honly & _). destruct (Honly _ _ _ _ Hc) as [_ Hv]. by destruct (Hv eq_refl) as (_ & _ & Hs); apply Hs.
Defined.
(** They can list pods. *)
Lemma viewers_read : ∃ b role, cell_view us_bindings "" viewer_key (after give_access nothing_yet) = Some b ∧ viewers ∈ rb_subjects b ∧
  cell_view us_roles "clusterRoles" viewer_key (after give_access nothing_yet) = Some role ∧
  existsb (λ rule, bool_decide ("pods" ∈ pr_resources rule ∧ "list" ∈ pr_verbs rule)) (ro_rules role) = true.
Proof. eexists _, _. split; [vm_compute; reflexivity|]. split; [left|]. split; vm_compute; reflexivity. Qed.

(** A role of the system namespace reaches the namespace that is not going away. *)
Definition secret_reader : Role :=
  mkRole (mkObjectMeta "reader" "kube-system" "uid-r" {["component" := "userClusterRole"]} ∅ [] [] 0 None "1") [mkPolicyRule [""] ["secrets"] [] ["get"]].
Definition reader_key : NamespacedName := mkKey "kube-system" "reader".
Definition reader_only : UserState := mkUserState {[("roles", reader_key) := secret_reader]} ∅ ∅.
Definition clone_reader : M UserState unit := RoleCloner.Reconcile user_env reader_key.
Lemma clone_reader_ran : (clone_reader reader_only).1 = Ok tt.
Proof. vm_compute. reflexivity. Qed.
Lemma reader_stored : cell_view us_roles "roles" reader_key reader_only = Some secret_reader.
Proof. vm_compute. reflexivity. Qed.
Lemma role_clones_witness : let w' := after clone_reader reader_only in
  same_main role_main secret_reader (cell_view us_roles "roles" (mkKey "default" "reader") w') ∧
  cell_view us_roles "roles" (mkKey "going" "reader") w' = None.
Proof.
  pose proof (role_clones user_env reader_key secret_reader reader_only (Ok tt) (after clone_reader reader_only) eq_refl reader_stored
    (ran _ _ _ clone_reader_ran)) as (Hframe & _ & Hrun).
  destruct (Hrun eq_refl) as [Hlive _]. destruct (Hlive eq_refl) as [_ Hok]. destruct (Hok eq_refl) as [_ Hcopies]. split.
  - apply (Hcopies (space "default" None)). split; [right; left|done..].
  - etrans; [apply (Hframe true (mkKey "going" "reader")); [done|]|vm_compute; reflexivity]. intros n [[<-|[<-|[<-|[]]]]%list_elem_of_In Hn Hl]; done.
Defined.

(** ** Labels of nodes *)

#[export] Program Instance user_labels : LabelledNodes user_env := {| ln_node := cell_view us_nodes "" |}.
Next Obligation. done. Qed.
Next Obligation. intros k k'. apply cell_get_keeps. Qed.
Next Obligation. intros k w o w' E. by apply cell_get_ok in E. Qed.
Next Obligation. intros k w e w' E _. simpl in E. by destruct (cell_view us_nodes "" k w). Qed.
Next Obligation.
  intros old new w z w' E Hv Hk. simpl in E. rewrite Hv in E. injection E as <- <-. set (o := mkNode _ _ _).
  assert (Ho : object_key o = object_key old) by done. split; [intros k Hne; rewrite cell_view_put, Ho, decide_False; [done|congruence|done]|]. right. exists o. by rewrite cell_view_put, Ho, decide_True.
Qed.
Next Obligation. done. Qed.

Definition some_node : Node := mkNode (mkObjectMeta "n1" "" "uid-n" {["zone" := "a"]} ∅ [] [] 0 None "1") "Flatcar Container Linux by Kinvolk 3139" "v1.22.5".
Definition node_key : NamespacedName := mkKey "" "n1".
Definition one_node : UserState := mkUserState ∅ ∅ {[("", node_key) := some_node]}.
Definition label_node : M UserState unit := NodeLabeler.Reconcile user_env node_key.
Lemma label_node_ran : (label_node one_node).1 = Ok tt.
Proof. vm_compute. reflexivity. Qed.
Lemma node_stored : cell_view us_nodes "" node_key one_node = Some some_node.
Proof. vm_compute. reflexivity. Qed.
Lemma node_labels_witness : ∃ y, cell_view us_nodes "" node_key (after label_node one_node) = Some y ∧
  om_labels (nd_meta y) !! "zone" = Some "a" ∧ map_str (om_labels (nd_meta y)) "team" = "blue".
Proof.
  pose proof (node_labels user_env node_key some_node one_node (Ok tt) (after label_node one_node) node_stored (ran _ _ _ label_node_ran)) as (_ & Hy & _).
  destruct Hy as (y & Hy & _ & Hok). destruct (Hok eq_refl) as [_ Hc Ho]. exists y. split; [exact Hy|]. split.
  - rewrite (Ho "zone"); [reflexivity|vm_compute; reflexivity|done].
  - apply (Hc "team" "blue"); [vm_compute; reflexivity|done].
Defined.
Lemma flatcar_found : om_labels (nd_meta some_node) !! NodeLabeler.DistributionLabelKey = None ∧
  NodeLabeler.findDistributionLabel user_env (nd_osImage some_node) = NodeLabeler.FlatcarLabelValue.
Proof. split; vm_compute; reflexivity. Qed.

(** With an image that names two distributions of the same length, the order in which the
    map is iterated decides. *)
Definition reversed_env : UserEnv UserState :=
  mkUserEnv _ (mret false) no_client no_client no_client (mret spaces) no_client (mret []) no_client "abc" "" ∅ (λ m, rev (map_to_list m)) (λ _, "")
    sample_versions (mem_retry _) (λ w, (7, w)) (λ w, ("x", w)) (λ _ _, false) (λ _ _, false) once id (λ _ _ w, w).
Lemma tie_depends_on_order : (∀ m, uz_order reversed_env m ≡ₚ map_to_list m) ∧
  NodeLabeler.findDistributionLabel user_env "centos on ubuntu" ≠ NodeLabeler.findDistributionLabel reversed_env "centos on ubuntu".
Proof. split; [intros m; symmetry; apply Permutation_rev|by vm_compute]. Qed.

(** ** The oldest node *)

Definition pool : list Node :=
  [mkNode emptyMeta "ubuntu" "v1.22.5"; mkNode emptyMeta "ubuntu" "v1.21.8"; mkNode emptyMeta "ubuntu" "v1.22.0"].
Definition pool_client : Client Mem Node :=
  mkClient (λ _, throw missing) (λ _, mret pool) (λ _, throw missing) (λ _, throw missing) (λ _ _, throw missing) (λ _ _, throw missing) (λ _, throw missing).
Definition report_env : UserEnv Mem :=
  mkUserEnv _ (mret false) no_client no_client no_client (mret []) pool_client (mret []) (mem_client Cluster) "abc" "" ∅ map_to_list (λ _, "") sample_versions
    (mem_retry _) mem_now mem_rand (λ _ _, false) (λ _ _, false) once id (λ _ _ w, w).
#[export] Program Instance report_world : NodeWorld report_env := {| nw_clusters := mem_cluster_world; nw_nodes _ := pool |}.
Next Obligation. by intros k o w z w' [= _ <-]. Qed.
Next Obligation. by intros w l w' [= <- _]. Qed.

Definition abc_world : Mem := with_cluster plain_cluster (empty_mem 0).
Definition report : M Mem unit := NodeVersion.Reconcile report_env abc.
Lemma report_ran : (report abc_world).1 = Ok tt.
Proof. vm_compute. reflexivity. Qed.
Lemma oldest_node_reported_witness : ∃ v', mem_cview abc (after report abc_world) = Some v' ∧
  least (cv_oldestNodeVersion (versions_of v')) pool.
Proof.
  pose proof (oldest_node_reported report_env abc plain_cluster abc_world (Ok tt) (after report abc_world)) as Hrun.
  destruct (Hrun ltac:(vm_compute; reflexivity) (ran _ _ _ report_ran)) as (v' & Hv & _ & _ & Hok). exists v'. split; [exact Hv|]. exact (proj1 (Hok eq_refl)).
Defined.
Lemma oldest_is_121 : (λ v, cv_oldestNodeVersion (cs_versions (cl_status v))) <$> mem_cview abc (after report abc_world) = Some (Some "1.21.8").
Proof. vm_compute. reflexivity. Qed.

(** ** Applications *)

Record AppState := mkAppState { as_installs : cells ApplicationInstallation; as_spaces : cells Namespace }.
Definition put_installs (t : cells ApplicationInstallation) (w : AppState) : AppState := mkAppState t (as_spaces w).
Definition put_spaces (t : cells Namespace) (w : AppState) : AppState := mkAppState (as_installs w) t.
Definition install_status (o s : ApplicationInstallation) : ApplicationInstallation := mkInstallation (ai_meta o) (ai_spec o) (ai_applicationVersion s).
Definition chart : ApplicationVersion :=
  mkApplicationVersion "1.22.5" (mkApplicationConstraints "" "")
    (mkApplicationTemplate (mkApplicationSource (Some (mkHelmSource "https://charts.example.com" "web" "2.0.0" None)) None) "helm" []).
Definition web_app : ApplicationDefinition := mkApplicationDefinition (mkObjectMeta "web" "" "uid-w" ∅ ∅ [] [] 0 None "1") "a web server" [chart].
Definition offered_apps (k : NamespacedName) : option ApplicationDefinition := if decide (k = mkKey "" "web") then Some web_app else None.
Definition app_definitions : Client AppState ApplicationDefinition :=
  mkClient (λ k w, (match offered_apps k with Some d => Ok d | None => Err missing end, w)) (λ _, mret [web_app]) (λ _, throw missing) (λ _, throw missing)
    (λ _ _, throw missing) (λ _ _, throw missing) (λ _, throw missing).
Definition app_env : ApplicationEnv AppState :=
  mkApplicationEnv app_definitions (cell_client as_installs put_installs install_status "") (cell_client as_spaces put_spaces keep_first "")
    (mret false) (mem_retry _) (λ _ _, false) once (λ _ _ w, w).

Lemma app_frame {A} (v : AppState → A) : (∀ t w, v (put_installs t w) = v w) →
  (∀ k, keeps v (c_get (pe_installations app_env) k)) ∧ (∀ o, keeps v (c_create (pe_installations app_env) o)) ∧
  (∀ o, keeps v (c_update (pe_installations app_env) o)) ∧ (∀ o, keeps v (c_delete (pe_installations app_env) o)) ∧
  (∀ old new, keeps v (c_status_patch (pe_installations app_env) old new)).
Proof.
  intros Hv. destruct (cell_frame as_installs put_installs install_status v "" Hv) as (H1 & H2 & H3 & H4). split_and!; [done..|].
  intros old new w z w' E. simpl in E. destruct (cell_view as_installs "" (object_key old) w); injection E as _ <-; [apply Hv|done].
Qed.
Definition beside_installs k := app_frame (λ w, (cell_view as_spaces "" k w, offered_apps k)) (λ _ _, eq_refl).
#[export] Program Instance app_world : ApplicationWorld app_env :=
  {| aw_definition k _ := offered_apps k; aw_installation _ := cell_view as_installs ""; aw_namespace _ := cell_view as_spaces ""; aw_paused _ := false |}.
Next Obligation. by apply (at_store_unit (cell_view as_installs)), cell_laws. Qed.
Next Obligation. by apply (at_store_unit (cell_view as_spaces)), cell_laws. Qed.
Next Obligation. intros w z w' [= <- <-]. split; [done|]. by intros b [= <-]. Qed.
Next Obligation. intros k w d w' E. simpl in E |- *. destruct (offered_apps k); [|done]. by injection E as -> _. Qed.
Next Obligation. intros k w e w' E _. simpl in E |- *. by destruct (offered_apps k). Qed.
Next Obligation. by intros k i k' w z w' [= _ <-]. Qed.
Next Obligation. by intros k i k' w z w' [= _ <-]. Qed.
Next Obligation.
  intros old new w z w' x E Hv Hs. simpl in E. rewrite Hv in E. injection E as <- <-. pose proof (cell_view_key _ _ _ _ _ Hv) as Hk.
  set (o := install_status x new). assert (Ho : object_key o = object_key old) by done.
  split; [intros [] k Hne; rewrite cell_view_put, Ho, decide_False; [done|congruence|done]|]. right. exists o. rewrite cell_view_put, Ho, decide_True by done.
  split_and!; try done. by intros v [= <-].
Qed.
Next Obligation. intros k i k'. exact (proj1 (beside_installs k') k). Qed.
Next Obligation. intros o i k'. exact (proj1 (proj2 (proj2 (beside_installs k'))) o). Qed.
Next Obligation. intros old new i k'. exact (proj2 (proj2 (proj2 (proj2 (beside_installs k')))) old new). Qed.
Next Obligation. intros o i k'. exact (proj1 (proj2 (proj2 (proj2 (beside_installs k')))) o). Qed.
Next Obligation. intros k i k'. by apply (cell_frame as_spaces put_spaces keep_first). Qed.
Next Obligation. intros k i k'. by apply (cell_frame as_spaces put_spaces keep_first). Qed.
Next Obligation. intros k i k'. by apply (cell_frame as_spaces put_spaces keep_first). Qed.
Next Obligation. intros k i k'. by apply (cell_frame as_spaces put_spaces keep_first). Qed.
Next Obligation. done. Qed.
Next Obligation. intros. by apply once_keeps. Qed.
Next Obligation. done. Qed.
Next Obligation. done. Qed.

Definition web_spec (app : string) : ApplicationInstallationSpec :=
  mkInstallationSpec (mkNamespaceSpec "web" true {["team" := "blue"]} ∅) (mkApplicationRef app r1_22_5) "".
Definition web_install (name app : string) (finalizers : list string) (deleted : option Z) : ApplicationInstallation :=
  mkInstallation (mkObjectMeta name "default" "uid-i" ∅ ∅ finalizers [] 0 deleted "1") (web_spec app) None.
Definition install_key (name : string) : NamespacedName := mkKey "default" name.
Definition install_run (name : string) : M AppState unit := InstallationController.Reconcile app_env (install_key name).
Definition to_install : AppState := mkAppState {[("", install_key "front") := web_install "front" "web" [] None]} ∅.
Lemma install_ran : (install_run "front" to_install).1 = Ok tt.
Proof. vm_compute. reflexivity. Qed.
Lemma front_stored : cell_view as_installs "" (install_key "front") to_install = Some (web_install "front" "web" [] None).
Proof. vm_compute. reflexivity. Qed.

(** The version is in the status, and the namespace has its label. *)
Lemma application_lifecycle_witness : let w' := after (install_run "front") to_install in
  (∃ y, cell_view as_installs "" (install_key "front") w' = Some y ∧ ai_applicationVersion y = Some chart) ∧
  has_asked (ais_namespace (web_spec "web")) (cell_view as_spaces "" (mkKey "" "web") w').
Proof.
  pose proof (application_lifecycle app_env (install_key "front") (web_install "front" "web" [] None) to_install (Ok tt) (after (install_run "front") to_install)
    front_stored (ran _ _ _ install_ran)) as [_ Hrun].
  destruct (Hrun eq_refl) as [Hlive _]. destruct (Hlive eq_refl) as [_ Hl]. destruct (rl_done _ _ _ _ _ _ Hl eq_refl) as [_ Hd].
  destruct Hd as [H1 H2]. split; [exact H1|]. exact (H2 eq_refl).
Defined.

(** Two installations in one namespace: when one of them is deleted, its run deletes the
    namespace of the other one, which stays installed. *)
Definition shared_space : AppState :=
  mkAppState (<[("", install_key "back") := web_install "back" "web" [ApplicationInstallationCleanupFinalizer] None]>
      {[("", install_key "front") := web_install "front" "web" [ApplicationInstallationCleanupFinalizer] (Some 5)]})
    {[("", mkKey "" "web") := space "web" None]}.
Lemma shared_namespace_deleted : let w' := after (install_run "front") shared_space in
  (install_run "front" shared_space).1 = Ok tt ∧ cell_view as_spaces "" (mkKey "" "web") shared_space = Some (space "web" None) ∧
  cell_view as_spaces "" (mkKey "" "web") w' = None ∧
  om_deletionTimestamp ∘ ai_meta <$> cell_view as_installs "" (install_key "back") w' = Some None.
Proof. split_and!; vm_compute; reflexivity. Qed.
